(* ===== verification/_CoqProject ===== *)
-Q . S2P
Prelude.v
Machine.v
CString.v
Format.v
Kalloc.v
PageTable.v
Locks.v
State.v
Vm.v
Uvm.v
Paging.v
Swap.v
PageFault.v
Proc.v
Keeps.v
Sched.v
Syscall.v
Exec.v
Trap.v
Bio.v
Cache.v
Log.v
Blocks.v
LogCrash.v
LogBlocks.v
LogSpace.v
LogExamples.v
Fs.v
FsAlloc.v
FsInode.v
FsWrite.v
FsFile.v
FsLayout.v
FsDir.v
FsExamples.v
Ends.v
Ring.v
Pipe.v
Pipeline.v
File.v
OpenFile.v
SwapDisk.v
Sysfile.v
Console.v
Kbd.v
Ide.v
Umalloc.v
Sh.v
ShRun.v
Grep.v
Mkfs.v
MkfsFs.v
Ports.v
Boot.v
Mp.v
Asm.v
Devices.v
Entry.v
UserProgs.v
SwapExamples.v
Examples.v
SchedExamples.v
TrapExamples.v
