(* ===== verification/Prelude.v ===== *)
(** A verification of the xv6 kernel with demand paging (assignment 3 of os192), from its
    boot loader to its user programs.

    * The program

    xv6 is a small Unix for the x86 in C. This version gives every process at most 16
    pages of memory at a time: the others are in a swap file of the process, page faults
    bring them back, and a policy chosen at compile time says which page goes out. User
    programs can allocate pages, protect them and free them again. Under src/ there are
    the kernel, its user library and programs, and the program that makes the disk image.

    The parts call each other in layers. Physical pages (kalloc.c) are the memory of page
    tables and processes (vm.c); processes (proc.c) are switched by the scheduler and enter
    the kernel by traps (trap.c) and system calls (syscall.c, sysproc.c, sysfile.c). Disk
    blocks are cached (bio.c) and written in transactions (log.c); on them are inodes,
    directories and paths (fs.c), and on those open files and pipes (file.c, pipe.c), and
    the swap files. The console, keyboard and disk drivers and the interrupt controllers
    are at the edge. bootasm.S and bootmain.c load the kernel, mp.c finds the processors,
    main.c starts them, and mkfs.c makes the first disk image.

    * How the code is modelled

    A C function that changes state is a computation of the monad [M S A] below: it
    returns, panics, does what the machine refuses ([Fault]), waits ([Blocked]) or runs out
    of fuel ([NoFuel]). [runs m s Q] is total correctness: [m] returns and [Q] holds.
    [ends m s Q] says that [m] never runs out of fuel. Integers are [Z] with their wrapping
    written out ([u32], [s32]); memory is a function from addresses to bytes; an array is a
    list; a pointer into an array is an index. A function that gives up the CPU is cut
    there into two halves. A spin lock that is held only inside one function makes that
    function one step; Locks.v has the locks themselves, instruction by instruction.
    Assembly is instructions on the registers and the memory. Devices are parameters: a
    class of operations on ports or registers, with the laws that a driver relies on. The
    small user programs are interaction trees over their system calls.

    Loops that are not structural take fuel. Where the fuel is computed from the state it is
    shown to be enough, as part of the theorems ([runs] holds only of a computation that
    returns): the search of malloc and free goes round a list that has fewer blocks than
    the heap has bytes; the parser of the shell has four calls for every byte; the path
    lookup of fs.c ends on every disk (Ends.v); select_SCFIFO takes two rounds. Loops that
    poll a device end when it answers: the bound is the device's, and part of its laws.

    * Files

    - Prelude: this file; outcomes, the monad, its rules and tactics, arrays.
    - Machine: 32-bit arithmetic, memory, and the macros of memlayout.h, mmu.h, fcntl.h.
    - CString, Format: string.c, ulib.c; itoa, atoi and the printing of console.c and
      printf.c.
    - Kalloc, PageTable: kalloc.c; walkpgdir and mappages of vm.c as an address space.
    - Locks: spinlock.c, with several CPUs.
    - State, Vm, Uvm, Paging, Swap, PageFault: the state of processes and memory; vm.c
      (seginit is in Entry); the policies; the swap slots of fs.c; the page fault.
    - Proc, Keeps, Sched: proc.c, and the process table as a state machine.
    - Syscall, Exec, Trap: syscall.c, sysproc.c, exec.c, trap.c.
    - Bio, Cache: bio.c, sleeplock.c, memide.c.
    - Log, LogCrash, LogSpace, Blocks, LogBlocks: log.c; Blocks is the interface ([Class])
      that the file system is written and proved against, LogBlocks its implementation.
    - Fs, FsAlloc, FsInode, FsWrite, FsFile, FsLayout, FsDir, Ends: fs.c over that
      interface: allocation, contents of files, types on the disk, directories, and that
      path lookup ends.
    - Ring, Pipe, Pipeline: pipe.c with the processes at both ends.
    - File, OpenFile, SwapDisk, Sysfile: file.c, sysfile.c, the swap files of fs.c on the
      disk.
    - Console, Kbd, Ide: console.c, kbd.c, uart.c, ide.c.
    - Umalloc: umalloc.c.
    - Sh, ShRun: sh.c, with gets of ulib.c.
    - Grep: the matching of grep.c and the loops of grep, wc and cat on their input.
    - Mkfs, MkfsFs: mkfs.c, and its image as the file system of the kernel sees it.
    - Ports, Boot, Mp, Devices: the port instructions of x86.h; bootmain.c; mp.c and mp.h;
      ioapic.c, lapic.c, picirq.c and the set-up of uart.c and ide.c.
    - Asm: vectors.S, trapasm.S, swtch.S, usys.S and initcode.S.
    - Entry: the segments of mmu.h, asm.h and seginit; entrypgdir and startothers of main.c;
      bootasm.S, entry.S and entryother.S.
    - UserProgs: echo, cat, wc, grep, ls, ln, mkdir, rm, kill, zombie and init, and stat of
      ulib.c.
    - LogExamples, FsExamples, SwapExamples, Examples, SchedExamples, TrapExamples:
      concrete states on which the theorems apply.

    * What is proved

    - Processes: every reachable process table is consistent; a parent in wait never
      misses an exited child; no trap returns to a killed process; exec replaces the whole
      image or nothing.
    - Memory: kalloc is a stack of pages; mappages maps what it is asked to and walkpgdir
      changes no mapping; spin locks exclude each other under all interleavings.
    - Paging: the swap file is a map from pages to contents, also on the disk below the
      file system; a page fault gives the page back and disturbs nothing; select_SCFIFO is
      the second-chance queue; a page keeps its flags on the way out and in, but for its
      write protection.
    - Disk: the cache recycles the least recently used buffer and agrees with the disk; a
      crash at any write leaves all of a transaction or nothing; the log over the cache is
      a store of blocks with transactions; calls that keep to their reservation do not
      overflow the log, if it has one block more than mkfs gives it.
    - Files: a file is an array of bytes, a directory is a map, a block of inodes is an
      array of records, a write fits its transaction, path lookup ends on every disk, the
      IDE driver serves its queue as the memory disk does.
    - Pipes: first in first out under all interleavings, no lost wake-up, a pipeline
      delivers everything whatever the scheduler does.
    - Console and text: the console is a line editor; numbers print so that they read
      back; printf and cprintf agree; the pointers of system calls are checked.
    - User programs: malloc and free keep blocks apart and lose nothing; the life of a page
      of pmalloc; the shell parses its grammar and connects the processes of a line with
      no descriptor too many; grep prints the lines that its pattern denotes; ls lists
      what the kernel answers and cat copies the files; init keeps one shell.
    - Start-up: the boot loader puts the kernel where its headers say; mpinit reads the
      table of the BIOS; a processor that startothers starts arrives in mpenter; the I/O
      APIC sends the interrupts where it is told; the clock's date is decoded; the image
      that mkfs makes holds the files it was given, for any kernel that mounts it.
    - Assembly: a trap saves and restores what the program sees, swtch suspends and resumes
      a thread, and the stub of a system call returns the kernel's answer.
    - Flaws: theorems of the kind [error], and examples beside the code, prove what the
      code gets wrong: the short log, the swap path of a long pid, turn_flag on kernel
      pages, page faults of the kernel itself, a killed writer that strands its reader, a
      page freed twice, headers lost by pmalloc, lines lost by grep, the endless loop of
      mpinit at an unknown entry, a root directory of mkfs with a block too many.

    * What is not modelled

    main, mpenter and mpmain of main.c, which call the initialisers in order: the parts are
    proved each on its own state. The functions that only initialise a lock, and microdelay,
    which is empty. The test programs. In the kernel model swtch is the point where functions
    are cut; that cutting there is right is what Asm.v shows of swtch. Hardware memory below
    the level of whole instructions, and time, are not part of the model. *)
From Stdlib Require Import ZArith Lia Ascii.
From stdpp Require Import base tactics list strings relations.

#[global] Open Scope Z_scope.

(** * Outcomes of a kernel path

    A C function of the kernel ends in one of these ways: it returns, it calls
    [panic] (console.c), it performs an access the machine refuses or whose
    meaning C leaves open (a null or wild pointer, an index outside an array,
    a page fault taken in kernel mode), it sleeps until some other kernel path
    wakes it, or the fuel of the model runs out. *)
Inductive res (A : Type) : Type :=
  | Ok (a : A)
  | Panic (msg : string)
  | Fault
  | Blocked
  | NoFuel.
Arguments Ok {A} a.
Arguments Panic {A} msg.
Arguments Fault {A}.
Arguments Blocked {A}.
Arguments NoFuel {A}.

(** The state monad with outcomes in which the stateful code is written. *)
Definition M (S A : Type) : Type := S → res (A * S).

#[global] Instance M_ret {S} : MRet (M S) := λ A a s, Ok (a, s).
#[global] Instance M_bind {S} : MBind (M S) := λ A B f m s,
  match m s with
  | Ok (a, s') => f a s'
  | Panic e => Panic e
  | Fault => Fault
  | Blocked => Blocked
  | NoFuel => NoFuel
  end.

Section ops.
  Context {S : Type}.

Definition get : M S S := λ s, Ok (s, s).
Definition gets {A} (f : S → A) : M S A := λ s, Ok (f s, s).
Definition modify (f : S → S) : M S unit := λ s, Ok (tt, f s).
Definition panic {A} (msg : string) : M S A := λ _, Panic msg.
Definition fault {A} : M S A := λ _, Fault.
Definition blocked {A} : M S A := λ _, Blocked.
Definition nofuel {A} : M S A := λ _, NoFuel.
Definition when (b : bool) (m : M S unit) : M S unit := if b then m else mret tt.
Definition oget {A} (o : option A) : M S A := match o with Some a => mret a | None => fault end.
End ops.

(** Running a computation on one field of a larger state. *)
Definition zoom {S T A} (g : S → T) (p : T → S → S) (m : M T A) : M S A := λ s,
  match m (g s) with
  | Ok (a, t) => Ok (a, p t s)
  | Panic e => Panic e
  | Fault => Fault
  | Blocked => Blocked
  | NoFuel => NoFuel
  end.

(** * Total correctness of a computation

    [runs m s Q]: started in [s], [m] returns, and [Q] holds of its result and
    of the state it leaves. *)
Definition runs {S A} (m : M S A) (s : S) (Q : A → S → Prop) : Prop :=
  ∃ a s', m s = Ok (a, s') ∧ Q a s'.

Section runs.
  Context {S : Type}.

Lemma runs_ret {A} (a : A) (s : S) (Q : A → S → Prop) : Q a s → runs (mret a) s Q.
Proof. intros H. exists a, s. auto. Qed.

Lemma runs_bind {A B} (m : M S A) (f : A → M S B) s Q :
  runs m s (λ a s', runs (f a) s' Q) → runs (m ≫= f) s Q.
Proof.
  intros (a & s' & Hm & b & s'' & Hf & HQ). exists b, s''.
  unfold mbind, M_bind. by rewrite Hm.
Qed.

Lemma runs_mono {A} (m : M S A) s (P Q : A → S → Prop) :
  runs m s P → (∀ a s', P a s' → Q a s') → runs m s Q.
Proof. intros (a & s' & Hm & HP) HPQ. exists a, s'. auto. Qed.

Lemma runs_get s (Q : S → S → Prop) : Q s s → runs get s Q.
Proof. intros H. exists s, s. auto. Qed.

Lemma runs_gets {A} (f : S → A) s (Q : A → S → Prop) : Q (f s) s → runs (gets f) s Q.
Proof. intros H. exists (f s), s. auto. Qed.

Lemma runs_modify (f : S → S) s (Q : unit → S → Prop) : Q tt (f s) → runs (modify f) s Q.
Proof. intros H. exists tt, (f s). auto. Qed.

Lemma runs_oget {A} (o : option A) a s (Q : A → S → Prop) :
  o = Some a → Q a s → runs (oget o) s Q.
Proof. intros -> H. exists a, s. auto. Qed.

Lemma runs_when (b : bool) (m : M S unit) s (Q : unit → S → Prop) :
  (b = true → runs m s Q) → (b = false → Q tt s) → runs (when b m) s Q.
Proof. intros H1 H2. destruct b; simpl; [auto | exists tt, s; auto]. Qed.

Lemma runs_Ok {A} (m : M S A) s Q a s' : runs m s Q → m s = Ok (a, s') → Q a s'.
Proof. intros (b & t & Hm & HQ) H. rewrite Hm in H. by simplify_eq. Qed.

(** Inversion of a computation that returned. *)
Lemma bind_Ok {A B} (m : M S A) (f : A → M S B) s b s'' :
  (m ≫= f) s = Ok (b, s'') → ∃ a s', m s = Ok (a, s') ∧ f a s' = Ok (b, s'').
Proof.
  unfold mbind, M_bind. destruct (m s) as [[a s']| | | |] eqn:E; try done. eauto.
Qed.
End runs.

Lemma runs_zoom {S T A} (g : S → T) (p : T → S → S) (m : M T A) s (Q : A → S → Prop) :
  runs m (g s) (λ a t, Q a (p t s)) → runs (zoom g p m) s Q.
Proof.
  intros (a & t & Hm & HQ). exists a, (p t s). unfold zoom. by rewrite Hm.
Qed.

(** One step of a symbolic run of a monadic goal. *)
Ltac mstep :=
  lazymatch goal with
  | |- runs (mbind _ _) _ _ => apply runs_bind
  | |- runs (mret _) _ _ => apply runs_ret
  | |- runs get _ _ => apply runs_get
  | |- runs (gets _) _ _ => apply runs_gets
  | |- runs (modify _) _ _ => apply runs_modify
  | |- runs (when true _) _ _ => unfold when
  | |- runs (when false _) _ _ => unfold when
  | |- runs (if ?b then _ else _) _ _ =>
      let E := fresh "E" in destruct b eqn:E
  | |- runs (match ?o with Some _ => _ | None => _ end) _ _ =>
      let E := fresh "E" in destruct o eqn:E
  end.
Ltac msteps := repeat (mstep; cbn beta iota).

(** Running the first operation of a bind by an equation of the form [m s = Ok _]. *)
Lemma bind_eq {S A B} (m : M S A) (f : A → M S B) s a s' : m s = Ok (a, s') → (m ≫= f) s = f a s'.
Proof. intros H. unfold mbind, M_bind. by rewrite H. Qed.

Lemma modify_bind {S A} (f : S → S) (k : unit → M S A) s : (modify f ≫= k) s = k tt (f s).
Proof. done. Qed.

Lemma then2 {S} (a b k : M S unit) s s' : (a;; b) s = Ok (tt, s') → (a;; b;; k) s = k s'.
Proof. unfold mbind, M_bind. destruct (a s) as [[[] s1]| | | |]; [|done..]. by intros ->. Qed.

Lemma then3 {S} (a b c k : M S unit) s s' : (a;; b;; c) s = Ok (tt, s') → (a;; b;; c;; k) s = k s'.
Proof. unfold mbind, M_bind. destruct (a s) as [[[] s1]| | | |]; [|done..]. destruct (b s1) as [[[] s2]| | | |]; [|done..]. by intros ->. Qed.

Lemma zoom_eq {S T A} (g : S → T) (p : T → S → S) (m : M T A) s a t : m (g s) = Ok (a, t) → zoom g p m s = Ok (a, p t s).
Proof. intros E. unfold zoom. by rewrite E. Qed.

Lemma bind_panic {S A B} (m : M S A) (f : A → M S B) s e : m s = Panic e → (m ≫= f) s = Panic e.
Proof. intros H. unfold mbind, M_bind. by rewrite H. Qed.

Ltac mrun H := rewrite (bind_eq _ _ _ _ _ H); cbn beta iota.

(** Unfolding of the monad for goals settled by computation. *)
Ltac munfold := unfold runs, mbind, M_bind, mret, M_ret, get, gets, modify, when, oget in *.

(** * Arrays *)

(** The first index whose element satisfies [f]. *)
Fixpoint find_idx {A} (f : A → bool) (l : list A) : option nat :=
  match l with
  | [] => None
  | x :: l => if f x then Some 0%nat else S <$> find_idx f l
  end.

(** The index as the C code returns it, -1 for none. *)
Definition idx_or_neg (o : option nat) : Z := match o with Some i => Z.of_nat i | None => -1 end.

Lemma find_idx_Some {A} (f : A → bool) l i :
  find_idx f l = Some i ↔
  (∃ x, l !! i = Some x ∧ f x = true) ∧ ∀ j y, (j < i)%nat → l !! j = Some y → f y = false.
Proof.
  revert i. induction l as [|x l IH]; intros i; cbn [find_idx].
  - split; [done|]. intros [(y & H & _) _]. done.
  - destruct (f x) eqn:E.
    + split.
      * intros [= <-]. split; [by exists x|]. intros j y Hj. lia.
      * intros [_ H]. destruct i as [|i]; [done|]. specialize (H 0%nat x ltac:(lia) eq_refl). congruence.
    + rewrite fmap_Some. split.
      * intros (k & Hk & ->). apply IH in Hk as [(y & Hy & Hf) Hb]. split; [by exists y|].
        intros [|j] z Hj Hz; simplify_eq/=; [done|]. eapply Hb; [|done]. lia.
      * intros [(y & Hy & Hf) Hb]. destruct i as [|i]; simplify_eq/=; [congruence|].
        exists i. split; [|done]. apply IH. split; [by exists y|].
        intros j z Hj Hz. apply (Hb (S j) z); [lia|done].
Qed.

Lemma find_idx_None {A} (f : A → bool) l :
  find_idx f l = None ↔ ∀ j y, l !! j = Some y → f y = false.
Proof.
  induction l as [|x l IH]; cbn [find_idx]; [done|]. destruct (f x) eqn:E.
  - split; [done|]. intros H. specialize (H 0%nat x eq_refl). congruence.
  - rewrite fmap_None, IH. split.
    + intros H [|j] y Hy; simplify_eq/=; eauto.
    + intros H j y Hy. apply (H (S j) y Hy).
Qed.

(** [l[i]] for a C index; outside the array it is a fault. *)
Definition nthZ {A} (l : list A) (i : Z) : option A := if i <? 0 then None else l !! Z.to_nat i.

Lemma lookup_insert_cases {A} (l : list A) i x j y :
  <[i := x]> l !! j = Some y → j = i ∧ y = x ∨ j ≠ i ∧ l !! j = Some y.
Proof.
  intros H. destruct (decide (j = i)) as [->|]; [|rewrite list_lookup_insert_ne in H by done; auto].
  destruct (decide (i < length l)%nat).
  - rewrite list_lookup_insert_eq in H by done. simplify_eq. auto.
  - rewrite list_insert_ge in H by lia. apply lookup_lt_Some in H. lia.
Qed.

(** * Step relations *)

(** An invariant of the steps holds of every reachable state. *)
Lemma rtc_inv {A} (R : relation A) (P : A → Prop) x y :
  P x → (∀ a b, P a → R a b → P b) → rtc R x y → P y.
Proof. intros Hx HR Hr. induction Hr; eauto. Qed.

(** * Computations that end

    [ends m s Q]: started in [s], [m] does not run out of fuel, and if it returns, [Q]
    holds of the result. *)
Definition ends {S A} (m : M S A) (s : S) (Q : A → S → Prop) : Prop :=
  match m s with Ok (a, s') => Q a s' | NoFuel => False | _ => True end.

(** [m] ends and keeps [I]. *)
Definition safe {S A} (I : S → Prop) (m : M S A) : Prop := ∀ s, I s → ends m s (λ _ s', I s').

Section ends.
  Context {S : Type} (I : S → Prop).

Lemma ends_mono {A} (m : M S A) s (P Q : A → S → Prop) : ends m s P → (∀ a s', P a s' → Q a s') → ends m s Q.
Proof. unfold ends. destruct (m s) as [[a s']| | | |]; auto. Qed.

Lemma ends_bind {A B} (m : M S A) (f : A → M S B) s Q : ends m s (λ a s', ends (f a) s' Q) → ends (m ≫= f) s Q.
Proof. unfold ends, mbind, M_bind. by destruct (m s) as [[a s']| | | |]. Qed.

(** A step that is safe, in front of the rest. *)
Lemma ends_step {A B} (m : M S A) (f : A → M S B) s Q : safe I m → I s → (∀ a s', I s' → ends (f a) s' Q) → ends (m ≫= f) s Q.
Proof. intros Hm Hs Hf. apply ends_bind. eapply ends_mono; [by apply Hm|]. cbn. auto. Qed.

Lemma safe_bind {A B} (m : M S A) (f : A → M S B) : safe I m → (∀ a, safe I (f a)) → safe I (m ≫= f).
Proof. intros Hm Hf s Hs. eapply ends_step; [done|done|]. intros a s' Hs'. by apply Hf. Qed.

Lemma safe_ret {A} (a : A) : safe I (mret a).
Proof. by intros s Hs. Qed.
Lemma safe_get : safe I get.
Proof. by intros s Hs. Qed.
Lemma safe_gets {A} (f : S → A) : safe I (gets f).
Proof. by intros s Hs. Qed.
Lemma safe_panic {A} e : safe (A:=A) I (panic e).
Proof. by intros s Hs. Qed.
Lemma safe_fault {A} : safe (A:=A) I fault.
Proof. by intros s Hs. Qed.
Lemma safe_blocked {A} : safe (A:=A) I blocked.
Proof. by intros s Hs. Qed.
Lemma safe_oget {A} (o : option A) : safe I (oget o).
Proof. by destruct o; intros s Hs. Qed.
Lemma safe_modify f : (∀ s, I s → I (f s)) → safe I (modify f).
Proof. intros H s Hs. by apply H. Qed.
End ends.

Lemma safe_zoom {S T A} (I : S → Prop) (J : T → Prop) (g : S → T) (p : T → S → S) (m : M T A) :
  (∀ s, I s → J (g s)) → (∀ s t, I s → J t → I (p t s)) → safe J m → safe I (zoom g p m).
Proof.
  intros Hg Hp Hm s Hs. unfold ends, zoom. specialize (Hm _ (Hg _ Hs)). unfold ends in Hm.
  destruct (m (g s)) as [[a t]| | | |]; auto.
Qed.

Create HintDb ends.
#[export] Hint Resolve safe_ret safe_get safe_gets safe_panic safe_fault safe_blocked safe_oget : ends.

(** Goes through a program without loops. *)
Ltac safe_step :=
  lazymatch goal with
  | |- safe _ (mbind _ _) => apply safe_bind; [|intros]
  | |- safe _ (if ?b then _ else _) => destruct b
  | |- safe _ (match ?x with _ => _ end) => destruct x
  | |- safe _ (let '_ := ?x in _) => destruct x
  | _ => solve [eauto with ends]
  end.
Ltac safe_steps := repeat (cbv zeta beta; safe_step).

(** * Characters *)

Definition ch (a : ascii) : Z := Z.of_nat (nat_of_ascii a).
Arguments ch a%_char_scope.
Definition chars (s : string) : list Z := ch <$> String.list_ascii_of_string s.
