(* ===== verification/Machine.v ===== *)
(** Machine arithmetic and memory of the kernel: 32-bit integers (types.h),
    byte memory with little-endian words, the memory layout (memlayout.h) and
    the page-table macros and flags of the x86 (mmu.h). *)
From Stdlib Require Import ZArith Lia Bool.
From stdpp Require Import base tactics list.
From S2P Require Import Prelude.

(** * 32-bit integers *)

Definition u32 (x : Z) : Z := x mod 2 ^ 32.
Definition s32 (x : Z) : Z := let y := u32 x in if y <? 2 ^ 31 then y else y - 2 ^ 32.

(** * Byte memory *)

Definition memory : Type := Z → Z.

Definition ld8 (m : memory) (a : Z) : Z := m a mod 256.
Definition st8 (m : memory) (a v : Z) : memory := λ b, if b =? a then v mod 256 else m b.

Definition ld32 (m : memory) (a : Z) : Z :=
  ld8 m a + 2 ^ 8 * ld8 m (a + 1) + 2 ^ 16 * ld8 m (a + 2) + 2 ^ 24 * ld8 m (a + 3).
Definition st32 (m : memory) (a v : Z) : memory :=
  st8 (st8 (st8 (st8 m a v) (a + 1) (v / 2 ^ 8)) (a + 2) (v / 2 ^ 16)) (a + 3) (v / 2 ^ 24).

(** * memlayout.h *)

Definition EXTMEM : Z := 0x100000.
Definition PHYSTOP : Z := 0xE000000.
Definition DEVSPACE : Z := 0xFE000000.
Definition KERNBASE : Z := 0x80000000.
Definition KERNLINK : Z := KERNBASE + EXTMEM.
Definition V2P (a : Z) : Z := u32 (a - KERNBASE).
Definition P2V (a : Z) : Z := u32 (a + KERNBASE).

(** * mmu.h *)

Definition PGSIZE : Z := 4096.
Definition PTXSHIFT : Z := 12.
Definition PDXSHIFT : Z := 22.
Definition NPDENTRIES : Z := 1024.
Definition NPTENTRIES : Z := 1024.

Definition PDX (va : Z) : Z := Z.land (Z.shiftr (u32 va) PDXSHIFT) 0x3FF.
Definition PTX (va : Z) : Z := Z.land (Z.shiftr (u32 va) PTXSHIFT) 0x3FF.
Definition PGADDR (d t o : Z) : Z :=
  u32 (Z.lor (Z.lor (Z.shiftl d PDXSHIFT) (Z.shiftl t PTXSHIFT)) o).
Definition PGROUNDUP (sz : Z) : Z := Z.land (u32 (sz + PGSIZE - 1)) (u32 (Z.lnot (PGSIZE - 1))).
Definition PGROUNDDOWN (a : Z) : Z := Z.land (u32 a) (u32 (Z.lnot (PGSIZE - 1))).

Definition PTE_P : Z := 0x001.
Definition PTE_W : Z := 0x002.
Definition PTE_U : Z := 0x004.
Definition PTE_A : Z := 0x020.
Definition PTE_PG : Z := 0x200.
Definition PTE_1 : Z := 0x400.
Definition PTE_ADDR (pte : Z) : Z := Z.land (u32 pte) (u32 (Z.lnot 0xFFF)).
Definition PTE_FLAGS (pte : Z) : Z := Z.land (u32 pte) 0xFFF.

Definition MAX_PYSC_PAGES : Z := 16.
Definition MAX_TOTAL_PAGES : Z := 32.

(** The modes of open (fcntl.h). *)
Definition O_RDONLY : Z := 0x000.
Definition O_WRONLY : Z := 0x001.
Definition O_RDWR : Z := 0x002.
Definition O_CREATE : Z := 0x200.

(** [x & f] as a C condition, and [x & ~f]. *)
Definition tst (x f : Z) : bool := negb (Z.land x f =? 0).
Definition clr (x f : Z) : Z := Z.land x (u32 (Z.lnot f)).

(** * Lemmas *)

Lemma u32_range x : 0 ≤ u32 x < 2 ^ 32.
Proof. apply Z.mod_pos_bound. lia. Qed.

Lemma u32_small x : 0 ≤ x < 2 ^ 32 → u32 x = x.
Proof. apply Z.mod_small. Qed.

Lemma u32_u32 x : u32 (u32 x) = u32 x.
Proof. apply u32_small, u32_range. Qed.

Lemma s32_small x : - 2 ^ 31 ≤ x < 2 ^ 31 → s32 x = x.
Proof.
  intros H. unfold s32, u32. destruct (Z.ltb_spec (x mod 2 ^ 32) (2 ^ 31)) as [E|E];
  destruct (Z.lt_ge_cases x 0).
  - rewrite <- (Z.mod_add x 1), Z.mod_small in E; lia.
  - by rewrite Z.mod_small by lia.
  - rewrite <- (Z.mod_add x 1), Z.mod_small by lia. lia.
  - rewrite Z.mod_small in E; lia.
Qed.

Lemma ld8_range m a : 0 ≤ ld8 m a < 256.
Proof. apply Z.mod_pos_bound. lia. Qed.

Lemma ld8_st8_eq m a v : ld8 (st8 m a v) a = v mod 256.
Proof. unfold ld8, st8. rewrite Z.eqb_refl. apply Z.mod_mod. lia. Qed.

Lemma ld8_st8_ne m a b v : b ≠ a → ld8 (st8 m a v) b = ld8 m b.
Proof. intros H. unfold ld8, st8. by rewrite (proj2 (Z.eqb_neq b a)). Qed.

Lemma ld32_range m a : 0 ≤ ld32 m a < 2 ^ 32.
Proof.
  unfold ld32. pose proof (ld8_range m a). pose proof (ld8_range m (a + 1)).
  pose proof (ld8_range m (a + 2)). pose proof (ld8_range m (a + 3)). lia.
Qed.

Lemma ld32_ext m m' a b :
  (∀ i, 0 ≤ i < 4 → ld8 m (a + i) = ld8 m' (b + i)) → ld32 m a = ld32 m' b.
Proof.
  intros H. unfold ld32.
  pose proof (H 0 ltac:(lia)) as H0. rewrite !Z.add_0_r in H0.
  rewrite H0, (H 1), (H 2), (H 3) by lia. done.
Qed.

Lemma ld8_st32_ne m a v b : b < a ∨ a + 4 ≤ b → ld8 (st32 m a v) b = ld8 m b.
Proof. intros H. unfold st32. rewrite !ld8_st8_ne by lia. done. Qed.

Lemma ld32_st32_ne m a v b : b + 4 ≤ a ∨ a + 4 ≤ b → ld32 (st32 m a v) b = ld32 m b.
Proof. intros H. apply ld32_ext. intros i Hi. apply ld8_st32_ne. lia. Qed.

Lemma byte_sum v :
  v mod 256 + 2 ^ 8 * (v / 2 ^ 8 mod 256) + 2 ^ 16 * (v / 2 ^ 16 mod 256)
  + 2 ^ 24 * (v / 2 ^ 24 mod 256) = u32 v.
Proof.
  unfold u32.
  replace (2 ^ 32) with (256 * (256 * (256 * 256))) by lia.
  rewrite (Z.rem_mul_r v 256), (Z.rem_mul_r _ 256), (Z.rem_mul_r _ 256) by lia.
  rewrite !Z.div_div by lia.
  replace (256 * 256) with (2 ^ 16) by lia. replace (2 ^ 16 * 256) with (2 ^ 24) by lia.
  change 256 with (2 ^ 8). lia.
Qed.

Lemma ld32_st32_eq m a v : ld32 (st32 m a v) a = u32 v.
Proof.
  rewrite <- byte_sum. unfold ld32, st32.
  rewrite (ld8_st8_eq _ (a + 3)).
  rewrite (ld8_st8_ne _ (a + 3) (a + 2)), (ld8_st8_eq _ (a + 2)) by lia.
  rewrite (ld8_st8_ne _ (a + 3) (a + 1)), (ld8_st8_ne _ (a + 2) (a + 1)), (ld8_st8_eq _ (a + 1)) by lia.
  rewrite !(ld8_st8_ne _ _ a), ld8_st8_eq by lia. done.
Qed.

(** ** Page arithmetic as division by the page size *)

Lemma land_ones_mod x n : 0 ≤ n → Z.land x (Z.ones n) = x mod 2 ^ n.
Proof. apply Z.land_ones. Qed.

Lemma land_page_mask x : 0 ≤ x < 2 ^ 32 → Z.land x (u32 (Z.lnot 4095)) = x / 4096 * 4096.
Proof.
  intros H. change (u32 (Z.lnot 4095)) with (Z.shiftl (Z.ones 20) 12).
  change 4096 with (2 ^ 12). rewrite <- Z.shiftr_div_pow2, <- Z.shiftl_mul_pow2 by lia.
  apply Z.bits_inj'. intros n Hn.
  rewrite Z.land_spec, !Z.shiftl_spec by lia.
  destruct (Z.lt_ge_cases n 12) as [Hlt|Hge].
  - rewrite !(Z.testbit_neg_r _ (n - 12)) by lia. by rewrite andb_false_r.
  - rewrite Z.shiftr_spec by lia. replace (n - 12 + 12) with n by lia.
    destruct (Z.lt_ge_cases n 32).
    + rewrite Z.ones_spec_low by lia. by rewrite andb_true_r.
    + rewrite Z.ones_spec_high by lia. rewrite andb_false_r.
      rewrite <- (Z.mod_small x (2 ^ 32)) by lia. by rewrite Z.mod_pow2_bits_high by lia.
Qed.

Lemma PGROUNDDOWN_div a : 0 ≤ a < 2 ^ 32 → PGROUNDDOWN a = a / 4096 * 4096.
Proof.
  intros H. unfold PGROUNDDOWN. rewrite u32_small by done.
  change (PGSIZE - 1) with 4095. by apply land_page_mask.
Qed.

Lemma PGROUNDUP_div sz : 0 ≤ sz → sz + 4095 < 2 ^ 32 → PGROUNDUP sz = (sz + 4095) / 4096 * 4096.
Proof.
  intros H H'. unfold PGROUNDUP, PGSIZE. replace (sz + 4096 - 1) with (sz + 4095) by lia.
  rewrite u32_small by lia. change (4096 - 1) with 4095. apply land_page_mask. lia.
Qed.

Lemma PTE_ADDR_div x : 0 ≤ x < 2 ^ 32 → PTE_ADDR x = x / 4096 * 4096.
Proof. intros H. unfold PTE_ADDR. rewrite u32_small by done. by apply land_page_mask. Qed.

Lemma PTE_FLAGS_mod x : 0 ≤ x < 2 ^ 32 → PTE_FLAGS x = x mod 4096.
Proof.
  intros H. unfold PTE_FLAGS. rewrite u32_small by done.
  change 0xFFF with (Z.ones 12). by rewrite land_ones_mod by lia.
Qed.

Lemma PDX_div va : 0 ≤ va < 2 ^ 32 → PDX va = va / 2 ^ 22.
Proof.
  intros H. unfold PDX, PDXSHIFT. rewrite u32_small by done.
  change 0x3FF with (Z.ones 10). rewrite land_ones_mod, Z.shiftr_div_pow2 by lia.
  apply Z.mod_small. split; [apply Z.div_pos; lia|]. apply Z.div_lt_upper_bound; lia.
Qed.

Lemma PTX_div va : 0 ≤ va < 2 ^ 32 → PTX va = va / 4096 mod 1024.
Proof.
  intros H. unfold PTX, PTXSHIFT. rewrite u32_small by done.
  change 0x3FF with (Z.ones 10). by rewrite land_ones_mod, Z.shiftr_div_pow2 by lia.
Qed.

Lemma PDX_range va : 0 ≤ PDX va < 1024.
Proof. unfold PDX. change 0x3FF with (Z.ones 10). rewrite land_ones_mod by lia. apply Z.mod_pos_bound. lia. Qed.

Lemma PTX_range va : 0 ≤ PTX va < 1024.
Proof. unfold PTX. change 0x3FF with (Z.ones 10). rewrite land_ones_mod by lia. apply Z.mod_pos_bound. lia. Qed.

(** Two numbers with no common set bit: their bitwise or is their sum. *)
Lemma lor_add a b : Z.land a b = 0 → Z.lor a b = a + b.
Proof. intros H. pose proof (Z.add_lor_land a b). lia. Qed.

Lemma lor_shiftl_add a b n : 0 ≤ n → 0 ≤ b < 2 ^ n → Z.lor (Z.shiftl a n) b = a * 2 ^ n + b.
Proof.
  intros Hn Hb. rewrite lor_add; [by rewrite Z.shiftl_mul_pow2 by lia|].
  apply Z.bits_inj'. intros k Hk. rewrite Z.land_spec, Z.shiftl_spec, Z.bits_0 by lia.
  destruct (Z.lt_ge_cases k n).
  - by rewrite Z.testbit_neg_r by lia.
  - rewrite <- (Z.mod_small b (2 ^ n)), Z.mod_pow2_bits_high by lia. by rewrite andb_false_r.
Qed.

Lemma PGADDR_add d t o :
  0 ≤ d < 1024 → 0 ≤ t < 1024 → 0 ≤ o < 4096 → PGADDR d t o = d * 2 ^ 22 + t * 4096 + o.
Proof.
  intros Hd Ht Ho. unfold PGADDR, PDXSHIFT, PTXSHIFT.
  rewrite <- Z.lor_assoc, (lor_shiftl_add t o 12) by lia.
  rewrite lor_shiftl_add by lia. rewrite u32_small; lia.
Qed.

Lemma testbit_clr x n k :
  0 ≤ n → 0 ≤ k < 32 → Z.testbit (clr x (2 ^ n)) k = Z.testbit x k && negb (n =? k).
Proof.
  intros Hn Hk. unfold clr, u32. rewrite Z.land_spec, Z.mod_pow2_bits_low, Z.lnot_spec by lia.
  by rewrite Z.pow2_bits_eqb by lia.
Qed.

(** * Structures in bytes *)

(** The little-endian number that the bytes [l] spell. *)
Fixpoint le (l : list Z) : Z := match l with [] => 0 | c :: l => c + 256 * le l end.

(** The field of [n] bytes at offset [o] of a structure. *)
Definition field (l : list Z) (o n : nat) : Z := le (take n (drop o l)).

(** The bytes of a 16-bit and of a 32-bit word. *)
Definition half (v : Z) : list Z := [v mod 256; v / 2 ^ 8 mod 256].
Definition word (v : Z) : list Z := [v mod 256; v / 2 ^ 8 mod 256; v / 2 ^ 16 mod 256; v / 2 ^ 24 mod 256].

(** Storing the bytes [w] at offset [o]. *)
Definition splice (l : list Z) (o : nat) (w : list Z) : list Z := take o l ++ w ++ drop (o + length w) l.

Lemma le_range l : Forall (λ c, 0 ≤ c < 256) l → 0 ≤ le l < 256 ^ Z.of_nat (length l).
Proof.
  induction 1 as [|c l Hc Hl IH]; cbn [le length]; [lia|].
  rewrite Nat2Z.inj_succ, Z.pow_succ_r by lia. lia.
Qed.

Lemma le_word v : le (word v) = u32 v.
Proof. rewrite <- byte_sum. cbn [le word]. lia. Qed.

Lemma le_half v : 0 ≤ v < 2 ^ 16 → le (half v) = v.
Proof. intros H. cbn [le half]. Z.to_euclidean_division_equations; lia. Qed.

Lemma length_splice l o w : (o + length w ≤ length l)%nat → length (splice l o w) = length l.
Proof. intros H. unfold splice. rewrite !length_app, length_take, length_drop. lia. Qed.

(** What is stored is read back, and other fields do not change. *)
Lemma splice_same l o w : (o ≤ length l)%nat → take (length w) (drop o (splice l o w)) = w.
Proof.
  intros H. unfold splice. rewrite drop_app_length' by (rewrite length_take; lia). apply take_app_length.
Qed.

Lemma splice_nil l o : splice l o [] = l.
Proof. unfold splice. cbn. by rewrite Nat.add_0_r, take_drop. Qed.

Lemma splice_app l o w w' : (o ≤ length l)%nat → splice (splice l o w) (o + length w) w' = splice l o (w ++ w').
Proof.
  intros H. unfold splice. rewrite (app_assoc (take o l) w (drop _ _)). rewrite take_app_length' by (rewrite length_app, length_take; lia).
  rewrite drop_app_ge by (rewrite length_app, length_take; lia). rewrite drop_drop, !length_app, length_take, <-!app_assoc.
  do 3 f_equal. f_equal. lia.
Qed.

Lemma lookup_splice l o w i :
  (o ≤ length l)%nat →
  splice l o w !! i = if decide (o ≤ i < o + length w)%nat then w !! (i - o)%nat else l !! i.
Proof.
  intros H. unfold splice. destruct (decide (o ≤ i < o + length w)%nat) as [Hi|Hi].
  - rewrite lookup_app_r by (rewrite length_take; lia). rewrite length_take, Nat.min_l by lia.
    apply lookup_app_l. lia.
  - destruct (decide (i < o)%nat).
    + rewrite lookup_app_l by (rewrite length_take; lia). by apply lookup_take_lt.
    + rewrite lookup_app_r by (rewrite length_take; lia). rewrite length_take, Nat.min_l by lia.
      rewrite lookup_app_r by lia. rewrite lookup_drop. f_equal. lia.
Qed.

Lemma take_drop_ext (l l' : list Z) o n :
  (∀ i, (o ≤ i < o + n)%nat → l' !! i = l !! i) → take n (drop o l') = take n (drop o l).
Proof.
  intros H. apply list_eq. intros i. destruct (decide (i < n)%nat).
  - rewrite !lookup_take_lt by done. rewrite !lookup_drop. apply H. lia.
  - by rewrite !lookup_take_ge by lia.
Qed.

Lemma splice_other l o w o' n :
  (o ≤ length l)%nat → (o' + n ≤ o ∨ o + length w ≤ o')%nat → take n (drop o' (splice l o w)) = take n (drop o' l).
Proof.
  intros H Hd. apply take_drop_ext. intros i Hi. rewrite lookup_splice by done.
  by rewrite decide_False by lia.
Qed.

#[global] Arguments s32 : simpl never.
#[global] Arguments u32 : simpl never.
