(* ===== verification/CString.v ===== *)
(** The byte and string routines of the kernel (string.c, with the string
    instructions of x86.h) and those of the user library (ulib.c), on the byte
    memory of Machine.v. Pointers are addresses; a loop bounded by a count
    recurses on it, a loop that runs to a NUL takes fuel. *)
From Stdlib Require Import ZArith Lia Bool.
From stdpp Require Import base tactics list.
From S2P Require Import Prelude Machine.

(** * x86.h: the string stores *)

Definition stosb (m : memory) (addr data cnt : Z) : memory :=
  λ b, if (addr <=? b) && (b <? addr + cnt) then data mod 256 else m b.
Definition stosl (m : memory) (addr data cnt : Z) : memory :=
  λ b, if (addr <=? b) && (b <? addr + 4 * cnt)
       then data / 2 ^ (8 * ((b - addr) mod 4)) mod 256 else m b.

(** * string.c *)

Definition memset (m : memory) (dst c n : Z) : memory :=
  if (dst mod 4 =? 0) && (n mod 4 =? 0) then
    let c := Z.land c 0xFF in
    stosl m dst
      (Z.lor (Z.lor (Z.lor (Z.shiftl c 24) (Z.shiftl c 16)) (Z.shiftl c 8)) c) (n / 4)
  else stosb m dst c n.

Fixpoint memcmp (m : memory) (s1 s2 : Z) (n : nat) : Z :=
  match n with
  | O => 0
  | S n => if negb (ld8 m s1 =? ld8 m s2) then ld8 m s1 - ld8 m s2
           else memcmp m (s1 + 1) (s2 + 1) n
  end.

(** [*d++ = *s++], [n] times. *)
Fixpoint copy_up (m : memory) (d s : Z) (n : nat) : memory :=
  match n with
  | O => m
  | S n => copy_up (st8 m d (ld8 m s)) (d + 1) (s + 1) n
  end.

(** [*--d = *--s], [n] times. *)
Fixpoint copy_down (m : memory) (d s : Z) (n : nat) : memory :=
  match n with
  | O => m
  | S n => copy_down (st8 m (d - 1) (ld8 m (s - 1))) (d - 1) (s - 1) n
  end.

Definition memmove (m : memory) (dst src n : Z) : memory :=
  if (src <? dst) && (dst <? src + n) then copy_down m (dst + n) (src + n) (Z.to_nat n)
  else copy_up m dst src (Z.to_nat n).

Definition memcpy (m : memory) (dst src n : Z) : memory := memmove m dst src n.

Fixpoint strncmp (m : memory) (p q : Z) (n : nat) : Z :=
  match n with
  | O => 0
  | S n => if negb (ld8 m p =? 0) && (ld8 m p =? ld8 m q) then strncmp m (p + 1) (q + 1) n
           else ld8 m p - ld8 m q
  end.

(** The second loop of strncpy: [*s++ = 0], [n] times. *)
Fixpoint zero_fill (m : memory) (s : Z) (n : nat) : memory :=
  match n with
  | O => m
  | S n => zero_fill (st8 m s 0) (s + 1) n
  end.

Fixpoint strncpy (m : memory) (s t : Z) (n : nat) : memory :=
  match n with
  | O => m
  | S n => let c := ld8 m t in
           let m := st8 m s c in
           if c =? 0 then zero_fill m (s + 1) n else strncpy m (s + 1) (t + 1) n
  end.

(** The loop of safestrcpy, entered with [k = n - 1]. *)
Fixpoint safestrcpy_loop (m : memory) (s t : Z) (k : nat) : memory :=
  match k with
  | O => st8 m s 0
  | S k => let c := ld8 m t in
           let m := st8 m s c in
           if c =? 0 then st8 m (s + 1) 0 else safestrcpy_loop m (s + 1) (t + 1) k
  end.

Definition safestrcpy (m : memory) (s t n : Z) : memory :=
  if n <=? 0 then m else safestrcpy_loop m s t (Z.to_nat (n - 1)).

Fixpoint strlen_from (fuel : nat) (m : memory) (s n : Z) : option Z :=
  match fuel with
  | O => None
  | S fuel => if ld8 m (s + n) =? 0 then Some n else strlen_from fuel m s (n + 1)
  end.

Definition strlen (fuel : nat) (m : memory) (s : Z) : option Z := strlen_from fuel m s 0.

(** * ulib.c *)

Module Ulib.

Fixpoint strcpy (fuel : nat) (m : memory) (s t : Z) : option memory :=
  match fuel with
  | O => None
  | S fuel => let c := ld8 m t in
              let m := st8 m s c in
              if c =? 0 then Some m else strcpy fuel m (s + 1) (t + 1)
  end.

Fixpoint strcmp (fuel : nat) (m : memory) (p q : Z) : option Z :=
  match fuel with
  | O => None
  | S fuel => if negb (ld8 m p =? 0) && (ld8 m p =? ld8 m q) then strcmp fuel m (p + 1) (q + 1)
              else Some (ld8 m p - ld8 m q)
  end.

Fixpoint strchr (fuel : nat) (m : memory) (s c : Z) : option Z :=
  match fuel with
  | O => None
  | S fuel => if ld8 m s =? 0 then Some 0
              else if ld8 m s =? c then Some s
              else strchr fuel m (s + 1) c
  end.

Definition memset (m : memory) (dst c n : Z) : memory := stosb m dst c n.

Definition memmove (m : memory) (dst src n : Z) : memory := copy_up m dst src (Z.to_nat n).

End Ulib.

(** * C strings in memory *)

(** The bytes [l], none of them NUL, stand at [a] and a NUL follows them. *)
Fixpoint cstr (m : memory) (a : Z) (l : list Z) : Prop :=
  match l with
  | [] => ld8 m a = 0
  | c :: l => ld8 m a = c ∧ c ≠ 0 ∧ cstr m (a + 1) l
  end.

(** * Lemmas *)

Definition in_range (b a n : Z) : bool := (a <=? b) && (b <? a + n).

Lemma in_range_spec b a n : in_range b a n = true ↔ a ≤ b < a + n.
Proof. unfold in_range. rewrite andb_true_iff, Z.leb_le, Z.ltb_lt. done. Qed.

Lemma in_range_false b a n : in_range b a n = false ↔ ¬ a ≤ b < a + n.
Proof. rewrite <- not_true_iff_false, in_range_spec. done. Qed.

Ltac range_cases :=
  repeat match goal with
  | |- context [in_range ?b ?a ?n] =>
      let E := fresh "E" in
      destruct (in_range b a n) eqn:E;
      [apply in_range_spec in E | apply in_range_false in E]
  end.

Lemma byte_of_word c k :
  0 ≤ c < 256 → 0 ≤ k < 4 →
  Z.lor (Z.lor (Z.lor (Z.shiftl c 24) (Z.shiftl c 16)) (Z.shiftl c 8)) c / 2 ^ (8 * k) mod 256 = c.
Proof.
  intros Hc Hk.
  rewrite <- !Z.lor_assoc, (lor_shiftl_add c c 8), (lor_shiftl_add c (c * 2 ^ 8 + c) 16), (lor_shiftl_add c _ 24) by lia.
  assert (k = 0 ∨ k = 1 ∨ k = 2 ∨ k = 3) as [-> | [-> | [-> | ->]]] by lia;
    cbn [Z.mul Z.pow Z.pow_pos Pos.mul Pos.iter]; Z.to_euclidean_division_equations; lia.
Qed.

Lemma memset_spec m dst c n b :
  ld8 (memset m dst c n) b = if in_range b dst n then c mod 256 else ld8 m b.
Proof.
  unfold memset. destruct ((dst mod 4 =? 0) && (n mod 4 =? 0)) eqn:E; unfold ld8.
  - apply andb_true_iff in E as [_ En]. apply Z.eqb_eq in En.
    unfold stosl. replace (4 * (n / 4)) with n by (Z.to_euclidean_division_equations; lia).
    fold (in_range b dst n). range_cases; [|done].
    change 0xFF with (Z.ones 8). rewrite land_ones_mod by lia. change (2 ^ 8) with 256.
    rewrite byte_of_word; [|apply Z.mod_pos_bound; lia..]. apply Z.mod_mod. lia.
  - unfold stosb. fold (in_range b dst n). range_cases; [apply Z.mod_mod; lia|done].
Qed.

Lemma ld32_memset0 m dst n a : dst ≤ a → a + 4 ≤ dst + n → ld32 (memset m dst 0 n) a = 0.
Proof.
  intros H1 H2. unfold ld32. rewrite !memset_spec. range_cases; try lia. done.
Qed.

Lemma ld32_memset_out m dst c n a :
  a + 4 ≤ dst ∨ dst + n ≤ a → ld32 (memset m dst c n) a = ld32 m a.
Proof.
  intros H. apply ld32_ext. intros i Hi. rewrite memset_spec. range_cases; [lia|done].
Qed.

Lemma copy_up_spec m d s n b :
  ¬ (s < d < s + Z.of_nat n) →
  ld8 (copy_up m d s n) b =
    if in_range b d (Z.of_nat n) then ld8 m (s + (b - d)) else ld8 m b.
Proof.
  revert m d s. induction n as [|n IH]; intros m d s Hov; cbn [copy_up].
  - range_cases; [lia|done].
  - rewrite IH by lia.
    assert (Hmod : ∀ x, ld8 m x mod 256 = ld8 m x) by (intros; unfold ld8; apply Z.mod_mod; lia).
    range_cases; try lia.
    + rewrite ld8_st8_ne by lia. f_equal. lia.
    + replace b with d by lia. rewrite ld8_st8_eq, Hmod. f_equal. lia.
    + by rewrite ld8_st8_ne by lia.
Qed.

Lemma copy_down_spec m d s n b :
  ¬ (d < s < d + Z.of_nat n) →
  ld8 (copy_down m (d + Z.of_nat n) (s + Z.of_nat n) n) b =
    if in_range b d (Z.of_nat n) then ld8 m (s + (b - d)) else ld8 m b.
Proof.
  revert m. induction n as [|n IH]; intros m Hov; cbn [copy_down].
  - range_cases; [lia|done].
  - replace (d + Z.of_nat (S n) - 1) with (d + Z.of_nat n) by lia.
    replace (s + Z.of_nat (S n) - 1) with (s + Z.of_nat n) by lia.
    rewrite IH by lia.
    assert (Hmod : ∀ x, ld8 m x mod 256 = ld8 m x) by (intros; unfold ld8; apply Z.mod_mod; lia).
    range_cases; try lia.
    + destruct (Z.eq_dec (s + (b - d)) (d + Z.of_nat n)) as [Heq|Hne].
      * lia.
      * by rewrite ld8_st8_ne by lia.
    + replace b with (d + Z.of_nat n) by lia. rewrite ld8_st8_eq, Hmod. f_equal. lia.
    + by rewrite ld8_st8_ne by lia.
Qed.

Lemma ld8_mod m x : ld8 m x mod 256 = ld8 m x.
Proof. unfold ld8. apply Z.mod_mod. lia. Qed.

Lemma zero_fill_spec m s n b :
  ld8 (zero_fill m s n) b = if in_range b s (Z.of_nat n) then 0 else ld8 m b.
Proof.
  revert m s. induction n as [|n IH]; intros m s; cbn [zero_fill].
  - range_cases; [lia|done].
  - rewrite IH. range_cases; try lia.
    + replace b with s by lia. by rewrite ld8_st8_eq.
    + by rewrite ld8_st8_ne by lia.
Qed.

Lemma cstr_ext m m' a l :
  (∀ i, 0 ≤ i ≤ Z.of_nat (length l) → ld8 m' (a + i) = ld8 m (a + i)) → cstr m a l → cstr m' a l.
Proof.
  revert a. induction l as [|c l IH]; intros a Hm; cbn [cstr length] in *.
  - intros H. pose proof (Hm 0 ltac:(lia)) as E. rewrite !Z.add_0_r in E. congruence.
  - intros (H1 & H2 & H3). pose proof (Hm 0 ltac:(lia)) as E. rewrite !Z.add_0_r in E.
    split_and!; [congruence|done|]. apply IH; [|done]. intros i Hi.
    replace (a + 1 + i) with (a + (1 + i)) by lia. apply Hm. lia.
Qed.

Lemma strlen_from_cstr m a l : ∀ n fuel,
  cstr m (a + n) l → (length l < fuel)%nat →
  strlen_from fuel m a n = Some (n + Z.of_nat (length l)).
Proof.
  induction l as [|c l IH]; intros n fuel H Hf; destruct fuel as [|fuel]; cbn [length] in *; try lia;
    cbn [strlen_from cstr] in *.
  - rewrite H. simpl. f_equal. lia.
  - destruct H as (-> & Hc & H). rewrite (proj2 (Z.eqb_neq c 0)) by done.
    rewrite IH; [f_equal; lia | | lia]. by replace (a + (n + 1)) with (a + n + 1) by lia.
Qed.

(** strlen returns on every terminated string, with its length. *)
Lemma strlen_cstr m a l fuel :
  cstr m a l → (length l < fuel)%nat → strlen fuel m a = Some (Z.of_nat (length l)).
Proof.
  intros H Hf. unfold strlen. rewrite (strlen_from_cstr m a l 0); [done| |done].
  by rewrite Z.add_0_r.
Qed.

(** The kernel's strncmp tells two terminated strings apart within [n] bytes. *)
Lemma strncmp_cstr m p q l1 l2 n :
  cstr m p l1 → cstr m q l2 → strncmp m p q n = 0 ↔ take n l1 = take n l2.
Proof.
  revert p q l1 l2. induction n as [|n IH]; intros p q l1 l2 H1 H2; [done|].
  destruct l1 as [|c1 l1], l2 as [|c2 l2]; cbn [strncmp cstr take] in *.
  - rewrite H1, H2. done.
  - destruct H2 as (H2 & Hc & _). rewrite H1, H2. simpl. split; [lia|done].
  - destruct H1 as (H1 & Hc & _). rewrite H1, H2.
    rewrite (proj2 (Z.eqb_neq c1 0)) by done. simpl.
    split; [lia|done].
  - destruct H1 as (H1 & Hc1 & H1'), H2 as (H2 & Hc2 & H2'). rewrite H1, H2.
    rewrite (proj2 (Z.eqb_neq c1 0)) by done. simpl.
    destruct (Z.eqb_spec c1 c2) as [->|Hne].
    + rewrite IH by eauto. split; [by intros ->|by intros [= ->]].
    + split; [lia|]. by intros [= ? _].
Qed.

Lemma safestrcpy_loop_frame m s t k b :
  ¬ (s ≤ b < s + Z.of_nat k + 1) → ld8 (safestrcpy_loop m s t k) b = ld8 m b.
Proof.
  revert m s t. induction k as [|k IH]; intros m s t Hb; cbn [safestrcpy_loop].
  - by rewrite ld8_st8_ne by lia.
  - destruct (ld8 m t =? 0); [by rewrite !ld8_st8_ne by lia|].
    rewrite IH by lia. by rewrite ld8_st8_ne by lia.
Qed.

Lemma safestrcpy_loop_cstr m s t k l :
  cstr m t l → (s + Z.of_nat k + 1 ≤ t ∨ t + Z.of_nat (length l) + 1 ≤ s) →
  cstr (safestrcpy_loop m s t k) s (take k l).
Proof.
  revert m s t l. induction k as [|k IH]; intros m s t l Hl Hdis; cbn [safestrcpy_loop].
  - simpl. by rewrite ld8_st8_eq.
  - destruct l as [|c l]; cbn [cstr take length] in *.
    + rewrite Hl. simpl. rewrite ld8_st8_ne by lia. by rewrite ld8_st8_eq.
    + destruct Hl as (Hc & Hnz & Hl). rewrite Hc. rewrite (proj2 (Z.eqb_neq c 0)) by done.
      pose proof (ld8_range m t). split_and!; [|done|].
      * rewrite safestrcpy_loop_frame by lia. rewrite ld8_st8_eq. apply Z.mod_small. lia.
      * apply IH; [|lia]. eapply cstr_ext; [|done]. intros i Hi. apply ld8_st8_ne. lia.
Qed.

Lemma strncpy_bytes m s t n l i :
  cstr m t l → (s + Z.of_nat n ≤ t ∨ t + Z.of_nat (length l) + 1 ≤ s) →
  (i < n)%nat → ld8 (strncpy m s t n) (s + Z.of_nat i) = default 0 (l !! i).
Proof.
  assert (Hframe : ∀ n m s t b, b < s → ld8 (strncpy m s t n) b = ld8 m b).
  { clear. induction n as [|n IH]; intros m s t b Hb; cbn [strncpy]; [done|].
    destruct (ld8 m t =? 0).
    - rewrite zero_fill_spec. range_cases; [lia|]. by rewrite ld8_st8_ne by lia.
    - rewrite IH by lia. by rewrite ld8_st8_ne by lia. }
  revert m s t l i. induction n as [|n IH]; intros m s t l i Hl Hdis Hi; [lia|].
  cbn [strncpy]. destruct l as [|c l]; cbn [cstr length] in *.
  - rewrite Hl. simpl. rewrite zero_fill_spec. range_cases; [done|].
    replace (s + Z.of_nat i) with s by lia. by rewrite ld8_st8_eq.
  - destruct Hl as (Hc & Hnz & Hl). rewrite Hc, (proj2 (Z.eqb_neq c 0)) by done.
    pose proof (ld8_range m t). destruct i as [|i].
    + rewrite Hframe by lia. replace (s + Z.of_nat 0) with s by lia.
      rewrite ld8_st8_eq. simpl. apply Z.mod_small. lia.
    + replace (s + Z.of_nat (S i)) with (s + 1 + Z.of_nat i) by lia.
      rewrite IH with (l := l); [done| |lia..].
      eapply cstr_ext; [|done]. intros j Hj. apply ld8_st8_ne. lia.
Qed.

(** The kernel's memmove copies correctly whatever the overlap: afterwards
    each of the [n] destination bytes holds the byte its source held before the
    call, and no other byte changed. *)
Theorem memmove_correct m dst src n b :
  ld8 (memmove m dst src n) b =
    if in_range b dst n then ld8 m (src + (b - dst)) else ld8 m b.
Proof.
  unfold memmove. destruct (Z.le_gt_cases 0 n) as [Hn|Hn].
  - destruct ((src <? dst) && (dst <? src + n)) eqn:E.
    + rewrite <- (Z2Nat.id n Hn) at 1 2 4. rewrite copy_down_spec; [done|].
      apply andb_true_iff in E as [E1 E2]. apply Z.ltb_lt in E1, E2. lia.
    + rewrite copy_up_spec; rewrite Z2Nat.id by done; [done|].
      apply andb_false_iff in E as [E|E]; apply Z.ltb_ge in E; lia.
  - replace (Z.to_nat n) with O by lia.
    destruct ((src <? dst) && (dst <? src + n)) eqn:E; cbn [copy_down copy_up]; range_cases; try lia; done.
Qed.

(** safestrcpy leaves a terminated string within the [n] bytes of its
    destination: the source cut to [n - 1] characters. It changes nothing
    outside those [n] bytes. *)
Theorem safestrcpy_correct m s t n l :
  0 < n → cstr m t l → (s + n ≤ t ∨ t + Z.of_nat (length l) + 1 ≤ s) →
  cstr (safestrcpy m s t n) s (take (Z.to_nat (n - 1)) l) ∧
  ∀ b, ¬ s ≤ b < s + n → ld8 (safestrcpy m s t n) b = ld8 m b.
Proof.
  intros Hn Hl Hdis. unfold safestrcpy. rewrite (proj2 (Z.leb_gt n 0)) by lia. split.
  - apply safestrcpy_loop_cstr; [done|]. lia.
  - intros b Hb. apply safestrcpy_loop_frame. lia.
Qed.
