(* ===== verification/Format.v ===== *)
(** Numbers and text: itoa (fs.c) and atoi (ulib.c), the two printint, and the
    format interpreters cprintf (console.c) and printf (printf.c). What a
    printing routine does is the list of the characters it puts out, in order. *)
From Stdlib Require Import ZArith Lia Bool.
From stdpp Require Import base tactics list option.
From S2P Require Import Prelude Machine CString.

(** * fs.c: itoa *)

(** [char const digit[] = "0123456789"]; [None] is a read outside it. *)
Definition digit (k : Z) : option Z := if (0 <=? k) && (k <=? 9) then Some (48 + k) else None.

(** do { ++p; shifter = shifter / 10; } while (shifter); *)
Fixpoint itoa_end (fuel : nat) (p shifter : Z) : option Z :=
  match fuel with
  | O => None
  | S fuel => let p := p + 1 in
              let shifter := Z.quot shifter 10 in
              if shifter =? 0 then Some p else itoa_end fuel p shifter
  end.

(** do { *--p = digit[i % 10]; i = i / 10; } while (i); *)
Fixpoint itoa_digits (fuel : nat) (m : memory) (p i : Z) : option memory :=
  match fuel with
  | O => None
  | S fuel => d ← digit (Z.rem i 10);
              let m := st8 m (p - 1) d in
              let i := Z.quot i 10 in
              if i =? 0 then Some m else itoa_digits fuel m (p - 1) i
  end.

Definition itoa (m : memory) (i b : Z) : option memory :=
  let '(m, p, i) := if i <? 0 then (st8 m b 45, b + 1, s32 (i * -1)) else (m, b, i) in
  p ← itoa_end 11 p i;
  itoa_digits 11 (st8 m p 0) p i.

(** The swap file's path in createSwapFile and removeSwapFile: six bytes of
    "/.swap" and the pid, in [char path[DIGITS]]. *)
Definition DIGITS : Z := 14.
Definition swap_prefix : list Z := [47; 46; 115; 119; 97; 112].
Fixpoint st_bytes (m : memory) (a : Z) (l : list Z) : memory :=
  match l with
  | [] => m
  | c :: l => st_bytes (st8 m a c) (a + 1) l
  end.
Definition swap_path (m : memory) (path pid : Z) : option memory :=
  itoa (st_bytes m path swap_prefix) pid (path + 6).

(** * ulib.c: atoi *)

Fixpoint atoi_loop (fuel : nat) (m : memory) (s n : Z) : option Z :=
  match fuel with
  | O => None
  | S fuel => let c := ld8 m s in
              if (48 <=? c) && (c <=? 57) then atoi_loop fuel m (s + 1) (s32 (n * 10 + c - 48))
              else Some n
  end.
Definition atoi (fuel : nat) (m : memory) (s : Z) : option Z := atoi_loop fuel m s 0.

(** * printint *)

(** do { buf[i++] = digits[x % base]; } while ((x /= base) != 0); *)
Fixpoint pi_digits (fuel : nat) (digits : Z → Z) (x base : Z) : list Z :=
  match fuel with
  | O => []
  | S fuel => digits (x mod base) ::
              (if x / base =? 0 then [] else pi_digits fuel digits (x / base) base)
  end.

Definition lower_digits (k : Z) : Z := if k <? 10 then 48 + k else 87 + k.
Definition upper_digits (k : Z) : Z := if k <? 10 then 48 + k else 55 + k.

(** The contents of [buf[16]] when the digits are in it. *)
Definition printint_buf (digits : Z → Z) (xx base : Z) (sign : bool) : list Z :=
  let neg := sign && (xx <? 0) in
  let x := if neg then u32 (- xx) else u32 xx in
  pi_digits 32 digits x base ++ (if neg then [45] else []).

(** console.c; its argument is an [int]. *)
Definition printint (xx base : Z) (sign : bool) : list Z :=
  reverse (printint_buf lower_digits xx base sign).

(** printf.c *)
Definition user_printint (xx base : Z) (sgn : bool) : list Z :=
  reverse (printint_buf upper_digits xx base sgn).

(** * cprintf and printf *)

(** The string a pointer argument names; the null pointer prints "(null)". *)
Fixpoint read_cstr (fuel : nat) (m : memory) (s : Z) : option (list Z) :=
  match fuel with
  | O => None
  | S fuel => if ld8 m s =? 0 then Some [] else (λ l, ld8 m s :: l) <$> read_cstr fuel m (s + 1)
  end.
Definition null_text : list Z := [40; 110; 117; 108; 108; 41].
Definition str_arg (fuel : nat) (m : memory) (s : Z) : option (list Z) :=
  if s =? 0 then Some null_text else read_cstr fuel m s.

(** cprintf: the format's bytes up to its NUL, and the words after it on the
    stack. A directive with no word left is a read past the arguments. *)
Fixpoint cprintf (fuel : nat) (m : memory) (fmt args : list Z) : option (list Z) :=
  match fmt with
  | [] => Some []
  | c :: fmt =>
    if negb (c =? 37) then (λ o, c :: o) <$> cprintf fuel m fmt args
    else match fmt with
    | [] => Some []
    | c :: fmt =>
      if c =? 100 then
        match args with
        | a :: args => (λ o, printint (s32 a) 10 true ++ o) <$> cprintf fuel m fmt args
        | [] => None
        end
      else if (c =? 120) || (c =? 112) then
        match args with
        | a :: args => (λ o, printint (s32 a) 16 false ++ o) <$> cprintf fuel m fmt args
        | [] => None
        end
      else if c =? 115 then
        match args with
        | a :: args => t ← str_arg fuel m a; (λ o, t ++ o) <$> cprintf fuel m fmt args
        | [] => None
        end
      else if c =? 37 then (λ o, 37 :: o) <$> cprintf fuel m fmt args
      else (λ o, 37 :: c :: o) <$> cprintf fuel m fmt args
    end
  end.

(** printf: one character at a time, with [state] 0 or '%'. *)
Fixpoint printf (fuel : nat) (m : memory) (state : Z) (fmt args : list Z) : option (list Z) :=
  match fmt with
  | [] => Some []
  | c :: fmt =>
    if state =? 0 then
      if c =? 37 then printf fuel m 37 fmt args
      else (λ o, c :: o) <$> printf fuel m 0 fmt args
    else if c =? 100 then
      match args with
      | a :: args => (λ o, user_printint (s32 a) 10 true ++ o) <$> printf fuel m 0 fmt args
      | [] => None
      end
    else if (c =? 120) || (c =? 112) then
      match args with
      | a :: args => (λ o, user_printint (s32 a) 16 false ++ o) <$> printf fuel m 0 fmt args
      | [] => None
      end
    else if c =? 115 then
      match args with
      | a :: args => t ← str_arg fuel m a; (λ o, t ++ o) <$> printf fuel m 0 fmt args
      | [] => None
      end
    else if c =? 99 then
      match args with
      | a :: args => (λ o, a mod 256 :: o) <$> printf fuel m 0 fmt args
      | [] => None
      end
    else if c =? 37 then (λ o, c :: o) <$> printf fuel m 0 fmt args
    else (λ o, 37 :: c :: o) <$> printf fuel m 0 fmt args
  end.

(** * The reference: numerals *)

(** The base-[base] numeral of [x], least significant digit first. *)
Fixpoint numeral (fuel : nat) (x base : Z) : list Z :=
  match fuel with
  | O => []
  | S fuel => x mod base :: (if x / base =? 0 then [] else numeral fuel (x / base) base)
  end.
Fixpoint value (base : Z) (l : list Z) : Z :=
  match l with
  | [] => 0
  | d :: l => d + base * value base l
  end.

(** * Lemmas *)

Lemma quot_div10 x : 0 ≤ x → Z.quot x 10 = x / 10.
Proof. intros H. apply Z.quot_div_nonneg; lia. Qed.

Lemma rem_mod10 x : 0 ≤ x → Z.rem x 10 = x mod 10.
Proof. intros H. apply Z.rem_mod_nonneg; lia. Qed.

Lemma numeral_bounds fuel x base :
  2 ≤ base → 0 ≤ x → Forall (λ d, 0 ≤ d < base) (numeral fuel x base).
Proof.
  intros Hb. revert x. induction fuel as [|fuel IH]; intros x Hx; cbn [numeral]; [done|].
  constructor; [apply Z.mod_pos_bound; lia|].
  destruct (x / base =? 0); [done|]. apply IH, Z.div_pos; lia.
Qed.

Lemma numeral_value fuel x base :
  2 ≤ base → 0 ≤ x < base ^ Z.of_nat fuel → value base (numeral fuel x base) = x.
Proof.
  intros Hb. revert x. induction fuel as [|fuel IH]; intros x Hx.
  - cbn in *. lia.
  - rewrite Nat2Z.inj_succ, Z.pow_succ_r in Hx by lia. cbn [numeral value].
    pose proof (Z.div_mod x base ltac:(lia)). destruct (Z.eqb_spec (x / base) 0) as [E|E].
    + cbn. lia.
    + rewrite IH; [lia|]. split; [apply Z.div_pos; lia|]. apply Z.div_lt_upper_bound; lia.
Qed.

Lemma numeral_length fuel x base k :
  2 ≤ base → 0 ≤ x < base ^ Z.of_nat k → (0 < k)%nat → (length (numeral fuel x base) ≤ k)%nat.
Proof.
  intros Hb. revert x k. induction fuel as [|fuel IH]; intros x k Hx Hk; cbn [numeral length]; [lia|].
  destruct k as [|k]; [lia|]. destruct (Z.eqb_spec (x / base) 0) as [E|E]; cbn [length]; [lia|].
  rewrite Nat2Z.inj_succ, Z.pow_succ_r in Hx by lia.
  assert (x / base < base ^ Z.of_nat k) by (apply Z.div_lt_upper_bound; lia).
  assert (0 ≤ x / base) by (apply Z.div_pos; lia).
  destruct k as [|k]; [cbn in *; lia|]. apply le_n_S, IH; lia.
Qed.

Lemma numeral_nonempty fuel x base : (0 < fuel)%nat → (0 < length (numeral fuel x base))%nat.
Proof. destruct fuel; cbn [numeral length]; lia. Qed.

Lemma numeral_long fuel x base k :
  2 ≤ base → base ^ Z.of_nat k ≤ x → (k < fuel)%nat → (k < length (numeral fuel x base))%nat.
Proof.
  intros Hb. revert x k. induction fuel as [|fuel IH]; intros x k Hx Hk; [lia|].
  cbn [numeral]. destruct k as [|k]; [cbn [length]; lia|].
  rewrite Nat2Z.inj_succ, Z.pow_succ_r in Hx by lia.
  assert (base ^ Z.of_nat k ≤ x / base) by (apply Z.div_le_lower_bound; lia).
  pose proof (Z.pow_pos_nonneg base (Z.of_nat k)).
  destruct (Z.eqb_spec (x / base) 0); [lia|]. cbn [length]. apply le_n_S, IH; lia.
Qed.

Lemma pi_digits_map fuel digits x base :
  pi_digits fuel digits x base = digits <$> numeral fuel x base.
Proof.
  revert x. induction fuel as [|fuel IH]; intros x; cbn [pi_digits numeral]; [done|].
  rewrite fmap_cons. f_equal. destruct (x / base =? 0); [done|]. apply IH.
Qed.

Lemma itoa_end_spec fuel p i :
  0 ≤ i < 10 ^ Z.of_nat fuel →
  (0 < fuel)%nat → itoa_end fuel p i = Some (p + Z.of_nat (length (numeral fuel i 10))).
Proof.
  revert p i. induction fuel as [|fuel IH]; intros p i Hi Hf; [lia|].
  cbn [itoa_end numeral]. rewrite quot_div10 by lia.
  destruct (Z.eqb_spec (i / 10) 0) as [E|E].
  - cbn [length]. f_equal; lia.
  - rewrite Nat2Z.inj_succ, Z.pow_succ_r in Hi by lia.
    assert (0 ≤ i / 10) by (apply Z.div_pos; lia).
    assert (i / 10 < 10 ^ Z.of_nat fuel) by (apply Z.div_lt_upper_bound; lia).
    destruct fuel as [|fuel]; [cbn in *; lia|].
    rewrite IH by lia. cbn [length]. f_equal. lia.
Qed.

(** The digit loop writes the numeral backwards below [p], and nothing else. *)
Lemma itoa_digits_spec fuel m p i :
  0 ≤ i < 10 ^ Z.of_nat fuel → (0 < fuel)%nat →
  ∃ m', itoa_digits fuel m p i = Some m' ∧
    (∀ k d, numeral fuel i 10 !! k = Some d → ld8 m' (p - 1 - Z.of_nat k) = 48 + d) ∧
    (∀ b, ¬ p - Z.of_nat (length (numeral fuel i 10)) ≤ b < p → ld8 m' b = ld8 m b).
Proof.
  revert m p i. induction fuel as [|fuel IH]; intros m p i Hi Hf; [lia|].
  cbn [itoa_digits numeral]. rewrite quot_div10, rem_mod10 by lia.
  pose proof (Z.mod_pos_bound i 10 ltac:(lia)) as Hd.
  unfold digit at 1. rewrite (proj2 (Z.leb_le 0 (i mod 10))), (proj2 (Z.leb_le (i mod 10) 9)) by lia.
  cbn [andb mbind option_bind].
  destruct (Z.eqb_spec (i / 10) 0) as [E|E].
  - eexists. split; [done|]. split.
    + intros [|k] d Hk; simplify_eq/=. replace (p - 1 - Z.of_nat 0) with (p - 1) by lia.
      rewrite ld8_st8_eq. apply Z.mod_small. lia.
    + cbn [length]. intros b Hb. apply ld8_st8_ne. lia.
  - rewrite Nat2Z.inj_succ, Z.pow_succ_r in Hi by lia.
    assert (0 ≤ i / 10) by (apply Z.div_pos; lia).
    assert (i / 10 < 10 ^ Z.of_nat fuel) by (apply Z.div_lt_upper_bound; lia).
    destruct fuel as [|fuel]; [cbn in *; lia|].
    destruct (IH (st8 m (p - 1) (48 + i mod 10)) (p - 1) (i / 10)) as (m' & -> & Hdig & Hfr); [lia..|].
    exists m'. split; [done|]. split.
    + intros [|k] d Hk; simplify_eq/=.
      * replace (p - 1 - Z.of_nat 0) with (p - 1) by lia. rewrite Hfr by lia.
        rewrite ld8_st8_eq. apply Z.mod_small. lia.
      * replace (p - 1 - Z.of_nat (S k)) with (p - 1 - 1 - Z.of_nat k) by lia. by apply Hdig.
    + cbn [length]. intros b Hb. rewrite Hfr by lia. apply ld8_st8_ne. lia.
Qed.

(** The decimal text of a non-negative [int]. *)
Definition decimal (i : Z) : list Z := reverse ((λ d, 48 + d) <$> numeral 11 i 10).

Lemma cstr_intro m a l :
  (∀ k c, l !! k = Some c → ld8 m (a + Z.of_nat k) = c ∧ c ≠ 0) →
  ld8 m (a + Z.of_nat (length l)) = 0 → cstr m a l.
Proof.
  revert a. induction l as [|c l IH]; intros a Hl H0; cbn [cstr length] in *.
  - by rewrite Z.add_0_r in H0.
  - destruct (Hl 0%nat c eq_refl) as [H1 H2]. rewrite Z.add_0_r in H1. split_and!; [done..|].
    apply IH.
    + intros k c' Hk. destruct (Hl (S k) c' Hk) as [H3 H4]. split; [|done].
      by replace (a + 1 + Z.of_nat k) with (a + Z.of_nat (S k)) by lia.
    + by replace (a + 1 + Z.of_nat (length l)) with (a + Z.of_nat (S (length l))) by lia.
Qed.

Lemma decimal_length i : length (decimal i) = length (numeral 11 i 10).
Proof. unfold decimal. by rewrite length_reverse, length_fmap. Qed.

Lemma decimal_lookup i k c :
  decimal i !! k = Some c →
  ∃ d, numeral 11 i 10 !! (length (numeral 11 i 10) - S k)%nat = Some d ∧ c = 48 + d ∧
       (k < length (numeral 11 i 10))%nat.
Proof.
  intros H. pose proof (lookup_lt_Some _ _ _ H) as Hk. rewrite decimal_length in Hk.
  unfold decimal in H.
  rewrite reverse_lookup in H by (rewrite length_fmap; lia). rewrite length_fmap in H.
  rewrite list_lookup_fmap in H. destruct (numeral 11 i 10 !! _) eqn:E; simplify_eq/=.
  eauto.
Qed.

Lemma itoa_spec m i b :
  0 ≤ i < 2 ^ 31 →
  ∃ m', itoa m i b = Some m' ∧ cstr m' b (decimal i) ∧
    (∀ a, ¬ b ≤ a ≤ b + Z.of_nat (length (decimal i)) → ld8 m' a = ld8 m a).
Proof.
  intros Hi. unfold itoa. rewrite (proj2 (Z.ltb_ge i 0)) by lia. cbn [mbind option_bind].
  rewrite itoa_end_spec by (cbn; lia). cbn [mbind option_bind].
  set (n := length (numeral 11 i 10)). assert (Hn : (0 < n)%nat) by (apply numeral_nonempty; lia).
  destruct (itoa_digits_spec 11 (st8 m (b + Z.of_nat n) 0) (b + Z.of_nat n) i) as (m' & -> & Hd & Hf);
    [cbn; lia|lia|]. fold n in Hf.
  exists m'. rewrite decimal_length. fold n. split_and!; [done| |].
  - apply cstr_intro.
    + intros k c Hk. apply decimal_lookup in Hk as (d & Hd' & -> & Hk). fold n in Hd', Hk.
      pose proof (numeral_bounds 11 i 10 ltac:(lia) ltac:(lia)) as HF.
      rewrite Forall_lookup in HF. pose proof (HF _ _ Hd').
      rewrite <- (Hd _ _ Hd'). split; [f_equal; lia|]. rewrite (Hd _ _ Hd'). lia.
    + rewrite decimal_length. fold n. rewrite Hf by lia. by rewrite ld8_st8_eq.
  - intros a Ha. rewrite Hf by lia. apply ld8_st8_ne. lia.
Qed.

(** What atoi computes on the digit characters [l], from [n] on. *)
Definition accum (n : Z) (l : list Z) : Z := foldl (λ n c, n * 10 + (c - 48)) n l.

Lemma accum_decimal_value n l :
  accum n (reverse ((λ d, 48 + d) <$> l)) = n * 10 ^ Z.of_nat (length l) + value 10 l.
Proof.
  unfold accum. revert n. induction l as [|d l IH]; intros n.
  - cbn. lia.
  - rewrite fmap_cons. rewrite reverse_cons, foldl_app, IH. cbn [foldl value length].
    rewrite Nat2Z.inj_succ, Z.pow_succ_r by lia. lia.
Qed.

Lemma accum_ge n l : 0 ≤ n → Forall (λ c, 48 ≤ c ≤ 57) l → n ≤ accum n l.
Proof.
  unfold accum. intros Hn H. revert n Hn. induction H as [|c l Hc Hl IH]; intros n Hn; cbn; [lia|].
  etrans; [|apply IH]; lia.
Qed.

Lemma atoi_loop_spec fuel m s n l :
  cstr m s l → Forall (λ c, 48 ≤ c ≤ 57) l → 0 ≤ n → accum n l < 2 ^ 31 →
  (length l < fuel)%nat → atoi_loop fuel m s n = Some (accum n l).
Proof.
  intros Hs Hl. revert s n fuel Hs.
  induction Hl as [|c l Hc Hl IH]; intros s n fuel Hs Hn Hb Hf; destruct fuel as [|fuel]; cbn [length] in *; try lia;
    cbn [atoi_loop cstr] in *.
  - by rewrite Hs.
  - destruct Hs as (-> & Hnz & Hs).
    rewrite (proj2 (Z.leb_le 48 c)), (proj2 (Z.leb_le c 57)) by lia. cbn [andb].
    change (accum n (c :: l)) with (accum (n * 10 + (c - 48)) l) in *.
    pose proof (accum_ge (n * 10 + (c - 48)) l ltac:(lia) Hl).
    rewrite s32_small by lia. replace (n * 10 + c - 48) with (n * 10 + (c - 48)) by lia.
    apply IH; [done|lia..].
Qed.

Lemma decimal_digits i : 0 ≤ i → Forall (λ c, 48 ≤ c ≤ 57) (decimal i).
Proof.
  intros Hi. unfold decimal. rewrite Forall_reverse, Forall_fmap.
  pose proof (numeral_bounds 11 i 10 ltac:(lia) Hi) as H. rewrite Forall_lookup in *.
  intros k d Hd. simpl. specialize (H k d Hd). simpl in H. lia.
Qed.

Lemma accum_decimal i : 0 ≤ i < 2 ^ 31 → accum 0 (decimal i) = i.
Proof.
  intros Hi. unfold decimal. rewrite accum_decimal_value, numeral_value by (cbn; lia). lia.
Qed.

Lemma value_app base l1 l2 : value base (l1 ++ l2) = value base l1 + base ^ Z.of_nat (length l1) * value base l2.
Proof.
  induction l1 as [|d l1 IH]; cbn [app value length]; [lia|].
  rewrite IH, Nat2Z.inj_succ, Z.pow_succ_r by lia. lia.
Qed.

Lemma decimal_length_range i k :
  0 ≤ i < 2 ^ 31 → (0 < k < 11)%nat → (length (decimal i) ≤ k)%nat ↔ i < 10 ^ Z.of_nat k.
Proof.
  intros Hi Hk. rewrite decimal_length. split.
  - intros Hl. apply Z.lt_nge. intros Hge.
    pose proof (numeral_long 11 i 10 k ltac:(lia) Hge ltac:(lia)). lia.
  - intros Hlt. apply numeral_length; lia.
Qed.

(** The reading of a printed number: an optional minus sign and digit
    characters in base 10. *)
Definition read_signed (l : list Z) : Z :=
  match l with
  | 45 :: l => - accum 0 l
  | l => accum 0 l
  end.

Lemma numeral_more_fuel fuel fuel' x base :
  2 ≤ base → 0 ≤ x < base ^ Z.of_nat fuel → (fuel ≤ fuel')%nat → (0 < fuel)%nat →
  numeral fuel' x base = numeral fuel x base.
Proof.
  intros Hb. revert fuel' x. induction fuel as [|fuel IH]; intros fuel' x Hx Hle Hf; [lia|].
  destruct fuel' as [|fuel']; [lia|]. cbn [numeral]. f_equal.
  destruct (Z.eqb_spec (x / base) 0) as [E|E]; [done|].
  rewrite Nat2Z.inj_succ, Z.pow_succ_r in Hx by lia.
  assert (x / base < base ^ Z.of_nat fuel) by (apply Z.div_lt_upper_bound; lia).
  assert (0 ≤ x / base) by (apply Z.div_pos; lia).
  destruct fuel as [|fuel]; [cbn in *; lia|]. apply IH; lia.
Qed.

Lemma printint_decimal digits x :
  (∀ k, 0 ≤ k < 10 → digits k = 48 + k) → 0 ≤ x < 10 ^ 11 →
  reverse (pi_digits 32 digits x 10) = decimal x.
Proof.
  intros Hdg Hx. unfold decimal. rewrite pi_digits_map. f_equal.
  rewrite (numeral_more_fuel 11 32) by (cbn; lia).
  pose proof (numeral_bounds 11 x 10 ltac:(lia) ltac:(lia)) as H.
  apply list_fmap_ext. intros i d Hd. rewrite Forall_lookup in H. apply Hdg. by eapply H.
Qed.

Lemma read_signed_decimal x : 0 ≤ x < 2 ^ 31 → read_signed (decimal x) = x.
Proof.
  intros Hx. pose proof (decimal_digits x ltac:(lia)) as HF. pose proof (accum_decimal x Hx) as Ha.
  unfold read_signed. destruct (decimal x) as [|c l]; [done|].
  inversion_clear HF. repeat (case_match; try done; try lia).
Qed.

(** A pid survives the trip through itoa and atoi: what createSwapFile
    writes after "/.swap" reads back as the pid. itoa always finishes, leaves a
    terminated string and touches only the bytes of that string. *)
Theorem itoa_atoi m i b :
  0 ≤ i < 2 ^ 31 →
  ∃ m', itoa m i b = Some m' ∧ atoi 12 m' b = Some i ∧ cstr m' b (decimal i) ∧
    (∀ a, ¬ b ≤ a ≤ b + Z.of_nat (length (decimal i)) → ld8 m' a = ld8 m a).
Proof.
  intros Hi. destruct (itoa_spec m i b Hi) as (m' & Hm & Hs & Hf). exists m'.
  split_and!; [done| |done..]. unfold atoi.
  rewrite (atoi_loop_spec _ _ _ _ (decimal i)); [by rewrite accum_decimal|done|by apply decimal_digits; lia|lia| |].
  - rewrite accum_decimal; lia.
  - rewrite decimal_length. pose proof (numeral_length 11 i 10 11 ltac:(lia) ltac:(cbn; lia)). lia.
Qed.

(** The swap-file path overruns [char path[DIGITS]] exactly for the pids of
    eight digits and more: from then on the terminating NUL is stored past the
    14 bytes of the array. *)
Theorem swap_path_bounds m path pid :
  0 ≤ pid < 2 ^ 31 →
  ∃ m', swap_path m path pid = Some m' ∧ cstr m' (path + 6) (decimal pid) ∧
    (path + 6 + Z.of_nat (length (decimal pid)) < path + DIGITS ↔ pid < 10 ^ 7).
Proof.
  intros Hp. unfold swap_path.
  destruct (itoa_spec (st_bytes m path swap_prefix) pid (path + 6) Hp) as (m' & -> & Hs & _).
  exists m'. split_and!; [done..|]. change (10 ^ 7) with (10 ^ Z.of_nat 7).
  rewrite <- decimal_length_range by lia. unfold DIGITS. lia.
Qed.

(** printint prints every 32-bit integer so that it reads back as itself,
    the most negative one included, in both the kernel's and the user
    library's version; and the digits and sign never overrun [buf[16]]. *)
Theorem printint_correct xx :
  - 2 ^ 31 ≤ xx < 2 ^ 31 →
  read_signed (printint xx 10 true) = xx ∧ read_signed (user_printint xx 10 true) = xx ∧
  (length (printint_buf lower_digits xx 10 true) ≤ 16)%nat ∧
  (length (printint_buf lower_digits xx 16 false) ≤ 16)%nat.
Proof.
  intros Hx.
  assert (Hl : ∀ x base, (base = 10 ∨ base = 16) → 0 ≤ x < 2 ^ 32 → (length (pi_digits 32 lower_digits x base) ≤ 10)%nat).
  { intros x base Hb Hx'. rewrite pi_digits_map, length_fmap. apply numeral_length; [lia| |lia].
    destruct Hb as [-> | ->]; cbn; lia. }
  assert (Hd : ∀ digits, (∀ k, 0 ≤ k < 10 → digits k = 48 + k) →
    read_signed (reverse (printint_buf digits xx 10 true)) = xx).
  { intros digits Hdg. unfold printint_buf. cbn [andb]. destruct (Z.ltb_spec xx 0).
    - rewrite reverse_app, u32_small by lia. rewrite printint_decimal by (done || lia).
      change (read_signed (reverse [45] ++ decimal (- xx))) with (- accum 0 (decimal (- xx))).
      destruct (Z.eq_dec xx (- 2 ^ 31)) as [->|]; [vm_compute; done|].
      rewrite accum_decimal by lia. lia.
    - rewrite app_nil_r, u32_small by lia. rewrite printint_decimal by (done || lia).
      apply read_signed_decimal. lia. }
  split_and!.
  - apply Hd. intros k Hk. unfold lower_digits. destruct (Z.ltb_spec k 10); lia.
  - apply Hd. intros k Hk. unfold upper_digits. destruct (Z.ltb_spec k 10); lia.
  - unfold printint_buf. cbn [andb]. rewrite length_app. destruct (xx <? 0); cbn [length].
    + pose proof (Hl (u32 (- xx)) 10 ltac:(auto) (u32_range _)). lia.
    + pose proof (Hl (u32 xx) 10 ltac:(auto) (u32_range _)). lia.
  - unfold printint_buf. cbn [andb app]. rewrite app_nil_r.
    pose proof (Hl (u32 xx) 16 ltac:(auto) (u32_range _)). lia.
Qed.

(** No directive of the format is %c, %x or %p: the three on which the user
    library and the kernel are written to differ. *)
Fixpoint common_directives (fmt : list Z) : bool :=
  match fmt with
  | [] => true
  | c :: fmt =>
    if c =? 37 then
      match fmt with
      | [] => true
      | d :: fmt => negb (d =? 99) && negb (d =? 120) && negb (d =? 112) && common_directives fmt
      end
    else common_directives fmt
  end.

Lemma pi_digits_ext fuel digits digits' x :
  0 ≤ x → (∀ k, 0 ≤ k < 10 → digits k = digits' k) →
  pi_digits fuel digits x 10 = pi_digits fuel digits' x 10.
Proof.
  intros Hx Hd. revert x Hx. induction fuel as [|fuel IH]; intros x Hx; cbn [pi_digits]; [done|].
  rewrite Hd by (apply Z.mod_pos_bound; lia). rewrite IH by (apply Z.div_pos; lia). done.
Qed.

Lemma printint_user_kernel xx : user_printint xx 10 true = printint xx 10 true.
Proof.
  unfold user_printint, printint, printint_buf.
  rewrite (pi_digits_ext 32 upper_digits lower_digits); [done| |].
  - destruct (true && (xx <? 0)); apply u32_range.
  - intros k Hk. unfold upper_digits, lower_digits. by rewrite (proj2 (Z.ltb_lt k 10)) by lia.
Qed.

(** The user library's printf, a state machine fed one character at a time,
    and the kernel's cprintf, which looks one character ahead, put out the same
    text for every format whose directives they share, whatever the arguments,
    and stop in the same place when the arguments run out. *)
Theorem printf_cprintf fuel m fmt args :
  common_directives fmt = true → printf fuel m 0 fmt args = cprintf fuel m fmt args.
Proof.
  remember (length fmt) as n eqn:Hn.
  revert fmt args Hn. induction n as [n IH] using lt_wf_ind. intros fmt args -> Hc.
  destruct fmt as [|c fmt]; [done|]. cbn [printf cprintf common_directives length] in *.
  change (0 =? 0) with true. cbn iota. destruct (c =? 37) eqn:E; cbn [negb].
  2:{ f_equal. eapply IH; [|done|done]. lia. }
  destruct fmt as [|d fmt]; [done|]. cbn [printf length] in *.
  change (37 =? 0) with false. cbn iota.
  apply andb_true_iff in Hc as [Hc Hrest]. apply andb_true_iff in Hc as [Hc Hp].
  apply andb_true_iff in Hc as [Hcc Hx]. apply negb_true_iff in Hcc, Hx, Hp.
  rewrite Hcc, Hx, Hp. cbn [orb].
  assert (IH' : ∀ args, printf fuel m 0 fmt args = cprintf fuel m fmt args).
  { intros a. eapply IH; [|done|done]. lia. }
  destruct (d =? 100); [destruct args; [done|]; by rewrite IH', printint_user_kernel|].
  destruct (d =? 115); [destruct args; [done|]; by rewrite IH'|].
  destruct (d =? 37) eqn:Ed; [|by rewrite IH'].
  apply Z.eqb_eq in Ed as ->. by rewrite IH'.
Qed.
