(* ===== verification/Kalloc.v ===== *)
(** The physical page allocator (kalloc.c): the free list threaded through the
    free pages themselves, its initialisation in two phases, and the count of
    free pages that procdump prints. *)
From Stdlib Require Import ZArith Lia Bool.
From stdpp Require Import base tactics list strings sets.
From S2P Require Import Prelude Machine CString.

(** What the linker script (kernel.ld) says of the loaded kernel: the end of
    its image [end] and the start of its data [data]. *)
Class KernelImage := {
  kend : Z;
  kdata : Z;
  kend_range : KERNLINK ≤ kend ≤ KERNBASE + PHYSTOP;
  kdata_range : KERNLINK ≤ kdata ≤ kend;
  kdata_aligned : kdata mod PGSIZE = 0 }.

(** Memory and [struct { lock; use_lock; freelist; } kmem]. [klock] is whether
    the current CPU holds [kmem.lock]. *)
Record kmst := mk_kmst { mem : memory; freelist : Z; use_lock : bool; klock : bool }.

Definition set_mem (m : memory) (s : kmst) := mk_kmst m (freelist s) (use_lock s) (klock s).
Definition set_freelist (p : Z) (s : kmst) := mk_kmst (mem s) p (use_lock s) (klock s).
Definition set_use_lock (b : bool) (s : kmst) := mk_kmst (mem s) (freelist s) b (klock s).
Definition set_klock (b : bool) (s : kmst) := mk_kmst (mem s) (freelist s) (use_lock s) b.

(** acquire(&kmem.lock) and release(&kmem.lock), on one CPU. *)
Definition kmem_acquire : M kmst unit :=
  s ← get; if klock s then panic "acquire" else modify (set_klock true).
Definition kmem_release : M kmst unit :=
  s ← get; if klock s then modify (set_klock false) else panic "release".

Section kalloc.
  Context {KI : KernelImage}.

Definition kfree (v : Z) : M kmst unit :=
  s ← get;
  if negb (v mod PGSIZE =? 0) || (v <? kend) || (PHYSTOP <=? V2P v) then panic "kfree" else
  modify (λ s, set_mem (memset (mem s) v 1 PGSIZE) s);;
  when (use_lock s) kmem_acquire;;
  modify (λ s, set_mem (st32 (mem s) v (freelist s)) s);;
  modify (set_freelist v);;
  when (use_lock s) kmem_release.

Definition kalloc : M kmst Z :=
  s ← get;
  when (use_lock s) kmem_acquire;;
  r ← gets freelist;
  when (negb (r =? 0)) (modify (λ s, set_freelist (ld32 (mem s) r) s));;
  when (use_lock s) kmem_release;;
  mret r.

Fixpoint freerange_loop (fuel : nat) (p vend : Z) : M kmst unit :=
  if u32 (p + PGSIZE) <=? vend then
    match fuel with
    | O => nofuel
    | S fuel => kfree p;; freerange_loop fuel (u32 (p + PGSIZE)) vend
    end
  else mret tt.

(** One round per page of the range suffices. *)
Definition freerange (vstart vend : Z) : M kmst unit :=
  let p := PGROUNDUP vstart in freerange_loop (Z.to_nat ((vend - p) / PGSIZE)) p vend.

Definition kinit1 (vstart vend : Z) : M kmst unit :=
  modify (set_klock false);;
  modify (set_use_lock false);;
  freerange vstart vend.

Definition kinit2 (vstart vend : Z) : M kmst unit :=
  freerange vstart vend;;
  modify (set_use_lock true).

(** while(r){ r = r->next; pages_num++; } *)
Fixpoint count_free (fuel : nat) (m : memory) (r n : Z) : option Z :=
  if r =? 0 then Some n else
  match fuel with
  | O => None
  | S fuel => count_free fuel m (ld32 m r) (n + 1)
  end.

Definition free_pages_in_system (fuel : nat) : M kmst Z :=
  s ← get;
  when (use_lock s) kmem_acquire;;
  s' ← get;
  match count_free fuel (mem s') (freelist s') 0 with
  | Some n => when (use_lock s) kmem_release;; mret n
  | None => nofuel
  end.

(** * The invariant *)

(** A page the allocator may own. *)
Definition good_page (v : Z) : Prop :=
  v mod PGSIZE = 0 ∧ kend ≤ v ∧ v + PGSIZE ≤ KERNBASE + PHYSTOP.

(** [l] are the pages of the list that starts at [p]. *)
Fixpoint chain (m : memory) (p : Z) (l : list Z) : Prop :=
  match l with
  | [] => p = 0
  | q :: l => p = q ∧ chain m (ld32 m p) l
  end.

Record wf_kmem (s : kmst) (l : list Z) : Prop := {
  wf_chain : chain (mem s) (freelist s) l;
  wf_nodup : NoDup l;
  wf_good : Forall good_page l;
  wf_unlocked : klock s = false }.

Lemma good_page_range v : good_page v → KERNLINK ≤ v < 2 ^ 32 - PGSIZE.
Proof. intros (H1 & H2 & H3). pose proof kend_range. unfold KERNLINK, KERNBASE, EXTMEM, PHYSTOP, PGSIZE in *. lia. Qed.

Lemma good_page_disjoint v w :
  good_page v → good_page w → v ≠ w → v + PGSIZE ≤ w ∨ w + PGSIZE ≤ v.
Proof.
  intros (Hv & _) (Hw & _) Hne. unfold PGSIZE in *.
  assert (v = 4096 * (v / 4096)) by (Z.to_euclidean_division_equations; lia).
  assert (w = 4096 * (w / 4096)) by (Z.to_euclidean_division_equations; lia).
  assert (v / 4096 ≠ w / 4096) by congruence. lia.
Qed.

Lemma kfree_guard v :
  good_page v →
  negb (v mod PGSIZE =? 0) || (v <? kend) || (PHYSTOP <=? V2P v) = false.
Proof.
  intros Hv. pose proof (good_page_range v Hv). destruct Hv as (H1 & H2 & H3).
  rewrite H1. cbn. rewrite (proj2 (Z.ltb_ge v kend)) by lia. cbn.
  unfold V2P. rewrite u32_small by (unfold KERNLINK, KERNBASE, EXTMEM, PGSIZE in *; lia).
  apply Z.leb_gt. unfold KERNBASE, PGSIZE in *. lia.
Qed.

Lemma chain_frame m m' p l :
  (∀ q, q ∈ l → ld32 m' q = ld32 m q) → chain m p l → chain m' p l.
Proof.
  revert p. induction l as [|q l IH]; intros p Hm; cbn [chain]; [done|].
  intros (-> & H). split; [done|]. rewrite Hm by set_solver. apply IH; [|done]. set_solver.
Qed.

Lemma chain_count m p l n fuel :
  chain m p l → Forall good_page l → (length l ≤ fuel)%nat →
  count_free fuel m p n = Some (n + Z.of_nat (length l)).
Proof.
  revert p n fuel. induction l as [|q l IH]; intros p n fuel Hc Hg Hf; cbn [chain length] in *.
  - subst p. destruct fuel; cbn; f_equal; lia.
  - destruct Hc as (-> & Hc). inversion_clear Hg as [|?? Hq Hl]. pose proof (good_page_range q Hq).
    destruct fuel as [|fuel]; [lia|]. cbn [count_free].
    rewrite (proj2 (Z.eqb_neq q 0)) by (unfold KERNLINK, KERNBASE, EXTMEM in *; lia).
    rewrite IH by (done || lia). f_equal. lia.
Qed.

Lemma ld8_kfree_page m v p b :
  ¬ v ≤ b < v + PGSIZE → ld8 (st32 (memset m v 1 PGSIZE) v p) b = ld8 m b.
Proof.
  intros Hb. unfold PGSIZE in *. rewrite ld8_st32_ne by lia. rewrite memset_spec.
  range_cases; [lia|done].
Qed.

(** kfree pushes the page on the list and overwrites that page only. *)
Lemma kfree_spec v s l :
  wf_kmem s l → good_page v → v ∉ l →
  runs (kfree v) s (λ _ s', wf_kmem s' (v :: l) ∧ use_lock s' = use_lock s ∧
    ∀ b, ¬ v ≤ b < v + PGSIZE → ld8 (mem s') b = ld8 (mem s) b).
Proof.
  intros [Hc Hn Hg Hu] Hv Hin. unfold kfree. do 2 mstep. rewrite kfree_guard by done.
  assert (Hwf : ∀ b, wf_kmem
    (mk_kmst (st32 (memset (mem s) v 1 PGSIZE) v (freelist s)) v b false) (v :: l)).
  { intros b. pose proof (good_page_range v Hv). split; cbn [mem freelist klock].
    - split; [done|]. rewrite ld32_st32_eq, u32_small.
      + eapply chain_frame; [|done]. intros q Hq. rewrite Forall_forall in Hg.
        pose proof (good_page_disjoint v q Hv (Hg q Hq) ltac:(congruence)).
        unfold PGSIZE in *. rewrite ld32_st32_ne by lia. apply ld32_memset_out. lia.
      + destruct l as [|q l]; cbn [chain] in Hc; [rewrite Hc; lia|]. destruct Hc as [-> _].
        inversion_clear Hg as [|?? Hq]. pose proof (good_page_range q Hq).
        unfold KERNLINK, KERNBASE, EXTMEM, PGSIZE in *. lia.
    - by constructor.
    - by constructor.
    - done. }
  unfold kmem_acquire, kmem_release. destruct s as [m fl ul kl]; cbn in *. subst kl.
  destruct ul; cbn; munfold; cbn; eexists _, _; (split; [done|]); (split; [apply Hwf|]); cbn;
    (split; [done|]); intros b Hb; by apply ld8_kfree_page.
Qed.

Lemma kfree_bad v s :
  v mod PGSIZE ≠ 0 ∨ v < kend ∨ PHYSTOP ≤ V2P v → kfree v s = Panic "kfree".
Proof.
  intros H. unfold kfree. munfold.
  replace (negb (v mod PGSIZE =? 0) || (v <? kend) || (PHYSTOP <=? V2P v)) with true; [done|].
  symmetry. destruct H as [H | [H | H]].
  - by rewrite (proj2 (Z.eqb_neq _ _) H).
  - rewrite (proj2 (Z.ltb_lt _ _) H). by rewrite orb_true_r.
  - rewrite (proj2 (Z.leb_le _ _) H). by rewrite orb_true_r.
Qed.

(** kalloc pops the head of the list and writes no memory. *)
Lemma kalloc_spec s l :
  wf_kmem s l →
  runs kalloc s (λ r s', mem s' = mem s ∧ use_lock s' = use_lock s ∧ wf_kmem s' (tail l) ∧
    match l with [] => r = 0 | p :: _ => r = p end).
Proof.
  intros [Hc Hn Hg Hu]. unfold kalloc, kmem_acquire, kmem_release.
  destruct s as [m fl ul kl]; cbn in *. subst kl.
  destruct l as [|p l]; cbn [chain] in Hc.
  - subst fl. destruct ul; munfold; cbn; eexists _, _; (split; [done|]); split_and!; try done;
      split; cbn; done.
  - destruct Hc as [-> Hc]. inversion_clear Hn as [|?? Hin Hn']. inversion_clear Hg as [|?? Hp Hg'].
    pose proof (good_page_range p Hp).
    assert ((p =? 0) = false) as Hp0 by (apply Z.eqb_neq; unfold KERNLINK, KERNBASE, EXTMEM in *; lia).
    destruct ul; munfold; cbn; rewrite Hp0; cbn; eexists _, _; (split; [done|]); split_and!; try done;
      split; cbn; done.
Qed.

Lemma free_pages_spec s l fuel :
  wf_kmem s l → (length l ≤ fuel)%nat →
  free_pages_in_system fuel s = Ok (Z.of_nat (length l), s).
Proof.
  intros [Hc Hn Hg Hu] Hf. unfold free_pages_in_system, kmem_acquire, kmem_release.
  pose proof (chain_count _ _ _ 0 fuel Hc Hg Hf) as HC.
  destruct s as [m fl ul kl]; cbn in *. subst kl.
  destruct ul; munfold; cbn; rewrite HC; done.
Qed.

(** The pages freerange frees, in the order it frees them. *)
Definition page_run (p : Z) (n : nat) : list Z := (λ i, p + PGSIZE * Z.of_nat i) <$> seq 0 n.

Lemma page_run_S p n : page_run p (S n) = p :: page_run (p + PGSIZE) n.
Proof.
  unfold page_run. cbn [seq]. rewrite fmap_cons. f_equal; [lia|].
  rewrite <- seq_shift, <- list_fmap_compose. apply list_fmap_ext. intros i k _. simpl. lia.
Qed.

Lemma page_run_app p a b : page_run p (a + b) = page_run p a ++ page_run (p + PGSIZE * Z.of_nat a) b.
Proof.
  unfold page_run. rewrite seq_app, fmap_app. f_equal. rewrite <- (Nat.add_0_r a) at 1. cbn [Nat.add].
  rewrite <- fmap_add_seq, <- list_fmap_compose. apply list_fmap_ext. intros i k _. simpl. lia.
Qed.

Lemma elem_of_page_run q p n : q ∈ page_run p n ↔ ∃ i, (i < n)%nat ∧ q = p + PGSIZE * Z.of_nat i.
Proof.
  unfold page_run. rewrite list_elem_of_fmap. split; intros (i & H1 & H2); exists i.
  - rewrite elem_of_seq in H2. split; [lia|done].
  - rewrite elem_of_seq. split; [done|lia].
Qed.

Lemma freerange_loop_spec n : ∀ p vend s l,
  wf_kmem s l → Forall good_page (page_run p n) → (∀ q, q ∈ page_run p n → q ∉ l) →
  0 ≤ p → vend < 2 ^ 32 - PGSIZE → p + PGSIZE * Z.of_nat n ≤ vend < p + PGSIZE * (Z.of_nat n + 1) →
  runs (freerange_loop n p vend) s (λ _ s', wf_kmem s' (reverse (page_run p n) ++ l) ∧
    use_lock s' = use_lock s).
Proof.
  induction n as [|n IH]; intros p vend s l Hwf Hg Hd Hp Hv Hr; cbn [freerange_loop]; unfold PGSIZE in *.
  - rewrite u32_small by lia. rewrite (proj2 (Z.leb_gt _ _)) by lia. by mstep.
  - rewrite u32_small by lia. rewrite (proj2 (Z.leb_le _ _)) by lia.
    rewrite page_run_S in Hg, Hd |- *. inversion_clear Hg as [|?? Hgp Hg'].
    mstep. eapply runs_mono; [apply kfree_spec; [done..|]; apply Hd; set_solver|].
    cbn beta. intros _ s' (Hwf' & Hul & _).
    eapply runs_mono; [apply (IH _ _ _ (p :: l)); unfold PGSIZE in *; [done|done| |lia..]|].
    + intros q Hq. rewrite not_elem_of_cons. split; [|apply Hd; set_solver].
      apply elem_of_page_run in Hq as (i & _ & ->). unfold PGSIZE. lia.
    + cbn beta. intros _ s'' [Hwf'' Hul']. rewrite reverse_cons, <- app_assoc. split; [done|congruence].
Qed.

Lemma good_page_run p n :
  p mod PGSIZE = 0 → kend ≤ p → p + PGSIZE * Z.of_nat n ≤ KERNBASE + PHYSTOP →
  Forall good_page (page_run p n).
Proof.
  intros H1 H2 H3. rewrite Forall_forall. intros q Hq.
  apply elem_of_page_run in Hq as (i & Hi & ->). unfold good_page, PGSIZE in *.
  split_and!; [|lia..]. rewrite Z.mul_comm, Z.mod_add by lia. done.
Qed.

(** * The allocator as a stack of pages *)

Inductive kop := KAlloc | KFree (v : Z).

(** The calls of a client, and the pages its kalloc calls returned. *)
Fixpoint run_ops (ops : list kop) : M kmst (list Z) :=
  match ops with
  | [] => mret []
  | KAlloc :: ops => r ← kalloc; rs ← run_ops ops; mret (r :: rs)
  | KFree v :: ops => kfree v;; run_ops ops
  end.

#[global] Instance good_page_dec v : Decision (good_page v).
Proof. unfold good_page. apply _. Defined.

(** The specification: a stack of distinct pages. A client may free a page of
    the allocator's range that is not free already. *)
Fixpoint stack_ops (ops : list kop) (l : list Z) : option (list Z * list Z) :=
  match ops with
  | [] => Some ([], l)
  | KAlloc :: ops =>
      '(rs, l') ← stack_ops ops (tail l); Some (default 0 (head l) :: rs, l')
  | KFree v :: ops =>
      if decide (good_page v ∧ v ∉ l) then stack_ops ops (v :: l) else None
  end.

(** C7. The allocator implements a stack of pages: whatever sequence of kalloc
    and kfree a client makes, as long as it frees only pages of the allocator's
    range that are not free, every call returns, each kalloc gives the page on
    top of the stack (0 when there is none), and the list of free pages stays
    linked, without repetition and in range. *)
Theorem kalloc_refines_stack ops : ∀ s l rs l',
  wf_kmem s l → stack_ops ops l = Some (rs, l') →
  runs (run_ops ops) s (λ rs' s', rs' = rs ∧ wf_kmem s' l').
Proof.
  induction ops as [|[|v] ops IH]; intros s l rs l' Hwf Hops; cbn [run_ops stack_ops] in *.
  - simplify_eq. by mstep.
  - destruct (stack_ops ops (tail l)) as [[rs0 l0]|] eqn:E; simplify_eq/=.
    mstep. eapply runs_mono; [by apply kalloc_spec|]. cbn beta. intros r s' (_ & _ & Hwf' & Hr).
    mstep. eapply runs_mono; [by eapply IH|]. cbn beta. intros rs' s'' [-> Hwf''].
    mstep. split; [|done]. destruct l; by subst.
  - case_decide as Hd; [|done]. destruct Hd as [Hg Hin].
    mstep. eapply runs_mono; [by apply kfree_spec|]. cbn beta. intros _ s' (Hwf' & _). by eapply IH.
Qed.

(** Booting (main.c) leaves every page between the end of the kernel and
    PHYSTOP on the free list, once: kinit1 takes those below 4MB and kinit2 the
    rest, and free_pages_in_system then counts them all. *)
Theorem kinit_frees_all s :
  freelist s = 0 → kend ≤ KERNBASE + 0x400000 →
  let p := PGROUNDUP kend in
  let n := Z.to_nat ((KERNBASE + PHYSTOP - p) / PGSIZE) in
  runs (kinit1 kend (P2V 0x400000);; kinit2 (P2V 0x400000) (P2V PHYSTOP)) s (λ _ s',
    use_lock s' = true ∧ wf_kmem s' (reverse (page_run p n)) ∧
    free_pages_in_system n s' = Ok ((KERNBASE + PHYSTOP - p) / PGSIZE, s')).
Proof.
  intros Hfl Hk p n. pose proof kend_range as Hr.
  assert (Hp : p = (kend + 4095) / 4096 * 4096).
  { apply PGROUNDUP_div; unfold KERNLINK, KERNBASE, EXTMEM, PHYSTOP in *; lia. }
  assert (HV : P2V 0x400000 = KERNBASE + 0x400000) by done.
  assert (HP : P2V PHYSTOP = KERNBASE + PHYSTOP) by done. rewrite HV, HP.
  unfold KERNLINK, KERNBASE, EXTMEM, PHYSTOP, PGSIZE in *.
  assert (Hpb : kend ≤ p ≤ 0x80000000 + 0x400000 ∧ p mod 4096 = 0)
    by (Z.to_euclidean_division_equations; lia).
  set (q := 0x80000000 + 0x400000) in *. set (e := 0x80000000 + 0xE000000) in *.
  set (n1 := Z.to_nat ((q - p) / 4096)). set (n2 := Z.to_nat ((e - q) / 4096)).
  assert (Hn1 : p + 4096 * Z.of_nat n1 = q).
  { unfold n1. rewrite Z2Nat.id; unfold q; Z.to_euclidean_division_equations; lia. }
  assert (Hn2 : q + 4096 * Z.of_nat n2 = e) by (unfold n2, q, e; reflexivity).
  assert (Hn : n = (n1 + n2)%nat).
  { unfold n, n1, n2. rewrite <- Z2Nat.inj_add; [|unfold q, e in *; Z.to_euclidean_division_equations; lia..].
    apply (f_equal Z.to_nat). unfold q, e in *. Z.to_euclidean_division_equations; lia. }
  assert (Hrun : page_run p n = page_run p n1 ++ page_run q n2).
  { rewrite Hn, page_run_app. unfold PGSIZE. by rewrite Hn1. }
  mstep. unfold kinit1. mstep; mstep; mstep; mstep. unfold freerange. fold p. unfold PGSIZE. fold n1.
  eapply runs_mono; [apply (freerange_loop_spec n1 p q _ [])|].
  - split; cbn; [done|constructor..|done].
  - apply good_page_run; unfold PGSIZE, KERNBASE, PHYSTOP in *; unfold q in *; lia.
  - intros ? _. apply not_elem_of_nil.
  - unfold q in *; lia.
  - unfold q, PGSIZE; lia.
  - unfold PGSIZE; lia.
  - cbn beta. intros _ s1 [Hwf1 _]. rewrite app_nil_r in Hwf1. unfold kinit2. mstep. unfold freerange.
    assert (HPq : PGROUNDUP q = q) by done. rewrite HPq. unfold PGSIZE. fold n2.
    eapply runs_mono; [apply (freerange_loop_spec n2 q e _ (reverse (page_run p n1)))|]; [done|..].
    + apply good_page_run; unfold PGSIZE, KERNBASE, PHYSTOP in *; unfold q, e in *; [done|lia..].
    + intros x Hx Hx'. rewrite elem_of_reverse in Hx'.
      apply elem_of_page_run in Hx as (i & _ & ->), Hx' as (j & Hj & Hij). unfold PGSIZE in *. lia.
    + unfold q; lia.
    + unfold e, PGSIZE; lia.
    + unfold PGSIZE; lia.
    + cbn beta. intros _ s2 [Hwf2 _]. mstep. rewrite <- reverse_app, <- Hrun in Hwf2.
      assert (Hwf3 : wf_kmem (set_use_lock true s2) (reverse (page_run p n))).
      { destruct Hwf2. by split. }
      split_and!; [done|done|]. rewrite (free_pages_spec _ _ n Hwf3).
      * rewrite length_reverse. unfold page_run. rewrite length_fmap, length_seq. unfold n.
        rewrite Z2Nat.id; [done|]. unfold q, e in *. Z.to_euclidean_division_equations; lia.
      * rewrite length_reverse. unfold page_run. by rewrite length_fmap, length_seq.
Qed.

(** Freeing a page twice is not caught and ruins the list: the page becomes
    its own successor, so kalloc hands it out for ever and counting the free
    pages never ends. *)
Theorem double_free_cycle v s l :
  wf_kmem s l → good_page v → v ∉ l →
  runs (kfree v;; kfree v) s (λ _ s',
    (∀ fuel, free_pages_in_system fuel s' = NoFuel) ∧
    runs (r1 ← kalloc; r2 ← kalloc; mret (r1, r2)) s' (λ r _, r = (v, v))).
Proof.
  intros Hwf Hv Hin. pose proof (good_page_range v Hv) as Hrv.
  assert (Hv0 : (v =? 0) = false) by (apply Z.eqb_neq; unfold KERNLINK, KERNBASE, EXTMEM in *; lia).
  assert (Hvu : u32 v = v) by (apply u32_small; unfold KERNLINK, KERNBASE, EXTMEM, PGSIZE in *; lia).
  mstep. eapply runs_mono; [by apply kfree_spec|]. cbn beta. intros _ s1 ([[Hh _] _ _ Hu] & _ & _).
  destruct s1 as [m fl ul kl]; cbn in Hh, Hu; subst fl kl.
  unfold kfree. do 2 mstep. rewrite kfree_guard by done.
  set (m' := st32 (memset m v 1 PGSIZE) v v).
  assert (Hself : ld32 m' v = v) by (unfold m'; by rewrite ld32_st32_eq).
  assert (Hcount : ∀ fuel n, count_free fuel m' v n = None).
  { induction fuel as [|fuel IH]; intros n; cbn [count_free]; rewrite Hv0; [done|]. by rewrite Hself. }
  unfold kmem_acquire, kmem_release, free_pages_in_system, kalloc, kmem_acquire, kmem_release.
  destruct ul; munfold; cbn; eexists _, _; (split; [done|]); split.
  - intros fuel. cbn. fold m'. by rewrite Hcount.
  - cbn. fold m'. rewrite Hv0. cbn. fold m'. rewrite Hself, Hv0. eauto.
  - intros fuel. cbn. fold m'. by rewrite Hcount.
  - cbn. fold m'. rewrite Hv0. cbn. fold m'. rewrite Hself, Hv0. eauto.
Qed.

End kalloc.
