(* ===== verification/PageTable.v ===== *)
(** The two-level page table of vm.c: walkpgdir and mappages on memory, and the
    address space they implement, a function from virtual pages to page-table
    entries. *)
From Stdlib Require Import ZArith Lia Bool.
From stdpp Require Import base tactics list strings sets.
From S2P Require Import Prelude Machine CString Kalloc.

Section pagetable.
  Context {KI : KernelImage}.

(** The result is the address of the entry, 0 for none. *)
Definition walkpgdir (pgdir va : Z) (alloc : bool) : M kmst Z :=
  s ← get;
  let pde := pgdir + 4 * PDX va in
  let e := ld32 (mem s) pde in
  if tst e PTE_P then mret (P2V (PTE_ADDR e) + 4 * PTX va)
  else if negb alloc then mret 0
  else
    pgtab ← kalloc;
    if pgtab =? 0 then mret 0
    else
      modify (λ s, set_mem (memset (mem s) pgtab 0 PGSIZE) s);;
      modify (λ s, set_mem (st32 (mem s) pde
        (Z.lor (Z.lor (Z.lor (V2P pgtab) PTE_P) PTE_W) PTE_U)) s);;
      mret (pgtab + 4 * PTX va).

(** The loop of mappages; [fuel] is the number of rounds after this one. *)
Fixpoint mappages_loop (fuel : nat) (pgdir a last pa perm : Z) : M kmst Z :=
  pte ← walkpgdir pgdir a true;
  if pte =? 0 then mret (-1) else
  s ← get;
  if tst (ld32 (mem s) pte) PTE_P then panic "remap" else
  modify (λ s, set_mem (st32 (mem s) pte (Z.lor (Z.lor pa perm) PTE_P)) s);;
  if a =? last then mret 0 else
  match fuel with
  | O => nofuel
  | S fuel => mappages_loop fuel pgdir (u32 (a + PGSIZE)) last (u32 (pa + PGSIZE)) perm
  end.

Definition mappages (pgdir va size pa perm : Z) : M kmst Z :=
  let a := PGROUNDDOWN va in
  let last := PGROUNDDOWN (u32 (va + size - 1)) in
  mappages_loop (Z.to_nat (u32 (last - a) / PGSIZE)) pgdir a last pa perm.

(** * The address space *)

Definition pde_at (m : memory) (pgdir d : Z) : Z := ld32 m (pgdir + 4 * d).
Definition pde_table (m : memory) (pgdir d : Z) : Z := P2V (PTE_ADDR (pde_at m pgdir d)).
Definition pde_present (m : memory) (pgdir d : Z) : bool := tst (pde_at m pgdir d) PTE_P.

(** The page-table entry the hardware finds for an address: 0, not present,
    where there is no page table. *)
Definition aspace (m : memory) (pgdir va : Z) : Z :=
  if pde_present m pgdir (PDX va) then ld32 m (pde_table m pgdir (PDX va) + 4 * PTX va) else 0.

(** The directory and its page tables are pages of the allocator, all different,
    and none of them is on the free list [l]. *)
Record wf_pgdir (m : memory) (pgdir : Z) (l : list Z) : Prop := {
  wp_dir : good_page pgdir;
  wp_dir_used : pgdir ∉ l;
  wp_table : ∀ d, 0 ≤ d < 1024 → pde_present m pgdir d = true →
    good_page (pde_table m pgdir d) ∧ pde_table m pgdir d ≠ pgdir ∧ pde_table m pgdir d ∉ l;
  wp_inj : ∀ d d', 0 ≤ d < 1024 → 0 ≤ d' < 1024 →
    pde_present m pgdir d = true → pde_present m pgdir d' = true →
    pde_table m pgdir d = pde_table m pgdir d' → d = d' }.

(** * Lemmas *)

Lemma land_bit_mod x n : 0 ≤ n → Z.land x (2 ^ n) = 2 ^ n * Z.b2z (Z.testbit x n).
Proof.
  intros Hn. apply Z.bits_inj'. intros k Hk. rewrite Z.land_spec, Z.pow2_bits_eqb by lia.
  destruct (Z.eqb_spec n k) as [->|Hne].
  - rewrite andb_true_r. destruct (Z.testbit x k); cbn.
    + rewrite Z.mul_1_r. by rewrite Z.pow2_bits_true.
    + by rewrite Z.mul_0_r, Z.bits_0.
  - rewrite andb_false_r. destruct (Z.testbit x n); cbn.
    + rewrite Z.mul_1_r. by rewrite Z.pow2_bits_false by lia.
    + by rewrite Z.mul_0_r, Z.bits_0.
Qed.

(** A one-bit flag test is a bit test. *)
Lemma tst_bit x n : 0 ≤ n → tst x (2 ^ n) = Z.testbit x n.
Proof.
  intros Hn. unfold tst. rewrite land_bit_mod by done.
  pose proof (Z.pow_pos_nonneg 2 n). destruct (Z.testbit x n); cbn.
  - by rewrite (proj2 (Z.eqb_neq _ _)) by lia.
  - by rewrite Z.mul_0_r.
Qed.

Lemma tst_P x : tst x PTE_P = Z.testbit x 0.
Proof. apply (tst_bit x 0). lia. Qed.

Lemma good_page_V2P p : good_page p → V2P p = p - KERNBASE ∧ EXTMEM ≤ V2P p < PHYSTOP ∧ V2P p mod PGSIZE = 0.
Proof.
  intros Hp. pose proof (good_page_range p Hp). destruct Hp as (H1 & H2 & H3).
  assert (E : V2P p = p - KERNBASE).
  { unfold V2P. apply u32_small. unfold KERNLINK, KERNBASE, EXTMEM, PGSIZE in *. lia. }
  rewrite E. split_and!; [done|unfold KERNLINK, KERNBASE, EXTMEM, PGSIZE in *; lia..|].
  unfold KERNBASE, PGSIZE in *. Z.to_euclidean_division_equations; lia.
Qed.

(** An entry built from an aligned frame and flags below a page size has them
    as its address and its flags. *)
Lemma lor_flags pa f : pa mod PGSIZE = 0 → 0 ≤ f < PGSIZE → Z.lor pa f = pa + f.
Proof.
  intros Ha Hf. unfold PGSIZE in *. replace pa with (Z.shiftl (pa / 4096) 12).
  - rewrite lor_shiftl_add by lia. rewrite Z.shiftl_mul_pow2 by lia. done.
  - rewrite Z.shiftl_mul_pow2 by lia. Z.to_euclidean_division_equations; lia.
Qed.

Lemma PTE_ADDR_add pa f :
  pa mod PGSIZE = 0 → 0 ≤ pa → pa + f < 2 ^ 32 → 0 ≤ f < PGSIZE → PTE_ADDR (pa + f) = pa.
Proof.
  intros Ha H0 H1 Hf. unfold PGSIZE in *. rewrite PTE_ADDR_div by lia.
  Z.to_euclidean_division_equations; lia.
Qed.

Lemma new_pde p :
  good_page p →
  let e := Z.lor (Z.lor (Z.lor (V2P p) PTE_P) PTE_W) PTE_U in
  u32 e = e ∧ tst e PTE_P = true ∧ P2V (PTE_ADDR e) = p.
Proof.
  intros Hp e. destruct (good_page_V2P p Hp) as (HV & Hr & Ha).
  assert (He : e = V2P p + 7).
  { unfold e. rewrite <- !Z.lor_assoc. apply (lor_flags _ 7); [done|]. unfold PGSIZE; lia. }
  unfold PHYSTOP, EXTMEM in Hr. split_and!.
  - apply u32_small. lia.
  - rewrite tst_P. unfold e. rewrite !Z.lor_spec. by rewrite (orb_comm (Z.testbit (V2P p) 0)).
  - rewrite He, PTE_ADDR_add by (unfold PGSIZE; lia || done). unfold P2V. rewrite HV.
    pose proof (good_page_range p Hp). rewrite u32_small by (unfold KERNLINK, KERNBASE, EXTMEM, PGSIZE in *; lia). lia.
Qed.

(** The directory and the tables only depend on their own pages. *)
Lemma pde_at_frame m m' pgdir d :
  0 ≤ d < 1024 → (∀ b, pgdir ≤ b < pgdir + PGSIZE → ld8 m' b = ld8 m b) →
  pde_at m' pgdir d = pde_at m pgdir d.
Proof. intros Hd H. unfold pde_at. apply ld32_ext. intros i Hi. apply H. unfold PGSIZE. lia. Qed.

Lemma aspace_frame m m' pgdir va :
  (∀ b, pgdir ≤ b < pgdir + PGSIZE → ld8 m' b = ld8 m b) →
  (pde_present m pgdir (PDX va) = true → ∀ b, pde_table m pgdir (PDX va) ≤ b < pde_table m pgdir (PDX va) + PGSIZE → ld8 m' b = ld8 m b) →
  aspace m' pgdir va = aspace m pgdir va.
Proof.
  intros H1 H2. pose proof (PDX_range va). pose proof (PTX_range va).
  unfold aspace, pde_present, pde_table in *. rewrite (pde_at_frame m m') by done.
  destruct (tst _ _) eqn:E; [|done]. apply ld32_ext. intros i Hi. apply H2; [done|]. unfold PGSIZE. lia.
Qed.

Lemma wf_pgdir_frame m m' pgdir l l' :
  (∀ b, pgdir ≤ b < pgdir + PGSIZE → ld8 m' b = ld8 m b) →
  (∀ p, p ∈ l' → p ∈ l) → wf_pgdir m pgdir l → wf_pgdir m' pgdir l'.
Proof.
  intros Hm Hl [H1 H2 H3 H4].
  assert (Hp : ∀ d, 0 ≤ d < 1024 → pde_present m' pgdir d = pde_present m pgdir d ∧ pde_table m' pgdir d = pde_table m pgdir d).
  { intros d Hd. unfold pde_present, pde_table. by rewrite (pde_at_frame m m'). }
  split; [done|by intros ?%Hl|..].
  - intros d Hd. destruct (Hp d Hd) as [-> ->]. intros Hpr. destruct (H3 d Hd Hpr) as (? & ? & Hn).
    split_and!; [done..|]. by intros ?%Hl.
  - intros d d' Hd Hd'. destruct (Hp d Hd) as [-> ->]. destruct (Hp d' Hd') as [-> ->]. eauto.
Qed.

Lemma page_decomp va : 0 ≤ va < 2 ^ 32 → va / 4096 = PDX va * 1024 + PTX va.
Proof.
  intros H. rewrite PDX_div, PTX_div by done.
  Z.to_euclidean_division_equations; lia.
Qed.

(** The entry of a present table, and what storing there does. *)
Lemma aspace_store m pgdir l va v :
  0 ≤ va < 2 ^ 32 → wf_pgdir m pgdir l → pde_present m pgdir (PDX va) = true →
  let m' := st32 m (pde_table m pgdir (PDX va) + 4 * PTX va) v in
  wf_pgdir m' pgdir l ∧
  (∀ va', 0 ≤ va' < 2 ^ 32 →
     aspace m' pgdir va' = if va' / 4096 =? va / 4096 then u32 v else aspace m pgdir va') ∧
  (∀ b, ¬ pde_table m pgdir (PDX va) ≤ b < pde_table m pgdir (PDX va) + PGSIZE → ld8 m' b = ld8 m b).
Proof.
  intros Hva Hwf Hp m'. pose proof (PDX_range va) as Hd. pose proof (PTX_range va) as Ht.
  destruct Hwf as [H1 H2 H3 H4]. destruct (H3 _ Hd Hp) as (Hg & Hne & Hni).
  assert (Hfr : ∀ b, ¬ pde_table m pgdir (PDX va) ≤ b < pde_table m pgdir (PDX va) + PGSIZE → ld8 m' b = ld8 m b).
  { intros b Hb. unfold m', PGSIZE in *. rewrite ld8_st32_ne by lia. done. }
  assert (Hdir : ∀ b, pgdir ≤ b < pgdir + PGSIZE → ld8 m' b = ld8 m b).
  { intros b Hb. apply Hfr. pose proof (good_page_disjoint _ _ Hg H1 Hne). lia. }
  split_and!; [|intros va' Hva'|done].
  - apply (wf_pgdir_frame m _ pgdir l l); [done|done|by constructor].
  - pose proof (PDX_range va') as Hd'. pose proof (PTX_range va') as Ht'.
    rewrite (page_decomp va), (page_decomp va') by done.
    unfold aspace. unfold pde_present, pde_table at 1. rewrite (pde_at_frame m m') by done.
    fold (pde_present m pgdir (PDX va')) (pde_table m pgdir (PDX va')).
    destruct (Z.eq_dec (PDX va') (PDX va)) as [E|E].
    + rewrite E, Hp. destruct (Z.eqb_spec (PDX va * 1024 + PTX va') (PDX va * 1024 + PTX va)) as [E'|E'].
      * replace (PTX va') with (PTX va) by lia. apply ld32_st32_eq.
      * unfold m'. rewrite ld32_st32_ne by lia. done.
    + rewrite (proj2 (Z.eqb_neq _ _)) by lia.
      destruct (pde_present m pgdir (PDX va')) eqn:Hp'; [|done].
      destruct (H3 _ Hd' Hp') as (Hg' & _).
      assert (pde_table m pgdir (PDX va') ≠ pde_table m pgdir (PDX va)) as Htn by (intros ?; eauto).
      pose proof (good_page_disjoint _ _ Hg' Hg Htn). unfold PGSIZE in *.
      unfold m'. apply ld32_st32_ne. lia.
Qed.

(** The address of the entry of [va] in a present table. *)
Definition pte_addr (m : memory) (pgdir va : Z) : Z := pde_table m pgdir (PDX va) + 4 * PTX va.

(** [b] lies in none of the pages [l]. *)
Definition outside (l : list Z) (b : Z) : Prop := ∀ p, p ∈ l → ¬ p ≤ b < p + PGSIZE.

(** [b] lies neither in the directory nor in any of its tables. *)
Definition off_pt (m : memory) (pgdir b : Z) : Prop :=
  ¬ pgdir ≤ b < pgdir + PGSIZE ∧
  ∀ d, 0 ≤ d < 1024 → pde_present m pgdir d = true →
    ¬ pde_table m pgdir d ≤ b < pde_table m pgdir d + PGSIZE.

Lemma walk_found pgdir va alloc s :
  pde_present (mem s) pgdir (PDX va) = true →
  walkpgdir pgdir va alloc s = Ok (pte_addr (mem s) pgdir va, s).
Proof.
  intros H. unfold walkpgdir. munfold. unfold pde_present, pde_at in H. by rewrite H.
Qed.

Lemma walk_none pgdir va s :
  pde_present (mem s) pgdir (PDX va) = false → walkpgdir pgdir va false s = Ok (0, s).
Proof.
  intros H. unfold walkpgdir. munfold. unfold pde_present, pde_at in H. by rewrite H.
Qed.

Lemma pte_addr_nonzero m pgdir l va :
  wf_pgdir m pgdir l → pde_present m pgdir (PDX va) = true → pte_addr m pgdir va ≠ 0.
Proof.
  intros Hwf Hp. destruct (wp_table _ _ _ Hwf _ (PDX_range va) Hp) as (Hg & _).
  pose proof (good_page_range _ Hg). pose proof (PTX_range va). unfold pte_addr.
  unfold KERNLINK, KERNBASE, EXTMEM in *. lia.
Qed.

(** Installing a zeroed page as the table of a directory slot that has none. *)
Lemma install_table m pgdir p l va :
  wf_pgdir m pgdir (p :: l) → good_page p → p ∉ l → pde_present m pgdir (PDX va) = false →
  let m1 := memset m p 0 PGSIZE in
  let m' := st32 m1 (pgdir + 4 * PDX va) (Z.lor (Z.lor (Z.lor (V2P p) PTE_P) PTE_W) PTE_U) in
  wf_pgdir m' pgdir l ∧ pde_present m' pgdir (PDX va) = true ∧ pde_table m' pgdir (PDX va) = p ∧
  (∀ va', aspace m' pgdir va' = aspace m pgdir va') ∧
  (∀ b, off_pt m pgdir b → ¬ p ≤ b < p + PGSIZE → off_pt m' pgdir b) ∧
  (∀ b, ¬ p ≤ b < p + PGSIZE → ¬ pgdir ≤ b < pgdir + PGSIZE → ld8 m' b = ld8 m b).
Proof.
  intros Hwf Hgp Hpl Hnp m1 m'. pose proof (PDX_range va) as Hd.
  destruct Hwf as [H1 H2 H3 H4]. rewrite not_elem_of_cons in H2. destruct H2 as [Hpp H2].
  pose proof (good_page_disjoint _ _ H1 Hgp Hpp) as Hdis.
  destruct (new_pde p Hgp) as (Hu & Hpr & Htb).
  set (e := Z.lor (Z.lor (Z.lor (V2P p) PTE_P) PTE_W) PTE_U) in *.
  assert (Hfr : ∀ b, ¬ p ≤ b < p + PGSIZE → ¬ pgdir ≤ b < pgdir + PGSIZE → ld8 m' b = ld8 m b).
  { intros b Hb1 Hb2. unfold m', m1, PGSIZE in *. rewrite ld8_st32_ne by lia.
    rewrite memset_spec. range_cases; [lia|done]. }
  assert (Hself : pde_at m' pgdir (PDX va) = e).
  { unfold pde_at, m'. by rewrite ld32_st32_eq. }
  assert (Hoth : ∀ d, 0 ≤ d < 1024 → d ≠ PDX va → pde_at m' pgdir d = pde_at m pgdir d).
  { intros d Hd' Hne. unfold pde_at, m', m1. rewrite ld32_st32_ne by lia.
    apply ld32_memset_out. unfold PGSIZE in *. lia. }
  assert (Hp1 : pde_present m' pgdir (PDX va) = true) by (unfold pde_present; by rewrite Hself).
  assert (Ht1 : pde_table m' pgdir (PDX va) = p) by (unfold pde_table; by rewrite Hself).
  assert (HO : ∀ d, 0 ≤ d < 1024 → d ≠ PDX va →
    pde_present m' pgdir d = pde_present m pgdir d ∧ pde_table m' pgdir d = pde_table m pgdir d).
  { intros d Hd' Hne. unfold pde_present, pde_table. by rewrite Hoth. }
  split_and!; [|done|done|intros va'| |done].
  3:{ intros b [Hb1 Hb2] Hb3. split; [done|]. intros d Hd' Hpd.
      destruct (Z.eq_dec d (PDX va)) as [->|Hne]; [by rewrite Ht1|].
      destruct (HO d Hd' Hne) as [Ep Et]. rewrite Et. rewrite Ep in Hpd. by apply Hb2. }
  - split; [done|done|..].
    + intros d Hd' Hpd. destruct (Z.eq_dec d (PDX va)) as [->|Hne]; [by rewrite Ht1|].
      destruct (HO d Hd' Hne) as [Ep Et]. rewrite Et. rewrite Ep in Hpd.
      destruct (H3 d Hd' Hpd) as (? & ? & Hn). rewrite not_elem_of_cons in Hn. tauto.
    + intros d d' Hd1 Hd2 Hq1 Hq2 Heq.
      destruct (Z.eq_dec d (PDX va)) as [->|N1], (Z.eq_dec d' (PDX va)) as [->|N2]; [done|..].
      * destruct (HO d' Hd2 N2) as [Ep Et]. rewrite Ht1, Et in Heq. rewrite Ep in Hq2.
        destruct (H3 d' Hd2 Hq2) as (_ & _ & Hn). rewrite not_elem_of_cons in Hn. destruct Hn. congruence.
      * destruct (HO d Hd1 N1) as [Ep Et]. rewrite Ht1, Et in Heq. rewrite Ep in Hq1.
        destruct (H3 d Hd1 Hq1) as (_ & _ & Hn). rewrite not_elem_of_cons in Hn. destruct Hn. congruence.
      * destruct (HO d Hd1 N1) as [Ep Et], (HO d' Hd2 N2) as [Ep' Et']. rewrite Et, Et' in Heq.
        rewrite Ep in Hq1. rewrite Ep' in Hq2. eauto.
  - pose proof (PDX_range va') as Hd'. pose proof (PTX_range va') as Hx. unfold aspace.
    destruct (Z.eq_dec (PDX va') (PDX va)) as [E|Hne].
    + rewrite E, Hp1, Ht1, Hnp. unfold m'. unfold PGSIZE in *. rewrite ld32_st32_ne by lia.
      unfold m1. apply ld32_memset0; unfold PGSIZE; lia.
    + destruct (HO _ Hd' Hne) as [-> ->]. destruct (pde_present m pgdir (PDX va')) eqn:Hp'; [|done].
      destruct (H3 _ Hd' Hp') as (Hg & Hn1 & Hn2). rewrite not_elem_of_cons in Hn2.
      pose proof (good_page_disjoint _ _ Hg H1 Hn1). pose proof (good_page_disjoint _ _ Hg Hgp ltac:(tauto)).
      apply ld32_ext. intros i Hi. unfold PGSIZE in *. apply Hfr; lia.
Qed.

Lemma walkpgdir_alloc_spec pgdir va s l :
  wf_kmem s l → wf_pgdir (mem s) pgdir l →
  runs (walkpgdir pgdir va true) s (λ r s', ∃ l', l' `suffix_of` l ∧
    wf_kmem s' l' ∧ wf_pgdir (mem s') pgdir l' ∧ use_lock s' = use_lock s ∧
    (∀ va', aspace (mem s') pgdir va' = aspace (mem s) pgdir va') ∧
    (∀ b, outside (pgdir :: l) b → ld8 (mem s') b = ld8 (mem s) b) ∧
    (∀ b, outside l b → off_pt (mem s) pgdir b → off_pt (mem s') pgdir b) ∧
    (r = 0 ∧ l' = [] ∨
     pde_present (mem s') pgdir (PDX va) = true ∧ r = pte_addr (mem s') pgdir va)).
Proof.
  intros Hk Hwf. destruct (pde_present (mem s) pgdir (PDX va)) eqn:Hp.
  - unfold runs. rewrite (walk_found _ _ _ _ Hp). eexists _, _. split; [done|].
    exists l. split_and!; [done..|]. by right.
  - unfold walkpgdir. do 2 mstep. change (ld32 (mem s) (pgdir + 4 * PDX va)) with (pde_at (mem s) pgdir (PDX va)).
    change (tst (pde_at (mem s) pgdir (PDX va)) PTE_P) with (pde_present (mem s) pgdir (PDX va)).
    rewrite Hp. cbn [negb]. mstep. eapply runs_mono; [by apply kalloc_spec|].
    cbn beta. intros r s' (Hm & Hul & Hk' & Hr). destruct l as [|p l].
    + subst r. cbn. mstep. exists []. rewrite Hm. split_and!; [done..|]. by left.
    + subst r. pose proof (wf_good _ _ Hk) as Hg. inversion_clear Hg as [|?? Hgp Hgl].
      pose proof (wf_nodup _ _ Hk) as Hn. inversion_clear Hn as [|?? Hpl _].
      pose proof (good_page_range p Hgp).
      rewrite (proj2 (Z.eqb_neq p 0)) by (unfold KERNLINK, KERNBASE, EXTMEM in *; lia).
      destruct (install_table _ _ _ _ va Hwf Hgp Hpl Hp) as (Hwf' & Hp' & Ht' & Has & Hoff & Hfr).
      mstep. mstep. mstep. mstep. mstep. cbn. rewrite Hm.
      set (m' := st32 _ _ _) in *.
      exists l. split_and!; [by apply suffix_cons_r| |done|done|done| | |].
      * destruct Hk' as [Hc Hn Hg Hu]. split; cbn; [|done..].
        cbn in Hc. rewrite Hm in Hc. eapply chain_frame; [|done]. intros q Hq.
        apply ld32_ext. intros i Hi. rewrite Forall_forall in Hgl. pose proof (Hgl q Hq) as Hgq.
        pose proof (wp_dir _ _ _ Hwf) as Hgd. pose proof (wp_dir_used _ _ _ Hwf) as Hnd.
        rewrite not_elem_of_cons in Hnd. 
        pose proof (good_page_disjoint _ _ Hgq Hgd ltac:(naive_solver)).
        pose proof (good_page_disjoint _ _ Hgq Hgp ltac:(naive_solver)).
        unfold PGSIZE in *. apply Hfr; lia.
      * intros b Hb. apply Hfr; apply Hb; set_solver.
      * intros b Hb Hb'. apply Hoff; [done|]. apply Hb. set_solver.
      * right. split; [done|]. unfold pte_addr. by rewrite Ht'.
Qed.

Lemma off_pt_store m pgdir l va v b :
  wf_pgdir m pgdir l → pde_present m pgdir (PDX va) = true →
  off_pt m pgdir b → off_pt (st32 m (pte_addr m pgdir va) v) pgdir b.
Proof.
  intros Hwf Hp [Hb1 Hb2]. pose proof (PTX_range va) as Ht. unfold pte_addr.
  destruct (wp_table _ _ _ Hwf _ (PDX_range va) Hp) as (Hg & Hne & _).
  pose proof (good_page_disjoint _ _ Hg (wp_dir _ _ _ Hwf) Hne) as Hdis.
  set (m' := st32 _ _ _).
  assert (Hd : ∀ d, 0 ≤ d < 1024 → pde_at m' pgdir d = pde_at m pgdir d).
  { intros d Hd. apply pde_at_frame; [done|]. intros c Hc. unfold PGSIZE in *. apply ld8_st32_ne. lia. }
  split; [done|]. intros d Hr. unfold pde_present, pde_table. rewrite Hd by done. by apply Hb2.
Qed.

Lemma suffix_elem {A} (l1 l2 : list A) x : l1 `suffix_of` l2 → x ∈ l1 → x ∈ l2.
Proof. intros [k ->] Hx. apply elem_of_app. by right. Qed.

(** Storing an entry does not disturb the allocator. *)
Lemma wf_kmem_store s l pgdir va v :
  wf_kmem s l → wf_pgdir (mem s) pgdir l → pde_present (mem s) pgdir (PDX va) = true →
  wf_kmem (set_mem (st32 (mem s) (pte_addr (mem s) pgdir va) v) s) l.
Proof.
  intros [Hc Hn Hg Hu] Hwf Hp. pose proof (PTX_range va) as Ht.
  destruct (wp_table _ _ _ Hwf _ (PDX_range va) Hp) as (Hgt & _ & Hnt).
  split; cbn; [|done..]. eapply chain_frame; [|done]. intros q Hq.
  rewrite Forall_forall in Hg.
  pose proof (good_page_disjoint _ _ Hgt (Hg q Hq) ltac:(congruence)).
  unfold pte_addr, PGSIZE in *. apply ld32_st32_ne. lia.
Qed.

(** The entry mappages stores for the physical page [pa]. *)
Definition map_entry (pa perm : Z) : Z := u32 (Z.lor (Z.lor pa perm) PTE_P).

(** The address space after the first [k] pages from [a] were mapped to the
    physical pages from [pa]. *)
Definition map_run (sp : Z → Z) (a pa perm : Z) (k : nat) (va : Z) : Z :=
  if (a <=? va) && (va <? a + PGSIZE * Z.of_nat k)
  then map_entry (u32 (pa + PGSIZE * ((va - a) / PGSIZE))) perm else sp va.

Lemma map_run_S sp a pa perm k va :
  a mod PGSIZE = 0 → 0 ≤ pa < 2 ^ 32 →
  map_run (λ va, if va / 4096 =? a / 4096 then map_entry pa perm else sp va)
    (a + PGSIZE) (u32 (pa + PGSIZE)) perm k va = map_run sp a pa perm (S k) va.
Proof.
  intros Ha Hpa. unfold map_run, PGSIZE in *.
  destruct (Z.leb_spec (a + 4096) va), (Z.ltb_spec va (a + 4096 + 4096 * Z.of_nat k)),
    (Z.leb_spec a va), (Z.ltb_spec va (a + 4096 * Z.of_nat (S k))); cbn [andb]; try lia.
  - f_equal. unfold u32. rewrite Zplus_mod_idemp_l. f_equal.
    Z.to_euclidean_division_equations; lia.
  - rewrite (proj2 (Z.eqb_neq _ _)); [done|]. Z.to_euclidean_division_equations; lia.
  - rewrite (proj2 (Z.eqb_eq _ _)) by (Z.to_euclidean_division_equations; lia).
    f_equal. replace ((va - a) / 4096) with 0 by (Z.to_euclidean_division_equations; lia).
    rewrite Z.mul_0_r, Z.add_0_r, u32_small by lia. done.
  - rewrite (proj2 (Z.eqb_neq _ _)); [done|]. Z.to_euclidean_division_equations; lia.
Qed.

(** What a mapping operation that reached [k] pages leaves behind. *)
Record mapped (s s' : kmst) (pgdir : Z) (l l' : list Z) (sp : Z → Z) : Prop := {
  mp_suffix : l' `suffix_of` l;
  mp_kmem : wf_kmem s' l';
  mp_pgdir : wf_pgdir (mem s') pgdir l';
  mp_lock : use_lock s' = use_lock s;
  mp_space : ∀ va, 0 ≤ va < 2 ^ 32 → aspace (mem s') pgdir va = sp va;
  mp_frame : ∀ b, outside l b → off_pt (mem s) pgdir b →
    ld8 (mem s') b = ld8 (mem s) b ∧ off_pt (mem s') pgdir b }.

Lemma mapped_trans s s1 s2 pgdir l l1 l2 sp sp2 :
  mapped s s1 pgdir l l1 sp → mapped s1 s2 pgdir l1 l2 sp2 → mapped s s2 pgdir l l2 sp2.
Proof.
  intros [A1 A2 A3 A4 A5 A6] [B1 B2 B3 B4 B5 B6]. split; [by etrans|done|done|congruence|done|].
  intros b Hb Hb'. destruct (A6 b Hb Hb') as [E1 E2]. destruct (B6 b) as [E3 E4]; [|done|split; congruence].
  intros p Hp. apply Hb. by eapply suffix_elem.
Qed.

Lemma mapped_ext s s' pgdir l l' sp sp' :
  (∀ va, 0 ≤ va < 2 ^ 32 → sp va = sp' va) → mapped s s' pgdir l l' sp → mapped s s' pgdir l l' sp'.
Proof. intros H [? ? ? ? Hs ?]. split; try done. intros va Hva. by rewrite Hs, H. Qed.

Lemma off_pt_page m pgdir l va b :
  wf_pgdir m pgdir l → pde_present m pgdir (PDX va) = true → off_pt m pgdir b →
  ¬ pde_table m pgdir (PDX va) ≤ b < pde_table m pgdir (PDX va) + PGSIZE.
Proof. intros _ Hp [_ Hb]. apply Hb; [apply PDX_range|done]. Qed.

(** Finding the entry and storing in it. *)
Lemma mapped_store s s1 pgdir l l1 va v :
  0 ≤ va < 2 ^ 32 →
  mapped s s1 pgdir l l1 (aspace (mem s) pgdir) → pde_present (mem s1) pgdir (PDX va) = true →
  mapped s (set_mem (st32 (mem s1) (pte_addr (mem s1) pgdir va) v) s1) pgdir l l1
    (λ va', if va' / 4096 =? va / 4096 then u32 v else aspace (mem s) pgdir va').
Proof.
  intros Hva Hm Hp. eapply mapped_trans; [done|]. destruct Hm as [A1 A2 A3 A4 A5 A6].
  destruct (aspace_store _ _ _ va v Hva A3 Hp) as (Hwf & Hsp & Hfr).
  split; cbn; [done|by apply wf_kmem_store|done|done| |].
  - intros va' Hva'. rewrite Hsp by done. by destruct (va' / 4096 =? va / 4096); rewrite ?A5.
  - intros b Hb Hb'. split; [|by eapply off_pt_store]. apply Hfr. by eapply off_pt_page.
Qed.

Lemma walk_mapped pgdir va s l :
  wf_kmem s l → wf_pgdir (mem s) pgdir l →
  runs (walkpgdir pgdir va true) s (λ r s', ∃ l', mapped s s' pgdir l l' (aspace (mem s) pgdir) ∧
    (r = 0 ∧ l' = [] ∨ pde_present (mem s') pgdir (PDX va) = true ∧ r = pte_addr (mem s') pgdir va)).
Proof.
  intros Hk Hwf. eapply runs_mono; [by apply walkpgdir_alloc_spec|].
  cbn beta. intros r s' (l' & H1 & H2 & H3 & H4 & H5 & H6 & H7 & H8).
  exists l'. split; [|done]. split; try done.
  intros b Hb Hb'. split; [|by apply H7]. apply H6. intros p Hp.
  apply elem_of_cons in Hp as [->|Hp]; [by destruct Hb'|by apply Hb].
Qed.

(** One round of the loop, with what follows it. *)
Lemma map_one pgdir a pa perm s l (K : M kmst Z) (Q : Z → kmst → Prop) :
  wf_kmem s l → wf_pgdir (mem s) pgdir l → 0 ≤ a < 2 ^ 32 →
  tst (aspace (mem s) pgdir a) PTE_P = false →
  (∀ s1, mapped s s1 pgdir l [] (aspace (mem s) pgdir) → Q (-1) s1) →
  (∀ s1 l1, mapped s s1 pgdir l l1
     (λ va, if va / 4096 =? a / 4096 then map_entry pa perm else aspace (mem s) pgdir va) → runs K s1 Q) →
  runs (pte ← walkpgdir pgdir a true;
        if pte =? 0 then mret (-1) else
        s ← get;
        if tst (ld32 (mem s) pte) PTE_P then panic "remap" else
        modify (λ s, set_mem (st32 (mem s) pte (Z.lor (Z.lor pa perm) PTE_P)) s);; K) s Q.
Proof.
  intros Hk Hwf Ha Hfree HQ HK. mstep. eapply runs_mono; [by apply walk_mapped|].
  cbn beta. intros r s1 (l1 & Hm & [[-> ->]|[Hp ->]]).
  - cbn. mstep. by apply HQ.
  - rewrite (proj2 (Z.eqb_neq _ _)) by (eapply pte_addr_nonzero; [apply Hm|done]). mstep. mstep.
    assert (Hent : ld32 (mem s1) (pte_addr (mem s1) pgdir a) = aspace (mem s) pgdir a).
    { rewrite <- (mp_space _ _ _ _ _ _ Hm a) by done. unfold aspace. by rewrite Hp. }
    rewrite Hent, Hfree. mstep. mstep. eapply HK. by apply mapped_store.
Qed.

Lemma mappages_loop_spec n : ∀ pgdir a pa perm s l,
  wf_kmem s l → wf_pgdir (mem s) pgdir l → a mod PGSIZE = 0 → 0 ≤ a →
  a + PGSIZE * Z.of_nat n < 2 ^ 32 → 0 ≤ pa < 2 ^ 32 →
  (∀ va, a ≤ va < a + PGSIZE * (Z.of_nat n + 1) → tst (aspace (mem s) pgdir va) PTE_P = false) →
  runs (mappages_loop n pgdir a (a + PGSIZE * Z.of_nat n) pa perm) s (λ r s', ∃ l' k,
    mapped s s' pgdir l l' (map_run (aspace (mem s) pgdir) a pa perm k) ∧
    (r = 0 ∧ k = S n ∨ r = -1 ∧ (k ≤ n)%nat ∧ l' = [])).
Proof.
  assert (H0run : ∀ sp a pa perm va, map_run sp a pa perm 0 va = sp va).
  { intros sp a pa perm va. unfold map_run. rewrite Z.mul_0_r, Z.add_0_r.
    destruct (Z.leb_spec a va), (Z.ltb_spec va a); cbn; (done || lia). }
  induction n as [|n IH]; intros pgdir a pa perm s l Hk Hwf Ha H0 Hr Hpa Hfree; cbn [mappages_loop];
    (eapply map_one; [done|done|unfold PGSIZE in *; lia|apply Hfree; unfold PGSIZE; lia|
       intros s1 Hm; exists [], 0%nat; split; [|right; split_and!; (done || lia)];
       eapply mapped_ext; [|done]; intros; by rewrite H0run|]); intros s1 l1 Hst.
  - rewrite (proj2 (Z.eqb_eq _ _)) by lia. mstep. exists l1, 1%nat. split; [|by left].
    eapply mapped_ext; [|done]. intros va _. by rewrite <- (map_run_S _ _ _ _ 0), H0run by done.
  - rewrite (proj2 (Z.eqb_neq _ _)) by (unfold PGSIZE; lia).
    rewrite (u32_small (a + PGSIZE)) by (unfold PGSIZE in *; lia).
    replace (a + PGSIZE * Z.of_nat (S n)) with (a + PGSIZE + PGSIZE * Z.of_nat n) in * by lia.
    eapply runs_mono; [apply IH; [apply Hst|apply Hst|..]|].
    + unfold PGSIZE in *. rewrite <- Ha. by apply (Z.mod_add a 1 4096).
    + unfold PGSIZE; lia.
    + done.
    + apply u32_range.
    + intros va Hva. unfold PGSIZE in Ha, Hr, Hva.
      assert (a = 4096 * (a / 4096)) by (Z.to_euclidean_division_equations; lia).
      rewrite (mp_space _ _ _ _ _ _ Hst) by lia.
      rewrite (proj2 (Z.eqb_neq _ _)); [apply Hfree; unfold PGSIZE; lia|].
      unfold PGSIZE in *. Z.to_euclidean_division_equations; lia.
    + cbn beta. intros r' s2 (l2 & k & Hm2 & Hc). exists l2, (S k). split; [|destruct Hc; [left|right]; lia || naive_solver lia].
      eapply mapped_trans; [done|]. eapply mapped_ext; [|done]. intros va Hva.
      rewrite <- map_run_S by done. unfold map_run at 1 2.
      destruct (_ && _); [done|]. by rewrite (mp_space _ _ _ _ _ _ Hst).
Qed.

Lemma mappages_spec pgdir va size pa perm s l :
  wf_kmem s l → wf_pgdir (mem s) pgdir l → 0 ≤ va → 0 < size → va + size ≤ 2 ^ 32 → 0 ≤ pa < 2 ^ 32 →
  (∀ a, PGROUNDDOWN va ≤ a < PGROUNDDOWN (va + size - 1) + PGSIZE → tst (aspace (mem s) pgdir a) PTE_P = false) →
  runs (mappages pgdir va size pa perm) s (λ r s', ∃ l' k,
    mapped s s' pgdir l l' (map_run (aspace (mem s) pgdir) (PGROUNDDOWN va) pa perm k) ∧
    (r = 0 ∧ k = S (Z.to_nat ((PGROUNDDOWN (va + size - 1) - PGROUNDDOWN va) / PGSIZE)) ∨
     r = -1 ∧ (k ≤ Z.to_nat ((PGROUNDDOWN (va + size - 1) - PGROUNDDOWN va) / PGSIZE))%nat ∧ l' = [])).
Proof.
  intros Hk Hwf H0 Hs Hr Hpa Hfree. unfold mappages.
  rewrite (u32_small (va + size - 1)) by lia.
  assert (Ea : PGROUNDDOWN va = va / 4096 * 4096) by (apply PGROUNDDOWN_div; lia).
  assert (El : PGROUNDDOWN (va + size - 1) = (va + size - 1) / 4096 * 4096) by (apply PGROUNDDOWN_div; lia).
  set (a := PGROUNDDOWN va) in *. set (last := PGROUNDDOWN (va + size - 1)) in *. clearbody a last.
  assert (Hle : 0 ≤ a ≤ last ∧ last < 2 ^ 32 ∧ a mod 4096 = 0 ∧ last mod 4096 = 0)
    by (Z.to_euclidean_division_equations; lia).
  rewrite (u32_small (last - a)) by lia.
  set (n := Z.to_nat ((last - a) / PGSIZE)).
  assert (Hlast : last = a + PGSIZE * Z.of_nat n).
  { unfold n, PGSIZE. rewrite Z2Nat.id; Z.to_euclidean_division_equations; lia. }
  rewrite Hlast at 1. apply mappages_loop_spec; unfold PGSIZE in *; try done; try lia.
  intros x Hx. apply Hfree. lia.
Qed.

(** walkpgdir never changes what any virtual address maps to, even when it
    has to allocate and link a page table: the address space before and after
    is the same, the table it may take comes off the free list, and the result
    is 0 only when it had to allocate and no page was free. *)
Theorem walkpgdir_preserves_space pgdir va s l :
  wf_kmem s l → wf_pgdir (mem s) pgdir l →
  runs (walkpgdir pgdir va true) s (λ r s', ∃ l', mapped s s' pgdir l l' (aspace (mem s) pgdir) ∧
    (r = 0 ∧ l' = [] ∨
     r ≠ 0 ∧ ld32 (mem s') r = aspace (mem s') pgdir va)).
Proof.
  intros Hk Hwf. eapply runs_mono; [by apply walk_mapped|]. cbn beta.
  intros r s' (l' & Hm & [?|[Hp ->]]); exists l'; split; [done|by left|done|right].
  split; [eapply pte_addr_nonzero; [apply Hm|done]|]. unfold aspace. by rewrite Hp.
Qed.

(** C8. mappages maps exactly the pages of the range: when it returns 0 every
    page that meets [va, va+size) has the entry of its physical page with the
    permissions and PTE_P, and every other virtual address of the address space
    keeps its entry. It returns -1 only when memory for page tables ran out,
    and then what it mapped is a prefix of the range. Memory outside the page
    table and the free pages is untouched. *)
Theorem mappages_correct pgdir va size pa perm s l :
  wf_kmem s l → wf_pgdir (mem s) pgdir l → 0 ≤ va → 0 < size → va + size ≤ 2 ^ 32 → 0 ≤ pa < 2 ^ 32 →
  (∀ a, PGROUNDDOWN va ≤ a < PGROUNDDOWN (va + size - 1) + PGSIZE → tst (aspace (mem s) pgdir a) PTE_P = false) →
  runs (mappages pgdir va size pa perm) s (λ r s', ∃ l' k,
    mapped s s' pgdir l l' (map_run (aspace (mem s) pgdir) (PGROUNDDOWN va) pa perm k) ∧
    (r = 0 ∧ k = S (Z.to_nat ((PGROUNDDOWN (va + size - 1) - PGROUNDDOWN va) / PGSIZE)) ∨
     r = -1 ∧ (k ≤ Z.to_nat ((PGROUNDDOWN (va + size - 1) - PGROUNDDOWN va) / PGSIZE))%nat ∧ l' = [])).
Proof. apply mappages_spec. Qed.
End pagetable.
