(* ===== verification/Locks.v ===== *)
(** Spin locks (spinlock.c, and mycpu of proc.c): nested interrupt disabling,
    acquire and release, and the machine of several CPUs that contend for a
    lock, one instruction of any of them at a time. *)
From Stdlib Require Import ZArith Lia Bool.
From stdpp Require Import base tactics list strings sets relations.
From S2P Require Import Prelude Machine.

(** [struct spinlock] without the debugging fields name and pcs; the field cpu
    is an index of [cpus]. *)
Record spinlock := mk_spin { locked : Z; lk_cpu : option nat }.

(** The interrupt bookkeeping of [struct cpu], and the CPU's interrupt flag. *)
Record cpu := mk_cpu { ncli : Z; intena : bool; eflags_if : bool }.

(** What the hardware says: the id of this CPU's local APIC, and the ids that
    mpinit recorded in [cpus]. *)
Class Cpus := { lapicid : Z; apicids : list Z }.

(** A lock and the CPU that works on it. *)
Record lkst := mk_lkst { lk : spinlock; me : cpu }.

Section spin.
  Context {C : Cpus}.

Definition cpu_index : option nat := find_idx (λ a, a =? lapicid) apicids.

Definition mycpu : M cpu nat :=
  f ← gets eflags_if;
  if f : bool then panic "mycpu called with interrupts enabled" else
  match cpu_index with
  | Some i => mret i
  | None => panic "unknown apicid"
  end.

Definition cpuid : M cpu Z := i ← mycpu; mret (Z.of_nat i).

Definition cli : M cpu unit := modify (λ c, mk_cpu (ncli c) (intena c) false).
Definition sti : M cpu unit := modify (λ c, mk_cpu (ncli c) (intena c) true).

Definition pushcli : M cpu unit :=
  eflags ← gets eflags_if;
  cli;;
  mycpu;;
  c ← get;
  when (ncli c =? 0) (mycpu;; modify (λ c, mk_cpu (ncli c) eflags (eflags_if c)));;
  mycpu;;
  modify (λ c, mk_cpu (s32 (ncli c + 1)) (intena c) (eflags_if c)).

Definition popcli : M cpu unit :=
  f ← gets eflags_if;
  if f : bool then panic "popcli - interruptible" else
  mycpu;;
  modify (λ c, mk_cpu (s32 (ncli c - 1)) (intena c) (eflags_if c));;
  c ← get;
  if ncli c <? 0 then panic "popcli" else
  when ((ncli c =? 0) && intena c) sti.

Definition initlock : spinlock := mk_spin 0 None.

Definition on_me {A} (m : M cpu A) : M lkst A := zoom me (λ c s, mk_lkst (lk s) c) m.

Definition holding : M lkst bool :=
  s ← get;
  if locked (lk s) =? 0 then mret false else
  i ← on_me mycpu;
  mret (bool_decide (lk_cpu (lk s) = Some i)).

(** xchg (x86.h) on the word of the lock *)
Definition xchg (newval : Z) (l : spinlock) : Z * spinlock :=
  (locked l, mk_spin newval (lk_cpu l)).

(** One turn of acquire's spin loop: [true] when the lock was free. *)
Definition try_lock : M lkst bool :=
  s ← get;
  let '(old, l) := xchg 1 (lk s) in
  modify (λ s, mk_lkst l (me s));;
  mret (old =? 0).

(** acquire up to its loop, and after it *)
Definition acquire_enter : M lkst unit :=
  on_me pushcli;;
  h ← holding;
  if h : bool then panic "acquire" else mret tt.

Definition acquire_record : M lkst unit :=
  i ← on_me mycpu;
  modify (λ s, mk_lkst (mk_spin (locked (lk s)) (Some i)) (me s)).

(** Alone on the lock, a CPU that finds it taken spins for ever. *)
Definition acquire : M lkst unit :=
  acquire_enter;;
  ok ← try_lock;
  if ok : bool then acquire_record else blocked.

(** release up to the store that frees the lock, and the store *)
Definition release_enter : M lkst unit :=
  h ← holding;
  if negb h then panic "release" else
  modify (λ s, mk_lkst (mk_spin (locked (lk s)) None) (me s)).

Definition release_store : M lkst unit :=
  modify (λ s, mk_lkst (mk_spin 0 (lk_cpu (lk s))) (me s)).

Definition release : M lkst unit := release_enter;; release_store;; on_me popcli.
End spin.

(** The saved return addresses found along the frame pointers from [ebp]. *)
Fixpoint callerpcs (n : nat) (m : memory) (ebp : Z) : list Z :=
  match n with
  | O => []
  | S n' => if (ebp =? 0) || (ebp <? KERNBASE) || (ebp =? 0xffffffff) then replicate n 0
            else ld32 m (ebp + 4) :: callerpcs n' m (ld32 m ebp)
  end.

Definition getcallerpcs (m : memory) (v : Z) : list Z := callerpcs 10 m (v - 8).

(** * Several CPUs and one lock *)

(** Where a CPU is in a round of [acquire(); ...; release();]. *)
Inductive lpc := Idle | Spinning | Taken | Critical | Freeing | Freed.

Record mp := mk_mp { mp_lock : spinlock; mp_cpu : nat → cpu; mp_pc : nat → lpc }.

Section mpsec.
  Context (ids : list Z).

(** CPU [i] sees its own APIC id. *)
Definition cpu_env (i : nat) : Cpus := {| lapicid := ids !!! i; apicids := ids |}.

Definition upd {A} (f : nat → A) (i : nat) (a : A) : nat → A := λ j, if decide (j = i) then a else f j.

Definition mp_set (s : mp) (i : nat) (t : lkst) (pc : lpc) : mp :=
  mk_mp (lk t) (upd (mp_cpu s) i (me t)) (upd (mp_pc s) i pc).

(** The next instruction of CPU [i], run on the lock and on the CPU. *)
Definition mp_next (i : nat) (pc : lpc) : M lkst lpc :=
  let C := cpu_env i in
  match pc with
  | Idle => acquire_enter;; mret Spinning
  | Spinning => ok ← try_lock; mret (if ok : bool then Taken else Spinning)
  | Taken => acquire_record;; mret Critical
  | Critical => release_enter;; mret Freeing
  | Freeing => release_store;; mret Freed
  | Freed => on_me popcli;; mret Idle
  end.

Definition mp_exec (s : mp) (i : nat) : res mp :=
  match mp_next i (mp_pc s i) (mk_lkst (mp_lock s) (mp_cpu s i)) with
  | Ok (pc, t) => Ok (mp_set s i t pc)
  | Panic e => Panic e
  | Fault => Fault
  | Blocked => Blocked
  | NoFuel => NoFuel
  end.

Inductive mp_step : mp → mp → Prop :=
  | mp_step_cpu s i s' : (i < length ids)%nat → mp_exec s i = Ok s' → mp_step s s'.

(** All CPUs outside the lock, with interrupts on. *)
Definition mp_init : mp := mk_mp initlock (λ _, mk_cpu 0 false true) (λ _, Idle).

(** The CPU owns the lock word; the lock names it. *)
Definition owns (pc : lpc) : bool :=
  match pc with Taken | Critical | Freeing => true | _ => false end.
End mpsec.

(** * Nested interrupt disabling *)

Section nest.
  Context {C : Cpus} (self : nat) (Hself : cpu_index = Some self).

Lemma pushcli_spec c :
  0 <= ncli c < 2^31 - 1 →
  pushcli c = Ok (tt, mk_cpu (ncli c + 1) (if ncli c =? 0 then eflags_if c else intena c) false).
Proof.
  intros H. unfold pushcli, cli, mycpu. munfold. cbn. rewrite Hself. cbn.
  destruct (ncli c =? 0) eqn:E; cbn; rewrite ?Hself; cbn; rewrite s32_small by lia; done.
Qed.

Lemma popcli_spec c :
  0 < ncli c < 2^31 → eflags_if c = false →
  popcli c = Ok (tt, mk_cpu (ncli c - 1) (intena c) ((ncli c =? 1) && intena c)).
Proof.
  intros H Hf. unfold popcli, sti, mycpu. munfold. cbn. rewrite Hf. cbn. rewrite Hf, Hself. cbn.
  rewrite s32_small by lia. destruct (Z.ltb_spec (ncli c - 1) 0); [lia|].
  replace (ncli c - 1 =? 0) with (ncli c =? 1) by (destruct (Z.eqb_spec (ncli c) 1), (Z.eqb_spec (ncli c - 1) 0); lia).
  destruct ((ncli c =? 1) && intena c); cbn; by rewrite ?Hf.
Qed.

(** Well-bracketed sequences of pushcli and popcli, and their nesting depth. *)
Inductive bracket := BNil | BNest (inner rest : bracket).

Fixpoint bracket_run (b : bracket) : M cpu unit :=
  match b with
  | BNil => mret tt
  | BNest b1 b2 => pushcli;; bracket_run b1;; popcli;; bracket_run b2
  end.

Fixpoint bracket_depth (b : bracket) : Z :=
  match b with BNil => 0 | BNest b1 b2 => Z.max (1 + bracket_depth b1) (bracket_depth b2) end.

Lemma bracket_depth_nonneg b : 0 <= bracket_depth b.
Proof. induction b; cbn; lia. Qed.

(** Interrupts are never on above depth 0. *)
Definition cpu_ok (c : cpu) : Prop := 0 <= ncli c ∧ (0 < ncli c → eflags_if c = false).

Lemma bracket_run_spec b c :
  cpu_ok c → ncli c + bracket_depth b < 2^31 →
  ∃ e, bracket_run b c = Ok (tt, mk_cpu (ncli c) e (eflags_if c)) ∧ (0 < ncli c → e = intena c).
Proof.
  revert c. induction b as [|b1 IH1 b2 IH2]; intros [n i f] [Hn Hf] Hd; cbn in *.
  - exists i. done.
  - pose proof (bracket_depth_nonneg b1).
    unfold mbind, M_bind. rewrite pushcli_spec by (cbn; lia). cbn [ncli intena eflags_if].
    destruct (IH1 (mk_cpu (n + 1) (if n =? 0 then f else i) false)) as (e & -> & He); [split; cbn; lia || done | cbn; lia |].
    rewrite popcli_spec by (cbn; lia || done). cbn in *. rewrite He by lia.
    replace (n + 1 - 1) with n by lia.
    assert (((n + 1 =? 1) && (if n =? 0 then f else i)) = f) as ->.
    { destruct (Z.eqb_spec n 0), (Z.eqb_spec (n + 1) 1); cbn; try lia; try done. by rewrite Hf by lia. }
    destruct (IH2 (mk_cpu n (if n =? 0 then f else i) f)) as (e2 & -> & He2); [split; cbn; auto | cbn; lia |].
    cbn in *. exists e2. split; [done|]. intros Hp. rewrite He2 by done.
    destruct (Z.eqb_spec n 0); [lia|done].
Qed.
End nest.

(** Any well-bracketed sequence of pushcli and popcli returns, whatever its
    shape, and leaves the nesting count and the interrupt flag as it found them;
    in particular interrupts that were off stay off. *)
Theorem bracket_restores (C : Cpus) (self : nat) (b : bracket) (c : cpu)
    (Hself : cpu_index = Some self) (Hok : cpu_ok c) (Hd : ncli c + bracket_depth b < 2^31) :
  runs (bracket_run b) c (λ _ c', ncli c' = ncli c ∧ eflags_if c' = eflags_if c ∧
    (0 < ncli c → intena c' = intena c)).
Proof.
  destruct (bracket_run_spec self Hself b c Hok Hd) as (e & H & He).
  exists tt, (mk_cpu (ncli c) e (eflags_if c)). done.
Qed.

Lemma bracket_restores_witness :
  let C := {| lapicid := 4; apicids := [0; 4] |} in
  let b := BNest (BNest BNil (BNest BNil BNil)) BNil in
  runs (bracket_run b) (mk_cpu 0 false true) (λ _ c', ncli c' = 0 ∧ eflags_if c' = true ∧
    (0 < 0 → intena c' = false)).
Proof.
  intros C b. apply (bracket_restores C 1 b (mk_cpu 0 false true));
    [reflexivity | split; cbn; [lia | intros; lia] | cbn; lia].
Defined.

(** * Mutual exclusion *)

Section mutex.
  Context (ids : list Z) (Hids : NoDup ids).

Lemma cpu_index_env i : (i < length ids)%nat → @cpu_index (cpu_env ids i) = Some i.
Proof.
  intros Hi. apply find_idx_Some. cbn. split.
  - exists (ids !!! i). split; [by apply list_lookup_lookup_total_lt | lia].
  - intros j y Hj Hy. apply Z.eqb_neq. intros ->.
    assert (i = j); [|lia]. eapply NoDup_lookup; [done| |done].
    by apply list_lookup_lookup_total_lt.
Qed.

(** The CPU's flags fit where it is, and the lock agrees with the CPUs. *)
Definition cpu_at (pc : lpc) (c : cpu) : Prop :=
  match pc with
  | Idle => ncli c = 0 ∧ eflags_if c = true
  | _ => c = mk_cpu 1 true false
  end.

Record mp_inv (s : mp) : Prop := {
  mi_cpu : ∀ i, cpu_at (mp_pc s i) (mp_cpu s i);
  mi_one : ∀ i j, owns (mp_pc s i) = true → owns (mp_pc s j) = true → i = j;
  mi_locked : locked (mp_lock s) = 1 ∧ (∃ i, owns (mp_pc s i) = true) ∨
              locked (mp_lock s) = 0 ∧ ∀ i, owns (mp_pc s i) = false;
  mi_holder : ∀ i, lk_cpu (mp_lock s) = Some i ↔ mp_pc s i = Critical }.

Lemma mp_inv_init : mp_inv mp_init.
Proof. split; cbn; try done. by right. Qed.

Lemma upd_eq {A} (f : nat → A) i a : upd f i a i = a.
Proof. unfold upd. by rewrite decide_True. Qed.
Lemma upd_ne {A} (f : nat → A) i j a : j ≠ i → upd f i a j = f j.
Proof. intros. unfold upd. by rewrite decide_False. Qed.
Lemma upd_cases {A} (f : nat → A) i a (P : nat → A → Prop) :
  P i a → (∀ j, j ≠ i → P j (f j)) → ∀ j, P j (upd f i a j).
Proof. intros H1 H2 j. unfold upd. destruct (decide (j = i)) as [->|]; auto. Qed.

(** What each instruction does in a state of the invariant, with the CPU at [pc]. *)
Lemma mp_next_spec s i :
  mp_inv s → (i < length ids)%nat →
  let l := mp_lock s in
  mp_next ids i (mp_pc s i) (mk_lkst l (mp_cpu s i)) = Ok
  (match mp_pc s i with
   | Idle => (Spinning, mk_lkst l (mk_cpu 1 true false))
   | Spinning => (if locked l =? 0 then Taken else Spinning, mk_lkst (mk_spin 1 (lk_cpu l)) (mp_cpu s i))
   | Taken => (Critical, mk_lkst (mk_spin (locked l) (Some i)) (mp_cpu s i))
   | Critical => (Freeing, mk_lkst (mk_spin (locked l) None) (mp_cpu s i))
   | Freeing => (Freed, mk_lkst (mk_spin 0 (lk_cpu l)) (mp_cpu s i))
   | Freed => (Idle, mk_lkst l (mk_cpu 0 true true))
   end).
Proof.
  intros Hs Hi. pose proof (cpu_index_env i Hi) as Hc. pose proof (mi_cpu s Hs i) as Ha.
  destruct s as [[lk0 lc] cs ps]; cbn in *. destruct (ps i) eqn:Ep; cbn in Ha |- *.
  - destruct Ha as [Hn Hf]. unfold acquire_enter, on_me, holding, zoom. munfold. cbn.
    rewrite (@pushcli_spec (cpu_env ids i) i Hc) by (rewrite Hn; lia). cbn. rewrite Hn, Hf. cbn.
    destruct (lk0 =? 0); [done|]. unfold on_me, zoom, mycpu. munfold. cbn. rewrite Hc. cbn.
    rewrite bool_decide_eq_false_2; [done|].
    intros H. apply (mi_holder _ Hs i) in H. cbn in H. congruence.
  - unfold try_lock. munfold. cbn. done.
  - unfold acquire_record, on_me, zoom, mycpu. munfold. cbn. rewrite Ha. cbn. rewrite Hc. done.
  - assert (lc = Some i) as -> by (by apply (mi_holder _ Hs i)).
    destruct (mi_locked _ Hs) as [[H1 _]|[_ H0]]; cbn in *;
      [|specialize (H0 i); by rewrite Ep in H0].
    unfold release_enter, holding, on_me, zoom, mycpu. munfold. cbn. rewrite Ha, H1. cbn.
    rewrite Hc. cbn. rewrite bool_decide_eq_true_2 by done. done.
  - done.
  - rewrite Ha. unfold on_me, zoom. munfold. cbn.
    rewrite (@popcli_spec (cpu_env ids i) i Hc) by (cbn; lia || done). done.
Qed.

Lemma mp_exec_ok s i : mp_inv s → (i < length ids)%nat → ∃ s', mp_exec ids s i = Ok s'.
Proof.
  intros Hs Hi. unfold mp_exec. rewrite mp_next_spec by done.
  destruct (mp_pc s i); eauto.
Qed.

(** Moving a CPU that does not own the lock, before and after. *)
Lemma mp_inv_outside s i c pc :
  mp_inv s → owns (mp_pc s i) = false → owns pc = false → cpu_at pc c →
  mp_inv (mk_mp (mp_lock s) (upd (mp_cpu s) i c) (upd (mp_pc s) i pc)).
Proof.
  intros [Ha H1 Hl Hh] Ho Hp Hc. split; cbn.
  - intros j. unfold upd. case_decide; auto.
  - intros j k. unfold upd. repeat case_decide; subst; try congruence. auto.
  - destruct Hl as [[? [k Hk]]|[? Hn]]; [left|right]; (split; [done|]).
    + exists k. rewrite upd_ne by congruence. done.
    + apply (upd_cases _ _ _ (λ _ x, owns x = false)); auto.
  - intros j. rewrite Hh. unfold upd. case_decide; subst; [|done]. destruct pc, (mp_pc s i); try done.
Qed.

(** Moving a CPU that owns the lock after the move. *)
Lemma mp_inv_owner s i c pc l :
  mp_inv s → (∀ j, j ≠ i → owns (mp_pc s j) = false) → owns pc = true → cpu_at pc c →
  locked l = 1 → (lk_cpu l = Some i ∧ pc = Critical ∨ lk_cpu l = None ∧ pc ≠ Critical) →
  mp_inv (mk_mp l (upd (mp_cpu s) i c) (upd (mp_pc s) i pc)).
Proof.
  intros [Ha H1 Hl Hh] Ho Hp Hc Hk Hw. split; cbn.
  - intros j. unfold upd. case_decide; auto.
  - intros j k. unfold upd. repeat case_decide; subst; try done; intros Hj Hk'.
    all: first [by rewrite Ho in Hj | by rewrite Ho in Hk'].
  - left. split; [done|]. exists i. by rewrite upd_eq.
  - intros j. unfold upd. case_decide as E; [subst; naive_solver|].
    specialize (Ho j E). destruct Hw as [[-> _]|[-> _]]; (split; [congruence|]).
    all: intros Hj; by rewrite Hj in Ho.
Qed.

Lemma mp_step_inv s s' : mp_inv s → mp_step ids s s' → mp_inv s'.
Proof.
  intros Hs Hst. destruct Hst as [s i s' Hi Hx]. unfold mp_exec in Hx.
  rewrite mp_next_spec in Hx by done. pose proof (mi_cpu s Hs i) as Hc.
  assert (Hone : ∀ j, owns (mp_pc s i) = true → j ≠ i → owns (mp_pc s j) = false).
  { intros j Ho Hj. destruct (owns (mp_pc s j)) eqn:Ej; [|done]. by destruct (Hj (mi_one s Hs j i Ej Ho)). }
  pose proof (mi_locked s Hs) as Hl. pose proof (mi_holder s Hs) as Hh.
  assert (Hlc : (∀ j, mp_pc s j ≠ Critical) → lk_cpu (mp_lock s) = None).
  { intros Hn. destruct (lk_cpu (mp_lock s)) eqn:El; [|done]. by destruct (Hn n (proj1 (Hh n) eq_refl)). }
  assert (Hnc : ∀ j, owns (mp_pc s j) = false → mp_pc s j ≠ Critical) by (intros j Hj E; by rewrite E in Hj).
  destruct (mp_pc s i) eqn:Ep; cbn in Hx, Hc; simplify_eq; unfold mp_set; cbn [lk me].
  - apply mp_inv_outside; rewrite ?Ep; done.
  - destruct (Z.eqb_spec (locked (mp_lock s)) 0) as [E0|E0].
    + destruct Hl as [[? _]|[_ Hn]]; [lia|]. apply mp_inv_owner; cbn; auto.
    + destruct Hl as [[H1 _]|[? _]]; [|lia]. destruct (mp_lock s) as [lw lc] eqn:El. cbn in *. subst lw.
      rewrite <- El. apply mp_inv_outside; rewrite ?Ep; done.
  - destruct Hl as [[H1 _]|[_ Hn]]; [|specialize (Hn i); by rewrite Ep in Hn].
    apply mp_inv_owner; cbn; auto.
  - destruct Hl as [[H1 _]|[_ Hn]]; [|specialize (Hn i); by rewrite Ep in Hn].
    apply mp_inv_owner; cbn; auto.
  - split; cbn.
    + intros j. unfold upd. case_decide; [done|]. apply Hs.
    + intros j k. unfold upd. repeat case_decide; subst; try done. intros Hj _. by rewrite Hone in Hj.
    + right. split; [done|]. apply (upd_cases _ _ _ (λ _ x, owns x = false)); [done|]. intros; auto.
    + intros j. rewrite Hlc.
      2: { intros k Hk. destruct (decide (k = i)); [congruence|]. eapply Hnc; [|done]. by apply Hone. }
      unfold upd. case_decide; [done|]. split; [done|]. intros Hj. eapply Hnc in Hj; [done|]. by apply Hone.
  - apply mp_inv_outside; rewrite ?Ep; done.
Qed.

Lemma mp_reach_inv s : rtc (mp_step ids) mp_init s → mp_inv s.
Proof.
  apply rtc_inv; [apply mp_inv_init | apply mp_step_inv].
Qed.
End mutex.

(** C6. Whatever the interleaving of the CPUs' instructions, no two CPUs are
    between a successful xchg of acquire and the store of release; a CPU inside
    runs with interrupts off; and no CPU that follows acquire with release ever
    panics, so the next instruction of each is always defined. *)
Theorem spinlock_mutual_exclusion (ids : list Z) (s : mp)
    (Hids : NoDup ids) (Hr : rtc (mp_step ids) mp_init s) :
  (∀ i j, owns (mp_pc s i) = true → owns (mp_pc s j) = true → i = j) ∧
  (∀ i, owns (mp_pc s i) = true → eflags_if (mp_cpu s i) = false ∧ ncli (mp_cpu s i) = 1) ∧
  (∀ i, (i < length ids)%nat → ∃ s', mp_exec ids s i = Ok s').
Proof.
  pose proof (mp_reach_inv ids Hids s Hr) as Hs. split; [apply Hs|]. split.
  - intros i Ho. pose proof (mi_cpu s Hs i) as Hc. destruct (mp_pc s i); try done; cbn in Hc; by rewrite Hc.
  - intros i Hi. by apply mp_exec_ok.
Qed.

(** The state after the CPUs of a schedule took a step each, in order. *)
Fixpoint mp_run (ids : list Z) (sched : list nat) (s : mp) : mp :=
  match sched with
  | [] => s
  | i :: sched => match mp_exec ids s i with Ok s' => mp_run ids sched s' | _ => s end
  end.

Lemma mp_run_reach ids sched s : Forall (λ i, (i < length ids)%nat) sched → rtc (mp_step ids) s (mp_run ids sched s).
Proof.
  intros H. revert s. induction H as [|i sched Hi _ IH]; intros s; cbn; [done|].
  destruct (mp_exec ids s i) as [s'| | | |] eqn:E; try done.
  eapply rtc_l; [by econstructor|apply IH].
Qed.

Lemma spinlock_mutual_exclusion_witness :
  let s := mp_run [0; 3] [0; 1; 0; 1; 0]%nat mp_init in
  mp_pc s 0%nat = Critical ∧ mp_pc s 1%nat = Spinning ∧
  (∀ i j, owns (mp_pc s i) = true → owns (mp_pc s j) = true → i = j) ∧
  (∀ i, owns (mp_pc s i) = true → eflags_if (mp_cpu s i) = false ∧ ncli (mp_cpu s i) = 1) ∧
  (∀ i, (i < 2)%nat → ∃ s', mp_exec [0; 3] s i = Ok s').
Proof.
  intros s. split; [vm_compute; reflexivity|]. split; [vm_compute; reflexivity|].
  apply (spinlock_mutual_exclusion [0; 3] s); [repeat constructor; set_solver |].
  apply mp_run_reach. repeat constructor.
Defined.
