(* ===== verification/State.v ===== *)
(** The state of the kernel that vm.c, proc.c, exec.c and trap.c share: the
    process table with the paging meta-data of each process (proc.h), the page
    allocator and memory, the page-directory register, and the file system
    behind an interface. *)
From Stdlib Require Import ZArith Lia Bool.
From stdpp Require Import base tactics list strings.
From S2P Require Import Prelude Machine CString Kalloc PageTable Locks.

(** * param.h *)

Definition NPROC : Z := 64.
Definition KSTACKSIZE : Z := 4096.
Definition NOFILE : Z := 16.
Definition ROOTDEV : Z := 1.
Definition MAXARG : Z := 32.

(** * proc.h *)

Inductive procstate := UNUSED | EMBRYO | SLEEPING | RUNNABLE | RUNNING | ZOMBIE.

#[global] Instance procstate_eq_dec : EqDecision procstate.
Proof. solve_decision. Defined.

(** [struct p_monitor]: one page of the process in memory or in its swap file. *)
Record p_monitor := mk_pm {
  pm_used : Z;
  pm_pgdir : Z;
  pm_va : Z;
  pm_place : Z }.

Definition set_pm_used (v : Z) (x : p_monitor) : p_monitor := mk_pm v (pm_pgdir x) (pm_va x) (pm_place x).
Definition set_pm_pgdir (v : Z) (x : p_monitor) : p_monitor := mk_pm (pm_used x) v (pm_va x) (pm_place x).
Definition set_pm_va (v : Z) (x : p_monitor) : p_monitor := mk_pm (pm_used x) (pm_pgdir x) v (pm_place x).
Definition set_pm_place (v : Z) (x : p_monitor) : p_monitor := mk_pm (pm_used x) (pm_pgdir x) (pm_va x) v.

Definition pm_zero : p_monitor := mk_pm 0 0 0 0.

(** [struct trapframe] (x86.h), the registers saved on the kernel stack. *)
Record trapframe := mk_tf {
  tf_edi : Z;
  tf_esi : Z;
  tf_ebp : Z;
  tf_ebx : Z;
  tf_edx : Z;
  tf_ecx : Z;
  tf_eax : Z;
  tf_gs : Z;
  tf_fs : Z;
  tf_es : Z;
  tf_ds : Z;
  tf_trapno : Z;
  tf_err : Z;
  tf_eip : Z;
  tf_cs : Z;
  tf_eflags : Z;
  tf_esp : Z;
  tf_ss : Z }.

Definition set_tf_edi (v : Z) (x : trapframe) : trapframe := mk_tf v (tf_esi x) (tf_ebp x) (tf_ebx x) (tf_edx x) (tf_ecx x) (tf_eax x) (tf_gs x) (tf_fs x) (tf_es x) (tf_ds x) (tf_trapno x) (tf_err x) (tf_eip x) (tf_cs x) (tf_eflags x) (tf_esp x) (tf_ss x).
Definition set_tf_esi (v : Z) (x : trapframe) : trapframe := mk_tf (tf_edi x) v (tf_ebp x) (tf_ebx x) (tf_edx x) (tf_ecx x) (tf_eax x) (tf_gs x) (tf_fs x) (tf_es x) (tf_ds x) (tf_trapno x) (tf_err x) (tf_eip x) (tf_cs x) (tf_eflags x) (tf_esp x) (tf_ss x).
Definition set_tf_ebp (v : Z) (x : trapframe) : trapframe := mk_tf (tf_edi x) (tf_esi x) v (tf_ebx x) (tf_edx x) (tf_ecx x) (tf_eax x) (tf_gs x) (tf_fs x) (tf_es x) (tf_ds x) (tf_trapno x) (tf_err x) (tf_eip x) (tf_cs x) (tf_eflags x) (tf_esp x) (tf_ss x).
Definition set_tf_ebx (v : Z) (x : trapframe) : trapframe := mk_tf (tf_edi x) (tf_esi x) (tf_ebp x) v (tf_edx x) (tf_ecx x) (tf_eax x) (tf_gs x) (tf_fs x) (tf_es x) (tf_ds x) (tf_trapno x) (tf_err x) (tf_eip x) (tf_cs x) (tf_eflags x) (tf_esp x) (tf_ss x).
Definition set_tf_edx (v : Z) (x : trapframe) : trapframe := mk_tf (tf_edi x) (tf_esi x) (tf_ebp x) (tf_ebx x) v (tf_ecx x) (tf_eax x) (tf_gs x) (tf_fs x) (tf_es x) (tf_ds x) (tf_trapno x) (tf_err x) (tf_eip x) (tf_cs x) (tf_eflags x) (tf_esp x) (tf_ss x).
Definition set_tf_ecx (v : Z) (x : trapframe) : trapframe := mk_tf (tf_edi x) (tf_esi x) (tf_ebp x) (tf_ebx x) (tf_edx x) v (tf_eax x) (tf_gs x) (tf_fs x) (tf_es x) (tf_ds x) (tf_trapno x) (tf_err x) (tf_eip x) (tf_cs x) (tf_eflags x) (tf_esp x) (tf_ss x).
Definition set_tf_eax (v : Z) (x : trapframe) : trapframe := mk_tf (tf_edi x) (tf_esi x) (tf_ebp x) (tf_ebx x) (tf_edx x) (tf_ecx x) v (tf_gs x) (tf_fs x) (tf_es x) (tf_ds x) (tf_trapno x) (tf_err x) (tf_eip x) (tf_cs x) (tf_eflags x) (tf_esp x) (tf_ss x).
Definition set_tf_gs (v : Z) (x : trapframe) : trapframe := mk_tf (tf_edi x) (tf_esi x) (tf_ebp x) (tf_ebx x) (tf_edx x) (tf_ecx x) (tf_eax x) v (tf_fs x) (tf_es x) (tf_ds x) (tf_trapno x) (tf_err x) (tf_eip x) (tf_cs x) (tf_eflags x) (tf_esp x) (tf_ss x).
Definition set_tf_fs (v : Z) (x : trapframe) : trapframe := mk_tf (tf_edi x) (tf_esi x) (tf_ebp x) (tf_ebx x) (tf_edx x) (tf_ecx x) (tf_eax x) (tf_gs x) v (tf_es x) (tf_ds x) (tf_trapno x) (tf_err x) (tf_eip x) (tf_cs x) (tf_eflags x) (tf_esp x) (tf_ss x).
Definition set_tf_es (v : Z) (x : trapframe) : trapframe := mk_tf (tf_edi x) (tf_esi x) (tf_ebp x) (tf_ebx x) (tf_edx x) (tf_ecx x) (tf_eax x) (tf_gs x) (tf_fs x) v (tf_ds x) (tf_trapno x) (tf_err x) (tf_eip x) (tf_cs x) (tf_eflags x) (tf_esp x) (tf_ss x).
Definition set_tf_ds (v : Z) (x : trapframe) : trapframe := mk_tf (tf_edi x) (tf_esi x) (tf_ebp x) (tf_ebx x) (tf_edx x) (tf_ecx x) (tf_eax x) (tf_gs x) (tf_fs x) (tf_es x) v (tf_trapno x) (tf_err x) (tf_eip x) (tf_cs x) (tf_eflags x) (tf_esp x) (tf_ss x).
Definition set_tf_trapno (v : Z) (x : trapframe) : trapframe := mk_tf (tf_edi x) (tf_esi x) (tf_ebp x) (tf_ebx x) (tf_edx x) (tf_ecx x) (tf_eax x) (tf_gs x) (tf_fs x) (tf_es x) (tf_ds x) v (tf_err x) (tf_eip x) (tf_cs x) (tf_eflags x) (tf_esp x) (tf_ss x).
Definition set_tf_err (v : Z) (x : trapframe) : trapframe := mk_tf (tf_edi x) (tf_esi x) (tf_ebp x) (tf_ebx x) (tf_edx x) (tf_ecx x) (tf_eax x) (tf_gs x) (tf_fs x) (tf_es x) (tf_ds x) (tf_trapno x) v (tf_eip x) (tf_cs x) (tf_eflags x) (tf_esp x) (tf_ss x).
Definition set_tf_eip (v : Z) (x : trapframe) : trapframe := mk_tf (tf_edi x) (tf_esi x) (tf_ebp x) (tf_ebx x) (tf_edx x) (tf_ecx x) (tf_eax x) (tf_gs x) (tf_fs x) (tf_es x) (tf_ds x) (tf_trapno x) (tf_err x) v (tf_cs x) (tf_eflags x) (tf_esp x) (tf_ss x).
Definition set_tf_cs (v : Z) (x : trapframe) : trapframe := mk_tf (tf_edi x) (tf_esi x) (tf_ebp x) (tf_ebx x) (tf_edx x) (tf_ecx x) (tf_eax x) (tf_gs x) (tf_fs x) (tf_es x) (tf_ds x) (tf_trapno x) (tf_err x) (tf_eip x) v (tf_eflags x) (tf_esp x) (tf_ss x).
Definition set_tf_eflags (v : Z) (x : trapframe) : trapframe := mk_tf (tf_edi x) (tf_esi x) (tf_ebp x) (tf_ebx x) (tf_edx x) (tf_ecx x) (tf_eax x) (tf_gs x) (tf_fs x) (tf_es x) (tf_ds x) (tf_trapno x) (tf_err x) (tf_eip x) (tf_cs x) v (tf_esp x) (tf_ss x).
Definition set_tf_esp (v : Z) (x : trapframe) : trapframe := mk_tf (tf_edi x) (tf_esi x) (tf_ebp x) (tf_ebx x) (tf_edx x) (tf_ecx x) (tf_eax x) (tf_gs x) (tf_fs x) (tf_es x) (tf_ds x) (tf_trapno x) (tf_err x) (tf_eip x) (tf_cs x) (tf_eflags x) v (tf_ss x).
Definition set_tf_ss (v : Z) (x : trapframe) : trapframe := mk_tf (tf_edi x) (tf_esi x) (tf_ebp x) (tf_ebx x) (tf_edx x) (tf_ecx x) (tf_eax x) (tf_gs x) (tf_fs x) (tf_es x) (tf_ds x) (tf_trapno x) (tf_err x) (tf_eip x) (tf_cs x) (tf_eflags x) (tf_esp x) v.

Definition tf_zero : trapframe := mk_tf 0 0 0 0 0 0 0 0 0 0 0 0 0 0 0 0 0 0.

Record context := mk_context {
  cx_edi : Z;
  cx_esi : Z;
  cx_ebx : Z;
  cx_ebp : Z;
  cx_eip : Z }.

Definition context_zero : context := mk_context 0 0 0 0 0.

(** What a process sleeps on: the address of a slot of the process table or of
    another kernel object; [CNone] is the null pointer. *)
Inductive chan := CNone | CProc (i : nat) | CAddr (a : Z).

#[global] Instance chan_eq_dec : EqDecision chan.
Proof. solve_decision. Defined.

(** A pointer into the process table, as a channel. *)
Definition chan_of (p : option nat) : chan := match p with Some i => CProc i | None => CNone end.

(** [struct proc]. The parent is a slot of the process table; files and inodes
    are addresses in the file system's tables, 0 for none. *)
Record proc := mk_proc {
  p_sz : Z;
  p_pgdir : Z;
  p_kstack : Z;
  p_state : procstate;
  p_pid : Z;
  p_parent : option nat;
  p_tf : trapframe;
  p_context : context;
  p_chan : chan;
  p_killed : Z;
  p_ofile : list Z;
  p_cwd : Z;
  p_name : list Z;
  p_swapFile : Z;
  p_ram_monitor : list p_monitor;
  p_swap_monitor : list p_monitor;
  p_pages_in_file : Z;
  p_last_in_queue : Z;
  p_protected : Z;
  p_page_fault_counter : Z }.

Definition set_p_sz (v : Z) (x : proc) : proc := mk_proc v (p_pgdir x) (p_kstack x) (p_state x) (p_pid x) (p_parent x) (p_tf x) (p_context x) (p_chan x) (p_killed x) (p_ofile x) (p_cwd x) (p_name x) (p_swapFile x) (p_ram_monitor x) (p_swap_monitor x) (p_pages_in_file x) (p_last_in_queue x) (p_protected x) (p_page_fault_counter x).
Definition set_p_pgdir (v : Z) (x : proc) : proc := mk_proc (p_sz x) v (p_kstack x) (p_state x) (p_pid x) (p_parent x) (p_tf x) (p_context x) (p_chan x) (p_killed x) (p_ofile x) (p_cwd x) (p_name x) (p_swapFile x) (p_ram_monitor x) (p_swap_monitor x) (p_pages_in_file x) (p_last_in_queue x) (p_protected x) (p_page_fault_counter x).
Definition set_p_kstack (v : Z) (x : proc) : proc := mk_proc (p_sz x) (p_pgdir x) v (p_state x) (p_pid x) (p_parent x) (p_tf x) (p_context x) (p_chan x) (p_killed x) (p_ofile x) (p_cwd x) (p_name x) (p_swapFile x) (p_ram_monitor x) (p_swap_monitor x) (p_pages_in_file x) (p_last_in_queue x) (p_protected x) (p_page_fault_counter x).
Definition set_p_state (v : procstate) (x : proc) : proc := mk_proc (p_sz x) (p_pgdir x) (p_kstack x) v (p_pid x) (p_parent x) (p_tf x) (p_context x) (p_chan x) (p_killed x) (p_ofile x) (p_cwd x) (p_name x) (p_swapFile x) (p_ram_monitor x) (p_swap_monitor x) (p_pages_in_file x) (p_last_in_queue x) (p_protected x) (p_page_fault_counter x).
Definition set_p_pid (v : Z) (x : proc) : proc := mk_proc (p_sz x) (p_pgdir x) (p_kstack x) (p_state x) v (p_parent x) (p_tf x) (p_context x) (p_chan x) (p_killed x) (p_ofile x) (p_cwd x) (p_name x) (p_swapFile x) (p_ram_monitor x) (p_swap_monitor x) (p_pages_in_file x) (p_last_in_queue x) (p_protected x) (p_page_fault_counter x).
Definition set_p_parent (v : option nat) (x : proc) : proc := mk_proc (p_sz x) (p_pgdir x) (p_kstack x) (p_state x) (p_pid x) v (p_tf x) (p_context x) (p_chan x) (p_killed x) (p_ofile x) (p_cwd x) (p_name x) (p_swapFile x) (p_ram_monitor x) (p_swap_monitor x) (p_pages_in_file x) (p_last_in_queue x) (p_protected x) (p_page_fault_counter x).
Definition set_p_tf (v : trapframe) (x : proc) : proc := mk_proc (p_sz x) (p_pgdir x) (p_kstack x) (p_state x) (p_pid x) (p_parent x) v (p_context x) (p_chan x) (p_killed x) (p_ofile x) (p_cwd x) (p_name x) (p_swapFile x) (p_ram_monitor x) (p_swap_monitor x) (p_pages_in_file x) (p_last_in_queue x) (p_protected x) (p_page_fault_counter x).
Definition set_p_context (v : context) (x : proc) : proc := mk_proc (p_sz x) (p_pgdir x) (p_kstack x) (p_state x) (p_pid x) (p_parent x) (p_tf x) v (p_chan x) (p_killed x) (p_ofile x) (p_cwd x) (p_name x) (p_swapFile x) (p_ram_monitor x) (p_swap_monitor x) (p_pages_in_file x) (p_last_in_queue x) (p_protected x) (p_page_fault_counter x).
Definition set_p_chan (v : chan) (x : proc) : proc := mk_proc (p_sz x) (p_pgdir x) (p_kstack x) (p_state x) (p_pid x) (p_parent x) (p_tf x) (p_context x) v (p_killed x) (p_ofile x) (p_cwd x) (p_name x) (p_swapFile x) (p_ram_monitor x) (p_swap_monitor x) (p_pages_in_file x) (p_last_in_queue x) (p_protected x) (p_page_fault_counter x).
Definition set_p_killed (v : Z) (x : proc) : proc := mk_proc (p_sz x) (p_pgdir x) (p_kstack x) (p_state x) (p_pid x) (p_parent x) (p_tf x) (p_context x) (p_chan x) v (p_ofile x) (p_cwd x) (p_name x) (p_swapFile x) (p_ram_monitor x) (p_swap_monitor x) (p_pages_in_file x) (p_last_in_queue x) (p_protected x) (p_page_fault_counter x).
Definition set_p_ofile (v : list Z) (x : proc) : proc := mk_proc (p_sz x) (p_pgdir x) (p_kstack x) (p_state x) (p_pid x) (p_parent x) (p_tf x) (p_context x) (p_chan x) (p_killed x) v (p_cwd x) (p_name x) (p_swapFile x) (p_ram_monitor x) (p_swap_monitor x) (p_pages_in_file x) (p_last_in_queue x) (p_protected x) (p_page_fault_counter x).
Definition set_p_cwd (v : Z) (x : proc) : proc := mk_proc (p_sz x) (p_pgdir x) (p_kstack x) (p_state x) (p_pid x) (p_parent x) (p_tf x) (p_context x) (p_chan x) (p_killed x) (p_ofile x) v (p_name x) (p_swapFile x) (p_ram_monitor x) (p_swap_monitor x) (p_pages_in_file x) (p_last_in_queue x) (p_protected x) (p_page_fault_counter x).
Definition set_p_name (v : list Z) (x : proc) : proc := mk_proc (p_sz x) (p_pgdir x) (p_kstack x) (p_state x) (p_pid x) (p_parent x) (p_tf x) (p_context x) (p_chan x) (p_killed x) (p_ofile x) (p_cwd x) v (p_swapFile x) (p_ram_monitor x) (p_swap_monitor x) (p_pages_in_file x) (p_last_in_queue x) (p_protected x) (p_page_fault_counter x).
Definition set_p_swapFile (v : Z) (x : proc) : proc := mk_proc (p_sz x) (p_pgdir x) (p_kstack x) (p_state x) (p_pid x) (p_parent x) (p_tf x) (p_context x) (p_chan x) (p_killed x) (p_ofile x) (p_cwd x) (p_name x) v (p_ram_monitor x) (p_swap_monitor x) (p_pages_in_file x) (p_last_in_queue x) (p_protected x) (p_page_fault_counter x).
Definition set_p_ram_monitor (v : list p_monitor) (x : proc) : proc := mk_proc (p_sz x) (p_pgdir x) (p_kstack x) (p_state x) (p_pid x) (p_parent x) (p_tf x) (p_context x) (p_chan x) (p_killed x) (p_ofile x) (p_cwd x) (p_name x) (p_swapFile x) v (p_swap_monitor x) (p_pages_in_file x) (p_last_in_queue x) (p_protected x) (p_page_fault_counter x).
Definition set_p_swap_monitor (v : list p_monitor) (x : proc) : proc := mk_proc (p_sz x) (p_pgdir x) (p_kstack x) (p_state x) (p_pid x) (p_parent x) (p_tf x) (p_context x) (p_chan x) (p_killed x) (p_ofile x) (p_cwd x) (p_name x) (p_swapFile x) (p_ram_monitor x) v (p_pages_in_file x) (p_last_in_queue x) (p_protected x) (p_page_fault_counter x).
Definition set_p_pages_in_file (v : Z) (x : proc) : proc := mk_proc (p_sz x) (p_pgdir x) (p_kstack x) (p_state x) (p_pid x) (p_parent x) (p_tf x) (p_context x) (p_chan x) (p_killed x) (p_ofile x) (p_cwd x) (p_name x) (p_swapFile x) (p_ram_monitor x) (p_swap_monitor x) v (p_last_in_queue x) (p_protected x) (p_page_fault_counter x).
Definition set_p_last_in_queue (v : Z) (x : proc) : proc := mk_proc (p_sz x) (p_pgdir x) (p_kstack x) (p_state x) (p_pid x) (p_parent x) (p_tf x) (p_context x) (p_chan x) (p_killed x) (p_ofile x) (p_cwd x) (p_name x) (p_swapFile x) (p_ram_monitor x) (p_swap_monitor x) (p_pages_in_file x) v (p_protected x) (p_page_fault_counter x).
Definition set_p_protected (v : Z) (x : proc) : proc := mk_proc (p_sz x) (p_pgdir x) (p_kstack x) (p_state x) (p_pid x) (p_parent x) (p_tf x) (p_context x) (p_chan x) (p_killed x) (p_ofile x) (p_cwd x) (p_name x) (p_swapFile x) (p_ram_monitor x) (p_swap_monitor x) (p_pages_in_file x) (p_last_in_queue x) v (p_page_fault_counter x).
Definition set_p_page_fault_counter (v : Z) (x : proc) : proc := mk_proc (p_sz x) (p_pgdir x) (p_kstack x) (p_state x) (p_pid x) (p_parent x) (p_tf x) (p_context x) (p_chan x) (p_killed x) (p_ofile x) (p_cwd x) (p_name x) (p_swapFile x) (p_ram_monitor x) (p_swap_monitor x) (p_pages_in_file x) (p_last_in_queue x) (p_protected x) v.

(** A slot of the process table, which the kernel's bss starts out with. *)
Definition proc_zero : proc := mk_proc 0 0 0 UNUSED 0 None tf_zero context_zero CNone 0
  (replicate 16 0) 0 (replicate 16 0) 0 (replicate 16 pm_zero) (replicate 16 pm_zero) 0 0 0 0.

(** * The build's configuration: the Makefile's SELECTION *)

Inductive policy := LIFO | SCFIFO | NONE.
Class Config := { selection : policy }.

(** * What the process and memory code calls of the file system *)

Class FsOps (F : Type) := {
  fs_begin_op : M F unit;
  fs_end_op : M F unit;
  fs_filedup : Z → M F unit;
  fs_fileclose : Z → M F unit;
  fs_idup : Z → M F unit;
  fs_iput : Z → M F unit;
  (** the path, looked up from the working directory *)
  fs_namei : Z → list Z → M F Z;
  fs_ilock : Z → M F unit;
  fs_iunlockput : Z → M F unit;
  (** inode, offset, count: the count readi returns and the bytes it stores *)
  fs_readi : Z → Z → Z → M F (Z * list Z);
  fs_set_off : Z → Z → M F unit;
  fs_filewrite : Z → list Z → M F Z;
  fs_fileread : Z → Z → M F (Z * list Z);
  (** the pid; the address of the open swap file *)
  fs_createSwapFile : Z → M F Z;
  (** the pid and the open swap file *)
  fs_removeSwapFile : Z → Z → M F Z }.

(** * The state *)

Section state.
  Context {F : Type}.

(** [cur] is the process of this CPU ([mycpu()->proc]), [cpu0] its interrupt
    bookkeeping and [ts_esp0] the kernel stack of its task-state segment;
    [vbuff] is vm.c's static page buffer, [cons_out] what cprintf has written
    on the console, and [ticks] trap.c's clock. *)
Record kst := mk_kst {
  km : kmst;
  cr3 : Z;
  procs : list proc;
  cur : option nat;
  nextpid : Z;
  initproc : option nat;
  ptlock : spinlock;
  cpu0 : cpu;
  ts_esp0 : Z;
  kpgdir : Z;
  vbuff : list Z;
  cons_out : list Z;
  ticks : Z;
  tickslock : spinlock;
  fsys : F }.

Definition set_km (v : kmst) (x : kst) : kst := mk_kst v (cr3 x) (procs x) (cur x) (nextpid x) (initproc x) (ptlock x) (cpu0 x) (ts_esp0 x) (kpgdir x) (vbuff x) (cons_out x) (ticks x) (tickslock x) (fsys x).
Definition set_cr3 (v : Z) (x : kst) : kst := mk_kst (km x) v (procs x) (cur x) (nextpid x) (initproc x) (ptlock x) (cpu0 x) (ts_esp0 x) (kpgdir x) (vbuff x) (cons_out x) (ticks x) (tickslock x) (fsys x).
Definition set_procs (v : list proc) (x : kst) : kst := mk_kst (km x) (cr3 x) v (cur x) (nextpid x) (initproc x) (ptlock x) (cpu0 x) (ts_esp0 x) (kpgdir x) (vbuff x) (cons_out x) (ticks x) (tickslock x) (fsys x).
Definition set_cur (v : option nat) (x : kst) : kst := mk_kst (km x) (cr3 x) (procs x) v (nextpid x) (initproc x) (ptlock x) (cpu0 x) (ts_esp0 x) (kpgdir x) (vbuff x) (cons_out x) (ticks x) (tickslock x) (fsys x).
Definition set_nextpid (v : Z) (x : kst) : kst := mk_kst (km x) (cr3 x) (procs x) (cur x) v (initproc x) (ptlock x) (cpu0 x) (ts_esp0 x) (kpgdir x) (vbuff x) (cons_out x) (ticks x) (tickslock x) (fsys x).
Definition set_initproc (v : option nat) (x : kst) : kst := mk_kst (km x) (cr3 x) (procs x) (cur x) (nextpid x) v (ptlock x) (cpu0 x) (ts_esp0 x) (kpgdir x) (vbuff x) (cons_out x) (ticks x) (tickslock x) (fsys x).
Definition set_ptlock (v : spinlock) (x : kst) : kst := mk_kst (km x) (cr3 x) (procs x) (cur x) (nextpid x) (initproc x) v (cpu0 x) (ts_esp0 x) (kpgdir x) (vbuff x) (cons_out x) (ticks x) (tickslock x) (fsys x).
Definition set_cpu0 (v : cpu) (x : kst) : kst := mk_kst (km x) (cr3 x) (procs x) (cur x) (nextpid x) (initproc x) (ptlock x) v (ts_esp0 x) (kpgdir x) (vbuff x) (cons_out x) (ticks x) (tickslock x) (fsys x).
Definition set_ts_esp0 (v : Z) (x : kst) : kst := mk_kst (km x) (cr3 x) (procs x) (cur x) (nextpid x) (initproc x) (ptlock x) (cpu0 x) v (kpgdir x) (vbuff x) (cons_out x) (ticks x) (tickslock x) (fsys x).
Definition set_kpgdir (v : Z) (x : kst) : kst := mk_kst (km x) (cr3 x) (procs x) (cur x) (nextpid x) (initproc x) (ptlock x) (cpu0 x) (ts_esp0 x) v (vbuff x) (cons_out x) (ticks x) (tickslock x) (fsys x).
Definition set_vbuff (v : list Z) (x : kst) : kst := mk_kst (km x) (cr3 x) (procs x) (cur x) (nextpid x) (initproc x) (ptlock x) (cpu0 x) (ts_esp0 x) (kpgdir x) v (cons_out x) (ticks x) (tickslock x) (fsys x).
Definition set_cons_out (v : list Z) (x : kst) : kst := mk_kst (km x) (cr3 x) (procs x) (cur x) (nextpid x) (initproc x) (ptlock x) (cpu0 x) (ts_esp0 x) (kpgdir x) (vbuff x) v (ticks x) (tickslock x) (fsys x).
Definition set_ticks (v : Z) (x : kst) : kst := mk_kst (km x) (cr3 x) (procs x) (cur x) (nextpid x) (initproc x) (ptlock x) (cpu0 x) (ts_esp0 x) (kpgdir x) (vbuff x) (cons_out x) v (tickslock x) (fsys x).
Definition set_tickslock (v : spinlock) (x : kst) : kst := mk_kst (km x) (cr3 x) (procs x) (cur x) (nextpid x) (initproc x) (ptlock x) (cpu0 x) (ts_esp0 x) (kpgdir x) (vbuff x) (cons_out x) (ticks x) v (fsys x).
Definition set_fsys (v : F) (x : kst) : kst := mk_kst (km x) (cr3 x) (procs x) (cur x) (nextpid x) (initproc x) (ptlock x) (cpu0 x) (ts_esp0 x) (kpgdir x) (vbuff x) (cons_out x) (ticks x) (tickslock x) v.

Definition liftk {A} (m : M kmst A) : M kst A := zoom km set_km m.
Definition liftf {A} (m : M F A) : M kst A := zoom fsys set_fsys m.

Definition rd32 (a : Z) : M kst Z := liftk (gets (λ s, ld32 (mem s) a)).
Definition wr32 (a v : Z) : M kst unit := liftk (modify (λ s, set_mem (st32 (mem s) a v) s)).
Definition memset_k (dst c n : Z) : M kst unit := liftk (modify (λ s, set_mem (memset (mem s) dst c n) s)).

(** Reading and changing a slot of the process table. *)
Definition getproc (i : nat) : M kst proc := s ← get; oget (procs s !! i).
Definition modproc (i : nat) (f : proc → proc) : M kst unit :=
  s ← get; p ← oget (procs s !! i); modify (λ s, set_procs (<[i := f p]> (procs s)) s).

(** myproc(); using the result when there is no process is a null access. *)
Definition myproc : M kst nat := s ← get; oget (cur s).

(** Operations of this CPU, and of this CPU on ptable.lock and tickslock. *)
Definition on_cpu {A} (m : M cpu A) : M kst A := zoom cpu0 set_cpu0 m.
Definition on_ptlock {A} (m : M lkst A) : M kst A :=
  zoom (λ s, mk_lkst (ptlock s) (cpu0 s)) (λ l s, set_cpu0 (me l) (set_ptlock (lk l) s)) m.
Definition on_tickslock {A} (m : M lkst A) : M kst A :=
  zoom (λ s, mk_lkst (tickslock s) (cpu0 s)) (λ l s, set_cpu0 (me l) (set_tickslock (lk l) s)) m.

(** lcr3(val) *)
Definition lcr3 (v : Z) : M kst unit := modify (set_cr3 v).
End state.
Arguments kst F : clear implicits.
