(* ===== verification/Vm.v ===== *)
(** Virtual memory (vm.c) and the swap slots of fs.c: the kernel's page table,
    growing, shrinking, copying and freeing address spaces, and the paging
    framework with its page-replacement policies. *)
From Stdlib Require Import ZArith Lia Bool.
From stdpp Require Import base tactics list strings.
From S2P Require Import Prelude Machine CString Format Kalloc PageTable Locks State.

Section vm.
  Context {KI : KernelImage} {CF : Config} {F : Type} {FS : FsOps F}.
  Notation K := (M (kst F)).

(** * Access to user memory from the kernel, through the current page table

    A present page can be read; a write needs PTE_W too, since the kernel runs
    with CR0_WP. Anything else is a page fault in kernel mode. *)

Definition ucell (m : memory) (pgdir va : Z) (write : bool) : option Z :=
  let e := aspace m pgdir va in
  if tst e PTE_P && (negb write || tst e PTE_W)
  then Some (P2V (PTE_ADDR e) + va mod PGSIZE) else None.

Fixpoint uread (m : memory) (pgdir va : Z) (n : nat) : option (list Z) :=
  match n with
  | O => Some []
  | S n => a ← ucell m pgdir va false; l ← uread m pgdir (va + 1) n; Some (ld8 m a :: l)
  end.

Fixpoint uwrite (m : memory) (pgdir va : Z) (l : list Z) : option memory :=
  match l with
  | [] => Some m
  | c :: l => a ← ucell m pgdir va true; uwrite (st8 m a c) pgdir (va + 1) l
  end.

(** * Page-table entries *)

Definition walk (pgdir va : Z) : K Z := liftk (walkpgdir pgdir va false).

(** [*pte] for the result of walkpgdir; a null pointer is a fault. *)
Definition ldpte (pte : Z) : K Z := if pte =? 0 then fault else rd32 pte.

Definition page_in (u_va va pgdir : Z) : K unit :=
  p ← myproc;
  pte ← walk pgdir u_va;
  if pte =? 0 then panic "page pte is not found" else
  e ← rd32 pte;
  wr32 pte (Z.lor e (Z.lor (Z.lor PTE_P PTE_W) PTE_U));;
  modproc p (λ p, set_p_protected (s32 (p_protected p - 1)) p);;
  e ← rd32 pte;
  wr32 pte (clr e PTE_PG);;
  e ← rd32 pte;
  wr32 pte (Z.lor e va);;
  pr ← getproc p;
  lcr3 (V2P (p_pgdir pr)).

Definition page_out (va pgdir : Z) : K unit :=
  p ← myproc;
  pte ← walk pgdir va;
  if pte =? 0 then panic "pte is not found" else
  e ← rd32 pte;
  wr32 pte (Z.lor e PTE_PG);;
  e ← rd32 pte;
  wr32 pte (clr e PTE_P);;
  e ← rd32 pte;
  wr32 pte (Z.land e (PTE_FLAGS e));;
  modproc p (λ p, set_p_protected (s32 (p_protected p + 1)) p);;
  pr ← getproc p;
  lcr3 (V2P (p_pgdir pr)).

Definition turn_flag (va flag : Z) (on : bool) : K unit :=
  p ← myproc;
  pr ← getproc p;
  pte ← walk (p_pgdir pr) va;
  if pte =? 0 then panic "turn flag: no pte found" else
  e ← rd32 pte;
  wr32 pte (if on then Z.lor e flag else clr e flag);;
  lcr3 (V2P (p_pgdir pr)).

Definition is_flag_on (va flag : Z) : K bool :=
  p ← myproc;
  pr ← getproc p;
  pte ← walk (p_pgdir pr) va;
  if pte =? 0 then panic "turn flag: no pte found" else
  e ← rd32 pte;
  mret (tst e flag).

Definition update_protected_pages (up : bool) : K unit :=
  p ← myproc;
  modproc p (λ p, set_p_protected (s32 (p_protected p + (if up then 1 else -1))) p).

(** * The pages a process has in memory *)

Definition get_free_ram_idx : K Z :=
  p ← myproc;
  pr ← getproc p;
  mret (idx_or_neg (find_idx (λ m, pm_used m =? 0) (p_ram_monitor pr))).

Definition set_ram (i : Z) (f : p_monitor → p_monitor) (p : proc) : proc :=
  set_p_ram_monitor (alter f (Z.to_nat i) (p_ram_monitor p)) p.

Definition add2ram (pgdir p_va : Z) : K unit :=
  p ← myproc;
  idx ← get_free_ram_idx;
  if idx <? 0 then mret tt else
  modproc p (set_ram idx (λ m, mk_pm 1 pgdir p_va (pm_place m)));;
  modproc p (λ p, set_p_last_in_queue (s32 (p_last_in_queue p + 1)) p);;
  pr ← getproc p;
  modproc p (set_ram idx (set_pm_place (p_last_in_queue pr))).

(** The scan of select_LIFO from index [idx]. *)
Fixpoint lifo_scan (l : list p_monitor) (idx ret last : Z) : Z :=
  match l with
  | [] => ret
  | m :: l => if (last <? pm_place m) && (pm_used m =? 1)
              then lifo_scan l (idx + 1) idx (pm_place m)
              else lifo_scan l (idx + 1) ret last
  end.

Definition select_LIFO : K Z :=
  p ← myproc;
  pr ← getproc p;
  mret (lifo_scan (p_ram_monitor pr) 0 (-1) 0).

(** The scan of select_SCFIFO. *)
Fixpoint fifo_scan (l : list p_monitor) (idx ret first : Z) : Z :=
  match l with
  | [] => ret
  | m :: l => if (pm_place m <=? first) && (pm_used m =? 1)
              then fifo_scan l (idx + 1) idx (pm_place m)
              else fifo_scan l (idx + 1) ret first
  end.

(** The rounds of select_SCFIFO. *)
Fixpoint scfifo_loop (fuel : nat) : K Z :=
  p ← myproc;
  pr ← getproc p;
  let ret := fifo_scan (p_ram_monitor pr) 0 (-1) 0x7FFFFFFF in
  m ← oget (nthZ (p_ram_monitor pr) ret);
  pte ← walk (pm_pgdir m) (pm_va m);
  e ← ldpte pte;
  if tst (PTE_FLAGS e) PTE_A then
    wr32 pte (clr e PTE_A);;
    modproc p (λ p, set_p_last_in_queue (s32 (p_last_in_queue p + 1)) p);;
    pr ← getproc p;
    modproc p (set_ram ret (set_pm_place (p_last_in_queue pr)));;
    match fuel with
    | O => nofuel
    | S fuel => scfifo_loop fuel
    end
  else mret ret.

(** Sixteen rounds that clear a bit and one that finds none suffice. *)
Definition select_SCFIFO : K Z := scfifo_loop 16.

Definition replace_page_by_policy : K Z :=
  match selection with
  | LIFO => select_LIFO
  | SCFIFO => select_SCFIFO
  | NONE => panic "invalid policy!"
  end.

Definition select_NONE : bool := match selection with NONE => true | _ => false end.

(** * The swap file (fs.c) *)

Definition writeToSwapFile (p : nat) (buffer : list Z) (placeOnFile : Z) : K Z :=
  pr ← getproc p;
  if p_swapFile pr =? 0 then fault else
  liftf (fs_set_off (p_swapFile pr) placeOnFile);;
  liftf (fs_filewrite (p_swapFile pr) buffer).

Definition readFromSwapFile (p : nat) (placeOnFile size : Z) : K (Z * list Z) :=
  pr ← getproc p;
  if p_swapFile pr =? 0 then fault else
  liftf (fs_set_off (p_swapFile pr) placeOnFile);;
  liftf (fs_fileread (p_swapFile pr) size).

Definition get_swap_idx : K Z :=
  p ← myproc;
  pr ← getproc p;
  mret (idx_or_neg (find_idx (λ m, pm_used m =? 0) (p_swap_monitor pr))).

Definition set_swap (i : Z) (f : p_monitor → p_monitor) (p : proc) : proc :=
  set_p_swap_monitor (alter f (Z.to_nat i) (p_swap_monitor p)) p.

(** The page is read at the user address [p_va], in the current address space. *)
Definition write2file (p_va pgdir : Z) : K Z :=
  swap_idx ← get_swap_idx;
  if swap_idx <? 0 then mret (-1) else
  p ← myproc;
  s ← get;
  data ← oget (uread (mem (km s)) (P2V (cr3 s)) p_va (Z.to_nat PGSIZE));
  success ← writeToSwapFile p data (PGSIZE * swap_idx);
  if success <? 0 then mret (-1) else
  modproc p (set_swap swap_idx (λ _, mk_pm 1 pgdir p_va 0));;
  mret success.

(** Where read_page_from_disk stores the page: at a user address or in [buff]. *)
Inductive dest := ToUser (va : Z) | ToBuff.

Definition store_page (d : dest) (data : list Z) : K unit :=
  match d with
  | ToUser va =>
      s ← get;
      m ← oget (uwrite (mem (km s)) (P2V (cr3 s)) va data);
      liftk (modify (set_mem m))
  | ToBuff => modify (λ s, set_vbuff (data ++ drop (length data) (vbuff s)) s)
  end.

(** The loop looks at every slot's address, used or not. *)
Definition read_page_from_disk (p : nat) (ram_idx p_va : Z) (buff : dest) : K Z :=
  pr ← getproc p;
  match find_idx (λ m, pm_va m =? p_va) (p_swap_monitor pr) with
  | None => mret (-1)
  | Some i =>
      '(r, data) ← readFromSwapFile p (Z.of_nat i * PGSIZE) PGSIZE;
      if r <? 0 then mret (-1) else
      store_page buff data;;
      m ← oget (p_swap_monitor pr !! i);
      modproc p (set_ram ram_idx (λ _, m));;
      modproc p (set_swap (Z.of_nat i) (set_pm_used 0));;
      modproc p (λ p, set_p_last_in_queue (s32 (p_last_in_queue p + 1)) p);;
      pr ← getproc p;
      modproc p (set_ram ram_idx (set_pm_place (p_last_in_queue pr)));;
      mret 1
  end.

Definition swap (pgdir p_va : Z) : K unit :=
  p ← myproc;
  modproc p (λ p, set_p_pages_in_file (s32 (p_pages_in_file p + 1)) p);;
  ram_idx ← replace_page_by_policy;
  pr ← getproc p;
  m ← oget (nthZ (p_ram_monitor pr) ram_idx);
  pte ← walk (pm_pgdir m) (pm_va m);
  e ← ldpte pte;
  let p_pa := PTE_ADDR e in
  write2file (pm_va m) (pm_pgdir m);;
  liftk (kfree (P2V p_pa));;
  modproc p (set_ram ram_idx (set_pm_used 0));;
  page_out (pm_va m) (pm_pgdir m);;
  add2ram pgdir p_va.

Definition page_from_disk (va : Z) : K Z :=
  p ← myproc;
  modproc p (λ p, set_p_page_fault_counter (s32 (p_page_fault_counter p + 1)) p);;
  let p_va := PGROUNDDOWN va in
  np ← liftk kalloc;
  if np =? 0 then fault else
  memset_k np 0 PGSIZE;;
  free_ram_idx ← get_free_ram_idx;
  if 0 <=? free_ram_idx then
    pr ← getproc p;
    page_in p_va (V2P np) (p_pgdir pr);;
    read_page_from_disk p free_ram_idx p_va (ToUser p_va);;
    mret 1
  else
  modproc p (λ p, set_p_pages_in_file (s32 (p_pages_in_file p + 1)) p);;
  ram_idx ← replace_page_by_policy;
  pr ← getproc p;
  page ← oget (nthZ (p_ram_monitor pr) ram_idx);
  page_in p_va (V2P np) (p_pgdir pr);;
  read_page_from_disk p ram_idx p_va ToBuff;;
  pte ← walk (pm_pgdir page) (pm_va page);
  if pte =? 0 then mret (-1) else
  e ← rd32 pte;
  let va1 := PTE_ADDR e in
  s ← get;
  liftk (modify (λ k, set_mem (st_bytes (mem k) np (take (Z.to_nat PGSIZE) (vbuff s))) k));;
  write2file (pm_va page) (pm_pgdir page);;
  page_out (pm_va page) (pm_pgdir page);;
  liftk (kfree (P2V va1));;
  mret 1.
End vm.

Lemma uread_bytes m pgdir va n d :
  uread m pgdir va n = Some d → length d = n ∧ Forall (λ b, 0 ≤ b < 256) d.
Proof.
  revert va d. induction n as [|n IH]; intros va d; cbn [uread]; [intros [= <-]; by split|].
  destruct (ucell m pgdir va false) as [a|]; cbn; [|done].
  destruct (uread m pgdir (va + 1) n) as [l|] eqn:E; cbn; [|done]. intros [= <-].
  destruct (IH _ _ E) as [Hl Hb]. cbn. split; [by rewrite Hl|]. constructor; [apply ld8_range|done].
Qed.
