(* ===== verification/Uvm.v ===== *)
(** Address spaces (vm.c): the kernel's mappings, growing and shrinking a
    process, copying and freeing its memory, and copying into it. *)
From Stdlib Require Import ZArith Lia Bool.
From stdpp Require Import base tactics list strings.
From S2P Require Import Prelude Machine CString Format Kalloc PageTable Locks State Vm.

Section uvm.
  Context {KI : KernelImage} {CF : Config} {CP : Cpus} {F : Type} {FS : FsOps F}.
  Notation K := (M (kst F)).

(** * The kernel's mappings *)

Record kmap_entry := mk_kmap { k_virt : Z; k_phys_start : Z; k_phys_end : Z; k_perm : Z }.

Definition kmap : list kmap_entry :=
  [ mk_kmap KERNBASE 0 EXTMEM PTE_W;
    mk_kmap KERNLINK (V2P KERNLINK) (V2P kdata) 0;
    mk_kmap kdata (V2P kdata) PHYSTOP PTE_W;
    mk_kmap DEVSPACE DEVSPACE 0 PTE_W ].

(** * Shrinking and freeing *)

(** Forget the page [a] of [pgdir] in the table of pages in memory. *)
Definition release_ram (pgdir a : Z) (p : proc) : proc :=
  set_p_ram_monitor
    ((λ m, if (pm_used m =? 1) && (pm_va m =? a) && (pm_pgdir m =? pgdir) then set_pm_used 0 m else m)
     <$> p_ram_monitor p) p.

(** The loop of deallocuvm. *)
Fixpoint dealloc_loop (fuel : nat) (pgdir a oldsz : Z) : K unit :=
  if oldsz <=? a then mret tt else
  match fuel with
  | O => nofuel
  | S fuel =>
      pte ← walk pgdir a;
      if pte =? 0 then
        let a := u32 (PGADDR (PDX a + 1) 0 0 - PGSIZE) in
        dealloc_loop fuel pgdir (u32 (a + PGSIZE)) oldsz
      else
        e ← rd32 pte;
        (if tst e PTE_P then
           let pa := PTE_ADDR e in
           if pa =? 0 then panic "kfree" else
           liftk (kfree (P2V pa));;
           when (negb select_NONE) (p ← myproc; modproc p (release_ram pgdir a));;
           wr32 pte 0
         else mret tt);;
        dealloc_loop fuel pgdir (u32 (a + PGSIZE)) oldsz
  end.

(** One round per page suffices. *)
Definition deallocuvm (pgdir oldsz newsz : Z) : K Z :=
  if oldsz <=? newsz then mret oldsz else
  let a := PGROUNDUP newsz in
  dealloc_loop (Z.to_nat ((oldsz - a) / PGSIZE + 1)) pgdir a oldsz;;
  mret newsz.

(** The second loop of freevm, from directory slot [i]. *)
Fixpoint free_tables (n : nat) (pgdir i : Z) : K unit :=
  match n with
  | O => mret tt
  | S n =>
      e ← rd32 (pgdir + 4 * i);
      (if tst e PTE_P then liftk (kfree (P2V (PTE_ADDR e))) else mret tt);;
      free_tables n pgdir (i + 1)
  end.

Definition freevm (pgdir : Z) : K unit :=
  if pgdir =? 0 then panic "freevm: no pgdir" else
  deallocuvm pgdir KERNBASE 0;;
  free_tables (Z.to_nat NPDENTRIES) pgdir 0;;
  liftk (kfree pgdir).

(** The loop of setupkvm over the rest of kmap. *)
Fixpoint setup_loop (ks : list kmap_entry) (pgdir : Z) : K Z :=
  match ks with
  | [] => mret pgdir
  | k :: ks =>
      r ← liftk (mappages pgdir (k_virt k) (u32 (k_phys_end k - k_phys_start k)) (k_phys_start k) (k_perm k));
      if r <? 0 then freevm pgdir;; mret 0 else setup_loop ks pgdir
  end.

Definition setupkvm : K Z :=
  pgdir ← liftk kalloc;
  if pgdir =? 0 then mret 0 else
  memset_k pgdir 0 PGSIZE;;
  if DEVSPACE <? P2V PHYSTOP then panic "PHYSTOP too high" else
  setup_loop kmap pgdir.

Definition switchkvm : K unit := d ← gets kpgdir; lcr3 (V2P d).

Definition kvmalloc : K unit := d ← setupkvm; modify (set_kpgdir d);; switchkvm.

(** Of the task-state segment only the kernel stack pointer changes from one
    process to the next. *)
Definition switchuvm (p : option nat) : K unit :=
  match p with
  | None => panic "switchuvm: no process"
  | Some i =>
      pr ← getproc i;
      if p_kstack pr =? 0 then panic "switchuvm: no kstack" else
      if p_pgdir pr =? 0 then panic "switchuvm: no pgdir" else
      on_cpu pushcli;;
      modify (set_ts_esp0 (p_kstack pr + KSTACKSIZE));;
      lcr3 (V2P (p_pgdir pr));;
      on_cpu popcli
  end.

(** * Filling an address space *)

Definition inituvm (pgdir : Z) (init : list Z) : K unit :=
  if PGSIZE <=? Z.of_nat (length init) then panic "inituvm: more than a page" else
  m ← liftk kalloc;
  if m =? 0 then fault else
  memset_k m 0 PGSIZE;;
  liftk (mappages pgdir 0 PGSIZE (V2P m) (Z.lor PTE_W PTE_U));;
  liftk (modify (λ s, set_mem (st_bytes (mem s) m init) s)).

(** The loop of loaduvm; one round per page. *)
Fixpoint load_loop (fuel : nat) (pgdir addr ip offset i sz : Z) : K Z :=
  if sz <=? i then mret 0 else
  match fuel with
  | O => nofuel
  | S fuel =>
      pte ← walk pgdir (u32 (addr + i));
      if pte =? 0 then panic "loaduvm: address should exist" else
      e ← rd32 pte;
      let pa := PTE_ADDR e in
      let n := if sz - i <? PGSIZE then sz - i else PGSIZE in
      '(r, data) ← liftf (fs_readi ip (u32 (offset + i)) n);
      liftk (modify (λ s, set_mem (st_bytes (mem s) (P2V pa) data) s));;
      if negb (r =? n) then mret (-1) else
      load_loop fuel pgdir addr ip offset (i + PGSIZE) sz
  end.

Definition loaduvm (pgdir addr ip offset sz : Z) : K Z :=
  if negb (addr mod PGSIZE =? 0) then panic "loaduvm: addr must be page aligned" else
  load_loop (Z.to_nat (sz / PGSIZE + 1)) pgdir addr ip offset 0 sz.

(** The loop of allocuvm; [i] counts the pages it has allocated. *)
Fixpoint alloc_loop (fuel : nat) (pgdir a oldsz newsz i : Z) : K Z :=
  if newsz <=? a then mret newsz else
  match fuel with
  | O => nofuel
  | S fuel =>
      m ← liftk kalloc;
      let i := i + 1 in
      if m =? 0 then deallocuvm pgdir newsz oldsz;; mret 0 else
      memset_k m 0 PGSIZE;;
      liftk (mappages pgdir a PGSIZE (V2P m) (Z.lor PTE_W PTE_U));;
      p ← myproc;
      pr ← getproc p;
      (if (2 <? p_pid pr) && negb select_NONE then
         if PGROUNDUP oldsz / PGSIZE + i <=? MAX_PYSC_PAGES then add2ram pgdir a
         else swap pgdir a
       else mret tt);;
      alloc_loop fuel pgdir (u32 (a + PGSIZE)) oldsz newsz i
  end.

Definition allocuvm (pgdir oldsz newsz : Z) : K Z :=
  if KERNBASE <=? newsz then mret 0 else
  if newsz <? oldsz then mret oldsz else
  let a := PGROUNDUP oldsz in
  alloc_loop (Z.to_nat ((newsz - a) / PGSIZE + 1)) pgdir a oldsz newsz 0.

Definition clearpteu (pgdir uva : Z) : K unit :=
  pte ← walk pgdir uva;
  if pte =? 0 then panic "clearpteu" else
  e ← rd32 pte;
  wr32 pte (clr e PTE_U).

(** The loop of copyuvm: [false] is the jump to [bad]. *)
Fixpoint copy_loop (fuel : nat) (d pgdir i sz : Z) : K bool :=
  if sz <=? i then mret true else
  match fuel with
  | O => nofuel
  | S fuel =>
      pte ← walk pgdir i;
      if pte =? 0 then panic "copyuvm: pte should exist" else
      e ← rd32 pte;
      if negb (tst e PTE_P) then panic "copyuvm: page not present" else
      if tst e PTE_PG then page_out i d;; copy_loop fuel d pgdir (u32 (i + PGSIZE)) sz
      else
        let pa := PTE_ADDR e in
        let flags := PTE_FLAGS e in
        m ← liftk kalloc;
        if m =? 0 then mret false else
        liftk (modify (λ s, set_mem (memmove (mem s) m (P2V pa) PGSIZE) s));;
        r ← liftk (mappages d i PGSIZE (V2P m) flags);
        if r <? 0 then mret false else
        copy_loop fuel d pgdir (u32 (i + PGSIZE)) sz
  end.

Definition copyuvm (pgdir sz : Z) : K Z :=
  d ← setupkvm;
  if d =? 0 then mret 0 else
  ok ← copy_loop (Z.to_nat (sz / PGSIZE + 1)) d pgdir 0 sz;
  if ok : bool then mret d else freevm d;; mret 0.

(** * Copying into an address space *)

Definition uva2ka (pgdir uva : Z) : K Z :=
  pte ← walk pgdir uva;
  e ← ldpte pte;
  if negb (tst e PTE_P) then mret 0 else
  if negb (tst e PTE_U) then mret 0 else
  mret (P2V (PTE_ADDR e)).

(** The bytes to copy stand for the buffer and its length. *)
Fixpoint copyout_loop (fuel : nat) (pgdir va : Z) (buf : list Z) : K Z :=
  match buf with
  | [] => mret 0
  | _ =>
    match fuel with
    | O => nofuel
    | S fuel =>
        let va0 := PGROUNDDOWN va in
        pa0 ← uva2ka pgdir va0;
        if pa0 =? 0 then mret (-1) else
        let n := Z.min (PGSIZE - (va - va0)) (Z.of_nat (length buf)) in
        liftk (modify (λ s, set_mem (st_bytes (mem s) (pa0 + (va - va0)) (take (Z.to_nat n) buf)) s));;
        copyout_loop fuel pgdir (u32 (va0 + PGSIZE)) (drop (Z.to_nat n) buf)
    end
  end.

Definition copyout (pgdir va : Z) (buf : list Z) : K Z := copyout_loop (length buf) pgdir va buf.
End uvm.
