(* ===== verification/Paging.v ===== *)
(** The paging framework proved: the page-replacement policies, the entries that
    page_in and page_out leave, the swap slots, and what happens to a page on its
    way out of memory and back. *)
From Stdlib Require Import ZArith Lia Bool FunctionalExtensionality.
From stdpp Require Import base tactics list strings sets sorting.
From S2P Require Import Prelude Machine CString Format Kalloc PageTable Locks State Vm Uvm.

(** * Running the operations of the kernel state *)

Section steps.
  Context {KI : KernelImage} {F : Type}.
  Implicit Types s : kst F.

Lemma myproc_eq s p : cur s = Some p → myproc s = Ok (p, s).
Proof. intros H. unfold myproc. munfold. by rewrite H. Qed.

Lemma getproc_eq s p pr : procs s !! p = Some pr → getproc p s = Ok (pr, s).
Proof. intros H. unfold getproc. munfold. by rewrite H. Qed.

Definition upd_proc (p : nat) (pr : proc) (s : kst F) : kst F := set_procs (<[p := pr]> (procs s)) s.

Lemma modproc_eq s p pr f : procs s !! p = Some pr → modproc p f s = Ok (tt, upd_proc p (f pr) s).
Proof. intros H. unfold modproc. munfold. by rewrite H. Qed.

Definition upd_mem (m : memory) (s : kst F) : kst F := set_km (set_mem m (km s)) s.

Lemma wr32_eq a v s : wr32 a v s = Ok (tt, upd_mem (st32 (mem (km s)) a v) s).
Proof. done. Qed.

Lemma rd32_eq a s : rd32 a s = Ok (ld32 (mem (km s)) a, s).
Proof. unfold rd32, liftk, zoom, gets. by destruct s. Qed.

Lemma liftk_Ok {A} (m : M kmst A) s a k : m (km s) = Ok (a, k) → liftk m s = Ok (a, set_km k s).
Proof. intros H. unfold liftk, zoom. by rewrite H. Qed.

Lemma walk_eq pgdir va s :
  pde_present (mem (km s)) pgdir (PDX va) = true →
  walk pgdir va s = Ok (pte_addr (mem (km s)) pgdir va, s).
Proof.
  intros H. unfold walk. rewrite (liftk_Ok _ _ (pte_addr (mem (km s)) pgdir va) (km s)); [by destruct s|].
  by apply walk_found.
Qed.

Lemma walk_eq_none pgdir va s :
  pde_present (mem (km s)) pgdir (PDX va) = false → walk pgdir va s = Ok (0, s).
Proof.
  intros H. unfold walk. rewrite (liftk_Ok _ _ 0 (km s)); [by destruct s|]. by apply walk_none.
Qed.

Lemma pte_addr_aspace m pgdir va :
  pde_present m pgdir (PDX va) = true → ld32 m (pte_addr m pgdir va) = aspace m pgdir va.
Proof. intros H. unfold aspace. by rewrite H. Qed.

Lemma procs_upd p pr s : (p < length (procs s))%nat → procs (upd_proc p pr s) !! p = Some pr.
Proof. intros H. cbn. by apply list_lookup_insert_eq. Qed.

Lemma upd_proc_twice p a b s : upd_proc p a (upd_proc p b s) = upd_proc p a s.
Proof. unfold upd_proc. destruct s; cbn. by rewrite list_insert_insert_eq. Qed.
End steps.

(** Storing in an entry keeps the directory, and the other entries. *)
Lemma pde_present_store `{KernelImage} m pgdir l va v d :
  wf_pgdir m pgdir l → pde_present m pgdir (PDX va) = true → 0 ≤ d < 1024 →
  pde_at (st32 m (pte_addr m pgdir va) v) pgdir d = pde_at m pgdir d.
Proof.
  intros Hwf Hp Hd. destruct (wp_table _ _ _ Hwf _ (PDX_range va) Hp) as (Hg & Hne & _).
  pose proof (good_page_disjoint _ _ Hg (wp_dir _ _ _ Hwf) Hne) as Hdis.
  pose proof (PTX_range va). apply pde_at_frame; [done|]. intros b Hb.
  unfold pte_addr, PGSIZE in *. apply ld8_st32_ne. lia.
Qed.

(** * The scans of the table of pages in memory *)

Lemma fifo_scan_none l idx ret first :
  (∀ i e, l !! i = Some e → pm_used e = 1 → first < pm_place e) → fifo_scan l idx ret first = ret.
Proof.
  revert idx. induction l as [|e l IH]; intros idx H; cbn; [done|].
  rewrite IH by (intros i e' Hi; apply (H (S i) e' Hi)).
  destruct (Z.leb_spec (pm_place e) first), (Z.eqb_spec (pm_used e) 1); cbn; try done.
  pose proof (H 0%nat e eq_refl). lia.
Qed.

(** The scan finds the used entry that is older than all the others. *)
Lemma fifo_scan_min l : ∀ idx ret first i e,
  l !! i = Some e → pm_used e = 1 → pm_place e ≤ first →
  (∀ j e', l !! j = Some e' → j ≠ i → pm_used e' = 1 → pm_place e < pm_place e') →
  fifo_scan l idx ret first = idx + Z.of_nat i.
Proof.
  induction l as [|h l IH]; intros idx ret first i e Hi Hu Hf Hmin; [done|]. cbn.
  destruct i as [|i]; cbn in Hi.
  - simplify_eq. rewrite (proj2 (Z.leb_le _ _) Hf), (proj2 (Z.eqb_eq _ _) Hu). cbn.
    rewrite fifo_scan_none; [lia|]. intros j e' Hj Hu'. apply (Hmin (S j) e'); done.
  - assert (Hmin' : ∀ j e', l !! j = Some e' → j ≠ i → pm_used e' = 1 → pm_place e < pm_place e').
    { intros j e' Hj Hne. apply (Hmin (S j) e'); [done|lia]. }
    destruct (Z.leb_spec (pm_place h) first), (Z.eqb_spec (pm_used h) 1); cbn.
    2-4: rewrite (IH _ _ _ i e); done || lia.
    pose proof (Hmin 0%nat h eq_refl ltac:(lia) ltac:(done)).
    rewrite (IH _ _ _ i e); done || lia.
Qed.

Lemma lifo_scan_none l idx ret last :
  (∀ i e, l !! i = Some e → pm_used e = 1 → pm_place e ≤ last) → lifo_scan l idx ret last = ret.
Proof.
  revert idx. induction l as [|e l IH]; intros idx H; cbn; [done|].
  rewrite IH by (intros i e' Hi; apply (H (S i) e' Hi)).
  destruct (Z.ltb_spec last (pm_place e)), (Z.eqb_spec (pm_used e) 1); cbn; try done.
  pose proof (H 0%nat e eq_refl). lia.
Qed.

(** The scan finds the used entry that is younger than all the others. *)
Lemma lifo_scan_max l : ∀ idx ret last i e,
  l !! i = Some e → pm_used e = 1 → last < pm_place e →
  (∀ j e', l !! j = Some e' → j ≠ i → pm_used e' = 1 → pm_place e' < pm_place e) →
  lifo_scan l idx ret last = idx + Z.of_nat i.
Proof.
  induction l as [|h l IH]; intros idx ret last i e Hi Hu Hf Hmax; [done|]. cbn.
  destruct i as [|i]; cbn in Hi.
  - simplify_eq. rewrite (proj2 (Z.ltb_lt _ _) Hf), (proj2 (Z.eqb_eq _ _) Hu). cbn.
    rewrite lifo_scan_none; [lia|]. intros j e' Hj Hu'.
    pose proof (Hmax (S j) e' Hj ltac:(lia) Hu'). lia.
  - assert (Hmax' : ∀ j e', l !! j = Some e' → j ≠ i → pm_used e' = 1 → pm_place e' < pm_place e).
    { intros j e' Hj Hne. apply (Hmax (S j) e'); [done|lia]. }
    destruct (Z.ltb_spec last (pm_place h)), (Z.eqb_spec (pm_used h) 1); cbn.
    2-4: rewrite (IH _ _ _ i e); done || lia.
    pose proof (Hmax 0%nat h eq_refl ltac:(lia) ltac:(done)).
    rewrite (IH _ _ _ i e); done || lia.
Qed.

(** * The queue of the pages in memory

    The table with its counter stands for a queue of its used entries, the
    oldest first. *)

Definition place (ram : list p_monitor) (i : nat) : Z := default 0 (pm_place <$> ram !! i).

Record is_queue (ram : list p_monitor) (last : Z) (q : list nat) : Prop := {
  iq_nodup : NoDup q;
  iq_elem : ∀ i, i ∈ q ↔ ∃ e, ram !! i = Some e ∧ pm_used e = 1;
  iq_sorted : StronglySorted (λ i j, place ram i < place ram j) q;
  iq_places : ∀ i, i ∈ q → 0 < place ram i ≤ last }.

Lemma queue_head_min ram last v q i e :
  is_queue ram last (v :: q) → ram !! i = Some e → i ≠ v → pm_used e = 1 → place ram v < place ram i.
Proof.
  intros [Hn He Hs _] Hi Hne Hu. apply StronglySorted_inv in Hs as [_ Hs].
  rewrite Forall_forall in Hs. apply Hs.
  assert (i ∈ v :: q) as [->|]%elem_of_cons by (apply He; eauto); done.
Qed.

Lemma place_lookup ram i e : ram !! i = Some e → place ram i = pm_place e.
Proof. intros H. unfold place. by rewrite H. Qed.

(** The scan of select_SCFIFO finds the head of the queue. *)
Lemma fifo_scan_head ram last v q :
  is_queue ram last (v :: q) → last ≤ 0x7FFFFFFF →
  fifo_scan ram 0 (-1) 0x7FFFFFFF = Z.of_nat v.
Proof.
  intros Hq Hl. destruct (proj1 (iq_elem _ _ _ Hq v)) as (e & Hv & Hu); [set_solver|].
  pose proof (iq_places _ _ _ Hq v ltac:(set_solver)) as Hp. rewrite (place_lookup _ _ _ Hv) in Hp.
  rewrite (fifo_scan_min _ _ _ _ v e); [lia|done|done|lia|].
  intros j e' Hj Hne Hu'. pose proof (queue_head_min _ _ _ _ _ _ Hq Hj Hne Hu') as H.
  by rewrite (place_lookup _ _ _ Hv), (place_lookup _ _ _ Hj) in H.
Qed.

Lemma StronglySorted_ext {A} (R R' : A → A → Prop) l :
  (∀ a b, a ∈ l → b ∈ l → R a b → R' a b) → StronglySorted R l → StronglySorted R' l.
Proof.
  induction l as [|a l IH]; intros HR Hs; [constructor|]. apply StronglySorted_inv in Hs as [Hs Ha].
  rewrite Forall_forall in Ha. constructor.
  - apply IH; [|done]. intros x y Hx Hy. apply HR; by right.
  - rewrite Forall_forall. intros b Hb. apply HR; [by left|by right|auto].
Qed.

(** The head moves to the back when it is given the next place. *)
Lemma queue_rotate ram last v q :
  is_queue ram last (v :: q) →
  is_queue (alter (set_pm_place (last + 1)) v ram) (last + 1) (q ++ [v]).
Proof.
  intros [Hn He Hs Hp]. apply NoDup_cons in Hn as [Hv Hn]. apply StronglySorted_inv in Hs as [Hs Hm].
  destruct (proj1 (He v)) as (ev & Hev & Huv); [set_solver|].
  assert (Hpl : ∀ i, i ≠ v → place (alter (set_pm_place (last + 1)) v ram) i = place ram i).
  { intros i Hi. unfold place. by rewrite list_lookup_alter_ne. }
  assert (Hpv : place (alter (set_pm_place (last + 1)) v ram) v = last + 1).
  { unfold place. by rewrite list_lookup_alter_eq, Hev. }
  split.
  - apply NoDup_app. split; [done|]. split; [set_solver|apply NoDup_singleton].
  - intros i. transitivity (i ∈ v :: q); [set_solver|]. rewrite He.
    destruct (decide (i = v)) as [->|Hne]; [|by rewrite list_lookup_alter_ne].
    rewrite list_lookup_alter_eq, Hev. cbn. naive_solver.
  - apply StronglySorted_app_2.
    + intros i j Hi Hj%list_elem_of_singleton. subst. rewrite Hpv, Hpl by set_solver.
      pose proof (Hp i ltac:(set_solver)). lia.
    + eapply StronglySorted_ext; [|done]. cbn. intros a b Ha Hb. rewrite !Hpl by set_solver. done.
    + repeat constructor.
  - intros i Hi. assert (i ∈ v :: q) by set_solver. pose proof (Hp i ltac:(done)).
    destruct (decide (i = v)) as [->|Hne]; [rewrite Hpv|rewrite Hpl by done]; lia.
Qed.

(** * Flags of an entry *)

(** A number is below a power of two when its high bits are off. *)
Lemma testbit_high x n k : 0 ≤ x < 2 ^ n → n ≤ k → Z.testbit x k = false.
Proof.
  intros Hx Hk. destruct (Z.eq_dec x 0) as [->|]; [apply Z.bits_0|].
  apply Z.bits_above_log2; [lia|]. assert (Z.log2 x < n) by (apply Z.log2_lt_pow2; lia). lia.
Qed.

Lemma bits_bound x n : 0 ≤ n → (∀ k, n ≤ k → Z.testbit x k = false) → 0 ≤ x < 2 ^ n.
Proof.
  intros Hn H. replace x with (x mod 2 ^ n); [apply Z.mod_pos_bound; lia|].
  apply Z.bits_inj'. intros k Hk. destruct (Z.lt_ge_cases k n).
  - by apply Z.mod_pow2_bits_low.
  - rewrite Z.mod_pow2_bits_high by lia. by rewrite H.
Qed.

Lemma clr_bound x f n : 0 ≤ n → 0 ≤ x < 2 ^ n → 0 ≤ clr x f < 2 ^ n.
Proof.
  intros Hn H. apply bits_bound; [done|]. intros k Hk. unfold clr.
  by rewrite Z.land_spec, (testbit_high x n).
Qed.

Lemma clr_range x f : 0 ≤ x < 2 ^ 32 → 0 ≤ clr x f < 2 ^ 32.
Proof. by apply clr_bound. Qed.

Lemma lor_bound a b n : 0 ≤ n → 0 ≤ a < 2 ^ n → 0 ≤ b < 2 ^ n → 0 ≤ Z.lor a b < 2 ^ n.
Proof.
  intros Hn Ha Hb. apply bits_bound; [done|]. intros k Hk.
  by rewrite Z.lor_spec, (testbit_high a n), (testbit_high b n).
Qed.

Lemma lor_range a b : 0 ≤ a < 2 ^ 32 → 0 ≤ b < 2 ^ 32 → 0 ≤ Z.lor a b < 2 ^ 32.
Proof. by apply lor_bound. Qed.

Lemma clr_clr x f : clr (clr x f) f = clr x f.
Proof. unfold clr. by rewrite <- Z.land_assoc, Z.land_diag. Qed.

Lemma clr_accessed x : 0 ≤ x < 2 ^ 32 → tst (PTE_FLAGS (clr x PTE_A)) PTE_A = false.
Proof.
  intros H. unfold PTE_FLAGS. rewrite u32_small by (by apply clr_range). unfold tst, clr.
  rewrite <- !Z.land_assoc. change (Z.land (u32 (Z.lnot PTE_A)) (Z.land 4095 PTE_A)) with 0.
  by rewrite Z.land_0_r.
Qed.

Lemma aspace_range m pgdir va : 0 ≤ aspace m pgdir va < 2 ^ 32.
Proof. unfold aspace. destruct (pde_present _ _ _); [apply ld32_range|lia]. Qed.

(** * Second chance *)

(** The abstract policy on a queue: the first page whose accessed bit is off is
    the victim; those before it lose the bit and go to the back, in order. When
    all have the bit, the oldest is the victim after all of them lost it. The
    result is the victim, the queue, and the pages that lost the bit. *)
Fixpoint second_chance (acc : nat → bool) (q skipped : list nat) : option (nat * list nat * list nat) :=
  match q with
  | [] => match skipped with [] => None | v :: _ => Some (v, skipped, skipped) end
  | v :: q => if acc v then second_chance acc q (skipped ++ [v])
              else Some (v, v :: q ++ skipped, skipped)
  end.

Section scfifo.
  Context {KI : KernelImage} {CF : Config} {F : Type} {FS : FsOps F}.
  Context (p : nat) (l : list Z).
  Implicit Types s : kst F.

(** The process's table describes pages of its own directory, each once. *)
Record ram_ok (k : kmst) (pr : proc) : Prop := {
  ro_kmem : wf_kmem k l;
  ro_wf : wf_pgdir (mem k) (p_pgdir pr) l;
  ro_entry : ∀ i e, p_ram_monitor pr !! i = Some e → pm_used e = 1 →
    pm_pgdir e = p_pgdir pr ∧ 0 ≤ pm_va e < KERNBASE ∧ pm_va e mod PGSIZE = 0 ∧
    pde_present (mem k) (p_pgdir pr) (PDX (pm_va e)) = true;
  ro_inj : ∀ i j e e', p_ram_monitor pr !! i = Some e → p_ram_monitor pr !! j = Some e' →
    pm_used e = 1 → pm_used e' = 1 → pm_va e = pm_va e' → i = j }.

Definition accessed (m : memory) (pr : proc) (i : nat) : bool :=
  match p_ram_monitor pr !! i with
  | Some e => tst (PTE_FLAGS (aspace m (p_pgdir pr) (pm_va e))) PTE_A
  | None => false
  end.

(** What an entry says besides its place in the queue. *)
Definition mon_key (e : p_monitor) : Z * Z * Z := (pm_used e, pm_pgdir e, pm_va e).

(** Nothing but accessed bits of used entries and places in the queue differ
    between [s] and [s'], whose current process is [pr'] instead of [pr]. *)
Record touched (s s' : kst F) (pr pr' : proc) : Prop := {
  tc_state : s' = upd_proc p pr' (upd_mem (mem (km s')) s);
  tc_proc : pr' = set_p_ram_monitor (p_ram_monitor pr') (set_p_last_in_queue (p_last_in_queue pr') pr);
  tc_keys : mon_key <$> p_ram_monitor pr' = mon_key <$> p_ram_monitor pr;
  tc_bits : ∀ va, 0 ≤ va < 2 ^ 32 →
    clr (aspace (mem (km s')) (p_pgdir pr) va) PTE_A = clr (aspace (mem (km s)) (p_pgdir pr) va) PTE_A;
  tc_pages : ∀ va, 0 ≤ va < 2 ^ 32 →
    (∀ i e, p_ram_monitor pr !! i = Some e → pm_used e = 1 → va / 4096 ≠ pm_va e / 4096) →
    aspace (mem (km s')) (p_pgdir pr) va = aspace (mem (km s)) (p_pgdir pr) va;
  tc_frame : ∀ b, off_pt (mem (km s)) (p_pgdir pr) b →
    ld8 (mem (km s')) b = ld8 (mem (km s)) b ∧ off_pt (mem (km s')) (p_pgdir pr) b }.

Lemma touched_refl s pr : procs s !! p = Some pr → touched s s pr pr.
Proof.
  intros H. split; try done.
  - unfold upd_proc, upd_mem. destruct s as [[] ? ps]; cbn in *. by rewrite list_insert_id.
  - by destruct pr.
Qed.

Lemma keys_lookup (r r' : list p_monitor) i e :
  mon_key <$> r' = mon_key <$> r → r !! i = Some e → ∃ e', r' !! i = Some e' ∧ mon_key e' = mon_key e.
Proof.
  intros Hk Hi. assert (H : (mon_key <$> r') !! i = Some (mon_key e)) by (by rewrite Hk, list_lookup_fmap, Hi).
  rewrite list_lookup_fmap in H. destruct (r' !! i) as [e'|]; cbn [fmap option_fmap option_map] in H; [|done].
  exists e'. split; [done|congruence].
Qed.

Lemma touched_trans s s1 s2 pr pr1 pr2 :
  touched s s1 pr pr1 → touched s1 s2 pr1 pr2 → touched s s2 pr pr2.
Proof.
  intros [A1 A2 A3 A4 A5 A6] [B1 B2 B3 B4 B5 B6].
  assert (Hpg : p_pgdir pr1 = p_pgdir pr) by (by rewrite A2).
  rewrite Hpg in *. split.
  - rewrite B1, A1. unfold upd_proc, upd_mem. destruct s; cbn. by rewrite list_insert_insert_eq.
  - rewrite B2, A2. done.
  - congruence.
  - intros va Hva. by rewrite B4, A4.
  - intros va Hva Hn. rewrite B5, A5; [done|done|done|done|].
    intros i e Hi Hu. destruct (keys_lookup (p_ram_monitor pr1) (p_ram_monitor pr) i e) as (e' & Hi' & Hk); [congruence|done|].
    injection Hk as Hk1 Hk2 Hk3. rewrite <- Hk3. eapply Hn; [done|congruence].
  - intros b Hb. destruct (A6 b Hb) as [E1 Hb1]. destruct (B6 b Hb1) as [E2 Hb2]. split; [congruence|done].
Qed.

(** The state after a round of select_SCFIFO that takes the accessed bit of the
    page of entry [v]. *)
Definition sc_proc (pr : proc) (v : nat) : proc :=
  let last := s32 (p_last_in_queue pr + 1) in
  set_ram (Z.of_nat v) (set_pm_place last) (set_p_last_in_queue last pr).

Definition sc_mem (m : memory) (pr : proc) (e : p_monitor) : memory :=
  st32 m (pte_addr m (p_pgdir pr) (pm_va e)) (clr (aspace m (p_pgdir pr) (pm_va e)) PTE_A).

Definition sc_touch (s : kst F) (pr : proc) (v : nat) (e : p_monitor) : kst F :=
  upd_proc p (sc_proc pr v) (upd_mem (sc_mem (mem (km s)) pr e) s).

Lemma scfifo_round fuel s pr v q e :
  cur s = Some p → procs s !! p = Some pr → ram_ok (km s) pr →
  is_queue (p_ram_monitor pr) (p_last_in_queue pr) (v :: q) → p_last_in_queue pr ≤ 0x7FFFFFFF →
  p_ram_monitor pr !! v = Some e → pm_used e = 1 →
  scfifo_loop fuel s =
  if accessed (mem (km s)) pr v
  then match fuel with O => NoFuel | S fuel => scfifo_loop fuel (sc_touch s pr v e) end
  else Ok (Z.of_nat v, s).
Proof.
  intros Hc Hp Hr Hq Hl He Hu. destruct (ro_entry _ _ Hr v e He Hu) as (Hpg & _ & _ & Hpd).
  assert (Hn : nthZ (p_ram_monitor pr) (Z.of_nat v) = Some e).
  { unfold nthZ. destruct (Z.ltb_spec (Z.of_nat v) 0); [lia|]. by rewrite Nat2Z.id. }
  pose proof (pte_addr_nonzero _ _ _ _ (ro_wf _ _ Hr) Hpd) as Hnz.
  unfold accessed. rewrite He. rewrite <- (pte_addr_aspace (mem (km s))) by done.
  assert (Hlen : (p < length (procs s))%nat) by (by eapply lookup_lt_Some).
  destruct fuel as [|fuel]; cbn [scfifo_loop].
  all: mrun (myproc_eq s p Hc); mrun (getproc_eq s p pr Hp).
  all: rewrite (fifo_scan_head _ _ _ _ Hq Hl), Hn; cbn [oget].
  all: change (mret (M:=M (kst F)) e ≫= ?f) with (f e); cbv beta; rewrite Hpg.
  all: mrun (walk_eq (F:=F) _ _ _ Hpd); unfold ldpte; rewrite (proj2 (Z.eqb_neq _ _) Hnz).
  all: mrun (rd32_eq (pte_addr (mem (km s)) (p_pgdir pr) (pm_va e)) s).
  all: destruct (tst _ PTE_A); [|done].
  all: mrun (wr32_eq (F:=F) (pte_addr (mem (km s)) (p_pgdir pr) (pm_va e))
    (clr (ld32 (mem (km s)) (pte_addr (mem (km s)) (p_pgdir pr) (pm_va e))) PTE_A) s).
  all: rewrite (bind_eq _ _ _ _ _ (modproc_eq (upd_mem _ s) p pr _ Hp)); cbv beta.
  all: rewrite (bind_eq _ _ _ _ _ (getproc_eq _ p _ (procs_upd p _ (upd_mem _ s) Hlen))); cbv beta.
  all: rewrite (bind_eq _ _ _ _ _ (modproc_eq _ p _ _ (procs_upd p _ (upd_mem _ s) Hlen))); cbv beta.
  all: rewrite upd_proc_twice.
  - done.
  - unfold sc_touch, sc_proc, sc_mem. by rewrite pte_addr_aspace.
Qed.

Lemma sc_lookup pr v i e' :
  p_ram_monitor (sc_proc pr v) !! i = Some e' →
  ∃ e, p_ram_monitor pr !! i = Some e ∧ mon_key e' = mon_key e.
Proof.
  cbn. rewrite Nat2Z.id. destruct (decide (i = v)) as [->|Hne].
  - rewrite list_lookup_alter_eq. destruct (p_ram_monitor pr !! v) as [e|]; cbn; [|done].
    intros [= <-]. by exists e.
  - rewrite list_lookup_alter_ne by done. eauto.
Qed.

(** The pages of two used entries are different pages. *)
Lemma ram_pages k pr i j e e' :
  ram_ok k pr → p_ram_monitor pr !! i = Some e → p_ram_monitor pr !! j = Some e' →
  pm_used e = 1 → pm_used e' = 1 → pm_va e / 4096 = pm_va e' / 4096 → i = j.
Proof.
  intros Hr Hi Hj Hu Hu' Hd. destruct (ro_entry _ _ Hr i e Hi Hu) as (_ & H1 & H2 & _).
  destruct (ro_entry _ _ Hr j e' Hj Hu') as (_ & H3 & H4 & _).
  eapply (ro_inj _ _ Hr i j e e'); try done. unfold PGSIZE in *.
  Z.to_euclidean_division_equations; lia.
Qed.

Section touch.
  Context (s : kst F) (pr : proc) (v : nat) (e : p_monitor).
  Context (Hp : procs s !! p = Some pr) (Hr : ram_ok (km s) pr).
  Context (He : p_ram_monitor pr !! v = Some e) (Hu : pm_used e = 1).

Lemma sc_space va :
  0 ≤ va < 2 ^ 32 →
  aspace (sc_mem (mem (km s)) pr e) (p_pgdir pr) va =
  if va / 4096 =? pm_va e / 4096 then clr (aspace (mem (km s)) (p_pgdir pr) (pm_va e)) PTE_A
  else aspace (mem (km s)) (p_pgdir pr) va.
Proof.
  intros Hva. destruct (ro_entry _ _ Hr v e He Hu) as (_ & Hv & _ & Hpd).
  unfold sc_mem, pte_addr. unfold KERNBASE in Hv.
  destruct (aspace_store (mem (km s)) (p_pgdir pr) l (pm_va e)
    (clr (aspace (mem (km s)) (p_pgdir pr) (pm_va e)) PTE_A) ltac:(lia) (ro_wf _ _ Hr) Hpd) as (_ & Hs & _).
  rewrite Hs by done. rewrite u32_small; [done|]. apply clr_range, aspace_range.
Qed.

Lemma sc_ram_ok : ram_ok (km (sc_touch s pr v e)) (sc_proc pr v).
Proof.
  destruct (ro_entry _ _ Hr v e He Hu) as (_ & Hv & _ & Hpd). unfold KERNBASE in Hv.
  destruct (aspace_store (mem (km s)) (p_pgdir pr) l (pm_va e)
    (clr (aspace (mem (km s)) (p_pgdir pr) (pm_va e)) PTE_A) ltac:(lia) (ro_wf _ _ Hr) Hpd) as (Hwf & _ & _).
  split.
  - by apply wf_kmem_store; [apply Hr|apply Hr|].
  - done.
  - intros i e' (e0 & Hi & Hk)%sc_lookup Hu'. injection Hk as Hk1 Hk2 Hk3. rewrite Hk2, Hk3.
    destruct (ro_entry _ _ Hr i e0 Hi ltac:(congruence)) as (H1 & H2 & H3 & H4).
    split_and!; try done; [lia..|]. unfold pde_present.
    change (mem (km (sc_touch s pr v e))) with (sc_mem (mem (km s)) pr e).
    change (p_pgdir (sc_proc pr v)) with (p_pgdir pr). unfold sc_mem.
    rewrite (pde_present_store _ _ l); [done|apply Hr|done|apply PDX_range].
  - intros i j e1 e2 (f1 & Hi & Hk)%sc_lookup (f2 & Hj & Hk')%sc_lookup Hu1 Hu2 Hva.
    injection Hk as ? ? ?. injection Hk' as ? ? ?.
    eapply (ro_inj _ _ Hr i j f1 f2); congruence.
Qed.

Lemma sc_touched : touched s (sc_touch s pr v e) pr (sc_proc pr v).
Proof.
  assert (Hva : 0 ≤ pm_va e < 2 ^ 32).
  { destruct (ro_entry _ _ Hr v e He Hu) as (_ & Hv & _). unfold KERNBASE in Hv. lia. }
  split.
  - done.
  - done.
  - cbn. rewrite Nat2Z.id. apply list_eq. intros i. rewrite !list_lookup_fmap.
    destruct (decide (i = v)) as [->|Hne]; [|by rewrite list_lookup_alter_ne].
    rewrite list_lookup_alter_eq. by destruct (_ !! v).
  - intros va Hr'. change (mem (km (sc_touch s pr v e))) with (sc_mem (mem (km s)) pr e).
    rewrite sc_space by done. destruct (Z.eqb_spec (va / 4096) (pm_va e / 4096)) as [E|]; [|done].
    rewrite clr_clr. f_equal. unfold aspace. rewrite !PDX_div, !PTX_div by done. rewrite E.
    replace (va / 2 ^ 22) with (pm_va e / 2 ^ 22); [done|].
    change (2 ^ 22) with (4096 * 1024). rewrite <- !Z.div_div by lia. by rewrite E.
  - intros va Hr' Hn. change (mem (km (sc_touch s pr v e))) with (sc_mem (mem (km s)) pr e).
    rewrite sc_space by done. rewrite (proj2 (Z.eqb_neq _ _)); [done|]. by apply (Hn v e).
  - destruct (ro_entry _ _ Hr v e He Hu) as (_ & _ & _ & Hpd).
    intros b Hb. split; [|by eapply off_pt_store; [apply Hr| |]].
    change (mem (km (sc_touch s pr v e))) with (sc_mem (mem (km s)) pr e). unfold sc_mem.
    pose proof (off_pt_page _ _ _ _ b (ro_wf _ _ Hr) Hpd Hb). pose proof (PTX_range (pm_va e)).
    unfold pte_addr, PGSIZE in *. apply ld8_st32_ne. lia.
Qed.

Lemma sc_accessed i e' :
  p_ram_monitor pr !! i = Some e' → pm_used e' = 1 →
  accessed (mem (km (sc_touch s pr v e))) (sc_proc pr v) i =
  if decide (i = v) then false else accessed (mem (km s)) pr i.
Proof.
  intros Hi Hu'. unfold accessed.
  destruct (p_ram_monitor (sc_proc pr v) !! i) as [f|] eqn:Ef.
  2: { cbn in Ef. rewrite Nat2Z.id in Ef. apply lookup_ge_None in Ef. rewrite length_alter in Ef.
       apply lookup_lt_Some in Hi. lia. }
  destruct (sc_lookup _ _ _ _ Ef) as (e0 & Hi0 & Hk). injection Hk as _ _ Hk. rewrite Hi in Hi0 |- *. simplify_eq.
  rewrite Hk. change (mem (km (sc_touch s pr v e))) with (sc_mem (mem (km s)) pr e).
  change (p_pgdir (sc_proc pr v)) with (p_pgdir pr).
  destruct (ro_entry _ _ Hr i e0 Hi Hu') as (_ & Hv & _). unfold KERNBASE in Hv.
  rewrite sc_space by lia. case_decide as E; [subst i; simplify_eq; rewrite Z.eqb_refl|].
  - apply clr_accessed, aspace_range.
  - rewrite (proj2 (Z.eqb_neq _ _)); [done|]. intros Hd. apply E. eapply ram_pages; try done.
Qed.
End touch.

(** The rounds from a state where [skipped] have lost their bits already. *)
Lemma scfifo_loop_spec acc q : ∀ fuel skipped s pr,
  (length q ≤ fuel)%nat → q ++ skipped ≠ [] →
  cur s = Some p → procs s !! p = Some pr → ram_ok (km s) pr →
  is_queue (p_ram_monitor pr) (p_last_in_queue pr) (q ++ skipped) →
  p_last_in_queue pr + Z.of_nat (length q) < 2 ^ 31 →
  (∀ i, i ∈ q → accessed (mem (km s)) pr i = acc i) →
  (∀ i, i ∈ skipped → accessed (mem (km s)) pr i = false) →
  runs (scfifo_loop fuel) s (λ ret s', ∃ v q' cl pr',
    second_chance acc q skipped = Some (v, q', cl) ∧ ret = Z.of_nat v ∧
    touched s s' pr pr' ∧ ram_ok (km s') pr' ∧ is_queue (p_ram_monitor pr') (p_last_in_queue pr') q' ∧
    ∀ i, i ∈ q ++ skipped → accessed (mem (km s')) pr' i = acc i && bool_decide (i ∉ cl)).
Proof.
  induction q as [|v q IH]; intros fuel skipped s pr Hf Hne Hc Hp Hr Hq Hl Ha Hs; cbn [app length] in *.
  - destruct skipped as [|v r]; [done|].
    destruct (proj1 (iq_elem _ _ _ Hq v)) as (e & He & Hu); [set_solver|].
    exists (Z.of_nat v), s. split; [rewrite (scfifo_round fuel s pr v r e) by (done || lia); by rewrite Hs by set_solver|].
    exists v, (v :: r), (v :: r), pr. split_and!; try done; [by apply touched_refl|].
    intros i Hi. rewrite bool_decide_eq_false_2 by naive_solver. rewrite andb_false_r. by apply Hs.
  - destruct (proj1 (iq_elem _ _ _ Hq v)) as (e & He & Hu); [set_solver|]. cbn [second_chance].
    pose proof (scfifo_round fuel s pr v (q ++ skipped) e Hc Hp Hr Hq ltac:(lia) He Hu) as Hround.
    rewrite (Ha v) in Hround by set_solver. destruct (acc v) eqn:Ev.
    + destruct fuel as [|fuel]; [lia|].
      assert (Hlen : (p < length (procs s))%nat) by (by eapply lookup_lt_Some).
      pose proof (iq_places _ _ _ Hq v ltac:(set_solver)) as Hpl.
      pose proof (queue_rotate _ _ _ _ Hq) as Hq'. rewrite <- app_assoc in Hq'.
      pose proof (iq_nodup _ _ _ Hq) as Hnd. apply NoDup_cons in Hnd.
      assert (Hacc : ∀ i, i ∈ v :: q ++ skipped → accessed (mem (km (sc_touch s pr v e))) (sc_proc pr v) i =
                if decide (i = v) then false else accessed (mem (km s)) pr i).
      { intros i (ei & Hei & Hui)%(iq_elem _ _ _ Hq). by eapply sc_accessed. }
      destruct (IH fuel (skipped ++ [v]) (sc_touch s pr v e) (sc_proc pr v)) as (a & s' & Hrun & v' & q' & cl & pr' & H1 & H2 & H3 & H4 & H5 & H6);
        [lia|by destruct q, skipped|done|by apply procs_upd|by apply sc_ram_ok| | | | |].
      * cbn. rewrite s32_small by lia. by rewrite Nat2Z.id.
      * cbn. rewrite s32_small by lia. lia.
      * intros i Hi. rewrite Hacc by set_solver. rewrite decide_False by set_solver. apply Ha. set_solver.
      * intros i Hi. rewrite Hacc by set_solver. case_decide; [done|]. apply Hs. set_solver.
      * exists a, s'. split; [congruence|]. exists v', q', cl, pr'. split_and!; try done.
        { eapply touched_trans; [|done]. by apply sc_touched. }
        intros i Hi. apply H6. set_solver.
    + exists (Z.of_nat v), s. split; [done|]. exists v, (v :: q ++ skipped), skipped, pr.
      split_and!; try done; [by apply touched_refl|].
      intros i Hi. destruct (decide (i ∈ skipped)) as [Hk|Hk].
      * rewrite bool_decide_eq_false_2 by naive_solver. rewrite andb_false_r. by apply Hs.
      * rewrite bool_decide_eq_true_2 by done. rewrite andb_true_r. apply Ha. set_solver.
Qed.

(** C5. select_SCFIFO implements the second-chance queue: for a process whose
    table is well formed, the loop ends within its 17 rounds and returns the
    page the abstract policy picks from the queue the table stands for; the new
    table stands for the abstract policy's new queue, exactly the skipped pages
    have lost their accessed bit, and nothing else of the address space, of
    memory or of the other processes changed. *)
Theorem select_SCFIFO_second_chance s pr q :
  cur s = Some p → procs s !! p = Some pr → ram_ok (km s) pr →
  is_queue (p_ram_monitor pr) (p_last_in_queue pr) q → q ≠ [] → (length q ≤ 16)%nat →
  p_last_in_queue pr + Z.of_nat (length q) < 2 ^ 31 →
  let acc := accessed (mem (km s)) pr in
  runs select_SCFIFO s (λ ret s', ∃ v q' cleared pr',
    second_chance acc q [] = Some (v, q', cleared) ∧ ret = Z.of_nat v ∧
    touched s s' pr pr' ∧ is_queue (p_ram_monitor pr') (p_last_in_queue pr') q' ∧
    ∀ i, i ∈ q → accessed (mem (km s')) pr' i = acc i && bool_decide (i ∉ cleared)).
Proof.
  intros Hc Hp Hr Hq Hne Hlen Hl acc. rewrite <- (app_nil_r q) in Hq, Hne.
  eapply runs_mono; [apply (scfifo_loop_spec acc q 16 [] s pr); try done; set_solver|].
  cbn beta. intros ret s' (v & q' & cl & pr' & H1 & H2 & H3 & _ & H5 & H6).
  exists v, q', cl, pr'. rewrite app_nil_r in H6. done.
Qed.

(** select_LIFO returns the page that was brought into memory last, the end
    of the queue, and changes nothing. *)
Theorem select_LIFO_youngest s pr q v :
  cur s = Some p → procs s !! p = Some pr →
  is_queue (p_ram_monitor pr) (p_last_in_queue pr) (q ++ [v]) →
  select_LIFO s = Ok (Z.of_nat v, s).
Proof.
  intros Hc Hp Hq. unfold select_LIFO. mrun (myproc_eq s p Hc). mrun (getproc_eq s p pr Hp).
  destruct (proj1 (iq_elem _ _ _ Hq v)) as (e & He & Hu); [set_solver|].
  pose proof (iq_places _ _ _ Hq v ltac:(set_solver)) as Hpl. rewrite (place_lookup _ _ _ He) in Hpl.
  rewrite (lifo_scan_max _ _ _ _ v e); [done|done|done|lia|].
  intros j e' Hj Hne Hu'. rewrite <- (place_lookup _ _ _ He), <- (place_lookup _ _ _ Hj).
  assert (Hin : j ∈ q) by (assert (j ∈ q ++ [v]) by (apply Hq; eauto); set_solver).
  apply (StronglySorted_app_1_elem_of (λ i j, place (p_ram_monitor pr) i < place (p_ram_monitor pr) j) q [v]);
    [apply Hq|done|set_solver].
Qed.
End scfifo.

(** * page_in and page_out *)

Section inout.
  Context {KI : KernelImage} {F : Type}.
  Context (p : nat) (l : list Z).
  Implicit Types s : kst F.

(** The entry of [va] in [pgdir] replaced by [e]. *)
Definition set_pte (m : memory) (pgdir va e : Z) : memory := st32 m (pte_addr m pgdir va) e.

Lemma pte_addr_set m pgdir va e :
  wf_pgdir m pgdir l → pde_present m pgdir (PDX va) = true →
  pte_addr (set_pte m pgdir va e) pgdir va = pte_addr m pgdir va ∧
  ∀ va', pde_present (set_pte m pgdir va e) pgdir (PDX va') = pde_present m pgdir (PDX va').
Proof.
  intros Hwf Hp. unfold pte_addr, pde_table, pde_present, set_pte.
  rewrite (pde_present_store _ _ l) by (done || apply PDX_range). split; [done|].
  intros va'. by rewrite (pde_present_store _ _ l) by (done || apply PDX_range).
Qed.

Lemma aspace_set m pgdir va e :
  0 ≤ va < 2 ^ 32 → wf_pgdir m pgdir l → pde_present m pgdir (PDX va) = true →
  wf_pgdir (set_pte m pgdir va e) pgdir l ∧
  ∀ va', 0 ≤ va' < 2 ^ 32 →
    aspace (set_pte m pgdir va e) pgdir va' = if va' / 4096 =? va / 4096 then u32 e else aspace m pgdir va'.
Proof. intros Hva Hwf Hp. destruct (aspace_store m pgdir l va e Hva Hwf Hp) as (H1 & H2 & _). done. Qed.

(** The entries the two functions compute. *)
Definition in_entry (e pa : Z) : Z := Z.lor (clr (Z.lor e 7) PTE_PG) pa.
Definition out_entry (e : Z) : Z :=
  let e := clr (Z.lor e PTE_PG) PTE_P in Z.land e (PTE_FLAGS e).

Definition add_protected (d : Z) (pr : proc) : proc := set_p_protected (s32 (p_protected pr + d)) pr.

Lemma st32_st32 (m : memory) a v w : st32 (st32 m a v) a w = st32 m a w.
Proof.
  apply functional_extensionality. intros b. unfold st32, st8.
  destruct (Z.eqb_spec b (a + 3)), (Z.eqb_spec b (a + 2)), (Z.eqb_spec b (a + 1)), (Z.eqb_spec b a); try done; lia.
Qed.

Section run.
  Context (s : kst F) (pr : proc) (pgdir va : Z).
  Context (Hc : cur s = Some p) (Hp : procs s !! p = Some pr).
  Context (Hwf : wf_pgdir (mem (km s)) pgdir l).
  Context (Hpd : pde_present (mem (km s)) pgdir (PDX va) = true).
Let e := aspace (mem (km s)) pgdir va.
Let a := pte_addr (mem (km s)) pgdir va.

Lemma rd_entry : rd32 a s = Ok (e, s).
Proof. rewrite rd32_eq. unfold a, e. by rewrite pte_addr_aspace. Qed.

Lemma rd_wr (s0 : kst F) b v : rd32 b (upd_mem (st32 (mem (km s0)) b v) s0) = Ok (u32 v, upd_mem (st32 (mem (km s0)) b v) s0).
Proof. rewrite rd32_eq. cbn. by rewrite ld32_st32_eq. Qed.

Lemma wr_wr (s0 : kst F) b v w :
  wr32 b w (upd_mem (st32 (mem (km s0)) b v) s0) = Ok (tt, upd_mem (st32 (mem (km s0)) b w) s0).
Proof. rewrite wr32_eq. cbn. rewrite st32_st32. by destruct s0. Qed.

Lemma page_in_eq pa :
  page_in va pa pgdir s = Ok (tt, set_cr3 (V2P (p_pgdir pr))
    (upd_proc p (add_protected (-1) pr) (upd_mem (set_pte (mem (km s)) pgdir va (in_entry e pa)) s))).
Proof.
  assert (Hlen : (p < length (procs s))%nat) by (by eapply lookup_lt_Some).
  pose proof (aspace_range (mem (km s)) pgdir va) as He. fold e in He.
  pose proof (lor_range e 7 He ltac:(lia)) as H7. pose proof (clr_range _ PTE_PG H7) as H8.
  unfold page_in. mrun (myproc_eq s p Hc). mrun (walk_eq (F:=F) _ _ _ Hpd).
  rewrite (proj2 (Z.eqb_neq _ _) (pte_addr_nonzero _ _ _ _ Hwf Hpd)). fold a.
  mrun rd_entry.
  change (Z.lor (Z.lor PTE_P PTE_W) PTE_U) with 7.
  mrun (wr32_eq a (Z.lor e 7) s).
  rewrite (bind_eq _ _ _ _ _ (modproc_eq (upd_mem _ s) p pr _ Hp)); cbv beta.
  set (pr1 := set_p_protected _ _).
  change (upd_proc p pr1 (upd_mem ?m s)) with (upd_mem m (upd_proc p pr1 s)).
  change (mem (km s)) with (mem (km (upd_proc p pr1 s))).
  mrun (rd_wr (upd_proc p pr1 s) a (Z.lor e 7)). rewrite (u32_small _ H7).
  mrun (wr_wr (upd_proc p pr1 s) a (Z.lor e 7) (clr (Z.lor e 7) PTE_PG)).
  mrun (rd_wr (upd_proc p pr1 s) a (clr (Z.lor e 7) PTE_PG)). rewrite (u32_small _ H8).
  mrun (wr_wr (upd_proc p pr1 s) a (clr (Z.lor e 7) PTE_PG) (in_entry e pa)).
  rewrite (bind_eq _ _ _ _ _ (getproc_eq (upd_mem _ (upd_proc p pr1 s)) p pr1 (procs_upd p pr1 s Hlen))). done.
Qed.

Lemma page_out_eq :
  page_out va pgdir s = Ok (tt, set_cr3 (V2P (p_pgdir pr))
    (upd_proc p (add_protected 1 pr) (upd_mem (set_pte (mem (km s)) pgdir va (out_entry e)) s))).
Proof.
  assert (Hlen : (p < length (procs s))%nat) by (by eapply lookup_lt_Some).
  pose proof (aspace_range (mem (km s)) pgdir va) as He. fold e in He.
  pose proof (lor_range e PTE_PG He ltac:(unfold PTE_PG; lia)) as H7. pose proof (clr_range _ PTE_P H7) as H8.
  unfold page_out. mrun (myproc_eq s p Hc). mrun (walk_eq (F:=F) _ _ _ Hpd).
  rewrite (proj2 (Z.eqb_neq _ _) (pte_addr_nonzero _ _ _ _ Hwf Hpd)). fold a.
  mrun rd_entry.
  mrun (wr32_eq a (Z.lor e PTE_PG) s).
  mrun (rd_wr s a (Z.lor e PTE_PG)). rewrite (u32_small _ H7).
  mrun (wr_wr s a (Z.lor e PTE_PG) (clr (Z.lor e PTE_PG) PTE_P)).
  mrun (rd_wr s a (clr (Z.lor e PTE_PG) PTE_P)). rewrite (u32_small _ H8).
  mrun (wr_wr s a (clr (Z.lor e PTE_PG) PTE_P) (out_entry e)).
  rewrite (bind_eq _ _ _ _ _ (modproc_eq (upd_mem _ s) p pr _ Hp)); cbv beta.
  set (pr1 := set_p_protected _ _).
  rewrite (bind_eq _ _ _ _ _ (getproc_eq _ p pr1 (procs_upd p pr1 (upd_mem _ s) Hlen))). done.
Qed.
End run.

(** Only flags remain: the paged-out mark is on, the present bit is off, and the
    others are those of the entry. *)
Lemma out_entry_bits e k :
  0 ≤ e < 2 ^ 32 → 0 ≤ k →
  Z.testbit (out_entry e) k = (k <? 12) && ((9 =? k) || Z.testbit e k) && negb (0 =? k).
Proof.
  intros He Hk. unfold out_entry.
  assert (H1 : 0 ≤ clr (Z.lor e PTE_PG) PTE_P < 2 ^ 32).
  { apply clr_range, lor_range; [done|]. unfold PTE_PG. lia. }
  rewrite PTE_FLAGS_mod by done. change 4096 with (2 ^ 12). rewrite Z.land_spec.
  destruct (Z.ltb_spec k 12).
  - rewrite Z.mod_pow2_bits_low by lia. rewrite andb_diag. change PTE_P with (2 ^ 0).
    rewrite testbit_clr by lia. rewrite Z.lor_spec. change PTE_PG with (2 ^ 9).
    rewrite Z.pow2_bits_eqb by lia. cbn. by rewrite orb_comm.
  - rewrite Z.mod_pow2_bits_high by lia. by rewrite andb_false_r.
Qed.

Lemma out_entry_range e : 0 ≤ e < 2 ^ 32 → 0 ≤ out_entry e < PGSIZE.
Proof.
  intros He. unfold out_entry. set (x := clr _ _).
  assert (H1 : 0 ≤ x < 2 ^ 32).
  { apply clr_range, lor_range; [done|]. unfold PTE_PG. lia. }
  rewrite PTE_FLAGS_mod by done. change 4096 with (2 ^ 12). rewrite <- land_ones_mod by lia.
  rewrite Z.land_assoc, Z.land_diag, land_ones_mod by lia.
  unfold PGSIZE. apply (Z.mod_pos_bound x (2 ^ 12)). lia.
Qed.

(** The frame and the flags that a page comes back with. *)
Lemma in_entry_flags f pa :
  0 ≤ f < PGSIZE → pa mod PGSIZE = 0 → 0 ≤ pa < 2 ^ 32 - PGSIZE →
  in_entry f pa = pa + clr (Z.lor f 7) PTE_PG ∧ 0 ≤ clr (Z.lor f 7) PTE_PG < PGSIZE.
Proof.
  intros Hf Ha Hpa. unfold PGSIZE in *.
  assert (Hc : 0 ≤ clr (Z.lor f 7) PTE_PG < 2 ^ 12).
  { apply clr_bound; [lia|]. apply lor_bound; lia. }
  split; [|done]. unfold in_entry. rewrite Z.lor_comm. by apply lor_flags.
Qed.

Lemma s32_back x : - 2 ^ 31 ≤ x < 2 ^ 31 → s32 (s32 (x + 1) + -1) = x.
Proof.
  intros H. destruct (Z.eq_dec x (2 ^ 31 - 1)) as [->|]; [done|].
  rewrite (s32_small (x + 1)) by lia. rewrite s32_small by lia. lia.
Qed.

Lemma set_pte_twice m pgdir va e e' :
  wf_pgdir m pgdir l → pde_present m pgdir (PDX va) = true →
  set_pte (set_pte m pgdir va e) pgdir va e' = set_pte m pgdir va e'.
Proof.
  intros Hwf Hp. unfold set_pte at 1. rewrite (proj1 (pte_addr_set m pgdir va e Hwf Hp)).
  unfold set_pte. apply st32_st32.
Qed.

(** The flags a page has when it comes back: those it had, without the
    paged-out mark, and present, writable and user always. *)
Lemma in_out_entry e pa :
  0 ≤ e < 2 ^ 32 → pa mod PGSIZE = 0 → 0 ≤ pa < 2 ^ 32 - PGSIZE →
  in_entry (out_entry e) pa = pa + clr (Z.lor (PTE_FLAGS e) 7) PTE_PG.
Proof.
  intros He Ha Hpa. destruct (in_entry_flags (out_entry e) pa (out_entry_range e He) Ha Hpa) as [-> _].
  f_equal. assert (Hf : 0 ≤ PTE_FLAGS e < 2 ^ 12).
  { rewrite PTE_FLAGS_mod by done. apply Z.mod_pos_bound. lia. }
  pose proof (out_entry_range e He) as Ho. unfold PGSIZE in Ho.
  assert (HL : ∀ x, 0 ≤ x < 2 ^ 12 → 0 ≤ Z.lor x 7 < 2 ^ 12) by (intros; apply lor_bound; lia).
  apply Z.bits_inj'. intros k Hk. change PTE_PG with (2 ^ 9). destruct (Z.lt_ge_cases k 12).
  - rewrite !testbit_clr by lia. rewrite !Z.lor_spec, out_entry_bits by done.
    rewrite PTE_FLAGS_mod by done. change 4096 with (2 ^ 12). rewrite Z.mod_pow2_bits_low by lia.
    rewrite (proj2 (Z.ltb_lt k 12)) by lia.
    assert (E : k = 0 ∨ k = 9 ∨ k ≠ 0 ∧ k ≠ 9) by lia. destruct E as [-> | [-> | [H1 H2]]].
    + cbn. by rewrite !orb_true_r.
    + by rewrite !andb_false_r.
    + rewrite (proj2 (Z.eqb_neq 9 k)), (proj2 (Z.eqb_neq 0 k)) by lia. cbn. by rewrite !andb_true_r.
  - rewrite !(testbit_high _ 12); first [done | lia | apply clr_bound; [lia|by apply HL]].
Qed.
End inout.

(** page_out leaves a marked, absent entry with no frame, and page_in after it
    maps the page again, at the new frame: the rest of the address space and the
    process are as before the two calls, the page keeps its other flags, and it
    is present, writable and accessible to the user, whether or not it was
    writable before. *)
Theorem page_out_page_in (KI : KernelImage) (F : Type) p l (s : kst F) pr va np :
  cur s = Some p → procs s !! p = Some pr → wf_pgdir (mem (km s)) (p_pgdir pr) l →
  - 2 ^ 31 ≤ p_protected pr < 2 ^ 31 →
  0 ≤ va < 2 ^ 32 → pde_present (mem (km s)) (p_pgdir pr) (PDX va) = true → good_page np →
  let e := aspace (mem (km s)) (p_pgdir pr) va in
  runs (page_out va (p_pgdir pr)) s (λ _ s1,
    let e1 := aspace (mem (km s1)) (p_pgdir pr) va in
    tst e1 PTE_P = false ∧ tst e1 PTE_PG = true ∧ PTE_ADDR e1 = 0 ∧
    runs (page_in va (V2P np) (p_pgdir pr)) s1 (λ _ s2,
      procs s2 = procs s ∧ cr3 s2 = V2P (p_pgdir pr) ∧ wf_pgdir (mem (km s2)) (p_pgdir pr) l ∧
      ∀ va', 0 ≤ va' < 2 ^ 32 → aspace (mem (km s2)) (p_pgdir pr) va' =
        if va' / 4096 =? va / 4096 then V2P np + clr (Z.lor (PTE_FLAGS e) 7) PTE_PG
        else aspace (mem (km s)) (p_pgdir pr) va')).
Proof.
  intros Hc Hp Hwf Hprot Hva Hpd Hnp e. destruct (good_page_V2P np Hnp) as (_ & Hnr & Hna).
  pose proof (aspace_range (mem (km s)) (p_pgdir pr) va) as He. fold e in He.
  pose proof (out_entry_range e He) as Ho. unfold PHYSTOP, EXTMEM, PGSIZE in *.
  destruct (aspace_set l _ _ va (out_entry e) Hva Hwf Hpd) as [Hwf1 Hsp1].
  eexists tt, _. split; [by apply page_out_eq with l|]. cbn [km upd_proc set_cr3 upd_mem set_km set_procs mem set_mem].
  rewrite Hsp1 by done. rewrite Z.eqb_refl, u32_small by lia.
  split_and!.
  - rewrite tst_P, out_entry_bits by (done || lia). by rewrite andb_false_r.
  - change PTE_PG with (2 ^ 9). rewrite tst_bit, out_entry_bits by (done || lia). done.
  - rewrite PTE_ADDR_div by lia. by rewrite (Z.div_small (out_entry e)) by lia.
  - set (s1 := set_cr3 _ _).
    assert (Hlen : (p < length (procs s))%nat) by (by eapply lookup_lt_Some).
    destruct (pte_addr_set l (mem (km s)) (p_pgdir pr) va (out_entry e) Hwf Hpd) as [_ Hpp].
    pose proof (page_in_eq p l s1 (add_protected 1 pr) (p_pgdir pr) va Hc
      (procs_upd p _ (upd_mem _ s) Hlen) Hwf1 ltac:(cbn; by rewrite Hpp) (V2P np)) as Hin.
    eexists tt, _. split; [exact Hin|]. clear Hin. cbn.
    rewrite Hsp1 by done. rewrite Z.eqb_refl, u32_small by lia.
    rewrite (set_pte_twice l) by done. rewrite in_out_entry by (unfold PGSIZE; lia || done).
    destruct (aspace_set l _ _ va (V2P np + clr (Z.lor (PTE_FLAGS e) 7) PTE_PG) Hva Hwf Hpd) as [Hwf2 Hsp2].
    split_and!; [|done|done|].
    + rewrite list_insert_insert_eq. unfold add_protected; cbn. rewrite s32_back by done.
      apply list_insert_id. rewrite Hp. by destruct pr.
    + intros va' Hva'. rewrite Hsp2 by done. case_match; [|done]. apply u32_small.
      assert (0 ≤ clr (Z.lor (PTE_FLAGS e) 7) PTE_PG < 2 ^ 12); [|lia].
      apply clr_bound; [lia|]. apply lor_bound; [lia| |lia]. rewrite PTE_FLAGS_mod by done.
      apply Z.mod_pos_bound. lia.
Qed.
