(* ===== verification/Swap.v ===== *)
(** The swap file of a process and its table of slots (fs.c, vm.c), proved to be
    a map from page addresses to page contents, and the page fault that brings a
    page back. *)
From Stdlib Require Import ZArith Lia Bool.
From stdpp Require Import base tactics list gmap strings sets.
From S2P Require Import Prelude Machine CString Format Kalloc PageTable Locks State Vm Uvm Paging.

(** * What the file system promises about an open swap file

    A swap file holds whole pages. A page can be overwritten, or appended at the
    end (writei refuses an offset past the end of the file), and is read back. *)
Class SwapLaws (F : Type) {FS : FsOps F} := {
  sw_ok : F → Z → Prop;
  sw_pages : F → Z → list (list Z);
  sw_write fs f i d :
    sw_ok fs f → (i ≤ length (sw_pages fs f))%nat → (i < 16)%nat →
    length d = Z.to_nat PGSIZE → Forall (λ b, 0 ≤ b < 256) d →
    runs (fs_set_off f (PGSIZE * Z.of_nat i);; fs_filewrite f d) fs (λ r fs',
      r = PGSIZE ∧ sw_ok fs' f ∧
      sw_pages fs' f = take i (sw_pages fs f) ++ d :: drop (S i) (sw_pages fs f));
  sw_read fs f i d :
    sw_ok fs f → sw_pages fs f !! i = Some d → (i < 16)%nat →
    runs (fs_set_off f (PGSIZE * Z.of_nat i);; fs_fileread f PGSIZE) fs (λ rd fs',
      rd = (PGSIZE, d) ∧ sw_ok fs' f ∧ sw_pages fs' f = sw_pages fs f) }.

(** * Slots *)

(** The slot table [sw] and the pages of the file stand for the map [st]. A slot
    that is not used keeps the address of the page that was there last; a used
    slot is the lowest one with its address. *)
Record slots_rel (sw : list p_monitor) (pages : list (list Z)) (st : gmap Z (list Z)) : Prop := {
  sl_len : length sw = 16%nat;
  sl_bit : ∀ i e, sw !! i = Some e → pm_used e = 0 ∨ pm_used e = 1;
  sl_used : ∀ i e, sw !! i = Some e → pm_used e = 1 →
    ∃ d, pages !! i = Some d ∧ st !! pm_va e = Some d;
  sl_store : ∀ va d, st !! va = Some d → ∃ i e, sw !! i = Some e ∧ pm_used e = 1 ∧ pm_va e = va;
  sl_low : ∀ i j e e', sw !! i = Some e → sw !! j = Some e' → pm_used e = 1 →
    pm_va e' = pm_va e → (i ≤ j)%nat }.

Section slots.
  Context (sw : list p_monitor) (pages : list (list Z)) (st : gmap Z (list Z)).
  Context (Hs : slots_rel sw pages st).

Lemma slots_below k j :
  find_idx (λ m, pm_used m =? 0) sw = Some k → (j < k)%nat →
  ∃ e, sw !! j = Some e ∧ pm_used e = 1.
Proof.
  intros [(x & Hx & _) Hb]%find_idx_Some Hj. apply lookup_lt_Some in Hx.
  destruct (lookup_lt_is_Some_2 sw j) as [e He]; [lia|]. exists e. split; [done|].
  pose proof (Hb j e Hj He) as E. apply Z.eqb_neq in E. destruct (sl_bit _ _ _ Hs j e He); done.
Qed.

(** A free slot lies within the file or at its end. *)
Lemma slots_extent k :
  find_idx (λ m, pm_used m =? 0) sw = Some k → (k ≤ length pages)%nat ∧ (k < 16)%nat.
Proof.
  intros Hk. split.
  - destruct k as [|k]; [lia|]. destruct (slots_below (S k) k Hk ltac:(lia)) as (e & He & Hu).
    destruct (sl_used _ _ _ Hs k e He Hu) as (d & Hd & _). apply lookup_lt_Some in Hd. lia.
  - apply find_idx_Some in Hk as [(x & Hx & _) _]. apply lookup_lt_Some in Hx.
    by rewrite (sl_len _ _ _ Hs) in Hx.
Qed.

Lemma slots_unused va i e :
  st !! va = None → sw !! i = Some e → pm_used e = 1 → pm_va e ≠ va.
Proof. intros Hn Hi Hu <-. destruct (sl_used _ _ _ Hs i e Hi Hu) as (d & _ & Hd). congruence. Qed.

Lemma pages_put k (d : list Z) j :
  (k ≤ length pages)%nat → (take k pages ++ d :: drop (S k) pages) !! j =
  if decide (j = k) then Some d else pages !! j.
Proof.
  intros Hk. assert (Hl : length (take k pages) = k) by (rewrite length_take; lia).
  case_decide as E; [subst j|destruct (decide (j < k)%nat)].
  - rewrite lookup_app_r by lia. by rewrite Hl, Nat.sub_diag.
  - rewrite lookup_app_l by lia. by apply lookup_take_lt.
  - rewrite lookup_app_r by lia. rewrite Hl, lookup_cons_ne_0 by lia.
    rewrite lookup_drop. f_equal. lia.
Qed.

(** Putting a page that is not there in the lowest free slot. *)
Lemma slots_write k va pgdir d :
  find_idx (λ m, pm_used m =? 0) sw = Some k → st !! va = None →
  slots_rel (alter (λ _, mk_pm 1 pgdir va 0) k sw)
    (take k pages ++ d :: drop (S k) pages) (<[va := d]> st).
Proof.
  intros Hk Hn. destruct (slots_extent k Hk) as [Hlp Hk16].
  assert (Hl : ∀ i e, alter (λ _, mk_pm 1 pgdir va 0) k sw !! i = Some e →
    i = k ∧ e = mk_pm 1 pgdir va 0 ∨ i ≠ k ∧ sw !! i = Some e).
  { intros i e. destruct (decide (i = k)) as [->|]; [|rewrite list_lookup_alter_ne by done; auto].
    rewrite list_lookup_alter_eq. destruct (sw !! k); cbn; [|done]. intros [= <-]. auto. }
  assert (Hkk : alter (λ _, mk_pm 1 pgdir va 0) k sw !! k = Some (mk_pm 1 pgdir va 0)).
  { rewrite list_lookup_alter_eq. destruct (lookup_lt_is_Some_2 sw k) as [x ->]; [|done].
    by rewrite (sl_len _ _ _ Hs). }
  split.
  - by rewrite length_alter, (sl_len _ _ _ Hs).
  - intros i e [[-> ->]|[_ Hi]]%Hl; [by right|by eapply sl_bit].
  - intros i e [[-> ->]|[Hne Hi]]%Hl Hu; cbn; rewrite pages_put by done.
    + exists d. by rewrite decide_True, lookup_insert_eq.
    + rewrite decide_False by done. rewrite lookup_insert_ne by (symmetry; by eapply slots_unused).
      by eapply sl_used.
  - intros va' d' [[<- <-]|[Hne Hd]]%lookup_insert_Some; [by exists k, (mk_pm 1 pgdir va 0)|].
    destruct (sl_store _ _ _ Hs va' d' Hd) as (i & e & Hi & Hu & Hv). exists i, e.
    assert (i ≠ k). { intros ->. apply find_idx_Some in Hk as [(x & Hx & E) _]. simplify_eq. apply Z.eqb_eq in E. lia. }
    by rewrite list_lookup_alter_ne.
  - intros i j e e' [[-> ->]|[Hi' Hi]]%Hl [[-> ->]|[Hj' Hj]]%Hl Hu Hv; cbn in *; [done| | |].
    + destruct (decide (j < k)%nat) as [Hlt|]; [|lia].
      destruct (slots_below k j Hk Hlt) as (e0 & He0 & Hu0). simplify_eq.
      by destruct (slots_unused _ j e' Hn Hj Hu0).
    + by destruct (slots_unused va i e Hn Hi Hu).
    + by eapply (sl_low _ _ _ Hs i j).
Qed.

(** The scan for a page that is there finds its slot. *)
Lemma slots_read va d :
  st !! va = Some d →
  ∃ i e, find_idx (λ m, pm_va m =? va) sw = Some i ∧ sw !! i = Some e ∧ pm_used e = 1 ∧ pm_va e = va ∧
    pages !! i = Some d ∧ (i < 16)%nat ∧ slots_rel (alter (set_pm_used 0) i sw) pages (delete va st).
Proof.
  intros Hd. destruct (sl_store _ _ _ Hs va d Hd) as (i & e & Hi & Hu & Hv). exists i, e.
  destruct (sl_used _ _ _ Hs i e Hi Hu) as (d' & Hp & Hd'). rewrite Hv in Hd'. simplify_eq.
  split_and!; try done.
  - apply find_idx_Some. split; [exists e; split; [done|by apply Z.eqb_eq]|].
    intros j y Hj Hy. apply Z.eqb_neq. intros E.
    pose proof (sl_low _ _ _ Hs i j e y Hi Hy Hu E). lia.
  - apply lookup_lt_Some in Hi. by rewrite (sl_len _ _ _ Hs) in Hi.
  - assert (Hl : ∀ j e', alter (set_pm_used 0) i sw !! j = Some e' →
      ∃ e0, sw !! j = Some e0 ∧ pm_va e' = pm_va e0 ∧ (pm_used e' = 1 → j ≠ i ∧ e' = e0) ∧
            (pm_used e' = 0 ∨ e' = e0)).
    { intros j e'. destruct (decide (j = i)) as [->|].
      - rewrite list_lookup_alter_eq, Hi. cbn. intros [= <-]. exists e. cbn. naive_solver.
      - rewrite list_lookup_alter_ne by done. naive_solver. }
    split.
    + by rewrite length_alter, (sl_len _ _ _ Hs).
    + intros j e' (e0 & Hj & _ & _ & [?| ->])%Hl; [by left|by eapply sl_bit].
    + intros j e' (e0 & Hj & _ & Hne & _)%Hl Hu'. destruct (Hne Hu') as [Hji ->].
      rewrite lookup_delete_ne; [by eapply sl_used|]. intros E.
      pose proof (sl_low _ _ _ Hs j i e0 e Hj Hi Hu' ltac:(congruence)).
      pose proof (sl_low _ _ _ Hs i j e e0 Hi Hj Hu ltac:(congruence)). lia.
    + intros va' d'' [Hne Hd'']%lookup_delete_Some. destruct (sl_store _ _ _ Hs va' d'' Hd'') as (j & e' & Hj & ? & ?).
      exists j, e'. rewrite list_lookup_alter_ne; [done|]. intros ->. simplify_eq.
    + intros j k e1 e2 (f1 & Hj & Hv1 & Hn1 & _)%Hl (f2 & Hk & Hv2 & _)%Hl Hu1 Hv'.
      destruct (Hn1 Hu1) as [_ ->]. eapply (sl_low _ _ _ Hs j k f1 f2); congruence.
Qed.
End slots.

(** There is a free slot while the map holds fewer than 16 pages. *)
Lemma slots_room sw pages st :
  slots_rel sw pages st → (size st < 16)%nat → ∃ k, find_idx (λ m, pm_used m =? 0) sw = Some k.
Proof.
  intros Hs Hsz. destruct (find_idx _ sw) as [k|] eqn:E; [eauto|exfalso].
  assert (Hu : ∀ i e, sw !! i = Some e → pm_used e = 1).
  { intros i e Hi. pose proof (proj1 (find_idx_None _ _) E i e Hi) as Ez. apply Z.eqb_neq in Ez.
    destruct (sl_bit _ _ _ Hs i e Hi); done. }
  assert (Hnd : NoDup (pm_va <$> sw)).
  { apply NoDup_alt. intros i j x. rewrite !list_lookup_fmap.
    destruct (sw !! i) as [a|] eqn:Ei, (sw !! j) as [b|] eqn:Ej; cbn; try done. intros [= <-] [= Hb].
    pose proof (sl_low _ _ _ Hs i j a b Ei Ej (Hu i a Ei) Hb).
    pose proof (sl_low _ _ _ Hs j i b a Ej Ei (Hu j b Ej) ltac:(congruence)). lia. }
  assert (Hsub : list_to_set (pm_va <$> sw) ⊆ dom st).
  { intros va. rewrite elem_of_list_to_set, list_elem_of_fmap, elem_of_dom. intros (e & -> & [i Hi]%list_elem_of_lookup).
    destruct (sl_used _ _ _ Hs i e Hi (Hu i e Hi)) as (d & _ & ->). eauto. }
  apply subseteq_size in Hsub. rewrite size_list_to_set, length_fmap, size_dom in Hsub by done.
  rewrite (sl_len _ _ _ Hs) in Hsub. lia.
Qed.

Section swapops.
  Context {KI : KernelImage} {CF : Config} {F : Type} {FS : FsOps F} {SL : SwapLaws F}.
  Context (p : nat).
  Implicit Types s : kst F.

(** The current process [pr] and its open swap file stand for the map [st]. *)
Record swap_rel (s : kst F) (pr : proc) (st : gmap Z (list Z)) : Prop := {
  sr_cur : cur s = Some p;
  sr_proc : procs s !! p = Some pr;
  sr_file : p_swapFile pr ≠ 0;
  sr_ok : sw_ok (fsys s) (p_swapFile pr);
  sr_slots : slots_rel (p_swap_monitor pr) (sw_pages (fsys s) (p_swapFile pr)) st }.

Lemma runs_liftf2 {A} (m : M F unit) (n : M F A) s (Q : A → kst F → Prop) :
  runs (m;; n) (fsys s) (λ a f, Q a (set_fsys f s)) → runs (liftf m;; liftf n) s Q.
Proof.
  intros (a & f & Hr & HQ). exists a, (set_fsys f s). split; [|done].
  apply bind_Ok in Hr as (u & f1 & H1 & H2). destruct u.
  unfold mbind, M_bind, liftf, zoom. rewrite H1. destruct s; cbn in *. by rewrite H2.
Qed.

Lemma writeToSwapFile_spec s pr i d :
  procs s !! p = Some pr → p_swapFile pr ≠ 0 → sw_ok (fsys s) (p_swapFile pr) →
  (i ≤ length (sw_pages (fsys s) (p_swapFile pr)))%nat → (i < 16)%nat →
  length d = Z.to_nat PGSIZE → Forall (λ b, 0 ≤ b < 256) d →
  runs (writeToSwapFile p d (PGSIZE * Z.of_nat i)) s (λ r s', r = PGSIZE ∧ ∃ fs', s' = set_fsys fs' s ∧
    sw_ok fs' (p_swapFile pr) ∧ sw_pages fs' (p_swapFile pr) =
      take i (sw_pages (fsys s) (p_swapFile pr)) ++ d :: drop (S i) (sw_pages (fsys s) (p_swapFile pr))).
Proof.
  intros Hp Hf Hok Hi Hi' Hd Hb. unfold writeToSwapFile. apply runs_bind.
  exists pr, s. split; [by apply getproc_eq|]. rewrite (proj2 (Z.eqb_neq _ _) Hf).
  apply runs_liftf2. eapply runs_mono; [by apply sw_write|]. cbn beta. intros r fs' (-> & H1 & H2).
  split; [done|]. by exists fs'.
Qed.

Lemma readFromSwapFile_spec s pr i d :
  procs s !! p = Some pr → p_swapFile pr ≠ 0 → sw_ok (fsys s) (p_swapFile pr) →
  sw_pages (fsys s) (p_swapFile pr) !! i = Some d → (i < 16)%nat →
  runs (readFromSwapFile p (Z.of_nat i * PGSIZE) PGSIZE) s (λ r s', r = (PGSIZE, d) ∧ ∃ fs', s' = set_fsys fs' s ∧
    sw_ok fs' (p_swapFile pr) ∧ sw_pages fs' (p_swapFile pr) = sw_pages (fsys s) (p_swapFile pr)).
Proof.
  intros Hp Hf Hok Hd Hi. unfold readFromSwapFile. apply runs_bind.
  exists pr, s. split; [by apply getproc_eq|]. rewrite (proj2 (Z.eqb_neq _ _) Hf). rewrite Z.mul_comm.
  apply runs_liftf2. eapply runs_mono; [by apply sw_read|]. cbn beta. intros r fs' (-> & H1 & H2).
  split; [done|]. by exists fs'.
Qed.

(** write2file adds the page, as it is in the current address space. *)
Lemma write2file_spec s pr st va pgdir d :
  swap_rel s pr st → st !! va = None → (size st < 16)%nat →
  uread (mem (km s)) (P2V (cr3 s)) va (Z.to_nat PGSIZE) = Some d →
  runs (write2file va pgdir) s (λ r s', r = PGSIZE ∧ ∃ fs' sw',
    s' = upd_proc p (set_p_swap_monitor sw' pr) (set_fsys fs' s) ∧
    swap_rel s' (set_p_swap_monitor sw' pr) (<[va := d]> st)).
Proof.
  intros [Hc Hp Hf Hok Hs] Hn Hsz Hd. destruct (slots_room _ _ _ Hs Hsz) as [k Hk].
  destruct (slots_extent _ _ _ Hs k Hk) as [Hkl Hk16]. destruct (uread_bytes _ _ _ _ _ Hd) as [Hlen Hb].
  assert (Hps : (p < length (procs s))%nat) by (by eapply lookup_lt_Some).
  unfold write2file. apply runs_bind. exists (Z.of_nat k), s. split.
  { unfold get_swap_idx. mrun (myproc_eq s p Hc). mrun (getproc_eq s p pr Hp). by rewrite Hk. }
  destruct (Z.ltb_spec (Z.of_nat k) 0); [lia|]. apply runs_bind. exists p, s. split; [by apply myproc_eq|].
  apply runs_bind, runs_get, runs_bind. eapply runs_oget; [exact Hd|]. apply runs_bind.
  eapply runs_mono; [by apply writeToSwapFile_spec|]. cbn beta. intros r s1 (-> & fs' & -> & H1 & H2).
  change (PGSIZE <? 0) with false. cbv iota. apply runs_bind. eexists tt, _. split; [by apply (modproc_eq (set_fsys fs' s))|].
  apply runs_ret. split; [done|].
  exists fs', (alter (λ _, mk_pm 1 pgdir va 0) k (p_swap_monitor pr)). unfold set_swap. rewrite Nat2Z.id.
  split; [done|]. split; cbn; try done; [by apply list_lookup_insert_eq|].
  rewrite H2. by apply slots_write.
Qed.

(** The process after read_page_from_disk moved slot [i], with entry [e], to the
    entry [ram_idx] of the pages in memory. *)
Definition read_proc (pr : proc) (i : nat) (ram_idx : Z) (e : p_monitor) : proc :=
  let last := s32 (p_last_in_queue pr + 1) in
  set_ram ram_idx (set_pm_place last)
    (set_p_last_in_queue last (set_swap (Z.of_nat i) (set_pm_used 0) (set_ram ram_idx (λ _, e) pr))).

(** read_page_from_disk removes the page from the map and hands its contents to
    the store [dst]; [R] is what that store does to the state. *)
Lemma read_page_spec s pr st va d ram_idx dst (R : kst F → kst F → Prop) :
  swap_rel s pr st → st !! va = Some d →
  (∀ fs', runs (store_page dst d) (set_fsys fs' s) (λ _ s2,
     procs s2 = procs s ∧ cur s2 = cur s ∧ fsys s2 = fs' ∧ R (set_fsys fs' s) s2)) →
  runs (read_page_from_disk p ram_idx va dst) s (λ r s', r = 1 ∧ ∃ i e s1 s2,
    pm_used e = 1 ∧ pm_va e = va ∧ (∃ j, p_swap_monitor pr !! j = Some e) ∧
    R s1 s2 ∧ (∃ fs', s1 = set_fsys fs' s) ∧ s' = upd_proc p (read_proc pr i ram_idx e) s2 ∧
    swap_rel s' (read_proc pr i ram_idx e) (delete va st)).
Proof.
  intros [Hc Hp Hf Hok Hs] Hd HR. destruct (slots_read _ _ _ Hs va d Hd) as (i & e & Hfi & Hi & Hu & Hv & Hpg & Hi16 & Hsl).
  assert (Hps : (p < length (procs s))%nat) by (by eapply lookup_lt_Some).
  unfold read_page_from_disk. apply runs_bind. exists pr, s. split; [by apply getproc_eq|]. rewrite Hfi.
  apply runs_bind. eapply runs_mono; [by apply readFromSwapFile_spec|]. cbn beta. intros r s1 (-> & fs' & -> & H1 & H2).
  change (PGSIZE <? 0) with false. cbv iota beta. apply runs_bind. eapply runs_mono; [apply HR|].
  cbn beta. intros _ s2 (Hps2 & Hc2 & Hfs2 & HR2). rewrite Hi. cbn [oget].
  assert (Hp2 : procs s2 !! p = Some pr) by congruence.
  assert (Hlen : (p < length (procs s2))%nat) by congruence.
  exists 1, (upd_proc p (read_proc pr i ram_idx e) s2). split.
  { change (mret (M:=M (kst F)) e ≫= ?f) with (f e). cbv beta.
    mrun (modproc_eq s2 p pr (set_ram ram_idx (λ _, e)) Hp2).
    rewrite (bind_eq _ _ _ _ _ (modproc_eq _ p _ _ (procs_upd p _ s2 Hlen))), upd_proc_twice; cbv beta.
    rewrite (bind_eq _ _ _ _ _ (modproc_eq _ p _ _ (procs_upd p _ s2 Hlen))), upd_proc_twice; cbv beta.
    rewrite (bind_eq _ _ _ _ _ (getproc_eq _ p _ (procs_upd p _ s2 Hlen))); cbv beta.
    rewrite (bind_eq _ _ _ _ _ (modproc_eq _ p _ _ (procs_upd p _ s2 Hlen))), upd_proc_twice; cbv beta.
    done. }
  split; [done|]. exists i, e, (set_fsys fs' s), s2. split_and!; try done; [by exists i|by exists fs'|].
  split; cbn; [by rewrite Hc2|by apply list_lookup_insert_eq|done|by rewrite Hfs2|].
  by rewrite Hfs2, H2, Nat2Z.id.
Qed.

(** * The swap file as a map *)

(** What happens between two uses of the swap file: a page goes out, a page comes
    back (into the kernel's buffer), or the process and the kernel change memory
    and the page directory in any way. *)
Inductive sop := SWrite (va pgdir : Z) | SRead (ram_idx va : Z) | SMem (m : memory) (dir : Z).

Fixpoint run_sops (ops : list sop) : M (kst F) (list (list Z)) :=
  match ops with
  | [] => mret []
  | SWrite va pgdir :: ops => write2file va pgdir;; run_sops ops
  | SRead i va :: ops =>
      read_page_from_disk p i va ToBuff;;
      s ← get;
      out ← run_sops ops;
      mret (take (Z.to_nat PGSIZE) (vbuff s) :: out)
  | SMem m dir :: ops =>
      modify (λ s, set_cr3 dir (upd_mem m s));; run_sops ops
  end.

(** The map: a page is stored under its address and can be taken out once. It
    holds no two pages of one address and no more than 16. *)
Fixpoint map_sops (ops : list sop) (m : memory) (dir : Z) (st : gmap Z (list Z))
    : option (list (list Z) * gmap Z (list Z)) :=
  match ops with
  | [] => Some ([], st)
  | SWrite va _ :: ops =>
      match st !! va, uread m (P2V dir) va (Z.to_nat PGSIZE) with
      | None, Some d => if decide (size st < 16)%nat then map_sops ops m dir (<[va := d]> st) else None
      | _, _ => None
      end
  | SRead _ va :: ops =>
      d ← st !! va;
      '(out, st') ← map_sops ops m dir (delete va st);
      Some (d :: out, st')
  | SMem m dir :: ops => map_sops ops m dir st
  end.

Definition whole (st : gmap Z (list Z)) : Prop := ∀ va d, st !! va = Some d → length d = Z.to_nat PGSIZE.

(** C4. The slot table and the swap file implement the map: whatever pages go out
    and come back, and however memory changes in between, as long as no address
    is put out twice without coming back and no more than 16 pages are out, each
    page that comes back has the contents it had when it last went out, and the
    kernel calls all return. *)
Theorem swap_file_refines_map ops : ∀ s pr st out st',
  swap_rel s pr st → whole st →
  map_sops ops (mem (km s)) (cr3 s) st = Some (out, st') →
  runs (run_sops ops) s (λ r s', r = out ∧ ∃ pr', swap_rel s' pr' st').
Proof.
  induction ops as [|[va pgdir|i va|m dir] ops IH]; intros s pr st out st' Hs Hw Hm; cbn [run_sops map_sops] in *.
  - simplify_eq. apply runs_ret. eauto.
  - destruct (st !! va) eqn:Hn; [done|]. destruct (uread _ _ _ _) as [d|] eqn:Hd; [|done].
    case_decide as Hsz; [|done]. apply runs_bind.
    eapply runs_mono; [by apply (write2file_spec s pr st va pgdir d)|]. cbn beta.
    intros _ s' (_ & fs' & sw' & -> & Hs'). eapply IH; [exact Hs'| |exact Hm].
    intros va' d' [[<- <-]|[_ Hd']]%lookup_insert_Some; [by eapply uread_bytes|by eapply Hw].
  - destruct (st !! va) as [d|] eqn:Hd; cbn in Hm; [|done].
    destruct (map_sops ops _ _ _) as [[out1 st1]|] eqn:Hr; cbn in Hm; [|done]. simplify_eq.
    apply runs_bind. eapply runs_mono.
    { eapply (read_page_spec s pr st va d i ToBuff (λ a b, b = set_vbuff (d ++ drop (length d) (vbuff a)) a)); [done..|].
      intros fs'. apply runs_modify. done. }
    cbn beta. intros _ s' (_ & j & e & s1 & s2 & _ & _ & _ & -> & (fs' & ->) & -> & Hs').
    apply runs_bind, runs_get, runs_bind. eapply runs_mono; [eapply IH; [exact Hs'| |exact Hr]|].
    + intros va' d' [_ Hd']%lookup_delete_Some. by eapply Hw.
    + cbn beta. intros r s3 (-> & Hs3). apply runs_ret. split; [|done]. cbn. f_equal.
      pose proof (Hw va d Hd) as Hl. by rewrite take_app_length'.
  - apply runs_bind, runs_modify. eapply (IH _ pr st); [|done|exact Hm]. by destruct Hs; split.
Qed.
End swapops.
