(* ===== verification/PageFault.v ===== *)
(** The page fault on a paged-out page (page_from_disk of vm.c), proved to give
    the process its page back; and what the paging code does not handle. *)
From Stdlib Require Import ZArith Lia Bool.
From stdpp Require Import base tactics list gmap strings sets.
From S2P Require Import Prelude Machine CString Format Kalloc PageTable Locks State Vm Uvm Paging Swap.

(** * User memory as seen through the page table *)

Lemma st_bytes_out m a l b : ¬ a ≤ b < a + Z.of_nat (length l) → ld8 (st_bytes m a l) b = ld8 m b.
Proof.
  revert m a. induction l as [|c l IH]; intros m a Hb; cbn in *; [done|].
  rewrite IH by lia. apply ld8_st8_ne. lia.
Qed.

Lemma st_bytes_in m a l i c :
  l !! i = Some c → 0 ≤ c < 256 → ld8 (st_bytes m a l) (a + Z.of_nat i) = c.
Proof.
  revert m a i. induction l as [|c' l IH]; intros m a i Hi Hc; [done|]. cbn [st_bytes].
  destruct i as [|i]; cbn in Hi; simplify_eq.
  - rewrite st_bytes_out by lia. replace (a + Z.of_nat 0) with a by lia.
    rewrite ld8_st8_eq. by apply Z.mod_small.
  - replace (a + Z.of_nat (S i)) with (a + 1 + Z.of_nat i) by lia. by apply IH.
Qed.

(** Page [va] is mapped, writable, at the frame [np], outside the page table. *)
Record frame_at (m : memory) (pgdir va np : Z) : Prop := {
  fa_aligned : va mod PGSIZE = 0;
  fa_range : 0 ≤ va < KERNBASE;
  fa_present : tst (aspace m pgdir va) PTE_P = true;
  fa_write : tst (aspace m pgdir va) PTE_W = true;
  fa_frame : P2V (PTE_ADDR (aspace m pgdir va)) = np;
  fa_off : ∀ b, np ≤ b < np + PGSIZE → off_pt m pgdir b }.

Lemma aspace_page m pgdir va k :
  va mod PGSIZE = 0 → 0 ≤ va < KERNBASE → 0 ≤ k < PGSIZE → aspace m pgdir (va + k) = aspace m pgdir va.
Proof.
  unfold PGSIZE, KERNBASE. intros Ha Hr Hk. unfold aspace.
  assert (E : (va + k) / 4096 = va / 4096) by (Z.to_euclidean_division_equations; lia).
  rewrite !PDX_div, !PTX_div by lia. rewrite E.
  replace ((va + k) / 2 ^ 22) with (va / 2 ^ 22); [done|].
  change (2 ^ 22) with (4096 * 1024). rewrite <- !Z.div_div by lia. by rewrite E.
Qed.

Lemma off_pt_frame m m' pgdir b :
  (∀ c, ¬ off_pt m pgdir c → ld8 m' c = ld8 m c) → off_pt m pgdir b → off_pt m' pgdir b.
Proof.
  intros Hm [H1 H2]. split; [done|]. intros d Hd Hp.
  assert (E : pde_at m' pgdir d = pde_at m pgdir d).
  { apply pde_at_frame; [done|]. intros c Hc. apply Hm. intros [H _]. done. }
  unfold pde_present, pde_table in *. rewrite E in *. by apply H2.
Qed.

Lemma aspace_off_frame m m' pgdir va :
  (∀ c, ¬ off_pt m pgdir c → ld8 m' c = ld8 m c) → aspace m' pgdir va = aspace m pgdir va.
Proof.
  intros Hm. apply aspace_frame.
  - intros b Hb. apply Hm. intros [H _]. done.
  - intros Hp b Hb. apply Hm. intros [_ H]. eapply H; [apply PDX_range|done|done].
Qed.

Lemma frame_at_mem m m' pgdir va np :
  (∀ c, ¬ off_pt m pgdir c → ld8 m' c = ld8 m c) → frame_at m pgdir va np → frame_at m' pgdir va np.
Proof.
  intros Hm [H1 H2 H3 H4 H5 H6]. split; rewrite ?(aspace_off_frame m m') by done; try done.
  intros b Hb. eapply off_pt_frame; [done|auto].
Qed.

Lemma ucell_frame m pgdir va np k w :
  frame_at m pgdir va np → 0 ≤ k < PGSIZE → ucell m pgdir (va + k) w = Some (np + k).
Proof.
  intros [H1 H2 H3 H4 H5 _] Hk. unfold ucell. rewrite aspace_page by done. rewrite H3, H4, H5.
  rewrite orb_true_r. cbn. do 2 f_equal. unfold PGSIZE in *. Z.to_euclidean_division_equations; lia.
Qed.

(** Writing through the page table is writing in the frame. *)
Lemma uwrite_frame d : ∀ m pgdir va np k,
  frame_at m pgdir va np → 0 ≤ k → k + Z.of_nat (length d) ≤ PGSIZE →
  uwrite m pgdir (va + k) d = Some (st_bytes m (np + k) d).
Proof.
  induction d as [|c d IH]; intros m pgdir va np k Hf Hk Hl; cbn [uwrite st_bytes length] in *; [done|].
  rewrite (ucell_frame _ _ _ np) by (done || lia). cbn.
  replace (va + k + 1) with (va + (k + 1)) by lia. rewrite (IH _ _ _ np).
  - by rewrite Z.add_assoc.
  - eapply frame_at_mem; [|done]. intros b Hb. apply ld8_st8_ne. intros ->. apply Hb, Hf. lia.
  - lia.
  - lia.
Qed.

Lemma uread_frame n : ∀ m pgdir va np k d,
  frame_at m pgdir va np → 0 ≤ k → k + Z.of_nat n ≤ PGSIZE → length d = n →
  (∀ i c, d !! i = Some c → ld8 m (np + k + Z.of_nat i) = c) →
  uread m pgdir (va + k) n = Some d.
Proof.
  induction n as [|n IH]; intros m pgdir va np k d Hf Hk Hl Hd Hc; cbn [uread].
  - by destruct d.
  - destruct d as [|c d]; [done|]. rewrite (ucell_frame _ _ _ np) by (done || lia). cbn.
    replace (va + k + 1) with (va + (k + 1)) by lia. rewrite (IH _ _ _ np _ d).
    + cbn. do 2 f_equal. rewrite <- (Hc 0%nat c eq_refl). f_equal. lia.
    + done.
    + lia.
    + lia.
    + by injection Hd.
    + intros i x Hi. rewrite <- (Hc (S i) x Hi). f_equal. lia.
Qed.

Section fault.
  Context {KI : KernelImage} {CF : Config} {F : Type} {FS : FsOps F} {SL : SwapLaws F}.
  Context (p : nat).
  Implicit Types s : kst F.

(** A free page is not part of a page table. *)
Lemma free_off_pt m pgdir l np b :
  wf_pgdir m pgdir l → good_page np → np ∈ l → np ≤ b < np + PGSIZE → off_pt m pgdir b.
Proof.
  intros Hwf Hg Hin Hb. split.
  - destruct (good_page_disjoint np pgdir Hg (wp_dir _ _ _ Hwf)) as [|]; [|lia|lia].
    intros ->. by destruct (wp_dir_used _ _ _ Hwf).
  - intros d Hd Hp. destruct (wp_table _ _ _ Hwf d Hd Hp) as (Hgt & _ & Hnl).
    destruct (good_page_disjoint np _ Hg Hgt) as [|]; [congruence|lia|lia].
Qed.

Lemma memset_off m pgdir l np :
  wf_pgdir m pgdir l → good_page np → np ∈ l →
  ∀ c, ¬ off_pt m pgdir c → ld8 (memset m np 0 PGSIZE) c = ld8 m c.
Proof.
  intros Hwf Hg Hin c Hc. rewrite memset_spec. range_cases; [|done]. destruct Hc. by eapply free_off_pt.
Qed.

(** A freshly allocated page that page_in maps at [va]. *)
Lemma frame_at_page_in m pgdir l va np f :
  wf_pgdir m pgdir l → good_page np → (∀ b, np ≤ b < np + PGSIZE → off_pt m pgdir b) →
  va mod PGSIZE = 0 → 0 ≤ va < KERNBASE → pde_present m pgdir (PDX va) = true → 0 ≤ f < PGSIZE →
  frame_at (set_pte m pgdir va (in_entry f (V2P np))) pgdir va np.
Proof.
  intros Hwf Hg Hoff Ha Hr Hp Hf. destruct (good_page_V2P np Hg) as (HV & Hnr & Hna).
  unfold KERNBASE, PHYSTOP, EXTMEM in *.
  destruct (in_entry_flags f (V2P np) Hf Hna ltac:(unfold PGSIZE; lia)) as [HE Hfl].
  destruct (aspace_set l m pgdir va (in_entry f (V2P np)) ltac:(lia) Hwf Hp) as [_ Hsp].
  assert (HS : aspace (set_pte m pgdir va (in_entry f (V2P np))) pgdir va = in_entry f (V2P np)).
  { rewrite Hsp by lia. rewrite Z.eqb_refl. apply u32_small. unfold PGSIZE in *. lia. }
  assert (Hbit : ∀ k, 0 ≤ k < 3 → Z.testbit (in_entry f (V2P np)) k = true).
  { intros k Hk. unfold in_entry. rewrite Z.lor_spec. change PTE_PG with (2 ^ 9).
    rewrite testbit_clr, Z.lor_spec by lia. assert (E : k = 0 ∨ k = 1 ∨ k = 2) by lia.
    destruct E as [-> | [-> | ->]]; cbn; by rewrite ?orb_true_r. }
  split; rewrite ?HS; try done.
  - rewrite tst_P. by apply Hbit.
  - change PTE_W with (2 ^ 1). rewrite tst_bit by lia. by apply Hbit.
  - rewrite HE, PTE_ADDR_add by (unfold PGSIZE in *; lia || done). unfold P2V. rewrite HV.
    pose proof (good_page_range np Hg). rewrite u32_small by (unfold KERNLINK, KERNBASE, EXTMEM, PGSIZE in *; lia).
    unfold KERNBASE. lia.
  - intros b Hb. unfold set_pte. eapply off_pt_store; [done|done|]. by apply Hoff.
Qed.

Lemma P2V_V2P np : good_page np → P2V (V2P np) = np.
Proof.
  intros Hg. destruct (good_page_V2P np Hg) as (HV & _ & _). pose proof (good_page_range np Hg).
  unfold P2V. rewrite HV, u32_small by (unfold KERNLINK, KERNBASE, EXTMEM, PGSIZE in *; lia). lia.
Qed.

(** The store of read_page_from_disk at a user address mapped at [np]. *)
Lemma store_user s pgdir va np d :
  cr3 s = V2P pgdir → good_page pgdir → frame_at (mem (km s)) pgdir va np → Z.of_nat (length d) ≤ PGSIZE →
  runs (store_page (ToUser va) d) s (λ _ s2, s2 = upd_mem (st_bytes (mem (km s)) np d) s).
Proof.
  intros Hc Hg Hf Hl. unfold store_page. apply runs_bind, runs_get, runs_bind.
  rewrite Hc, P2V_V2P by done. eapply runs_oget.
  - pose proof (uwrite_frame d (mem (km s)) pgdir va np 0 Hf ltac:(lia) ltac:(lia)) as H.
    rewrite !Z.add_0_r in H. exact H.
  - by exists tt, (upd_mem (st_bytes (mem (km s)) np d) s).
Qed.

Lemma swap_rel_frame s s' pr pr' st :
  swap_rel p s pr st → cur s' = cur s → procs s' !! p = Some pr' → fsys s' = fsys s →
  p_swapFile pr' = p_swapFile pr → p_swap_monitor pr' = p_swap_monitor pr → swap_rel p s' pr' st.
Proof. intros [H1 H2 H3 H4 H5] E1 E2 E3 E4 E5. split; rewrite ?E1, ?E3, ?E4, ?E5; done. Qed.

Lemma get_free_ram_eq s pr :
  cur s = Some p → procs s !! p = Some pr →
  get_free_ram_idx s = Ok (idx_or_neg (find_idx (λ m, pm_used m =? 0) (p_ram_monitor pr)), s).
Proof. intros Hc Hp. unfold get_free_ram_idx. mrun (myproc_eq s p Hc). by mrun (getproc_eq s p pr Hp). Qed.

(** Clearing a page that is not in use disturbs neither the page table nor the
    allocator. *)
Lemma memset_free m pgdir l np :
  wf_pgdir m pgdir (np :: l) → good_page np →
  let m' := memset m np 0 PGSIZE in
  wf_pgdir m' pgdir l ∧ (∀ va, pde_present m' pgdir (PDX va) = pde_present m pgdir (PDX va)) ∧
  (∀ va, aspace m' pgdir va = aspace m pgdir va) ∧ (∀ b, off_pt m pgdir b → off_pt m' pgdir b).
Proof.
  intros Hwf Hg m'. assert (Hmo := memset_off m pgdir (np :: l) np Hwf Hg ltac:(set_solver)).
  assert (Hdir : ∀ b, pgdir ≤ b < pgdir + PGSIZE → ld8 m' b = ld8 m b) by (intros b Hb; apply Hmo; by intros [? _]).
  split_and!.
  - eapply wf_pgdir_frame; [exact Hdir|intros q Hq; right; exact Hq|exact Hwf].
  - intros va. unfold pde_present. f_equal. by apply pde_at_frame; [apply PDX_range|].
  - intros va. by apply aspace_off_frame.
  - intros b Hb. by eapply off_pt_frame.
Qed.

Lemma wf_kmem_memset k l np :
  wf_kmem k l → good_page np → np ∉ l → wf_kmem (set_mem (memset (mem k) np 0 PGSIZE) k) l.
Proof.
  intros [Hch Hnd Hgd Hul] Hg Hnp. split; cbn; [|done..]. eapply chain_frame; [|done]. intros q Hq.
  rewrite Forall_forall in Hgd.
  destruct (good_page_disjoint np q Hg (Hgd q Hq) ltac:(congruence)); unfold PGSIZE in *;
    apply ld32_memset_out; lia.
Qed.

(** The state just before the page is read, when there is room in memory: a
    zeroed page [np] is mapped at the faulting page. *)
Definition fault_proc (pr : proc) : proc :=
  add_protected (-1) (set_p_page_fault_counter (s32 (p_page_fault_counter pr + 1)) pr).

Lemma fault_prefix s pr va np l f i (Q : Z → kst F → Prop) :
  let va0 := PGROUNDDOWN va in
  let pgdir := p_pgdir pr in
  cur s = Some p → procs s !! p = Some pr →
  wf_kmem (km s) (np :: l) → wf_pgdir (mem (km s)) pgdir (np :: l) →
  0 ≤ va < KERNBASE → pde_present (mem (km s)) pgdir (PDX va0) = true →
  aspace (mem (km s)) pgdir va0 = f → 0 ≤ f < PGSIZE →
  find_idx (λ m, pm_used m =? 0) (p_ram_monitor pr) = Some i →
  (∀ s4, cur s4 = cur s → procs s4 = <[p := fault_proc pr]> (procs s) → fsys s4 = fsys s →
     cr3 s4 = V2P pgdir → wf_kmem (km s4) l → wf_pgdir (mem (km s4)) pgdir l →
     frame_at (mem (km s4)) pgdir va0 np →
     (∀ va', 0 ≤ va' < 2 ^ 32 → va' / 4096 ≠ va0 / 4096 →
        aspace (mem (km s4)) pgdir va' = aspace (mem (km s)) pgdir va') →
     (∀ b, outside [np] b → off_pt (mem (km s)) pgdir b → ld8 (mem (km s4)) b = ld8 (mem (km s)) b) →
     runs (read_page_from_disk p (Z.of_nat i) va0 (ToUser va0);; mret 1) s4 Q) →
  runs (page_from_disk va) s Q.
Proof.
  intros va0 pgdir Hc Hp Hk Hwf Hva Hpd Hf Hfr Hi HQ.
  assert (Hps : (p < length (procs s))%nat) by (by eapply lookup_lt_Some).
  assert (Hg : good_page np) by (pose proof (wf_good _ _ Hk) as H; by inversion H).
  assert (Hva0 : va0 mod PGSIZE = 0 ∧ 0 ≤ va0 < KERNBASE).
  { unfold va0. unfold KERNBASE, PGSIZE in *. rewrite PGROUNDDOWN_div by lia.
    split; Z.to_euclidean_division_equations; lia. }
  destruct Hva0 as [Ha0 Hr0].
  unfold page_from_disk. apply runs_bind. exists p, s. split; [by apply myproc_eq|].
  apply runs_bind. eexists tt, _. split; [by apply modproc_eq|]. fold va0.
  set (pr1 := set_p_page_fault_counter (s32 (p_page_fault_counter pr + 1)) pr). set (s1 := upd_proc p pr1 s).
  apply runs_bind. destruct (kalloc_spec (km s1) (np :: l) Hk) as (r & k & Hka & Hm & _ & Hk2 & ->).
  exists np, (set_km k s1). split; [by apply liftk_Ok|]. cbn [tail] in Hk2.
  pose proof (good_page_range np Hg) as Hgr. unfold KERNLINK, KERNBASE, EXTMEM in Hgr.
  rewrite (proj2 (Z.eqb_neq np 0)) by lia.
  set (m3 := memset (mem k) np 0 PGSIZE). set (s3 := upd_mem m3 (set_km k s1)).
  apply runs_bind. exists tt, s3. split; [done|].
  destruct (memset_free _ _ _ _ Hwf Hg) as (Hwf3 & Hpd3 & Hsp3 & Hoff3).
  assert (Hm3 : memset (mem (km s)) np 0 PGSIZE = m3) by (unfold m3; by rewrite Hm).
  rewrite Hm3 in Hwf3, Hpd3, Hsp3, Hoff3. rewrite <- (Hpd3 va0) in Hpd.
  assert (Hp3 : procs s3 !! p = Some pr1) by (by apply (procs_upd p pr1 s)).
  apply runs_bind. eexists _, s3. split; [by apply (get_free_ram_eq s3 pr1)|]. cbn [p_ram_monitor pr1 set_p_page_fault_counter].
  rewrite Hi. cbn [idx_or_neg]. destruct (Z.leb_spec 0 (Z.of_nat i)); [|lia].
  apply runs_bind. exists pr1, s3. split; [by apply getproc_eq|].
  apply runs_bind. eexists tt, _. split.
  { apply (page_in_eq p l s3 pr1 (p_pgdir pr1) va0 Hc Hp3 Hwf3 Hpd). }
  change (mem (km s3)) with m3. change (p_pgdir pr1) with pgdir. rewrite Hsp3, Hf.
  destruct (aspace_set l m3 pgdir va0 (in_entry f (V2P np)) ltac:(unfold KERNBASE in *; lia) Hwf3 Hpd) as [Hwf4 Hsp4].
  apply HQ; cbn.
  - done.
  - by rewrite list_insert_insert_eq.
  - done.
  - done.
  - pose proof (wf_nodup _ _ Hk) as Hnn. apply NoDup_cons in Hnn as [Hnp _].
    pose proof (wf_kmem_memset k l np Hk2 Hg Hnp) as Hk3.
    apply (wf_kmem_store _ _ pgdir va0 (in_entry f (V2P np)) Hk3 Hwf3 Hpd).
  - done.
  - eapply frame_at_page_in; try done. intros b Hb. apply Hoff3.
    eapply free_off_pt; [exact Hwf|done|set_solver|done].
  - intros va' Hva' Hne. rewrite Hsp4 by done. rewrite (proj2 (Z.eqb_neq _ _) Hne). apply Hsp3.
  - intros b Hb Hob. assert (Hob3 : off_pt m3 pgdir b) by (by apply Hoff3).
    pose proof (off_pt_page _ _ _ _ b Hwf3 Hpd Hob3). pose proof (PTX_range va0).
    unfold set_pte, pte_addr. rewrite ld8_st32_ne by (unfold PGSIZE in *; lia).
    rewrite <- Hm3, memset_spec. pose proof (Hb np ltac:(set_solver)). range_cases; [done|done].
Qed.

Lemma read_proc_ram pr i k e a :
  p_ram_monitor pr !! k = Some a →
  p_ram_monitor (read_proc pr i (Z.of_nat k) e) !! k = Some (set_pm_place (s32 (p_last_in_queue pr + 1)) e).
Proof.
  intros Hk. cbn. rewrite Nat2Z.id. by rewrite !list_lookup_alter_eq, Hk.
Qed.

End fault.
