(* ===== verification/Proc.v ===== *)
(** Processes (proc.c): creating, running, sleeping, killing and reaping them.

    A kernel thread leaves the CPU in swtch, called by sched, and comes back there.
    The functions that do so are given in two halves, up to swtch and after it;
    swtch itself enters the scheduler's loop, whose next statements (switchkvm and
    [c->proc = 0]) are part of the first half. *)
From Stdlib Require Import ZArith Lia Bool.
From stdpp Require Import base tactics list strings.
From S2P Require Import Prelude Machine CString Format Kalloc PageTable Locks State Vm Uvm.

(** * Constants of the trap frame and of the first process (mmu.h, trap.c) *)

Definition FL_IF : Z := 0x200.
Definition SEG_UCODE : Z := 3.
Definition SEG_UDATA : Z := 4.
Definition DPL_USER : Z := 3.

(** The addresses of forkret and trapret, from the linker. *)
Class KernelText := { addr_forkret : Z; addr_trapret : Z }.

(** The bytes before the first NUL. *)
Fixpoint upto0 (l : list Z) : list Z :=
  match l with
  | [] => []
  | c :: l => if c =? 0 then [] else c :: upto0 l
  end.

(** safestrcpy into an array of [n] bytes that holds [old]: the byte after a NUL
    that was copied is cleared too. *)
Definition cname (n : nat) (old l : list Z) : list Z :=
  let t := upto0 l in
  if (length t <? n - 1)%nat then t ++ 0 :: 0 :: drop (length t + 2) old
  else take (n - 1) t ++ 0 :: drop n old.

Section proc.
  Context {KI : KernelImage} {CF : Config} {CP : Cpus} {KT : KernelText}.
  Context {F : Type} {FS : FsOps F}.
  Notation K := (M (kst F)).

(** * Creating processes *)

(** The stack that allocproc prepares: the trap frame, then trapret, then the
    context, at the top of the page [kstack]. *)
Definition tf_addr (kstack : Z) : Z := kstack + KSTACKSIZE - 76.

Definition allocproc : K (option nat) :=
  on_ptlock acquire;;
  s ← get;
  match find_idx (λ p, bool_decide (p_state p = UNUSED)) (procs s) with
  | None => on_ptlock release;; mret None
  | Some i =>
      modproc i (λ p, set_p_pid (nextpid s) (set_p_state EMBRYO p));;
      modify (set_nextpid (s32 (nextpid s + 1)));;
      on_ptlock release;;
      kstack ← liftk kalloc;
      modproc i (set_p_kstack kstack);;
      if kstack =? 0 then modproc i (set_p_state UNUSED);; mret None else
      wr32 (tf_addr kstack - 4) addr_trapret;;
      p ← getproc i;
      (if 2 <? p_pid p
       then f ← liftf (fs_createSwapFile (p_pid p)); modproc i (set_p_swapFile f)
       else mret tt);;
      modproc i (set_p_pages_in_file 0);;
      modproc i (set_p_last_in_queue 0);;
      modproc i (set_p_page_fault_counter 0);;
      modproc i (set_p_context (mk_context 0 0 0 0 addr_forkret));;
      mret (Some i)
  end.

(** [init] is the program the build links in as initcode. *)
Definition userinit (init : list Z) : K unit :=
  np ← allocproc;
  modify (set_initproc np);;
  p ← oget np;
  d ← setupkvm;
  modproc p (set_p_pgdir d);;
  if d =? 0 then panic "userinit: out of memory?" else
  inituvm d init;;
  modproc p (set_p_sz PGSIZE);;
  let ds := Z.lor (Z.shiftl SEG_UDATA 3) DPL_USER in
  let cs := Z.lor (Z.shiftl SEG_UCODE 3) DPL_USER in
  modproc p (set_p_tf (mk_tf 0 0 0 0 0 0 0 0 0 ds ds 0 0 0 cs FL_IF PGSIZE ds));;
  modproc p (λ q, set_p_name (cname 16 (p_name q) [105; 110; 105; 116; 99; 111; 100; 101]) q);;
  cwd ← liftf (fs_namei 0 [47]);
  modproc p (set_p_cwd cwd);;
  on_ptlock acquire;;
  modproc p (set_p_state RUNNABLE);;
  on_ptlock release.

Definition growproc (n : Z) : K Z :=
  p ← myproc;
  pr ← getproc p;
  let sz := p_sz pr in
  sz' ← (if 0 <? n then allocuvm (p_pgdir pr) sz (u32 (sz + n))
         else if n <? 0 then deallocuvm (p_pgdir pr) sz (u32 (sz + n))
         else mret sz);
  if negb (n =? 0) && (sz' =? 0) then mret (-1) else
  modproc p (set_p_sz sz');;
  switchuvm (Some p);;
  mret 0.

(** copyParentSwapFile (fs.c): the loop over the slots, and the function. *)
Fixpoint copy_slots (n : nat) (p np : nat) (i : Z) : K Z :=
  match n with
  | O => mret 0
  | S n =>
      pr ← getproc p;
      m ← oget (nthZ (p_swap_monitor pr) i);
      if pm_used m =? 1 then
        '(r, data) ← readFromSwapFile p (PGSIZE * i) PGSIZE;
        if negb (r =? PGSIZE) then mret (-1) else
        w ← writeToSwapFile np data (PGSIZE * i);
        if negb (w =? PGSIZE) then mret (-1) else
        copy_slots n p np (i + 1)
      else copy_slots n p np (i + 1)
  end.

Definition copyParentSwapFile (np : nat) : K Z :=
  p ← myproc;
  pr ← getproc p;
  if 2 <? p_pid pr then copy_slots (Z.to_nat (MAX_TOTAL_PAGES - MAX_PYSC_PAGES)) p np 0 else mret (-1).

Definition copy_ram_monitor (np : nat) : K unit :=
  p ← myproc;
  pr ← getproc p;
  modproc np (λ q, set_p_ram_monitor (set_pm_pgdir (p_pgdir q) <$> p_ram_monitor pr) q).

Definition copy_swap_monitor (np : nat) : K unit :=
  p ← myproc;
  pr ← getproc p;
  modproc np (λ q, set_p_swap_monitor (set_pm_pgdir (p_pgdir q) <$> p_swap_monitor pr) q).

(** The loop of fork over the open files, from descriptor [i]. *)
Fixpoint dup_files (fds : list Z) (np : nat) (i : nat) : K unit :=
  match fds with
  | [] => mret tt
  | f :: fds =>
      (if f =? 0 then mret tt
       else liftf (fs_filedup f);; modproc np (λ q, set_p_ofile (<[i := f]> (p_ofile q)) q));;
      dup_files fds np (S i)
  end.

Definition fork : K Z :=
  curproc ← myproc;
  np ← allocproc;
  match np with
  | None => mret (-1)
  | Some np =>
      cp ← getproc curproc;
      d ← copyuvm (p_pgdir cp) (p_sz cp);
      modproc np (set_p_pgdir d);;
      if d =? 0 then
        q ← getproc np;
        liftk (kfree (p_kstack q));;
        modproc np (set_p_kstack 0);;
        modproc np (set_p_state UNUSED);;
        mret (-1)
      else
      modproc np (set_p_sz (p_sz cp));;
      (if 2 <? p_pid cp then
         r ← copyParentSwapFile np;
         if r <? 0 then panic "fork: error copying swap file from parent!" else
         cp ← getproc curproc;
         modproc np (set_p_last_in_queue (p_last_in_queue cp));;
         copy_swap_monitor np;;
         copy_ram_monitor np
       else mret tt);;
      modproc np (set_p_parent (Some curproc));;
      modproc np (set_p_tf (set_tf_eax 0 (p_tf cp)));;
      dup_files (p_ofile cp) np 0;;
      liftf (fs_idup (p_cwd cp));;
      modproc np (set_p_cwd (p_cwd cp));;
      modproc np (λ q, set_p_name (cname 16 (p_name q) (p_name cp)) q);;
      q ← getproc np;
      let pid := p_pid q in
      modproc np (set_p_page_fault_counter 0);;
      modproc np (set_p_pages_in_file 0);;
      on_ptlock acquire;;
      modproc np (set_p_state RUNNABLE);;
      on_ptlock release;;
      mret pid
  end.

(** * Leaving the CPU *)

(** sched up to swtch; the result is the saved [intena]. *)
Definition sched_enter : K bool :=
  p ← myproc;
  h ← on_ptlock holding;
  if negb h then panic "sched ptable.lock" else
  c ← on_cpu (mycpu;; get);
  if negb (ncli c =? 1) then panic "sched locks" else
  pr ← getproc p;
  if bool_decide (p_state pr = RUNNING) then panic "sched running" else
  c ← gets cpu0;
  if eflags_if c then panic "sched interruptible" else
  on_cpu mycpu;;
  c ← gets cpu0;
  (* swtch(&p->context, mycpu()->scheduler) *)
  switchkvm;;
  modify (set_cur None);;
  mret (intena c).

Definition sched_exit (intena : bool) : K unit :=
  on_cpu (mycpu;; modify (λ c, mk_cpu (ncli c) intena (eflags_if c))).

Definition yield_enter : K bool :=
  on_ptlock acquire;;
  p ← myproc;
  modproc p (set_p_state RUNNABLE);;
  sched_enter.

Definition yield_exit (intena : bool) : K unit :=
  sched_exit intena;;
  on_ptlock release.

(** forkret after its first call, which also initializes the file system. *)
Definition forkret : K unit := on_ptlock release.

(** sleep(chan, lk) for a lock [lk] that is not ptable.lock: [unlock] and [relock]
    are release(lk) and acquire(lk). *)
Definition sleep_enter (c : chan) (unlock : K unit) : K bool :=
  s ← get;
  match cur s with
  | None => panic "sleep"
  | Some p =>
      on_ptlock acquire;;
      unlock;;
      modproc p (λ q, set_p_state SLEEPING (set_p_chan c q));;
      sched_enter
  end.

Definition sleep_exit (intena : bool) (relock : K unit) : K unit :=
  sched_exit intena;;
  p ← myproc;
  modproc p (set_p_chan CNone);;
  on_ptlock release;;
  relock.

(** sleep(chan, &ptable.lock) *)
Definition sleep_ptable_enter (c : chan) : K bool :=
  s ← get;
  match cur s with
  | None => panic "sleep"
  | Some p => modproc p (λ q, set_p_state SLEEPING (set_p_chan c q));; sched_enter
  end.

Definition sleep_ptable_exit (intena : bool) : K unit :=
  sched_exit intena;;
  p ← myproc;
  modproc p (set_p_chan CNone).

(** * Waking, killing, dying, reaping *)

Definition wakeup1 (c : chan) : K unit :=
  modify (λ s, set_procs ((λ p,
    if bool_decide (p_state p = SLEEPING) && bool_decide (p_chan p = c)
    then set_p_state RUNNABLE p else p) <$> procs s) s).

Definition wakeup (c : chan) : K unit :=
  on_ptlock acquire;;
  wakeup1 c;;
  on_ptlock release.

Definition kill (pid : Z) : K Z :=
  on_ptlock acquire;;
  s ← get;
  match find_idx (λ p, p_pid p =? pid) (procs s) with
  | Some i =>
      modproc i (λ p, let p := set_p_killed 1 p in
        if bool_decide (p_state p = SLEEPING) then set_p_state RUNNABLE p else p);;
      on_ptlock release;;
      mret 0
  | None => on_ptlock release;; mret (-1)
  end.

(** The loop of exit over the open files. *)
Fixpoint close_files (fds : list Z) (p i : nat) : K unit :=
  match fds with
  | [] => mret tt
  | f :: fds =>
      (if f =? 0 then mret tt
       else liftf (fs_fileclose f);; modproc p (λ q, set_p_ofile (<[i := 0]> (p_ofile q)) q));;
      close_files fds p (S i)
  end.

(** The loop of exit over the process table, from slot [i]. *)
Fixpoint reparent (n i curproc : nat) : K unit :=
  match n with
  | O => mret tt
  | S n =>
      p ← getproc i;
      (if bool_decide (p_parent p = Some curproc) then
         s ← get;
         modproc i (set_p_parent (initproc s));;
         if bool_decide (p_state p = ZOMBIE) then wakeup1 (chan_of (initproc s)) else mret tt
       else mret tt);;
      reparent n (S i) curproc
  end.

(** exit up to its swtch, after which it never runs again. *)
Definition exit_enter : K bool :=
  curproc ← myproc;
  s ← get;
  if bool_decide (initproc s = Some curproc) then panic "init exiting" else
  cp ← getproc curproc;
  close_files (p_ofile cp) curproc 0;;
  (if 2 <? p_pid cp then
     r ← liftf (fs_removeSwapFile (p_pid cp) (p_swapFile cp));
     if negb (r =? 0) then panic "exit ERROR: swap file wasn't deleted." else mret tt
   else mret tt);;
  liftf fs_begin_op;;
  liftf (fs_iput (p_cwd cp));;
  liftf fs_end_op;;
  modproc curproc (set_p_cwd 0);;
  on_ptlock acquire;;
  cp ← getproc curproc;
  wakeup1 (chan_of (p_parent cp));;
  reparent (Z.to_nat NPROC) 0 curproc;;
  modproc curproc (set_p_state ZOMBIE);;
  sched_enter.

(** What wait does with an exited child in slot [i]. *)
Definition reap (i : nat) : K Z :=
  p ← getproc i;
  let pid := p_pid p in
  liftk (kfree (p_kstack p));;
  modproc i (set_p_kstack 0);;
  freevm (p_pgdir p);;
  modproc i (set_p_pid 0);;
  modproc i (set_p_parent None);;
  modproc i (λ q, set_p_name (<[0%nat := 0]> (p_name q)) q);;
  modproc i (set_p_killed 0);;
  modproc i (set_p_state UNUSED);;
  modproc i (λ q, set_p_swap_monitor (set_pm_used 0 <$> p_swap_monitor q) q);;
  modproc i (λ q, set_p_ram_monitor (set_pm_used 0 <$> p_ram_monitor q) q);;
  on_ptlock release;;
  mret pid.

(** The scan of wait: the pid it reaped, or whether it saw a child. *)
Fixpoint wait_scan (n i curproc : nat) (havekids : bool) : K (Z + bool) :=
  match n with
  | O => mret (inr havekids)
  | S n =>
      p ← getproc i;
      if negb (bool_decide (p_parent p = Some curproc)) then wait_scan n (S i) curproc havekids
      else if bool_decide (p_state p = ZOMBIE) then pid ← reap i; mret (inl pid)
      else wait_scan n (S i) curproc true
  end.

(** One turn of wait's loop: it returns, or sleeps. *)
Inductive wres := WReturn (pid : Z) | WSleep (intena : bool).

Definition wait_round : K wres :=
  curproc ← myproc;
  r ← wait_scan (Z.to_nat NPROC) 0 curproc false;
  match r with
  | inl pid => mret (WReturn pid)
  | inr havekids =>
      cp ← getproc curproc;
      if negb havekids || negb (p_killed cp =? 0) then on_ptlock release;; mret (WReturn (-1))
      else i ← sleep_ptable_enter (CProc curproc); mret (WSleep i)
  end.

Definition wait_enter : K wres := on_ptlock acquire;; wait_round.
Definition wait_resume (intena : bool) : K wres := sleep_ptable_exit intena;; wait_round.

(** * The scheduler *)

(** The scan of the process table from slot [i], up to the swtch to a process;
    [None] at the end of the table. *)
Fixpoint scheduler_scan (n i : nat) : K (option nat) :=
  match n with
  | O => mret None
  | S n =>
      p ← getproc i;
      if negb (bool_decide (p_state p = RUNNABLE)) then scheduler_scan n (S i) else
      modify (set_cur (Some i));;
      switchuvm (Some i);;
      modproc i (set_p_state RUNNING);;
      mret (Some i)
  end.

(** The scan after the process of slot [i - 1] came back, and the turns of the
    outer loop that find nothing. *)
Definition scheduler_from (i : nat) : K (option nat) := scheduler_scan (Z.to_nat NPROC - i) i.

Definition scheduler_turn : K unit :=
  on_ptlock release;;
  on_cpu sti;;
  on_ptlock acquire.

Definition scheduler_start : K unit :=
  on_cpu mycpu;;
  modify (set_cur None);;
  on_cpu sti;;
  on_ptlock acquire.

(** * Listing the processes *)

Definition txt (s : string) : list Z := (λ c, Z.of_nat (Ascii.nat_of_ascii c)) <$> String.list_ascii_of_string s.

Definition used_swap_pages (p : proc) : Z :=
  Z.of_nat (length (filter (λ m, pm_used m = 1) (p_swap_monitor p))).

Definition state_name (st : procstate) : list Z :=
  txt match st with
      | UNUSED => "unused" | EMBRYO => "embryo" | SLEEPING => "sleep "
      | RUNNABLE => "runble" | RUNNING => "run   " | ZOMBIE => "zombie"
      end.

Definition put (l : list Z) : K unit := modify (λ s, set_cons_out (cons_out s ++ l) s).
Definition int (n : Z) : list Z := printint n 10 true.

(** The return addresses that procdump prints, up to the first 0. *)
Definition pcs_text (m : memory) (p : proc) : list Z :=
  concat ((λ pc, 32 :: printint pc 16 false) <$> upto0 (getcallerpcs m (cx_ebp (p_context p) + 8))).

Definition dump_one (i : nat) : K unit :=
  p ← getproc i;
  if bool_decide (p_state p = UNUSED) then mret tt else
  put (int (p_pid p) ++ txt " " ++ state_name (p_state p) ++ [10]);;
  let total_available_pages := PGROUNDUP (p_sz p) / PGSIZE in
  let swap_pages := used_swap_pages p in
  modproc i (set_p_protected 0);;
  p ← getproc i;
  put ([10] ++ int total_available_pages ++ txt " " ++ int swap_pages ++ txt " " ++ int (p_protected p)
       ++ txt " " ++ int (p_page_fault_counter p) ++ txt " " ++ int (p_pages_in_file p) ++ txt " "
       ++ upto0 (p_name p) ++ [10]);;
  (if bool_decide (p_state p = SLEEPING) then s ← get; put (pcs_text (mem (km s)) p) else mret tt);;
  n ← liftk (free_pages_in_system (Z.to_nat (PHYSTOP / PGSIZE)));
  put (int n ++ txt " /" ++ int total_available_pages ++ txt " " ++ [10]);;
  put [10].

Fixpoint dump_from (n i : nat) : K unit :=
  match n with O => mret tt | S n => dump_one i;; dump_from n (S i) end.

Definition procdump : K unit := dump_from (Z.to_nat NPROC) 0.
End proc.
