(* ===== verification/Keeps.v ===== *)
(** What the memory and file operations leave alone: the part of the process table
    that scheduling depends on, and everything but the paging meta-data. *)
From Stdlib Require Import ZArith Lia Bool.
From stdpp Require Import base tactics list strings.
From S2P Require Import Prelude Machine CString Format Kalloc PageTable Locks State Vm Uvm Paging Proc.

(** The fields of a process that scheduling depends on. *)
Record ent := mk_ent { e_state : procstate; e_pid : Z; e_parent : option nat; e_chan : chan; e_killed : Z }.

Definition psig (p : proc) : ent := mk_ent (p_state p) (p_pid p) (p_parent p) (p_chan p) (p_killed p).

(** A process without the paging meta-data that vm.c and the swap functions keep. *)
Definition vsig (p : proc) : proc :=
  set_p_ram_monitor [] (set_p_swap_monitor [] (set_p_pages_in_file 0 (set_p_last_in_queue 0
    (set_p_protected 0 (set_p_page_fault_counter 0 p))))).

Lemma vsig_psig p q : vsig p = vsig q → psig p = psig q.
Proof. destruct p, q. unfold vsig, psig. cbn. intros H. by injection H as <-; subst. Qed.

(** At most one level of interrupt disabling, and interrupts off above level 0. *)
Definition cpu_low (c : cpu) : Prop := ncli c = 0 ∨ ncli c = 1 ∧ eflags_if c = false.

Section returned.
  Context {F : Type}.
  Implicit Types s : kst F.

Lemma modproc_Ok i f s u s' :
  modproc i f s = Ok (u, s') → ∃ p, procs s !! i = Some p ∧ s' = upd_proc i (f p) s.
Proof.
  intros H. apply bind_Ok in H as (s1 & s2 & [= <- <-] & H). apply bind_Ok in H as (p & s2 & Hp & [= _ <-]).
  destruct (procs s !! i) as [q|]; [|done]. injection Hp as <- <-. by exists q.
Qed.

Lemma getproc_Ok i s p s' : getproc i s = Ok (p, s') → s' = s ∧ procs s !! i = Some p.
Proof.
  intros H. apply bind_Ok in H as (s1 & s2 & [= <- <-] & H).
  destruct (procs s !! i) as [q|]; [|done]. by injection H as <- <-.
Qed.

Lemma myproc_Ok s p s' : myproc s = Ok (p, s') → s' = s ∧ cur s = Some p.
Proof.
  intros H. apply bind_Ok in H as (s1 & s2 & [= <- <-] & H).
  destruct (cur s) as [q|]; [|done]. by injection H as <- <-.
Qed.

End returned.

Section keeps.
  Context {KI : KernelImage} {CF : Config} {CP : Cpus} {KT : KernelText}.
  Context {F : Type} {FS : FsOps F}.
  Context {E : Type} {sig : proc → E}.
  Implicit Types s : kst F.

(** The processes agree in [sig]; the rest of the scheduling state is the same. *)
Record keep (s s' : kst F) : Prop := {
  kp_procs : sig <$> procs s' = sig <$> procs s;
  kp_cur : cur s' = cur s;
  kp_nextpid : nextpid s' = nextpid s;
  kp_init : initproc s' = initproc s;
  kp_lock : ptlock s' = ptlock s;
  kp_cpu : cpu_low (cpu0 s) → ncli (cpu0 s') = ncli (cpu0 s) ∧ eflags_if (cpu0 s') = eflags_if (cpu0 s) }.

Lemma keep_refl s : keep s s.
Proof. by split. Qed.

Lemma keep_trans s1 s2 s3 : keep s1 s2 → keep s2 s3 → keep s1 s3.
Proof.
  intros [A1 A2 A3 A4 A5 A6] [B1 B2 B3 B4 B5 B6]. split; try congruence.
  intros H. destruct (A6 H) as [E1 E2].
  assert (H2 : cpu_low (cpu0 s2)) by (unfold cpu_low in *; by rewrite E1, E2).
  destruct (B6 H2). split; congruence.
Qed.

(** [m], when it returns, leaves these fields alone. *)
Definition keeps {A} (m : M (kst F) A) : Prop := ∀ s a s', m s = Ok (a, s') → keep s s'.

Lemma keeps_bind {A B} (m : M (kst F) A) (f : A → M (kst F) B) :
  keeps m → (∀ a, keeps (f a)) → keeps (m ≫= f).
Proof.
  intros Hm Hf s b s' H. apply bind_Ok in H as (a & s1 & H1 & H2).
  eapply keep_trans; [by eapply Hm|by eapply Hf].
Qed.

Lemma keeps_ret {A} (a : A) : keeps (mret a).
Proof. intros s b s' [= _ <-]. apply keep_refl. Qed.
Lemma keeps_panic {A} e : keeps (A:=A) (panic e).
Proof. by intros s b s'. Qed.
Lemma keeps_fault {A} : keeps (A:=A) fault.
Proof. by intros s b s'. Qed.
Lemma keeps_nofuel {A} : keeps (A:=A) nofuel.
Proof. by intros s b s'. Qed.
Lemma keeps_get : keeps get.
Proof. intros s b s' [= _ <-]. apply keep_refl. Qed.
Lemma keeps_gets {A} (f : kst F → A) : keeps (gets f).
Proof. intros s b s' [= _ <-]. apply keep_refl. Qed.
Lemma keeps_oget {A} (o : option A) : keeps (oget o).
Proof. destruct o; [apply keeps_ret|apply keeps_fault]. Qed.
Lemma keeps_when b (m : M (kst F) unit) : keeps m → keeps (when b m).
Proof. intros H. destruct b; [done|apply keeps_ret]. Qed.
Lemma keeps_modify f : (∀ s, keep s (f s)) → keeps (modify f).
Proof. intros H s b s' [= _ <-]. apply H. Qed.
Lemma keeps_liftk {A} (m : M kmst A) : keeps (liftk m).
Proof. intros s a s'. unfold liftk, zoom. destruct (m (km s)) as [[]| | | |]; try done. intros [= <- <-]. by split. Qed.
Lemma keeps_liftf {A} (m : M F A) : keeps (liftf m).
Proof. intros s a s'. unfold liftf, zoom. destruct (m (fsys s)) as [[]| | | |]; try done. intros [= <- <-]. by split. Qed.
Lemma keeps_getproc i : keeps (getproc i).
Proof. apply keeps_bind; [apply keeps_get|intros s]. apply keeps_oget. Qed.
Lemma keeps_myproc : keeps myproc.
Proof. apply keeps_bind; [apply keeps_get|intros s]. apply keeps_oget. Qed.

Lemma keeps_modproc i f : (∀ p, sig (f p) = sig p) → keeps (modproc i f).
Proof.
  intros Hf s a s' H. apply bind_Ok in H as (s1 & s2 & [= <- <-] & H).
  apply bind_Ok in H as (p & s2 & Hp & [= _ <-]). destruct (procs s !! i) as [q|] eqn:Eq; [|done].
  injection Hp as <- <-. split; try done. cbn. rewrite list_fmap_insert.
  apply list_insert_id. by rewrite list_lookup_fmap, Eq, Hf.
Qed.
End keeps.
Arguments keep {F E} sig s s'.
Arguments keeps {F E} sig {A} m.

Create HintDb keeps discriminated.
#[export] Hint Resolve keeps_ret keeps_panic keeps_fault keeps_nofuel keeps_get keeps_gets keeps_oget
  keeps_liftk keeps_liftf keeps_getproc keeps_myproc : keeps.
#[export] Hint Resolve vsig_psig : keeps.
#[export] Hint Extern 1 (∀ p, psig _ = psig p) => (intros []; reflexivity) : keeps.
#[export] Hint Extern 1 (∀ p, vsig _ = vsig p) => (intros []; reflexivity) : keeps.
#[export] Hint Extern 1 (∀ s, keep _ s _) => (intros []; by split) : keeps.

(** Take a computation apart and settle the pieces that are known to keep. *)
Ltac keeps_step :=
  first
  [ solve [eauto 4 with keeps]
  | lazymatch goal with
    | |- keeps _ (mbind _ _) => apply keeps_bind; [|intros ?]
    | |- keeps _ (when _ _) => apply keeps_when
    | |- keeps _ (modproc _ _) => apply keeps_modproc; eauto with keeps
    | |- keeps _ (modify _) => apply keeps_modify; eauto with keeps
    | |- keeps _ (if ?b then _ else _) => destruct b
    | |- keeps _ (match ?x with _ => _ end) => destruct x
    | |- keeps _ (let _ := _ in _) => cbv zeta
    end ].
Ltac keeps := repeat keeps_step.

(** * vm.c keeps the table *)

Section vmkeeps.
  Context {KI : KernelImage} {CF : Config} {CP : Cpus} {KT : KernelText}.
  Context {F : Type} {FS : FsOps F}.
  Context (self : nat) (Hself : cpu_index = Some self).
  Context {E : Type} {sig : proc → E} (Hsig : ∀ p q, vsig p = vsig q → sig p = sig q).
  #[local] Hint Extern 1 (∀ p, sig _ = sig p) => (intros []; apply Hsig; reflexivity) : keeps.

Lemma keeps_rd32 a : keeps sig (F:=F) (rd32 a).
Proof. apply keeps_liftk. Qed.
Lemma keeps_wr32 a v : keeps sig (F:=F) (wr32 a v).
Proof. apply keeps_liftk. Qed.
Lemma keeps_memset_k a c n : keeps sig (F:=F) (memset_k a c n).
Proof. apply keeps_liftk. Qed.
Lemma keeps_walk d va : keeps sig (F:=F) (walk d va).
Proof. apply keeps_liftk. Qed.
Lemma keeps_lcr3 v : keeps sig (F:=F) (lcr3 v).
Proof. unfold lcr3. keeps. Qed.
#[local] Hint Resolve keeps_rd32 keeps_wr32 keeps_memset_k keeps_walk keeps_lcr3 : keeps.

Lemma keeps_ldpte a : keeps sig (F:=F) (ldpte a).
Proof. unfold ldpte. keeps. Qed.
#[local] Hint Resolve keeps_ldpte : keeps.
Lemma keeps_page_in a b c : keeps sig (F:=F) (page_in a b c).
Proof. unfold page_in. keeps. Qed.
Lemma keeps_page_out a b : keeps sig (F:=F) (page_out a b).
Proof. unfold page_out. keeps. Qed.
Lemma keeps_get_free_ram_idx : keeps sig (F:=F) get_free_ram_idx.
Proof. unfold get_free_ram_idx. keeps. Qed.
#[local] Hint Resolve keeps_page_in keeps_page_out keeps_get_free_ram_idx : keeps.
Lemma keeps_add2ram a b : keeps sig (F:=F) (add2ram a b).
Proof. unfold add2ram. keeps. Qed.
Lemma keeps_scfifo_loop n : keeps sig (F:=F) (scfifo_loop n).
Proof. induction n; cbn [scfifo_loop]; keeps. Qed.
#[local] Hint Resolve keeps_add2ram keeps_scfifo_loop : keeps.
Lemma keeps_replace : keeps sig (F:=F) replace_page_by_policy.
Proof. unfold replace_page_by_policy, select_LIFO, select_SCFIFO. keeps. Qed.
Lemma keeps_writeToSwapFile a b c : keeps sig (F:=F) (writeToSwapFile a b c).
Proof. unfold writeToSwapFile. keeps. Qed.
Lemma keeps_readFromSwapFile a b c : keeps sig (F:=F) (readFromSwapFile a b c).
Proof. unfold readFromSwapFile. keeps. Qed.
#[local] Hint Resolve keeps_replace keeps_writeToSwapFile keeps_readFromSwapFile : keeps.
Lemma keeps_write2file a b : keeps sig (F:=F) (write2file a b).
Proof. unfold write2file, get_swap_idx. keeps. Qed.
Lemma keeps_store_page a b : keeps sig (F:=F) (store_page a b).
Proof. unfold store_page. keeps. Qed.
#[local] Hint Resolve keeps_write2file keeps_store_page : keeps.
Lemma keeps_read_page a b c d : keeps sig (F:=F) (read_page_from_disk a b c d).
Proof. unfold read_page_from_disk. keeps. Qed.
#[local] Hint Resolve keeps_read_page : keeps.
Lemma keeps_swap a b : keeps sig (F:=F) (swap a b).
Proof. unfold swap. keeps. Qed.
Lemma keeps_page_from_disk a : keeps sig (F:=F) (page_from_disk a).
Proof. unfold page_from_disk. keeps. Qed.
#[local] Hint Resolve keeps_swap keeps_page_from_disk : keeps.

Lemma keeps_dealloc_loop n a b c : keeps sig (F:=F) (dealloc_loop n a b c).
Proof. revert b. induction n; intros b; cbn [dealloc_loop]; keeps. Qed.
#[local] Hint Resolve keeps_dealloc_loop : keeps.
Lemma keeps_deallocuvm a b c : keeps sig (F:=F) (deallocuvm a b c).
Proof. unfold deallocuvm. keeps. Qed.
#[local] Hint Resolve keeps_deallocuvm : keeps.
Lemma keeps_free_tables n a b : keeps sig (F:=F) (free_tables n a b).
Proof. revert b. induction n; intros b; cbn [free_tables]; keeps. Qed.
#[local] Hint Resolve keeps_free_tables : keeps.
Lemma keeps_freevm a : keeps sig (F:=F) (freevm a).
Proof. unfold freevm. keeps. Qed.
#[local] Hint Resolve keeps_freevm : keeps.
Lemma keeps_setup_loop ks a : keeps sig (F:=F) (setup_loop ks a).
Proof. induction ks; cbn [setup_loop]; keeps. Qed.
#[local] Hint Resolve keeps_setup_loop : keeps.
Lemma keeps_setupkvm : keeps sig (F:=F) setupkvm.
Proof. unfold setupkvm. keeps. Qed.
#[local] Hint Resolve keeps_setupkvm : keeps.
Lemma keeps_copy_loop n a b c d : keeps sig (F:=F) (copy_loop n a b c d).
Proof. revert c. induction n; intros c; cbn [copy_loop]; keeps. Qed.
#[local] Hint Resolve keeps_copy_loop : keeps.
Lemma keeps_copyuvm a b : keeps sig (F:=F) (copyuvm a b).
Proof. unfold copyuvm. keeps. Qed.
Lemma keeps_alloc_loop n a b c d e : keeps sig (F:=F) (alloc_loop n a b c d e).
Proof. revert b e. induction n; intros b e; cbn [alloc_loop]; keeps. Qed.
#[local] Hint Resolve keeps_copyuvm keeps_alloc_loop : keeps.
Lemma keeps_allocuvm a b c : keeps sig (F:=F) (allocuvm a b c).
Proof. unfold allocuvm. keeps. Qed.
Lemma keeps_inituvm a b : keeps sig (F:=F) (inituvm a b).
Proof. unfold inituvm. keeps. Qed.
#[local] Hint Resolve keeps_allocuvm keeps_inituvm : keeps.

(** pushcli and popcli around the change of address space cancel out. *)
Lemma keeps_push_pop (f g : kst F → kst F) :
  (∀ s, keep sig s (g (f s)) ∧ cpu0 (g (f s)) = cpu0 s) →
  keeps sig (on_cpu pushcli;; modify f;; modify g;; on_cpu popcli).
Proof.
  intros Hm s a s' H. apply bind_Ok in H as (u1 & s1 & H1 & H).
  change ((on_cpu popcli) (g (f s1)) = Ok (a, s')) in H. rename H into H3.
  destruct (Hm s1) as (Hk & Hc). remember (g (f s1)) as s2 eqn:Es. clear Es. unfold on_cpu, zoom in H1, H3.
  destruct (pushcli (cpu0 s)) as [[[] c1]| | | |] eqn:P1; simplify_eq.
  destruct (popcli (cpu0 s2)) as [[[] c2]| | | |] eqn:P2; simplify_eq.
  destruct Hk as [K1 K2 K3 K4 K5 _]. split; cbn in *; try done.
  intros Hlow. rewrite Hc in P2. cbn in P2.
  rewrite (pushcli_spec self Hself) in P1 by (destruct Hlow as [?|[? _]]; lia). simplify_eq.
  rewrite <- P1 in P2. rewrite (popcli_spec self Hself) in P2 by (cbn; destruct Hlow as [?|[? _]]; lia || done).
  simplify_eq. cbn. destruct Hlow as [E0|[E1 E2]]; [rewrite E0|rewrite E1, E2]; cbn; auto with lia.
Qed.

Lemma keeps_switchuvm p : keeps sig (F:=F) (switchuvm p).
Proof.
  unfold switchuvm, lcr3. destruct p as [i|]; [|keeps]. apply keeps_bind; [keeps|intros pr].
  destruct (_ =? 0); [keeps|]. destruct (_ =? 0); [keeps|]. apply keeps_push_pop. by intros [].
Qed.
End vmkeeps.
#[export] Hint Resolve keeps_rd32 keeps_wr32 keeps_memset_k keeps_lcr3 keeps_walk keeps_ldpte keeps_copyuvm keeps_allocuvm keeps_deallocuvm
  keeps_freevm keeps_setupkvm keeps_inituvm keeps_page_from_disk keeps_writeToSwapFile keeps_readFromSwapFile
  keeps_switchuvm : keeps.

Section prockeeps.
  Context {KI : KernelImage} {CF : Config} {CP : Cpus} {KT : KernelText}.
  Context {F : Type} {FS : FsOps F}.
  Context (self : nat) (Hself : cpu_index = Some self).

Lemma keeps_growproc n : keeps psig (F:=F) (growproc n).
Proof. unfold growproc. keeps. Qed.
Lemma keeps_copy_slots n p np i : keeps psig (F:=F) (copy_slots n p np i).
Proof. revert i. induction n; intros i; cbn [copy_slots]; keeps. Qed.
#[local] Hint Resolve keeps_copy_slots : keeps.
Lemma keeps_copyParentSwapFile np : keeps psig (F:=F) (copyParentSwapFile np).
Proof. unfold copyParentSwapFile. keeps. Qed.
Lemma keeps_copy_monitors np : keeps psig (F:=F) (copy_swap_monitor np;; copy_ram_monitor np).
Proof. unfold copy_swap_monitor, copy_ram_monitor. keeps. Qed.
Lemma keeps_dup_files l np i : keeps psig (F:=F) (dup_files l np i).
Proof. revert i. induction l; intros i; cbn [dup_files]; keeps. Qed.
Lemma keeps_close_files l p i : keeps psig (F:=F) (close_files l p i).
Proof. revert i. induction l; intros i; cbn [close_files]; keeps. Qed.
End prockeeps.
#[export] Hint Resolve keeps_growproc keeps_copyParentSwapFile keeps_copy_monitors keeps_dup_files
  keeps_close_files : keeps.
