(* ===== verification/Sched.v ===== *)
(** The process table as a state machine: the steps that the processes and the
    scheduler of a CPU take between two context switches, and the invariants of
    every state they reach. *)
From Stdlib Require Import ZArith Lia Bool.
From stdpp Require Import base tactics list strings relations.
From S2P Require Import Prelude Machine CString Format Kalloc PageTable Locks State Vm Uvm Paging Proc Keeps.

(** * The invariant of the table

    [ps] is the table, [ini] the slot of the first process, [np] the next pid. *)
Record tinv (ps : list ent) (ini : option nat) (np : Z) : Prop := {
  (** live processes have different pids, all of them given out *)
  ti_fresh : ∀ i e, ps !! i = Some e → e_state e ≠ UNUSED → 0 < e_pid e < np;
  ti_pid : ∀ i j e f, ps !! i = Some e → ps !! j = Some f →
    e_state e ≠ UNUSED → e_state f ≠ UNUSED → e_pid e = e_pid f → i = j;
  (** a free slot has no parent, nobody is its own parent, init has none *)
  ti_unused : ∀ i e, ps !! i = Some e → e_state e = UNUSED → e_parent e = None;
  ti_self : ∀ i e, ps !! i = Some e → e_parent e ≠ Some i;
  ti_init : ∀ i, ini = Some i → ∃ e, ps !! i = Some e ∧ e_parent e = None ∧ e_state e ≠ UNUSED;
  (** a process that sleeps on a process sleeps on itself, in wait *)
  ti_chan : ∀ i e j, ps !! i = Some e → e_state e = SLEEPING → e_chan e = CProc j → j = i;
  (** ... and then none of its children has exited *)
  ti_lost : ∀ i j e f, ps !! i = Some e → e_state e = SLEEPING → e_chan e = CProc i →
    ps !! j = Some f → e_parent f = Some i → e_state f ≠ ZOMBIE }.

(** The processes that are running are the one the CPU says. *)
Definition run_inv (ps : list ent) (c : option nat) : Prop :=
  ∀ i e, ps !! i = Some e → e_state e = RUNNING ↔ c = Some i.

(** ** Changes of one slot *)

(** A new entry [f] in slot [i], when it fits the others. *)
Lemma tinv_insert ps ini np np' i e f :
  tinv ps ini np → ps !! i = Some e → np ≤ np' →
  (e_state f ≠ UNUSED → 0 < e_pid f < np' ∧ (e_pid f = e_pid e ∧ e_state e ≠ UNUSED ∨ np ≤ e_pid f)) →
  (e_state f = UNUSED → e_parent f = None) → e_parent f ≠ Some i →
  (ini = Some i → e_parent f = None ∧ e_state f ≠ UNUSED) →
  (∀ j, e_state f = SLEEPING → e_chan f = CProc j →
     j = i ∧ ∀ k g, ps !! k = Some g → k ≠ i → e_parent g = Some i → e_state g ≠ ZOMBIE) →
  (e_state f = ZOMBIE → ∀ j g, e_parent f = Some j → ps !! j = Some g → j ≠ i → e_state g = SLEEPING →
     e_chan g ≠ CProc j) →
  tinv (<[i := f]> ps) ini np'.
Proof.
  intros [H1 H2 H3 H4 H5 H6 H7] He Hnp Hpid Hun Hself Hini Hsl Hzo. split.
  - intros j g [[-> ->]|[_ Hj]]%lookup_insert_cases Hs; [by apply Hpid|]. pose proof (H1 j g Hj Hs). lia.
  - intros j k g h [[-> ->]|[Hn Hj]]%lookup_insert_cases [[-> ->]|[Hm Hk]]%lookup_insert_cases Hs Ht E; [done| | |by eauto].
    + destruct (Hpid Hs) as [_ [[E' Hu]|Hge]]; [symmetry; apply (H2 k i h e); congruence|]. pose proof (H1 k h Hk Ht). lia.
    + destruct (Hpid Ht) as [_ [[E' Hu]|Hge]]; [apply (H2 j i g e); congruence|]. pose proof (H1 j g Hj Hs). lia.
  - intros j g [[-> ->]|[_ Hj]]%lookup_insert_cases; eauto.
  - intros j g [[-> ->]|[_ Hj]]%lookup_insert_cases; eauto.
  - intros j Hj. destruct (H5 j Hj) as (g & Hg & Hp & Hu). destruct (decide (j = i)) as [->|].
    + exists f. split; [apply list_lookup_insert_eq; by eapply lookup_lt_Some|auto].
    + exists g. by rewrite list_lookup_insert_ne.
  - intros j g k [[-> ->]|[_ Hj]]%lookup_insert_cases Hs Hc; [by destruct (Hsl k Hs Hc)|eauto].
  - intros j k g h [[-> ->]|[Hn Hj]]%lookup_insert_cases Hs Hc [[-> ->]|[Hm Hk]]%lookup_insert_cases Hp Hz; [congruence| | |by eapply (H7 j k g h)].
    + destruct (Hsl i Hs Hc) as [_ Hk']. by eapply Hk'.
    + by eapply (Hzo Hz j g).
Qed.

(** A slot that changes its state without sleeping, dying or being freed. *)
Lemma tinv_state ps ini np i e st k :
  tinv ps ini np → ps !! i = Some e → e_state e ≠ UNUSED → (st = RUNNABLE ∨ st = RUNNING) →
  tinv (<[i := mk_ent st (e_pid e) (e_parent e) (e_chan e) k]> ps) ini np.
Proof.
  intros Ht He Hl Hst. eapply tinv_insert; [done|done|lia|cbn..].
  - intros _. split; [by eapply ti_fresh|auto].
  - by destruct Hst as [-> | ->].
  - by eapply ti_self.
  - intros Hi. destruct (ti_init _ _ _ Ht i Hi) as (g & Hg & Hp & Hn). simplify_eq. split; [done|by destruct Hst as [-> | ->]].
  - by destruct Hst as [-> | ->].
  - by destruct Hst as [-> | ->].
Qed.

(** A free slot that is given to a new process. *)
Lemma tinv_embryo ps ini np i e :
  tinv ps ini np → ps !! i = Some e → e_state e = UNUSED → 0 < np →
  tinv (<[i := mk_ent EMBRYO np (e_parent e) (e_chan e) (e_killed e)]> ps) ini (np + 1).
Proof.
  intros Ht He Hu Hnp. pose proof (ti_unused _ _ _ Ht i e He Hu) as Hp.
  eapply tinv_insert; [done|done|lia|cbn..]; [intros _; lia|done|by rewrite Hp| |done|done].
  intros Hi. by destruct (ti_init _ _ _ Ht i Hi) as (g & Hg & _ & Hn); simplify_eq.
Qed.

(** A slot whose parent changes, of a process that has not exited. *)
Lemma tinv_parent ps ini np i e q :
  tinv ps ini np → ps !! i = Some e → e_state e ≠ UNUSED → e_state e ≠ ZOMBIE → q ≠ Some i → ini ≠ Some i →
  tinv (<[i := mk_ent (e_state e) (e_pid e) q (e_chan e) (e_killed e)]> ps) ini np.
Proof.
  intros Ht He Hu Hz Hq Hi. eapply tinv_insert; [done|done|lia|cbn..]; try done.
  - intros _. split; [by eapply ti_fresh|auto].
  - intros j Hs Hc. pose proof (ti_chan _ _ _ Ht i e j He Hs Hc). subst j. split; [done|].
    intros k g Hk _ Hp. by eapply (ti_lost _ _ _ Ht i k).
Qed.

(** A slot that starts to sleep; on itself only when none of its children has
    exited. *)
Lemma tinv_sleep ps ini np i e c :
  tinv ps ini np → ps !! i = Some e → e_state e ≠ UNUSED →
  (∀ j, c = CProc j → j = i ∧ ∀ k f, ps !! k = Some f → e_parent f = Some i → e_state f ≠ ZOMBIE) →
  tinv (<[i := mk_ent SLEEPING (e_pid e) (e_parent e) c (e_killed e)]> ps) ini np.
Proof.
  intros Ht He Hu Hc. eapply tinv_insert; [done|done|lia|cbn..]; try done; [|by eapply ti_self| |].
  - intros _. split; [by eapply ti_fresh|auto].
  - intros Hi. destruct (ti_init _ _ _ Ht i Hi) as (g & Hg & Hp & _). by simplify_eq.
  - intros j _ Hj. destruct (Hc j Hj) as [-> H]. split; [done|]. eauto.
Qed.

(** A process that exits, whose parent is not asleep waiting for it. *)
Lemma tinv_zombie ps ini np i e :
  tinv ps ini np → ps !! i = Some e → e_state e ≠ UNUSED →
  (∀ j f, e_parent e = Some j → ps !! j = Some f → e_state f = SLEEPING → e_chan f ≠ CProc j) →
  tinv (<[i := mk_ent ZOMBIE (e_pid e) (e_parent e) (e_chan e) (e_killed e)]> ps) ini np.
Proof.
  intros Ht He Hu Hpar. eapply tinv_insert; [done|done|lia|cbn..]; try done; [|by eapply ti_self| |by eauto].
  - intros _. split; [by eapply ti_fresh|auto].
  - intros Hi. destruct (ti_init _ _ _ Ht i Hi) as (g & Hg & Hp & _). by simplify_eq.
Qed.

(** A process given to init; init is awake if the process has exited. *)
Lemma tinv_reparent ps ini np i e :
  tinv ps ini np → ps !! i = Some e → e_parent e ≠ None →
  (e_state e = ZOMBIE → ∀ j f, ini = Some j → ps !! j = Some f → e_state f = SLEEPING → e_chan f ≠ CProc j) →
  tinv (<[i := mk_ent (e_state e) (e_pid e) ini (e_chan e) (e_killed e)]> ps) ini np.
Proof.
  intros Ht He Hp Hz.
  assert (Hi : ini ≠ Some i). { intros E. destruct (ti_init _ _ _ Ht i E) as (f & Hf & Hn & _). congruence. }
  assert (Hu : e_state e ≠ UNUSED) by (intros E; by destruct (Hp (ti_unused _ _ _ Ht i e He E))).
  eapply tinv_insert; [done|done|lia|cbn..]; try done; [| |by eauto].
  - intros _. split; [by eapply ti_fresh|auto].
  - intros j Hs Hc. pose proof (ti_chan _ _ _ Ht i e j He Hs Hc). subst j. split; [done|].
    intros k g Hk _ Hpg. by eapply (ti_lost _ _ _ Ht i k).
Qed.

(** A slot that is freed. *)
Lemma tinv_free ps ini np i e pid c k :
  tinv ps ini np → ps !! i = Some e → ini ≠ Some i → tinv (<[i := mk_ent UNUSED pid None c k]> ps) ini np.
Proof. intros Ht He Hi. by eapply tinv_insert; [done|done|lia|cbn..]. Qed.

Lemma tinv_free' ps ini np i e f :
  tinv ps ini np → ps !! i = Some e → ini ≠ Some i → e_state f = UNUSED → e_parent f = None →
  tinv (<[i := f]> ps) ini np.
Proof. intros Ht He Hi Hu Hp. destruct f; cbn in *; subst. by eapply tinv_free. Qed.

(** Entries that wake up, or are marked as killed, and nothing else. *)
Definition calm (e f : ent) : Prop :=
  e_pid f = e_pid e ∧ e_parent f = e_parent e ∧ e_chan f = e_chan e ∧
  (e_state f = e_state e ∨ e_state e = SLEEPING ∧ e_state f = RUNNABLE).

Lemma calm_refl e : calm e e.
Proof. unfold calm. auto. Qed.

Lemma tinv_calm ps qs ini np : Forall2 calm ps qs → tinv ps ini np → tinv qs ini np.
Proof.
  intros HF [H1 H2 H3 H4 H5 H6 H7].
  assert (Hl : ∀ i f, qs !! i = Some f → ∃ e, ps !! i = Some e ∧ e_pid f = e_pid e ∧ e_parent f = e_parent e ∧
    e_chan f = e_chan e ∧ (e_state f = e_state e ∨ e_state e = SLEEPING ∧ e_state f = RUNNABLE)).
  { intros i f Hf. destruct (Forall2_lookup_r _ _ _ _ _ HF Hf) as (e & He & Hc). exists e. by destruct Hc. }
  split.
  - intros i f (e & He & -> & _ & _ & Hs)%Hl Hn. apply (H1 i e He). intros E. destruct Hs as [Hs|[? _]]; congruence.
  - intros i j f g (e & He & -> & _ & _ & Hs)%Hl (e' & He' & -> & _ & _ & Ht)%Hl Hn Hm.
    apply H2; [done..| |]; intros E; [destruct Hs as [Hs|[? _]]|destruct Ht as [Ht|[? _]]]; congruence.
  - intros i f (e & He & _ & -> & _ & Hs)%Hl Hn. apply (H3 i e He). destruct Hs as [Hs|[? ?]]; congruence.
  - intros i f (e & He & _ & -> & _)%Hl. eauto.
  - intros i Hi. destruct (H5 i Hi) as (e & He & Hp & Hn).
    destruct (Forall2_lookup_l _ _ _ _ _ HF He) as (f & Hf & _ & Hpf & _ & Hs). exists f.
    split; [done|]. split; [congruence|]. intros E. destruct Hs as [Hs|[_ ?]]; congruence.
  - intros i f j (e & He & _ & _ & -> & Hs)%Hl Hn. apply (H6 i e j He). destruct Hs as [Hs|[? ?]]; congruence.
  - intros i j f g (e & He & _ & _ & -> & Hs)%Hl Hn Hc (e' & He' & _ & -> & _ & Ht)%Hl Hp Hz.
    destruct Ht as [Ht|[_ ?]]; [|congruence]. eapply (H7 i j e e'); [done| |done|done|done|congruence].
    destruct Hs as [Hs|[? ?]]; congruence.
Qed.

Lemma run_insert ps c i f : run_inv ps c → (e_state f = RUNNING ↔ c = Some i) → run_inv (<[i := f]> ps) c.
Proof. intros Hr Hf j e [[-> ->]|[_ Hj]]%lookup_insert_cases; [done|by apply Hr]. Qed.

(** * The operations on the table *)

Section sched.
  Context {KI : KernelImage} {CF : Config} {CP : Cpus} {KT : KernelText}.
  Context {F : Type} {FS : FsOps F}.
  Context (self : nat) (Hself : cpu_index = Some self).
  Implicit Types s : kst F.

Definition view (s : kst F) : list ent := psig <$> procs s.

(** ptable.lock is free, or held by this CPU at the first level. *)
Definition lock_free (s : kst F) : Prop := locked (ptlock s) = 0 ∧ ncli (cpu0 s) = 0.
Definition lock_held (s : kst F) : Prop :=
  ptlock s = mk_spin 1 (Some self) ∧ ncli (cpu0 s) = 1 ∧ eflags_if (cpu0 s) = false.

Definition acq (s : kst F) : kst F :=
  set_cpu0 (mk_cpu 1 (eflags_if (cpu0 s)) false) (set_ptlock (mk_spin 1 (Some self)) s).
Definition rel (s : kst F) : kst F :=
  set_cpu0 (mk_cpu 0 (intena (cpu0 s)) (intena (cpu0 s))) (set_ptlock (mk_spin 0 None) s).

Lemma acquire_eq s : lock_free s → on_ptlock acquire s = Ok (tt, acq s).
Proof.
  intros [Hl Hn]. unfold on_ptlock, zoom, acquire, acquire_enter, acquire_record, on_me, zoom, holding, try_lock, mycpu.
  munfold. cbn. rewrite (pushcli_spec self Hself) by (cbn; lia). cbn. rewrite Hl, Hn. cbn. rewrite Hl. cbn.
  rewrite Hself. done.
Qed.

Lemma release_eq s : lock_held s → on_ptlock release s = Ok (tt, rel s).
Proof.
  intros (Hl & Hn & Hi). unfold on_ptlock, release, release_enter, release_store, holding, on_me, zoom, mycpu.
  munfold. cbn. rewrite Hl. cbn. rewrite Hi. cbn. rewrite Hself. cbn. rewrite bool_decide_eq_true_2 by done. cbn.
  rewrite (popcli_spec self Hself) by (cbn; lia || done). cbn. rewrite Hn. done.
Qed.

Lemma acq_held s : lock_held (acq s).
Proof. done. Qed.
Lemma rel_free s : lock_held s → lock_free (rel s).
Proof. done. Qed.

Lemma keep_held s s' : keep psig s s' → lock_held s → lock_held s'.
Proof.
  intros [_ _ _ _ K5 K6] (H1 & H2 & H3). destruct K6 as [E1 E2]; [right; auto|].
  unfold lock_held. by rewrite K5, E1, E2.
Qed.
Lemma keep_free s s' : keep psig s s' → lock_free s → lock_free s'.
Proof.
  intros [_ _ _ _ K5 K6] [H1 H2]. destruct K6 as [E1 E2]; [left; auto|].
  unfold lock_free. by rewrite K5, E1.
Qed.

(** The table is in order and [cur] is the running process. *)
Record good (s : kst F) : Prop := {
  gd_t : tinv (view s) (initproc s) (nextpid s);
  gd_run : run_inv (view s) (cur s);
  gd_len : length (view s) = Z.to_nat NPROC;
  gd_pid : 0 < nextpid s }.

Lemma keep_good s s' : keep psig s s' → good s → good s'.
Proof.
  intros [K1 K2 K3 K4 _ _] [H1 H2 H3 H4]. unfold view in *.
  split; unfold view; rewrite ?K1, ?K2, ?K3, ?K4; done.
Qed.

Lemma good_acq s : good s → good (acq s).
Proof. by intros []. Qed.
Lemma good_rel s : good s → good (rel s).
Proof. by intros []. Qed.

Lemma keep_view s s' : keep psig s s' → view s' = view s.
Proof. by intros []. Qed.

Lemma view_lookup i s p : procs s !! i = Some p → view s !! i = Some (psig p).
Proof. intros H. unfold view. by rewrite list_lookup_fmap, H. Qed.

Lemma psig_eq p q :
  psig p = psig q → p_state p = p_state q ∧ p_pid p = p_pid q ∧ p_parent p = p_parent q ∧
    p_chan p = p_chan q ∧ p_killed p = p_killed q.
Proof. intros H. by injection H. Qed.

Lemma keep_proc s s' i p : keep psig s s' → procs s !! i = Some p → ∃ p', procs s' !! i = Some p' ∧ psig p' = psig p.
Proof.
  intros Hk Hp. pose proof (view_lookup i s p Hp) as Hv. rewrite <- (keep_view _ _ Hk) in Hv. unfold view in Hv.
  rewrite list_lookup_fmap in Hv. destruct (procs s' !! i) as [p'|]; [|done]. exists p'. split; [done|]. by apply (inj Some) in Hv.
Qed.

Lemma view_upd i p s : view (upd_proc i p s) = <[i := psig p]> (view s).
Proof. unfold view. cbn. apply list_fmap_insert. Qed.
End sched.

(** Take the next operation of a computation that returned: one that keeps the
    table, a change of a slot, or a read of one. *)
Ltac mnext H :=
  let a := fresh "a" in let t := fresh "t" in let E := fresh "E" in
  apply bind_Ok in H as (a & t & E & H).
Ltac knext H :=
  let a := fresh "a" in let t := fresh "t" in let K := fresh "K" in
  apply bind_Ok in H as (a & t & K & H);
  lazymatch type of K with
  | ?m ?s = Ok _ =>
      let K' := fresh in assert (K' : keeps psig m) by (keeps); apply K' in K; clear K'
  end.

(** Run the first operation of a computation that returned. *)
Ltac mrun' E H := rewrite (bind_eq _ _ _ _ _ E) in H.

(** Compose the steps that keep the table into one, named [K]. *)
Ltac kmerge K :=
  repeat match goal with
  | K1 : keep psig ?a ?b, K2 : keep psig ?b ?c |- _ => pose proof (keep_trans _ _ _ K1 K2); clear K1 K2
  end;
  match goal with H : keep psig _ _ |- _ => rename H into K end.

Section ops.
  Context {KI : KernelImage} {CF : Config} {CP : Cpus} {KT : KernelText}.
  Context {F : Type} {FS : FsOps F}.
  Context (self : nat) (Hself : cpu_index = Some self).
  Implicit Types s : kst F.
  #[local] Hint Extern 1 (keeps psig (switchuvm _)) => apply (keeps_switchuvm self Hself) : keeps.
  #[local] Hint Extern 1 (keeps psig (growproc _)) => apply (keeps_growproc self Hself) : keeps.

Lemma good_upd s i q :
  good s → tinv (<[i := psig q]> (view s)) (initproc s) (nextpid s) → (p_state q = RUNNING ↔ cur s = Some i) →
  good (upd_proc i q s).
Proof.
  intros [Ht Hr Hl Hn] Hq Hc. split; rewrite ?view_upd; [done|by apply run_insert|by rewrite length_insert|done].
Qed.

(** The running process has a slot, and init is another one than a free slot. *)
Lemma good_running s i p : good s → procs s !! i = Some p → p_state p = RUNNING ↔ cur s = Some i.
Proof. intros Hg Hi. by apply (gd_run _ Hg i (psig p)), view_lookup. Qed.

Lemma good_not_init s i p : good s → procs s !! i = Some p → p_state p = UNUSED → initproc s ≠ Some i.
Proof.
  intros Hg Hi Hu E. destruct (ti_init _ _ _ (gd_t _ Hg) i E) as (e & He & _ & Hn).
  rewrite (view_lookup i s p Hi) in He. by simplify_eq.
Qed.

(** allocproc: a free slot becomes an embryo with the next pid and no parent, or
    the slot is free again. *)
Lemma allocproc_good s r s' :
  allocproc s = Ok (r, s') → good s → lock_free s → nextpid s < 2 ^ 31 - 1 →
  good s' ∧ lock_free s' ∧ cur s' = cur s ∧ initproc s' = initproc s ∧
  ∀ i, r = Some i → initproc s ≠ Some i ∧ cur s ≠ Some i ∧
    ∃ p, procs s' !! i = Some p ∧ p_state p = EMBRYO ∧ p_parent p = None.
Proof.
  intros H Hg Hf Hn. unfold allocproc in H. rewrite (bind_eq _ _ _ _ _ (acquire_eq self Hself s Hf)) in H.
  mnext H. injection E as <- <-. set (s1 := acq self s) in *.
  pose proof (good_acq self s Hg : good s1) as Hg1. pose proof (acq_held self s : lock_held self s1) as Hl1.
  destruct (find_idx _ (procs s1)) as [i|] eqn:Ei.
  2: { rewrite (bind_eq _ _ _ _ _ (release_eq self Hself s1 Hl1)) in H. injection H as <- <-.
       split_and!; [by apply good_rel|done..]. }
  apply find_idx_Some in Ei as [(p & Hp & Hu%bool_decide_eq_true) _].
  pose proof (good_not_init _ _ _ Hg1 Hp Hu) as Hini.
  assert (Hcur : cur s ≠ Some i). { intros Ec. apply (good_running s1 i p Hg1 Hp) in Ec. congruence. }
  pose proof (ti_unused _ _ _ (gd_t _ Hg1) i _ (view_lookup i s1 p Hp) Hu) as Hpar. cbn in Hpar.
  mnext H. apply modproc_Ok in E as (p' & Hp' & ->). simplify_eq.
  mnext H. injection E as _ <-. rewrite (s32_small (nextpid s + 1)) in H by (pose proof (gd_pid _ Hg); lia).
  set (q := set_p_pid _ _) in H. set (s2 := set_nextpid _ _) in H.
  assert (Hg2 : good s2).
  { pose proof (gd_pid _ Hg1).
    split; unfold view; cbn; rewrite ?list_fmap_insert; [|apply run_insert; [apply Hg1|cbn; naive_solver]|rewrite length_insert; apply Hg1|cbn in *; lia].
    by apply (tinv_embryo (view s1) _ _ i (psig p)); [apply Hg1|apply view_lookup|..]. }
  assert (Hl2 : lock_held self s2) by done.
  assert (Hp2 : procs s2 !! i = Some q) by (cbn; apply list_lookup_insert_eq; by eapply lookup_lt_Some).
  rewrite (bind_eq _ _ _ _ _ (release_eq self Hself s2 Hl2)) in H. set (s3 := rel s2) in H.
  pose proof (good_rel s2 Hg2 : good s3) as Hg3. assert (Hf3 : lock_free s3) by done.
  knext H. knext H. pose proof (keep_trans _ _ _ K K0) as Hk. clear K K0.
  pose proof (keep_good _ _ Hk Hg3) as Hg4. pose proof (keep_free _ _ Hk Hf3) as Hf4.
  destruct (keep_proc _ _ i q Hk Hp2) as (q4 & Hq4 & (_ & _ & Hs4 & _)%psig_eq).
  destruct (a1 =? 0).
  - mnext H. apply modproc_Ok in E as (q5 & Hq5 & ->). simplify_eq. injection H as <- <-.
    destruct Hk as [_ Kc _ Ki _ _]. split_and!; [|done|done|done|done].
    apply good_upd; [done| |cbn; split; [done|]; intros Ec; rewrite Kc in Ec; done].
    eapply tinv_free'; [apply Hg4|by apply view_lookup|by rewrite Ki|done|cbn in *; congruence].
  - repeat knext H. injection H as <- <-.
    kmerge K. destruct (keep_proc _ _ i q K Hp2) as (q5 & Hq5 & Hs5).
    pose proof (keep_good _ _ K Hg3). pose proof (keep_free _ _ K Hf3). destruct K as [_ Kc _ Ki _ _].
    split_and!; [done..|]. intros j [= <-]. split_and!; [done..|]. apply psig_eq in Hs5 as (E1 & _ & E2 & _).
    exists q5. cbn in *. split_and!; congruence.
Qed.

(** The state between two steps of a process in the kernel. *)
Definition rest (s : kst F) : Prop := good s ∧ lock_free s.

Lemma keep_rest s s' : keep psig s s' → rest s → rest s' ∧ cur s' = cur s.
Proof. intros K [H1 H2]. split; [split; [by eapply keep_good|by eapply keep_free]|apply K]. Qed.

(** A slot that is neither free, nor running, nor init, becomes runnable. *)
Lemma make_runnable {A} s i p (x : A) :
  rest s → procs s !! i = Some p → p_state p = EMBRYO →
  runs (on_ptlock acquire;; modproc i (set_p_state RUNNABLE);; on_ptlock release;; mret x) s
    (λ _ s', rest s' ∧ cur s' = cur s).
Proof.
  intros [Hg Hf] Hp Hs. exists x. eexists. split.
  { rewrite (bind_eq _ _ _ _ _ (acquire_eq self Hself s Hf)).
    rewrite (bind_eq _ _ _ _ _ (modproc_eq (acq self s) i p _ Hp)).
    by rewrite (bind_eq _ _ _ _ _ (release_eq self Hself (upd_proc i _ (acq self s)) (acq_held self s))). }
  split; [|done]. split; [|done]. apply good_rel, good_upd; [by apply good_acq| |].
  - cbn. change (view (acq self s)) with (view s). change (initproc (acq self s)) with (initproc s).
    change (nextpid (acq self s)) with (nextpid s).
    apply (tinv_state (view s) _ _ i (psig p)); [apply Hg|by apply view_lookup|cbn; congruence|by left].
  - cbn. split; [done|]. intros Ec. apply (good_running s i p Hg Hp) in Ec. congruence.
Qed.

(** An embryo can be freed, and can be given a parent. *)
Lemma embryo_free s i p :
  rest s → procs s !! i = Some p → p_state p = EMBRYO → p_parent p = None → initproc s ≠ Some i →
  rest (upd_proc i (set_p_state UNUSED p) s).
Proof.
  intros [Hg Hf] Hp Hs Hq Hi. split; [|done]. apply good_upd; [done| |].
  - eapply tinv_free'; [apply Hg|by apply view_lookup|done..].
  - cbn. split; [done|]. intros Ec. apply (good_running s i p Hg Hp) in Ec. congruence.
Qed.

Lemma embryo_parent s i p c :
  rest s → procs s !! i = Some p → p_state p = EMBRYO → c ≠ i → initproc s ≠ Some i →
  rest (upd_proc i (set_p_parent (Some c) p) s).
Proof.
  intros [Hg Hf] Hp Hs Hc Hi. split; [|done]. apply good_upd; [done| |].
  - apply (tinv_parent (view s) _ _ i (psig p)); [apply Hg|by apply view_lookup|cbn; congruence..|done].
  - cbn. by apply good_running.
Qed.

Lemma fork_rest s r s' :
  fork s = Ok (r, s') → rest s → nextpid s < 2 ^ 31 - 1 → rest s' ∧ cur s' = cur s.
Proof.
  intros H [Hg Hf] Hn. unfold fork in H. mnext H. apply myproc_Ok in E as [-> Hc].
  mnext H. destruct (allocproc_good _ _ _ E Hg Hf Hn) as (Hg1 & Hf1 & Ec1 & Ei1 & Hnew).
  destruct a0 as [np|]; [|by injection H as <- <-].
  destruct (Hnew np eq_refl) as (Hni & Hnc & p & Hp & Hst & Hpar). clear Hnew E.
  knext H. knext H. knext H. kmerge K. destruct (a1 =? 0).
  - knext H. knext H. knext H. kmerge K. destruct (keep_rest _ _ K (conj Hg1 Hf1)) as [Hr Ec].
    destruct (keep_proc _ _ np p K Hp) as (q & Hq & (E1 & _ & E2 & _)%psig_eq).
    mnext H. apply modproc_Ok in E as (q' & Hq' & ->). simplify_eq. injection H as <- <-.
    split; [|cbn; congruence]. destruct K as [_ _ _ Ki _ _]. apply embryo_free; first [done | congruence].
  - knext H. knext H. kmerge K. destruct (keep_rest _ _ K (conj Hg1 Hf1)) as [Hr Ec].
    destruct (keep_proc _ _ np p K Hp) as (q & Hq & (E1 & _ & E2 & _)%psig_eq).
    mnext H. apply modproc_Ok in E as (q' & Hq' & ->). simplify_eq. destruct K as [_ _ _ Ki _ _].
    assert (Hr2 : rest (upd_proc np (set_p_parent (Some a) q') t4)) by (apply embryo_parent; first [done | congruence]).
    assert (Hq2 : procs (upd_proc np (set_p_parent (Some a) q') t4) !! np = Some (set_p_parent (Some a) q'))
      by (by apply procs_upd; eapply lookup_lt_Some).
    set (u := upd_proc _ _ _) in *. assert (Eu : cur u = cur s) by (cbn; congruence).
    repeat (progress knext H). kmerge K. destruct (keep_rest _ _ K Hr2) as [Hr3 Ec3].
    destruct (keep_proc _ _ np _ K Hq2) as (w & Hw & (F1 & _)%psig_eq). cbn in F1.
    pose proof (runs_Ok _ _ _ _ _ (make_runnable _ np w _ Hr3 Hw ltac:(congruence)) H) as [Hr4 Ec4].
    split; [done|congruence].
Qed.

(** ** Entering and leaving the scheduler *)

(** The CPU is in the scheduler's loop, with the lock. *)
Definition parked (s : kst F) : Prop := good s ∧ lock_held self s ∧ cur s = None.

Lemma holding_eq s : lock_held self s → on_ptlock holding s = Ok (true, s).
Proof.
  intros (Hl & Hn & Hi). unfold on_ptlock, holding, on_me, zoom, mycpu. munfold. cbn. rewrite Hl. cbn.
  rewrite Hi. cbn. rewrite Hself. cbn. rewrite bool_decide_eq_true_2 by done. rewrite <- Hl. by destruct s.
Qed.

Lemma mycpu_eq s : eflags_if (cpu0 s) = false → on_cpu mycpu s = Ok (self, s).
Proof. intros Hi. unfold on_cpu, zoom, mycpu. munfold. rewrite Hi, Hself. by destruct s. Qed.

Lemma sched_enter_eq s p pr :
  lock_held self s → cur s = Some p → procs s !! p = Some pr → p_state pr ≠ RUNNING →
  sched_enter s = Ok (intena (cpu0 s), set_cur None (set_cr3 (V2P (kpgdir s)) s)).
Proof.
  intros Hl Hc Hp Hs. unfold sched_enter. mrun (myproc_eq s p Hc). mrun (holding_eq s Hl). cbn [negb].
  destruct Hl as (_ & Hn & Hi).
  assert (E : on_cpu (mycpu;; get) s = Ok (cpu0 s, s)).
  { unfold on_cpu, zoom, mycpu. munfold. rewrite Hi, Hself. by destruct s. }
  mrun E. rewrite Hn. change (negb (1 =? 1)) with false. cbv iota. mrun (getproc_eq s p pr Hp). rewrite bool_decide_eq_false_2 by done.
  change (gets cpu0 s) with (Ok (cpu0 s, s)). rewrite (bind_eq (gets cpu0) _ s (cpu0 s) s eq_refl), Hi.
  mrun (mycpu_eq s Hi). done.
Qed.

(** A process that is no longer running enters the scheduler. *)
Lemma sched_enter_parked s p pr b s' :
  sched_enter s = Ok (b, s') → cur s = Some p → procs s !! p = Some pr → lock_held self s →
  (∀ q, procs s !! p = Some q → p_state q ≠ RUNNING) →
  tinv (view s) (initproc s) (nextpid s) → (∀ i e, view s !! i = Some e → i ≠ p → e_state e ≠ RUNNING) →
  length (view s) = Z.to_nat NPROC → 0 < nextpid s → parked s'.
Proof.
  intros H Hc Hp Hl Hs Ht Hr Hlen Hn. rewrite (sched_enter_eq s p pr) in H by auto. injection H as <- <-.
  split; [|done]. split; try done. intros i e Hi. split; [|done]. intros Er. exfalso.
  destruct (decide (i = p)) as [->|Hne]; [|by eapply Hr].
  change (view s !! p = Some e) in Hi. rewrite (view_lookup p s pr Hp) in Hi. simplify_eq. by eapply Hs.
Qed.

(** Nobody else runs. *)
Lemma good_others s p i e : good s → cur s = Some p → view s !! i = Some e → i ≠ p → e_state e ≠ RUNNING.
Proof. intros Hg Hc Hi Hne Hr. apply (gd_run _ Hg i e Hi) in Hr. congruence. Qed.

(** The current process changes its own state, and enters the scheduler. *)
Lemma change_and_sched s p pr f b s' :
  (modproc p f;; sched_enter) s = Ok (b, s') → good s → lock_held self s → cur s = Some p →
  procs s !! p = Some pr → p_state (f pr) ≠ RUNNING →
  tinv (<[p := psig (f pr)]> (view s)) (initproc s) (nextpid s) → parked s'.
Proof.
  intros H Hg Hl Hc Hp Hs Ht. mnext H. apply modproc_Ok in E as (q & Hq & ->). simplify_eq.
  assert (Hlt : (p < length (procs s))%nat) by (by eapply lookup_lt_Some).
  eapply (sched_enter_parked (upd_proc p (f q) s) p (f q)); [done|done|by apply procs_upd|done| | | |..].
  - intros x Hx. rewrite procs_upd in Hx by done. congruence.
  - by rewrite view_upd.
  - intros i e. rewrite view_upd. intros [[-> ->]|[Hne Hi]]%lookup_insert_cases Hnp; [done|]. by eapply good_others.
  - rewrite view_upd, length_insert. apply Hg.
  - apply Hg.
Qed.

Lemma yield_parked s b s' p : yield_enter s = Ok (b, s') → rest s → cur s = Some p → parked s'.
Proof.
  intros H [Hg Hf] Hc. unfold yield_enter in H. rewrite (bind_eq _ _ _ _ _ (acquire_eq self Hself s Hf)) in H.
  mnext H. apply myproc_Ok in E as [-> Hp]. pose proof H as H'. mnext H'. apply modproc_Ok in E as (pr & Hpr & ->). clear H'.
  assert (a = p) as -> by (cbn in Hp; congruence).
  eapply change_and_sched; [exact H|by apply good_acq|done|done|exact Hpr|done|].
  apply (tinv_state _ _ _ p (psig pr)); [apply Hg|by apply view_lookup| |by left].
  cbn. rewrite (proj2 (good_running s p pr Hg Hpr) Hc). done.
Qed.

(** sleep on something that is not a process. *)
Lemma sleep_parked s b s' p a :
  sleep_enter (CAddr a) (mret tt) s = Ok (b, s') → rest s → cur s = Some p → parked s'.
Proof.
  intros H [Hg Hf] Hc. unfold sleep_enter in H. mnext H. injection E as <- <-. rewrite Hc in H.
  rewrite (bind_eq _ _ _ _ _ (acquire_eq self Hself s Hf)) in H. mnext H. injection E as _ <-.
  pose proof H as H'. mnext H'. apply modproc_Ok in E as (pr & Hpr & ->). clear H'.
  eapply change_and_sched; [exact H|by apply good_acq|done|done|exact Hpr|done|].
  apply (tinv_sleep _ _ _ p (psig pr)); [apply Hg|by apply view_lookup| |done].
  cbn. rewrite (proj2 (good_running s p pr Hg Hpr) Hc). done.
Qed.

(** ** Waking up *)

Definition wake (c : chan) (e : ent) : ent :=
  if bool_decide (e_state e = SLEEPING) && bool_decide (e_chan e = c)
  then mk_ent RUNNABLE (e_pid e) (e_parent e) (e_chan e) (e_killed e) else e.

Lemma view_wakeup1 c s : ∃ s', wakeup1 c s = Ok (tt, s') ∧ view s' = wake c <$> view s ∧
  s' = set_procs (procs s') s.
Proof.
  eexists. split; [reflexivity|]. split; [|by destruct s]. unfold view. cbn.
  rewrite <- !list_fmap_compose. apply list_fmap_ext. intros i p _. unfold compose, wake. cbn.
  by destruct (bool_decide (p_state p = SLEEPING)), (bool_decide (p_chan p = c)).
Qed.

Lemma wake_calm c e : calm e (wake c e).
Proof.
  unfold wake, calm. destruct (bool_decide_reflect (e_state e = SLEEPING)); cbn; [|by auto].
  destruct (bool_decide (e_chan e = c)); cbn; split_and!; auto.
Qed.

Lemma wake_all_calm c ps : Forall2 calm ps (wake c <$> ps).
Proof. apply Forall2_fmap_r, Forall_Forall2_diag, Forall_forall. intros e _. apply wake_calm. Qed.

(** A calm change of the table by a computation that changes nothing else. *)
Lemma good_calm s ps :
  good s → Forall2 calm (view s) (psig <$> ps) → good (set_procs ps s).
Proof.
  intros [Ht Hr Hl Hn] HF. split; cbn; [by eapply tinv_calm| | |done].
  - intros i e Hi. destruct (Forall2_lookup_r _ _ _ _ _ HF Hi) as (f & Hf & _ & _ & _ & Hs).
    rewrite <- (Hr i f Hf). destruct Hs as [->|[-> ->]]; done.
  - rewrite <- Hl. symmetry. by eapply Forall2_length.
Qed.

Lemma wakeup_rest c s u s' : wakeup c s = Ok (u, s') → rest s → rest s' ∧ cur s' = cur s.
Proof.
  intros H [Hg Hf]. unfold wakeup in H. rewrite (bind_eq _ _ _ _ _ (acquire_eq self Hself s Hf)) in H.
  destruct (view_wakeup1 c (acq self s)) as (s1 & E & Hv & Hs1). rewrite (bind_eq _ _ _ _ _ E) in H.
  assert (Hg1 : good s1).
  { rewrite Hs1. apply good_calm; [by apply good_acq|]. fold (view s1). rewrite Hv. apply wake_all_calm. }
  rewrite (release_eq self Hself) in H by (by rewrite Hs1). injection H as _ <-.
  split; [split; [by apply good_rel|done]|]. by rewrite Hs1.
Qed.

Lemma kill_rest pid s r s' : kill pid s = Ok (r, s') → rest s → rest s' ∧ cur s' = cur s.
Proof.
  intros H [Hg Hf]. unfold kill in H. rewrite (bind_eq _ _ _ _ _ (acquire_eq self Hself s Hf)) in H.
  mnext H. injection E as <- <-. destruct (find_idx _ _) as [i|] eqn:Ei.
  - mnext H. apply modproc_Ok in E as (p & Hp & ->).
    rewrite (bind_eq _ _ _ _ _ (release_eq self Hself (upd_proc i _ (acq self s)) (acq_held self s))) in H.
    injection H as _ <-. split; [|done]. split; [|done]. apply good_rel.
    apply good_calm; [by apply good_acq|]. rewrite list_fmap_insert.
    change (view (acq self s)) with (view s). change (psig <$> procs (acq self s)) with (view s).
    rewrite <- (list_insert_id (view s) i (psig p)) at 1 by (by apply view_lookup).
    apply Forall2_insert; [by apply Forall_Forall2_diag, Forall_forall; intros ? _; apply calm_refl|].
    unfold calm. cbn. destruct (bool_decide_reflect (p_state p = SLEEPING)); cbn; split_and!; auto.
  - rewrite (bind_eq _ _ _ _ _ (release_eq self Hself (acq self s) (acq_held self s))) in H.
    injection H as _ <-. split; [|done]. split; [by apply good_rel, good_acq|done].
Qed.

(** ** wait *)

(** Reaping frees the slot of an exited child and gives up the lock. *)
Lemma reap_rest i s r s' p pr :
  reap i s = Ok (r, s') → good s → lock_held self s → cur s = Some p →
  procs s !! i = Some pr → p_state pr = ZOMBIE → p_parent pr = Some p →
  r = p_pid pr ∧ rest s' ∧ cur s' = cur s.
Proof.
  intros H Hg Hl Hc Hp Hz Hpar. unfold reap in H. mnext H. apply getproc_Ok in E as [-> Hp'].
  assert (a = pr) as -> by congruence. clear Hp'.
  knext H. knext H. knext H. kmerge K.
  pose proof (keep_good _ _ K Hg) as Hg2. pose proof (keep_held self _ _ K Hl) as Hl2.
  destruct (keep_proc _ _ i pr K Hp) as (q & Hq & (E1 & E2 & E3 & _)%psig_eq).
  assert (Hini : initproc t1 ≠ Some i).
  { rewrite (kp_init _ _ K). intros Ei. destruct (ti_init _ _ _ (gd_t _ Hg) i Ei) as (e & He & Hn & _).
    rewrite (view_lookup i s pr Hp) in He. injection He as <-. cbn in Hn. congruence. }
  assert (Hlt : (i < length (procs t1))%nat) by (by eapply lookup_lt_Some).
  do 7 (mnext H; apply modproc_Ok in E as (? & ?Hx & ->)). rewrite !upd_proc_twice in H.
  rewrite procs_upd in Hx0, Hx1, Hx2, Hx3, Hx4, Hx5 by (cbn; rewrite ?length_insert; done). simplify_eq.
  rewrite (bind_eq _ _ _ _ _ (release_eq self Hself (upd_proc i _ t1) Hl2)) in H. injection H as <- <-.
  split; [done|]. split; [|cbn; apply K]. split; [|done]. apply good_rel, good_upd; [done| |].
  - eapply tinv_free'; [apply Hg2|by apply view_lookup|done..].
  - cbn. split; [done|]. intros Ec. eapply (good_running t1 i) in Ec; [|done..]. congruence.
Qed.

Lemma wait_scan_spec n : ∀ i p hk s r s',
  wait_scan n i p hk s = Ok (r, s') → good s → lock_held self s → cur s = Some p →
  match r with
  | inl _ => rest s' ∧ cur s' = cur s
  | inr _ => s' = s ∧ ∀ k e, (i ≤ k < i + n)%nat → view s !! k = Some e → e_parent e = Some p → e_state e ≠ ZOMBIE
  end.
Proof.
  induction n as [|n IH]; intros i p hk s r s' H Hg Hl Hc; cbn [wait_scan] in H.
  - injection H as <- <-. split; [done|]. intros k e Hk. lia.
  - mnext H. apply getproc_Ok in E as [-> Hp]. destruct (bool_decide_reflect (p_parent a = Some p)) as [Hpar|Hpar]; cbn [negb] in H.
    + destruct (bool_decide_reflect (p_state a = ZOMBIE)) as [Hz|Hz].
      * mnext H. injection H as <- <-. by destruct (reap_rest _ _ _ _ _ _ E Hg Hl Hc Hp Hz Hpar).
      * specialize (IH _ _ _ _ _ _ H Hg Hl Hc). destruct r; [done|]. destruct IH as [-> IH]. split; [done|].
        intros k e Hk Hke. destruct (decide (k = i)) as [->|]; [|by apply (IH k e); [lia|]].
        rewrite (view_lookup i s a Hp) in Hke. by simplify_eq.
    + specialize (IH _ _ _ _ _ _ H Hg Hl Hc). destruct r; [done|]. destruct IH as [-> IH]. split; [done|].
      intros k e Hk Hke. destruct (decide (k = i)) as [->|]; [|by apply (IH k e); [lia|]].
      rewrite (view_lookup i s a Hp) in Hke. by simplify_eq.
Qed.

Lemma wait_round_spec s r s' p :
  wait_round s = Ok (r, s') → good s → lock_held self s → cur s = Some p →
  match r with WReturn _ => rest s' ∧ cur s' = cur s | WSleep _ => parked s' end.
Proof.
  intros H Hg Hl Hc. unfold wait_round in H. mnext H. apply myproc_Ok in E as [-> Hc'].
  assert (a = p) as -> by congruence. clear Hc'.
  mnext H. pose proof (wait_scan_spec _ _ _ _ _ _ _ E Hg Hl Hc) as Hsc. destruct a as [pid|hk].
  - by injection H as <- <-.
  - destruct Hsc as [-> Hsc]. apply bind_Ok in H as (q & t2 & E0 & H). apply getproc_Ok in E0 as [-> Hp].
    destruct (negb hk || negb (p_killed q =? 0)).
    + rewrite (bind_eq _ _ _ _ _ (release_eq self Hself s Hl)) in H. injection H as <- <-.
      split; [|done]. split; [by apply good_rel|done].
    + apply bind_Ok in H as (b & t3 & E1 & H). injection H as <- <-. unfold sleep_ptable_enter in E1.
      apply bind_Ok in E1 as (? & ? & [= <- <-] & E1). rewrite Hc in E1.
      eapply change_and_sched; [exact E1|done|done|done|exact Hp|done|].
      apply (tinv_sleep _ _ _ p (psig q)); [apply Hg|by apply view_lookup| |].
      * cbn. rewrite (proj2 (good_running s p q Hg Hp) Hc). done.
      * intros j [= <-]. split; [done|]. intros k f Hk. apply (Hsc k f); [|done].
        apply lookup_lt_Some in Hk. rewrite (gd_len _ Hg) in Hk. lia.
Qed.

(** ** exit *)

(** Nobody sleeps on [c]. *)
Definition awake (c : chan) (ps : list ent) : Prop :=
  ∀ i e, ps !! i = Some e → e_state e = SLEEPING → e_chan e ≠ c.

Lemma wake_awake c ps : awake c (wake c <$> ps).
Proof.
  intros i e Hi Hs Hc. rewrite list_lookup_fmap in Hi. destruct (ps !! i) as [f|]; [|done]. cbn in Hi. injection Hi as <-.
  unfold wake in *. destruct (bool_decide_reflect (e_state f = SLEEPING)), (bool_decide_reflect (e_chan f = c)); done.
Qed.

Lemma awake_wake c d ps : awake d ps → awake d (wake c <$> ps).
Proof.
  intros Ha i e Hi Hs. rewrite list_lookup_fmap in Hi. destruct (ps !! i) as [f|] eqn:Ef; [|done]. cbn in Hi. injection Hi as <-.
  unfold wake in *. destruct (bool_decide _ && bool_decide _); [done|]. by eapply Ha.
Qed.

Lemma awake_parent c ps i e q :
  awake c ps → ps !! i = Some e →
  awake c (<[i := mk_ent (e_state e) (e_pid e) q (e_chan e) (e_killed e)]> ps).
Proof. intros Ha Hi j f [[-> ->]|[_ Hj]]%lookup_insert_cases; cbn; eapply Ha; done. Qed.

(** What the loop of exit over its children leaves: nobody falls asleep, and no
    entry but its children's changes its parent. *)
Record adopted (s s' : kst F) (c : nat) : Prop := {
  ad_good : good s';
  ad_state : s' = set_procs (procs s') s;
  ad_awake : ∀ ch, awake ch (view s) → awake ch (view s');
  ad_run : ∀ i e, view s !! i = Some e → e_state e = RUNNING → e_parent e ≠ Some c → view s' !! i = Some e }.

Lemma adopted_refl s c : good s → adopted s s c.
Proof. intros Hg. split; try done. by destruct s. Qed.

Lemma adopted_trans s1 s2 s3 c : adopted s1 s2 c → adopted s2 s3 c → adopted s1 s3 c.
Proof.
  intros [A1 A2 A3 A4] [B1 B2 B3 B4]. split; [done| |auto|].
  - rewrite B2, A2. done.
  - intros i e Hi Hr Hp. apply B4; auto.
Qed.

(** One child handed to init. *)
Lemma adopt_one s i p c u s' :
  good s → procs s !! i = Some p → p_parent p = Some c →
  (modproc i (set_p_parent (initproc s));;
   if bool_decide (p_state p = ZOMBIE) then wakeup1 (chan_of (initproc s)) else mret tt) s = Ok (u, s') →
  adopted s s' c.
Proof.
  intros Hg Hp Hpar H. mnext H. apply modproc_Ok in E as (p' & Hp' & ->).
  assert (p = p') as -> by congruence. clear Hp'.
  set (q := set_p_parent _ _) in *. pose proof (view_lookup i s p' Hp) as Hv.
  assert (Hrun : ∀ j e, view s !! j = Some e → e_state e = RUNNING → e_parent e ≠ Some c → <[i := psig q]> (view s) !! j = Some e).
  { intros j e Hj _ Hn. rewrite list_lookup_insert_ne; [done|]. intros ->. rewrite Hv in Hj. injection Hj as <-. done. }
  destruct (bool_decide_reflect (p_state p' = ZOMBIE)) as [Hz|Hz].
  - destruct (view_wakeup1 (chan_of (initproc s)) (upd_proc i q s)) as (s1 & E & Hvw & Hs1).
    rewrite E in H. injection H as _ <-. rewrite view_upd in Hvw.
    assert (Hcomm : view s1 = <[i := psig q]> (wake (chan_of (initproc s)) <$> view s)).
    { rewrite Hvw, list_fmap_insert. f_equal. unfold wake. cbn. by rewrite Hz. }
    assert (Hv' : (wake (chan_of (initproc s)) <$> view s) !! i = Some (psig p')).
    { rewrite list_lookup_fmap, Hv. cbn. unfold wake. cbn. by rewrite Hz. }
    pose proof (good_calm s (procs s) Hg) as Hgc. split.
    + rewrite Hs1. split; cbn.
      * fold (view s1). rewrite Hcomm. apply (tinv_reparent _ _ _ i (psig p')); [|done|cbn; congruence|].
        { eapply tinv_calm; [apply wake_all_calm|apply Hg]. }
        intros _ j f Hj Hf Hs. change (initproc s = Some j) in Hj. rewrite Hj in Hf. by eapply (wake_awake (CProc j)).
      * fold (view s1). rewrite Hcomm. apply run_insert.
        { intros k e Hk. rewrite list_lookup_fmap in Hk. destruct (view s !! k) as [f|] eqn:Ef; [|done]. cbn in Hk. simplify_eq.
          rewrite <- (gd_run _ Hg k f Ef). destruct (wake_calm (chan_of (initproc s)) f) as (_ & _ & _ & [->|[-> ->]]); done. }
        cbn. by apply good_running.
      * fold (view s1). rewrite Hvw, length_fmap, length_insert. apply Hg.
      * apply Hg.
    + rewrite Hs1. by destruct s.
    + intros ch Ha. rewrite Hcomm.
      apply (awake_parent ch _ i (psig p')); [by apply awake_wake|done].
    + intros j e Hj Hr Hn. rewrite Hvw, list_lookup_fmap, (Hrun j e) by done. cbn. unfold wake. by rewrite Hr.
  - injection H as _ <-. split; [|by destruct s| |].
    + apply good_upd; [done| |by cbn; apply good_running].
      apply (tinv_reparent _ _ _ i (psig p')); [apply Hg|done|cbn; congruence|done].
    + intros ch Ha. rewrite view_upd. by apply (awake_parent ch _ i (psig p')).
    + intros j e Hj Hr Hn. rewrite view_upd. by apply Hrun.
Qed.

Lemma reparent_adopted n : ∀ i c s u s', reparent n i c s = Ok (u, s') → good s → adopted s s' c.
Proof.
  induction n as [|n IH]; intros i c s u s' H Hg; cbn [reparent] in H.
  - injection H as _ <-. by apply adopted_refl.
  - mnext H. apply getproc_Ok in E as [-> Hp]. mnext H.
    assert (Ha : adopted s t c).
    { destruct (bool_decide_reflect (p_parent a = Some c)).
      - apply bind_Ok in E as (x & y & [= <- <-] & E). by eapply adopt_one.
      - injection E as _ <-. by apply adopted_refl. }
    eapply adopted_trans; [exact Ha|]. eapply IH; [exact H|apply Ha].
Qed.

(** The end of exit, under the lock. *)
Lemma exit_tail s p pr b s' :
  (wakeup1 (chan_of (p_parent pr));; reparent (Z.to_nat NPROC) 0 p;;
   modproc p (set_p_state ZOMBIE);; sched_enter) s = Ok (b, s') →
  good s → lock_held self s → cur s = Some p → procs s !! p = Some pr → parked s'.
Proof.
  intros H Hg Hl Hc Hp. pose proof (proj2 (good_running s p pr Hg Hp) Hc) as Hr.
  destruct (view_wakeup1 (chan_of (p_parent pr)) s) as (w & Ew & Hvw & Hw). mrun' Ew H.
  assert (Hgw : good w).
  { rewrite Hw. apply good_calm; [done|]. fold (view w). rewrite Hvw. apply wake_all_calm. }
  assert (Hpw : view w !! p = Some (psig pr)).
  { rewrite Hvw, list_lookup_fmap, (view_lookup p s pr Hp). cbn. unfold wake. cbn. by rewrite Hr. }
  mnext H. destruct (reparent_adopted _ _ _ _ _ _ E Hgw) as [Hgt Hst Haw Hrun].
  assert (Hself' : p_parent pr ≠ Some p) by (apply (ti_self _ _ _ (gd_t _ Hg) p (psig pr)); by apply view_lookup).
  pose proof (Hrun p _ Hpw Hr Hself') as Hpt.
  destruct (procs t !! p) as [q|] eqn:Hq; [|unfold view in Hpt; rewrite list_lookup_fmap, Hq in Hpt; done].
  assert (Hqs : psig q = psig pr) by (rewrite (view_lookup p t q Hq) in Hpt; by apply (inj Some) in Hpt).
  apply psig_eq in Hqs as (Q1 & _ & Q3 & _).
  assert (Hlt : lock_held self t) by (by rewrite Hst, Hw).
  eapply (change_and_sched t p q); [exact H|done|done|by rewrite Hst, Hw|done|done|].
  apply (tinv_zombie _ _ _ p (psig q)); [apply Hgt|by apply view_lookup|cbn; congruence|].
  intros j f Hj Hf Hs. cbn in Hj. apply (Haw (CProc j)) with j; [|done|done].
  rewrite Hvw. replace (chan_of (p_parent pr)) with (CProc j) by (rewrite <- Q3, Hj; done). apply wake_awake.
Qed.

Lemma exit_parked s b s' p : exit_enter s = Ok (b, s') → rest s → cur s = Some p → parked s'.
Proof.
  intros H [Hg Hf] Hc. unfold exit_enter in H. mnext H. apply myproc_Ok in E as [-> Hc'].
  assert (a = p) as -> by congruence. clear Hc'. mnext H. injection E as <- <-.
  destruct (bool_decide (initproc s = Some p)); [done|].
  repeat (progress knext H). kmerge K. destruct (keep_rest _ _ K (conj Hg Hf)) as [[Hg1 Hf1] Ec]. clear K.
  match type of H with _ ?x = _ => rename x into u end.
  mrun' (acquire_eq self Hself u Hf1) H. mnext H. apply getproc_Ok in E as [-> Hp].
  eapply exit_tail; [exact H|by apply good_acq|done|cbn; congruence|done].
Qed.

(** ** Running a process *)

(** The CPU runs process [i], which still holds the lock. *)
Definition resumed (s : kst F) (i : nat) : Prop := good s ∧ lock_held self s ∧ cur s = Some i.

Lemma scheduler_scan_spec n : ∀ i s r s',
  scheduler_scan n i s = Ok (r, s') → parked s →
  match r with None => s' = s | Some j => resumed s' j end.
Proof.
  induction n as [|n IH]; intros i s r s' H Hk; cbn [scheduler_scan] in H.
  - by injection H as <- <-.
  - mnext H. apply getproc_Ok in E as [-> Hp]. destruct (bool_decide_reflect (p_state a = RUNNABLE)) as [Hr|Hr]; cbn [negb] in H.
    2: { by eapply IH. }
    mnext H. injection E as _ <-. knext H. destruct Hk as (Hg & Hl & Hc).
    destruct (keep_proc _ _ i a K Hp) as (q & Hq & (Q1 & _)%psig_eq).
    pose proof (keep_held self _ _ K Hl) as Hl2. pose proof (keep_view _ _ K) as Hv.
    change (view (set_cur (Some i) s)) with (view s) in Hv. destruct K as [_ K2 K3 K4 _ _]. cbn in K2, K3, K4.
    mnext H. apply modproc_Ok in E as (q' & Hq' & ->). assert (q = q') as <- by congruence. injection H as <- <-.
    split; [|done]. split; rewrite ?view_upd, ?Hv.
    + cbn. rewrite K3, K4. pose proof (view_lookup i t q Hq) as Hvq. rewrite Hv in Hvq.
      apply (tinv_state _ _ _ i (psig q)); [apply Hg|done|cbn; congruence|by right].
    + cbn. rewrite K2. intros j e [[-> ->]|[Hne Hj]]%lookup_insert_cases; [by cbn|].
      rewrite (gd_run _ Hg j e Hj), Hc. split; congruence.
    + rewrite length_insert. apply Hg.
    + cbn. rewrite K3. apply Hg.
Qed.

Lemma sched_exit_resumed b s u s' i : sched_exit b s = Ok (u, s') → resumed s i → resumed s' i.
Proof.
  intros H (Hg & (H1 & H2 & H3) & Hc). unfold sched_exit, on_cpu, zoom, mycpu in H. munfold. cbn in H.
  rewrite H3, Hself in H. cbn in H. injection H as _ <-. split; [destruct Hg; by split|done].
Qed.

Lemma release_rest s u s' i : on_ptlock release s = Ok (u, s') → resumed s i → rest s' ∧ cur s' = Some i.
Proof.
  intros H (Hg & Hl & Hc). rewrite (release_eq self Hself s Hl) in H. injection H as _ <-.
  split; [|done]. split; [by apply good_rel|done].
Qed.

(** The current process clears its channel. *)
Lemma clear_chan s i u s' : modproc i (set_p_chan CNone) s = Ok (u, s') → resumed s i → resumed s' i.
Proof.
  intros H (Hg & Hl & Hc). apply modproc_Ok in H as (p & Hp & ->). split; [|done].
  apply good_upd; [done| |by cbn; apply good_running].
  pose proof (proj2 (good_running s i p Hg Hp) Hc) as Hr. pose proof (view_lookup i s p Hp) as Hv.
  replace (psig (set_p_chan CNone p)) with (mk_ent RUNNING (p_pid p) (p_parent p) CNone (p_killed p)) by (unfold psig; cbn; by rewrite Hr).
  eapply tinv_insert; [apply Hg|exact Hv|lia|cbn..]; try done.
  - intros _. split; [apply (ti_fresh _ _ _ (gd_t _ Hg) i _ Hv); cbn; congruence|left; split; [done|congruence]].
  - by apply (ti_self _ _ _ (gd_t _ Hg) i _ Hv).
  - intros Ei. destruct (ti_init _ _ _ (gd_t _ Hg) i Ei) as (e & He & Hn & _). rewrite Hv in He. by injection He as <-.
Qed.

(** ** The step relation

    Where a process that left the CPU continues: a new one in forkret, the others
    after the swtch of yield, of sleep or of wait, with the [intena] they saved. *)
Inductive kont := KForkret | KYield (intena : bool) | KSleep (intena : bool) | KWait (intena : bool).

Record sys := mk_sys { ks : kst F; konts : nat → kont }.

(** What the process the scheduler chose does until it leaves the kernel's table
    alone again. *)
Definition resume (k : kont) : M (kst F) wres :=
  match k with
  | KForkret => forkret;; mret (WReturn 0)
  | KYield b => yield_exit b;; mret (WReturn 0)
  | KSleep b => sleep_exit b (mret tt);; mret (WReturn 0)
  | KWait b => wait_resume b
  end.

(** The process goes on, or sleeps in wait again. *)
Definition after (r : wres) (p : nat) (f : nat → kont) : nat → kont :=
  match r with WReturn _ => f | WSleep b => upd f p (KWait b) end.

(** A slot whose process exits is next used by a process that starts in forkret.
    A fork needs a pid that a 32-bit integer can count on. *)
Inductive kstep : sys → sys → Prop :=
  | k_fork s f r s' : cur s ≠ None → nextpid s < 2 ^ 31 - 1 → fork s = Ok (r, s') →
      kstep (mk_sys s f) (mk_sys s' f)
  | k_exit s f p b s' : cur s = Some p → exit_enter s = Ok (b, s') →
      kstep (mk_sys s f) (mk_sys s' (upd f p KForkret))
  | k_wait s f p r s' : cur s = Some p → wait_enter s = Ok (r, s') →
      kstep (mk_sys s f) (mk_sys s' (after r p f))
  | k_yield s f p b s' : cur s = Some p → yield_enter s = Ok (b, s') →
      kstep (mk_sys s f) (mk_sys s' (upd f p (KYield b)))
  | k_sleep s f p a b s' : cur s = Some p → sleep_enter (CAddr a) (mret tt) s = Ok (b, s') →
      kstep (mk_sys s f) (mk_sys s' (upd f p (KSleep b)))
  | k_wakeup s f a u s' : cur s ≠ None → wakeup (CAddr a) s = Ok (u, s') → kstep (mk_sys s f) (mk_sys s' f)
  | k_kill s f pid r s' : cur s ≠ None → kill pid s = Ok (r, s') → kstep (mk_sys s f) (mk_sys s' f)
  | k_grow s f n r s' : cur s ≠ None → growproc n s = Ok (r, s') → kstep (mk_sys s f) (mk_sys s' f)
  | k_fault s f va r s' : cur s ≠ None → page_from_disk va s = Ok (r, s') → kstep (mk_sys s f) (mk_sys s' f)
  | k_run s f i p s1 r s' : cur s = None → scheduler_from i s = Ok (Some p, s1) → resume (f p) s1 = Ok (r, s') →
      kstep (mk_sys s f) (mk_sys s' (after r p f))
  | k_idle s f i s1 u s' : cur s = None → scheduler_from i s = Ok (None, s1) → scheduler_turn s1 = Ok (u, s') →
      kstep (mk_sys s f) (mk_sys s' f).

(** Between two steps the CPU is with a process and the lock is free, or in the
    scheduler with the lock. *)
Definition sys_inv (x : sys) : Prop :=
  match cur (ks x) with Some _ => rest (ks x) | None => parked (ks x) end.

Lemma rest_inv s f c : rest s → cur s = Some c → sys_inv (mk_sys s f).
Proof. intros Hr Hc. unfold sys_inv. cbn. by rewrite Hc. Qed.
Lemma parked_inv s f : parked s → sys_inv (mk_sys s f).
Proof. intros Hp. unfold sys_inv. cbn. destruct Hp as (? & ? & Hc). by rewrite Hc. Qed.

Lemma resume_inv k s r s' p f :
  resume k s = Ok (r, s') → resumed s p → sys_inv (mk_sys s' f).
Proof.
  intros H Hr. destruct k as [|b|b|b]; cbn in H.
  - mnext H. injection H as _ <-. destruct (release_rest _ _ _ _ E Hr). by eapply rest_inv.
  - mnext H. injection H as _ <-. mnext E. pose proof (sched_exit_resumed _ _ _ _ _ E0 Hr) as Hr1.
    destruct (release_rest _ _ _ _ E Hr1). by eapply rest_inv.
  - mnext H. injection H as _ <-. mnext E. pose proof (sched_exit_resumed _ _ _ _ _ E0 Hr) as Hr1.
    mnext E. apply myproc_Ok in E1 as [-> Hc]. mnext E.
    assert (a1 = p) as -> by (destruct Hr1 as (_ & _ & ?); congruence).
    pose proof (clear_chan _ _ _ _ E1 Hr1) as Hr2. mnext E. injection E as _ <-.
    destruct (release_rest _ _ _ _ E2 Hr2). by eapply rest_inv.
  - mnext H. mnext E. pose proof (sched_exit_resumed _ _ _ _ _ E0 Hr) as Hr1.
    mnext E. apply myproc_Ok in E1 as [-> Hc]. assert (a1 = p) as -> by (destruct Hr1 as (_ & _ & ?); congruence).
    pose proof (clear_chan _ _ _ _ E Hr1) as Hr2. destruct Hr2 as (Hg & Hl & Hc2).
    pose proof (wait_round_spec _ _ _ _ H Hg Hl Hc2) as Hw. destruct r.
    + destruct Hw as [? ?]. eapply rest_inv; [eassumption|etrans; eassumption].
    + by apply parked_inv.
Qed.

Lemma kstep_inv x y : sys_inv x → kstep x y → sys_inv y.
Proof.
  intros Hx Hst. destruct Hst; unfold sys_inv in Hx; cbn in Hx; destruct (cur s) as [c|] eqn:Hcs; try done; simplify_eq.
  - destruct (fork_rest _ _ _ H1 Hx H0). eapply rest_inv; [eassumption|etrans; eassumption].
  - eapply parked_inv, exit_parked; eauto.
  - destruct Hx as [Hg Hf]. unfold wait_enter in H0. mrun' (acquire_eq self Hself s Hf) H0.
    pose proof (wait_round_spec _ _ _ _ H0 (good_acq self s Hg) (acq_held self s) Hcs) as Hw. destruct r.
    + destruct Hw as [? ?]. eapply rest_inv; [eassumption|etrans; eassumption].
    + by apply parked_inv.
  - eapply parked_inv, yield_parked; eauto.
  - eapply parked_inv, sleep_parked; eauto.
  - destruct (wakeup_rest _ _ _ _ H0 Hx). eapply rest_inv; [eassumption|etrans; eassumption].
  - destruct (kill_rest _ _ _ _ H0 Hx). eapply rest_inv; [eassumption|etrans; eassumption].
  - assert (K : keeps psig (growproc (F:=F) n)) by keeps. destruct (keep_rest _ _ (K _ _ _ H0) Hx). eapply rest_inv; [eassumption|etrans; eassumption].
  - assert (K : keeps psig (page_from_disk (F:=F) va)) by keeps. destruct (keep_rest _ _ (K _ _ _ H0) Hx). eapply rest_inv; [eassumption|etrans; eassumption].
  - pose proof (scheduler_scan_spec _ _ _ _ _ H0 Hx) as Hr. cbn in Hr. eapply resume_inv; eauto.
  - pose proof (scheduler_scan_spec _ _ _ _ _ H0 Hx) as Hr. cbn in Hr. subst s1. destruct Hx as (Hg & Hl & Hc).
    unfold scheduler_turn in H1. mrun' (release_eq self Hself s Hl) H1. mnext H1. injection E as _ <-.
    rewrite (acquire_eq self Hself) in H1 by done. injection H1 as _ <-. apply parked_inv.
    split; [destruct Hg; by split|done].
Qed.

Lemma reach_good x y : sys_inv x → rtc kstep x y → good (ks y).
Proof.
  intros Hx Hr. pose proof (rtc_inv _ _ _ _ Hx kstep_inv Hr) as Hy. unfold sys_inv in Hy.
  destruct (cur (ks y)); apply Hy.
Qed.


(** C2. No wakeup is lost between exit and wait: in every reachable state a process
    that sleeps in wait has no child that has exited, so it never sleeps on while
    there is something to reap. *)
Theorem wait_never_misses_exit x y (Hx : sys_inv x) (Hr : rtc kstep x y) i j p q :
  procs (ks y) !! i = Some p → p_state p = SLEEPING → p_chan p = CProc i →
  procs (ks y) !! j = Some q → p_parent q = Some i → p_state q ≠ ZOMBIE.
Proof.
  intros Hp Hs Hc Hq Hpar. pose proof (reach_good x y Hx Hr) as Hg.
  by apply (ti_lost _ _ _ (gd_t _ Hg) i j (psig p) (psig q)); [apply view_lookup| | |apply view_lookup|].
Qed.
End ops.
