(* ===== verification/Syscall.v ===== *)
(** System calls: fetching arguments from user memory and the dispatch
    (syscall.c), and the calls on processes (sysproc.c).

    A call that leaves the CPU stops where it calls swtch; [sres] says where, and
    [sys_resume] goes on from there when the process is scheduled again. *)
From Stdlib Require Import ZArith Lia Bool.
From stdpp Require Import base tactics list strings.
From S2P Require Import Prelude Machine CString Format Kalloc PageTable Locks State Vm Uvm Paging Proc.

(** * syscall.h *)

Definition SYS_fork : Z := 1.
Definition SYS_exit : Z := 2.
Definition SYS_wait : Z := 3.
Definition SYS_pipe : Z := 4.
Definition SYS_read : Z := 5.
Definition SYS_kill : Z := 6.
Definition SYS_exec : Z := 7.
Definition SYS_fstat : Z := 8.
Definition SYS_chdir : Z := 9.
Definition SYS_dup : Z := 10.
Definition SYS_getpid : Z := 11.
Definition SYS_sbrk : Z := 12.
Definition SYS_sleep : Z := 13.
Definition SYS_uptime : Z := 14.
Definition SYS_open : Z := 15.
Definition SYS_write : Z := 16.
Definition SYS_mknod : Z := 17.
Definition SYS_unlink : Z := 18.
Definition SYS_link : Z := 19.
Definition SYS_mkdir : Z := 20.
Definition SYS_close : Z := 21.
Definition SYS_yield : Z := 22.
Definition SYS_turn_flag : Z := 23.
Definition SYS_is_flag_on : Z := 24.
Definition SYS_update_protected_pages : Z := 25.

(** The number of entries of the table of calls. *)
Definition NELEM_syscalls : Z := 26.

(** The address of the variable [ticks], from the linker. *)
Class KernelVars := { addr_ticks : Z }.

(** How a call ends: it returns a value for %eax, or the process has left the CPU
    in wait, in yield, in the loop of sys_sleep, or for good in exit. *)
Inductive sres :=
  | SRet (v : Z)
  | SWait (intena : bool)
  | SYield (intena : bool)
  | SSleep (ticks0 n : Z) (intena : bool)
  | SExit.

(** The calls on files (sysfile.c and exec.c). *)
Class FileCalls F := {
  sys_pipe : M (kst F) Z;
  sys_read : M (kst F) Z;
  sys_exec : M (kst F) Z;
  sys_fstat : M (kst F) Z;
  sys_chdir : M (kst F) Z;
  sys_dup : M (kst F) Z;
  sys_open : M (kst F) Z;
  sys_write : M (kst F) Z;
  sys_mknod : M (kst F) Z;
  sys_unlink : M (kst F) Z;
  sys_link : M (kst F) Z;
  sys_mkdir : M (kst F) Z;
  sys_close : M (kst F) Z }.

Section args.
  Context {F : Type}.
  Notation K := (M (kst F)).

(** Bytes of the current address space, read in kernel mode. *)
Definition ubytes (va : Z) (n : nat) : K (list Z) :=
  s ← get; oget (uread (mem (km s)) (P2V (cr3 s)) va n).

(** * Arguments

    [None] stands for the result -1, [Some] for 0 and what is stored through the
    pointer. *)

Definition fetchint (addr : Z) : K (option Z) :=
  p ← myproc;
  pr ← getproc p;
  if (p_sz pr <=? addr) || (p_sz pr <? u32 (addr + 4)) then mret None else
  l ← ubytes addr 4;
  mret (Some (s32 (le l))).

(** The loop of fetchstr with [n] bytes left before [ep]. *)
Fixpoint fetchstr_loop (n : nat) (s pp : Z) : K Z :=
  match n with
  | O => mret (-1)
  | S n =>
      l ← ubytes s 1;
      if le l =? 0 then mret (s - pp) else fetchstr_loop n (s + 1) pp
  end.

(** The length; the pointer stored is [addr] itself. *)
Definition fetchstr (addr : Z) : K Z :=
  p ← myproc;
  pr ← getproc p;
  if p_sz pr <=? addr then mret (-1) else
  fetchstr_loop (Z.to_nat (p_sz pr - addr)) addr addr.

Definition argint (n : Z) : K (option Z) :=
  p ← myproc;
  pr ← getproc p;
  fetchint (u32 (tf_esp (p_tf pr) + 4 + 4 * n)).

Definition argptr (n size : Z) : K (option Z) :=
  p ← myproc;
  pr ← getproc p;
  i ← argint n;
  match i with
  | None => mret None
  | Some i =>
      if (size <? 0) || (p_sz pr <=? u32 i) || (p_sz pr <? u32 (u32 i + size)) then mret None
      else mret (Some (u32 i))
  end.

(** The address and the length of the string. *)
Definition argstr (n : Z) : K (option (Z * Z)) :=
  addr ← argint n;
  match addr with
  | None => mret None
  | Some addr =>
      r ← fetchstr (u32 addr);
      mret (if r <? 0 then None else Some (u32 addr, r))
  end.
End args.

Section calls.
  Context {KI : KernelImage} {CF : Config} {CP : Cpus} {KT : KernelText} {KV : KernelVars}.
  Context {F : Type} {FS : FsOps F} {FC : FileCalls F}.
  Notation K := (M (kst F)).

(** * Calls on processes *)

Definition sys_yield : K sres := i ← yield_enter; mret (SYield i).
Definition sys_fork : K sres := r ← fork; mret (SRet r).
Definition sys_exit : K sres := exit_enter;; mret SExit.

Definition wait_result (w : wres) : sres :=
  match w with WReturn pid => SRet pid | WSleep i => SWait i end.

Definition sys_wait : K sres := w ← wait_enter; mret (wait_result w).

Definition sys_kill : K sres :=
  pid ← argint 0;
  match pid with
  | None => mret (SRet (-1))
  | Some pid => r ← kill pid; mret (SRet r)
  end.

Definition sys_getpid : K sres := p ← myproc; pr ← getproc p; mret (SRet (p_pid pr)).

Definition sys_sbrk : K sres :=
  n ← argint 0;
  match n with
  | None => mret (SRet (-1))
  | Some n =>
      p ← myproc;
      pr ← getproc p;
      let addr := s32 (p_sz pr) in
      r ← growproc n;
      mret (SRet (if r <? 0 then -1 else addr))
  end.

(** The loop of sys_sleep, with tickslock held; [n] is compared as an unsigned
    number. *)
Definition sleep_loop (ticks0 n : Z) : K sres :=
  s ← get;
  if u32 (ticks s - ticks0) <? u32 n then
    p ← myproc;
    pr ← getproc p;
    if negb (p_killed pr =? 0) then on_tickslock release;; mret (SRet (-1)) else
    i ← sleep_enter (CAddr addr_ticks) (on_tickslock release);
    mret (SSleep ticks0 n i)
  else on_tickslock release;; mret (SRet 0).

Definition sys_sleep : K sres :=
  n ← argint 0;
  match n with
  | None => mret (SRet (-1))
  | Some n =>
      on_tickslock acquire;;
      ticks0 ← gets ticks;
      sleep_loop ticks0 n
  end.

Definition sys_uptime : K sres :=
  on_tickslock acquire;;
  xticks ← gets ticks;
  on_tickslock release;;
  mret (SRet (s32 xticks)).

Definition sys_update_protected_pages : K sres :=
  up ← argint 0;
  match up with
  | None => mret (SRet (-1))
  | Some up => update_protected_pages (negb (up =? 0));; mret (SRet 0)
  end.

Definition sys_is_flag_on : K sres :=
  va ← argint 0;
  match va with
  | None => mret (SRet (-1))
  | Some va =>
      flag ← argint 1;
      match flag with
      | None => mret (SRet (-1))
      | Some flag => r ← is_flag_on (u32 va) (u32 flag); mret (SRet (if r : bool then 1 else 0))
      end
  end.

Definition sys_turn_flag : K sres :=
  va ← argint 0;
  match va with
  | None => mret (SRet (-1))
  | Some va =>
      flag ← argint 1;
      match flag with
      | None => mret (SRet (-1))
      | Some flag =>
          on ← argint 2;
          match on with
          | None => mret (SRet (-1))
          | Some on => turn_flag (u32 va) (u32 flag) (negb (on =? 0));; mret (SRet 1)
          end
      end
  end.

(** * The dispatch *)

Definition ret (m : K Z) : K sres := r ← m; mret (SRet r).

(** The table [syscalls], in the order of syscall.h. *)
Definition syscalls : list (K sres) :=
  [ sys_fork; sys_exit; sys_wait; ret sys_pipe; ret sys_read; sys_kill; ret sys_exec; ret sys_fstat;
    ret sys_chdir; ret sys_dup; sys_getpid; sys_sbrk; sys_sleep; sys_uptime; ret sys_open; ret sys_write;
    ret sys_mknod; ret sys_unlink; ret sys_link; ret sys_mkdir; ret sys_close; sys_yield; sys_turn_flag;
    sys_is_flag_on; sys_update_protected_pages ].

Definition set_eax (p : nat) (v : Z) : K unit :=
  modproc p (λ q, set_p_tf (set_tf_eax (u32 v) (p_tf q)) q).

(** What syscall does with the result of a call, once it has one. *)
Definition syscall_end (r : sres) : K unit :=
  match r with
  | SRet v => p ← myproc; set_eax p v
  | _ => mret tt
  end.

Definition syscall : K sres :=
  curproc ← myproc;
  pr ← getproc curproc;
  let num := s32 (tf_eax (p_tf pr)) in
  match (if (0 <? num) && (num <? NELEM_syscalls) then nthZ syscalls (num - 1) else None) with
  | Some call => r ← call; syscall_end r;; mret r
  | None =>
      put (int (p_pid pr) ++ txt " " ++ upto0 (p_name pr) ++ txt ": unknown sys call " ++ int num ++ [10]);;
      set_eax curproc (-1);;
      mret (SRet (-1))
  end.

(** The rest of a call when its process runs again, and of syscall after it. *)
Definition call_resume (r : sres) : K sres :=
  match r with
  | SWait i => w ← wait_resume i; mret (wait_result w)
  | SYield i => yield_exit i;; mret (SRet 0)
  | SSleep ticks0 n i => sleep_exit i (on_tickslock acquire);; sleep_loop ticks0 n
  | SRet _ | SExit => mret r
  end.

Definition sys_resume (r : sres) : K sres := r ← call_resume r; syscall_end r;; mret r.
End calls.

(** * Arguments are checked *)

Section arg_lemmas.
  Context {KI : KernelImage} {F : Type}.
  Context (s : kst F) (p : nat) (pr : proc).
  Hypothesis Hcur : cur s = Some p.
  Hypothesis Hpr : procs s !! p = Some pr.
  Hypothesis Hsz : 0 ≤ p_sz pr ≤ KERNBASE.

Lemma ubytes_eq va n l : uread (mem (km s)) (P2V (cr3 s)) va n = Some l → ubytes va n s = Ok (l, s).
Proof. intros H. unfold ubytes. munfold. by rewrite H. Qed.

Lemma fetchint_in addr l :
  0 ≤ addr → addr + 4 ≤ p_sz pr → uread (mem (km s)) (P2V (cr3 s)) addr 4 = Some l →
  fetchint addr s = Ok (Some (s32 (le l)), s).
Proof.
  intros H0 H4 Hl. unfold fetchint. mrun (myproc_eq _ _ Hcur). mrun (getproc_eq _ _ _ Hpr).
  rewrite u32_small by (unfold KERNBASE in *; lia).
  rewrite (proj2 (Z.leb_gt _ _)), (proj2 (Z.ltb_ge _ _)) by lia. cbn [orb].
  by mrun (ubytes_eq _ _ _ Hl).
Qed.

Lemma fetchint_out addr : 0 ≤ addr < 2 ^ 32 → p_sz pr < addr + 4 → fetchint addr s = Ok (None, s).
Proof.
  intros H0 H4. unfold fetchint. mrun (myproc_eq _ _ Hcur). mrun (getproc_eq _ _ _ Hpr).
  destruct (Z.leb_spec (p_sz pr) addr); [done|]. rewrite u32_small by (unfold KERNBASE in *; lia).
  by rewrite (proj2 (Z.ltb_lt _ _)) by lia.
Qed.

Lemma argint_in n l :
  let a := u32 (tf_esp (p_tf pr) + 4 + 4 * n) in
  a + 4 ≤ p_sz pr → uread (mem (km s)) (P2V (cr3 s)) a 4 = Some l →
  argint n s = Ok (Some (s32 (le l)), s).
Proof.
  intros a Ha Hl. unfold argint. mrun (myproc_eq _ _ Hcur). mrun (getproc_eq _ _ _ Hpr).
  apply fetchint_in; [apply u32_range|done|done].
Qed.

Lemma argint_out n :
  p_sz pr < u32 (tf_esp (p_tf pr) + 4 + 4 * n) + 4 → argint n s = Ok (None, s).
Proof.
  intros H. unfold argint. mrun (myproc_eq _ _ Hcur). mrun (getproc_eq _ _ _ Hpr).
  apply fetchint_out; [apply u32_range|done].
Qed.

(** The loop of fetchstr over bytes that can be read. *)
Lemma fetchstr_loop_eq n : ∀ a pp l,
  uread (mem (km s)) (P2V (cr3 s)) a n = Some l →
  fetchstr_loop n a pp s =
    Ok (match find_idx (λ c, c =? 0) l with Some k => a + Z.of_nat k - pp | None => -1 end, s).
Proof.
  induction n as [|n IH]; intros a pp l Hl; cbn in Hl; [by simplify_eq|].
  apply bind_Some in Hl as (c & Hc & Hl). apply bind_Some in Hl as (l' & Hl' & [= <-]).
  assert (H1 : uread (mem (km s)) (P2V (cr3 s)) a 1 = Some [ld8 (mem (km s)) c]) by (cbn; by rewrite Hc).
  cbn [fetchstr_loop]. mrun (ubytes_eq _ _ _ H1).
  cbn [le]. rewrite Z.mul_0_r, Z.add_0_r. cbn [find_idx]. destruct (ld8 (mem (km s)) c =? 0).
  - by rewrite Z.add_0_r.
  - rewrite (IH _ _ _ Hl'). destruct (find_idx _ l') as [k|]; cbn [fmap option_fmap option_map]; [|done].
    by replace (a + 1 + Z.of_nat k - pp) with (a + Z.of_nat (S k) - pp) by lia.
Qed.
End arg_lemmas.

Lemma u32_s32 x : u32 (s32 x) = u32 x.
Proof.
  unfold s32. destruct (u32 x <? 2 ^ 31); [apply u32_u32|].
  unfold u32. rewrite <- (Z.mod_add (x mod 2 ^ 32 - 2 ^ 32) 1) by lia.
  replace (x mod 2 ^ 32 - 2 ^ 32 + 1 * 2 ^ 32) with (x mod 2 ^ 32) by lia. apply Z.mod_mod. lia.
Qed.

Section arg_theorems.
  Context {KI : KernelImage} {F : Type}.

(** C9. A pointer argument is accepted exactly when the argument word and the whole
    block it points to lie inside the process: the call is refused when the word
    is outside, and otherwise, with [a] the pointer the word holds, it succeeds
    just for a block [a .. a + size) below the size of the process. Nothing
    changes either way, and no block accepted reaches the kernel's addresses. *)
Theorem argptr_inside (s : kst F) p pr n size l
  (Hcur : cur s = Some p) (Hpr : procs s !! p = Some pr) (Hsz : 0 ≤ p_sz pr ≤ KERNBASE)
  (Hsize : - 2 ^ 31 ≤ size < 2 ^ 31) :
  let w := u32 (tf_esp (p_tf pr) + 4 + 4 * n) in
  let a := le l in
  (p_sz pr < w + 4 → argptr n size s = Ok (None, s)) ∧
  (w + 4 ≤ p_sz pr → uread (mem (km s)) (P2V (cr3 s)) w 4 = Some l →
   ∃ r, argptr n size s = Ok (r, s) ∧
     ∀ b, r = Some b ↔ b = a ∧ 0 ≤ size ∧ a < p_sz pr ∧ a + size ≤ p_sz pr).
Proof.
  intros w a. split.
  - intros Hw. unfold argptr. mrun (myproc_eq _ _ Hcur). mrun (getproc_eq _ _ _ Hpr).
    by mrun (argint_out _ _ _ Hcur Hpr Hsz n Hw).
  - intros Hw Hl. destruct (uread_bytes _ _ _ _ _ Hl) as [Hlen Hb].
    pose proof (le_range _ Hb) as Ha. rewrite Hlen in Ha. change (256 ^ Z.of_nat 4) with (2 ^ 32) in Ha.
    exists (if (size <? 0) || (p_sz pr <=? a) || (p_sz pr <? u32 (a + size)) then None else Some a). split.
    { unfold argptr. mrun (myproc_eq _ _ Hcur). mrun (getproc_eq _ _ _ Hpr).
      mrun (argint_in _ _ _ Hcur Hpr Hsz n _ Hw Hl). rewrite u32_s32, (u32_small (le l)) by lia.
      fold a. by destruct ((size <? 0) || _ || _). }
    intros b. fold a in Ha |- *. unfold KERNBASE in *.
    destruct (Z.ltb_spec size 0); cbn [orb]; [split; [done|lia]|].
    destruct (Z.leb_spec (p_sz pr) a); cbn [orb]; [split; [done|lia]|].
    rewrite u32_small by lia. destruct (Z.ltb_spec (p_sz pr) (a + size)); split; try done; try lia.
    + intros [= <-]. lia.
    + intros [-> _]. done.
Qed.

(** A string argument: over memory of the process that can be read, fetchstr
    returns the distance to the first NUL before the end of the process, and -1
    when there is none. *)
Theorem fetchstr_terminated (s : kst F) p pr addr l
  (Hcur : cur s = Some p) (Hpr : procs s !! p = Some pr) (Haddr : 0 ≤ addr < p_sz pr)
  (Hl : uread (mem (km s)) (P2V (cr3 s)) addr (Z.to_nat (p_sz pr - addr)) = Some l) :
  ∃ r, fetchstr addr s = Ok (r, s) ∧
    (r = -1 ∧ 0 ∉ l ∨
     0 ≤ r ∧ addr + r < p_sz pr ∧ l !! Z.to_nat r = Some 0 ∧ 0 ∉ take (Z.to_nat r) l).
Proof.
  destruct (uread_bytes _ _ _ _ _ Hl) as [Hlen _]. eexists. split.
  { unfold fetchstr. mrun (myproc_eq _ _ Hcur). mrun (getproc_eq _ _ _ Hpr).
    rewrite (proj2 (Z.leb_gt _ _)) by lia. by apply fetchstr_loop_eq. }
  destruct (find_idx _ l) as [k|] eqn:E.
  - right. apply find_idx_Some in E as [(c & Hc & H0) Hbefore]. apply Z.eqb_eq in H0 as ->.
    pose proof (lookup_lt_Some _ _ _ Hc). replace (addr + Z.of_nat k - addr) with (Z.of_nat k) by lia.
    rewrite Nat2Z.id. split_and!; [lia|lia|done|].
    intros (j & Hj)%list_elem_of_lookup. apply lookup_take_Some in Hj as [Hj ?].
    specialize (Hbefore j 0 ltac:(lia) Hj). done.
  - left. split; [done|]. rewrite find_idx_None in E. intros (j & Hj)%list_elem_of_lookup.
    by specialize (E j 0 Hj).
Qed.
End arg_theorems.

Lemma s32_eq0 x : 0 ≤ x < 2 ^ 32 → (s32 x =? 0) = (x =? 0).
Proof.
  intros H. unfold s32. rewrite u32_small by done.
  destruct (Z.ltb_spec x (2 ^ 31)); [done|].
  destruct (Z.eqb_spec (x - 2 ^ 32) 0), (Z.eqb_spec x 0); lia.
Qed.

Section flag_theorem.
  Context {KI : KernelImage} {CF : Config} {F : Type} {FS : FsOps F}.

(** The argument word [n] can be read and holds [v]. *)
Definition arg_word (s : kst F) (pr : proc) (n v : Z) : Prop :=
  let w := u32 (tf_esp (p_tf pr) + 4 + 4 * n) in
  w + 4 ≤ p_sz pr ∧ ∃ l, uread (mem (km s)) (P2V (cr3 s)) w 4 = Some l ∧ le l = v.

Lemma arg_word_eq (s : kst F) p pr n v :
  cur s = Some p → procs s !! p = Some pr → 0 ≤ p_sz pr ≤ KERNBASE → arg_word s pr n v →
  argint n s = Ok (Some (s32 v), s) ∧ 0 ≤ v < 2 ^ 32.
Proof.
  intros Hcur Hpr Hsz (Hw & l & Hl & <-). split; [by eapply argint_in|].
  destruct (uread_bytes _ _ _ _ _ Hl) as [Hlen Hb]. pose proof (le_range _ Hb) as Ha.
  by rewrite Hlen in Ha.
Qed.

Lemma turn_flag_eq (s : kst F) p pr l va flag (on : bool) :
  cur s = Some p → procs s !! p = Some pr → wf_pgdir (mem (km s)) (p_pgdir pr) l →
  pde_present (mem (km s)) (p_pgdir pr) (PDX va) = true →
  let e := aspace (mem (km s)) (p_pgdir pr) va in
  turn_flag va flag on s = Ok (tt, set_cr3 (V2P (p_pgdir pr))
    (upd_mem (st32 (mem (km s)) (pte_addr (mem (km s)) (p_pgdir pr) va) (if on then Z.lor e flag else clr e flag)) s)).
Proof.
  intros Hcur Hpr Hwf Hp e. unfold turn_flag. mrun (myproc_eq _ _ Hcur). mrun (getproc_eq _ _ _ Hpr).
  mrun (walk_eq _ _ _ Hp). rewrite (proj2 (Z.eqb_neq _ _)) by (by eapply pte_addr_nonzero).
  mrun (rd32_eq (pte_addr (mem (km s)) (p_pgdir pr) va) s). rewrite pte_addr_aspace by done. done.
Qed.

(** The call turn_flag changes the flags of any address for which there is a
    page table, the kernel's own included: with flag PTE_U it makes a page above
    KERNBASE accessible to the user program that asks for it. *)
Theorem sys_turn_flag_unchecked (s : kst F) p pr l va flag on
  (Hcur : cur s = Some p) (Hpr : procs s !! p = Some pr) (Hsz : 0 ≤ p_sz pr ≤ KERNBASE)
  (Hva : arg_word s pr 0 va) (Hflag : arg_word s pr 1 flag) (Hon : arg_word s pr 2 on)
  (Hwf : wf_pgdir (mem (km s)) (p_pgdir pr) l)
  (Hpt : pde_present (mem (km s)) (p_pgdir pr) (PDX va) = true) :
  runs sys_turn_flag s (λ r s',
    let sp := aspace (mem (km s)) (p_pgdir pr) in
    let sp' := aspace (mem (km s')) (p_pgdir pr) in
    r = SRet 1 ∧ sp' va = (if on =? 0 then clr (sp va) flag else Z.lor (sp va) flag) ∧
    (∀ a, 0 ≤ a < 2 ^ 32 → a / PGSIZE ≠ va / PGSIZE → sp' a = sp a) ∧
    (KERNBASE ≤ va → flag = PTE_U → on ≠ 0 → tst (sp' va) PTE_U = true)).
Proof.
  destruct (arg_word_eq _ _ _ _ _ Hcur Hpr Hsz Hva) as [E0 R0].
  destruct (arg_word_eq _ _ _ _ _ Hcur Hpr Hsz Hflag) as [E1 R1].
  destruct (arg_word_eq _ _ _ _ _ Hcur Hpr Hsz Hon) as [E2 R2].
  eexists _, _. split.
  { unfold sys_turn_flag. mrun E0. mrun E1. mrun E2. rewrite !u32_s32, !(u32_small _ R0), !(u32_small _ R1).
    by mrun (turn_flag_eq s p pr l va flag (negb (s32 on =? 0)) Hcur Hpr Hwf Hpt). }
  cbn zeta. rewrite s32_eq0 by done. cbn [km set_cr3 upd_mem set_km mem set_mem].
  destruct (aspace_store (mem (km s)) (p_pgdir pr) l va
    (if negb (on =? 0) then Z.lor (aspace (mem (km s)) (p_pgdir pr) va) flag
     else clr (aspace (mem (km s)) (p_pgdir pr) va) flag) R0 Hwf Hpt) as (_ & Hsp & _).
  fold (pte_addr (mem (km s)) (p_pgdir pr) va) in Hsp.
  pose proof (aspace_range (mem (km s)) (p_pgdir pr) va) as Hr.
  split; [done|]. split; [|split].
  - rewrite (Hsp va R0), Z.eqb_refl. destruct (on =? 0); cbn; apply u32_small; [by apply clr_range|by apply lor_range].
  - intros a Ha Hne. rewrite (Hsp a Ha). unfold PGSIZE in Hne. by rewrite (proj2 (Z.eqb_neq _ _)).
  - intros _ Hfl Hne. rewrite (Hsp va R0), Z.eqb_refl. rewrite (proj2 (Z.eqb_neq _ _) Hne). cbn.
    rewrite u32_small, Hfl by (by apply lor_range). change PTE_U with (2 ^ 2). rewrite tst_bit, Z.lor_spec by lia.
    apply orb_true_r.
Qed.
End flag_theorem.
