(* ===== verification/Exec.v ===== *)
(** Running a program (exec.c) and the system call that does so (sysfile.c). *)
From Stdlib Require Import ZArith Lia Bool.
From stdpp Require Import base tactics list strings.
From S2P Require Import Prelude Machine CString Format Kalloc PageTable Locks State Vm Uvm Paging Proc Keeps Syscall.

(** * elf.h *)

Definition ELF_MAGIC : Z := 0x464C457F.
Definition ELF_PROG_LOAD : Z := 1.

(** The fields of the file header that exec looks at, at their offsets. *)
Record elfhdr := mk_elf { elf_magic : Z; elf_entry : Z; elf_phoff : Z; elf_phnum : Z }.
Definition sizeof_elfhdr : Z := 52.
Definition elf_of (l : list Z) : elfhdr := mk_elf (field l 0 4) (field l 24 4) (field l 28 4) (field l 44 2).

Record proghdr := mk_ph { ph_type : Z; ph_off : Z; ph_vaddr : Z; ph_filesz : Z; ph_memsz : Z }.
Definition sizeof_proghdr : Z := 32.
Definition ph_of (l : list Z) : proghdr :=
  mk_ph (field l 0 4) (field l 4 4) (field l 8 4) (field l 16 4) (field l 20 4).

(** The text after the last slash of [path]; [last] is the best so far. *)
Fixpoint basename (last path : list Z) : list Z :=
  match path with
  | [] => last
  | c :: path => basename (if c =? 47 then path else last) path
  end.

Section exec.
  Context {KI : KernelImage} {CF : Config} {CP : Cpus} {KT : KernelText}.
  Context {F : Type} {FS : FsOps F}.
  Notation K := (M (kst F)).

(** The string at a user address of the current process; strings end inside the
    process, as fetchstr has checked. *)
Fixpoint ustr_loop (n : nat) (va : Z) : K (list Z) :=
  match n with
  | O => fault
  | S n =>
      l ← ubytes va 1;
      if le l =? 0 then mret [] else r ← ustr_loop n (va + 1); mret (le l :: r)
  end.

Definition ustr (va : Z) : K (list Z) :=
  p ← myproc;
  pr ← getproc p;
  ustr_loop (Z.to_nat (p_sz pr - va)) va.

(** The loop over the program headers: the size of the image, [None] for the
    jump to [bad]. *)
Fixpoint load_segments (n : nat) (pgdir ip off sz : Z) : K (option Z) :=
  match n with
  | O => mret (Some sz)
  | S n =>
      '(r, data) ← liftf (fs_readi ip off sizeof_proghdr);
      if negb (r =? sizeof_proghdr) then mret None else
      let ph := ph_of data in
      let off := u32 (off + sizeof_proghdr) in
      if negb (ph_type ph =? ELF_PROG_LOAD) then load_segments n pgdir ip off sz else
      if ph_memsz ph <? ph_filesz ph then mret None else
      if u32 (ph_vaddr ph + ph_memsz ph) <? ph_vaddr ph then mret None else
      sz ← allocuvm pgdir sz (u32 (ph_vaddr ph + ph_memsz ph));
      if sz =? 0 then mret None else
      if negb (ph_vaddr ph mod PGSIZE =? 0) then mret None else
      r ← loaduvm pgdir (ph_vaddr ph) ip (ph_off ph) (ph_filesz ph);
      if r <? 0 then mret None else
      load_segments n pgdir ip off sz
  end.

(** The loop over the arguments: the stack pointer and the addresses of the copies
    so far; [argv] are addresses of strings in the old image. *)
Fixpoint push_args (pgdir argc sp : Z) (argv stack : list Z) : K (option (Z * list Z)) :=
  match argv with
  | [] => mret (Some (sp, stack))
  | a :: argv =>
      if MAXARG <=? argc then mret None else
      arg ← ustr a;
      let sp := Z.land (u32 (sp - (Z.of_nat (length arg) + 1))) (u32 (Z.lnot 3)) in
      r ← copyout pgdir sp (arg ++ [0]);
      if r <? 0 then mret None else
      push_args pgdir (argc + 1) sp argv (stack ++ [sp])
  end.

(** The stack of the new image, above the guard page: its size and its stack
    pointer. *)
Definition build_stack (pgdir sz : Z) (argv : list Z) : K (option (Z * Z)) :=
  let sz := PGROUNDUP sz in
  sz ← allocuvm pgdir sz (u32 (sz + 2 * PGSIZE));
  if sz =? 0 then mret None else
  clearpteu pgdir (u32 (sz - 2 * PGSIZE));;
  r ← push_args pgdir 0 sz argv [];
  match r with
  | None => mret None
  | Some (sp, args) =>
      let argc := Z.of_nat (length args) in
      let ustack := 0xffffffff :: argc :: u32 (sp - (argc + 1) * 4) :: args ++ [0] in
      let sp := u32 (sp - (3 + argc + 1) * 4) in
      r ← copyout pgdir sp (concat (word <$> ustack));
      mret (if r <? 0 then None else Some (sz, sp))
  end.

(** Entries of the tables of pages move over to the new directory. *)
Definition retarget (pgdir : Z) (l : list p_monitor) : list p_monitor :=
  (λ m, if pm_used m =? 1 then set_pm_pgdir pgdir m else m) <$> l.

(** The new name, the new image and its first registers. *)
Definition commit (curproc : nat) (path entry pgdir sz sp : Z) : K Z :=
  name ← ustr path;
  modproc curproc (λ p, set_p_name (cname 16 (p_name p) (basename name name)) p);;
  modproc curproc (λ p, set_p_ram_monitor (retarget pgdir (p_ram_monitor p)) p);;
  modproc curproc (λ p, set_p_swap_monitor (retarget pgdir (p_swap_monitor p)) p);;
  cp ← getproc curproc;
  let oldpgdir := p_pgdir cp in
  modproc curproc (set_p_pgdir pgdir);;
  modproc curproc (set_p_sz sz);;
  modproc curproc (λ p, set_p_tf (set_tf_eip entry (p_tf p)) p);;
  modproc curproc (λ p, set_p_tf (set_tf_esp sp (p_tf p)) p);;
  switchuvm (Some curproc);;
  freevm oldpgdir;;
  mret 0.

(** The label [bad]; 0 stands for no page directory and for no inode. *)
Definition bad (pgdir ip : Z) : K Z :=
  (if pgdir =? 0 then mret tt else freevm pgdir);;
  (if ip =? 0 then mret tt else liftf (fs_iunlockput ip);; liftf fs_end_op);;
  mret (-1).

Definition exec (path : Z) (argv : list Z) : K Z :=
  curproc ← myproc;
  liftf fs_begin_op;;
  name ← ustr path;
  cp ← getproc curproc;
  ip ← liftf (fs_namei (p_cwd cp) name);
  if ip =? 0 then liftf fs_end_op;; put (txt "exec: fail" ++ [10]);; mret (-1) else
  liftf (fs_ilock ip);;
  '(r, data) ← liftf (fs_readi ip 0 sizeof_elfhdr);
  if negb (r =? sizeof_elfhdr) then bad 0 ip else
  let elf := elf_of data in
  if negb (elf_magic elf =? ELF_MAGIC) then bad 0 ip else
  pgdir ← setupkvm;
  if pgdir =? 0 then bad 0 ip else
  sz ← load_segments (Z.to_nat (elf_phnum elf)) pgdir ip (elf_phoff elf) 0;
  match sz with
  | None => bad pgdir ip
  | Some sz =>
      liftf (fs_iunlockput ip);;
      liftf fs_end_op;;
      r ← build_stack pgdir sz argv;
      match r with
      | None => bad pgdir 0
      | Some (sz, sp) => commit curproc path (elf_entry elf) pgdir sz sp
      end
  end.

(** The loop of sys_exec over the argument pointers, from index [i]. *)
Fixpoint fetch_argv (n : nat) (uargv i : Z) (argv : list Z) : K (option (list Z)) :=
  match n with
  | O => mret None
  | S n =>
      uarg ← fetchint (u32 (uargv + 4 * i));
      match uarg with
      | None => mret None
      | Some uarg =>
          if uarg =? 0 then mret (Some argv) else
          r ← fetchstr (u32 uarg);
          if r <? 0 then mret None else fetch_argv n uargv (i + 1) (argv ++ [u32 uarg])
      end
  end.

Definition sys_exec_call : K Z :=
  path ← argstr 0;
  match path with
  | None => mret (-1)
  | Some (path, _) =>
      uargv ← argint 1;
      match uargv with
      | None => mret (-1)
      | Some uargv =>
          argv ← fetch_argv (Z.to_nat MAXARG) (u32 uargv) 0 [];
          match argv with
          | None => mret (-1)
          | Some argv => exec path argv
          end
      end
  end.
End exec.

(** * A failed exec leaves the process as it was *)

Section exec_keeps.
  Context {KI : KernelImage} {CF : Config} {CP : Cpus} {KT : KernelText}.
  Context {F : Type} {FS : FsOps F}.
  Context (self : nat) (Hself : cpu_index = Some self).
  #[local] Hint Extern 1 (keeps vsig (switchuvm _)) => apply (keeps_switchuvm self Hself) : keeps.

Lemma keeps_ubytes va n : keeps vsig (F:=F) (ubytes va n).
Proof. unfold ubytes. keeps. Qed.
#[local] Hint Resolve keeps_ubytes : keeps.
Lemma keeps_ustr_loop n va : keeps vsig (F:=F) (ustr_loop n va).
Proof. revert va. induction n; intros va; cbn [ustr_loop]; keeps. Qed.
#[local] Hint Resolve keeps_ustr_loop : keeps.
Lemma keeps_ustr va : keeps vsig (F:=F) (ustr va).
Proof. unfold ustr. keeps. Qed.
#[local] Hint Resolve keeps_ustr : keeps.

Lemma keeps_load_loop n a b c d e f : keeps vsig (F:=F) (load_loop n a b c d e f).
Proof. revert e. induction n; intros e; cbn [load_loop]; keeps. Qed.
#[local] Hint Resolve keeps_load_loop : keeps.
Lemma keeps_loaduvm a b c d e : keeps vsig (F:=F) (loaduvm a b c d e).
Proof. unfold loaduvm. keeps. Qed.
#[local] Hint Resolve keeps_loaduvm : keeps.
Lemma keeps_load_segments n a b c d : keeps vsig (F:=F) (load_segments n a b c d).
Proof. revert c d. induction n; intros c d; cbn [load_segments]; keeps. Qed.

Lemma keeps_copyout_loop n a b l : keeps vsig (F:=F) (copyout_loop n a b l).
Proof. revert b l. induction n; intros b l; destruct l; cbn [copyout_loop]; unfold uva2ka; keeps. Qed.
#[local] Hint Resolve keeps_copyout_loop : keeps.
Lemma keeps_copyout a b l : keeps vsig (F:=F) (copyout a b l).
Proof. unfold copyout. keeps. Qed.
#[local] Hint Resolve keeps_copyout : keeps.
Lemma keeps_push_args a b c l k : keeps vsig (F:=F) (push_args a b c l k).
Proof. revert b c k. induction l; intros b c k; cbn [push_args]; keeps. Qed.
#[local] Hint Resolve keeps_load_segments keeps_push_args : keeps.
Lemma keeps_build_stack a b l : keeps vsig (F:=F) (build_stack a b l).
Proof. unfold build_stack, clearpteu. keeps. Qed.
Lemma keeps_bad a b : keeps vsig (F:=F) (bad a b).
Proof. unfold bad. keeps. Qed.
Lemma keeps_put l : keeps vsig (F:=F) (put l).
Proof. unfold put. keeps. Qed.
#[local] Hint Resolve keeps_build_stack keeps_bad keeps_put : keeps.

(** A process with another image: name, directory, size and first registers. *)
Definition image (pr : proc) (name : list Z) (pgdir sz eip esp : Z) : proc :=
  set_p_name name (set_p_pgdir pgdir (set_p_sz sz (set_p_tf (set_tf_esp esp (set_tf_eip eip (p_tf pr))) pr))).

(** The process [p] of [s] has a new image in [s'] and nothing else of the table
    differs but paging meta-data. *)
Definition new_image (p : nat) (s s' : kst F) : Prop :=
  ∃ pr name pgdir sz eip esp, procs s !! p = Some pr ∧ pgdir ≠ 0 ∧ cur s' = cur s ∧
    vsig <$> procs s' = <[p := vsig (image pr name pgdir sz eip esp)]> (vsig <$> procs s).

Definition exec_result (p : nat) (s : kst F) (r : Z) (s' : kst F) : Prop :=
  r = -1 ∧ keep vsig s s' ∨ r = 0 ∧ new_image p s s'.

(** From [s1], which agrees with [s0], [m] ends as exec should from [s0]. *)
Definition execs (p : nat) (s0 s1 : kst F) (m : M (kst F) Z) : Prop :=
  keep vsig s0 s1 → ∀ r s', m s1 = Ok (r, s') → exec_result p s0 r s'.

Lemma execs_bind {A} p s0 s1 (m : M (kst F) A) f :
  keeps vsig m → (∀ a s, m s1 = Ok (a, s) → execs p s0 s (f a)) → execs p s0 s1 (m ≫= f).
Proof.
  intros Hm Hf Hk r s' H. apply bind_Ok in H as (a & s2 & H1 & H2).
  eapply Hf; [exact H1| |exact H2]. eapply keep_trans; [done|by eapply Hm].
Qed.

Lemma execs_fail p s0 s1 m : keeps vsig m → (∀ s r s', m s = Ok (r, s') → r = -1) → execs p s0 s1 m.
Proof.
  intros Hm Hr Hk r s' H. left. split; [by eapply Hr|]. eapply keep_trans; [done|by eapply Hm].
Qed.

Lemma bad_fails a b s r s' : bad (F:=F) a b s = Ok (r, s') → r = -1.
Proof.
  intros H. apply bind_Ok in H as (? & ? & _ & H). apply bind_Ok in H as (? & ? & _ & H). by injection H.
Qed.

Lemma keep_lookup s s' i pr :
  keep (F:=F) vsig s s' → procs s !! i = Some pr → ∃ pr', procs s' !! i = Some pr' ∧ vsig pr' = vsig pr.
Proof.
  intros [K _ _ _ _ _] Hp. assert (H : (vsig <$> procs s') !! i = Some (vsig pr)) by (by rewrite K, list_lookup_fmap, Hp).
  rewrite list_lookup_fmap in H. destruct (procs s' !! i) as [pr'|]; [|done]. exists pr'. split; [done|].
  change (Some (vsig pr') = Some (vsig pr)) in H. congruence.
Qed.

(** The changes of commit to the process amount to one. *)
Lemma commit_result p path entry pgdir sz sp s r s' pr :
  commit p path entry pgdir sz sp s = Ok (r, s') → procs s !! p = Some pr →
  r = 0 ∧ ∃ s1 pr1 name, keep (F:=F) vsig s s1 ∧ procs s1 !! p = Some pr1 ∧
    keep vsig (upd_proc p (set_p_ram_monitor (retarget pgdir (p_ram_monitor pr1))
      (set_p_swap_monitor (retarget pgdir (p_swap_monitor pr1)) (image pr1 name pgdir sz entry sp))) s1) s'.
Proof.
  intros H Hp. unfold commit in H. apply bind_Ok in H as (name & s1 & H1 & H). pose proof (keeps_ustr _ _ _ _ H1) as K1.
  destruct (keep_lookup _ _ _ _ K1 Hp) as (pr1 & Hp1 & _). pose proof (lookup_lt_Some _ _ _ Hp1) as Hlt.
  rewrite (bind_eq _ _ _ _ _ (modproc_eq _ _ _ _ Hp1)) in H.
  do 2 (rewrite (bind_eq _ _ _ _ _ (modproc_eq _ _ _ _ (procs_upd p _ s1 Hlt))), upd_proc_twice in H).
  rewrite (bind_eq _ _ _ _ _ (getproc_eq _ _ _ (procs_upd p _ s1 Hlt))) in H.
  do 4 (rewrite (bind_eq _ _ _ _ _ (modproc_eq _ _ _ _ (procs_upd p _ s1 Hlt))), upd_proc_twice in H).
  apply bind_Ok in H as (u & s2 & H2 & H). apply bind_Ok in H as (u' & s3 & H3 & [= <- <-]).
  split; [done|]. eexists s1, pr1, _. split; [done|]. split; [done|].
  eapply keep_trans; [|eapply (keeps_freevm (sig:=vsig)); [done|exact H3]].
  apply (keeps_switchuvm self Hself (sig:=vsig) _) in H2. exact H2.
Qed.

Lemma execs_commit p path entry pgdir sz sp s0 s1 pr :
  procs s0 !! p = Some pr → pgdir ≠ 0 → execs p s0 s1 (commit p path entry pgdir sz sp).
Proof.
  intros Hp Hd Hk r s' H. destruct (keep_lookup _ _ _ _ Hk Hp) as (pr1 & Hp1 & _).
  destruct (commit_result _ _ _ _ _ _ _ _ _ _ H Hp1) as (-> & s2 & pr2 & name & K & Hp2 & K').
  right. split; [done|]. pose proof (keep_trans _ _ _ Hk K) as K2.
  destruct (keep_lookup _ _ _ _ K2 Hp) as (pr2' & Hp2' & Hv). rewrite Hp2 in Hp2'. injection Hp2' as <-.
  exists pr, name, pgdir, sz, entry, sp. split; [done|]. split; [done|]. split.
  { rewrite (kp_cur _ _ K'). apply K2. }
  rewrite (kp_procs _ _ K'). cbn. rewrite list_fmap_insert, (kp_procs _ _ K2). f_equal.
  destruct pr, pr2. unfold vsig in *. cbn in *. by simplify_eq.
Qed.

Ltac execs_step :=
  lazymatch goal with
  | |- execs _ _ _ (mbind _ _) => apply execs_bind; [solve [keeps]|intros ? ? ?]
  | |- execs _ _ _ (bad _ _) => apply execs_fail; [keeps|apply bad_fails]
  | |- execs _ _ _ (if ?b then _ else _) => let E := fresh "E" in destruct b eqn:E
  | |- execs _ _ _ (match ?x with _ => _ end) => destruct x
  | |- execs _ _ _ (mret (-1)) => apply execs_fail; [keeps|intros ? ? ? [= <- <-]; done]
  | |- execs _ _ _ (let _ := _ in _) => cbv zeta
  end.

End exec_keeps.
