(* ===== verification/Trap.v ===== *)
(** Traps (trap.c): interrupts, page faults and the entry of system calls.

    As in Syscall, a trap that leaves the CPU stops where it calls swtch, and
    [trap_resume] goes on from there. *)
From Stdlib Require Import ZArith Lia Bool.
From stdpp Require Import base tactics list strings.
From S2P Require Import Prelude Machine CString Format Kalloc PageTable Locks State Vm Uvm Paging Proc Keeps Syscall.

(** * traps.h *)

Definition T_PGFLT : Z := 14.
Definition T_SYSCALL : Z := 64.
Definition T_IRQ0 : Z := 32.
Definition IRQ_TIMER : Z := 0.
Definition IRQ_KBD : Z := 1.
Definition IRQ_COM1 : Z := 4.
Definition IRQ_IDE : Z := 14.
Definition IRQ_SPURIOUS : Z := 31.

(** * The interrupt descriptor table *)

Record gatedesc := mk_gate {
  off_15_0 : Z;
  gd_cs : Z;
  gd_args : Z;
  gd_rsv1 : Z;
  gd_type : Z;
  gd_s : Z;
  gd_dpl : Z;
  gd_p : Z;
  off_31_16 : Z }.

Definition STS_IG32 : Z := 0xE.
Definition STS_TG32 : Z := 0xF.
Definition SEG_KCODE : Z := 1.

Definition SETGATE (istrap : bool) (sel off d : Z) : gatedesc :=
  mk_gate (Z.land off 0xffff) sel 0 0 (if istrap then STS_TG32 else STS_IG32) 0 d 1 (Z.shiftr off 16).

(** The table after the loop of tvinit and the change to the system-call gate, and
    tickslock; [vectors] are the entry points of vectors.S. *)
Definition tvinit (vectors : list Z) : list gatedesc * spinlock :=
  let idt := (λ v, SETGATE false (Z.shiftl SEG_KCODE 3) v 0) <$> vectors in
  let v := default 0 (vectors !! Z.to_nat T_SYSCALL) in
  (<[Z.to_nat T_SYSCALL := SETGATE true (Z.shiftl SEG_KCODE 3) v DPL_USER]> idt, initlock).

(** What the trap handler calls of the device drivers. *)
Class Devices F := {
  ideintr : M (kst F) unit;
  kbdintr : M (kst F) unit;
  uartintr : M (kst F) unit;
  lapiceoi : M (kst F) unit }.

(** How a trap ends: it returns to the interrupted code, or the process has left
    the CPU in a system call, in yield, or for good in exit. *)
Inductive tres :=
  | TReturn
  | TCall (r : sres)
  | TYield (tf : trapframe) (intena : bool)
  | TExit.

Section trap.
  Context {KI : KernelImage} {CF : Config} {CP : Cpus} {KT : KernelText} {KV : KernelVars}.
  Context {F : Type} {FS : FsOps F} {FC : FileCalls F} {DV : Devices F}.
  Notation K := (M (kst F)).

Definition hex (n : Z) : list Z := printint n 16 false.

(** Whether the interrupted code is a user program. *)
Definition from_user (tf : trapframe) : bool := Z.land (tf_cs tf) 3 =? DPL_USER.

(** [if (myproc() && myproc()->killed && user) exit();] *)
Definition exit_if_killed (tf : trapframe) (k : K tres) : K tres :=
  s ← get;
  match cur s with
  | None => k
  | Some p =>
      pr ← getproc p;
      if negb (p_killed pr =? 0) && from_user tf then exit_enter;; mret TExit else k
  end.

(** After a system call: [if (myproc()->killed) exit();] *)
Definition call_end (r : sres) : K tres :=
  match r with
  | SRet _ =>
      p ← myproc;
      pr ← getproc p;
      if negb (p_killed pr =? 0) then exit_enter;; mret TExit else mret TReturn
  | SExit => mret TExit
  | _ => mret (TCall r)
  end.

Definition timer : K unit :=
  i ← on_cpu cpuid;
  (if i =? 0 then
     on_tickslock acquire;;
     modify (λ s, set_ticks (u32 (ticks s + 1)) s);;
     wakeup (CAddr addr_ticks);;
     on_tickslock release
   else mret tt);;
  lapiceoi.

(** The default case, which T_PGFLT falls into; the frame comes back with the
    trap number that the code stores in it. *)
Definition unexpected (tf : trapframe) (cr2 : Z) : K trapframe :=
  w ← is_flag_on cr2 PTE_W;
  let tf := if w : bool then tf else set_tf_trapno 13 tf in
  s ← get;
  if bool_decide (cur s = None) || (Z.land (tf_cs tf) 3 =? 0) then
    i ← on_cpu cpuid;
    put (txt "unexpected trap " ++ int (s32 (tf_trapno tf)) ++ txt " from cpu " ++ int i ++ txt " eip "
         ++ hex (tf_eip tf) ++ txt " (cr2=0x" ++ hex cr2 ++ txt ")" ++ [10]);;
    panic "trap"
  else
    p ← myproc;
    pr ← getproc p;
    i ← on_cpu cpuid;
    put (txt "pid " ++ int (p_pid pr) ++ txt " " ++ upto0 (p_name pr) ++ txt ": trap " ++ int (s32 (tf_trapno tf))
         ++ txt " err " ++ int (s32 (tf_err tf)) ++ txt " on cpu " ++ int i ++ txt " eip 0x" ++ hex (tf_eip tf)
         ++ txt " addr 0x" ++ hex cr2 ++ txt "--kill proc" ++ [10]);;
    modproc p (set_p_killed 1);;
    mret tf.

(** The case of a page fault: [true] when the page came back from the swap file. *)
Definition page_fault (tf : trapframe) (va : Z) : K bool :=
  s ← get;
  match cur s with
  | None => mret false
  | Some p =>
      pr ← getproc p;
      if 2 <? p_pid pr then
        if from_user tf then
          pg ← is_flag_on va PTE_PG;
          if pg : bool then r ← page_from_disk va; mret (negb (r =? 0)) else mret false
        else mret false
      else mret false
  end.

(** The switch over the trap number. *)
Definition dispatch (tf : trapframe) (cr2 : Z) : K trapframe :=
  let n := tf_trapno tf in
  if n =? T_IRQ0 + IRQ_TIMER then timer;; mret tf
  else if n =? T_IRQ0 + IRQ_IDE then ideintr;; lapiceoi;; mret tf
  else if n =? T_IRQ0 + IRQ_IDE + 1 then mret tf
  else if n =? T_IRQ0 + IRQ_KBD then kbdintr;; lapiceoi;; mret tf
  else if n =? T_IRQ0 + IRQ_COM1 then uartintr;; lapiceoi;; mret tf
  else if (n =? T_IRQ0 + 7) || (n =? T_IRQ0 + IRQ_SPURIOUS) then
    i ← on_cpu cpuid;
    put (txt "cpu" ++ int i ++ txt ": spurious interrupt at " ++ hex (tf_cs tf) ++ txt ":" ++ hex (tf_eip tf) ++ [10]);;
    lapiceoi;;
    mret tf
  else if n =? T_PGFLT then
    done ← page_fault tf cr2;
    if done : bool then mret tf else unexpected tf cr2
  else unexpected tf cr2.

(** The checks at the end of trap: the clock makes the process give up the CPU. *)
Definition trap_end (tf : trapframe) : K tres :=
  exit_if_killed tf (
    s ← get;
    match cur s with
    | Some p =>
        pr ← getproc p;
        if bool_decide (p_state pr = RUNNING) && (tf_trapno tf =? T_IRQ0 + IRQ_TIMER)
        then i ← yield_enter; mret (TYield tf i)
        else exit_if_killed tf (mret TReturn)
    | None => exit_if_killed tf (mret TReturn)
    end).

(** [cr2] is what rcr2() reads, the address of the last page fault. *)
Definition trap (tf : trapframe) (cr2 : Z) : K tres :=
  if tf_trapno tf =? T_SYSCALL then
    p ← myproc;
    pr ← getproc p;
    if negb (p_killed pr =? 0) then exit_enter;; mret TExit else
    modproc p (set_p_tf tf);;
    r ← syscall;
    call_end r
  else
    tf ← dispatch tf cr2;
    trap_end tf.

(** The rest of a trap when its process runs again. *)
Definition trap_resume (t : tres) : K tres :=
  match t with
  | TCall r => r ← sys_resume r; call_end r
  | TYield tf i => yield_exit i;; exit_if_killed tf (mret TReturn)
  | TReturn | TExit => mret t
  end.
End trap.

(** * What traps guarantee *)

Section trap_proofs.
  Context {KI : KernelImage} {CF : Config} {CP : Cpus} {KT : KernelText} {KV : KernelVars}.
  Context {F : Type} {FS : FsOps F} {FC : FileCalls F} {DV : Devices F}.
  Implicit Types s : kst F.

(** The current process, if there is one, has not been killed. *)
Definition alive s : Prop := ∀ p pr, cur s = Some p → procs s !! p = Some pr → p_killed pr = 0.

Lemma exit_never_returns s s' : (exit_enter;; mret TExit) s ≠ Ok (TReturn, s').
Proof. intros H. by apply bind_Ok in H as (? & ? & _ & [= ?]). Qed.

(** What is left of a trap after a check that the process is not killed. *)
Lemma exit_if_killed_returns tf k s s' :
  from_user tf = true → exit_if_killed tf k s = Ok (TReturn, s') → alive s ∧ k s = Ok (TReturn, s').
Proof.
  intros Hu H. apply bind_Ok in H as (? & ? & [= <- <-] & H). destruct (cur s) as [p|] eqn:Hc.
  - apply bind_Ok in H as (pr & s1 & [-> Hp]%getproc_Ok & H). rewrite Hu, andb_true_r in H.
    destruct (Z.eqb_spec (p_killed pr) 0); cbn in H; [|by apply exit_never_returns in H].
    split; [|done]. intros q pq Hq Hpq. congruence.
  - split; [|done]. intros q pq Hq. congruence.
Qed.

Lemma last_check tf s s' :
  from_user tf = true → exit_if_killed tf (mret TReturn) s = Ok (TReturn, s') → alive s'.
Proof. intros Hu H. by apply exit_if_killed_returns in H as [Ha [= <-]]. Qed.

Lemma trap_end_alive tf s s' : from_user tf = true → trap_end tf s = Ok (TReturn, s') → alive s'.
Proof.
  intros Hu H. apply exit_if_killed_returns in H as [_ H]; [|done].
  apply bind_Ok in H as (? & ? & [= <- <-] & H). destruct (cur s) as [p|]; [|by eapply last_check].
  apply bind_Ok in H as (pr & s1 & [-> Hp]%getproc_Ok & H). destruct (_ && _); [|by eapply last_check].
  by apply bind_Ok in H as (? & ? & _ & [= ?]).
Qed.

Lemma call_end_alive r s s' : call_end r s = Ok (TReturn, s') → alive s'.
Proof.
  intros H. destruct r; try done. cbn in H.
  apply bind_Ok in H as (p & s1 & [-> Hc]%myproc_Ok & H). apply bind_Ok in H as (pr & s1 & [-> Hp]%getproc_Ok & H).
  destruct (Z.eqb_spec (p_killed pr) 0); cbn in H; [|by apply exit_never_returns in H].
  injection H as <-. intros q pq Hq Hpq. congruence.
Qed.

(** The switch does not change the code segment of the frame. *)
Lemma unexpected_cs tf cr2 s tf' s' : unexpected tf cr2 s = Ok (tf', s') → tf_cs tf' = tf_cs tf.
Proof.
  intros H. unfold unexpected in H. apply bind_Ok in H as (w & s1 & _ & H). cbv zeta in H.
  apply bind_Ok in H as (s2 & s3 & [= <- <-] & H). destruct (_ || _).
  - apply bind_Ok in H as (? & ? & _ & H). by apply bind_Ok in H as (? & ? & _ & H).
  - apply bind_Ok in H as (? & ? & _ & H). apply bind_Ok in H as (? & ? & _ & H).
    apply bind_Ok in H as (? & ? & _ & H). apply bind_Ok in H as (? & ? & _ & H).
    apply bind_Ok in H as (? & ? & _ & [= <- <-]). by destruct w.
Qed.

Lemma dispatch_cs tf cr2 s tf' s' : dispatch tf cr2 s = Ok (tf', s') → tf_cs tf' = tf_cs tf.
Proof.
  intros H. unfold dispatch in H. cbv zeta in H. do 6 (destruct (_ =? _ : bool) in H; cbn [orb] in H;
    [solve [repeat (apply bind_Ok in H as (? & ? & _ & H)); by injection H as <- <-]|]).
  destruct (_ =? _ : bool) in H.
  { repeat (apply bind_Ok in H as (? & ? & _ & H)); by injection H as <- <-. }
  destruct (_ =? _ : bool) in H; [|by eapply unexpected_cs].
  apply bind_Ok in H as ([] & ? & _ & H); [by injection H as <- <-|by eapply unexpected_cs].
Qed.

(** A kernel-mode fault never gets its page back. *)
Lemma page_fault_kernel tf va s b s' : from_user tf = false → page_fault tf va s = Ok (b, s') → b = false.
Proof.
  intros Hu H. apply bind_Ok in H as (? & ? & [= <- <-] & H). destruct (cur s) as [p|]; [|by injection H].
  apply bind_Ok in H as (pr & s1 & _ & H). rewrite Hu in H. destruct (2 <? p_pid pr); by injection H.
Qed.

Lemma unexpected_kernel tf cr2 s r s' : Z.land (tf_cs tf) 3 = 0 → unexpected tf cr2 s ≠ Ok (r, s').
Proof.
  intros Hk H. unfold unexpected in H. apply bind_Ok in H as (w & s1 & _ & H). cbv zeta in H.
  apply bind_Ok in H as (s2 & s3 & [= <- <-] & H).
  replace (tf_cs (if w then tf else set_tf_trapno 13 tf)) with (tf_cs tf) in H by (by destruct w).
  rewrite Hk, orb_true_r in H. apply bind_Ok in H as (? & ? & _ & H). by apply bind_Ok in H as (? & ? & _ & H).
Qed.

(** C13. A killed process never goes back to its program: whenever a trap from user
    code returns, at once or after the process slept in a system call or gave up
    the CPU on a clock tick, the process it returns to has not been killed. *)
Theorem killed_never_returns tf cr2 s s'
  (Huser : from_user tf = true)
  (Hret : trap tf cr2 s = Ok (TReturn, s') ∨
          (∃ r, trap_resume (TCall r) s = Ok (TReturn, s')) ∨
          (∃ b, trap_resume (TYield tf b) s = Ok (TReturn, s'))) :
  alive s'.
Proof.
  destruct Hret as [H|[(r & H)|(b & H)]].
  - unfold trap in H. destruct (_ =? _).
    + apply bind_Ok in H as (p & s1 & _ & H). apply bind_Ok in H as (pr & s2 & _ & H).
      destruct (negb _); [by apply exit_never_returns in H|].
      apply bind_Ok in H as (? & ? & _ & H). apply bind_Ok in H as (? & ? & _ & H). by eapply call_end_alive.
    + apply bind_Ok in H as (tf' & s1 & Hd & H). apply (trap_end_alive tf' s1); [|done].
      unfold from_user. by rewrite (dispatch_cs _ _ _ _ _ Hd).
  - cbn in H. apply bind_Ok in H as (? & ? & _ & H). by eapply call_end_alive.
  - cbn in H. apply bind_Ok in H as (? & ? & _ & H). by eapply last_check.
Qed.

(** The kernel cannot take a page fault itself: a fault while it runs ends the
    system, even on a user page that is only paged out. Reading an argument of a
    system call that lies on such a page is such a fault. *)
Theorem kernel_page_fault_fatal tf cr2 s p pr n
  (Htrap : tf_trapno tf = T_PGFLT) (Hkernel : Z.land (tf_cs tf) 3 = 0)
  (Hcur : cur s = Some p) (Hpr : procs s !! p = Some pr) (Hsz : 0 ≤ p_sz pr ≤ KERNBASE) :
  (∀ t s', trap tf cr2 s ≠ Ok (t, s')) ∧
  let w := u32 (tf_esp (p_tf pr) + 4 + 4 * n) in
  (w + 4 ≤ p_sz pr → tst (aspace (mem (km s)) (P2V (cr3 s)) w) PTE_P = false → argint n s = Fault).
Proof.
  split.
  - intros t s' H. unfold trap in H. rewrite Htrap in H. cbn [Z.eqb T_PGFLT T_SYSCALL] in H.
    apply bind_Ok in H as (tf' & s1 & H & _). unfold dispatch in H. rewrite Htrap in H. cbn in H.
    apply bind_Ok in H as (b & s2 & Hb & H). apply page_fault_kernel in Hb as ->.
    + by apply unexpected_kernel in H.
    + unfold from_user. by rewrite Hkernel.
  - intros w Hw He. unfold argint. mrun (myproc_eq _ _ Hcur). mrun (getproc_eq _ _ _ Hpr).
    unfold fetchint. mrun (myproc_eq _ _ Hcur). mrun (getproc_eq _ _ _ Hpr). fold w.
    pose proof (u32_range (tf_esp (p_tf pr) + 4 + 4 * n)). fold w in H. unfold KERNBASE in *.
    rewrite u32_small by lia. rewrite (proj2 (Z.leb_gt _ _)), (proj2 (Z.ltb_ge _ _)) by lia. cbn [orb].
    unfold ubytes, uread, ucell. munfold. by rewrite He.
Qed.
End trap_proofs.
