(* ===== verification/Bio.v ===== *)
(** The buffer cache (bio.c), sleep locks (sleeplock.c) and the disk that keeps
    its blocks in memory (memide.c).

    The spin locks that protect the cache and each sleep lock are held only inside
    one operation; an operation here is what happens between taking and releasing
    them. A process that finds a sleep lock taken sleeps: the outcome [Blocked]. *)
From Stdlib Require Import ZArith Lia Bool.
From stdpp Require Import base tactics list strings sets gmap.
From S2P Require Import Prelude Machine.

(** * param.h, fs.h and buf.h *)

Definition MAXOPBLOCKS : Z := 10.
Definition LOGSIZE : Z := MAXOPBLOCKS * 3.
Definition NBUF : Z := MAXOPBLOCKS * 3.
Definition FSSIZE : Z := 1000.
Definition BSIZE : Z := 512.
Definition B_VALID : Z := 0x2.
Definition B_DIRTY : Z := 0x4.

(** [struct sleeplock]: whether it is held, and by which process. *)
Record sleeplock := mk_sleep { sl_locked : Z; sl_pid : Z }.

(** [struct buf]. A pointer to a buffer is its index in bcache.buf; [HEAD], one
    past the last, is bcache.head. *)
Record buf := mk_buf {
  b_flags : Z;
  b_dev : Z;
  b_blockno : Z;
  b_lock : sleeplock;
  b_refcnt : Z;
  b_prev : nat;
  b_next : nat;
  b_data : list Z }.

Definition HEAD : nat := 30.

Definition set_flags (v : Z) (b : buf) : buf := mk_buf v (b_dev b) (b_blockno b) (b_lock b) (b_refcnt b) (b_prev b) (b_next b) (b_data b).
Definition set_lock (v : sleeplock) (b : buf) : buf := mk_buf (b_flags b) (b_dev b) (b_blockno b) v (b_refcnt b) (b_prev b) (b_next b) (b_data b).
Definition set_refcnt (v : Z) (b : buf) : buf := mk_buf (b_flags b) (b_dev b) (b_blockno b) (b_lock b) v (b_prev b) (b_next b) (b_data b).
Definition set_prev (v : nat) (b : buf) : buf := mk_buf (b_flags b) (b_dev b) (b_blockno b) (b_lock b) (b_refcnt b) v (b_next b) (b_data b).
Definition set_next (v : nat) (b : buf) : buf := mk_buf (b_flags b) (b_dev b) (b_blockno b) (b_lock b) (b_refcnt b) (b_prev b) v (b_data b).
Definition set_data (v : list Z) (b : buf) : buf := mk_buf (b_flags b) (b_dev b) (b_blockno b) (b_lock b) (b_refcnt b) (b_prev b) (b_next b) v.

(** The disk: its blocks when the system came up and the writes since, the last
    one first, and its size in blocks. *)
Record disk := mk_disk { d_base : Z → list Z; d_writes : list (Z * list Z); d_size : Z }.

Fixpoint last_write (l : list (Z * list Z)) (n : Z) : option (list Z) :=
  match l with
  | [] => None
  | (m, d) :: l => if m =? n then Some d else last_write l n
  end.

(** The contents of a block. *)
Definition d_block (d : disk) (n : Z) : list Z := default (d_base d n) (last_write (d_writes d) n).

Definition d_write (n : Z) (v : list Z) (d : disk) : disk := mk_disk (d_base d) ((n, v) :: d_writes d) (d_size d).

(** The cache, the disk, and the process that runs. *)
Record bst := mk_bst { bufs : list buf; dsk : disk; bpid : Z }.

Definition set_bufs (l : list buf) (s : bst) : bst := mk_bst l (dsk s) (bpid s).
Definition set_dsk (d : disk) (s : bst) : bst := mk_bst (bufs s) d (bpid s).

(** * sleeplock.c *)

Definition initsleeplock : sleeplock := mk_sleep 0 0.

Definition acquiresleep (pid : Z) : M sleeplock unit :=
  l ← get;
  if negb (sl_locked l =? 0) then blocked else modify (λ _, mk_sleep 1 pid).

Definition releasesleep : M sleeplock unit := modify (λ _, mk_sleep 0 0).

Definition holdingsleep : M sleeplock bool := gets (λ l, negb (sl_locked l =? 0)).

(** * Buffers *)

Definition getbuf (i : nat) : M bst buf := s ← get; oget (bufs s !! i).
Definition modbuf (i : nat) (f : buf → buf) : M bst unit :=
  s ← get; b ← oget (bufs s !! i); modify (set_bufs (<[i := f b]> (bufs s))).

(** An operation on the sleep lock of a buffer. *)
Definition on_lock {A} (i : nat) (m : M sleeplock A) : M bst A := λ s,
  match bufs s !! i with
  | None => Fault
  | Some b => zoom (λ _, b_lock b) (λ l s, set_bufs (<[i := set_lock l b]> (bufs s)) s) m s
  end.

(** * memide.c *)

Definition iderw (i : nat) : M bst unit :=
  h ← on_lock i holdingsleep;
  if negb h then panic "iderw: buf not locked" else
  b ← getbuf i;
  if Z.land (b_flags b) (Z.lor B_VALID B_DIRTY) =? B_VALID then panic "iderw: nothing to do" else
  if negb (b_dev b =? 1) then panic "iderw: request not for disk 1" else
  s ← get;
  if d_size (dsk s) <=? b_blockno b then panic "iderw: block out of range" else
  (if tst (b_flags b) B_DIRTY then
     modbuf i (λ b, set_flags (clr (b_flags b) B_DIRTY) b);;
     modify (λ s, set_dsk (d_write (b_blockno b) (b_data b) (dsk s)) s)
   else modbuf i (set_data (d_block (dsk s) (b_blockno b))));;
  modbuf i (λ b, set_flags (Z.lor (b_flags b) B_VALID) b).

(** * bio.c *)

(** The loop of binit, from buffer [b], for [n] buffers. *)
Fixpoint binit_loop (n b : nat) : M bst unit :=
  match n with
  | O => mret tt
  | S n =>
      h ← getbuf HEAD;
      modbuf b (set_next (b_next h));;
      modbuf b (set_prev HEAD);;
      modbuf b (set_lock initsleeplock);;
      modbuf (b_next h) (set_prev b);;
      modbuf HEAD (set_next b);;
      binit_loop n (S b)
  end.

Definition binit : M bst unit :=
  modbuf HEAD (set_prev HEAD);;
  modbuf HEAD (set_next HEAD);;
  binit_loop (Z.to_nat NBUF) 0.

(** The first loop of bget: the buffer from [i] on that holds the block. *)
Fixpoint find_block (fuel : nat) (i : nat) (dev blockno : Z) : M bst (option nat) :=
  if (i =? HEAD)%nat then mret None else
  b ← getbuf i;
  if (b_dev b =? dev) && (b_blockno b =? blockno) then mret (Some i) else
  match fuel with
  | O => nofuel
  | S fuel => find_block fuel (b_next b) dev blockno
  end.

(** The second loop: the unused buffer from [i] backwards. *)
Fixpoint find_unused (fuel : nat) (i : nat) : M bst (option nat) :=
  if (i =? HEAD)%nat then mret None else
  b ← getbuf i;
  if (b_refcnt b =? 0) && negb (tst (b_flags b) B_DIRTY) then mret (Some i) else
  match fuel with
  | O => nofuel
  | S fuel => find_unused fuel (b_prev b)
  end.

(** The list has NBUF buffers, so NBUF rounds reach its end. *)
Definition bget (dev blockno : Z) : M bst nat :=
  h ← getbuf HEAD;
  o ← find_block (Z.to_nat NBUF) (b_next h) dev blockno;
  match o with
  | Some i =>
      modbuf i (λ b, set_refcnt (u32 (b_refcnt b + 1)) b);;
      s ← get;
      on_lock i (acquiresleep (bpid s));;
      mret i
  | None =>
      o ← find_unused (Z.to_nat NBUF) (b_prev h);
      match o with
      | Some i =>
          modbuf i (λ b, mk_buf 0 dev blockno (b_lock b) 1 (b_prev b) (b_next b) (b_data b));;
          s ← get;
          on_lock i (acquiresleep (bpid s));;
          mret i
      | None => panic "bget: no buffers"
      end
  end.

Definition bread (dev blockno : Z) : M bst nat :=
  i ← bget dev blockno;
  b ← getbuf i;
  (if tst (b_flags b) B_VALID then mret tt else iderw i);;
  mret i.

Definition bwrite (i : nat) : M bst unit :=
  h ← on_lock i holdingsleep;
  if negb h then panic "bwrite" else
  modbuf i (λ b, set_flags (Z.lor (b_flags b) B_DIRTY) b);;
  iderw i.

(** Take buffer [i] out of the list and put it in front. *)
Definition to_front (i : nat) : M bst unit :=
  b ← getbuf i;
  modbuf (b_next b) (set_prev (b_prev b));;
  b ← getbuf i;
  modbuf (b_prev b) (set_next (b_next b));;
  h ← getbuf HEAD;
  modbuf i (set_next (b_next h));;
  modbuf i (set_prev HEAD);;
  h ← getbuf HEAD;
  modbuf (b_next h) (set_prev i);;
  modbuf HEAD (set_next i).

Definition brelse (i : nat) : M bst unit :=
  h ← on_lock i holdingsleep;
  if negb h then panic "brelse" else
  on_lock i releasesleep;;
  modbuf i (λ b, set_refcnt (u32 (b_refcnt b - 1)) b);;
  b ← getbuf i;
  if b_refcnt b =? 0 then to_front i else mret tt.

(** * The list of buffers

    [chain nx pv a l z]: following [nx] from [a] passes [l] and comes to [z], and
    [pv] leads back. *)

Fixpoint chain (nx pv : nat → nat) (a : nat) (l : list nat) (z : nat) : Prop :=
  match l with
  | [] => nx a = z ∧ pv z = a
  | x :: l => nx a = x ∧ pv x = a ∧ chain nx pv x l z
  end.

Definition upd (f : nat → nat) (a v : nat) (x : nat) : nat := if decide (x = a) then v else f x.

Lemma ptr_upd_eq f a v : upd f a v a = v.
Proof. unfold upd. by rewrite decide_True. Qed.
Lemma ptr_upd_ne f a v x : x ≠ a → upd f a v x = f x.
Proof. intros. unfold upd. by rewrite decide_False. Qed.

Lemma chain_app nx pv l1 : ∀ a x l2 z,
  chain nx pv a (l1 ++ x :: l2) z ↔ chain nx pv a l1 x ∧ chain nx pv x l2 z.
Proof. induction l1 as [|y l1 IH]; intros a x l2 z; cbn; [tauto|]. rewrite IH. tauto. Qed.

Lemma chain_ext nx nx' pv pv' l : ∀ a z,
  chain nx pv a l z → (∀ x, x ∈ a :: l → nx' x = nx x) → (∀ x, x ∈ z :: l → pv' x = pv x) →
  chain nx' pv' a l z.
Proof.
  induction l as [|y l IH]; intros a z; cbn.
  - intros [H1 H2] Hn Hp. rewrite Hn, Hp by set_solver. done.
  - intros (H1 & H2 & H3) Hn Hp. rewrite Hn, Hp by set_solver. split; [done|]. split; [done|].
    apply IH; [done|set_solver|set_solver].
Qed.

Lemma chain_prev_in nx pv l : ∀ a z, chain nx pv a l z → pv z ∈ a :: l.
Proof.
  induction l as [|y l IH]; intros a z; cbn.
  - intros [_ ->]. set_solver.
  - intros (_ & _ & H). apply IH in H. set_solver.
Qed.

(** The end of a chain moved to another node. *)
Lemma chain_end nx pv l : ∀ a z y,
  chain nx pv a l z → NoDup (a :: l) → y ∉ l →
  chain (upd nx (pv z) y) (upd pv y (pv z)) a l y.
Proof.
  induction l as [|x l IH]; intros a z y; cbn.
  - intros [H1 H2] _ _. rewrite H2, !ptr_upd_eq. done.
  - intros (H1 & H2 & H3) Hnd Hy. apply NoDup_cons in Hnd as [Ha Hnd].
    pose proof (chain_prev_in _ _ _ _ _ H3) as Hin.
    rewrite !ptr_upd_ne by (intros E; rewrite E in *; set_solver). split; [done|]. split; [done|]. apply IH; [done|done|set_solver].
Qed.

(** Taking a node out. *)
Lemma chain_unlink nx pv h l1 b l2 :
  chain nx pv h (l1 ++ b :: l2) h → NoDup (h :: l1 ++ b :: l2) →
  chain (upd nx (pv b) (nx b)) (upd pv (nx b) (pv b)) h (l1 ++ l2) h.
Proof.
  intros H Hnd. apply chain_app in H as [H1 H2]. pose proof (chain_prev_in _ _ _ _ _ H1) as Hin.
  rewrite NoDup_cons, NoDup_app, NoDup_cons in Hnd. destruct Hnd as (Hh & Hl1 & Hdis & Hb & Hl2).
  destruct l2 as [|n l2]; cbn in H2.
  - destruct H2 as [Hn Hp]. rewrite Hn, app_nil_r.
    apply chain_end; [done| |set_solver]. apply NoDup_cons. split; [set_solver|done].
  - destruct H2 as (Hn & Hp & H2). rewrite Hn. apply NoDup_cons in Hl2 as [Hn2 Hl2]. apply chain_app. split.
    + apply chain_end; [done| |set_solver]. apply NoDup_cons. split; [set_solver|done].
    + eapply chain_ext; [done| |].
      * intros x Hx. apply ptr_upd_ne. intros ->. set_solver.
      * intros x Hx. apply ptr_upd_ne. set_solver.
Qed.

(** Putting a node in front. *)
Lemma chain_push nx pv h l b :
  chain nx pv h l h → b ≠ h → b ∉ l → NoDup (h :: l) →
  chain (upd (upd nx b (nx h)) h b) (upd (upd pv b h) (nx h) b) h (b :: l) h.
Proof.
  intros H Hb Hl Hnd. cbn [chain]. rewrite ptr_upd_eq. split; [done|].
  destruct l as [|x l]; cbn [chain] in H.
  - destruct H as [Hn Hp]. rewrite Hn. cbn. rewrite (ptr_upd_ne _ h b b), !ptr_upd_eq by done.
    rewrite (ptr_upd_ne _ h b b), ptr_upd_eq by done. done.
  - destruct H as (Hn & Hp & H). rewrite Hn. apply NoDup_cons in Hnd as [Hh Hnd]. apply NoDup_cons in Hnd as [Hx Hnd].
    rewrite (ptr_upd_ne _ x b b), ptr_upd_eq by set_solver. split; [done|]. cbn [chain].
    rewrite (ptr_upd_ne _ h b b), !ptr_upd_eq by done. split; [done|]. split; [done|].
    eapply chain_ext; [done| |].
    + intros y Hy. rewrite !ptr_upd_ne by set_solver. done.
    + intros y Hy. rewrite !ptr_upd_ne by set_solver. done.
Qed.

(** A buffer without its place in the list. *)
Definition strip (b : buf) : buf := set_prev 0 (set_next 0 b).

(** The states differ at most in the order of the list. *)
Definition relinked (s s' : bst) : Prop := dsk s' = dsk s ∧ bpid s' = bpid s ∧ strip <$> bufs s' = strip <$> bufs s.

(** The pointers of the list, as functions. *)
Record ptrs (s : bst) (nx pv : nat → nat) : Prop := {
  pt_len : length (bufs s) = 31%nat;
  pt_get : ∀ i b, bufs s !! i = Some b → b_next b = nx i ∧ b_prev b = pv i }.

(** The list of the cache: every buffer once, the most recently used first. *)
Definition ring (s : bst) (l : list nat) : Prop :=
  ∃ nx pv, ptrs s nx pv ∧ chain nx pv HEAD l HEAD ∧ l ≡ₚ seq 0 30.

Lemma relinked_refl s : relinked s s.
Proof. done. Qed.
Lemma relinked_trans s1 s2 s3 : relinked s1 s2 → relinked s2 s3 → relinked s1 s3.
Proof. unfold relinked. intuition congruence. Qed.

Lemma relinked_lookup s s' i b :
  relinked s s' → bufs s !! i = Some b → ∃ b', bufs s' !! i = Some b' ∧ strip b' = strip b.
Proof.
  intros (_ & _ & H) Hb. assert (E : (strip <$> bufs s') !! i = Some (strip b)) by (by rewrite H, list_lookup_fmap, Hb).
  rewrite list_lookup_fmap in E. destruct (bufs s' !! i) as [b'|]; [|done]. exists b'. split; [done|].
  change (Some (strip b') = Some (strip b)) in E. congruence.
Qed.

Lemma ring_nodup s l : ring s l → NoDup (HEAD :: l) ∧ (∀ i, i ∈ l ↔ (i < 30)%nat) ∧ length (bufs s) = 31%nat.
Proof.
  intros (nx & pv & [Hlen _] & _ & Hp). split_and!; [|intros i; rewrite Hp, elem_of_seq; lia|done].
  apply NoDup_cons. rewrite Hp. split; [rewrite elem_of_seq; unfold HEAD; lia|apply NoDup_seq].
Qed.

Lemma buf_exists s nx pv i : ptrs s nx pv → (i < 31)%nat → ∃ b, bufs s !! i = Some b.
Proof. intros [H _] Hi. apply lookup_lt_is_Some. lia. Qed.

Lemma getbuf_eq s i b : bufs s !! i = Some b → getbuf i s = Ok (b, s).
Proof. intros H. unfold getbuf. munfold. by rewrite H. Qed.

Lemma modbuf_eq s i b f : bufs s !! i = Some b → modbuf i f s = Ok (tt, set_bufs (<[i := f b]> (bufs s)) s).
Proof. intros H. unfold modbuf. munfold. by rewrite H. Qed.

Lemma relinked_modbuf s i b b' :
  bufs s !! i = Some b → strip b' = strip b → relinked s (set_bufs (<[i := b']> (bufs s)) s).
Proof.
  intros Hb Hs. split; [done|]. split; [done|]. cbn. rewrite list_fmap_insert, Hs.
  apply list_insert_id. by rewrite list_lookup_fmap, Hb.
Qed.

Lemma run_prev s nx pv i v :
  ptrs s nx pv → (i < 31)%nat →
  runs (modbuf i (set_prev v)) s (λ _ s', ptrs s' nx (upd pv i v) ∧ relinked s s').
Proof.
  intros Hp Hi. destruct (buf_exists _ _ _ i Hp Hi) as [b Hb]. destruct (pt_get _ _ _ Hp i b Hb) as [Hn Hv].
  eexists _, _. split; [by apply modbuf_eq|]. split; [|by eapply relinked_modbuf].
  split; [cbn; rewrite length_insert; apply Hp|]. cbn. intros j c Hc.
  destruct (decide (j = i)) as [->|Hne].
  - rewrite list_lookup_insert_eq in Hc by (apply lookup_lt_Some in Hb; done). injection Hc as <-.
    rewrite ptr_upd_eq. done.
  - rewrite list_lookup_insert_ne in Hc by done. rewrite ptr_upd_ne by done. by apply Hp.
Qed.

Lemma run_next s nx pv i v :
  ptrs s nx pv → (i < 31)%nat →
  runs (modbuf i (set_next v)) s (λ _ s', ptrs s' (upd nx i v) pv ∧ relinked s s').
Proof.
  intros Hp Hi. destruct (buf_exists _ _ _ i Hp Hi) as [b Hb]. destruct (pt_get _ _ _ Hp i b Hb) as [Hn Hv].
  eexists _, _. split; [by apply modbuf_eq|]. split; [|by eapply relinked_modbuf].
  split; [cbn; rewrite length_insert; apply Hp|]. cbn. intros j c Hc.
  destruct (decide (j = i)) as [->|Hne].
  - rewrite list_lookup_insert_eq in Hc by (apply lookup_lt_Some in Hb; done). injection Hc as <-.
    rewrite ptr_upd_eq. done.
  - rewrite list_lookup_insert_ne in Hc by done. rewrite ptr_upd_ne by done. by apply Hp.
Qed.

Lemma run_get s nx pv i :
  ptrs s nx pv → (i < 31)%nat → runs (getbuf i) s (λ b s', s' = s ∧ b_next b = nx i ∧ b_prev b = pv i).
Proof.
  intros Hp Hi. destruct (buf_exists _ _ _ i Hp Hi) as [b Hb]. eexists _, _. split; [by apply getbuf_eq|].
  split; [done|]. by apply Hp.
Qed.

Lemma chain_next_in nx pv l a z : chain nx pv a l z → nx a ∈ z :: l.
Proof. destruct l; cbn; intros [-> _]; set_solver. Qed.

(** to_front makes a buffer the most recently used one. *)
Lemma to_front_spec s l1 i l2 :
  ring s (l1 ++ i :: l2) →
  runs (to_front i) s (λ _ s', ring s' (i :: l1 ++ l2) ∧ relinked s s').
Proof.
  intros Hr. destruct (ring_nodup _ _ Hr) as (Hnd & Hin & _). destruct Hr as (nx & pv & Hp & Hc & Hperm).
  assert (Hlt : ∀ x, x ∈ HEAD :: l1 ++ i :: l2 → (x < 31)%nat).
  { intros x [->|Hx]%elem_of_cons; [unfold HEAD; lia|]. apply Hin in Hx. lia. }
  pose proof (proj1 (chain_app _ _ _ _ _ _ _) Hc) as [Hc1 Hc2].
  pose proof (chain_prev_in _ _ _ _ _ Hc1) as Hpv. pose proof (chain_next_in _ _ _ _ _ Hc2) as Hnx.
  assert (Hii : nx i ≠ i).
  { intros E. rewrite E in Hnx. apply NoDup_cons in Hnd as [? Hnd]. apply NoDup_app in Hnd as (_ & _ & Hnd).
    apply NoDup_cons in Hnd as [? _]. set_solver. }
  pose proof (chain_unlink _ _ _ _ _ _ Hc Hnd) as Hu.
  assert (Hnd' : NoDup (HEAD :: l1 ++ l2) ∧ i ∉ l1 ++ l2 ∧ i ≠ HEAD).
  { rewrite NoDup_cons, NoDup_app, NoDup_cons in Hnd. destruct Hnd as (? & ? & ? & ? & ?).
    split_and!; [|set_solver|set_solver]. apply NoDup_cons. split; [set_solver|]. apply NoDup_app.
    split_and!; [done|set_solver|done]. }
  destruct Hnd' as (Hnd' & Hi & HiH).
  pose proof (chain_push _ _ _ _ i Hu HiH Hi Hnd') as Hpush.
  pose proof (chain_next_in _ _ _ _ _ Hu) as Hnx'. unfold to_front.
  mstep. eapply runs_mono; [apply run_get; [done|apply Hlt; set_solver]|]. intros b ? (-> & -> & ->).
  mstep. eapply runs_mono; [apply run_prev; [done|apply Hlt; set_solver]|]. intros _ s1 [P1 R1].
  mstep. eapply runs_mono; [apply run_get; [done|apply Hlt; set_solver]|]. intros b' ? (-> & -> & ->).
  rewrite ptr_upd_ne by congruence.
  mstep. eapply runs_mono; [apply run_next; [done|apply Hlt; set_solver]|]. intros _ s2 [P2 R2].
  mstep. eapply runs_mono; [apply run_get; [done|apply Hlt; set_solver]|]. intros h ? (-> & -> & _).
  mstep. eapply runs_mono; [apply run_next; [done|apply Hlt; set_solver]|]. intros _ s3 [P3 R3].
  mstep. eapply runs_mono; [apply run_prev; [done|apply Hlt; set_solver]|]. intros _ s4 [P4 R4].
  mstep. eapply runs_mono; [apply run_get; [done|apply Hlt; set_solver]|]. intros h' ? (-> & -> & _).
  rewrite (ptr_upd_ne _ i) by done.
  mstep. eapply runs_mono; [apply run_prev; [done|apply Hlt; set_solver]|]. intros _ s5 [P5 R5].
  eapply runs_mono; [apply run_next; [done|apply Hlt; set_solver]|]. intros _ s6 [P6 R6].
  split; [|do 5 (eapply relinked_trans; [eassumption|]); done].
  eexists _, _. split; [exact P6|]. split; [exact Hpush|]. rewrite <- Hperm. by rewrite Permutation_middle.
Qed.

(** ** binit *)

Lemma modbuf_relinked s nx pv i f :
  ptrs s nx pv → (i < 31)%nat → (∀ b, b_next (f b) = b_next b ∧ b_prev (f b) = b_prev b) →
  ∃ b, bufs s !! i = Some b ∧ modbuf i f s = Ok (tt, set_bufs (<[i := f b]> (bufs s)) s) ∧
       ptrs (set_bufs (<[i := f b]> (bufs s)) s) nx pv.
Proof.
  intros Hp Hi Hf. destruct (buf_exists _ _ _ i Hp Hi) as [b Hb]. exists b. split; [done|].
  split; [by apply modbuf_eq|]. split; [cbn; rewrite length_insert; apply Hp|]. cbn. intros j c Hc.
  destruct (decide (j = i)) as [->|Hne].
  - rewrite list_lookup_insert_eq in Hc by (apply lookup_lt_Some in Hb; done). injection Hc as <-.
    destruct (Hf b) as [-> ->]. by apply Hp.
  - rewrite list_lookup_insert_ne in Hc by done. by apply Hp.
Qed.

(** No sleep lock is taken. *)
Definition locks_free (s : bst) : Prop := ∀ i b, bufs s !! i = Some b → b_lock b = initsleeplock.

Lemma relinked_sym s s' : relinked s s' → relinked s' s.
Proof. unfold relinked. intuition congruence. Qed.

Lemma locks_free_relinked s s' : locks_free s → relinked s s' → locks_free s'.
Proof.
  intros Hf Hr i b Hb. destruct (relinked_lookup _ _ _ _ (relinked_sym _ _ Hr) Hb) as (b' & Hb' & E).
  apply (f_equal b_lock) in E. cbn in E. rewrite <- E. by eapply Hf.
Qed.

Lemma binit_loop_spec n : ∀ b s nx pv,
  ptrs s nx pv → chain nx pv HEAD (reverse (seq 0 b)) HEAD → (b + n = 30)%nat → locks_free s →
  runs (binit_loop n b) s (λ _ s', ring s' (reverse (seq 0 30)) ∧ relinked s s').
Proof.
  induction n as [|n IH]; intros b s nx pv Hp Hc Hn Hf; cbn [binit_loop].
  { apply runs_ret. replace b with 30%nat in Hc by lia. split; [|done]. exists nx, pv. split; [done|]. split; [done|].
    apply reverse_Permutation. }
  assert (Hnd : NoDup (HEAD :: reverse (seq 0 b))).
  { apply NoDup_cons. rewrite elem_of_reverse, elem_of_seq. split; [unfold HEAD; lia|].
    rewrite reverse_Permutation. apply NoDup_seq. }
  assert (Hlt : (nx HEAD < 31)%nat).
  { pose proof (chain_next_in _ _ _ _ _ Hc) as H. rewrite elem_of_cons, elem_of_reverse, elem_of_seq in H.
    unfold HEAD in *. lia. }
  assert (Hb : b ∉ reverse (seq 0 b)) by (rewrite elem_of_reverse, elem_of_seq; lia).
  pose proof (chain_push _ _ _ _ b Hc ltac:(unfold HEAD; lia) Hb Hnd) as Hpush.
  mstep. eapply runs_mono; [apply run_get; [done|unfold HEAD; lia]|]. intros h ? (-> & -> & _).
  mstep. eapply runs_mono; [apply run_next; [done|lia]|]. intros _ s1 [P1 R1].
  mstep. eapply runs_mono; [apply run_prev; [done|lia]|]. intros _ s2 [P2 R2].
  pose proof (locks_free_relinked _ _ (locks_free_relinked _ _ Hf R1) R2) as Hf2.
  mstep. destruct (modbuf_relinked _ _ _ b (set_lock initsleeplock) P2) as (c & Hcb & E & P3); [lia|done|].
  assert (R3 : relinked s2 (set_bufs (<[b := set_lock initsleeplock c]> (bufs s2)) s2)).
  { apply (relinked_modbuf _ _ c); [done|]. rewrite <- (Hf2 _ _ Hcb). by destruct c. }
  eexists _, _. split; [exact E|]. clear E.
  mstep. eapply runs_mono; [apply run_prev; [done|lia]|]. intros _ s4 [P4 R4].
  mstep. eapply runs_mono; [apply run_next; [done|unfold HEAD; lia]|]. intros _ s5 [P5 R5].
  assert (R : relinked s s5) by (do 4 (eapply relinked_trans; [eassumption|]); done).
  eapply runs_mono; [apply (IH (S b) s5 _ _ P5); [|lia|exact (locks_free_relinked _ _ Hf R)]|].
  - rewrite seq_S, reverse_app. exact Hpush.
  - intros _ s6 [R6 R6']. split; [done|]. by eapply relinked_trans.
Qed.

(** After binit every buffer is on the list, the last one first. *)
Lemma binit_spec s :
  length (bufs s) = 31%nat → locks_free s → runs binit s (λ _ s', ring s' (reverse (seq 0 30)) ∧ relinked s s').
Proof.
  intros Hlen Hf. set (nx i := default O (b_next <$> bufs s !! i)). set (pv i := default O (b_prev <$> bufs s !! i)).
  assert (Hp : ptrs s nx pv). { split; [done|]. intros i b Hb. unfold nx, pv. by rewrite Hb. }
  unfold binit. mstep. eapply runs_mono; [apply run_prev; [done|unfold HEAD; lia]|]. intros _ s1 [P1 R1].
  mstep. eapply runs_mono; [apply run_next; [done|unfold HEAD; lia]|]. intros _ s2 [P2 R2].
  assert (R : relinked s s2) by (by eapply relinked_trans).
  eapply runs_mono; [eapply binit_loop_spec; [exact P2| |done|exact (locks_free_relinked _ _ Hf R)]|].
  - cbn. by rewrite !ptr_upd_eq.
  - intros _ s3 [R3 R3']. split; [done|]. by eapply relinked_trans.
Qed.

(** ** The loops of bget *)

Fixpoint first_of (f : nat → bool) (l : list nat) : option nat :=
  match l with
  | [] => None
  | i :: l => if f i then Some i else first_of f l
  end.

Definition buf_is (s : bst) (P : buf → bool) (i : nat) : bool := match bufs s !! i with Some b => P b | None => false end.

Lemma first_of_Some f l i : first_of f l = Some i → i ∈ l ∧ f i = true.
Proof.
  induction l as [|x l IH]; cbn; [done|]. destruct (f x) eqn:E; [intros [= ->]; set_solver|].
  intros [? ?]%IH. set_solver.
Qed.
Lemma first_of_None f l : first_of f l = None → ∀ i, i ∈ l → f i = false.
Proof.
  induction l as [|x l IH]; cbn; [set_solver|]. destruct (f x) eqn:E; [done|].
  intros H i [->|Hi]%elem_of_cons; auto.
Qed.

Lemma chain_reverse nx pv l : ∀ a z, chain nx pv a l z → chain pv nx z (reverse l) a.
Proof.
  induction l as [|x l IH]; intros a z; cbn [chain].
  - intros [H1 H2]. by rewrite reverse_nil.
  - intros (H1 & H2 & H3). rewrite reverse_cons. apply chain_app. split; [by apply IH|]. by cbn.
Qed.

Lemma find_block_eq s nx pv dev bn l : ∀ fuel a,
  ptrs s nx pv → chain nx pv a l HEAD → (∀ x, x ∈ l → (x < 30)%nat) → (length l ≤ fuel)%nat →
  find_block fuel (nx a) dev bn s =
    Ok (first_of (buf_is s (λ b, (b_dev b =? dev) && (b_blockno b =? bn))) l, s).
Proof.
  induction l as [|x l IH]; intros fuel a Hp Hc Hin Hf; cbn [chain] in Hc.
  - destruct Hc as [-> _]. by destruct fuel.
  - destruct Hc as (Hn & _ & Hc). rewrite Hn. pose proof (Hin x ltac:(set_solver)).
    destruct (buf_exists _ _ _ x Hp ltac:(lia)) as [b Hb]. destruct (pt_get _ _ _ Hp x b Hb) as [Hbn _].
    cbn [first_of length] in *. unfold buf_is at 1. rewrite Hb. destruct fuel as [|fuel]; [lia|]. cbn [find_block].
    rewrite (proj2 (Nat.eqb_neq x HEAD)) by (unfold HEAD; lia). unfold mbind, M_bind. rewrite (getbuf_eq _ _ _ Hb).
    destruct (_ && _); [done|]. rewrite Hbn. apply IH; [done|done|set_solver|lia].
Qed.

Lemma find_unused_eq s nx pv l : ∀ fuel a,
  ptrs s nx pv → chain pv nx a l HEAD → (∀ x, x ∈ l → (x < 30)%nat) → (length l ≤ fuel)%nat →
  find_unused fuel (pv a) s =
    Ok (first_of (buf_is s (λ b, (b_refcnt b =? 0) && negb (tst (b_flags b) B_DIRTY))) l, s).
Proof.
  induction l as [|x l IH]; intros fuel a Hp Hc Hin Hf; cbn [chain] in Hc.
  - destruct Hc as [-> _]. by destruct fuel.
  - destruct Hc as (Hn & _ & Hc). rewrite Hn. pose proof (Hin x ltac:(set_solver)).
    destruct (buf_exists _ _ _ x Hp ltac:(lia)) as [b Hb]. destruct (pt_get _ _ _ Hp x b Hb) as [_ Hbn].
    cbn [first_of length] in *. unfold buf_is at 1. rewrite Hb. destruct fuel as [|fuel]; [lia|]. cbn [find_unused].
    rewrite (proj2 (Nat.eqb_neq x HEAD)) by (unfold HEAD; lia). unfold mbind, M_bind. rewrite (getbuf_eq _ _ _ Hb).
    destruct (_ && _); [done|]. rewrite Hbn. apply IH; [done|done|set_solver|lia].
Qed.
