(* ===== verification/Cache.v ===== *)
(** What the buffer cache guarantees (bio.c): one buffer per block, clean buffers
    agree with the disk, and what reading, writing and releasing a buffer do. *)
From Stdlib Require Import ZArith Lia Bool.
From stdpp Require Import base tactics list strings sets gmap.
From S2P Require Import Prelude Machine Bio.

(** * The buffers without their order *)

Definition cells (s : bst) : list buf := strip <$> take 30 (bufs s).

(** A buffer is empty, as at boot, or it belongs to a block of the disk and is
    clean ([B_VALID]) or dirty (also [B_DIRTY]). It is referenced while it is
    locked. A clean buffer nobody holds has the contents of the disk. *)
Record cell_ok (d : disk) (c : buf) : Prop := {
  co_len : length (b_data c) = Z.to_nat BSIZE;
  co_ref : b_refcnt c = sl_locked (b_lock c);
  co_lock : sl_locked (b_lock c) = 0 ∨ sl_locked (b_lock c) = 1;
  co_kind : b_flags c = 0 ∧ b_dev c = 0 ∧ sl_locked (b_lock c) = 0 ∨
            b_dev c = 1 ∧ 0 ≤ b_blockno c < d_size d ∧ (b_flags c = 2 ∨ b_flags c = 6);
  co_clean : b_flags c = 2 → sl_locked (b_lock c) = 0 → b_data c = d_block d (b_blockno c) }.

Record cells_ok (cs : list buf) (d : disk) : Prop := {
  cs_len : length cs = 30%nat;
  cs_ok : ∀ i c, cs !! i = Some c → cell_ok d c;
  cs_uniq : ∀ i j c c', cs !! i = Some c → cs !! j = Some c' → b_dev c = 1 → b_dev c' = 1 →
    b_blockno c = b_blockno c' → i = j;
  cs_disk : ∀ n, length (d_block d n) = Z.to_nat BSIZE }.

Record binv (s : bst) : Prop := {
  bi_ring : ∃ l, ring s l;
  bi_cells : cells_ok (cells s) (dsk s) }.

(** The contents of a block as the kernel sees it: those of its dirty buffer, or
    of the disk. *)
Definition is_dirty (n : Z) (c : buf) : bool := (b_flags c =? 6) && (b_blockno c =? n).
Definition cview (cs : list buf) (d : disk) (n : Z) : list Z :=
  match find_idx (is_dirty n) cs ≫= (cs !!.) with
  | Some c => b_data c
  | None => d_block d n
  end.

Lemma is_dirty_true n c : is_dirty n c = true ↔ b_flags c = 6 ∧ b_blockno c = n.
Proof. unfold is_dirty. rewrite andb_true_iff, !Z.eqb_eq. done. Qed.

Lemma dirty_dev d c : cell_ok d c → b_flags c = 6 → b_dev c = 1.
Proof. intros H E. destruct (co_kind _ _ H) as [?|?]; [lia|tauto]. Qed.

Lemma cview_dirty cs d i c :
  cells_ok cs d → cs !! i = Some c → b_flags c = 6 → cview cs d (b_blockno c) = b_data c.
Proof.
  intros Hok Hi Hf. unfold cview. destruct (find_idx _ cs) as [j|] eqn:E.
  - apply find_idx_Some in E as [(c' & Hj & [Hf' Hb]%is_dirty_true) _]. cbn. rewrite Hj.
    assert (j = i) as ->.
    { apply (cs_uniq _ _ Hok j i c' c); [done|done| | |done]; eapply dirty_dev; eauto using cs_ok. }
    rewrite Hi in Hj. by injection Hj as ->.
  - rewrite find_idx_None in E. specialize (E i c Hi).
    rewrite (proj2 (is_dirty_true _ _) (conj Hf eq_refl)) in E. done.
Qed.

Lemma cview_clean cs d n :
  (∀ i c, cs !! i = Some c → b_flags c = 6 → b_blockno c ≠ n) → cview cs d n = d_block d n.
Proof.
  intros H. unfold cview. destruct (find_idx _ cs) as [j|] eqn:E; [|done].
  apply find_idx_Some in E as [(c' & Hj & [Hf' Hb]%is_dirty_true) _]. by destruct (H j c' Hj Hf').
Qed.

(** A clean or dirty buffer that nobody holds has the current contents. *)
Lemma cview_cell cs d i c :
  cells_ok cs d → cs !! i = Some c → b_dev c = 1 → sl_locked (b_lock c) = 0 →
  cview cs d (b_blockno c) = b_data c.
Proof.
  intros Hok Hi Hd Hl. pose proof (cs_ok _ _ Hok i c Hi) as Hc.
  destruct (co_kind _ _ Hc) as [?|(_ & _ & [Hf|Hf])]; [lia| |by eapply cview_dirty].
  rewrite (co_clean _ _ Hc Hf Hl). apply cview_clean. intros j c' Hj Hf' Hb.
  assert (j = i) as ->.
  { apply (cs_uniq _ _ Hok j i c' c); [done|done| |done|done]. eapply dirty_dev; eauto using cs_ok. }
  rewrite Hi in Hj. injection Hj as <-. lia.
Qed.

(** ** Changing one cell *)

Lemma cells_ok_insert cs d i c :
  cells_ok cs d → cell_ok d c →
  (∀ j c', cs !! j = Some c' → j ≠ i → b_dev c' = 1 → b_dev c = 1 → b_blockno c' ≠ b_blockno c) →
  cells_ok (<[i := c]> cs) d.
Proof.
  intros [H1 H2 H3 H4] Hc Hu. split; [by rewrite length_insert| | |done].
  - intros j c' [[_ ->]|[_ Hj]]%lookup_insert_cases; eauto.
  - intros j k cj ck [[-> ->]|[Hj Hcj]]%lookup_insert_cases [[-> ->]|[Hk Hck]]%lookup_insert_cases D1 D2 E.
    + done.
    + by destruct (Hu k ck Hck Hk D2 D1).
    + by destruct (Hu j cj Hcj Hj D1 D2).
    + by apply (H3 j k cj ck).
Qed.

Lemma is_dirty_same n c c' : b_flags c' = b_flags c → b_blockno c' = b_blockno c → is_dirty n c' = is_dirty n c.
Proof. intros H1 H2. unfold is_dirty. by rewrite H1, H2. Qed.

(** Block [n] has a dirty buffer with contents [v]. *)
Definition dirty_cell (n : Z) (v : list Z) (c : buf) : Prop := b_flags c = 6 ∧ b_blockno c = n ∧ b_data c = v.
Definition dirty_at (cs : list buf) (n : Z) (v : list Z) : Prop := ∃ i c, cs !! i = Some c ∧ dirty_cell n v c.

Lemma cview_cases cs d n :
  cells_ok cs d → dirty_at cs n (cview cs d n) ∨ (∀ v, ¬ dirty_at cs n v) ∧ cview cs d n = d_block d n.
Proof.
  intros Hok. destruct (find_idx (is_dirty n) cs) as [i|] eqn:E.
  - apply find_idx_Some in E as [(c & Hi & [Hf Hb]%is_dirty_true) _]. left. exists i, c. split; [done|].
    split; [done|]. split; [done|]. rewrite <- Hb. symmetry. by eapply cview_dirty.
  - right. rewrite find_idx_None in E. assert (Hn : ∀ v, ¬ dirty_at cs n v).
    { intros v (i & c & Hi & Hf & Hb & _). specialize (E i c Hi). by rewrite (proj2 (is_dirty_true _ _) (conj Hf Hb)) in E. }
    split; [done|]. apply cview_clean. intros i c Hi Hf Hb. apply (Hn (b_data c)). by exists i, c.
Qed.

Lemma cview_at cs d n v : cells_ok cs d → dirty_at cs n v → cview cs d n = v.
Proof. intros Hok (i & c & Hi & Hf & <- & <-). by eapply cview_dirty. Qed.

Lemma cview_ext cs cs' d d' n :
  cells_ok cs d → cells_ok cs' d' → (∀ v, dirty_at cs' n v ↔ dirty_at cs n v) →
  ((∀ v, ¬ dirty_at cs n v) → d_block d' n = d_block d n) → cview cs' d' n = cview cs d n.
Proof.
  intros Hok Hok' Hd Hb. destruct (cview_cases cs d n Hok) as [H|[H ->]].
  - apply cview_at; [done|]. by apply Hd.
  - rewrite <- Hb by done. destruct (cview_cases cs' d' n Hok') as [H'|[_ ->]]; [|done].
    apply Hd in H'. by destruct (H (cview cs' d' n)).
Qed.

Lemma dirty_at_insert cs i c c' n v :
  cs !! i = Some c → (dirty_cell n v c' ↔ dirty_cell n v c) → dirty_at (<[i := c']> cs) n v ↔ dirty_at cs n v.
Proof.
  intros Hi Hc. split.
  - intros (j & x & [[-> ->]|[_ Hj]]%lookup_insert_cases & Hx); [exists i, c|exists j, x]; tauto.
  - intros (j & x & Hj & Hx). destruct (decide (j = i)) as [->|Hne].
    + rewrite Hi in Hj. injection Hj as ->. exists i, c'. split; [|by apply Hc].
      apply list_lookup_insert_eq. by apply lookup_lt_Some in Hi.
    + exists j, x. by rewrite list_lookup_insert_ne.
Qed.

(** ** Running the operations on cells *)

(** A change of a buffer that is not about its place in the list. *)
Definition plain (f : buf → buf) : Prop :=
  ∀ b, b_next (f b) = b_next b ∧ b_prev (f b) = b_prev b ∧ strip (f b) = f (strip b).

Lemma cells_lookup s i c : cells s !! i = Some c → ∃ b, bufs s !! i = Some b ∧ strip b = c ∧ (i < 30)%nat.
Proof.
  unfold cells. rewrite list_lookup_fmap. destruct (take 30 (bufs s) !! i) as [b|] eqn:E; [|done].
  intros [= <-]. apply lookup_take_Some in E as [E ?]. eauto.
Qed.

Lemma lookup_cells s i b : bufs s !! i = Some b → (i < 30)%nat → cells s !! i = Some (strip b).
Proof. intros Hb Hi. unfold cells. rewrite list_lookup_fmap, lookup_take_lt by done. by rewrite Hb. Qed.

Lemma getbuf_cell s i c : cells s !! i = Some c → ∃ b, getbuf i s = Ok (b, s) ∧ bufs s !! i = Some b ∧ strip b = c.
Proof. intros (b & Hb & Hs & _)%cells_lookup. exists b. split; [by apply getbuf_eq|done]. Qed.

Lemma cells_set_bufs s i b b' :
  bufs s !! i = Some b → (i < 30)%nat →
  cells (set_bufs (<[i := b']> (bufs s)) s) = <[i := strip b']> (cells s).
Proof.
  intros Hb Hi. unfold cells. cbn. rewrite <- list_fmap_insert. f_equal. by rewrite take_insert_lt.
Qed.

(** The state after a change of cell [i] to [c'], in which the rest is as before. *)
Record set_cell (s : bst) (l : list nat) (i : nat) (c' : buf) (s' : bst) : Prop := {
  sc_ring : ring s' l;
  sc_cells : cells s' = <[i := c']> (cells s);
  sc_dsk : dsk s' = dsk s;
  sc_pid : bpid s' = bpid s }.

Lemma set_bufs_cell s l i b b' :
  ring s l → bufs s !! i = Some b → (i < 30)%nat → b_next b' = b_next b → b_prev b' = b_prev b →
  set_cell s l i (strip b') (set_bufs (<[i := b']> (bufs s)) s).
Proof.
  intros (nx & pv & Hp & Hc & Hl) Hb Hi E1 E2. split; [|by eapply cells_set_bufs|done|done].
  exists nx, pv. split; [|done]. split; [cbn; rewrite length_insert; apply Hp|].
  cbn. intros j c [[-> ->]|[_ Hj]]%lookup_insert_cases; [|by apply Hp].
  rewrite E1, E2. by apply Hp.
Qed.

Lemma modbuf_cell s l i c f :
  ring s l → cells s !! i = Some c → plain f →
  ∃ s', modbuf i f s = Ok (tt, s') ∧ set_cell s l i (f c) s'.
Proof.
  intros Hr Hi Hf. apply cells_lookup in Hi as (b & Hb & <- & Hlt). destruct (Hf b) as (H1 & H2 & H3).
  eexists. split; [by apply modbuf_eq|]. rewrite <- H3. by eapply set_bufs_cell.
Qed.

Lemma holding_cell s i c :
  cells s !! i = Some c → on_lock i holdingsleep s = Ok (negb (sl_locked (b_lock c) =? 0), s).
Proof.
  intros (b & Hb & <- & _)%cells_lookup. unfold on_lock. rewrite Hb. unfold zoom, holdingsleep, gets. cbn.
  do 2 f_equal. replace (set_lock (b_lock b) b) with b by (by destruct b).
  rewrite list_insert_id by done. by destruct s.
Qed.

Lemma acquire_cell s l i c pid :
  ring s l → cells s !! i = Some c → sl_locked (b_lock c) = 0 →
  ∃ s', on_lock i (acquiresleep pid) s = Ok (tt, s') ∧ set_cell s l i (set_lock (mk_sleep 1 pid) c) s'.
Proof.
  intros Hr (b & Hb & <- & Hlt)%cells_lookup Hl. eexists. split.
  { unfold on_lock. rewrite Hb. unfold zoom, acquiresleep. munfold. cbn in Hl. rewrite Hl. reflexivity. }
  change (set_lock ?k (strip b)) with (strip (set_lock k b)). by eapply set_bufs_cell.
Qed.

Lemma release_cell s l i c :
  ring s l → cells s !! i = Some c →
  ∃ s', on_lock i releasesleep s = Ok (tt, s') ∧ set_cell s l i (set_lock (mk_sleep 0 0) c) s'.
Proof.
  intros Hr (b & Hb & <- & Hlt)%cells_lookup. eexists. split.
  { unfold on_lock. rewrite Hb. reflexivity. }
  change (set_lock ?k (strip b)) with (strip (set_lock k b)). by eapply set_bufs_cell.
Qed.

Lemma set_cell_trans s l i c1 s1 c2 s2 :
  set_cell s l i c1 s1 → set_cell s1 l i c2 s2 → set_cell s l i c2 s2.
Proof.
  intros [A1 A2 A3 A4] [B1 B2 B3 B4]. split; [done| |congruence|congruence].
  by rewrite B2, A2, list_insert_insert_eq.
Qed.

Lemma set_cell_lookup s l i c s' : set_cell s l i c s' → (i < length (cells s))%nat → cells s' !! i = Some c.
Proof. intros [_ E _ _] Hi. rewrite E. by apply list_lookup_insert_eq. Qed.

Lemma set_cell_len s l i c s' : set_cell s l i c s' → length (cells s') = length (cells s).
Proof. intros [_ E _ _]. rewrite E. apply length_insert. Qed.

(** ** Reading and writing the disk *)

Lemma iderw_read s l i c :
  ring s l → cells s !! i = Some c → sl_locked (b_lock c) = 1 → b_flags c = 0 → b_dev c = 1 →
  b_blockno c < d_size (dsk s) →
  ∃ s', iderw i s = Ok (tt, s') ∧ set_cell s l i (set_flags 2 (set_data (d_block (dsk s) (b_blockno c)) c)) s'.
Proof.
  intros Hr Hi Hl Hf Hd Hn. pose proof (lookup_lt_Some _ _ _ Hi) as Hlt.
  destruct (getbuf_cell _ _ _ Hi) as (b & Hb & _ & Es).
  destruct (modbuf_cell s l i c (set_data (d_block (dsk s) (b_blockno b)))) as (s1 & E1 & C1); [done|done|done|].
  pose proof (set_cell_lookup _ _ _ _ _ C1 Hlt) as Hi1.
  destruct (modbuf_cell s1 l i _ (λ b, set_flags (Z.lor (b_flags b) B_VALID) b) (sc_ring _ _ _ _ _ C1) Hi1) as (s2 & E2 & C2); [done|].
  exists s2. split.
  - unfold iderw. mrun (holding_cell _ _ _ Hi). rewrite Hl. cbn [negb Z.eqb]. mrun Hb.
    replace (b_flags b) with 0 by (by rewrite <- Hf, <- Es).
    replace (b_dev b) with 1 by (by rewrite <- Hd, <- Es).
    change (Z.land 0 (Z.lor B_VALID B_DIRTY) =? B_VALID) with false. change (negb (1 =? 1)) with false. cbn iota.
    replace (b_blockno b) with (b_blockno c) by (by rewrite <- Es).
    rewrite (bind_eq get _ s s s eq_refl), (proj2 (Z.leb_gt _ _)) by done.
    replace (b_blockno b) with (b_blockno c) in E1 by (by rewrite <- Es).
    change (tst 0 B_DIRTY) with false. cbn iota. by mrun E1.
  - replace (b_blockno b) with (b_blockno c) in * by (by rewrite <- Es).
    pose proof (set_cell_trans _ _ _ _ _ _ _ C1 C2) as C. cbn [b_flags set_data] in C. by rewrite Hf in C.
Qed.

Lemma iderw_write s l i c :
  ring s l → cells s !! i = Some c → sl_locked (b_lock c) = 1 → b_flags c = 6 → b_dev c = 1 →
  b_blockno c < d_size (dsk s) →
  ∃ s', iderw i s = Ok (tt, s') ∧ ring s' l ∧ cells s' = <[i := set_flags 2 c]> (cells s) ∧
    dsk s' = d_write (b_blockno c) (b_data c) (dsk s) ∧ bpid s' = bpid s.
Proof.
  intros Hr Hi Hl Hf Hd Hn. pose proof (lookup_lt_Some _ _ _ Hi) as Hlt.
  destruct (getbuf_cell _ _ _ Hi) as (b & Hb & _ & Es).
  destruct (modbuf_cell s l i c (λ b, set_flags (clr (b_flags b) B_DIRTY) b)) as (s1 & E1 & C1); [done|done|done|].
  set (s2 := set_dsk (d_write (b_blockno c) (b_data c) (dsk s1)) s1).
  assert (Hr2 : ring s2 l). { destruct (sc_ring _ _ _ _ _ C1) as (nx & pv & [P1 P2] & ?). by exists nx, pv. }
  assert (Hi2 : cells s2 !! i = Some (set_flags (clr (b_flags c) B_DIRTY) c)) by apply (set_cell_lookup _ _ _ _ _ C1 Hlt).
  destruct (modbuf_cell s2 l i _ (λ b, set_flags (Z.lor (b_flags b) B_VALID) b) Hr2 Hi2) as (s3 & E3 & C3); [done|].
  exists s3. split; [|split_and!].
  - unfold iderw. mrun (holding_cell _ _ _ Hi). rewrite Hl. cbn [negb Z.eqb]. mrun Hb.
    replace (b_flags b) with 6 by (by rewrite <- Hf, <- Es).
    replace (b_dev b) with 1 by (by rewrite <- Hd, <- Es).
    change (Z.land 6 (Z.lor B_VALID B_DIRTY) =? B_VALID) with false. change (negb (1 =? 1)) with false. cbn iota.
    replace (b_blockno b) with (b_blockno c) by (by rewrite <- Es).
    rewrite (bind_eq get _ s s s eq_refl), (proj2 (Z.leb_gt _ _)) by done.
    replace (b_data b) with (b_data c) by (by rewrite <- Es).
    change (tst 6 B_DIRTY) with true. cbn iota. rewrite (bind_eq (modbuf _ _;; _) _ s tt s2); [done|]. by mrun E1.
  - apply C3.
  - rewrite (sc_cells _ _ _ _ _ C3). change (cells s2) with (cells s1).
    rewrite (sc_cells _ _ _ _ _ C1), list_insert_insert_eq. cbn [b_flags set_flags]. by rewrite Hf.
  - rewrite (sc_dsk _ _ _ _ _ C3). cbn. by rewrite (sc_dsk _ _ _ _ _ C1).
  - rewrite (sc_pid _ _ _ _ _ C3). cbn. apply C1.
Qed.

Lemma d_block_write n v d m : d_block (d_write n v d) m = if n =? m then v else d_block d m.
Proof. unfold d_block, d_write. cbn. by destruct (n =? m). Qed.

(** ** bread *)

Definition unlocked (c : buf) : Prop := sl_locked (b_lock c) = 0.
Definition of_block (n : Z) (c : buf) : Prop := b_dev c = 1 ∧ b_blockno c = n.

(** A buffer that process [pid] holds. *)
Definition held_cell (f n pid : Z) (v : list Z) : buf := mk_buf f 1 n (mk_sleep 1 pid) 1 0 0 v.

Lemma cell_ptrs s i c : cells s !! i = Some c → b_prev c = 0%nat ∧ b_next c = 0%nat.
Proof. by intros (b & _ & <- & _)%cells_lookup. Qed.

(** The block is cached. *)
Lemma bread_cached s l i c n :
  ring s l → cells_ok (cells s) (dsk s) → cells s !! i = Some c → of_block n c → unlocked c →
  first_of (buf_is s (λ b, (b_dev b =? 1) && (b_blockno b =? n))) l = Some i →
  ∃ s', bread 1 n s = Ok (i, s') ∧ set_cell s l i (held_cell (b_flags c) n (bpid s) (cview (cells s) (dsk s) n)) s'.
Proof.
  intros Hr Hok Hi [Hd Hn] Hu Hf. pose proof (lookup_lt_Some _ _ _ Hi) as Hlt.
  pose proof (cs_ok _ _ Hok i c Hi) as Hc. pose proof (cell_ptrs _ _ _ Hi) as [P1 P2].
  destruct (modbuf_cell s l i c (λ b, set_refcnt (u32 (b_refcnt b + 1)) b) Hr Hi) as (s1 & E1 & C1); [done|].
  pose proof (set_cell_lookup _ _ _ _ _ C1 Hlt) as Hi1.
  destruct (acquire_cell s1 l i _ (bpid s) (sc_ring _ _ _ _ _ C1) Hi1 Hu) as (s2 & E2 & C2).
  pose proof (set_cell_trans _ _ _ _ _ _ _ C1 C2) as C. pose proof (set_cell_lookup _ _ _ _ _ C Hlt) as Hi2.
  destruct (getbuf_cell _ _ _ Hi2) as (b & Hb & _ & Es). exists s2. split.
  - unfold bread. rewrite (bind_eq _ _ _ i s2).
    + mrun Hb. replace (tst (b_flags b) B_VALID) with true; [done|].
      replace (b_flags b) with (b_flags c) by (by apply (f_equal b_flags) in Es).
      destruct (co_kind _ _ Hc) as [?|(_ & _ & [-> | ->])]; [lia|done|done].
    + unfold bget. destruct (ring_nodup _ _ Hr) as (_ & Hin & _). destruct Hr as (nx & pv & Hp & Hch & Hperm).
      destruct (buf_exists _ _ _ HEAD Hp) as [h Hh]; [unfold HEAD; lia|]. mrun (getbuf_eq _ _ _ Hh).
      destruct (pt_get _ _ _ Hp _ _ Hh) as [-> _].
      assert (Hlen : (length l ≤ Z.to_nat NBUF)%nat) by (by rewrite Hperm).
      rewrite (bind_eq _ _ _ _ _ (find_block_eq s nx pv 1 n l _ HEAD Hp Hch (λ x Hx, proj1 (Hin x) Hx) Hlen)), Hf.
      mrun E1. rewrite (bind_eq get _ s1 s1 s1 eq_refl), (sc_pid _ _ _ _ _ C1). by mrun E2.
  - assert (Ec : cview (cells s) (dsk s) n = b_data c) by (rewrite <- Hn; by apply (cview_cell _ _ i)).
    rewrite Ec. unfold held_cell. pose proof (co_ref _ _ Hc) as Hrc. rewrite Hu in Hrc.
    destruct c; cbn in *. by subst.
Qed.

(** The block is not cached and buffer [i] is recycled for it. *)
Lemma bread_recycle s l i c n :
  ring s l → cells_ok (cells s) (dsk s) → cells s !! i = Some c → unlocked c → b_flags c ≠ 6 →
  0 ≤ n < d_size (dsk s) → (∀ j x, cells s !! j = Some x → ¬ of_block n x) →
  first_of (buf_is s (λ b, (b_dev b =? 1) && (b_blockno b =? n))) l = None →
  first_of (buf_is s (λ b, (b_refcnt b =? 0) && negb (tst (b_flags b) B_DIRTY))) (reverse l) = Some i →
  ∃ s', bread 1 n s = Ok (i, s') ∧ set_cell s l i (held_cell 2 n (bpid s) (cview (cells s) (dsk s) n)) s'.
Proof.
  intros Hr Hok Hi Hu Hnd Hn Hno Hf1 Hf2. pose proof (lookup_lt_Some _ _ _ Hi) as Hlt.
  pose proof (cell_ptrs _ _ _ Hi) as [P1 P2].
  destruct (modbuf_cell s l i c (λ b, mk_buf 0 1 n (b_lock b) 1 (b_prev b) (b_next b) (b_data b)) Hr Hi) as (s1 & E1 & C1); [done|].
  pose proof (set_cell_lookup _ _ _ _ _ C1 Hlt) as Hi1.
  destruct (acquire_cell s1 l i _ (bpid s) (sc_ring _ _ _ _ _ C1) Hi1 Hu) as (s2 & E2 & C2).
  pose proof (set_cell_trans _ _ _ _ _ _ _ C1 C2) as C. pose proof (set_cell_lookup _ _ _ _ _ C Hlt) as Hi2.
  destruct (getbuf_cell _ _ _ Hi2) as (b & Hb & _ & Es).
  destruct (iderw_read s2 l i _ (sc_ring _ _ _ _ _ C) Hi2) as (s3 & E3 & C3);
    [done|done|done|rewrite (sc_dsk _ _ _ _ _ C); cbn; lia|].
  exists s3. split.
  - unfold bread. rewrite (bind_eq _ _ _ i s2).
    + mrun Hb. replace (tst (b_flags b) B_VALID) with false; [by mrun E3|].
      replace (b_flags b) with 0 by (by apply (f_equal b_flags) in Es). done.
    + unfold bget. destruct (ring_nodup _ _ Hr) as (_ & Hin & _). destruct Hr as (nx & pv & Hp & Hch & Hperm).
      destruct (buf_exists _ _ _ HEAD Hp) as [h Hh]; [unfold HEAD; lia|]. mrun (getbuf_eq _ _ _ Hh).
      destruct (pt_get _ _ _ Hp _ _ Hh) as [-> ->].
      assert (Hlen : (length l ≤ Z.to_nat NBUF)%nat) by (by rewrite Hperm).
      rewrite (bind_eq _ _ _ _ _ (find_block_eq s nx pv 1 n l _ HEAD Hp Hch (λ x Hx, proj1 (Hin x) Hx) Hlen)), Hf1.
      apply chain_reverse in Hch. assert (Hin' : ∀ x, x ∈ reverse l → (x < 30)%nat) by (intros x; rewrite elem_of_reverse; apply Hin).
      assert (Hlen' : (length (reverse l) ≤ Z.to_nat NBUF)%nat) by (by rewrite length_reverse).
      rewrite (bind_eq _ _ _ _ _ (find_unused_eq s nx pv _ _ HEAD Hp Hch Hin' Hlen')), Hf2.
      mrun E1. rewrite (bind_eq get _ s1 s1 s1 eq_refl), (sc_pid _ _ _ _ _ C1). by mrun E2.
  - pose proof (set_cell_trans _ _ _ _ _ _ _ C C3) as C'. cbn in C'. rewrite (sc_dsk _ _ _ _ _ C) in C'.
    rewrite P1, P2 in C'. rewrite cview_clean; [done|]. intros j x Hj Hx En.
    apply (Hno j x Hj). split; [|done]. eapply dirty_dev; eauto using cs_ok.
Qed.

Lemma bread_spec s n :
  binv s → 0 ≤ n < d_size (dsk s) →
  (∀ i c, cells s !! i = Some c → of_block n c → unlocked c) →
  (∃ i c, cells s !! i = Some c ∧ (of_block n c ∨ unlocked c ∧ b_flags c ≠ 6)) →
  runs (bread 1 n) s (λ i s', ∃ l c f, ring s l ∧ cells s !! i = Some c ∧ unlocked c ∧
    set_cell s l i (held_cell f n (bpid s) (cview (cells s) (dsk s) n)) s' ∧
    (of_block n c ∧ f = b_flags c ∨
     b_flags c ≠ 6 ∧ f = 2 ∧ ∀ j x, cells s !! j = Some x → ¬ of_block n x)).
Proof.
  intros [[l Hr] Hok] Hn Hfree (i0 & c0 & Hi0 & Hu0).
  destruct (ring_nodup _ _ Hr) as (_ & Hin & _).
  destruct (first_of (buf_is s (λ b, (b_dev b =? 1) && (b_blockno b =? n))) l) as [i|] eqn:E1.
  - pose proof (first_of_Some _ _ _ E1) as [Hil Hb]. unfold buf_is in Hb.
    destruct (bufs s !! i) as [b|] eqn:Hib; [|done]. apply andb_true_iff in Hb as [Hd%Z.eqb_eq Hbn%Z.eqb_eq].
    apply Hin in Hil. pose proof (lookup_cells _ _ _ Hib Hil) as Hi. assert (Ho : of_block n (strip b)) by done.
    destruct (bread_cached s l i _ n Hr Hok Hi Ho (Hfree _ _ Hi Ho) E1) as (s' & E & C).
    exists i, s'. split; [done|]. exists l, (strip b), (b_flags b). split_and!; eauto.
  - assert (Hno : ∀ j x, cells s !! j = Some x → ¬ of_block n x).
    { intros j x (b & Hb & <- & Hj)%cells_lookup [Hd Hbn]. apply Hin in Hj.
      pose proof (first_of_None _ _ E1 j Hj) as Hf. unfold buf_is in Hf. rewrite Hb in Hf. cbn in Hd, Hbn.
      rewrite Hd, Hbn, !Z.eqb_refl in Hf. done. }
    destruct (first_of (buf_is s (λ b, (b_refcnt b =? 0) && negb (tst (b_flags b) B_DIRTY))) (reverse l)) as [i|] eqn:E2.
    + pose proof (first_of_Some _ _ _ E2) as [Hil Hb]. rewrite elem_of_reverse in Hil. unfold buf_is in Hb.
      destruct (bufs s !! i) as [b|] eqn:Hib; [|done]. apply andb_true_iff in Hb as [Hrc%Z.eqb_eq Hf].
      apply Hin in Hil. pose proof (lookup_cells _ _ _ Hib Hil) as Hi. pose proof (cs_ok _ _ Hok _ _ Hi) as Hc.
      assert (Hu : unlocked (strip b)) by (unfold unlocked; by rewrite <- (co_ref _ _ Hc)).
      assert (Hnd : b_flags (strip b) ≠ 6) by (cbn; intros Hx; by rewrite Hx in Hf).
      destruct (bread_recycle s l i _ n Hr Hok Hi Hu Hnd Hn Hno E1 E2) as (s' & E & C).
      exists i, s'. split; [done|]. exists l, (strip b), 2. split_and!; eauto.
    + exfalso. destruct Hu0 as [Ho|[Hu0 Hnd0]]; [by apply (Hno i0 c0)|].
      apply cells_lookup in Hi0 as (b & Hb & <- & Hj). apply Hin in Hj as Hj'.
      pose proof (first_of_None _ _ E2 i0 ltac:(by rewrite elem_of_reverse)) as Hf. unfold buf_is in Hf. rewrite Hb in Hf.
      pose proof (cs_ok _ _ Hok _ _ (lookup_cells _ _ _ Hb Hj)) as Hc. pose proof (co_ref _ _ Hc) as Hrc. rewrite Hu0 in Hrc.
      cbn in Hrc. rewrite Hrc in Hf. cbn in Hf, Hnd0.
      destruct (co_kind _ _ Hc) as [(Hz & _)|(_ & _ & [Hz|Hz])]; cbn in Hz; [by rewrite Hz in Hf|by rewrite Hz in Hf|done].
Qed.

Lemma cview_len cs d n : cells_ok cs d → length (cview cs d n) = Z.to_nat BSIZE.
Proof.
  intros Hok. destruct (cview_cases cs d n Hok) as [(i & c & Hi & _ & _ & <-)|[_ ->]].
  - by apply (co_len d), (cs_ok _ _ Hok i).
  - apply Hok.
Qed.

Lemma held_cell_ok d f n pid v :
  f = 2 ∨ f = 6 → 0 ≤ n < d_size d → length v = Z.to_nat BSIZE → cell_ok d (held_cell f n pid v).
Proof. intros Hf Hn Hv. split; cbn; try done; auto. Qed.

(** A held buffer in place of one that may be recycled or has the same block. *)
Lemma binv_held s l i c f n v s' :
  cells_ok (cells s) (dsk s) → set_cell s l i (held_cell f n (bpid s) v) s' → cells s !! i = Some c →
  (of_block n c ∨ ∀ j x, cells s !! j = Some x → ¬ of_block n x) →
  f = 2 ∨ f = 6 → 0 ≤ n < d_size (dsk s) → length v = Z.to_nat BSIZE → binv s'.
Proof.
  intros Hok [S1 S2 S3 S4] Hi Hc Hf Hn Hv. split; [by exists l|]. rewrite S2, S3.
  apply cells_ok_insert; [done|by apply held_cell_ok|]. cbn. intros j x Hj Hne Hd _ En.
  destruct Hc as [[D B]|H]; [|by apply (H j x)].
  apply Hne. apply (cs_uniq _ _ Hok j i x c); [done|done|done|done|]. by rewrite En.
Qed.

(** ** bwrite *)

Lemma cell_ok_disk d d' c :
  cell_ok d c → d_size d' = d_size d → (b_flags c = 2 → sl_locked (b_lock c) = 0 → d_block d' (b_blockno c) = d_block d (b_blockno c)) →
  cell_ok d' c.
Proof.
  intros [H1 H2 H3 H4 H5] Hs Hb. split; try done; [by rewrite Hs|]. intros Hf Hl. rewrite Hb by done. by apply H5.
Qed.

(** Writing the block of cell [i], and marking the cell clean. *)
Lemma cells_ok_write cs d i c c' :
  cells_ok cs d → cs !! i = Some c → b_dev c = 1 → sl_locked (b_lock c) = 1 → c' = set_flags 2 c →
  cells_ok (<[i := c']> cs) (d_write (b_blockno c) (b_data c) d).
Proof.
  intros Hok Hi Hd Hl ->. pose proof (cs_ok _ _ Hok i c Hi) as Hc.
  assert (Ho : cells_ok (<[i := set_flags 2 c]> cs) d).
  { apply cells_ok_insert; [done| |].
    - destruct Hc as [H1 H2 H3 H4 _]. split; try done; cbn; [right|lia].
      destruct H4 as [?|(? & ? & _)]; [lia|]. split_and!; [done|lia|lia|by left].
    - intros j x Hj Hne D1 _ E. apply Hne. by apply (cs_uniq _ _ Hok j i x c). }
  destruct Ho as [O1 O2 O3 O4]. split; [done| |done|].
  - intros j x Hj. apply (cell_ok_disk d); [by apply (O2 j)|done|]. rewrite d_block_write. intros Hf Hu.
    destruct (Z.eqb_spec (b_blockno c) (b_blockno x)) as [E|]; [|done].
    apply lookup_insert_cases in Hj as [[-> ->]|[Hne Hj]].
    { cbn in Hu. lia. }
    exfalso. apply Hne. apply (cs_uniq _ _ Hok j i x c); [done|done| |done|done].
    destruct (co_kind _ _ (cs_ok _ _ Hok j x Hj)) as [?|?]; [lia|tauto].
  - intros n. rewrite d_block_write. destruct (_ =? _); [apply Hc|apply Hok].
Qed.

(** ** Counting buffers *)

Lemma count_insert {A} (P : A → Prop) `{∀ x, Decision (P x)} (l : list A) i x y :
  l !! i = Some x →
  (length (filter P (<[i := y]> l)) + (if decide (P x) then 1 else 0) =
   length (filter P l) + (if decide (P y) then 1 else 0))%nat.
Proof.
  revert i. induction l as [|z l IH]; intros i Hi; [done|]. destruct i as [|i]; cbn in Hi.
  - injection Hi as ->. change (<[0%nat := y]> (x :: l)) with (y :: l). rewrite !filter_cons. destruct (decide (P x)), (decide (P y)); cbn; lia.
  - change (<[S i := y]> (z :: l)) with (z :: <[i := y]> l). rewrite !filter_cons. specialize (IH i Hi). destruct (decide (P z)); cbn; lia.
Qed.

Lemma count_or {A} (P Q : A → Prop) `{∀ x, Decision (P x)} `{∀ x, Decision (Q x)} (l : list A) :
  (length (filter P l) + length (filter Q l) < length l)%nat → ∃ i x, l !! i = Some x ∧ ¬ P x ∧ ¬ Q x.
Proof.
  induction l as [|z l IH]; cbn [length]; [lia|]. rewrite !filter_cons. intros Hl.
  destruct (decide (P z)), (decide (Q z)); cbn in Hl.
  1-3: destruct IH as (i & x & Hx); [lia|]; by exists (S i), x.
  by exists 0%nat, z.
Qed.

Definition is_held (c : buf) : Prop := sl_locked (b_lock c) = 1.
Definition marked (c : buf) : Prop := b_flags c = 6.
#[global] Instance is_held_dec c : Decision (is_held c).
Proof. unfold is_held. apply _. Defined.
#[global] Instance marked_dec c : Decision (marked c).
Proof. unfold marked. apply _. Defined.

(** How many buffers are held, and how many are dirty. *)
Definition nheld (s : bst) : nat := length (filter is_held (cells s)).
Definition ndirty (s : bst) : nat := length (filter marked (cells s)).

(** * The cache as its users see it *)

Definition view (s : bst) (n : Z) : list Z := cview (cells s) (dsk s) n.

(** Buffer [i] is held, belongs to block [n] and contains [v]. *)
Definition holds (s : bst) (i : nat) (n : Z) (v : list Z) : Prop :=
  ∃ c, cells s !! i = Some c ∧ is_held c ∧ of_block n c ∧ b_data c = v.

(** [s'] holds what [s] does, except perhaps in buffer [i]. *)
Definition holds_but (i : nat) (s s' : bst) : Prop := ∀ j n v, j ≠ i → holds s' j n v ↔ holds s j n v.

(** Block [n] has a dirty buffer. *)
Definition dirty (s : bst) (n : Z) : Prop := ∃ v, dirty_at (cells s) n v.

Definition same_dirty (s s' : bst) : Prop := ∀ n v, dirty_at (cells s') n v ↔ dirty_at (cells s) n v.

Lemma set_cell_holds_but s l i c s' : set_cell s l i c s' → holds_but i s s'.
Proof.
  intros [_ E _ _] j n v Hj. unfold holds. rewrite E, list_lookup_insert_ne by done. done.
Qed.

Lemma view_same s s' n : binv s → binv s' → dsk s' = dsk s → same_dirty s s' → view s' n = view s n.
Proof.
  intros [_ H] [_ H'] Hd Hs. apply cview_ext; [done|done|apply Hs|]. by rewrite Hd.
Qed.

Lemma marked_iff c c' n v :
  (marked c' ↔ marked c) → (marked c → b_blockno c' = b_blockno c ∧ b_data c' = b_data c) →
  dirty_cell n v c' ↔ dirty_cell n v c.
Proof. unfold dirty_cell, marked. intros H1 H2. naive_solver congruence. Qed.

(** bread returns a buffer with the current contents of the block. *)
Lemma bread_run s n :
  binv s → 0 ≤ n < d_size (dsk s) → (∀ i v, ¬ holds s i n v) → dirty s n ∨ (nheld s + ndirty s < 30)%nat →
  runs (bread 1 n) s (λ i s', binv s' ∧ dsk s' = dsk s ∧ bpid s' = bpid s ∧
    holds s' i n (view s n) ∧ (∀ m v, ¬ holds s i m v) ∧ holds_but i s s' ∧ same_dirty s s' ∧
    nheld s' = S (nheld s) ∧ ndirty s' = ndirty s).
Proof.
  intros [Hr Hok] Hn Hno Hcap.
  assert (Hu : ∀ c, cell_ok (dsk s) c → ¬ is_held c → unlocked c).
  { intros c Hc Hh. destruct (co_lock _ _ Hc); [done|by destruct Hh]. }
  eapply runs_mono; [apply bread_spec; [done|done| |]|].
  - intros i c Hi Ho. apply Hu; [by apply (cs_ok _ _ Hok i)|]. intros Hh. apply (Hno i (b_data c)). by exists c.
  - destruct Hcap as [(v & i & c & Hi & Hf & Hbn & _)|Hcap].
    { exists i, c. split; [done|]. left. split; [|done]. eapply dirty_dev; eauto using cs_ok. }
    destruct (count_or is_held marked (cells s)) as (i & c & Hi & H1 & H2); [by rewrite (cs_len _ _ Hok)|].
    exists i, c. split; [done|]. right. split; [|done]. apply Hu; [by apply (cs_ok _ _ Hok i)|done].
  - intros i s' (l & c & f & Hrl & Hi & Huc & C & Hf).
    pose proof (lookup_lt_Some _ _ _ Hi) as Hlt. pose proof (cs_ok _ _ Hok i c Hi) as Hc.
    assert (Hf26 : f = 2 ∨ f = 6).
    { destruct Hf as [[[Hd _] ->]|(_ & -> & _)]; [|by left]. destruct (co_kind _ _ Hc) as [?|?]; [lia|tauto]. }
    assert (Hb : binv s').
    { eapply binv_held; [done|done|done| |done|done|by apply cview_len]. destruct Hf as [[? _]|(_ & _ & ?)]; auto. }
    assert (Hhc : ¬ is_held c) by (unfold is_held, unlocked in *; lia).
    assert (Hm : marked (held_cell f n (bpid s) (view s n)) ↔ marked c).
    { unfold marked. cbn. destruct Hf as [[_ ->]|(? & -> & _)]; [done|lia]. }
    split_and!; [done|apply C|apply C| | | | | |].
    + eexists. split; [by eapply set_cell_lookup|]. done.
    + intros m v (c' & Hc' & Hh & _). rewrite Hi in Hc'. injection Hc' as <-. done.
    + by eapply set_cell_holds_but.
    + intros m v. rewrite (sc_cells _ _ _ _ _ C). apply (dirty_at_insert _ i c); [done|]. apply marked_iff; [done|].
      intros Hmc. cbn. destruct Hf as [[[? Hbn] _]|(Hmc' & _)]; [|by destruct Hmc'].
      split; [done|]. rewrite <- Hbn. by apply (cview_dirty _ _ i).
    + unfold nheld. rewrite (sc_cells _ _ _ _ _ C).
      pose proof (count_insert is_held (cells s) i c (held_cell f n (bpid s) (view s n)) Hi) as Hcnt.
      rewrite (decide_False (P:=is_held c)) in Hcnt by done. rewrite decide_True in Hcnt by done. unfold view in Hcnt. lia.
    + unfold ndirty. rewrite (sc_cells _ _ _ _ _ C).
      pose proof (count_insert marked (cells s) i c (held_cell f n (bpid s) (view s n)) Hi) as Hcnt. unfold view in *.
      destruct (decide (marked c)) as [Hmc|Hmc].
      * rewrite decide_True in Hcnt by tauto. lia.
      * rewrite decide_False in Hcnt by tauto. lia.
Qed.

Definition b2n (P : Prop) `{Decision P} : nat := if decide P then 1 else 0.

Lemma count_cells s s' i c c' :
  cells s !! i = Some c → cells s' = <[i := c']> (cells s) →
  (nheld s' + b2n (is_held c) = nheld s + b2n (is_held c'))%nat ∧
  (ndirty s' + b2n (marked c) = ndirty s + b2n (marked c'))%nat.
Proof. intros Hi E. unfold nheld, ndirty, b2n. rewrite E. split; by apply count_insert. Qed.

(** A held cell changes and stays held for the same block. *)
Lemma held_change s l i c c' s' n v :
  binv s → set_cell s l i c' s' → cells s !! i = Some c → is_held c → of_block n c →
  cell_ok (dsk s) c' → is_held c' → of_block n c' → b_data c' = v →
  binv s' ∧ holds s' i n v ∧ holds_but i s s' ∧ nheld s' = nheld s.
Proof.
  intros [Hr Hok] C Hi Hh [Hd Hn] Hc' Hh' [Hd' Hn'] Hv. pose proof (lookup_lt_Some _ _ _ Hi).
  split_and!.
  - split; [exists l; apply C|]. rewrite (sc_cells _ _ _ _ _ C), (sc_dsk _ _ _ _ _ C).
    apply cells_ok_insert; [done|done|]. intros j x Hj Hne D1 _ E. apply Hne.
    apply (cs_uniq _ _ Hok j i x c); [done..|]. congruence.
  - exists c'. split; [by eapply set_cell_lookup|]. done.
  - by eapply set_cell_holds_but.
  - destruct (count_cells s s' i c c' Hi (sc_cells _ _ _ _ _ C)) as [E _]. unfold b2n in E.
    rewrite !decide_True in E by done. lia.
Qed.

Lemma holds_kind c d : cell_ok d c → is_held c → b_flags c = 2 ∨ b_flags c = 6.
Proof. intros Hc Hh. unfold is_held in Hh. destruct (co_kind _ _ Hc) as [?|?]; [lia|tauto]. Qed.

(** Storing in a held buffer. *)
Lemma store_run s i n v v' :
  binv s → holds s i n v → length v' = Z.to_nat BSIZE →
  runs (modbuf i (set_data v')) s (λ _ s', binv s' ∧ dsk s' = dsk s ∧ bpid s' = bpid s ∧
    holds s' i n v' ∧ holds_but i s s' ∧ nheld s' = nheld s ∧ ndirty s' = ndirty s ∧
    (∀ m w, dirty_at (cells s') m w ↔ (if m =? n then dirty s n ∧ w = v' else dirty_at (cells s) m w))).
Proof.
  intros Hb (c & Hi & Hh & [Hd Hn] & Hv) Hl. pose proof Hb as [[l Hr] Hok]. pose proof (cs_ok _ _ Hok i c Hi) as Hc.
  destruct (modbuf_cell s l i c (set_data v') Hr Hi) as (s' & E & C); [done|].
  exists tt, s'. split; [done|].
  destruct (held_change s l i c (set_data v' c) s' n v' Hb C Hi Hh) as (B1 & B2 & B3 & B4); try done.
  { destruct Hc as [? ? ? ? _]. split; try done. cbn. unfold is_held in Hh. lia. }
  split_and!; [done|apply C|apply C|done|done|done| |].
  - destruct (count_cells s s' i c _ Hi (sc_cells _ _ _ _ _ C)) as [_ Ec]. unfold b2n, marked in Ec. cbn in Ec.
    destruct (decide (b_flags c = 6)); lia.
  - intros m w. rewrite (sc_cells _ _ _ _ _ C). destruct (Z.eqb_spec m n) as [->|Hne].
    + split.
      * intros (j & x & [[-> ->]|[Hj Hx]]%lookup_insert_cases & Hf & Hbn & Hw); cbn in *.
        -- split; [|done]. exists v. exists i, c. done.
        -- exfalso. apply Hj. apply (cs_uniq _ _ Hok j i x c); [done|done| |done|congruence].
           eapply dirty_dev; eauto using cs_ok.
      * intros [(w' & j & x & Hj & Hf & Hbn & _) ->]. assert (j = i) as ->.
        { apply (cs_uniq _ _ Hok j i x c); [done|done| |done|congruence]. eapply dirty_dev; eauto using cs_ok. }
        rewrite Hi in Hj. injection Hj as <-. exists i, (set_data v' c). split; [|done].
        apply list_lookup_insert_eq. by apply lookup_lt_Some in Hi.
    + apply (dirty_at_insert _ i c); [done|]. unfold dirty_cell. cbn. naive_solver congruence.
Qed.

(** Setting B_DIRTY on a held buffer. *)
Lemma mark_run s i n v :
  binv s → holds s i n v →
  runs (modbuf i (λ b, set_flags (Z.lor (b_flags b) B_DIRTY) b)) s (λ _ s', binv s' ∧ dsk s' = dsk s ∧
    bpid s' = bpid s ∧ holds s' i n v ∧ holds_but i s s' ∧ nheld s' = nheld s ∧
    (∀ m w, dirty_at (cells s') m w ↔ (if m =? n then w = v else dirty_at (cells s) m w)) ∧
    (dirty s n ∧ ndirty s' = ndirty s ∨ ¬ dirty s n ∧ ndirty s' = S (ndirty s))).
Proof.
  intros Hb (c & Hi & Hh & [Hd Hn] & Hv). pose proof Hb as [[l Hr] Hok]. pose proof (cs_ok _ _ Hok i c Hi) as Hc.
  destruct (modbuf_cell s l i c (λ b, set_flags (Z.lor (b_flags b) B_DIRTY) b) Hr Hi) as (s' & E & C); [done|].
  pose proof (holds_kind c _ Hc Hh) as Hf.
  assert (Hf6 : Z.lor (b_flags c) B_DIRTY = 6) by (by destruct Hf as [-> | ->]). rewrite Hf6 in C.
  exists tt, s'. split; [done|].
  destruct (held_change s l i c (set_flags 6 c) s' n v Hb C Hi Hh) as (B1 & B2 & B3 & B4); try done.
  { destruct Hc as [? ? ? Hk _]. unfold is_held in Hh. split; try done. right. cbn.
    destruct Hk as [?|(? & ? & _)]; [lia|]. auto. }
  assert (Huq : ∀ j x, cells s !! j = Some x → b_flags x = 6 → b_blockno x = n → j = i).
  { intros j x Hj Hx Hbn. apply (cs_uniq _ _ Hok j i x c); [done|done| |done|congruence].
    eapply dirty_dev; eauto using cs_ok. }
  split_and!; [done|apply C|apply C|done|done|done| |].
  - intros m w. rewrite (sc_cells _ _ _ _ _ C). destruct (Z.eqb_spec m n) as [->|Hne].
    + split.
      * intros (j & x & [[-> ->]|[Hj Hx]]%lookup_insert_cases & Hfx & Hbn & Hw); cbn in *; [congruence|].
        by destruct Hj; eapply Huq.
      * intros ->. exists i, (set_flags 6 c). split; [|done].
        apply list_lookup_insert_eq. by apply lookup_lt_Some in Hi.
    + apply (dirty_at_insert _ i c); [done|]. unfold dirty_cell. cbn. naive_solver congruence.
  - destruct (count_cells s s' i c _ Hi (sc_cells _ _ _ _ _ C)) as [_ Ec]. unfold b2n, marked in Ec. cbn in Ec.
    destruct (decide (6 = 6)); [|done]. destruct (decide (b_flags c = 6)) as [E6|E6].
    + left. split; [exists v, i, c; done|lia].
    + right. split; [|lia]. intros (w & j & x & Hj & Hx & Hbn & _). assert (j = i) as -> by (by eapply Huq).
      rewrite Hi in Hj. injection Hj as <-. done.
Qed.

(** Writing a held buffer to the disk. *)
Lemma bwrite_run s i n v :
  binv s → holds s i n v →
  runs (bwrite i) s (λ _ s', binv s' ∧ dsk s' = d_write n v (dsk s) ∧ bpid s' = bpid s ∧
    holds s' i n v ∧ holds_but i s s' ∧ nheld s' = nheld s ∧
    (∀ m w, dirty_at (cells s') m w ↔ m ≠ n ∧ dirty_at (cells s) m w) ∧
    (dirty s n ∧ S (ndirty s') = ndirty s ∨ ¬ dirty s n ∧ ndirty s' = ndirty s)).
Proof.
  intros Hb (c & Hi & Hh & [Hd Hn] & Hv). pose proof Hb as [[l Hr] Hok]. pose proof (cs_ok _ _ Hok i c Hi) as Hc.
  destruct (modbuf_cell s l i c (λ b, set_flags (Z.lor (b_flags b) B_DIRTY) b) Hr Hi) as (s1 & E1 & C1); [done|].
  pose proof (holds_kind c _ Hc Hh) as Hf.
  assert (Hf6 : Z.lor (b_flags c) B_DIRTY = 6) by (by destruct Hf as [-> | ->]). rewrite Hf6 in C1.
  pose proof (lookup_lt_Some _ _ _ Hi) as Hlt. pose proof (set_cell_lookup _ _ _ _ _ C1 Hlt) as Hi1.
  assert (Hsz : b_blockno c < d_size (dsk s)) by (destruct (co_kind _ _ Hc) as [?|?]; lia).
  destruct (iderw_write s1 l i _ (sc_ring _ _ _ _ _ C1) Hi1) as (s' & E & R' & Ec & Ed & Ep);
    [done|done|done|by rewrite (sc_dsk _ _ _ _ _ C1)|].
  rewrite (sc_cells _ _ _ _ _ C1), list_insert_insert_eq in Ec. rewrite (sc_dsk _ _ _ _ _ C1) in Ed. cbn in Ed.
  rewrite Hn, Hv in Ed. change (set_flags 2 (set_flags 6 c)) with (set_flags 2 c) in Ec.
  assert (Huq : ∀ j x, cells s !! j = Some x → b_flags x = 6 → b_blockno x = n → j = i).
  { intros j x Hj Hx Hbn. apply (cs_uniq _ _ Hok j i x c); [done|done| |done|congruence].
    eapply dirty_dev; eauto using cs_ok. }
  exists tt, s'. split.
  { unfold bwrite. mrun (holding_cell _ _ _ Hi). replace (sl_locked (b_lock c)) with 1 by done. cbn [Z.eqb negb]. by mrun E1. }
  split_and!; [| done|by rewrite Ep; apply C1| | | | |].
  - split; [by exists l|]. rewrite Ec, Ed, <- Hn, <- Hv. by apply cells_ok_write.
  - exists (set_flags 2 c). split; [|done]. rewrite Ec. by apply list_lookup_insert_eq.
  - intros j m w Hj. unfold holds. rewrite Ec, list_lookup_insert_ne by done. done.
  - destruct (count_cells s s' i c _ Hi Ec) as [Ecn _]. unfold b2n in Ecn. rewrite !decide_True in Ecn by done. lia.
  - intros m w. rewrite Ec. split.
    + intros (j & x & [[-> ->]|[Hj Hx]]%lookup_insert_cases & Hfx & Hbn & Hw); [done|].
      split; [|by exists j, x]. intros ->. by destruct Hj; eapply Huq.
    + intros [Hm (j & x & Hj & Hfx & Hbn & Hw)]. exists j, x. split; [|done].
      rewrite list_lookup_insert_ne; [done|]. intros <-. rewrite Hi in Hj. injection Hj as <-. congruence.
  - destruct (count_cells s s' i c _ Hi Ec) as [_ Ecn]. unfold b2n, marked in Ecn. cbn in Ecn.
    destruct (decide (2 = 6)); [done|]. destruct (decide (b_flags c = 6)) as [E6|E6].
    + left. split; [exists v, i, c; done|lia].
    + right. split; [|lia]. intros (w & j & x & Hj & Hx & Hbn & _). assert (j = i) as -> by (by eapply Huq).
      rewrite Hi in Hj. injection Hj as <-. done.
Qed.

Lemma relinked_cells s s' : relinked s s' → cells s' = cells s.
Proof. intros (_ & _ & E). unfold cells. by rewrite !fmap_take, E. Qed.

(** Releasing a buffer makes it the most recently used one. *)
Lemma brelse_order s l1 i l2 c :
  ring s (l1 ++ i :: l2) → cells s !! i = Some c → is_held c → b_refcnt c = 1 →
  runs (brelse i) s (λ _ s', ring s' (i :: l1 ++ l2) ∧ dsk s' = dsk s ∧ bpid s' = bpid s ∧
    cells s' = <[i := set_refcnt 0 (set_lock (mk_sleep 0 0) c)]> (cells s)).
Proof.
  intros Hr Hi Hh Hrc. pose proof (lookup_lt_Some _ _ _ Hi) as Hlt.
  destruct (release_cell s _ i c Hr Hi) as (s1 & E1 & C1). pose proof (set_cell_lookup _ _ _ _ _ C1 Hlt) as Hi1.
  destruct (modbuf_cell s1 _ i _ (λ b, set_refcnt (u32 (b_refcnt b - 1)) b) (sc_ring _ _ _ _ _ C1) Hi1) as (s2 & E2 & C2); [done|].
  pose proof (set_cell_trans _ _ _ _ _ _ _ C1 C2) as C. cbn [b_refcnt set_lock] in C. rewrite Hrc in C.
  pose proof (set_cell_lookup _ _ _ _ _ C Hlt) as Hi2. destruct (getbuf_cell _ _ _ Hi2) as (b & Hb & _ & Es).
  destruct (to_front_spec s2 l1 i l2 (sc_ring _ _ _ _ _ C)) as ([] & s3 & E3 & R3 & L3).
  exists tt, s3. split.
  - unfold brelse. mrun (holding_cell _ _ _ Hi). rewrite Hh. cbn [Z.eqb negb]. mrun E1. mrun E2. mrun Hb.
    replace (b_refcnt b) with 0; [done|]. by apply (f_equal b_refcnt) in Es.
  - split; [done|]. rewrite (relinked_cells _ _ L3). destruct L3 as (-> & -> & _).
    split_and!; [apply C|apply C|]. rewrite (sc_cells _ _ _ _ _ C). done.
Qed.

(** A held buffer with the current contents of its block can be released. *)
Lemma brelse_run s i n v :
  binv s → holds s i n v → v = view s n →
  runs (brelse i) s (λ _ s', binv s' ∧ dsk s' = dsk s ∧ bpid s' = bpid s ∧
    (∀ m w, ¬ holds s' i m w) ∧ holds_but i s s' ∧ same_dirty s s' ∧ S (nheld s') = nheld s ∧ ndirty s' = ndirty s).
Proof.
  intros Hb (c & Hi & Hh & [Hd Hn] & Hv) Hview. pose proof Hb as [[l Hr] Hok]. pose proof (cs_ok _ _ Hok i c Hi) as Hc.
  pose proof (lookup_lt_Some _ _ _ Hi) as Hlt.
  assert (Hil : i ∈ l).
  { destruct (ring_nodup _ _ Hr) as (_ & Hin & _). apply Hin. by rewrite (cs_len _ _ Hok) in Hlt. }
  apply list_elem_of_split in Hil as (l1 & l2 & ->).
  eapply runs_mono; [eapply brelse_order; [done|done|done|by rewrite (co_ref _ _ Hc)]|].
  intros _ s' (R' & Ed & Ep & Ec). set (c' := set_refcnt 0 (set_lock (mk_sleep 0 0) c)) in *.
  split_and!; [|done|done| | | | |].
  - split; [by exists (i :: l1 ++ l2)|]. rewrite Ec, Ed. apply cells_ok_insert; [done| |].
    + destruct Hc as [H1 H2 H3 H4 _]. split; try done; cbn; [by left| |].
      * unfold is_held in Hh. destruct H4 as [?|?]; [lia|by right].
      * intros Hf _. rewrite Hv, Hview, Hn. apply cview_clean. intros j x Hj Hx Hbn.
        assert (j = i) as ->.
        { apply (cs_uniq _ _ Hok j i x c); [done|done| |done|congruence]. eapply dirty_dev; eauto using cs_ok. }
        rewrite Hi in Hj. injection Hj as <-. lia.
    + intros j x Hj Hne D1 _ E. apply Hne. by apply (cs_uniq _ _ Hok j i x c).
  - intros m w (x & Hx & Hhx & _). rewrite Ec, list_lookup_insert_eq in Hx by done. injection Hx as <-. done.
  - intros j m w Hj. unfold holds. rewrite Ec, list_lookup_insert_ne by done. done.
  - intros m w. rewrite Ec. by apply (dirty_at_insert _ i c).
  - destruct (count_cells s s' i c c' Hi Ec) as [E _]. unfold b2n in E. rewrite (decide_True (P:=is_held c)) in E by done.
    rewrite decide_False in E by done. lia.
  - destruct (count_cells s s' i c c' Hi Ec) as [_ E]. unfold b2n, marked in E. cbn in E.
    destruct (decide (b_flags c = 6)); lia.
Qed.

(** * Recycling *)

Lemma first_of_split f l i : first_of f l = Some i → ∃ l1 l2, l = l1 ++ i :: l2 ∧ ∀ x, x ∈ l1 → f x = false.
Proof.
  induction l as [|y l IH]; cbn; [done|]. destruct (f y) eqn:E.
  - intros [= ->]. exists [], l. split; [done|]. set_solver.
  - intros (l1 & l2 & -> & H)%IH. exists (y :: l1), l2. split; [done|]. intros x [->|Hx]%elem_of_cons; auto.
Qed.

(** Buffer [x] is held or dirty. *)
Definition in_use (s : bst) (x : nat) : Prop := ∃ c, cells s !! x = Some c ∧ (is_held c ∨ marked c).

Lemma not_unused s x b :
  cells_ok (cells s) (dsk s) → (x < 30)%nat → bufs s !! x = Some b →
  (b_refcnt b =? 0) && negb (tst (b_flags b) B_DIRTY) = false → in_use s x.
Proof.
  intros Hok Hx Hb Hf. pose proof (lookup_cells _ _ _ Hb Hx) as Hc. exists (strip b). split; [done|].
  pose proof (cs_ok _ _ Hok _ _ Hc) as [_ H2 H3 H4 _]. cbn in *. unfold is_held, marked. cbn. rewrite H2 in Hf.
  destruct H3 as [H3|H3]; rewrite H3 in Hf; [right|by left].
  destruct H4 as [(E & _)|(_ & _ & [E|E])]; [by rewrite E in Hf|by rewrite E in Hf|done].
Qed.

(** The recycled buffer is the least recently used of those not in use. *)
Lemma recycle_lru s l n :
  ring s l → cells_ok (cells s) (dsk s) → (∀ j x, cells s !! j = Some x → ¬ of_block n x) →
  (nheld s + ndirty s < 30)%nat →
  first_of (buf_is s (λ b, (b_dev b =? 1) && (b_blockno b =? n))) l = None ∧
  ∃ i c l1 l2, l = l1 ++ i :: l2 ∧ cells s !! i = Some c ∧ unlocked c ∧ b_flags c ≠ 6 ∧ (∀ x, x ∈ l2 → in_use s x) ∧
    first_of (buf_is s (λ b, (b_refcnt b =? 0) && negb (tst (b_flags b) B_DIRTY))) (reverse l) = Some i.
Proof.
  intros Hr Hok Hno Hcap. destruct (ring_nodup _ _ Hr) as (_ & Hin & Hlen).
  assert (Hbuf : ∀ x, x ∈ l → ∃ b, bufs s !! x = Some b ∧ (x < 30)%nat).
  { intros x Hx%Hin. destruct (lookup_lt_is_Some_2 (bufs s) x) as [b ?]; [lia|eauto]. }
  split.
  - destruct (first_of _ l) as [i|] eqn:E; [|done]. apply first_of_Some in E as [Hi Hb].
    destruct (Hbuf i Hi) as (b & Hib & Hlt). unfold buf_is in Hb. rewrite Hib in Hb.
    apply andb_true_iff in Hb as [Hd%Z.eqb_eq Hbn%Z.eqb_eq]. by destruct (Hno i (strip b) (lookup_cells _ _ _ Hib Hlt)).
  - destruct (first_of _ (reverse l)) as [i|] eqn:E.
    + pose proof (first_of_Some _ _ _ E) as [Hi Hb]. rewrite elem_of_reverse in Hi.
      apply first_of_split in E as (l2 & l1 & El & Hl2). destruct (Hbuf i Hi) as (b & Hib & Hlt).
      unfold buf_is in Hb. rewrite Hib in Hb. apply andb_true_iff in Hb as [Hrc%Z.eqb_eq Hf].
      pose proof (lookup_cells _ _ _ Hib Hlt) as Hic. pose proof (cs_ok _ _ Hok _ _ Hic) as Hc.
      apply (f_equal reverse) in El. rewrite reverse_involutive, reverse_app, reverse_cons in El.
      exists i, (strip b), (reverse l1), (reverse l2). split_and!; [|done| | | |done].
      * rewrite El. by rewrite <- app_assoc.
      * unfold unlocked. by rewrite <- (co_ref _ _ Hc).
      * cbn. intros Hx. by rewrite Hx in Hf.
      * intros x Hx. rewrite elem_of_reverse in Hx. assert (Hxl : x ∈ l) by (rewrite El; set_solver).
        destruct (Hbuf x Hxl) as (bx & Hbx & Hxlt). eapply not_unused; [done|done|done|].
        specialize (Hl2 x Hx). unfold buf_is in Hl2. by rewrite Hbx in Hl2.
    + exfalso. destruct (count_or is_held marked (cells s)) as (i & c & Hi & H1 & H2); [by rewrite (cs_len _ _ Hok)|].
      pose proof Hi as (b & Hb & Es & Hlt)%cells_lookup. apply Hin in Hlt as Hil.
      pose proof (first_of_None _ _ E i ltac:(by rewrite elem_of_reverse)) as Hf. unfold buf_is in Hf. rewrite Hb in Hf.
      destruct (not_unused s i b Hok Hlt Hb Hf) as (c' & Hc' & Hu). rewrite Hi in Hc'. injection Hc' as <-. tauto.
Qed.

(** C12. The buffer cache replaces by least recent use. Reading a block that is not
    cached and releasing it takes the buffer closest to the old end of the list
    that is neither held nor dirty, and leaves it at the new end, the others in
    their order. The buffer then has the current contents of the block, the
    contents of no block change, and there is still one buffer per block. *)
Theorem cache_lru s l n
  (Hring : ring s l) (Hinv : binv s) (Hn : 0 ≤ n < d_size (dsk s))
  (Hno : ∀ j x, cells s !! j = Some x → ¬ of_block n x) (Hcap : (nheld s + ndirty s < 30)%nat) :
  runs (i ← bread 1 n; brelse i;; mret i) s (λ i s', ∃ l1 l2,
    l = l1 ++ i :: l2 ∧ (∀ x, x ∈ l2 → in_use s x) ∧ ring s' (i :: l1 ++ l2) ∧ binv s' ∧
    (∃ c, cells s' !! i = Some c ∧ of_block n c ∧ b_data c = view s n) ∧ ∀ m, view s' m = view s m).
Proof.
  pose proof Hinv as [_ Hok].
  destruct (recycle_lru s l n Hring Hok Hno Hcap) as (E1 & i & c & l1 & l2 & -> & Hi & Hu & Hf & Hl2 & E2).
  destruct (bread_recycle s _ i c n Hring Hok Hi Hu Hf Hn Hno E1 E2) as (s1 & R1 & C1).
  pose proof (lookup_lt_Some _ _ _ Hi) as Hlt. pose proof (set_cell_lookup _ _ _ _ _ C1 Hlt) as Hi1.
  assert (Hb1 : binv s1). { eapply binv_held; [done|done|done|by right|by left|done|by apply cview_len]. }
  assert (Hd1 : same_dirty s s1).
  { intros m w. rewrite (sc_cells _ _ _ _ _ C1). apply (dirty_at_insert _ i c); [done|]. apply marked_iff; unfold marked; [|done].
    split; [done|]. intros H. by destruct Hf. }
  assert (Hv1 : ∀ m, view s1 m = view s m) by (intros m; apply view_same; [done|done|apply C1|done]).
  assert (Hh1 : holds s1 i n (view s n)) by (eexists; split; [exact Hi1|done]).
  destruct (brelse_order s1 l1 i l2 _ (sc_ring _ _ _ _ _ C1) Hi1) as ([] & s2 & R2 & O2 & D2 & _ & C2); [done|done|].
  destruct (brelse_run s1 i n _ Hb1 Hh1) as ([] & s2' & R2' & B2 & _ & _ & _ & _ & Sd & _); [by rewrite Hv1|].
  rewrite R2 in R2'. injection R2' as <-.
  exists i, s2. split; [mrun R1; by mrun R2|]. exists l1, l2. split_and!; [done|done|done|done| |].
  - eexists. split; [rewrite C2; apply list_lookup_insert_eq; by rewrite (set_cell_len _ _ _ _ _ C1)|]. done.
  - intros m. rewrite <- Hv1. by apply view_same.
Qed.
