(* ===== verification/Log.v ===== *)
(** The log (log.c): file-system calls as transactions on the disk. *)
From Stdlib Require Import ZArith Lia Bool.
From stdpp Require Import base tactics list strings sets gmap.
From S2P Require Import Prelude Machine Bio Cache.

(** * Data *)

(** [struct superblock] (fs.h). *)
Record superblock := mk_sb {
  sb_size : Z;
  sb_nblocks : Z;
  sb_ninodes : Z;
  sb_nlog : Z;
  sb_logstart : Z;
  sb_inodestart : Z;
  sb_bmapstart : Z }.

Definition sb_of (l : list Z) : superblock :=
  mk_sb (field l 0 4) (field l 4 4) (field l 8 4) (field l 12 4) (field l 16 4) (field l 20 4) (field l 24 4).

(** [struct log] with the header of the transaction in memory. *)
Record log := mk_log {
  lg_start : Z;
  lg_size : Z;
  lg_outstanding : Z;
  lg_committing : Z;
  lg_dev : Z;
  lh_n : Z;
  lh_block : list Z }.

Definition set_outstanding (v : Z) (l : log) : log := mk_log (lg_start l) (lg_size l) v (lg_committing l) (lg_dev l) (lh_n l) (lh_block l).
Definition set_committing (v : Z) (l : log) : log := mk_log (lg_start l) (lg_size l) (lg_outstanding l) v (lg_dev l) (lh_n l) (lh_block l).
Definition set_n (v : Z) (l : log) : log := mk_log (lg_start l) (lg_size l) (lg_outstanding l) (lg_committing l) (lg_dev l) v (lh_block l).
Definition set_block (v : list Z) (l : log) : log := mk_log (lg_start l) (lg_size l) (lg_outstanding l) (lg_committing l) (lg_dev l) (lh_n l) v.

(** The block layer: the cache over the disk, and the log. *)
Record lst := mk_lst { lb : bst; lg : log }.
Definition set_lb (b : bst) (s : lst) : lst := mk_lst b (lg s).
Definition set_lg (l : log) (s : lst) : lst := mk_lst (lb s) l.

Definition bio {A} (m : M bst A) : M lst A := zoom lb set_lb m.
Definition modlog (f : log → log) : M lst unit := modify (λ s, set_lg (f (lg s)) s).

(** The data of a buffer, and storing in it. *)
Definition bdata (i : nat) : M lst (list Z) := b ← bio (getbuf i); mret (b_data b).
Definition bstore (i : nat) (v : list Z) : M lst unit := bio (modbuf i (set_data v)).

(** [log.lh.block[i]]; outside the array it is a fault. *)
Definition lh_get (i : Z) : M lst Z := l ← gets lg; oget (nthZ (lh_block l) i).
Definition lh_set (i v : Z) : M lst unit :=
  l ← gets lg;
  if (0 <=? i) && (i <? LOGSIZE) then modlog (λ l, set_block (<[Z.to_nat i := v]> (lh_block l)) l) else fault.

(** * Installing and the header *)

(** The loop of install_trans for [n] more blocks. *)
Fixpoint install_loop (n : nat) (tail : Z) : M lst unit :=
  match n with
  | O => mret tt
  | S n =>
      l ← gets lg;
      lbuf ← bio (bread (lg_dev l) (lg_start l + tail + 1));
      b ← lh_get tail;
      dbuf ← bio (bread (lg_dev l) b);
      d ← bdata lbuf;
      bstore dbuf d;;
      bio (bwrite dbuf);;
      bio (brelse lbuf);;
      bio (brelse dbuf);;
      install_loop n (tail + 1)
  end.

Definition install_trans : M lst unit := l ← gets lg; install_loop (Z.to_nat (lh_n l)) 0.

(** The header in a block: the count and the block numbers. *)
Definition head_n (d : list Z) : Z := s32 (field d 0 4).
Definition head_block (d : list Z) (i : Z) : Z := s32 (field d (Z.to_nat (4 * i + 4)) 4).

Fixpoint read_loop (n : nat) (i : Z) (d : list Z) : M lst unit :=
  match n with
  | O => mret tt
  | S n => lh_set i (head_block d i);; read_loop n (i + 1) d
  end.

Definition read_head : M lst unit :=
  l ← gets lg;
  b ← bio (bread (lg_dev l) (lg_start l));
  d ← bdata b;
  modlog (set_n (head_n d));;
  read_loop (Z.to_nat (head_n d)) 0 d;;
  bio (brelse b).

Fixpoint write_loop (n : nat) (i : Z) (buf : nat) : M lst unit :=
  match n with
  | O => mret tt
  | S n =>
      v ← lh_get i;
      d ← bdata buf;
      bstore buf (splice d (Z.to_nat (4 * i + 4)) (word v));;
      write_loop n (i + 1) buf
  end.

Definition write_head : M lst unit :=
  l ← gets lg;
  b ← bio (bread (lg_dev l) (lg_start l));
  d ← bdata b;
  bstore b (splice d 0 (word (lh_n l)));;
  write_loop (Z.to_nat (lh_n l)) 0 b;;
  bio (bwrite b);;
  bio (brelse b).

Definition recover_from_log : M lst unit :=
  read_head;;
  install_trans;;
  modlog (set_n 0);;
  write_head.

(** readsb (fs.c): the super block is block 1. *)
Definition readsb (dev : Z) : M lst superblock :=
  b ← bio (bread dev 1);
  d ← bdata b;
  bio (brelse b);;
  mret (sb_of d).

(** [sizeof(struct logheader)] *)
Definition sizeof_logheader : Z := 4 * (LOGSIZE + 1).

Definition initlog (dev : Z) : M lst unit :=
  if BSIZE <=? sizeof_logheader then panic "initlog: too big logheader" else
  sb ← readsb dev;
  modlog (λ l, mk_log (sb_logstart sb) (sb_nlog sb) (lg_outstanding l) (lg_committing l) dev (lh_n l) (lh_block l));;
  recover_from_log.

(** * Transactions

    A process that finds no room sleeps; who is woken when there is room again is
    the business of sleep and wakeup (proc.c). *)

Definition begin_op : M lst unit :=
  l ← gets lg;
  if negb (lg_committing l =? 0) then blocked else
  if LOGSIZE <? lh_n l + (lg_outstanding l + 1) * MAXOPBLOCKS then blocked else
  modlog (set_outstanding (lg_outstanding l + 1)).

(** The loop of write_log for [n] more blocks. *)
Fixpoint write_log_loop (n : nat) (tail : Z) : M lst unit :=
  match n with
  | O => mret tt
  | S n =>
      l ← gets lg;
      to ← bio (bread (lg_dev l) (lg_start l + tail + 1));
      b ← lh_get tail;
      from ← bio (bread (lg_dev l) b);
      d ← bdata from;
      bstore to d;;
      bio (bwrite to);;
      bio (brelse from);;
      bio (brelse to);;
      write_log_loop n (tail + 1)
  end.

Definition write_log : M lst unit := l ← gets lg; write_log_loop (Z.to_nat (lh_n l)) 0.

Definition commit : M lst unit :=
  l ← gets lg;
  if 0 <? lh_n l then
    write_log;;
    write_head;;
    install_trans;;
    modlog (set_n 0);;
    write_head
  else mret tt.

Definition end_op : M lst unit :=
  l ← gets lg;
  modlog (set_outstanding (lg_outstanding l - 1));;
  if negb (lg_committing l =? 0) then panic "log.committing" else
  if lg_outstanding l - 1 =? 0 then
    modlog (set_committing 1);;
    commit;;
    modlog (set_committing 0)
  else mret tt.

(** The scan of log_write: the index of the block in the header, or [n]. *)
Fixpoint log_scan (n : nat) (i : Z) (bs : list Z) (b : Z) : Z :=
  match n, bs with
  | S n, x :: bs => if x =? b then i else log_scan n (i + 1) bs b
  | _, _ => i
  end.

Definition log_write (buf : nat) : M lst unit :=
  l ← gets lg;
  if (LOGSIZE <=? lh_n l) || (lg_size l - 1 <=? lh_n l) then panic "too big a transaction" else
  if lg_outstanding l <? 1 then panic "log_write outside of trans" else
  b ← bio (getbuf buf);
  let i := log_scan (Z.to_nat (lh_n l)) 0 (lh_block l) (b_blockno b) in
  lh_set i (b_blockno b);;
  (if i =? lh_n l then modlog (set_n (lh_n l + 1)) else mret tt);;
  bio (modbuf buf (λ b, set_flags (Z.lor (b_flags b) B_DIRTY) b)).
