(* ===== verification/Blocks.v ===== *)
(** What the file system uses of the block layer: an interface of operations, the
    abstract machine they promise to implement, and the laws that say so. The file
    system is written and verified against this interface; LogBlocks.v shows that
    the buffer cache and the log implement it. *)
From Stdlib Require Import ZArith Lia Bool.
From stdpp Require Import base tactics list strings sets gmap.
From S2P Require Import Prelude Machine Bio Log.

(** * Operations *)

Class BlockOps (B : Type) := {
  bk_bread : Z → Z → M B nat;
  (** the data of a buffer, and storing in it *)
  bk_data : nat → M B (list Z);
  bk_store : nat → list Z → M B unit;
  bk_log_write : nat → M B unit;
  bk_brelse : nat → M B unit;
  bk_readsb : Z → M B superblock;
  bk_begin_op : M B unit;
  bk_end_op : M B unit }.

(** * The abstract machine *)

(** The size of the disk in blocks and where the log starts on it. *)
Record geo := mk_geo { g_size : Z; g_start : Z }.

(** The blocks outside the log. *)
Definition at_home (g : geo) (n : Z) : Prop := 0 ≤ n < g_size g ∧ ¬ g_start g ≤ n < g_start g + LOGSIZE.
#[global] Instance at_home_dec g n : Decision (at_home g n).
Proof. unfold at_home. apply _. Defined.

(** The contents of the blocks, the buffers that are held with their blocks and
    contents, the blocks the transaction has changed, and how many file-system
    calls take part in it. *)
Record bview := mk_bview {
  v_blocks : Z → list Z;
  v_held : gmap nat (Z * list Z);
  v_logged : gset Z;
  v_open : Z;
  v_geo : geo }.

Definition set_block_v (n : Z) (v : list Z) (f : Z → list Z) : Z → list Z := λ m, if m =? n then v else f m.

(** Buffer [i] is taken for block [n]; it is filled with [v] and block [n] with it;
    it is given back. *)
Definition v_take (i : nat) (n : Z) (a : bview) : bview :=
  mk_bview (v_blocks a) (<[i := (n, v_blocks a n)]> (v_held a)) (v_logged a) (v_open a) (v_geo a).
Definition v_put (i : nat) (n : Z) (v : list Z) (a : bview) : bview :=
  mk_bview (set_block_v n v (v_blocks a)) (<[i := (n, v)]> (v_held a)) ({[n]} ∪ v_logged a) (v_open a) (v_geo a).
Definition v_drop (i : nat) (a : bview) : bview :=
  mk_bview (v_blocks a) (delete i (v_held a)) (v_logged a) (v_open a) (v_geo a).
Definition v_begin (a : bview) : bview :=
  mk_bview (v_blocks a) (v_held a) (v_logged a) (v_open a + 1) (v_geo a).
Definition v_end (a : bview) : bview :=
  mk_bview (v_blocks a) (v_held a) (if v_open a =? 1 then ∅ else v_logged a) (v_open a - 1) (v_geo a).

(** Block [n] is replaced by [w] and logged. *)
Definition v_upd (n : Z) (w : list Z) (a : bview) : bview :=
  mk_bview (set_block_v n w (v_blocks a)) (v_held a) ({[n]} ∪ v_logged a) (v_open a) (v_geo a).

Lemma v_drop_take i n a : v_held a !! i = None → v_drop i (v_take i n a) = a.
Proof. intros H. destruct a. unfold v_drop, v_take. cbn in *. by rewrite delete_insert_id. Qed.
Lemma v_drop_put i n w a : v_held a !! i = None → v_drop i (v_put i n w (v_take i n a)) = v_upd n w a.
Proof. intros H. destruct a. unfold v_drop, v_put, v_take, v_upd. cbn in *. by rewrite insert_insert_eq, delete_insert_id. Qed.

Lemma held_take i n a : v_held (v_take i n a) !! i = Some (n, v_blocks a n).
Proof. cbn. apply lookup_insert_eq. Qed.
Lemma held_put i n w a : v_held (v_put i n w a) !! i = Some (n, v_blocks (v_put i n w a) n).
Proof. cbn. unfold set_block_v. by rewrite Z.eqb_refl, lookup_insert_eq. Qed.

(** Block [n] is not held. *)
Definition v_free (a : bview) (n : Z) : Prop := ∀ i v, v_held a !! i ≠ Some (n, v).
(** A buffer is left for another block. *)
Definition v_room (a : bview) : Prop := (size (v_held a) + size (v_logged a) < 30)%nat.
(** The transaction can still log a block. *)
Definition v_logs (a : bview) : Prop := (size (v_logged a) < 29)%nat ∧ 1 ≤ v_open a.

(** * Laws *)

Class BlockLaws (B : Type) {BO : BlockOps B} := {
  bk_ok : B → Prop;
  bk_abs : B → bview;
  bk_len s n : bk_ok s → at_home (v_geo (bk_abs s)) n → length (v_blocks (bk_abs s) n) = Z.to_nat BSIZE;
  bk_bread_run s n :
    bk_ok s → at_home (v_geo (bk_abs s)) n → v_free (bk_abs s) n → v_room (bk_abs s) →
    runs (bk_bread 1 n) s (λ i s', bk_ok s' ∧ v_held (bk_abs s) !! i = None ∧ bk_abs s' = v_take i n (bk_abs s));
  bk_data_run s i n v :
    bk_ok s → v_held (bk_abs s) !! i = Some (n, v) → runs (bk_data i) s (λ w s', w = v ∧ s' = s);
  bk_write_run s i n v w :
    bk_ok s → v_held (bk_abs s) !! i = Some (n, v) → length w = Z.to_nat BSIZE → v_logs (bk_abs s) →
    runs (bk_store i w;; bk_log_write i) s (λ _ s', bk_ok s' ∧ bk_abs s' = v_put i n w (bk_abs s));
  bk_brelse_run s i n :
    bk_ok s → v_held (bk_abs s) !! i = Some (n, v_blocks (bk_abs s) n) →
    runs (bk_brelse i) s (λ _ s', bk_ok s' ∧ bk_abs s' = v_drop i (bk_abs s));
  bk_readsb_run s :
    bk_ok s → at_home (v_geo (bk_abs s)) 1 → v_free (bk_abs s) 1 → v_room (bk_abs s) →
    runs (bk_readsb 1) s (λ sb s', bk_ok s' ∧ sb = sb_of (v_blocks (bk_abs s) 1) ∧ bk_abs s' = bk_abs s);
  bk_begin_run s :
    bk_ok s → Z.of_nat (size (v_logged (bk_abs s))) + (v_open (bk_abs s) + 1) * MAXOPBLOCKS ≤ LOGSIZE →
    runs bk_begin_op s (λ _ s', bk_ok s' ∧ bk_abs s' = v_begin (bk_abs s));
  bk_end_run s :
    bk_ok s → 1 ≤ v_open (bk_abs s) → v_held (bk_abs s) = ∅ →
    runs bk_end_op s (λ _ s', bk_ok s' ∧ bk_abs s' = v_end (bk_abs s)) }.
