(* ===== verification/LogCrash.v ===== *)
(** The log makes transactions atomic (log.c): whatever write to the disk is the
    last before a crash, recovery finds all of a transaction or nothing of it. *)
From Stdlib Require Import ZArith Lia Bool.
From stdpp Require Import base tactics list strings sets gmap.
From S2P Require Import Prelude Machine Bio Cache Log.

(** * Running buffer operations in the block layer *)

Lemma runs_bio {A} (m : M bst A) s Q : runs m (lb s) (λ a b, Q a (set_lb b s)) → runs (bio m) s Q.
Proof. apply runs_zoom. Qed.

Lemma set_lb_lb s : set_lb (lb s) s = s.
Proof. by destruct s. Qed.

Lemma bdata_run s i n v Q : holds (lb s) i n v → Q v s → runs (bdata i) s Q.
Proof.
  intros (c & Hi & _ & _ & <-) HQ. destruct (getbuf_cell _ _ _ Hi) as (b & Hb & _ & <-).
  unfold bdata. mstep. apply runs_bio. exists b, (lb s). split; [done|]. rewrite set_lb_lb. by apply runs_ret.
Qed.

Lemma lh_get_run s i v Q : nthZ (lh_block (lg s)) i = Some v → Q v s → runs (lh_get i) s Q.
Proof. intros H HQ. unfold lh_get. mstep. apply runs_gets. by apply (runs_oget _ v). Qed.

(** Nothing is held. *)
Lemma none_held s : nheld s = 0%nat → ∀ i n v, ¬ holds s i n v.
Proof.
  intros H i n v (c & Hi & Hh & _). unfold nheld in H. apply length_zero_iff_nil in H.
  assert (Hin : c ∈ filter is_held (cells s)) by (apply list_elem_of_filter; split; [done|by eapply list_elem_of_lookup_2]).
  rewrite H in Hin. by apply not_elem_of_nil in Hin.
Qed.

Lemma none_dirty s : ndirty s = 0%nat → ∀ n, ¬ dirty s n.
Proof.
  intros H n (v & i & c & Hi & Hf & _). unfold ndirty in H. apply length_zero_iff_nil in H.
  assert (Hin : c ∈ filter marked (cells s)) by (apply list_elem_of_filter; split; [done|by eapply list_elem_of_lookup_2]).
  rewrite H in Hin. by apply not_elem_of_nil in Hin.
Qed.

(** A buffer is held for one block. *)
Lemma holds_inj s i n v n' v' : holds s i n v → holds s i n' v' → n = n' ∧ v = v'.
Proof. intros (c & Hi & _ & [_ <-] & <-) (c' & Hi' & _ & [_ <-] & <-). by simplify_eq. Qed.

Lemma view_disk s n : ¬ dirty s n → view s n = d_block (dsk s) n.
Proof.
  intros H. apply cview_clean. intros i c Hi Hf Hb. apply H. exists (b_data c), i, c. done.
Qed.

(** Several steps of a run, the buffers named by what they hold. *)
Ltac bstep lem := mstep; apply runs_bio; eapply runs_mono; [eapply lem|].

(** ** Copying one block to another through the cache *)

(** Storing [v] in the buffer of [Y], writing it, and releasing both. *)
Lemma write_both s b i j X Y v w (K : M lst unit) (Q : unit → lst → Prop) :
  i ≠ j → X ≠ Y → binv b → nheld b = 2%nat → holds b i X (view b X) → holds b j Y w → length v = Z.to_nat BSIZE →
  (∀ b', binv b' → nheld b' = 0%nat → dsk b' = d_write Y v (dsk b) → bpid b' = bpid b →
     (∀ m u, dirty_at (cells b') m u ↔ m ≠ Y ∧ dirty_at (cells b) m u) →
     (dirty b Y ∧ S (ndirty b') = ndirty b ∨ ¬ dirty b Y ∧ ndirty b' = ndirty b) → runs K (set_lb b' s) Q) →
  runs (bstore j v;; bio (bwrite j);; bio (brelse i);; bio (brelse j);; K) (set_lb b s) Q.
Proof.
  intros Hij HXY B0 E0 H0 H1 Hv HK. bstep (store_run _ j Y _ v B0 H1 Hv).
  intros _ b1 (B1 & D1 & P1 & H1' & O1 & E1 & F1 & S1). cbn beta.
  bstep (bwrite_run _ _ _ _ B1 H1').
  intros _ b2 (B2 & D2 & P2 & H2 & O2 & E2 & S2 & F2). cbn beta.
  assert (Sd : ∀ m u, dirty_at (cells b2) m u ↔ m ≠ Y ∧ dirty_at (cells b) m u).
  { intros m u. rewrite S2, S1. destruct (Z.eqb_spec m Y); naive_solver. }
  assert (Hi2 : holds b2 i X (view b X)) by (by apply O2, O1).
  bstep (brelse_run _ _ _ _ B2 Hi2).
  { symmetry. apply cview_ext; [apply B0|apply B2| |].
    - intros u. rewrite Sd. naive_solver.
    - intros _. rewrite D2, d_block_write, D1. by rewrite (proj2 (Z.eqb_neq _ _)). }
  intros _ b3 (B3 & D3 & P3 & N3 & O3 & S3 & E3 & F3). cbn beta.
  assert (Hj3 : holds b3 j Y v) by (by apply O3).
  bstep (brelse_run _ _ _ _ B3 Hj3).
  { symmetry. rewrite view_disk.
    - by rewrite D3, D2, d_block_write, Z.eqb_refl.
    - intros (u & Hu). apply S3, Sd in Hu. naive_solver. }
  intros _ b4 (B4 & D4 & P4 & N4 & O4 & S4 & E4 & F4). cbn beta.
  apply HK; [done|lia|by rewrite D4, D3, D2, D1|congruence| |].
  - intros m u. by rewrite (S4 m u), (S3 m u).
  - rewrite F4, F3. assert (Hd : dirty b1 Y ↔ dirty b Y).
    { split; intros [u Hu]; [|exists v]; [apply S1 in Hu|apply S1]; rewrite Z.eqb_refl in *; [apply Hu|by split; [exists u|]]. }
    destruct F2 as [[? ?]|[? ?]]; [left|right]; rewrite <- Hd; split; auto; lia.
Qed.

Section copy.
  Context (s : lst) (A B : Z).
  Hypothesis Hb : binv (lb s).
  Hypothesis Hh : nheld (lb s) = 0%nat.
  Hypothesis HA : 0 ≤ A < d_size (dsk (lb s)).
  Hypothesis HB : 0 ≤ B < d_size (dsk (lb s)).
  Hypothesis HAB : A ≠ B.

(** What copying leaves: [B] written to the disk with the contents [v]. *)
Definition copied (v : list Z) (b : bst) : Prop :=
  binv b ∧ nheld b = 0%nat ∧ dsk b = d_write B v (dsk (lb s)) ∧ bpid b = bpid (lb s) ∧
  (∀ m w, dirty_at (cells b) m w ↔ m ≠ B ∧ dirty_at (cells (lb s)) m w) ∧
  (dirty (lb s) B ∧ S (ndirty b) = ndirty (lb s) ∨ ¬ dirty (lb s) B ∧ ndirty b = ndirty (lb s)).

(** Both blocks in the cache: the buffers, and that nothing else changed. *)
Lemma read_both k (K : nat → nat → M lst unit) (Q : unit → lst → Prop) :
  nthZ (lh_block (lg s)) k = Some B →
  dirty (lb s) A ∨ (ndirty (lb s) < 30)%nat → dirty (lb s) B ∨ (ndirty (lb s) < 29)%nat →
  (∀ i j b, i ≠ j → binv b → dsk b = dsk (lb s) → bpid b = bpid (lb s) → nheld b = 2%nat → ndirty b = ndirty (lb s) →
     same_dirty (lb s) b → holds b i A (view (lb s) A) → holds b j B (view (lb s) B) → runs (K i j) (set_lb b s) Q) →
  runs (i ← bio (bread 1 A); b ← lh_get k; j ← bio (bread 1 b); K i j) s Q.
Proof.
  intros Hk CA CB HK. bstep (bread_run _ A Hb HA (λ i, none_held _ Hh i A)).
  { destruct CA; [by left|right; lia]. }
  intros i b1 (B1 & D1 & P1 & H1 & N1 & O1 & S1 & E1 & F1). cbn beta.
  mstep. apply (lh_get_run _ _ B); [done|].
  assert (Hno : ∀ j v, ¬ holds b1 j B v).
  { intros j v Hj. destruct (decide (j = i)) as [->|Hne].
    - destruct (holds_inj _ _ _ _ _ _ H1 Hj). done.
    - apply O1 in Hj; [|done]. by apply (none_held _ Hh) in Hj. }
  bstep (bread_run b1 B B1); [by rewrite D1|done| |].
  { destruct CB as [(v & HBd)|?]; [left; exists v; by apply S1|right; rewrite F1, E1, Hh; lia]. }
  intros j b2 (B2 & D2 & P2 & H2 & N2 & O2 & S2 & E2 & F2). cbn beta.
  assert (Hij : i ≠ j) by (intros <-; by apply N2 in H1).
  apply HK; [done|done|congruence|congruence|lia|congruence| | |].
  - intros m w. by rewrite (S2 m w), (S1 m w).
  - by apply O2.
  - by rewrite <- (view_same _ _ B Hb B1 D1 S1).
Qed.

End copy.

(** * The loops of the log *)

(** The log lies on the disk, in NLOG blocks from [lg_start]: the header and then
    the copies. *)
Definition NLOG : Z := LOGSIZE.
Record geometry (l : log) (d : disk) : Prop := {
  ge_dev : lg_dev l = 1;
  ge_start : 0 ≤ lg_start l;
  ge_end : lg_start l + NLOG ≤ d_size d;
  ge_len : length (lh_block l) = Z.to_nat LOGSIZE }.

Definition in_log (l : log) (n : Z) : Prop := lg_start l ≤ n < lg_start l + NLOG.
Definition home (l : log) (d : disk) (n : Z) : Prop := 0 ≤ n < d_size d ∧ ¬ in_log l n.

(** The block numbers [bs] are in the header of the transaction from index [k]. *)
Definition listed (l : log) (k : Z) (bs : list Z) : Prop :=
  ∀ j b, bs !! j = Some b → nthZ (lh_block l) (k + Z.of_nat j) = Some b.

(** A sequence of writes to the disk, the first one first. *)
Definition write_all (ws : list (Z * list Z)) (d : disk) : disk := foldl (λ d w, d_write w.1 w.2 d) d ws.

(** The writes that copy the blocks [bs] to the log from block [a] on, and those
    that copy the log from [a] on to the blocks [bs]. *)
Fixpoint to_log (f : Z → list Z) (a : Z) (bs : list Z) : list (Z * list Z) :=
  match bs with [] => [] | b :: bs => (a, f b) :: to_log f (a + 1) bs end.
Fixpoint from_log (f : Z → list Z) (a : Z) (bs : list Z) : list (Z * list Z) :=
  match bs with [] => [] | b :: bs => (b, f a) :: from_log f (a + 1) bs end.

Lemma to_log_ext f g a bs : (∀ b, b ∈ bs → f b = g b) → to_log f a bs = to_log g a bs.
Proof.
  revert a. induction bs as [|b bs IH]; intros a H; cbn; [done|]. rewrite H, IH; [done|set_solver|set_solver].
Qed.

Lemma from_log_ext f g a bs :
  (∀ c, a ≤ c < a + Z.of_nat (length bs) → f c = g c) → from_log f a bs = from_log g a bs.
Proof.
  revert a. induction bs as [|b bs IH]; intros a H; cbn [from_log length] in *; [done|].
  rewrite H by lia. f_equal. apply IH. intros c Hc. apply H. lia.
Qed.

Lemma listed_cons l k b bs : listed l k (b :: bs) → nthZ (lh_block l) k = Some b ∧ listed l (k + 1) bs.
Proof.
  intros H. split.
  - specialize (H 0%nat b eq_refl). by rewrite Z.add_0_r in H.
  - intros j c Hc. specialize (H (S j) c Hc). replace (k + 1 + Z.of_nat j) with (k + Z.of_nat (S j)) by lia. done.
Qed.

(** Nothing is held and [ds] are the dirty blocks. *)
Record quiet (b : bst) (ds : list Z) : Prop := {
  qt_inv : binv b;
  qt_held : nheld b = 0%nat;
  qt_dirty : ∀ m, dirty b m ↔ m ∈ ds;
  qt_count : ndirty b = length ds }.

(** The dirty blocks after the first of them was written. *)
Lemma quiet_write b1 b2 b ds bs :
  (∀ m, dirty b1 m ↔ m ∈ ds) → ndirty b1 = length ds → binv b2 → nheld b2 = 0%nat →
  (∀ m w, dirty_at (cells b2) m w ↔ m ≠ b ∧ dirty_at (cells b1) m w) →
  (dirty b1 b ∧ S (ndirty b2) = ndirty b1 ∨ ¬ dirty b1 b ∧ ndirty b2 = ndirty b1) →
  b ∉ bs → ds = [] ∨ ds = b :: bs → quiet b2 (if decide (ds = []) then [] else bs).
Proof.
  intros Hd Hc B2 E2 S2 F2 Hb Hds.
  assert (Hd2 : ∀ m, dirty b2 m ↔ m ≠ b ∧ m ∈ ds).
  { intros m. rewrite <- Hd. split.
    - intros [w [? ?]%S2]. split; [done|by exists w].
    - intros [? [w ?]]. exists w. by apply S2. }
  rewrite Hd, Hc in F2. destruct Hds as [-> | ->].
  - rewrite decide_True by done. split; [done|done| |].
    + intros m. rewrite Hd2. set_solver.
    + destruct F2 as [[Hx _]|[_ ?]]; [by apply not_elem_of_nil in Hx|done].
  - rewrite decide_False by done. split; [done|done| |].
    + intros m. rewrite Hd2. set_solver.
    + cbn in F2. destruct F2 as [[_ ?]|[Hx _]]; [lia|set_solver].
Qed.

(** Writing a home block does not change what the log says. *)
Lemma from_log_write l d b v a bs :
  ¬ in_log l b → lg_start l ≤ a → a + Z.of_nat (length bs) ≤ lg_start l + NLOG →
  from_log (d_block (d_write b v d)) a bs = from_log (d_block d) a bs.
Proof.
  intros Hb H1 H2. apply from_log_ext. intros c Hc. rewrite d_block_write. rewrite (proj2 (Z.eqb_neq b c)); [done|].
  intros <-. apply Hb. unfold in_log. lia.
Qed.

Lemma install_loop_run bs : ∀ tail s ds,
  quiet (lb s) ds → geometry (lg s) (dsk (lb s)) → 0 ≤ tail → tail + Z.of_nat (length bs) < NLOG →
  listed (lg s) tail bs → Forall (home (lg s) (dsk (lb s))) bs → NoDup bs → ds = [] ∨ ds = bs →
  runs (install_loop (length bs) tail) s (λ _ s', lg s' = lg s ∧ quiet (lb s') [] ∧ bpid (lb s') = bpid (lb s) ∧
    dsk (lb s') = write_all (from_log (d_block (dsk (lb s))) (lg_start (lg s) + tail + 1) bs) (dsk (lb s))).
Proof.
  induction bs as [|b bs IH]; intros tail s ds [Q1 Q2 Q3 Q4] G Ht Hn Hl Hh Hnd Hds; cbn [length install_loop].
  { apply runs_ret. split; [done|]. split; [|done]. destruct Hds as [-> | ->]; by split. }
  cbn [length] in Hn. apply Forall_cons in Hh as [[Hb1 Hb2] Hh]. apply NoDup_cons in Hnd as [Hnb Hnd].
  apply listed_cons in Hl as [Hl0 Hl]. destruct G as [G1 G2 G3 G4]. unfold NLOG, LOGSIZE, MAXOPBLOCKS in *.
  set (A := lg_start (lg s) + tail + 1). assert (HA : ¬ dirty (lb s) A).
  { rewrite Q3. intros HA. assert (HA' : home (lg s) (dsk (lb s)) A).
    { destruct Hds as [-> | ->]; [by apply not_elem_of_nil in HA|]. apply elem_of_cons in HA as [->|HA]; [done|].
      rewrite Forall_forall in Hh. by apply Hh. }
    apply HA'. unfold in_log, NLOG, LOGSIZE, MAXOPBLOCKS, A. lia. }
  assert (HAb : A ≠ b). { intros <-. apply Hb2. unfold in_log, NLOG, LOGSIZE, MAXOPBLOCKS, A. lia. }
  assert (Hlen : (length ds ≤ S (length bs))%nat) by (destruct Hds as [-> | ->]; cbn; lia).
  mstep. apply runs_gets. rewrite G1. fold A.
  apply (read_both s A b Q1 Q2); [lia|done|done|done|right; lia| |].
  { destruct Hds as [-> | ->]; [right; cbn in Q4; lia|left; apply Q3; set_solver]. }
  intros i j b1 Hij B1 D1 P1 E1 F1 S1 Hi Hj. mstep. apply (bdata_run _ i A (view (lb s) A)); [done|].
  apply (write_both _ _ _ _ A b _ (view (lb s) b)); [done|done|done|done| |done|apply cview_len, Q1|].
  { by rewrite (view_same _ _ A Q1 B1 D1 S1). }
  intros b2 B2 E2 D2 P2 S2 F2. rewrite D1 in D2. rewrite (view_disk _ _ HA) in D2.
  assert (Hd1 : ∀ m, dirty b1 m ↔ dirty (lb s) m) by (intros m; split; intros [w Hw]; exists w; by apply S1).
  eapply runs_mono; [apply (IH (tail + 1) (set_lb b2 s) (if decide (ds = []) then [] else bs))|].
  - cbn. eapply quiet_write; [|by rewrite F1|done|done|done|done|done|done]. intros m. by rewrite Hd1.
  - cbn. rewrite D2. by split.
  - lia.
  - unfold NLOG, LOGSIZE, MAXOPBLOCKS. lia.
  - done.
  - cbn. rewrite D2. done.
  - done.
  - destruct (decide (ds = [])); auto.
  - cbn. intros _ s' (L' & Q' & P' & D'). split; [done|]. split; [done|]. split; [congruence|].
    rewrite D', D2. replace (lg_start (lg s) + (tail + 1) + 1) with (A + 1) by (unfold A; lia).
    rewrite (from_log_write (lg s)); [done|done| |]; unfold A, NLOG, LOGSIZE, MAXOPBLOCKS; lia.
Qed.

Lemma write_log_loop_run bs : ∀ tail s ds,
  quiet (lb s) ds → geometry (lg s) (dsk (lb s)) → 0 ≤ tail → tail + Z.of_nat (length bs) < NLOG →
  listed (lg s) tail bs → Forall (home (lg s) (dsk (lb s))) ds → (∀ b, b ∈ bs → b ∈ ds) → Z.of_nat (length ds) < NLOG →
  runs (write_log_loop (length bs) tail) s (λ _ s', lg s' = lg s ∧ quiet (lb s') ds ∧ bpid (lb s') = bpid (lb s) ∧
    (∀ m w, dirty_at (cells (lb s')) m w ↔ dirty_at (cells (lb s)) m w) ∧
    dsk (lb s') = write_all (to_log (view (lb s)) (lg_start (lg s) + tail + 1) bs) (dsk (lb s))).
Proof.
  induction bs as [|b bs IH]; intros tail s ds Q G Ht Hn Hl Hh Hbs Hlen; cbn [length write_log_loop].
  { by apply runs_ret. }
  cbn [length] in Hn. apply listed_cons in Hl as [Hl0 Hl]. pose proof Q as [Q1 Q2 Q3 Q4].
  pose proof G as [G1 G2 G3 G4]. unfold NLOG, LOGSIZE, MAXOPBLOCKS in *.
  set (A := lg_start (lg s) + tail + 1). rewrite Forall_forall in Hh.
  assert (HAl : in_log (lg s) A) by (unfold in_log, NLOG, LOGSIZE, MAXOPBLOCKS, A; lia).
  assert (HAd : ¬ dirty (lb s) A). { rewrite Q3. intros HA. by destruct (Hh A HA). }
  assert (Hbd : b ∈ ds) by (apply Hbs; by left). destruct (Hh b Hbd) as [Hb1 Hb2]. assert (HAb : A ≠ b) by congruence.
  mstep. apply runs_gets. rewrite G1. fold A.
  apply (read_both s A b Q1 Q2); [unfold in_log in HAl; lia|done|done|done|right; lia|by left; apply Q3|].
  intros i j b1 Hij B1 D1 P1 E1 F1 S1 Hi Hj. mstep. apply (bdata_run _ j b (view (lb s) b)); [done|].
  apply (write_both _ _ _ _ b A _ (view (lb s) A)); [done|done|done|done| |done|apply cview_len, Q1|].
  { by rewrite (view_same _ _ b Q1 B1 D1 S1). }
  intros b2 B2 E2 D2 P2 S2 F2. rewrite D1 in D2.
  assert (Sd : ∀ m w, dirty_at (cells b2) m w ↔ dirty_at (cells (lb s)) m w).
  { intros m w. rewrite S2, (S1 m w). split; [by intros [_ ?]|]. intros Hw. split; [|done]. intros ->.
    apply HAd. by exists w. }
  assert (Hd1 : ∀ m, dirty b1 m ↔ dirty (lb s) m) by (intros m; split; intros [w Hw]; exists w; by apply S1).
  assert (Hv : ∀ c, c ∈ ds → view b2 c = view (lb s) c).
  { intros c Hc. apply cview_ext; [apply Q1|apply B2|apply Sd|]. intros Hnd. apply Q3 in Hc as [w Hw]. by destruct (Hnd w). }
  eapply runs_mono; [apply (IH (tail + 1) (set_lb b2 s) ds)|].
  - split; [done|done| |].
    + intros m. rewrite <- Q3. split; intros [w Hw]; exists w; by apply Sd.
    + cbn. destruct F2 as [[Hx _]|[_ ->]]; [by apply Hd1 in Hx|]. by rewrite F1.
  - cbn. rewrite D2. by split.
  - lia.
  - unfold NLOG, LOGSIZE, MAXOPBLOCKS. lia.
  - done.
  - rewrite Forall_forall. cbn. rewrite D2. intros c Hc. by apply Hh.
  - intros c Hc. apply Hbs. by right.
  - done.
  - cbn. intros _ s' (L' & Q' & P' & S' & D'). split_and!; [done|done|congruence| |].
    + intros m w. by rewrite S', Sd.
    + rewrite D', D2. replace (lg_start (lg s) + (tail + 1) + 1) with (A + 1) by (unfold A; lia).
      rewrite (to_log_ext _ (view (lb s))); [done|]. intros c Hc. apply Hv, Hbs. by right.
Qed.

(** * The header *)

(** The block numbers [bs] stored in a header block from index [i], and the whole
    header. *)
Fixpoint put_blocks (i : Z) (bs d : list Z) : list Z :=
  match bs with
  | [] => d
  | b :: bs => put_blocks (i + 1) bs (splice d (Z.to_nat (4 * i + 4)) (word b))
  end.
Definition put_head (bs d : list Z) : list Z := put_blocks 0 bs (splice d 0 (word (Z.of_nat (length bs)))).

Lemma put_blocks_len i bs d :
  0 ≤ i → 4 * (i + Z.of_nat (length bs) + 1) ≤ Z.of_nat (length d) → length (put_blocks i bs d) = length d.
Proof.
  revert i d. induction bs as [|b bs IH]; intros i d Hi Hl; cbn [put_blocks length] in *; [done|].
  assert (E : length (splice d (Z.to_nat (4 * i + 4)) (word b)) = length d) by (apply length_splice; cbn; lia).
  rewrite IH; lia.
Qed.

(** The fields before index [i] are not touched. *)
Lemma put_blocks_before i bs d o n :
  0 ≤ i → 4 * (i + Z.of_nat (length bs) + 1) ≤ Z.of_nat (length d) → Z.of_nat (o + n) ≤ 4 * i + 4 →
  field (put_blocks i bs d) o n = field d o n.
Proof.
  revert i d. induction bs as [|b bs IH]; intros i d Hi Hl Ho; cbn [put_blocks length] in *; [done|].
  assert (E : length (splice d (Z.to_nat (4 * i + 4)) (word b)) = length d) by (apply length_splice; cbn; lia).
  rewrite IH by lia. unfold field. f_equal. apply splice_other; lia.
Qed.

Lemma put_blocks_at i bs d j b :
  0 ≤ i → 4 * (i + Z.of_nat (length bs) + 1) ≤ Z.of_nat (length d) → bs !! j = Some b →
  field (put_blocks i bs d) (Z.to_nat (4 * (i + Z.of_nat j) + 4)) 4 = u32 b.
Proof.
  revert i d j. induction bs as [|c bs IH]; intros i d j Hi Hl Hj; cbn [put_blocks length] in *; [done|].
  assert (E : length (splice d (Z.to_nat (4 * i + 4)) (word c)) = length d) by (apply length_splice; cbn; lia).
  destruct j as [|j]; cbn in Hj.
  - injection Hj as ->. rewrite put_blocks_before by lia. unfold field. rewrite Z.add_0_r.
    change 4%nat with (length (word b)) at 1. rewrite splice_same by lia. apply le_word.
  - replace (i + Z.of_nat (S j)) with (i + 1 + Z.of_nat j) by lia. apply IH; [lia|lia|done].
Qed.

Lemma put_head_len bs d : length d = Z.to_nat BSIZE → (length bs ≤ 30)%nat → length (put_head bs d) = Z.to_nat BSIZE.
Proof.
  intros Hd Hb. assert (E : length (splice d 0 (word (Z.of_nat (length bs)))) = length d).
  { apply length_splice. rewrite Hd. unfold BSIZE. cbn [length word]. lia. }
  unfold put_head. unfold BSIZE in *. rewrite put_blocks_len; lia.
Qed.

Lemma head_n_put bs d : length d = Z.to_nat BSIZE → (length bs ≤ 30)%nat → head_n (put_head bs d) = Z.of_nat (length bs).
Proof.
  intros Hd Hb. assert (E : length (splice d 0 (word (Z.of_nat (length bs)))) = length d).
  { apply length_splice. rewrite Hd. unfold BSIZE. cbn [length word]. lia. }
  unfold BSIZE in *. unfold head_n, put_head. rewrite put_blocks_before by lia. unfold field.
  change 4%nat with (length (word (Z.of_nat (length bs)))) at 1.
  rewrite splice_same, le_word, u32_small by lia. apply s32_small. lia.
Qed.

Lemma head_block_put bs d j b :
  length d = Z.to_nat BSIZE → (length bs ≤ 30)%nat → bs !! j = Some b → 0 ≤ b < 2 ^ 31 →
  head_block (put_head bs d) (Z.of_nat j) = b.
Proof.
  intros Hd Hb Hj Hr. assert (E : length (splice d 0 (word (Z.of_nat (length bs)))) = length d).
  { apply length_splice. rewrite Hd. unfold BSIZE. cbn [length word]. lia. }
  unfold BSIZE in *. unfold head_block, put_head. replace (Z.of_nat j) with (0 + Z.of_nat j) by lia.
  rewrite (put_blocks_at 0 bs _ j b) by (done || lia). rewrite u32_small by lia. apply s32_small. lia.
Qed.

(** The states agree in what is dirty and on the disk. *)
Definition settled (b b' : bst) : Prop := binv b' ∧ dsk b' = dsk b ∧ bpid b' = bpid b ∧ ndirty b' = ndirty b ∧ same_dirty b b'.

Lemma write_loop_run bs : ∀ i s buf n d,
  binv (lb s) → holds (lb s) buf n d → ¬ dirty (lb s) n → listed (lg s) i bs →
  0 ≤ i → 4 * (i + Z.of_nat (length bs) + 1) ≤ Z.of_nat (length d) → length d = Z.to_nat BSIZE →
  runs (write_loop (length bs) i buf) s (λ _ s', lg s' = lg s ∧ settled (lb s) (lb s') ∧ nheld (lb s') = nheld (lb s) ∧
    holds (lb s') buf n (put_blocks i bs d)).
Proof.
  induction bs as [|b bs IH]; intros i s buf n d Hb Hh Hd Hl Hi Hlen Hd512; cbn [length write_loop].
  { apply runs_ret. split_and!; done. }
  apply listed_cons in Hl as [Hl0 Hl]. cbn [length] in Hlen.
  assert (E : length (splice d (Z.to_nat (4 * i + 4)) (word b)) = length d) by (apply length_splice; cbn; lia).
  mstep. apply (lh_get_run _ _ b); [done|]. mstep. apply (bdata_run _ buf n d); [done|].
  bstep (store_run _ buf n d (splice d (Z.to_nat (4 * i + 4)) (word b)) Hb Hh); [by rewrite E|].
  intros _ b1 (B1 & D1 & P1 & H1 & O1 & E1 & F1 & S1). cbn beta.
  assert (Sd : same_dirty (lb s) b1).
  { intros m w. rewrite S1. destruct (Z.eqb_spec m n) as [->|]; [|done]. split; [by intros [? _]|].
    intros Hw. destruct Hd. by exists w. }
  eapply runs_mono; [apply (IH (i + 1) (set_lb b1 s) buf n)|].
  - done.
  - exact H1.
  - intros [w Hw]. apply Hd. exists w. by apply Sd.
  - done.
  - lia.
  - rewrite E. lia.
  - by rewrite E.
  - cbn. intros _ s' (L' & (B' & D' & P' & F' & S') & E' & H'). split; [done|]. split; [|split; [lia|done]].
    split_and!; [done|congruence|congruence|lia|]. intros m w. by rewrite (S' m w).
Qed.

Lemma write_head_run s ds bs :
  quiet (lb s) ds → geometry (lg s) (dsk (lb s)) → Forall (home (lg s) (dsk (lb s))) ds → Z.of_nat (length ds) < NLOG →
  lh_n (lg s) = Z.of_nat (length bs) → listed (lg s) 0 bs → (length bs ≤ 30)%nat →
  runs write_head s (λ _ s', lg s' = lg s ∧ quiet (lb s') ds ∧ bpid (lb s') = bpid (lb s) ∧
    same_dirty (lb s) (lb s') ∧
    dsk (lb s') = d_write (lg_start (lg s)) (put_head bs (d_block (dsk (lb s)) (lg_start (lg s)))) (dsk (lb s))).
Proof.
  intros [Q1 Q2 Q3 Q4] [G1 G2 G3 G4] Hh Hlen Hn Hl Hbs. unfold NLOG, LOGSIZE, MAXOPBLOCKS in *.
  set (A := lg_start (lg s)). rewrite Forall_forall in Hh.
  assert (HA : ¬ dirty (lb s) A).
  { rewrite Q3. intros HA. destruct (Hh A HA) as [_ HA']. apply HA'. unfold in_log, NLOG, LOGSIZE, MAXOPBLOCKS, A. lia. }
  unfold write_head. mstep. apply runs_gets. rewrite G1. fold A.
  bstep (bread_run _ A Q1); [unfold A; lia|intros i; by apply none_held|right; lia|].
  intros buf b1 (B1 & D1 & P1 & H1 & N1 & O1 & S1 & E1 & F1). cbn beta.
  rewrite (view_disk _ _ HA) in H1. set (d := d_block (dsk (lb s)) A) in *.
  assert (Hd : length d = Z.to_nat BSIZE) by apply Q1.
  mstep. apply (bdata_run _ buf A d); [done|]. rewrite Hn, Nat2Z.id.
  assert (E : length (splice d 0 (word (Z.of_nat (length bs)))) = length d).
  { apply length_splice. rewrite Hd. unfold BSIZE. cbn [length word]. lia. }
  bstep (store_run b1 buf A d (splice d 0 (word (Z.of_nat (length bs)))) B1 H1); [by rewrite E|].
  intros _ b2 (B2 & D2 & P2 & H2 & O2 & E2 & F2 & S2). cbn beta.
  assert (Sd : same_dirty (lb s) b2).
  { intros m w. rewrite S2. destruct (Z.eqb_spec m A) as [->|]; [|apply S1]. split.
    - intros [[u Hu] _]. apply S1 in Hu. destruct HA. by exists u.
    - intros Hw. destruct HA. by exists w. }
  mstep. eapply runs_mono; [apply (write_loop_run bs 0 (set_lb b2 s) buf A); [exact B2|exact H2| |done|lia| |by rewrite E]|].
  { intros [w Hw]. apply HA. exists w. by apply Sd. }
  { rewrite E, Hd. unfold BSIZE. lia. }
  cbn. intros _ s3 (L3 & (B3 & D3 & P3 & F3 & S3) & E3 & H3). fold (put_head bs d) in H3.
  bstep (bwrite_run _ _ _ _ B3 H3). intros _ b4 (B4 & D4 & P4 & H4 & O4 & E4 & S4 & F4). cbn beta.
  assert (Sd4 : same_dirty (lb s) b4).
  { intros m w. rewrite S4, (S3 m w), (Sd m w). split; [by intros [_ ?]|]. intros Hw. split; [|done]. intros ->. apply HA. by exists w. }
  apply runs_bio. eapply runs_mono; [apply (brelse_run _ _ _ _ B4 H4)|].
  { rewrite view_disk; [by rewrite D4, d_block_write, Z.eqb_refl|]. intros [w Hw]. apply HA. exists w. by apply Sd4. }
  intros _ b5 (B5 & D5 & P5 & N5 & O5 & S5 & E5 & F5). cbn.
  assert (Sd5 : same_dirty (lb s) b5) by (intros m w; by rewrite (S5 m w)).
  split_and!; [done| |congruence|done|by rewrite D5, D4, D3, D2, D1].
  split; [done|lia| |].
  - intros m. rewrite <- Q3. split; intros [w Hw]; exists w; by apply Sd5.
  - destruct F4 as [[[w Hw] _]|[_ F4]]; [|lia]. apply S3, Sd in Hw. destruct HA. by exists w.
Qed.

(** * Recovery *)

(** The block numbers in a header block. *)
Definition head_blocks (d : list Z) : list Z := (λ j, head_block d (Z.of_nat j)) <$> seq 0 (Z.to_nat (head_n d)).

Lemma read_loop_run n : ∀ i s d,
  0 ≤ i → i + Z.of_nat n ≤ LOGSIZE → length (lh_block (lg s)) = Z.to_nat LOGSIZE →
  runs (read_loop n i d) s (λ _ s', ∃ bl, s' = set_lg (set_block bl (lg s)) s ∧ length bl = Z.to_nat LOGSIZE ∧
    ∀ j, bl !! j = if decide (i ≤ Z.of_nat j < i + Z.of_nat n) then Some (head_block d (Z.of_nat j)) else lh_block (lg s) !! j).
Proof.
  induction n as [|n IH]; intros i s d Hi Hn Hl; cbn [read_loop].
  { apply runs_ret. exists (lh_block (lg s)). split; [by destruct s as [? []]|]. split; [done|].
    intros j. by rewrite decide_False by lia. }
  mstep. unfold lh_set. mstep. apply runs_gets. rewrite (proj2 (Z.leb_le _ _)), (proj2 (Z.ltb_lt _ _)) by lia. cbn [andb].
  apply runs_modify. eapply runs_mono; [apply IH; [lia|lia|cbn; by rewrite length_insert]|].
  cbn. intros _ s' (bl & -> & Hbl & Hj). exists bl. split; [by destruct s as [? []]|]. split; [done|].
  intros j. rewrite Hj. destruct (decide (i + 1 ≤ Z.of_nat j < i + 1 + Z.of_nat n)); [by rewrite decide_True by lia|].
  destruct (decide (i ≤ Z.of_nat j < i + Z.of_nat (S n))).
  - replace (Z.to_nat i) with j by lia. replace (Z.of_nat j) with i by lia. apply list_lookup_insert_eq. lia.
  - apply list_lookup_insert_ne. lia.
Qed.

Lemma read_head_run s :
  quiet (lb s) [] → geometry (lg s) (dsk (lb s)) →
  let hd := d_block (dsk (lb s)) (lg_start (lg s)) in
  0 ≤ head_n hd ≤ LOGSIZE →
  runs read_head s (λ _ s', quiet (lb s') [] ∧ dsk (lb s') = dsk (lb s) ∧ bpid (lb s') = bpid (lb s) ∧
    (∃ bl, lg s' = set_block bl (set_n (head_n hd) (lg s)) ∧ length bl = Z.to_nat LOGSIZE) ∧
    listed (lg s') 0 (head_blocks hd)).
Proof.
  intros [Q1 Q2 Q3 Q4] [G1 G2 G3 G4] hd Hn. unfold read_head. mstep. apply runs_gets. rewrite G1.
  unfold NLOG in *. set (A := lg_start (lg s)) in *.
  assert (HA : ¬ dirty (lb s) A) by (rewrite Q3; apply not_elem_of_nil).
  bstep (bread_run _ A Q1); [unfold A, LOGSIZE, MAXOPBLOCKS in *; lia|intros i; by apply none_held|right; cbn in Q4; lia|].
  intros buf b1 (B1 & D1 & P1 & H1 & N1 & O1 & S1 & E1 & F1). cbn beta. rewrite (view_disk _ _ HA) in H1.
  mstep. apply (bdata_run _ buf A hd); [done|]. mstep. apply runs_modify.
  mstep. eapply runs_mono; [apply read_loop_run; [lia|lia|done]|].
  cbn. intros _ s' (bl & -> & Hbl & Hj). apply runs_bio. cbn.
  eapply runs_mono; [apply (brelse_run _ _ _ _ B1 H1)|].
  { symmetry. rewrite (view_same _ _ A Q1 B1 D1 S1). by apply view_disk. }
  intros _ b2 (B2 & D2 & P2 & N2 & O2 & S2 & E2 & F2). cbn. split_and!; [|congruence|congruence|by exists bl|].
  - split; [done|lia| |by rewrite F2, F1].
    intros m. rewrite <- Q3. split; intros [w Hw]; exists w; [by apply S1, S2|by apply S2, S1].
  - intros j b Hb. cbn. unfold nthZ. rewrite (proj2 (Z.ltb_ge _ _)) by lia.
    replace (Z.to_nat (0 + Z.of_nat j)) with j by lia. rewrite Hj. unfold head_blocks in Hb.
    rewrite list_lookup_fmap in Hb. destruct (seq 0 (Z.to_nat (head_n hd)) !! j) as [j'|] eqn:Es; [|done].
    apply lookup_seq in Es as [-> Hlt]. injection Hb as <-. cbn in *. by rewrite decide_True by lia.
Qed.

Lemma head_blocks_len d : length (head_blocks d) = Z.to_nat (head_n d).
Proof. unfold head_blocks. by rewrite length_fmap, length_seq. Qed.

(** The contents of the blocks after a sequence of writes. *)
Lemma write_all_cons n v ws d : write_all ((n, v) :: ws) d = write_all ws (d_write n v d).
Proof. done. Qed.

Lemma write_all_size ws d : d_size (write_all ws d) = d_size d.
Proof. revert d. induction ws as [|[n v] ws IH]; intros d; [done|]. by rewrite write_all_cons, IH. Qed.

Lemma write_all_other ws d n : n ∉ ws.*1 → d_block (write_all ws d) n = d_block d n.
Proof.
  revert d. induction ws as [|[m v] ws IH]; intros d Hn; [done|]. apply not_elem_of_cons in Hn as [H1 H2].
  rewrite write_all_cons, IH by done. rewrite d_block_write. by rewrite (proj2 (Z.eqb_neq m n)).
Qed.

Lemma from_log_fst f a bs : (from_log f a bs).*1 = bs.
Proof. revert a. induction bs as [|b bs IH]; intros a; cbn; [done|]. by rewrite IH. Qed.

Lemma to_log_fst f a bs n : n ∈ (to_log f a bs).*1 → a ≤ n < a + Z.of_nat (length bs).
Proof.
  revert a. induction bs as [|b bs IH]; intros a; cbn [to_log length fmap list_fmap]; [set_solver|].
  intros [->|H]%elem_of_cons; cbn; [lia|]. apply IH in H. lia.
Qed.

Lemma from_log_at f a bs d j b :
  NoDup bs → bs !! j = Some b → d_block (write_all (from_log f a bs) d) b = f (a + Z.of_nat j).
Proof.
  revert a d j. induction bs as [|c bs IH]; intros a d j Hnd Hj; [done|]. apply NoDup_cons in Hnd as [Hc Hnd].
  cbn [from_log]. rewrite write_all_cons. destruct j as [|j]; cbn in Hj.
  - injection Hj as ->. rewrite write_all_other by (by rewrite from_log_fst). rewrite d_block_write, Z.eqb_refl. f_equal. lia.
  - rewrite (IH _ _ j) by done. f_equal. lia.
Qed.

Lemma to_log_at f a bs d j b :
  bs !! j = Some b → d_block (write_all (to_log f a bs) d) (a + Z.of_nat j) = f b.
Proof.
  revert a d j. induction bs as [|c bs IH]; intros a d j Hj; [done|].
  cbn [to_log]. rewrite write_all_cons. destruct j as [|j]; cbn in Hj.
  - injection Hj as ->. rewrite Z.add_0_r, write_all_other; [by rewrite d_block_write, Z.eqb_refl|].
    intros H%to_log_fst. lia.
  - replace (a + Z.of_nat (S j)) with (a + 1 + Z.of_nat j) by lia. by apply IH.
Qed.

Lemma geometry_log l l' d :
  geometry l d → lg_start l' = lg_start l → lg_dev l' = lg_dev l → length (lh_block l') = length (lh_block l) → geometry l' d.
Proof. intros [G1 G2 G3 G4] E1 E2 E3. split; congruence. Qed.

Lemma geometry_disk l d d' : geometry l d → d_size d' = d_size d → geometry l d'.
Proof. intros [G1 G2 G3 G4] E. split; congruence. Qed.

Lemma home_same l l' d d' b : home l d b → lg_start l' = lg_start l → d_size d' = d_size d → home l' d' b.
Proof. unfold home, in_log. intros H E1 E2. by rewrite E1, E2. Qed.

(** Recovery copies the blocks that the header on the disk names and then clears
    the header. *)
Lemma recover_run s :
  quiet (lb s) [] → geometry (lg s) (dsk (lb s)) →
  let d := dsk (lb s) in let a := lg_start (lg s) in let bs := head_blocks (d_block d a) in
  0 ≤ head_n (d_block d a) < NLOG → Forall (home (lg s) d) bs → NoDup bs →
  runs recover_from_log s (λ _ s', quiet (lb s') [] ∧ lh_n (lg s') = 0 ∧ lg_start (lg s') = a ∧
    dsk (lb s') = d_write a (put_head [] (d_block d a)) (write_all (from_log (d_block d) (a + 1) bs) d)).
Proof.
  intros Q G d a bs Hn Hh Hnd. unfold recover_from_log, NLOG in *.
  mstep. eapply runs_mono; [apply read_head_run; [done|done|fold d a; lia]|].
  fold d a. intros _ s1 (Q1 & D1 & P1 & (bl & L1 & Hbl) & Hl1). fold bs in Hl1.
  assert (G1 : geometry (lg s1) (dsk (lb s1))).
  { rewrite D1. apply (geometry_log (lg s)); [done|by rewrite L1|by rewrite L1|]. rewrite L1. cbn. rewrite Hbl. symmetry. apply G. }
  mstep. unfold install_trans. mstep. apply runs_gets.
  replace (Z.to_nat (lh_n (lg s1))) with (length bs) by (unfold bs; rewrite head_blocks_len; by rewrite L1).
  assert (Hbl' : Z.of_nat (length bs) = head_n (d_block d a)) by (unfold bs; rewrite head_blocks_len; lia).
  eapply runs_mono; [apply (install_loop_run bs 0 s1 []); [done|done|lia|unfold NLOG; lia|done| |done|by left]|].
  { apply (Forall_impl (home (lg s) d)); [done|]. intros b Hb. eapply home_same; [done|by rewrite L1|by rewrite D1]. }
  intros _ s2 (L2 & Q2 & P2 & D2). mstep. apply runs_modify. rewrite D1 in D2. fold d in D2.
  replace (lg_start (lg s1) + 0 + 1) with (a + 1) in D2 by (rewrite L1; cbn; lia).
  assert (G2 : geometry (set_n 0 (lg s2)) (dsk (lb s2))).
  { rewrite L2. apply (geometry_log (lg s1)); [|done..]. apply (geometry_disk _ (dsk (lb s1))); [done|].
    rewrite D1, D2. apply write_all_size. }
  eapply runs_mono; [apply (write_head_run (set_lg (set_n 0 (lg s2)) s2) [] []); [exact Q2|exact G2|done|done|done| |cbn; lia]|].
  { intros j b Hj. done. }
  cbn. intros _ s3 (L3 & Q3 & P3 & S3 & D3). split; [done|]. rewrite L3. cbn. rewrite L2, L1. cbn. split_and!; [done|done|].
  rewrite D3, L2, L1. cbn. fold a. rewrite D2. f_equal. f_equal.
  rewrite write_all_other; [done|]. rewrite from_log_fst. intros Ha. rewrite Forall_forall in Hh. apply (Hh a Ha).
  unfold in_log, NLOG, LOGSIZE, MAXOPBLOCKS. fold a. lia.
Qed.

(** * Commit *)

(** A transaction in memory: [bs] are the blocks it has changed, which are dirty
    in the cache and listed in the header. *)
Record in_trans (s : lst) (bs : list Z) : Prop := {
  tr_quiet : quiet (lb s) bs;
  tr_geo : geometry (lg s) (dsk (lb s));
  tr_n : lh_n (lg s) = Z.of_nat (length bs);
  tr_listed : listed (lg s) 0 bs;
  tr_home : Forall (home (lg s) (dsk (lb s))) bs;
  tr_nodup : NoDup bs;
  tr_size : Z.of_nat (length bs) < NLOG }.

(** The writes to the disk of a commit: the copies in the log, the header, the
    blocks themselves, and the empty header. *)
Definition commit_writes (s : lst) (bs : list Z) : list (Z * list Z) :=
  let d := dsk (lb s) in let a := lg_start (lg s) in
  to_log (view (lb s)) (a + 1) bs ++
  (a, put_head bs (d_block d a)) ::
  ((λ b, (b, view (lb s) b)) <$> bs) ++
  [(a, put_head [] (put_head bs (d_block d a)))].

Lemma write_all_app ws ws' d : write_all (ws ++ ws') d = write_all ws' (write_all ws d).
Proof. unfold write_all. apply foldl_app. Qed.

(** Reading back from the log what was copied there. *)
Lemma from_to_log f g a bs :
  (∀ j b, bs !! j = Some b → g (a + Z.of_nat j) = f b) → from_log g a bs = (λ b, (b, f b)) <$> bs.
Proof.
  revert a. induction bs as [|b bs IH]; intros a H; cbn; [done|]. f_equal.
  - f_equal. specialize (H 0%nat b eq_refl). by rewrite Z.add_0_r in H.
  - apply IH. intros j c Hc. rewrite <- (H (S j) c Hc). f_equal. lia.
Qed.

Lemma quiet_home_view s bs n : quiet (lb s) bs → n ∉ bs → view (lb s) n = d_block (dsk (lb s)) n.
Proof. intros Q Hn. apply view_disk. by rewrite (qt_dirty _ _ Q). Qed.

Lemma commit_run s bs :
  in_trans s bs → bs ≠ [] →
  runs commit s (λ _ s', in_trans s' [] ∧ lg s' = set_n 0 (lg s) ∧ bpid (lb s') = bpid (lb s) ∧
    dsk (lb s') = write_all (commit_writes s bs) (dsk (lb s))).
Proof.
  intros [Q G Hn Hl Hh Hnd Hs] Hne. unfold commit. mstep. apply runs_gets.
  assert (Hpos : 0 < Z.of_nat (length bs)) by (destruct bs; [done|cbn; lia]).
  rewrite (proj2 (Z.ltb_lt _ _)) by lia. set (d := dsk (lb s)) in *. set (a := lg_start (lg s)).
  mstep. unfold write_log. mstep. apply runs_gets. rewrite Hn, Nat2Z.id.
  eapply runs_mono; [apply (write_log_loop_run bs 0 s bs); [done|done|lia|lia|done|done|done|done]|].
  intros _ s1 (L1 & Q1 & P1 & S1 & D1). fold d a in D1. rewrite Z.add_0_r in D1.
  assert (Hd1 : d_size (dsk (lb s1)) = d_size d) by (by rewrite D1, write_all_size).
  assert (Ha : ∀ b, b ∈ bs → b ≠ a).
  { intros b Hb ->. rewrite Forall_forall in Hh. apply (Hh a Hb). unfold in_log, NLOG, LOGSIZE, MAXOPBLOCKS. fold a. lia. }
  assert (Hh1 : Forall (home (lg s1) (dsk (lb s1))) bs).
  { apply (Forall_impl (home (lg s) d)); [done|]. intros b Hb. eapply home_same; [done|by rewrite L1|done]. }
  mstep. eapply runs_mono; [apply (write_head_run s1 bs bs); [done| |done|done|by rewrite L1|by rewrite L1|unfold NLOG, LOGSIZE, MAXOPBLOCKS in Hs; lia]|].
  { rewrite L1. by apply (geometry_disk _ d). }
  intros _ s2 (L2 & Q2 & P2 & S2 & D2). rewrite L1 in D2. fold a in D2.
  replace (d_block (dsk (lb s1)) a) with (d_block d a) in D2.
  2: { rewrite D1, write_all_other; [done|]. intros H%to_log_fst. lia. }
  assert (Hd2 : d_size (dsk (lb s2)) = d_size d) by (by rewrite D2).
  mstep. unfold install_trans. mstep. apply runs_gets. rewrite L2, L1, Hn, Nat2Z.id.
  eapply runs_mono; [apply (install_loop_run bs 0 s2 bs); [done| |lia|done|by rewrite L2, L1| |done|by right]|].
  { rewrite L2, L1. by apply (geometry_disk _ d). }
  { apply (Forall_impl (home (lg s) d)); [done|]. intros b Hb. eapply home_same; [done|by rewrite L2, L1|done]. }
  intros _ s3 (L3 & Q3 & P3 & D3). rewrite L2, L1, Z.add_0_r in D3. fold a in D3.
  rewrite (from_to_log (view (lb s))) in D3.
  2: { intros j b Hj. rewrite D2, d_block_write, (proj2 (Z.eqb_neq a _)) by lia. rewrite D1. by apply to_log_at. }
  assert (Hd3 : d_size (dsk (lb s3)) = d_size d) by (by rewrite D3, write_all_size).
  mstep. apply runs_modify. rewrite L3, L2, L1.
  assert (G3 : geometry (set_n 0 (lg s)) (dsk (lb s3))).
  { apply (geometry_disk _ d); [|done]. by apply (geometry_log (lg s)). }
  eapply runs_mono; [apply (write_head_run (set_lg (set_n 0 (lg s)) s3) [] []); [exact Q3|exact G3|done|done|done|by intros ? ? ?|cbn; lia]|].
  cbn. intros _ s4 (L4 & Q4 & P4 & S4 & D4). fold a in D4.
  replace (d_block (dsk (lb s3)) a) with (put_head bs (d_block d a)) in D4.
  2: { rewrite D3, write_all_other; [by rewrite D2, d_block_write, Z.eqb_refl|].
       rewrite <- list_fmap_compose. intros (b & -> & Hb)%list_elem_of_fmap. by apply (Ha _ Hb). }
  split_and!; [|done|congruence|].
  - rewrite <- L4 in G3. split; [done| |by rewrite L4|by intros ? ? ?|done|by constructor|done].
    apply (geometry_disk _ (dsk (lb s3))); [done|]. by rewrite D4.
  - unfold commit_writes. fold d a. rewrite write_all_app, write_all_cons, write_all_app, write_all_cons.
    by rewrite D4, D3, D2, D1.
Qed.

(** * Restart *)

(** The kernel's memory when it starts: [z] is the contents of a data area. *)
Definition zero_buf (z : list Z) : buf := mk_buf 0 0 0 initsleeplock 0 0 0 z.
Definition zero_log : log := mk_log 0 0 0 0 0 0 (replicate (Z.to_nat LOGSIZE) 0).
Definition boot (z : list Z) (d : disk) : lst := mk_lst (mk_bst (replicate 31 (zero_buf z)) d 0) zero_log.

(** Starting the block layer. *)
Definition restart : M lst unit := bio binit;; initlog 1.

Lemma boot_quiet z d :
  length z = Z.to_nat BSIZE → (∀ n, length (d_block d n) = Z.to_nat BSIZE) →
  runs (bio binit) (boot z d) (λ _ s, quiet (lb s) [] ∧ dsk (lb s) = d ∧ lg s = zero_log).
Proof.
  intros Hz Hd. apply runs_bio. eapply runs_mono; [apply binit_spec; [done|]|].
  { intros i b Hb. by apply lookup_replicate in Hb as [-> _]. }
  intros _ b [Hr R]. pose proof (relinked_cells _ _ R) as Hc. destruct R as (Eb & _). cbn in Eb.
  change (cells (lb (boot z d))) with (replicate 30 (zero_buf z)) in Hc. cbn. split; [|done].
  assert (Hrep : ∀ i c, cells b !! i = Some c → c = zero_buf z).
  { intros i c Hi. rewrite Hc in Hi. by apply lookup_replicate in Hi as [-> _]. }
  assert (Hnd : ∀ m, ¬ dirty b m) by (intros m (v & i & c & Hi & Hf & _); by rewrite (Hrep i c Hi) in Hf).
  split; [|by unfold nheld; rewrite Hc| |by unfold ndirty; rewrite Hc].
  - split; [eauto|]. split; [by rewrite Hc| |intros i j c c' Hi; by rewrite (Hrep i c Hi)|by rewrite Eb].
    intros i c Hi. rewrite (Hrep i c Hi). split; cbn; try done; by left.
  - intros m. split; [by intros ?%Hnd|by intros ?%not_elem_of_nil].
Qed.

Lemma readsb_run s :
  quiet (lb s) [] → 1 < d_size (dsk (lb s)) →
  runs (readsb 1) s (λ sb s', sb = sb_of (d_block (dsk (lb s)) 1) ∧ quiet (lb s') [] ∧ dsk (lb s') = dsk (lb s) ∧ lg s' = lg s).
Proof.
  intros [Q1 Q2 Q3 Q4] Hs. assert (HA : ¬ dirty (lb s) 1) by (rewrite Q3; apply not_elem_of_nil).
  unfold readsb. bstep (bread_run _ 1 Q1); [lia|intros i; by apply none_held|right; cbn in Q4; lia|].
  intros buf b1 (B1 & D1 & P1 & H1 & N1 & O1 & S1 & E1 & F1). cbn beta. rewrite (view_disk _ _ HA) in H1.
  mstep. apply (bdata_run _ buf 1 (d_block (dsk (lb s)) 1)); [done|].
  bstep (brelse_run _ _ _ _ B1 H1).
  { symmetry. rewrite (view_same _ _ 1 Q1 B1 D1 S1). by apply view_disk. }
  intros _ b2 (B2 & D2 & P2 & N2 & O2 & S2 & E2 & F2). cbn beta. apply runs_ret. cbn. split_and!; [done| |congruence|done].
  split; [done|lia| |by rewrite F2, F1].
  intros m. rewrite <- Q3. split; intros [w Hw]; exists w; [by apply S1, S2|by apply S2, S1].
Qed.

(** What a disk with a header must look like for recovery to work: the log where
    the super block says, and a header that names different home blocks. *)
Record log_on_disk (d : disk) (a : Z) (bs : list Z) : Prop := {
  ld_sb : sb_logstart (sb_of (d_block d 1)) = a;
  ld_start : 1 < a;
  ld_end : a + NLOG ≤ d_size d;
  ld_len : ∀ n, length (d_block d n) = Z.to_nat BSIZE;
  ld_n : 0 ≤ head_n (d_block d a) < NLOG;
  ld_blocks : head_blocks (d_block d a) = bs;
  ld_home : Forall (λ b, 0 ≤ b < d_size d ∧ ¬ a ≤ b < a + NLOG) bs;
  ld_nodup : NoDup bs }.

Lemma restart_run z d a bs :
  length z = Z.to_nat BSIZE → log_on_disk d a bs →
  runs restart (boot z d) (λ _ s', ∀ n, n ≠ a →
    d_block (dsk (lb s')) n = d_block (write_all (from_log (d_block d) (a + 1) bs) d) n).
Proof.
  intros Hz [H1 H2 H3 H4 H5 H6 H7 H8]. unfold restart. mstep. eapply runs_mono; [by apply boot_quiet|].
  intros _ s (Q & D & L). unfold initlog. change (BSIZE <=? sizeof_logheader) with false. cbn iota.
  unfold NLOG, LOGSIZE, MAXOPBLOCKS in *.
  mstep. eapply runs_mono; [apply readsb_run; [done|rewrite D; lia]|]. intros sb s1 (-> & Q1 & D1 & L1).
  rewrite D in *. mstep. apply runs_modify. rewrite L1, L, H1. cbn [lg_outstanding lg_committing lh_n lh_block zero_log].
  eapply runs_mono; [apply recover_run|].
  - exact Q1.
  - cbn. rewrite D1. split; [done|cbn; lia|cbn; unfold NLOG, LOGSIZE, MAXOPBLOCKS; lia|done].
  - cbn. rewrite D1. unfold NLOG, LOGSIZE, MAXOPBLOCKS. lia.
  - cbn. rewrite D1, H6. done.
  - cbn. by rewrite D1, H6.
  - cbn. rewrite D1, H6. intros _ s' (_ & _ & _ & ->) n Hn. rewrite d_block_write.
    by rewrite (proj2 (Z.eqb_neq a n)).
Qed.

(** * Crashes *)

Lemma write_all_len ws d :
  (∀ n, length (d_block d n) = Z.to_nat BSIZE) → Forall (λ w, length w.2 = Z.to_nat BSIZE) ws →
  ∀ n, length (d_block (write_all ws d) n) = Z.to_nat BSIZE.
Proof.
  revert d. induction ws as [|[m v] ws IH]; intros d Hd Hw n; [apply Hd|]. apply Forall_cons in Hw as [Hv Hw].
  rewrite write_all_cons. apply IH; [|done]. intros k. rewrite d_block_write. by destruct (m =? k).
Qed.

Lemma fmap_fst (f : Z → list Z) bs : ((λ b, (b, f b)) <$> bs).*1 = bs.
Proof. rewrite <- list_fmap_compose. cbn. apply list_fmap_id. Qed.

Lemma write_homes_at f bs d b : b ∈ bs → d_block (write_all ((λ b, (b, f b)) <$> bs) d) b = f b.
Proof.
  revert d. induction bs as [|c bs IH]; intros d Hb; [by apply not_elem_of_nil in Hb|]. cbn [fmap list_fmap].
  rewrite write_all_cons. destruct (decide (b ∈ bs)); [by apply IH|].
  apply elem_of_cons in Hb as [->|]; [|done]. rewrite write_all_other by (by rewrite fmap_fst).
  by rewrite d_block_write, Z.eqb_refl.
Qed.

Lemma head_blocks_put bs d :
  length d = Z.to_nat BSIZE → (length bs ≤ 30)%nat → Forall (λ b, 0 ≤ b < 2 ^ 31) bs → head_blocks (put_head bs d) = bs.
Proof.
  intros Hd Hl Hb. apply list_eq. intros j. unfold head_blocks. rewrite list_lookup_fmap, head_n_put, Nat2Z.id by done.
  destruct (bs !! j) as [b|] eqn:E.
  - pose proof (lookup_lt_Some _ _ _ E). rewrite lookup_seq_lt by done. cbn. f_equal.
    apply (head_block_put bs d j b); [done|done|done|]. by eapply (Forall_lookup_1 _ _ _ _ Hb).
  - apply lookup_ge_None in E. by rewrite lookup_seq_ge by done.
Qed.

(** After the commit every block outside the log has on the disk the contents it
    had in the cache. *)
Lemma commit_view s bs m :
  in_trans s bs → home (lg s) (dsk (lb s)) m →
  d_block (write_all (commit_writes s bs) (dsk (lb s))) m = view (lb s) m.
Proof.
  intros [Q G Hn Hl Hh Hnd Hs] Hm. set (a := lg_start (lg s)).
  assert (Ha : a ≠ m). { intros <-. apply Hm. unfold in_log, NLOG, LOGSIZE, MAXOPBLOCKS. fold a. lia. }
  unfold commit_writes. fold a. rewrite write_all_app, write_all_cons, write_all_app, write_all_cons.
  change (write_all [] ?d) with d. rewrite d_block_write, (proj2 (Z.eqb_neq a m)) by done.
  destruct (decide (m ∈ bs)); [by apply write_homes_at|].
  rewrite write_all_other by (by rewrite fmap_fst). rewrite d_block_write, (proj2 (Z.eqb_neq a m)) by done.
  rewrite write_all_other.
  - symmetry. by apply (quiet_home_view s bs).
  - intros Hx%to_log_fst. apply Hm. unfold in_log. fold a. lia.
Qed.

Section crash.
  Context (s : lst) (bs : list Z).

Let d := dsk (lb s).
Let a := lg_start (lg s).
Let n := length bs.

  Hypothesis Htr : in_trans s bs.
  Hypothesis Hlog : log_on_disk d a [].
  Hypothesis Hsize : d_size d ≤ 2 ^ 31.
  Hypothesis Hsb : 1 ∉ bs.

Let X := to_log (view (lb s)) (a + 1) bs.
Let H := (λ b, (b, view (lb s) b)) <$> bs.
Let hd := put_head bs (d_block d a).

Lemma crash_facts :
  (∀ b, b ∈ bs → 0 ≤ b < d_size d ∧ ¬ a ≤ b < a + NLOG) ∧ (n < 30)%nat ∧ a + NLOG ≤ d_size d ∧ 1 < a ∧
  length (d_block d a) = Z.to_nat BSIZE ∧ (∀ m, m ∈ X.*1 → a < m < a + NLOG).
Proof.
  destruct Htr as [Q G Hn Hl Hh Hnd Hs]. pose proof (ge_end _ _ G). rewrite Forall_forall in Hh.
  split_and!; [|unfold n, NLOG, LOGSIZE, MAXOPBLOCKS in *; lia|done|apply (ld_start _ _ _ Hlog)|apply (ld_len _ _ _ Hlog)|].
  - intros b Hb. apply (Hh b Hb).
  - intros m Hm%to_log_fst. lia.
Qed.

Lemma crash_len ws :
  (∀ w, w ∈ ws → w ∈ X ∨ w ∈ H ∨ w.2 = hd ∨ w.2 = put_head [] hd) →
  ∀ m, length (d_block (write_all ws d) m) = Z.to_nat BSIZE.
Proof.
  intros Hw. destruct crash_facts as (_ & Hn & _ & _ & Ha & _). apply write_all_len; [apply (ld_len _ _ _ Hlog)|].
  assert (Hv : ∀ b, length (view (lb s) b) = Z.to_nat BSIZE) by (intros b; apply cview_len, Htr).
  assert (Hhd : length hd = Z.to_nat BSIZE) by (apply put_head_len; [done|unfold n in Hn; lia]).
  rewrite Forall_forall. intros w Hin. destruct (Hw w Hin) as [Hx|[Hx|[-> | ->]]]; [| |done|apply put_head_len; [done|cbn; lia]].
  - clear -Hx Hv. unfold X in Hx. revert Hx. generalize (a + 1). induction bs as [|b l IH]; intros k Hx; cbn in Hx.
    + by apply not_elem_of_nil in Hx.
    + apply elem_of_cons in Hx as [->|Hx]; [apply Hv|by eapply IH].
  - unfold H in Hx. apply list_elem_of_fmap in Hx as (b & -> & _). apply Hv.
Qed.

(** The crash comes before the header is written: the transaction is lost. *)
Lemma crash_before k :
  let dk := write_all (take k X) d in
  log_on_disk dk a [] ∧ ∀ m, ¬ in_log (lg s) m → d_block (write_all [] dk) m = d_block d m.
Proof.
  intros dk. destruct crash_facts as (_ & _ & Hend & Ha & _ & HX).
  assert (Hoth : ∀ m, ¬ a < m < a + NLOG → d_block dk m = d_block d m).
  { intros m Hm. apply write_all_other. intros Hin. apply Hm, HX.
    apply list_elem_of_fmap in Hin as (w & -> & Hw). apply list_elem_of_fmap. exists w. split; [done|].
    apply elem_of_take in Hw as (i & Hi & _). by eapply list_elem_of_lookup_2. }
  destruct Hlog as [L1 L2 L3 L4 L5 L6 L7 L8]. split.
  - split; try done.
    + rewrite Hoth; [done|]. lia.
    + unfold dk. by rewrite write_all_size.
    + apply crash_len. intros w Hw. left. apply elem_of_take in Hw as (i & Hi & _). by eapply list_elem_of_lookup_2.
    + rewrite Hoth; [done|]. lia.
    + rewrite Hoth; [done|]. lia.
  - intros m Hm. apply Hoth. unfold in_log in Hm. fold a in Hm. lia.
Qed.

Lemma head_home : a ∉ H.*1 ∧ 1 ∉ H.*1 ∧ a ∉ X.*1 ∧ 1 ∉ X.*1.
Proof.
  destruct crash_facts as (Hh & _ & _ & Ha & _ & HX). unfold H. rewrite fmap_fst. split_and!; [|done| |].
  - intros Hb%Hh. unfold NLOG, LOGSIZE, MAXOPBLOCKS in Hb. lia.
  - intros Hb%HX. lia.
  - intros Hb%HX. lia.
Qed.

(** The crash comes after the header is written and before it is cleared: recovery
    repeats all of the transaction. *)
Lemma crash_between j :
  let dk := write_all (X ++ (a, hd) :: take j H) d in
  log_on_disk dk a bs ∧
  ∀ m, home (lg s) d m → d_block (write_all (from_log (d_block dk) (a + 1) bs) dk) m = view (lb s) m.
Proof.
  intros dk. destruct crash_facts as (Hh & Hn & Hend & Ha & Hla & HX). destruct head_home as (Ha1 & H11 & Ha2 & H12).
  assert (Htk : ∀ m, m ∈ (take j H).*1 → m ∈ bs).
  { intros m. rewrite fmap_take. unfold H. rewrite fmap_fst. intros (i & Hi & _)%elem_of_take. by eapply list_elem_of_lookup_2. }
  assert (Hdk : ∀ m, m ∉ bs → d_block dk m = if m =? a then hd else d_block (write_all X d) m).
  { intros m Hm. unfold dk. rewrite write_all_app, write_all_cons, write_all_other by (intros Hx; by apply Hm, Htk).
    rewrite d_block_write. by rewrite Z.eqb_sym. }
  assert (Hab : a ∉ bs) by (intros Hx%Hh; unfold NLOG, LOGSIZE, MAXOPBLOCKS in Hx; lia).
  assert (Hhd : d_block dk a = hd) by (by rewrite Hdk, Z.eqb_refl).
  unfold n in Hn. destruct Htr as [Q G Htn Hl Hhm Hnd Hs]. destruct Hlog as [L1 L2 L3 L4 L5 L6 L7 L8]. split.
  - split; try done.
    + rewrite Hdk by done. rewrite (proj2 (Z.eqb_neq 1 a)) by lia. by rewrite write_all_other.
    + unfold dk. by rewrite write_all_size.
    + apply crash_len. intros w [Hw|[->|Hw]%elem_of_cons]%elem_of_app; [by left|by right; right; left|].
      right. left. apply elem_of_take in Hw as (i & Hi & _). by eapply list_elem_of_lookup_2.
    + rewrite Hhd. unfold hd. rewrite head_n_put by (done || lia). unfold NLOG, LOGSIZE, MAXOPBLOCKS. lia.
    + rewrite Hhd. apply head_blocks_put; [done|lia|]. rewrite Forall_forall. intros b Hb%Hh. lia.
    + rewrite Forall_forall. unfold dk. rewrite write_all_size. done.
  - intros m [Hm1 Hm2]. destruct (decide (m ∈ bs)) as [Hm|Hm].
    + apply list_elem_of_lookup in Hm as (i & Hi). rewrite (from_log_at _ _ _ _ i m) by done.
      pose proof (lookup_lt_Some _ _ _ Hi). rewrite Hdk.
      * rewrite (proj2 (Z.eqb_neq _ a)) by lia. by apply to_log_at.
      * intros Hx%Hh. unfold NLOG, LOGSIZE, MAXOPBLOCKS in Hx. lia.
    + rewrite write_all_other by (by rewrite from_log_fst). rewrite Hdk by done.
      assert (m ≠ a). { intros ->. apply Hm2. unfold in_log, NLOG, LOGSIZE, MAXOPBLOCKS. fold a. lia. }
      rewrite (proj2 (Z.eqb_neq m a)) by done. rewrite write_all_other.
      * symmetry. by apply (quiet_home_view s bs).
      * intros Hx%HX. apply Hm2. unfold in_log. fold a. lia.
Qed.

(** The crash comes after all the writes. *)
Lemma crash_after :
  let dk := write_all (commit_writes s bs) d in
  log_on_disk dk a [] ∧ ∀ m, home (lg s) d m → d_block (write_all [] dk) m = view (lb s) m.
Proof.
  intros dk. destruct crash_facts as (Hh & Hn & Hend & Ha & Hla & HX). destruct head_home as (Ha1 & H11 & Ha2 & H12).
  assert (Edk : dk = d_write a (put_head [] hd) (write_all (X ++ (a, hd) :: take n H) d)).
  { unfold dk, commit_writes. fold d a hd. fold X H. rewrite (take_ge H) by (unfold H; by rewrite length_fmap).
    rewrite !write_all_app, !write_all_cons, write_all_app. done. }
  destruct (crash_between n) as [[L1 L2 L3 L4 L5 L6 L7 L8] _]. unfold n in Hn.
  assert (Hhd : length hd = Z.to_nat BSIZE) by (apply put_head_len; [done|lia]).
  assert (Hdk : d_block dk a = put_head [] hd) by (by rewrite Edk, d_block_write, Z.eqb_refl). split.
  - split; try done.
    + rewrite Edk, d_block_write. by rewrite (proj2 (Z.eqb_neq a 1)) by lia.
    + by rewrite Edk.
    + intros m. rewrite Edk, d_block_write. destruct (a =? m); [apply put_head_len; [done|cbn; lia]|apply L4].
    + rewrite Hdk, head_n_put by (done || cbn; lia). done.
    + rewrite Hdk. apply head_blocks_put; [done|cbn; lia|done].
    + by constructor.
  - intros m Hm. by apply commit_view.
Qed.

Lemma to_log_len f k l : length (to_log f k l) = length l.
Proof. revert k. induction l as [|b l IH]; intros k; cbn; [done|]. by rewrite IH. Qed.

(** The first [k] writes of a commit are those of one of the three cases. *)
Lemma take_commit_writes k :
  let W := commit_writes s bs in
  (k ≤ n)%nat ∧ take k W = take k X ∨
  (n < k ≤ 2 * n + 1)%nat ∧ take k W = X ++ (a, hd) :: take (k - n - 1) H ∨
  (2 * n + 1 < k)%nat ∧ take k W = W.
Proof.
  intros W. assert (HX : length X = n) by apply to_log_len. assert (HH : length H = n) by (unfold H; by rewrite length_fmap).
  assert (EW : W = X ++ (a, hd) :: H ++ [(a, put_head [] hd)]) by done.
  destruct (decide (k ≤ n)%nat) as [Hk|Hk]; [left|right].
  - split; [done|]. rewrite EW. apply take_app_le. lia.
  - destruct (decide (k ≤ 2 * n + 1)%nat) as [Hk2|Hk2]; [left|right].
    + split; [lia|]. rewrite EW, take_app_ge by lia. f_equal. rewrite HX.
      replace (k - n)%nat with (S (k - n - 1)) by lia. cbn [take]. f_equal.
      replace (S (k - n - 1) - 1)%nat with (k - n - 1)%nat by lia. apply take_app_le. lia.
    + split; [lia|]. apply take_ge. rewrite EW, length_app, length_cons, length_app. cbn. lia.
Qed.

(** C11. A commit is atomic under crashes. Let [s] be a state in which a transaction
    has changed the blocks [bs] and the log on the disk is empty. Then commit
    performs just the disk writes [commit_writes s bs], and the disk ends up with
    the contents the cache had. If the machine stops after the first [k] of those
    writes, for any [k], and starts again on the disk it then has, the recovery of
    initlog terminates and leaves in every block outside the log what was there
    before the transaction, when the header had not been written, and the
    contents after the transaction, when it had. *)
Theorem commit_crash_atomic (z : list Z) (k : nat)
  (Hz : length z = Z.to_nat BSIZE) (Hne : bs ≠ []) :
  runs commit s (λ _ s', dsk (lb s') = write_all (commit_writes s bs) d ∧
    ∀ m, home (lg s) d m → d_block (dsk (lb s')) m = view (lb s) m) ∧
  runs restart (boot z (write_all (take k (commit_writes s bs)) d)) (λ _ s', ∀ m, home (lg s) d m →
    d_block (dsk (lb s')) m = if (k <=? n)%nat then d_block d m else view (lb s) m).
Proof using Htr Hlog Hsize Hsb.
  destruct crash_after as [La Ha]. split.
  - eapply runs_mono; [by apply (commit_run s bs)|]. intros _ s' (_ & _ & _ & E). rewrite E. by split.
  - assert (Hma : ∀ m, home (lg s) d m → m ≠ a).
    { intros m [_ Hm] ->. apply Hm. unfold in_log, NLOG, LOGSIZE, MAXOPBLOCKS. fold a. lia. }
    destruct (take_commit_writes k) as [[Hk ->]|[[Hk ->]|[Hk ->]]].
    + destruct (crash_before k) as [L B]. eapply runs_mono; [by apply (restart_run z _ a [])|].
      intros [] s' Hs' m Hm. rewrite Hs' by auto. rewrite (proj2 (Nat.leb_le _ _)) by done. by apply B, Hm.
    + destruct (crash_between (k - n - 1)) as [L B]. eapply runs_mono; [by apply (restart_run z _ a bs)|].
      intros [] s' Hs' m Hm. rewrite Hs' by auto. rewrite (proj2 (Nat.leb_gt _ _)) by lia. by apply B.
    + eapply runs_mono; [by apply (restart_run z _ a [])|].
      intros [] s' Hs' m Hm. rewrite Hs' by auto. rewrite (proj2 (Nat.leb_gt _ _)) by lia. by apply Ha.
Qed.
End crash.
