(* ===== verification/LogBlocks.v ===== *)
(** The buffer cache (bio.c) and the log (log.c) implement the block layer that the
    file system is written against. *)
From Stdlib Require Import ZArith Lia Bool FunctionalExtensionality.
From stdpp Require Import base tactics list strings sets gmap fin_maps.
From S2P Require Import Prelude Machine Bio Cache Log LogCrash Blocks.

#[global] Instance log_ops : BlockOps lst := {
  bk_bread dev n := bio (bread dev n);
  bk_data := bdata;
  bk_store := bstore;
  bk_log_write := log_write;
  bk_brelse i := bio (brelse i);
  bk_readsb := readsb;
  bk_begin_op := begin_op;
  bk_end_op := end_op }.

(** * The abstraction *)

(** The held buffers with their blocks and contents. *)
Definition held_entry (c : buf) : option (Z * list Z) := if decide (is_held c) then Some (b_blockno c, b_data c) else None.
Definition held_map (b : bst) : gmap nat (Z * list Z) := omap held_entry (map_seq 0 (cells b) : gmap nat buf).

Definition log_geo (s : lst) : geo := mk_geo (d_size (dsk (lb s))) (lg_start (lg s)).
Definition log_blocks (l : log) : list Z := take (Z.to_nat (lh_n l)) (lh_block l).
Definition log_abs (s : lst) : bview :=
  mk_bview (λ n, if decide (at_home (log_geo s) n) then view (lb s) n else [])
    (held_map (lb s)) (list_to_set (log_blocks (lg s))) (lg_outstanding (lg s)) (log_geo s).

(** The blocks [bs] are changed by the transaction, which may still be going on. *)
Record log_inv (s : lst) (bs : list Z) : Prop := {
  li_inv : binv (lb s);
  li_dirty : ∀ m, dirty (lb s) m ↔ m ∈ bs;
  li_count : ndirty (lb s) = length bs;
  li_held : ∀ i n v, holds (lb s) i n v → home (lg s) (dsk (lb s)) n;
  li_geo : geometry (lg s) (dsk (lb s));
  li_n : lh_n (lg s) = Z.of_nat (length bs);
  li_listed : listed (lg s) 0 bs;
  li_home : Forall (home (lg s) (dsk (lb s))) bs;
  li_nodup : NoDup bs;
  li_room : (length bs < 30)%nat;
  li_size : lg_size (lg s) = LOGSIZE;
  li_comm : lg_committing (lg s) = 0;
  li_open : 0 ≤ lg_outstanding (lg s) ∧ (lg_outstanding (lg s) = 0 → bs = []) }.

Definition log_ok (s : lst) : Prop := ∃ bs, log_inv s bs.

(** ** The held buffers *)

Lemma held_lookup b i n v : binv b → held_map b !! i = Some (n, v) ↔ holds b i n v.
Proof.
  intros [_ Hok]. unfold held_map, holds. rewrite lookup_omap, lookup_map_seq_0. split.
  - intros (c & Hi & He)%bind_Some. unfold held_entry in He. destruct (decide (is_held c)) as [Hh|]; [|done].
    injection He as <- <-. exists c. split_and!; [done|done| |done].
    split; [|done]. unfold is_held in Hh. destruct (co_kind _ _ (cs_ok _ _ Hok i c Hi)) as [?|?]; [lia|tauto].
  - intros (c & Hi & Hh & [_ <-] & <-). rewrite Hi. cbn. unfold held_entry. by rewrite decide_True.
Qed.

Lemma held_size_list k (l : list buf) :
  size (omap held_entry (map_seq k l : gmap nat buf)) = length (filter is_held l).
Proof.
  revert k. induction l as [|c l IH]; intros k; [done|]. rewrite map_seq_cons, omap_insert, filter_cons.
  assert (Hk : omap held_entry (map_seq (S k) l : gmap nat buf) !! k = None).
  { rewrite lookup_omap, (proj2 (lookup_map_seq_None _ _ _)) by lia. done. }
  unfold held_entry at 1. destruct (decide (is_held c)) as [Hc|Hc].
  - rewrite map_size_insert_None by done. cbn. f_equal. apply IH.
  - rewrite delete_id by done. apply IH.
Qed.

Lemma held_size b : size (held_map b) = nheld b.
Proof. apply held_size_list. Qed.

Lemma held_ext b' m :
  binv b' → (∀ i n v, holds b' i n v ↔ m !! i = Some (n, v)) → held_map b' = m.
Proof. intros Hb H. apply map_eq. intros i. apply option_eq. intros [n v]. by rewrite held_lookup. Qed.

Lemma log_blocks_eq s bs : lh_n (lg s) = Z.of_nat (length bs) → listed (lg s) 0 bs → log_blocks (lg s) = bs.
Proof.
  intros Hn Hl. unfold log_blocks. rewrite Hn, Nat2Z.id. apply list_eq. intros j.
  destruct (bs !! j) as [b|] eqn:E.
  - pose proof (lookup_lt_Some _ _ _ E). rewrite lookup_take_lt by done. specialize (Hl j b E). unfold nthZ in Hl.
    rewrite (proj2 (Z.ltb_ge _ _)) in Hl by lia. by replace (Z.to_nat (0 + Z.of_nat j)) with j in Hl by lia.
  - apply lookup_ge_None in E. by apply lookup_take_ge.
Qed.

Lemma log_abs_size s bs : log_inv s bs → size (v_logged (log_abs s)) = length bs.
Proof.
  intros L. cbn. rewrite (log_blocks_eq s bs) by apply L. apply size_list_to_set, L.
Qed.

Lemma at_home_iff s n : at_home (log_geo s) n ↔ home (lg s) (dsk (lb s)) n.
Proof. done. Qed.

(** ** The cache changes, the log does not *)

Lemma inv_cache s bs b' :
  log_inv s bs → binv b' → dsk b' = dsk (lb s) → same_dirty (lb s) b' → ndirty b' = ndirty (lb s) →
  (∀ i n v, holds b' i n v → home (lg s) (dsk (lb s)) n) → log_inv (set_lb b' s) bs.
Proof.
  intros [] Hb Hd Hs Hn Hh. split; cbn; rewrite ?Hd, ?Hn; try done.
  intros m. rewrite <- li_dirty0. split; intros [w Hw]; exists w; by apply Hs.
Qed.

Lemma abs_cache s bs b' m :
  log_inv s bs → binv b' → dsk b' = dsk (lb s) → same_dirty (lb s) b' → held_map b' = m →
  log_abs (set_lb b' s) = mk_bview (v_blocks (log_abs s)) m (v_logged (log_abs s)) (v_open (log_abs s)) (v_geo (log_abs s)).
Proof.
  intros L Hb Hd Hs <-. unfold log_abs, log_geo. cbn. rewrite Hd. f_equal. apply functional_extensionality. intros n.
  destruct (decide _); [|done]. apply view_same; [apply L|done|done|done].
Qed.

Lemma blocks_at s n : home (lg s) (dsk (lb s)) n → v_blocks (log_abs s) n = view (lb s) n.
Proof. intros H. cbn. by rewrite decide_True. Qed.

Lemma log_len s n : log_ok s → at_home (v_geo (log_abs s)) n → length (v_blocks (log_abs s) n) = Z.to_nat BSIZE.
Proof. intros [bs L] Hn. rewrite blocks_at by done. apply cview_len, L. Qed.

Lemma log_bread_run s n :
  log_ok s → at_home (v_geo (log_abs s)) n → v_free (log_abs s) n → v_room (log_abs s) →
  runs (bio (bread 1 n)) s (λ i s', log_ok s' ∧ v_held (log_abs s) !! i = None ∧ log_abs s' = v_take i n (log_abs s)).
Proof.
  intros [bs L] Hn Hf Hr. unfold v_room in Hr. rewrite (log_abs_size s bs L) in Hr. cbn in Hf, Hr.
  pose proof (li_inv _ _ L) as Hb. rewrite held_size in Hr. apply runs_bio. eapply runs_mono; [apply (bread_run _ n Hb)|].
  - apply Hn.
  - intros i v Hh. apply (Hf i v). by apply held_lookup.
  - right. by rewrite (li_count _ _ L).
  - intros i b' (B & D & P & H & N & O & S & E & F).
    assert (Hi : held_map (lb s) !! i = None).
    { apply eq_None_not_Some. intros [[m v] Hm]. apply held_lookup in Hm; [|done]. by apply N in Hm. }
    split_and!; [|done|].
    + exists bs. apply inv_cache; try done. intros j m v Hj. destruct (decide (j = i)) as [->|Hne].
      * destruct (holds_inj _ _ _ _ _ _ H Hj) as [<- _]. done.
      * apply O in Hj; [|done]. by apply (li_held _ _ L) in Hj.
    + unfold v_take. rewrite (blocks_at s n) by done. apply (abs_cache s bs); try done. cbn.
      apply held_ext; [done|]. intros j m v. destruct (decide (j = i)) as [->|Hne].
      * rewrite lookup_insert_eq. split; [|by intros [= <- <-]]. intros Hj. destruct (holds_inj _ _ _ _ _ _ H Hj) as [<- <-]. done.
      * rewrite lookup_insert_ne, (O j m v Hne), held_lookup by done. done.
Qed.

Lemma log_data_run s i n v : log_ok s → v_held (log_abs s) !! i = Some (n, v) → runs (bdata i) s (λ w s', w = v ∧ s' = s).
Proof. intros [bs L] H. apply held_lookup in H; [|apply L]. by apply (bdata_run _ i n v). Qed.

Lemma log_brelse_run s i n :
  log_ok s → v_held (log_abs s) !! i = Some (n, v_blocks (log_abs s) n) →
  runs (bio (brelse i)) s (λ _ s', log_ok s' ∧ log_abs s' = v_drop i (log_abs s)).
Proof.
  intros [bs L] H. pose proof (li_inv _ _ L) as Hb. apply held_lookup in H; [|done]. pose proof (li_held _ _ L _ _ _ H) as Hn.
  rewrite blocks_at in H by done. apply runs_bio. eapply runs_mono; [by apply (brelse_run _ i n _ Hb H)|].
  intros _ b' (B & D & P & N & O & S & E & F). split.
  - exists bs. apply inv_cache; try done. intros j m v Hj. destruct (decide (j = i)) as [->|Hne]; [by apply N in Hj|].
    apply O in Hj; [|done]. by apply (li_held _ _ L) in Hj.
  - apply (abs_cache s bs); try done. cbn. apply held_ext; [done|]. intros j m v. destruct (decide (j = i)) as [->|Hne].
    + rewrite lookup_delete_eq. split; [by intros Hj%N|done].
    + rewrite lookup_delete_ne, (O j m v Hne), held_lookup by done. done.
Qed.

(** ** Logging a block *)

(** The scan of log_write finds the block among those listed or stops behind them. *)
Lemma log_scan_spec bs b : ∀ i l,
  take (length bs) l = bs →
  (∃ j, bs !! j = Some b ∧ log_scan (length bs) i l b = i + Z.of_nat j) ∨
  b ∉ bs ∧ log_scan (length bs) i l b = i + Z.of_nat (length bs).
Proof.
  induction bs as [|x bs IH]; intros i l Hl; cbn [length log_scan].
  { right. split; [apply not_elem_of_nil|lia]. }
  destruct l as [|y l]; [done|]. cbn in Hl. injection Hl as -> Hl. destruct (Z.eqb_spec x b) as [->|Hne].
  { left. exists 0%nat. split; [done|lia]. }
  destruct (IH (i + 1) l Hl) as [(j & Hj & ->)|[Hb ->]].
  - left. exists (S j). split; [done|lia].
  - right. split; [|lia]. rewrite not_elem_of_cons. by split; [auto|].
Qed.

Lemma listed_insert l bs n b :
  listed l 0 bs → (length bs < length (lh_block l))%nat → n = length bs →
  listed (set_block (<[n := b]> (lh_block l)) l) 0 (bs ++ [b]).
Proof.
  intros Hl Hlt -> j x Hj. unfold nthZ. rewrite (proj2 (Z.ltb_ge _ _)) by lia. cbn [lh_block set_block].
  replace (Z.to_nat (0 + Z.of_nat j)) with j by lia. apply lookup_app_Some in Hj as [Hj|[Hj Hx]].
  - pose proof (lookup_lt_Some _ _ _ Hj). rewrite list_lookup_insert_ne by lia. specialize (Hl j x Hj). unfold nthZ in Hl.
    rewrite (proj2 (Z.ltb_ge _ _)) in Hl by lia. by replace (Z.to_nat (0 + Z.of_nat j)) with j in Hl by lia.
  - assert (j = length bs) as -> by (apply list_lookup_singleton_Some in Hx; lia).
    replace (length bs - length bs)%nat with 0%nat in Hx by lia. injection Hx as <-. by apply list_lookup_insert_eq.
Qed.

(** log_write puts the block in the header, unless it is there, and marks the
    buffer. *)
Lemma log_write_run s i n v bs (Q : unit → lst → Prop) :
  log_blocks (lg s) = bs → lh_n (lg s) = Z.of_nat (length bs) → geometry (lg s) (dsk (lb s)) → lg_size (lg s) = LOGSIZE →
  binv (lb s) → holds (lb s) i n v → (length bs < 29)%nat → 1 ≤ lg_outstanding (lg s) →
  runs (bio (modbuf i (λ b, set_flags (Z.lor (b_flags b) B_DIRTY) b)))
    (set_lg (if decide (n ∈ bs) then lg s
             else set_n (Z.of_nat (length bs) + 1) (set_block (<[length bs := n]> (lh_block (lg s))) (lg s))) s) Q →
  runs (log_write i) s Q.
Proof.
  intros Hbs Hn G Hsz Hb Hh Hlen Hout HQ. unfold log_write. mstep. apply runs_gets.
  rewrite Hsz, Hn. unfold LOGSIZE, MAXOPBLOCKS in *. rewrite !(proj2 (Z.leb_gt _ _)) by lia. cbn [orb].
  rewrite (proj2 (Z.ltb_ge _ _)) by lia. destruct Hh as (c & Hi & Hhc & [_ Hbn] & _).
  destruct (getbuf_cell _ _ _ Hi) as (b & Hgb & Hb1 & Eb). mstep. apply runs_bio. exists b, (lb s). split; [done|].
  rewrite set_lb_lb, Nat2Z.id. assert (Ebn : b_blockno b = n) by (rewrite <- Hbn, <- Eb; done). rewrite Ebn.
  pose proof (ge_len _ _ G) as Hll. unfold LOGSIZE, MAXOPBLOCKS in Hll.
  assert (Ht : take (length bs) (lh_block (lg s)) = bs) by (rewrite <- Hbs at 2; unfold log_blocks; by rewrite Hn, Nat2Z.id).
  destruct (log_scan_spec bs n 0 _ Ht) as [(j & Hj & ->)|[Hnb ->]]; rewrite Z.add_0_l.
  - pose proof (lookup_lt_Some _ _ _ Hj) as Hjl. rewrite decide_True in HQ by (by eapply list_elem_of_lookup_2).
    mstep. unfold lh_set. mstep. apply runs_gets. unfold LOGSIZE, MAXOPBLOCKS.
    rewrite (proj2 (Z.leb_le _ _)), (proj2 (Z.ltb_lt _ _)) by lia. cbn [andb]. apply runs_modify. rewrite Nat2Z.id.
    rewrite list_insert_id.
    + mstep. rewrite (proj2 (Z.eqb_neq _ _)) by lia. apply runs_ret.
      replace (set_lg (set_block _ _) s) with (set_lg (lg s) s) by (by destruct s as [? []]). done.
    + rewrite <- (lookup_take_lt _ (length bs)) by done. by rewrite Ht.
  - rewrite decide_False in HQ by done. mstep. unfold lh_set. mstep. apply runs_gets. unfold LOGSIZE, MAXOPBLOCKS.
    rewrite (proj2 (Z.leb_le _ _)), (proj2 (Z.ltb_lt _ _)) by lia. cbn [andb]. apply runs_modify. rewrite Nat2Z.id.
    mstep. rewrite Z.eqb_refl. apply runs_modify. exact HQ.
Qed.

(** The transaction after block [n] was logged. *)
Lemma inv_logged s bs n b' l' :
  log_inv s bs → (length bs < 29)%nat → 1 ≤ lg_outstanding (lg s) → home (lg s) (dsk (lb s)) n →
  binv b' → dsk b' = dsk (lb s) → (∀ m, dirty b' m ↔ m = n ∨ dirty (lb s) m) →
  (dirty (lb s) n ∧ ndirty b' = ndirty (lb s) ∨ ¬ dirty (lb s) n ∧ ndirty b' = S (ndirty (lb s))) →
  (∀ i m v, holds b' i m v → home (lg s) (dsk (lb s)) m) →
  l' = (if decide (n ∈ bs) then lg s
        else set_n (Z.of_nat (length bs) + 1) (set_block (<[length bs := n]> (lh_block (lg s))) (lg s))) →
  log_inv (mk_lst b' l') (if decide (n ∈ bs) then bs else bs ++ [n]).
Proof.
  intros [] Hlen Hout Hn Hb Hd Hdt Hc Hh ->. pose proof (ge_len _ _ li_geo0) as Hll. unfold LOGSIZE, MAXOPBLOCKS in Hll.
  rewrite li_dirty0 in Hc. destruct (decide (n ∈ bs)) as [Hin|Hin].
  - split; cbn; rewrite ?Hd; try done.
    + intros m. rewrite Hdt, li_dirty0. split; [by intros [->|?]|auto].
    + destruct Hc as [[_ ->]|[? _]]; done.
  - split; cbn; rewrite ?Hd; try done.
    + intros m. rewrite Hdt, li_dirty0, elem_of_app, list_elem_of_singleton. tauto.
    + rewrite length_app. cbn. destruct Hc as [[? _]|[_ ->]]; [done|lia].
    + destruct li_geo0. split; try done. cbn. by rewrite length_insert.
    + rewrite length_app. cbn. lia.
    + apply (listed_insert (lg s) bs (length bs) n); [done|lia|done].
    + apply Forall_app. split; [done|]. by apply Forall_singleton.
    + apply NoDup_app. split_and!; [done| |apply NoDup_singleton]. intros x Hx ->%list_elem_of_singleton. done.
    + rewrite length_app. cbn. lia.
    + split; [lia|]. intros. lia.
Qed.

(** Buffer [i], held for block [n], was filled with [w] and marked dirty. *)
Record put_cell (b : bst) (i : nat) (n : Z) (w : list Z) (b' : bst) : Prop := {
  pc_inv : binv b';
  pc_dsk : dsk b' = dsk b;
  pc_held : held_map b' = <[i := (n, w)]> (held_map b);
  pc_dirty : ∀ m x, dirty_at (cells b') m x ↔ (if m =? n then x = w else dirty_at (cells b) m x);
  pc_count : dirty b n ∧ ndirty b' = ndirty b ∨ ¬ dirty b n ∧ ndirty b' = S (ndirty b) }.

Lemma store_mark_run b i n v w :
  binv b → holds b i n v → length w = Z.to_nat BSIZE →
  runs (modbuf i (set_data w)) b (λ _ b1, binv b1 ∧ dsk b1 = dsk b ∧ holds b1 i n w ∧
    runs (modbuf i (λ b, set_flags (Z.lor (b_flags b) B_DIRTY) b)) b1 (λ _ b2, put_cell b i n w b2)).
Proof.
  intros Hb H Hw. eapply runs_mono; [by apply (store_run _ i n v w)|]. intros _ b1 (B1 & D1 & P1 & H1 & O1 & E1 & F1 & S1).
  split_and!; [done|done|done|]. eapply runs_mono; [apply (mark_run _ i n w B1 H1)|].
  intros _ b2 (B2 & D2 & P2 & H2 & O2 & E2 & S2 & F2). assert (Hd1 : dirty b1 n ↔ dirty b n).
  { split; intros [x Hx].
    - apply S1 in Hx. rewrite Z.eqb_refl in Hx. apply Hx.
    - exists w. apply S1. rewrite Z.eqb_refl. split; [by exists x|done]. }
  split; [done|congruence| | |by rewrite <- Hd1, <- F1].
  - apply held_ext; [done|]. intros j m x. destruct (decide (j = i)) as [->|Hne].
    + rewrite lookup_insert_eq. split; [|by intros [= <- <-]]. intros Hj. by destruct (holds_inj _ _ _ _ _ _ H2 Hj) as [<- <-].
    + rewrite lookup_insert_ne, (O2 j m x Hne), (O1 j m x Hne), held_lookup by done. done.
  - intros m x. rewrite S2. destruct (Z.eqb_spec m n); [done|]. rewrite S1. by rewrite (proj2 (Z.eqb_neq m n)).
Qed.

Lemma put_view b i n w b' m : binv b → put_cell b i n w b' → view b' m = if m =? n then w else view b m.
Proof.
  intros Hb [B D _ S _]. destruct (Z.eqb_spec m n) as [->|Hne].
  - apply cview_at; [apply B|]. apply S. by rewrite Z.eqb_refl.
  - apply cview_ext; [apply Hb|apply B| |by rewrite D]. intros x. rewrite S. by rewrite (proj2 (Z.eqb_neq m n)).
Qed.

Lemma put_dirty b i n w b' m : put_cell b i n w b' → dirty b' m ↔ m = n ∨ dirty b m.
Proof.
  intros [_ _ _ S _]. split.
  - intros [x Hx]. apply S in Hx. destruct (Z.eqb_spec m n); [auto|right; by exists x].
  - destruct (decide (m = n)) as [->|Hne].
    + intros _. exists w. apply S. by rewrite Z.eqb_refl.
    + intros [?|[x Hx]]; [done|]. exists x. apply S. by rewrite (proj2 (Z.eqb_neq m n)).
Qed.

Lemma log_store_run s i n v w :
  log_ok s → v_held (log_abs s) !! i = Some (n, v) → length w = Z.to_nat BSIZE → v_logs (log_abs s) →
  runs (bstore i w;; log_write i) s (λ _ s', log_ok s' ∧ log_abs s' = v_put i n w (log_abs s)).
Proof.
  intros [bs L] H Hw [Hr Ho]. rewrite (log_abs_size s bs L) in Hr. cbn in Ho.
  pose proof (li_inv _ _ L) as Hb. apply held_lookup in H; [|done]. pose proof (li_held _ _ L _ _ _ H) as Hn.
  pose proof (log_blocks_eq s bs (li_n _ _ L) (li_listed _ _ L)) as Hbs.
  bstep (store_mark_run _ i n v w Hb H Hw). intros _ b1 (B1 & D1 & H1 & R1). cbn beta.
  apply (log_write_run (set_lb b1 s) i n w bs); [done|apply L|cbn; rewrite D1; apply L|apply L|done|done|done|done|].
  apply runs_bio. eapply runs_mono; [exact R1|]. intros [] b2 P. cbn [lb lg set_lb set_lg].
  set (l' := if decide (n ∈ bs) then _ else _).
  assert (L2 : log_inv (mk_lst b2 l') (if decide (n ∈ bs) then bs else bs ++ [n])).
  { apply (inv_logged s bs n); try done; [apply P|apply P|intros m; by eapply put_dirty|apply P|].
    intros j m x Hj. apply held_lookup in Hj; [|apply P]. rewrite (pc_held _ _ _ _ _ P) in Hj.
    apply lookup_insert_Some in Hj as [[<- [= <- <-]]|[Hne Hj]]; [done|]. apply held_lookup in Hj; [|done]. by apply (li_held _ _ L) in Hj. }
  split; [by eexists|]. change (log_abs (mk_lst b2 l') = v_put i n w (log_abs s)).
  assert (Hg : log_geo (mk_lst b2 l') = log_geo s).
  { unfold log_geo. cbn. rewrite (pc_dsk _ _ _ _ _ P). unfold l'. by destruct (decide _). }
  unfold log_abs at 1. rewrite Hg, (log_blocks_eq _ _ (li_n _ _ L2) (li_listed _ _ L2)). unfold v_put. cbn. f_equal.
  - apply functional_extensionality. intros m. unfold set_block_v. rewrite (put_view _ _ _ _ _ _ Hb P).
    destruct (Z.eqb_spec m n) as [->|]; [by rewrite decide_True|done].
  - apply P.
  - rewrite Hbs. destruct (decide (n ∈ bs)); [|set_solver]. set_solver.
  - unfold l'. by destruct (decide _).
Qed.

(** ** The super block, and the start and end of a call *)

Lemma log_readsb_run s :
  log_ok s → at_home (v_geo (log_abs s)) 1 → v_free (log_abs s) 1 → v_room (log_abs s) →
  runs (readsb 1) s (λ sb s', log_ok s' ∧ sb = sb_of (v_blocks (log_abs s) 1) ∧ log_abs s' = log_abs s).
Proof.
  intros Hok H1 Hf Hr. unfold readsb. mstep. eapply runs_mono; [by apply (log_bread_run s 1)|].
  intros i s1 (O1 & Hi & A1). mstep. eapply runs_mono; [apply (log_data_run s1 i 1 (v_blocks (log_abs s) 1)); [done|]|].
  { rewrite A1. apply lookup_insert_eq. }
  intros v s' [-> ->]. mstep. eapply runs_mono; [apply (log_brelse_run s1 i 1); [done|]|].
  { rewrite A1. apply lookup_insert_eq. }
  intros _ s2 [O2 A2]. apply runs_ret. split_and!; [done|done|]. rewrite A2, A1. unfold v_drop, v_take. cbn [v_held v_blocks v_logged v_open v_geo].
  rewrite delete_insert_id by done. by destruct (log_abs s).
Qed.

Lemma inv_outstanding s bs k l' :
  log_inv s bs → 0 ≤ k → (k = 0 → bs = []) → lg_outstanding l' = k → lg_committing l' = 0 → lg_start l' = lg_start (lg s) →
  lg_size l' = lg_size (lg s) → lg_dev l' = lg_dev (lg s) → lh_n l' = lh_n (lg s) → lh_block l' = lh_block (lg s) →
  log_inv (set_lg l' s) bs.
Proof.
  intros [] Hk Hk0 <- Hc Hst Hsz Hdv Hn Hbl. destruct li_geo0 as [G1 G2 G3 G4].
  assert (Hh : ∀ m, home (lg s) (dsk (lb s)) m → home l' (dsk (lb s)) m) by (intros m; unfold home, in_log; by rewrite Hst).
  split; cbn; try done.
  - intros i n v H. by eapply Hh, li_held0.
  - split; congruence.
  - congruence.
  - intros j b Hj. rewrite Hbl. by apply li_listed0.
  - by eapply Forall_impl.
  - congruence.
Qed.

Lemma log_begin_run s :
  log_ok s → Z.of_nat (size (v_logged (log_abs s))) + (v_open (log_abs s) + 1) * MAXOPBLOCKS ≤ LOGSIZE →
  runs begin_op s (λ _ s', log_ok s' ∧ log_abs s' = v_begin (log_abs s)).
Proof.
  intros [bs L] Hroom. rewrite (log_abs_size s bs L) in Hroom. cbn [v_open log_abs] in Hroom.
  pose proof (li_open _ _ L) as [Ho _]. unfold begin_op. mstep. apply runs_gets.
  rewrite (li_comm _ _ L), (li_n _ _ L). cbn [Z.eqb negb]. rewrite (proj2 (Z.ltb_ge _ _)) by lia. apply runs_modify.
  split; [|done]. exists bs. apply (inv_outstanding s bs (lg_outstanding (lg s) + 1)); try done; [lia|lia|apply L].
Qed.

Lemma held_none b : held_map b = ∅ → nheld b = 0%nat.
Proof. intros H. rewrite <- held_size, H. apply map_size_empty. Qed.

(** The last call commits: afterwards no block is dirty and nothing is logged. *)
Lemma commit_idle s bs :
  in_trans s bs → lg_size (lg s) = LOGSIZE →
  runs commit s (λ _ s', in_trans s' [] ∧ lg s' = set_n 0 (lg s) ∧ d_size (dsk (lb s')) = d_size (dsk (lb s)) ∧
    ∀ m, home (lg s) (dsk (lb s)) m → view (lb s') m = view (lb s) m).
Proof.
  intros T Hsz. destruct (decide (bs = [])) as [->|Hne].
  - unfold commit. mstep. apply runs_gets. rewrite (tr_n _ _ T). apply runs_ret. split_and!; try done.
    pose proof (tr_n _ _ T) as Hn. destruct s as [b []]. cbn in *. by rewrite Hn.
  - eapply runs_mono; [by apply (commit_run s bs)|]. intros _ s' (T' & L' & P' & D'). split_and!; [done|done| |].
    + by rewrite D', write_all_size.
    + intros m Hm. rewrite (quiet_home_view s' []) by (apply T' || apply not_elem_of_nil).
      rewrite D'. by apply commit_view.
Qed.

Lemma log_end_run s :
  log_ok s → 1 ≤ v_open (log_abs s) → v_held (log_abs s) = ∅ →
  runs end_op s (λ _ s', log_ok s' ∧ log_abs s' = v_end (log_abs s)).
Proof.
  intros [bs L] Ho Hh. cbn in Ho, Hh. unfold end_op. mstep. apply runs_gets. mstep. apply runs_modify.
  rewrite (li_comm _ _ L). cbn [Z.eqb negb]. set (k := lg_outstanding (lg s)) in *.
  set (s1 := set_lg (set_outstanding (k - 1) (lg s)) s). destruct (Z.eqb_spec (k - 1) 0) as [Hk|Hk].
  2: { apply runs_ret. split.
       - exists bs. apply (inv_outstanding s bs (k - 1)); try done; [lia|apply L].
       - unfold v_end. cbn [v_open log_abs]. fold k. by rewrite (proj2 (Z.eqb_neq k 1)) by lia. }
  mstep. apply runs_modify. set (s2 := set_lg (set_committing 1 (lg s1)) s1).
  assert (T : in_trans s2 bs).
  { destruct L, li_geo0. split; try done; [by split; [|apply held_none| |]|]. unfold NLOG, LOGSIZE, MAXOPBLOCKS. lia. }
  mstep. eapply runs_mono; [apply (commit_idle s2 bs T); apply L|]. intros _ s3 (T3 & L3 & D3 & V3). apply runs_modify.
  set (s4 := set_lg (set_committing 0 (lg s3)) s3). pose proof (li_n _ _ L) as Hn.
  assert (L4 : log_inv s4 []).
  { destruct T3 as [[Q1 Q2 Q3 Q4] [G1 G2 G3 G4] ? ? ? ? ?]. split; cbn; try done; rewrite ?L3; try done.
    - intros i n v H. by apply none_held in H.
    - lia.
    - apply L.
    - split; [cbn; lia|done]. }
  split; [by exists []|]. unfold log_abs at 1, v_end. cbn [v_open v_geo v_blocks v_held v_logged log_abs]. fold k.
  rewrite (proj2 (Z.eqb_eq k 1)) by lia. assert (Hg : log_geo s4 = log_geo s) by (unfold log_geo; cbn; by rewrite D3, L3).
  rewrite Hg. f_equal.
  - apply functional_extensionality. intros m. destruct (decide _) as [Hm|]; [|done]. apply (V3 m Hm).
  - rewrite Hh. apply held_ext; [apply L4|]. intros i n v. rewrite lookup_empty. split; [|done]. intros H. by apply none_held in H; [|apply T3].
  - by rewrite (log_blocks_eq s4 [] (li_n _ _ L4) (li_listed _ _ L4)).
  - cbn. rewrite L3. cbn. lia.
Qed.

#[global] Instance log_laws : BlockLaws lst := {
  bk_ok := log_ok;
  bk_abs := log_abs;
  bk_len := log_len;
  bk_bread_run := log_bread_run;
  bk_data_run := log_data_run;
  bk_write_run := log_store_run;
  bk_brelse_run := log_brelse_run;
  bk_readsb_run := log_readsb_run;
  bk_begin_run := log_begin_run;
  bk_end_run := log_end_run }.

(** * Sequences of calls

    A call reads blocks and changes blocks between the start and the end of an
    operation. The specification is a plain array of blocks; it has no cache, no
    log and no disk. *)

Inductive bop := BBegin | BEnd | BRead (n : Z) | BUpdate (n : Z) (w : list Z).

(** What the specification answers, where it allows the step. *)
Definition spec_step (a : bview) (o : bop) : option (list Z * bview) :=
  match o with
  | BBegin =>
      if decide (Z.of_nat (size (v_logged a)) + (v_open a + 1) * MAXOPBLOCKS ≤ LOGSIZE) then Some ([], v_begin a) else None
  | BEnd => if decide (1 ≤ v_open a) then Some ([], v_end a) else None
  | BRead n => if decide (at_home (v_geo a) n) then Some (v_blocks a n, a) else None
  | BUpdate n w =>
      if decide (at_home (v_geo a) n ∧ length w = Z.to_nat BSIZE ∧ (size (v_logged a) < 29)%nat ∧ 1 ≤ v_open a) then
        Some ([], v_upd n w a)
      else None
  end.

Fixpoint spec_run (a : bview) (os : list bop) : option (list (list Z) * bview) :=
  match os with
  | [] => Some ([], a)
  | o :: os => '(r, a) ← spec_step a o; '(rs, a) ← spec_run a os; Some (r :: rs, a)
  end.

(** The same with the code. *)
Definition code_step (o : bop) : M lst (list Z) :=
  match o with
  | BBegin => begin_op;; mret []
  | BEnd => end_op;; mret []
  | BRead n => i ← bio (bread 1 n); d ← bdata i; bio (brelse i);; mret d
  | BUpdate n w => i ← bio (bread 1 n); (bstore i w;; log_write i);; bio (brelse i);; mret []
  end.

Fixpoint code_run (os : list bop) : M lst (list (list Z)) :=
  match os with
  | [] => mret []
  | o :: os => r ← code_step o; rs ← code_run os; mret (r :: rs)
  end.

Lemma code_step_run s o r a' :
  log_ok s → v_held (log_abs s) = ∅ → spec_step (log_abs s) o = Some (r, a') →
  runs (code_step o) s (λ r' s', r' = r ∧ log_ok s' ∧ log_abs s' = a' ∧ v_held a' = ∅).
Proof.
  intros Hok Hh H.
  assert (Hroom : v_room (log_abs s)).
  { destruct Hok as [bs L]. unfold v_room. rewrite Hh, (log_abs_size s bs L), map_size_empty. pose proof (li_room _ _ L). lia. }
  assert (Hfree : ∀ n, v_free (log_abs s) n) by (intros n i v; by rewrite Hh, lookup_empty).
  destruct o as [| |n|n w]; cbn [spec_step] in H; (destruct (decide _) as [G|]; [|done]); injection H as <- <-; cbn [code_step].
  - mstep. eapply runs_mono; [by apply log_begin_run|]. intros _ s1 [O1 A1]. apply runs_ret. done.
  - mstep. eapply runs_mono; [by apply log_end_run|]. intros _ s1 [O1 A1]. apply runs_ret. done.
  - mstep. eapply runs_mono; [by apply log_bread_run|]. intros i s1 (O1 & Hi & A1).
    mstep. eapply runs_mono; [apply (log_data_run s1 i n (v_blocks (log_abs s) n)); [done|rewrite A1; apply lookup_insert_eq]|].
    intros d s' [-> ->]. mstep. eapply runs_mono; [apply (log_brelse_run s1 i n); [done|rewrite A1; apply lookup_insert_eq]|].
    intros _ s2 [O2 A2]. apply runs_ret. split_and!; try done. by rewrite A2, A1, v_drop_take.
  - destruct G as (Hn & Hw & Hl & Ho). mstep. eapply runs_mono; [by apply log_bread_run|]. intros i s1 (O1 & Hi & A1).
    mstep. eapply runs_mono; [apply (log_store_run s1 i n (v_blocks (log_abs s) n) w); [done|rewrite A1; apply lookup_insert_eq|done|by rewrite A1]|].
    intros _ s2 [O2 A2]. mstep. eapply runs_mono; [apply (log_brelse_run s2 i n); [done|]|].
    { rewrite A2, A1. cbn. unfold set_block_v. by rewrite Z.eqb_refl, lookup_insert_eq. }
    intros _ s3 [O3 A3]. apply runs_ret. split_and!; try done. by rewrite A3, A2, A1, v_drop_put.
Qed.

(** C17. The block layer is an array of blocks. Whatever sequence of operations the
    specification allows (starting and ending calls, reading and changing blocks
    outside the log), the code runs through it with the same answers: no panic, no
    deadlock, no buffer missing, and every read returns what was written last,
    before and after the commits that happen when the last call ends. *)
Theorem block_layer_refines (s : lst) (os : list bop) (rs : list (list Z)) (a' : bview)
  (Hok : log_ok s) (Hheld : v_held (log_abs s) = ∅) (Hspec : spec_run (log_abs s) os = Some (rs, a')) :
  runs (code_run os) s (λ rs' s', rs' = rs ∧ log_ok s' ∧ log_abs s' = a').
Proof.
  revert s rs Hok Hheld Hspec. induction os as [|o os IH]; intros s rs Hok Hheld Hspec; cbn [spec_run code_run] in *.
  - injection Hspec as <- <-. by apply runs_ret.
  - apply bind_Some in Hspec as ([r a1] & H1 & Hspec). apply bind_Some in Hspec as ([rs1 a2] & H2 & Hspec).
    injection Hspec as <- <-. mstep. eapply runs_mono; [by apply code_step_run|]. intros r' s1 (-> & O1 & <- & Hh1).
    mstep. eapply runs_mono; [by apply (IH s1 rs1)|]. intros rs' s2 (-> & O2 & A2). by apply runs_ret.
Qed.
