(* ===== verification/LogSpace.v ===== *)
(** The space of the log (log.c): what begin_op reserves for a call against what
    log_write allows it. *)
From Stdlib Require Import ZArith Lia Bool.
From stdpp Require Import base tactics list strings sets gmap.
From S2P Require Import Prelude Machine Bio Cache Log LogCrash.

(** * Calls in progress

    [q] lists, for every call between its begin_op and its end_op, how many more
    blocks it may add to the transaction: MAXOPBLOCKS when it starts, one less for
    every block that was not in the transaction before. The steps of different
    calls can follow each other in any order. *)

Definition new_block (s s' : lst) : bool := lh_n (lg s) <? lh_n (lg s').

Inductive call_step : lst * list nat → lst * list nat → Prop :=
  | call_begin s s' q :
      begin_op s = Ok (tt, s') → call_step (s, q) (s', Z.to_nat MAXOPBLOCKS :: q)
  | call_write s s' i q1 b q2 :
      log_write i s = Ok (tt, s') →
      call_step (s, q1 ++ S b :: q2) (s', q1 ++ (if new_block s s' then b else S b) :: q2)
  | call_end s s' q1 b q2 :
      end_op s = Ok (tt, s') → call_step (s, q1 ++ b :: q2) (s', q1 ++ q2).

(** * The operations that leave the log alone *)

Definition logless {A} (m : M lst A) : Prop := ∀ s a s', m s = Ok (a, s') → lg s' = lg s.

Lemma logless_bind {A B} (m : M lst A) (f : A → M lst B) : logless m → (∀ a, logless (f a)) → logless (m ≫= f).
Proof. intros Hm Hf s b s' (a & s1 & H1 & H2)%bind_Ok. rewrite (Hf _ _ _ _ H2). by eapply Hm. Qed.
Lemma logless_bio {A} (m : M bst A) : logless (bio m).
Proof. intros s a s' H. unfold bio, zoom in H. destruct (m (lb s)) as [[]| | | |]; try done. by injection H as <- <-. Qed.
Lemma logless_gets {A} (f : lst → A) : logless (gets f).
Proof. by intros s a s' [= <- <-]. Qed.
Lemma logless_ret {A} (a : A) : logless (mret a).
Proof. by intros s b s' [= <- <-]. Qed.
Lemma logless_oget {A} (o : option A) : logless (oget o).
Proof. intros s a s'. destruct o; [|done]. by intros [= <- <-]. Qed.

#[local] Create HintDb logless.
#[local] Hint Resolve logless_bio logless_gets logless_ret logless_oget : logless.
#[local] Hint Extern 2 (logless (_ ≫= _)) => apply logless_bind; [|intros ?] : logless.

Lemma logless_bdata i : logless (bdata i).
Proof. unfold bdata. auto with logless. Qed.
Lemma logless_bstore i v : logless (bstore i v).
Proof. apply logless_bio. Qed.
Lemma logless_lh_get i : logless (lh_get i).
Proof. unfold lh_get. auto with logless. Qed.
#[local] Hint Resolve logless_bdata logless_bstore logless_lh_get : logless.

Lemma logless_write_loop n i buf : logless (write_loop n i buf).
Proof. revert i. induction n as [|n IH]; intros i; cbn [write_loop]; auto 10 with logless. Qed.
Lemma logless_write_log_loop n i : logless (write_log_loop n i).
Proof. revert i. induction n as [|n IH]; intros i; cbn [write_log_loop]; auto 20 with logless. Qed.
Lemma logless_install_loop n i : logless (install_loop n i).
Proof. revert i. induction n as [|n IH]; intros i; cbn [install_loop]; auto 20 with logless. Qed.
#[local] Hint Resolve logless_write_loop logless_write_log_loop logless_install_loop : logless.
Lemma logless_write_head : logless write_head.
Proof. unfold write_head. auto 20 with logless. Qed.
Lemma logless_write_log : logless write_log.
Proof. unfold write_log. auto 20 with logless. Qed.
Lemma logless_install_trans : logless install_trans.
Proof. unfold install_trans. auto 20 with logless. Qed.

(** A commit empties the log. *)
Lemma commit_log s u s' : commit s = Ok (u, s') → lg s' = (if 0 <? lh_n (lg s) then set_n 0 (lg s) else lg s).
Proof.
  unfold commit. intros (l & s1 & [= <- <-] & H)%bind_Ok. destruct (0 <? lh_n (lg s)); [|by injection H as _ <-].
  apply bind_Ok in H as (? & s1 & H1%logless_write_log & H). apply bind_Ok in H as (? & s2 & H2%logless_write_head & H).
  apply bind_Ok in H as (? & s3 & H3%logless_install_trans & H). apply bind_Ok in H as (? & s4 & [= _ <-] & H%logless_write_head).
  rewrite H. cbn. by rewrite H3, H2, H1.
Qed.

(** * The reservation *)

(** What is in the log and what the calls may still add fits the reservation. *)
Record reserved (z : Z) (x : lst * list nat) : Prop := {
  rs_n : 0 ≤ lh_n (lg x.1);
  rs_sum : lh_n (lg x.1) + Z.of_nat (sum_list x.2) ≤ LOGSIZE;
  rs_out : lg_outstanding (lg x.1) = Z.of_nat (length x.2);
  rs_low : Forall (λ b, b ≤ Z.to_nat MAXOPBLOCKS)%nat x.2;
  rs_size : lg_size (lg x.1) = z }.

Lemma begin_log s u s' :
  begin_op s = Ok (u, s') →
  lh_n (lg s) + (lg_outstanding (lg s) + 1) * MAXOPBLOCKS ≤ LOGSIZE ∧
  lg s' = set_outstanding (lg_outstanding (lg s) + 1) (lg s).
Proof.
  unfold begin_op. intros (l & s1 & [= <- <-] & H)%bind_Ok. destruct (negb _); [done|].
  destruct (Z.ltb_spec LOGSIZE (lh_n (lg s) + (lg_outstanding (lg s) + 1) * MAXOPBLOCKS)); [done|].
  injection H as _ <-. done.
Qed.

Lemma end_log s u s' :
  end_op s = Ok (u, s') →
  lg_outstanding (lg s') = lg_outstanding (lg s) - 1 ∧ lg_size (lg s') = lg_size (lg s) ∧
  (lh_n (lg s') = lh_n (lg s) ∨ lh_n (lg s') = 0).
Proof.
  unfold end_op. intros (l & s1 & [= <- <-] & H)%bind_Ok. apply bind_Ok in H as (? & s1 & [= _ <-] & H).
  destruct (negb _); [done|]. destruct (_ =? 0); [|injection H as _ <-; auto].
  apply bind_Ok in H as (? & s1 & [= _ <-] & H). apply bind_Ok in H as (? & s2 & H2%commit_log & [= _ <-]).
  cbn in *. rewrite H2. destruct (0 <? _); auto.
Qed.

Lemma lh_set_log i v s u s' :
  lh_set i v s = Ok (u, s') →
  lh_n (lg s') = lh_n (lg s) ∧ lg_outstanding (lg s') = lg_outstanding (lg s) ∧ lg_size (lg s') = lg_size (lg s).
Proof.
  unfold lh_set. intros (l & s1 & [= <- <-] & H)%bind_Ok. destruct (_ && _); [|done]. by injection H as _ <-.
Qed.

Lemma write_log_log i s u s' :
  log_write i s = Ok (u, s') →
  (lh_n (lg s') = lh_n (lg s) ∨ lh_n (lg s') = lh_n (lg s) + 1) ∧
  lg_outstanding (lg s') = lg_outstanding (lg s) ∧ lg_size (lg s') = lg_size (lg s).
Proof.
  unfold log_write. intros (l & s1 & [= <- <-] & H)%bind_Ok. destruct (_ || _); [done|]. destruct (_ <? 1); [done|].
  apply bind_Ok in H as (b & s1 & H1%logless_bio & H). apply bind_Ok in H as (? & s2 & (H2 & H3 & H4)%lh_set_log & H).
  apply bind_Ok in H as (? & s3 & Hs3 & H%logless_bio). rewrite H, <- H1, <- H2, <- H3, <- H4.
  destruct (_ =? _); injection Hs3 as _ <-; cbn; rewrite ?H2, ?H1; auto.
Qed.

Lemma reserved_step z x y : reserved z x → call_step x y → reserved z y.
Proof.
  intros [H1 H2 H3 H4 H5] Hs. destruct Hs as [s s' q Hb|s s' i q1 b q2 Hw|s s' q1 b q2 He]; cbn in *.
  - apply begin_log in Hb as [Hr E]. unfold LOGSIZE, MAXOPBLOCKS in *. split; cbn; rewrite ?E; cbn; [done| | |by constructor|done].
    + assert (Z.of_nat (sum_list q) ≤ Z.of_nat (length q) * 10); [|unfold LOGSIZE, MAXOPBLOCKS; lia].
      clear -H4. induction H4; cbn in *; lia.
    + lia.
  - apply write_log_log in Hw as (Hn & Ho & Hz). rewrite sum_list_with_app in H2. cbn in H2.
    rewrite length_app in H3. cbn in H3. apply Forall_app in H4 as [H4 H6]. apply Forall_cons in H6 as [H6 H7].
    unfold new_block. split; cbn; rewrite ?Ho, ?Hz, ?sum_list_with_app, ?length_app; cbn; [lia| |lia| |done].
    + destruct (Z.ltb_spec (lh_n (lg s)) (lh_n (lg s'))); lia.
    + apply Forall_app. split; [done|]. constructor; [|done]. destruct (_ <? _); lia.
  - apply end_log in He as (Ho & Hz & Hn). rewrite sum_list_with_app in H2. cbn in H2. rewrite length_app in H3. cbn in H3.
    apply Forall_app in H4 as [H4 H6]. apply Forall_cons in H6 as [H6 H7].
    split; cbn; rewrite ?Ho, ?Hz, ?sum_list_with_app, ?length_app; cbn; [lia|lia|lia| |done]. by apply Forall_app.
Qed.

(** Behind its guards log_write does not panic. *)
Definition calm {A} (m : M lst A) : Prop := ∀ s e, m s ≠ Panic e.

Lemma calm_bind {A B} (m : M lst A) (f : A → M lst B) : calm m → (∀ a, calm (f a)) → calm (m ≫= f).
Proof. intros Hm Hf s e H. unfold mbind, M_bind in H. destruct (m s) as [[a s']|e'| | |] eqn:E; try done; [by eapply Hf|by eapply Hm]. Qed.

Lemma calm_modbuf i f : calm (bio (modbuf i f)).
Proof. intros s e. unfold bio, zoom, modbuf. munfold. by destruct (bufs (lb s) !! i). Qed.

Lemma log_write_rest (l : log) (buf : nat) :
  calm (b ← bio (getbuf buf);
    let i := log_scan (Z.to_nat (lh_n l)) 0 (lh_block l) (b_blockno b) in
    lh_set i (b_blockno b);;
    (if i =? lh_n l then modlog (set_n (lh_n l + 1)) else mret tt);;
    bio (modbuf buf (λ b, set_flags (Z.lor (b_flags b) B_DIRTY) b))).
Proof.
  apply calm_bind; [|intros b; apply calm_bind; [|intros _; apply calm_bind; [|intros _; apply calm_modbuf]]].
  - intros s e. unfold bio, zoom, getbuf. munfold. by destruct (bufs (lb s) !! buf).
  - intros s e. unfold lh_set. munfold. by destruct (_ && _).
  - intros s e. by destruct (_ =? _).
Qed.

(** C18. The log has room for every call. Calls start, add blocks and end in any
    order, each adding at most MAXOPBLOCKS blocks to the transaction. With a log
    of more than LOGSIZE blocks (one for the header), a call that has not yet
    added all its blocks is never stopped by the log being full. *)
Theorem log_reservation (s0 s : lst) (q : list nat) (b : nat) (i : nat)
  (Hempty : lh_n (lg s0) = 0) (Hidle : lg_outstanding (lg s0) = 0) (Hsize : LOGSIZE < lg_size (lg s0))
  (Hreach : rtc call_step (s0, []) (s, q)) (Hleft : S b ∈ q) :
  log_write i s ≠ Panic "too big a transaction" ∧ lh_n (lg s) < LOGSIZE.
Proof.
  assert (R : reserved (lg_size (lg s0)) (s, q)).
  { eapply (rtc_inv call_step); [|by apply reserved_step|done]. split; cbn; [lia|unfold LOGSIZE, MAXOPBLOCKS; lia|done|done|done]. }
  destruct R as [R1 R2 R3 R4 R5]. cbn in *.
  assert (Hb : (S b ≤ sum_list q)%nat).
  { apply list_elem_of_split in Hleft as (q1 & q2 & ->). rewrite sum_list_with_app. cbn. lia. }
  assert (Hn : lh_n (lg s) < LOGSIZE) by lia. split; [|done].
  assert (E : (LOGSIZE <=? lh_n (lg s)) || (lg_size (lg s) - 1 <=? lh_n (lg s)) = false).
  { rewrite orb_false_iff, !Z.leb_gt. lia. }
  unfold log_write. rewrite (bind_eq _ _ _ _ _ eq_refl). rewrite E. destruct (_ <? 1); [done|]. by apply log_write_rest.
Qed.

(** * The log that mkfs makes

    mkfs gives the log LOGSIZE blocks, the header among them. *)

(** [n] calls of log_write, from buffer [k] on, each adding a block. *)
Fixpoint fill (n k : nat) (s : lst) : option lst :=
  match n with
  | O => Some s
  | S n =>
      match log_write k s with
      | Ok (_, s') => if new_block s s' then fill n (S k) s' else None
      | _ => None
      end
  end.

Lemma fill_steps n q1 b q2 : ∀ k s s',
  fill n k s = Some s' → rtc call_step (s, q1 ++ (n + b)%nat :: q2) (s', q1 ++ b :: q2).
Proof.
  induction n as [|n IH]; intros k s s' H; cbn [fill] in H; [injection H as <-; apply rtc_refl|].
  destruct (log_write k s) as [[[] s1]| | | |] eqn:E; try done. destruct (new_block s s1) eqn:En; [|done].
  eapply rtc_l; [|by apply (IH (S k))]. pose proof (call_write s s1 k q1 (n + b) q2 E) as Hs. by rewrite En in Hs.
Qed.

Definition full_buf (i : nat) : buf := mk_buf 2 1 (40 + Z.of_nat i) initsleeplock 0 0 0 (replicate 512 0).
Definition full_bst : bst := mk_bst (full_buf <$> seq 0 31) (mk_disk (λ _, replicate 512 0) [] 1000) 1.
Definition full_lst (n : Z) : lst := mk_lst full_bst (mk_log 2 LOGSIZE n 0 1 0 (replicate 30 0)).
Definition filled (n : nat) : lst := default (full_lst 0) (fill n 0 (full_lst 3)).

(** C19. The log of mkfs is one block too small for what begin_op reserves. In a log
    of LOGSIZE blocks three calls may start together, and when they have added 29
    blocks, within their MAXOPBLOCKS each, the next block stops the kernel: the
    three calls have 30 blocks reserved and the log holds 29. *)
Theorem log_reservation_short :
  lh_n (lg (full_lst 0)) = 0 ∧ lg_outstanding (lg (full_lst 0)) = 0 ∧ lg_size (lg (full_lst 0)) = LOGSIZE ∧
  rtc call_step (full_lst 0, []) (filled 29, [1; 0; 0]%nat) ∧
  lh_n (lg (filled 29)) = 29 ∧ log_write 29 (filled 29) = Panic "too big a transaction".
Proof.
  split_and!; try done.
  assert (Hb : rtc call_step (full_lst 0, []) (full_lst 3, [10; 10; 10]%nat)).
  { eapply rtc_l; [by apply (call_begin _ (full_lst 1))|]. eapply rtc_l; [by apply (call_begin _ (full_lst 2))|].
    apply rtc_once. by apply (call_begin _ (full_lst 3)). }
  etransitivity; [exact Hb|].
  etransitivity; [apply (fill_steps 10 [10; 10]%nat 0 [] 0 _ (filled 10)); by vm_compute|].
  etransitivity; [apply (fill_steps 10 [10]%nat 0 [0]%nat 10 _ (filled 20)); by vm_compute|].
  apply (fill_steps 9 [] 1 [0; 0]%nat 20). by vm_compute.
Qed.
