(* ===== verification/LogExamples.v ===== *)
(** Instances of the theorems on the buffer cache and the log, on a disk of 100
    blocks with the log in blocks 2 to 31. *)
From Stdlib Require Import ZArith Lia Bool.
From stdpp Require Import base tactics list strings sets gmap.
From S2P Require Import Prelude Machine Bio Cache Log LogCrash Blocks LogBlocks LogSpace.

Definition zeros : list Z := replicate 512 0.
Definition sevens : list Z := replicate 512 7.
Definition sb_block : list Z :=
  word 100 ++ word 60 ++ word 8 ++ word 30 ++ word 2 ++ word 32 ++ word 33 ++ replicate 484 0.
Definition ex_disk : disk := mk_disk (λ n, if n =? 1 then sb_block else zeros) [] 100.

(** The first buffer holds block 40, changed and not yet written; the others are
    unused. *)
Definition ex_buf (i : nat) : buf :=
  mk_buf (if (i =? 0)%nat then 6 else 0) (if (i =? 0)%nat then 1 else 0) (if (i =? 0)%nat then 40 else 0)
    initsleeplock 0 (if (i =? 0)%nat then HEAD else Nat.pred i) (if (i =? HEAD)%nat then 0%nat else S i)
    (if (i =? 0)%nat then sevens else zeros).
Definition ex_bst : bst := mk_bst (ex_buf <$> seq 0 31) ex_disk 1.
Definition ex_log : log := mk_log 2 30 0 1 1 1 (40 :: replicate 29 0).
Definition ex_lst : lst := mk_lst ex_bst ex_log.

Lemma ex_buf_lookup i b : bufs ex_bst !! i = Some b → b = ex_buf i ∧ (i < 31)%nat.
Proof.
  intros H. cbn [bufs ex_bst] in H. rewrite list_lookup_fmap in H. apply fmap_Some in H as (j & Hj & ->).
  apply lookup_seq in Hj as [-> ?]. done.
Qed.

Lemma ex_ring : ring ex_bst (seq 0 30).
Proof.
  exists (λ i, if (i =? HEAD)%nat then 0%nat else S i), (λ i, if (i =? 0)%nat then HEAD else Nat.pred i). split_and!.
  - split; [done|]. intros i b [-> _]%ex_buf_lookup. done.
  - vm_compute. tauto.
  - done.
Qed.

Lemma ex_cell i c : cells ex_bst !! i = Some c → c = strip (ex_buf i) ∧ (i < 30)%nat.
Proof. intros (b & [-> _]%ex_buf_lookup & -> & Hi)%cells_lookup. done. Qed.

Lemma ex_binv : binv ex_bst.
Proof.
  split; [by exists (seq 0 30); apply ex_ring|]. split.
  - done.
  - intros i c [-> _]%ex_cell. destruct i as [|i]; split; try done; cbn; try (by left); right; lia.
  - intros i j c c' [-> _]%ex_cell [-> _]%ex_cell. destruct i, j; cbn; done.
  - intros n. unfold d_block. cbn. by destruct (n =? 1).
Qed.

Lemma ex_dirty m : dirty ex_bst m ↔ m ∈ [40].
Proof.
  rewrite list_elem_of_singleton. split.
  - intros (v & i & c & [-> _]%ex_cell & Hf & Hb & _). destruct i; [done|by cbn in Hf].
  - intros ->. exists sevens, 0%nat, (strip (ex_buf 0)). done.
Qed.

Lemma ex_trans : in_trans ex_lst [40].
Proof.
  split.
  - split; [apply ex_binv|done|apply ex_dirty|done].
  - split; cbn; done.
  - done.
  - intros [|j] b H; [by injection H as <-|done].
  - apply Forall_singleton. split; [done|]. unfold in_log, NLOG, LOGSIZE, MAXOPBLOCKS. cbn. lia.
  - apply NoDup_singleton.
  - done.
Qed.

Lemma ex_log_on_disk : log_on_disk ex_disk 2 [].
Proof.
  split; try done.
  - intros n. unfold d_block. cbn. by destruct (n =? 1).
  - constructor.
Qed.

(** Block 50 is read into the buffer at the old end of the list. *)
Lemma cache_lru_witness :
  runs (i ← bread 1 50; brelse i;; mret i) ex_bst (λ i s', ∃ l1 l2,
    seq 0 30 = l1 ++ i :: l2 ∧ (∀ x, x ∈ l2 → in_use ex_bst x) ∧ ring s' (i :: l1 ++ l2) ∧ binv s' ∧
    (∃ c, cells s' !! i = Some c ∧ of_block 50 c ∧ b_data c = view ex_bst 50) ∧ ∀ m, view s' m = view ex_bst m).
Proof.
  apply (cache_lru ex_bst (seq 0 30) 50).
  - apply ex_ring.
  - apply ex_binv.
  - done.
  - intros j x [-> _]%ex_cell [_ H]. by destruct j.
  - vm_compute. lia.
Defined.

(** A crash after the copy and the header of block 40 are written. *)
Lemma commit_crash_atomic_witness :
  runs commit ex_lst (λ _ s', dsk (lb s') = write_all (commit_writes ex_lst [40]) ex_disk ∧
    ∀ m, home ex_log ex_disk m → d_block (dsk (lb s')) m = view ex_bst m) ∧
  runs restart (boot zeros (write_all (take 2 (commit_writes ex_lst [40])) ex_disk)) (λ _ s', ∀ m, home ex_log ex_disk m →
    d_block (dsk (lb s')) m = view ex_bst m).
Proof.
  apply (commit_crash_atomic ex_lst [40] ex_trans ex_log_on_disk); [done| |done|done].
  intros H%list_elem_of_singleton. done.
Defined.

(** One call has started and may add ten blocks. *)
Definition roomy (n : Z) : lst := mk_lst ex_bst (mk_log 2 31 n 0 1 0 (replicate 30 0)).

Lemma log_reservation_witness :
  log_write 0 (roomy 1) ≠ Panic "too big a transaction" ∧ lh_n (lg (roomy 1)) < LOGSIZE.
Proof.
  apply (log_reservation (roomy 0) (roomy 1) [10%nat] 9 0); [done|done|done| |].
  - apply rtc_once. by apply (call_begin (roomy 0) (roomy 1) []).
  - by apply list_elem_of_singleton.
Defined.

(** A call that has changed block 40. *)
Definition ex_open : lst := mk_lst ex_bst (mk_log 2 30 1 0 1 1 (40 :: replicate 29 0)).

Lemma ex_open_ok : log_ok ex_open.
Proof.
  destruct ex_trans as [[Q1 Q2 Q3 Q4] [G1 G2 G3 G4] T1 T2 T3 T4 T5]. exists [40]. split; try done.
  - intros i n v H. by apply none_held in H.
  - cbn. lia.
Qed.

Definition ex_calls : list bop := [BRead 40; BUpdate 50 sevens; BEnd; BRead 50].
Definition ex_final : bview :=
  mk_bview (set_block_v 50 sevens (v_blocks (log_abs ex_open))) ∅ ∅ 0 (mk_geo 100 2).

Lemma block_layer_refines_witness :
  runs (code_run ex_calls) ex_open (λ rs s', rs = [sevens; []; []; sevens] ∧ log_ok s' ∧ log_abs s' = ex_final).
Proof.
  apply (block_layer_refines ex_open ex_calls [sevens; []; []; sevens] ex_final).
  - apply ex_open_ok.
  - by vm_compute.
  - vm_compute. done.
Defined.
