(* ===== verification/Fs.v ===== *)
(** The file system (fs.c): block allocation, inodes, their contents, directories
    and path names, written against the block layer of Blocks.v.

    A pointer to an inode is its index in icache.inode. The spin lock of the inode
    cache is held only inside one operation; an operation here is what happens
    between taking and releasing it. A process that finds an inode locked sleeps:
    the outcome [Blocked]. *)
From Stdlib Require Import ZArith Lia Bool.
From stdpp Require Import base tactics list strings sets gmap.
From S2P Require Import Prelude Machine Bio Log Blocks.

(** * param.h, fs.h, stat.h and file.h *)

Definition NINODE : Z := 50.
Definition NDEV : Z := 10.
Definition ROOTINO : Z := 1.
Definition NDIRECT : Z := 12.
Definition NINDIRECT : Z := BSIZE / 4.
Definition MAXFILE : Z := NDIRECT + NINDIRECT.
Definition T_DIR : Z := 1.
Definition T_FILE : Z := 2.
Definition T_DEV : Z := 3.
Definition DIRSIZ : nat := 14.

(** A 16-bit signed integer ([short]). *)
Definition s16 (x : Z) : Z := let y := x mod 2 ^ 16 in if y <? 2 ^ 15 then y else y - 2 ^ 16.

(** [struct dinode], an inode on the disk. *)
Record dinode := mk_dinode {
  d_type : Z;
  d_major : Z;
  d_minor : Z;
  d_nlink : Z;
  d_isize : Z;
  d_addrs : list Z }.

Definition sizeof_dinode : Z := 64.
(** Inodes per block, and the block of inode [i]. *)
Definition IPB : Z := BSIZE / sizeof_dinode.
Definition IBLOCK (i : Z) (sb : superblock) : Z := u32 (i / IPB + sb_inodestart sb).
(** Bits of the free map per block, and the block with the bit of block [b]. *)
Definition BPB : Z := BSIZE * 8.
Definition BBLOCK (b : Z) (sb : superblock) : Z := u32 (b / BPB + sb_bmapstart sb).

(** The inode at offset [o] of a block, and storing one there. *)
Definition word_at (d : list Z) (o : nat) (j : nat) : Z := field d (o + 4 * j) 4.
Definition dinode_at (d : list Z) (o : nat) : dinode :=
  mk_dinode (s16 (field d o 2)) (s16 (field d (o + 2) 2)) (s16 (field d (o + 4) 2)) (s16 (field d (o + 6) 2))
    (field d (o + 8) 4) (word_at d (o + 12) <$> seq 0 13).
Definition dinode_bytes (i : dinode) : list Z :=
  half (d_type i) ++ half (d_major i) ++ half (d_minor i) ++ half (d_nlink i) ++ word (d_isize i) ++
  concat (word <$> d_addrs i).

(** [struct inode], an inode in memory. *)
Record inode := mk_inode {
  i_dev : Z;
  i_inum : Z;
  i_ref : Z;
  i_lock : sleeplock;
  i_valid : Z;
  i_type : Z;
  i_major : Z;
  i_minor : Z;
  i_nlink : Z;
  i_size : Z;
  i_addrs : list Z }.

Definition set_i_ref (v : Z) (i : inode) : inode := mk_inode (i_dev i) (i_inum i) v (i_lock i) (i_valid i) (i_type i) (i_major i) (i_minor i) (i_nlink i) (i_size i) (i_addrs i).
Definition set_i_lock (v : sleeplock) (i : inode) : inode := mk_inode (i_dev i) (i_inum i) (i_ref i) v (i_valid i) (i_type i) (i_major i) (i_minor i) (i_nlink i) (i_size i) (i_addrs i).
Definition set_i_valid (v : Z) (i : inode) : inode := mk_inode (i_dev i) (i_inum i) (i_ref i) (i_lock i) v (i_type i) (i_major i) (i_minor i) (i_nlink i) (i_size i) (i_addrs i).
Definition set_i_type (v : Z) (i : inode) : inode := mk_inode (i_dev i) (i_inum i) (i_ref i) (i_lock i) (i_valid i) v (i_major i) (i_minor i) (i_nlink i) (i_size i) (i_addrs i).
Definition set_i_nlink (v : Z) (i : inode) : inode := mk_inode (i_dev i) (i_inum i) (i_ref i) (i_lock i) (i_valid i) (i_type i) (i_major i) (i_minor i) v (i_size i) (i_addrs i).
Definition set_i_size (v : Z) (i : inode) : inode := mk_inode (i_dev i) (i_inum i) (i_ref i) (i_lock i) (i_valid i) (i_type i) (i_major i) (i_minor i) (i_nlink i) v (i_addrs i).
Definition set_i_addrs (v : list Z) (i : inode) : inode := mk_inode (i_dev i) (i_inum i) (i_ref i) (i_lock i) (i_valid i) (i_type i) (i_major i) (i_minor i) (i_nlink i) (i_size i) v.

(** The fields that live on the disk. *)
Definition dinode_of (i : inode) : dinode := mk_dinode (i_type i) (i_major i) (i_minor i) (i_nlink i) (i_size i) (i_addrs i).
Definition with_dinode (d : dinode) (i : inode) : inode :=
  mk_inode (i_dev i) (i_inum i) (i_ref i) (i_lock i) (i_valid i) (d_type d) (d_major d) (d_minor d) (d_nlink d) (d_isize d) (d_addrs d).

(** [struct stat] *)
Record stat := mk_stat { st_type : Z; st_dev : Z; st_ino : Z; st_nlink : Z; st_size : Z }.

(** [struct dirent] *)
Record dirent := mk_dirent { de_inum : Z; de_name : list Z }.
Definition sizeof_dirent : Z := 16.
Definition dirent_of (l : list Z) : dirent := mk_dirent (field l 0 2) (take DIRSIZ (drop 2 l)).
Definition dirent_bytes (e : dirent) : list Z := half (de_inum e) ++ de_name e.

(** * State *)

Section state.
  Context {B : Type}.

(** The block layer, the super block ([sb]), the inode cache, and the process that
    runs. *)
Record fss := mk_fss { blk : B; fsb : superblock; icache : list inode; fpid : Z }.

Definition set_blk (b : B) (s : fss) : fss := mk_fss b (fsb s) (icache s) (fpid s).
Definition set_fsb (v : superblock) (s : fss) : fss := mk_fss (blk s) v (icache s) (fpid s).
Definition set_icache (l : list inode) (s : fss) : fss := mk_fss (blk s) (fsb s) l (fpid s).

Definition onblk {A} (m : M B A) : M fss A := zoom blk set_blk m.
Definition getino (i : nat) : M fss inode := s ← get; oget (icache s !! i).
Definition modino (i : nat) (f : inode → inode) : M fss unit :=
  s ← get; ip ← oget (icache s !! i); modify (set_icache (<[i := f ip]> (icache s))).
(** An operation on the sleep lock of an inode. *)
Definition on_ilock {A} (i : nat) (m : M sleeplock A) : M fss A := λ s,
  match icache s !! i with
  | None => Fault
  | Some ip => zoom (λ _, i_lock ip) (λ l s, set_icache (<[i := set_i_lock l ip]> (icache s)) s) m s
  end.
End state.
Arguments fss : clear implicits.

(** The device table: reading and writing a device inode. *)
Class DevSw (B : Type) := {
  dev_read : Z → option (nat → Z → M (fss B) (Z * list Z));
  dev_write : Z → option (nat → list Z → M (fss B) Z) }.

Section fs.
  Context {B : Type} {BO : BlockOps B} {DS : DevSw B}.
  Notation K := (M (fss B)).

Definition bread' (dev n : Z) : K nat := onblk (bk_bread dev n).
Definition data' (bp : nat) : K (list Z) := onblk (bk_data bp).
Definition store' (bp : nat) (v : list Z) : K unit := onblk (bk_store bp v).
Definition log_write' (bp : nat) : K unit := onblk (bk_log_write bp).
Definition brelse' (bp : nat) : K unit := onblk (bk_brelse bp).

(** * Blocks *)

Definition bzero (dev bno : Z) : K unit :=
  bp ← bread' dev bno;
  store' bp (replicate (Z.to_nat BSIZE) 0);;
  log_write' bp;;
  brelse' bp.

(** [data[bi / 8] & (1 << bi % 8)], and storing a byte there. *)
Definition map_byte (d : list Z) (bi : Z) : Z := default 0 (d !! Z.to_nat (bi / 8)).
Definition map_mask (bi : Z) : Z := Z.shiftl 1 (bi mod 8).
Definition map_bit (d : list Z) (bi : Z) : bool := negb (Z.land (map_byte d bi) (map_mask bi) =? 0).
Definition map_store (d : list Z) (bi v : Z) : list Z := <[Z.to_nat (bi / 8) := v]> d.

(** The inner loop of balloc, from bit [bi] of the bitmap block for the blocks from
    [b] on: the first free one. *)
Fixpoint bit_scan (n : nat) (b bi size : Z) (d : list Z) : option Z :=
  match n with
  | O => None
  | S n =>
      if b + bi <? size then if map_bit d bi then bit_scan n b (bi + 1) size d else Some bi
      else None
  end.

Fixpoint balloc_loop (fuel : nat) (dev b : Z) : K Z :=
  s ← get;
  let sb := fsb s in
  if b <? sb_size sb then
    bp ← bread' dev (BBLOCK b sb);
    d ← data' bp;
    match bit_scan (Z.to_nat BPB) b 0 (sb_size sb) d with
    | Some bi =>
        store' bp (map_store d bi (Z.lor (map_byte d bi) (map_mask bi)));;
        log_write' bp;;
        brelse' bp;;
        bzero dev (b + bi);;
        mret (b + bi)
    | None =>
        brelse' bp;;
        match fuel with
        | O => nofuel
        | S fuel => balloc_loop fuel dev (b + BPB)
        end
    end
  else panic "balloc: out of blocks".

(** The outer loop makes one round for each block of the free map and stops in the
    next. *)
Definition balloc (dev : Z) : K Z := s ← get; balloc_loop (Z.to_nat (sb_size (fsb s) / BPB + 1)) dev 0.

Definition bfree (dev b : Z) : K unit :=
  sb ← onblk (bk_readsb dev);
  modify (set_fsb sb);;
  bp ← bread' dev (BBLOCK b sb);
  let bi := b mod BPB in
  d ← data' bp;
  if negb (map_bit d bi) then panic "freeing free block" else
  store' bp (map_store d bi (clr (map_byte d bi) (map_mask bi)));;
  log_write' bp;;
  brelse' bp.

(** * Inodes *)

(** The message of iinit is not modelled. *)
Definition iinit (dev : Z) : K unit :=
  modify (λ s, set_icache (set_i_lock initsleeplock <$> icache s) s);;
  sb ← onblk (bk_readsb dev);
  modify (set_fsb sb).

(** The loop of iget over the inodes from index [i] on, with the empty slot found so
    far: the inode, or the empty slot. *)
Fixpoint iget_scan (l : list inode) (i : nat) (dev inum : Z) (empty : option nat) : nat + option nat :=
  match l with
  | [] => inr empty
  | ip :: l =>
      if (0 <? i_ref ip) && (i_dev ip =? dev) && (i_inum ip =? inum) then inl i else
      let empty := match empty with
                   | Some e => Some e
                   | None => if i_ref ip =? 0 then Some i else None
                   end in
      iget_scan l (S i) dev inum empty
  end.

Definition iget (dev inum : Z) : K nat :=
  s ← get;
  match iget_scan (icache s) 0 dev inum None with
  | inl i => modino i (λ ip, set_i_ref (s32 (i_ref ip + 1)) ip);; mret i
  | inr None => panic "iget: no inodes"
  | inr (Some e) =>
      modino e (λ ip, mk_inode dev inum 1 (i_lock ip) 0 (i_type ip) (i_major ip) (i_minor ip) (i_nlink ip) (i_size ip) (i_addrs ip));;
      mret e
  end.

Definition idup (ip : nat) : K nat := modino ip (λ i, set_i_ref (s32 (i_ref i + 1)) i);; mret ip.

(** The loop of ialloc from inode [inum] on. *)
Fixpoint ialloc_loop (fuel : nat) (dev inum type : Z) : K nat :=
  s ← get;
  let sb := fsb s in
  if inum <? sb_ninodes sb then
    bp ← bread' dev (IBLOCK inum sb);
    d ← data' bp;
    let o := Z.to_nat (inum mod IPB * sizeof_dinode) in
    if d_type (dinode_at d o) =? 0 then
      store' bp (splice d o (half type ++ replicate (Z.to_nat sizeof_dinode - 2) 0));;
      log_write' bp;;
      brelse' bp;;
      iget dev inum
    else
      brelse' bp;;
      match fuel with
      | O => nofuel
      | S fuel => ialloc_loop fuel dev (inum + 1) type
      end
  else panic "ialloc: no inodes".

Definition ialloc (dev type : Z) : K nat := s ← get; ialloc_loop (Z.to_nat (sb_ninodes (fsb s))) dev 1 type.

Definition iupdate (ip : nat) : K unit :=
  i ← getino ip;
  s ← get;
  bp ← bread' (i_dev i) (IBLOCK (i_inum i) (fsb s));
  d ← data' bp;
  let o := Z.to_nat (i_inum i mod IPB * sizeof_dinode) in
  store' bp (splice d o (dinode_bytes (dinode_of i)));;
  log_write' bp;;
  brelse' bp.

(** [None] is the null pointer. *)
Definition ilock (ip : option nat) : K unit :=
  match ip with
  | None => panic "ilock"
  | Some ip =>
      i ← getino ip;
      if i_ref i <? 1 then panic "ilock" else
      s ← get;
      on_ilock ip (acquiresleep (fpid s));;
      i ← getino ip;
      if i_valid i =? 0 then
        bp ← bread' (i_dev i) (IBLOCK (i_inum i) (fsb s));
        d ← data' bp;
        let di := dinode_at d (Z.to_nat (i_inum i mod IPB * sizeof_dinode)) in
        modino ip (with_dinode di);;
        brelse' bp;;
        modino ip (set_i_valid 1);;
        if d_type di =? 0 then panic "ilock: no type" else mret tt
      else mret tt
  end.

Definition iunlock (ip : option nat) : K unit :=
  match ip with
  | None => panic "iunlock"
  | Some ip =>
      h ← on_ilock ip holdingsleep;
      i ← getino ip;
      if negb h || (i_ref i <? 1) then panic "iunlock" else
      on_ilock ip releasesleep
  end.

(** ** Contents *)

(** [addrs[j]] of inode [ip] becomes [v]. *)
Definition set_addr (ip : nat) (j : nat) (v : Z) : K unit := modino ip (λ i, set_i_addrs (<[j := v]> (i_addrs i)) i).

(** The loops of itrunc: the direct blocks from index [j] on, [n] of them, and the
    entries of the indirect block in buffer [bp]. *)
Fixpoint trunc_direct (n j ip : nat) : K unit :=
  match n with
  | O => mret tt
  | S n =>
      i ← getino ip;
      a ← oget (i_addrs i !! j);
      (if a =? 0 then mret tt else bfree (i_dev i) a;; set_addr ip j 0);;
      trunc_direct n (S j) ip
  end.

Fixpoint trunc_indirect (n j ip bp : nat) : K unit :=
  match n with
  | O => mret tt
  | S n =>
      d ← data' bp;
      let a := word_at d 0 j in
      i ← getino ip;
      (if a =? 0 then mret tt else bfree (i_dev i) a);;
      trunc_indirect n (S j) ip bp
  end.

Definition itrunc (ip : nat) : K unit :=
  trunc_direct (Z.to_nat NDIRECT) 0 ip;;
  i ← getino ip;
  a ← oget (i_addrs i !! Z.to_nat NDIRECT);
  (if a =? 0 then mret tt else
     bp ← bread' (i_dev i) a;
     trunc_indirect (Z.to_nat NINDIRECT) 0 ip bp;;
     brelse' bp;;
     bfree (i_dev i) a;;
     set_addr ip (Z.to_nat NDIRECT) 0);;
  modino ip (set_i_size 0);;
  iupdate ip.

Definition iput (ip : nat) : K unit :=
  s ← get;
  on_ilock ip (acquiresleep (fpid s));;
  i ← getino ip;
  (if negb (i_valid i =? 0) && (i_nlink i =? 0) then
     if i_ref i =? 1 then
       itrunc ip;;
       modino ip (set_i_type 0);;
       iupdate ip;;
       modino ip (set_i_valid 0)
     else mret tt
   else mret tt);;
  on_ilock ip releasesleep;;
  modino ip (λ i, set_i_ref (s32 (i_ref i - 1)) i).

Definition iunlockput (ip : nat) : K unit := iunlock (Some ip);; iput ip.

Definition bmap (ip : nat) (bn : Z) : K Z :=
  i ← getino ip;
  if bn <? NDIRECT then
    a ← oget (i_addrs i !! Z.to_nat bn);
    if a =? 0 then a ← balloc (i_dev i); set_addr ip (Z.to_nat bn) a;; mret a else mret a
  else
  let bn := bn - NDIRECT in
  if bn <? NINDIRECT then
    a ← oget (i_addrs i !! Z.to_nat NDIRECT);
    a ← (if a =? 0 then a ← balloc (i_dev i); set_addr ip (Z.to_nat NDIRECT) a;; mret a else mret a);
    bp ← bread' (i_dev i) a;
    d ← data' bp;
    let a := word_at d 0 (Z.to_nat bn) in
    a ← (if a =? 0 then
           a ← balloc (i_dev i);
           d ← data' bp;
           store' bp (splice d (Z.to_nat (4 * bn)) (word a));;
           log_write' bp;;
           mret a
         else mret a);
    brelse' bp;;
    mret a
  else panic "bmap: out of range".

Definition stati (ip : nat) : K stat :=
  i ← getino ip; mret (mk_stat (i_type i) (i_dev i) (i_inum i) (i_nlink i) (i_size i)).

(** The copying loop of readi: [n - tot] bytes are left, the bytes so far are [acc]. *)
Fixpoint readi_loop (fuel : nat) (ip : nat) (off tot n : Z) (acc : list Z) : K (list Z) :=
  if tot <? n then
    match fuel with
    | O => nofuel
    | S fuel =>
        i ← getino ip;
        a ← bmap ip (off / BSIZE);
        bp ← bread' (i_dev i) a;
        d ← data' bp;
        let m := Z.min (n - tot) (BSIZE - off mod BSIZE) in
        brelse' bp;;
        readi_loop fuel ip (off + m) (tot + m) n (acc ++ take (Z.to_nat m) (drop (Z.to_nat (off mod BSIZE)) d))
    end
  else mret acc.

(** What readi returns, and the bytes it stores. A round copies at least one byte. *)
Definition readi (ip : nat) (off n : Z) : K (Z * list Z) :=
  i ← getino ip;
  if i_type i =? T_DEV then
    if (i_major i <? 0) || (NDEV <=? i_major i) then mret (-1, []) else
    match dev_read (i_major i) with
    | None => mret (-1, [])
    | Some f => f ip n
    end
  else
  if (i_size i <? off) || (u32 (off + n) <? off) then mret (-1, []) else
  let n := if i_size i <? off + n then i_size i - off else n in
  l ← readi_loop (Z.to_nat n) ip off 0 n [];
  mret (s32 n, l).

(** The copying loop of writei for the bytes [src]; it returns the final offset. *)
Fixpoint writei_loop (fuel : nat) (ip : nat) (off tot n : Z) (src : list Z) : K Z :=
  if tot <? n then
    match fuel with
    | O => nofuel
    | S fuel =>
        i ← getino ip;
        a ← bmap ip (off / BSIZE);
        bp ← bread' (i_dev i) a;
        let m := Z.min (n - tot) (BSIZE - off mod BSIZE) in
        d ← data' bp;
        store' bp (splice d (Z.to_nat (off mod BSIZE)) (take (Z.to_nat m) src));;
        log_write' bp;;
        brelse' bp;;
        writei_loop fuel ip (off + m) (tot + m) n (drop (Z.to_nat m) src)
    end
  else mret off.

Definition writei (ip : nat) (src : list Z) (off n : Z) : K Z :=
  i ← getino ip;
  if i_type i =? T_DEV then
    if (i_major i <? 0) || (NDEV <=? i_major i) then mret (-1) else
    match dev_write (i_major i) with
    | None => mret (-1)
    | Some f => f ip (take (Z.to_nat n) src)
    end
  else
  if (i_size i <? off) || (u32 (off + n) <? off) then mret (-1) else
  if MAXFILE * BSIZE <? off + n then mret (-1) else
  off ← writei_loop (Z.to_nat n) ip off 0 n src;
  i ← getino ip;
  (if (0 <? n) && (i_size i <? off) then modino ip (set_i_size off);; iupdate ip else mret tt);;
  mret (s32 n).

(** * Directories

    A name is a list of characters without NUL; in the array [char name[DIRSIZ]]
    it ends at the end of the array or at a NUL, and what follows the NUL is never
    read. *)

(** The kernel's strncmp for arrays of characters that end in NULs. *)
Fixpoint strncmp_l (s t : list Z) (n : nat) : Z :=
  match n with
  | O => 0
  | S n =>
      let p := default 0 (head s) in
      let q := default 0 (head t) in
      if negb (p =? 0) && (p =? q) then strncmp_l (tail s) (tail t) n else p - q
  end.

Definition namecmp (s t : list Z) : Z := strncmp_l s t DIRSIZ.

(** The array that strncpy(_, s, n) fills. *)
Fixpoint strncpy_l (s : list Z) (n : nat) : list Z :=
  match n with
  | O => []
  | S n => match s with [] => 0 :: strncpy_l [] n | c :: s => if c =? 0 then 0 :: strncpy_l [] n else c :: strncpy_l s n end
  end.

(** The loop of dirlookup from offset [off] on: the inode and the offset. *)
Fixpoint dirlookup_loop (fuel : nat) (dp : nat) (name : list Z) (off : Z) : K (option (nat * Z)) :=
  i ← getino dp;
  if off <? i_size i then
    match fuel with
    | O => nofuel
    | S fuel =>
        '(r, l) ← readi dp off sizeof_dirent;
        if negb (r =? sizeof_dirent) then panic "dirlookup read" else
        let de := dirent_of l in
        if de_inum de =? 0 then dirlookup_loop fuel dp name (u32 (off + sizeof_dirent)) else
        if namecmp name (de_name de) =? 0 then
          ip ← iget (i_dev i) (de_inum de);
          mret (Some (ip, off))
        else dirlookup_loop fuel dp name (u32 (off + sizeof_dirent))
    end
  else mret None.

(** One round for each entry of the directory. *)
Definition dirlookup (dp : nat) (name : list Z) : K (option (nat * Z)) :=
  i ← getino dp;
  if negb (i_type i =? T_DIR) then panic "dirlookup not DIR" else
  dirlookup_loop (Z.to_nat (i_size i / sizeof_dirent + 1)) dp name 0.

(** The loop of dirlink: the offset of the first empty entry. *)
Fixpoint dirlink_loop (fuel : nat) (dp : nat) (off : Z) : K Z :=
  i ← getino dp;
  if off <? i_size i then
    match fuel with
    | O => nofuel
    | S fuel =>
        '(r, l) ← readi dp off sizeof_dirent;
        if negb (r =? sizeof_dirent) then panic "dirlink read" else
        if de_inum (dirent_of l) =? 0 then mret off else dirlink_loop fuel dp (off + sizeof_dirent)
    end
  else mret off.

Definition dirlink (dp : nat) (name : list Z) (inum : Z) : K Z :=
  o ← dirlookup dp name;
  match o with
  | Some (ip, _) => iput ip;; mret (-1)
  | None =>
      i ← getino dp;
      off ← dirlink_loop (Z.to_nat (i_size i / sizeof_dirent + 1)) dp 0;
      r ← writei dp (dirent_bytes (mk_dirent inum (strncpy_l name DIRSIZ))) off sizeof_dirent;
      if negb (r =? sizeof_dirent) then panic "dirlink" else mret 0
  end.

(** * Paths *)

Definition SLASH : Z := 47.

Fixpoint skip_slashes (path : list Z) : list Z :=
  match path with c :: p => if c =? SLASH then skip_slashes p else path | [] => [] end.
Fixpoint path_elem (path : list Z) : list Z :=
  match path with c :: p => if c =? SLASH then [] else c :: path_elem p | [] => [] end.

(** The rest of the path and the element, cut to DIRSIZ characters. *)
Definition skipelem (path : list Z) : option (list Z * list Z) :=
  let path := skip_slashes path in
  match path with
  | [] => None
  | _ =>
      let s := path_elem path in
      Some (skip_slashes (drop (length s) path), take DIRSIZ s)
  end.

(** The loop of namex at inode [ip]; [name] is the element looked up last. *)
Fixpoint namex_loop (fuel : nat) (ip : nat) (path : list Z) (nameiparent : bool) (name : list Z) : K (option (nat * list Z)) :=
  match skipelem path with
  | None => if nameiparent then iput ip;; mret None else mret (Some (ip, name))
  | Some (path, name) =>
      ilock (Some ip);;
      i ← getino ip;
      if negb (i_type i =? T_DIR) then iunlockput ip;; mret None else
      if nameiparent && bool_decide (path = []) then iunlock (Some ip);; mret (Some (ip, name)) else
      o ← dirlookup ip name;
      match o with
      | None => iunlockput ip;; mret None
      | Some (next, _) =>
          iunlockput ip;;
          match fuel with
          | O => nofuel
          | S fuel => namex_loop fuel next path nameiparent name
          end
      end
  end.

(** Every element takes at least one character of the path. *)
Definition namex (cwd : nat) (path : list Z) (nameiparent : bool) : K (option (nat * list Z)) :=
  ip ← (if bool_decide (head path = Some SLASH) then iget 1 ROOTINO else idup cwd);
  namex_loop (length path) ip path nameiparent [].

Definition namei (cwd : nat) (path : list Z) : K (option nat) := o ← namex cwd path false; mret (fst <$> o).
Definition nameiparent (cwd : nat) (path : list Z) : K (option (nat * list Z)) := namex cwd path true.
End fs.
