(* ===== verification/FsAlloc.v ===== *)
(** Block allocation in the file system (fs.c: bzero, balloc, bfree): the free map
    and what allocating and freeing a block do to it. *)
From Stdlib Require Import ZArith Lia Bool.
From stdpp Require Import base tactics list strings sets gmap.
From S2P Require Import Prelude Machine Bio Log Blocks Fs.

(** * Bits of the free map *)

Lemma map_bit_testbit d bi : 0 ≤ bi → map_bit d bi = Z.testbit (map_byte d bi) (bi mod 8).
Proof.
  intros H. unfold map_bit, map_mask. pose proof (Z.mod_pos_bound bi 8).
  rewrite Z.shiftl_1_l. destruct (Z.testbit (map_byte d bi) (bi mod 8)) eqn:E.
  - apply negb_true_iff, Z.eqb_neq. intros E0. apply (f_equal (λ x, Z.testbit x (bi mod 8))) in E0.
    rewrite Z.land_spec, Z.pow2_bits_true, Z.bits_0, E in E0 by lia. done.
  - apply negb_false_iff, Z.eqb_eq. apply Z.bits_inj'. intros k Hk. rewrite Z.land_spec, Z.bits_0.
    destruct (decide (k = bi mod 8)) as [->|]; [by rewrite E|]. rewrite Z.pow2_bits_false by lia. apply andb_false_r.
Qed.

Definition map_set (d : list Z) (bi : Z) : list Z := map_store d bi (Z.lor (map_byte d bi) (map_mask bi)).
Definition map_clear (d : list Z) (bi : Z) : list Z := map_store d bi (clr (map_byte d bi) (map_mask bi)).

Lemma map_byte_store d bi bj v :
  0 ≤ bi → 0 ≤ bj → bi / 8 < Z.of_nat (length d) →
  map_byte (map_store d bi v) bj = if bj / 8 =? bi / 8 then v else map_byte d bj.
Proof.
  intros Hi Hj Hl. unfold map_byte, map_store. pose proof (Z.div_pos bi 8). pose proof (Z.div_pos bj 8).
  destruct (Z.eqb_spec (bj / 8) (bi / 8)) as [->|Hne].
  - by rewrite list_lookup_insert_eq by lia.
  - by rewrite list_lookup_insert_ne by lia.
Qed.

Lemma map_set_bit d bi bj :
  0 ≤ bi → 0 ≤ bj → bi / 8 < Z.of_nat (length d) → map_bit (map_set d bi) bj = (bj =? bi) || map_bit d bj.
Proof.
  intros Hi Hj Hl. rewrite !map_bit_testbit by done. unfold map_set. rewrite map_byte_store by done.
  pose proof (Z.mod_pos_bound bi 8). pose proof (Z.mod_pos_bound bj 8).
  destruct (Z.eqb_spec (bj / 8) (bi / 8)) as [E|E].
  - assert (Eb : map_byte d bj = map_byte d bi) by (unfold map_byte; by rewrite E). unfold map_mask.
    rewrite Z.lor_spec, Z.shiftl_1_l, Eb, orb_comm. f_equal. destruct (Z.eqb_spec bj bi) as [->|Hne].
    + apply Z.pow2_bits_true. lia.
    + apply Z.pow2_bits_false. intros Em. apply Hne. rewrite (Z.div_mod bj 8), (Z.div_mod bi 8) by lia. lia.
  - destruct (Z.eqb_spec bj bi) as [->|]; [done|]. done.
Qed.

Lemma map_clear_bit d bi bj :
  0 ≤ bi → 0 ≤ bj → bi / 8 < Z.of_nat (length d) → map_bit (map_clear d bi) bj = negb (bj =? bi) && map_bit d bj.
Proof.
  intros Hi Hj Hl. rewrite !map_bit_testbit by done. unfold map_clear. rewrite map_byte_store by done.
  pose proof (Z.mod_pos_bound bi 8). pose proof (Z.mod_pos_bound bj 8).
  destruct (Z.eqb_spec (bj / 8) (bi / 8)) as [E|E].
  - assert (Eb : map_byte d bj = map_byte d bi) by (unfold map_byte; by rewrite E). unfold map_mask.
    rewrite Z.shiftl_1_l, testbit_clr, Eb, andb_comm by lia. f_equal. f_equal. destruct (Z.eqb_spec bj bi) as [->|Hne].
    + apply Z.eqb_refl.
    + apply Z.eqb_neq. intros Em. apply Hne. rewrite (Z.div_mod bj 8), (Z.div_mod bi 8) by lia. lia.
  - by destruct (Z.eqb_spec bj bi) as [->|].
Qed.

Lemma length_map_store d bi v : length (map_store d bi v) = length d.
Proof. apply length_insert. Qed.

(** The scan finds the first free bit. *)
Lemma bit_scan_Some n b size d : ∀ bi r,
  bit_scan n b bi size d = Some r →
  bi ≤ r < bi + Z.of_nat n ∧ b + r < size ∧ map_bit d r = false ∧ ∀ j, bi ≤ j < r → map_bit d j = true.
Proof.
  induction n as [|n IH]; intros bi r; cbn [bit_scan]; [done|]. destruct (Z.ltb_spec (b + bi) size); [|done].
  destruct (map_bit d bi) eqn:E.
  - intros (H1 & H2 & H3 & H4)%IH. split_and!; [lia|lia|done|done|]. intros j Hj.
    destruct (decide (j = bi)) as [->|]; [done|]. apply H4. lia.
  - intros [= <-]. split_and!; [lia|lia|done|done|lia].
Qed.

Lemma bit_scan_None n b size d : ∀ bi,
  bit_scan n b bi size d = None → ∀ j, bi ≤ j < bi + Z.of_nat n → b + j < size → map_bit d j = true.
Proof.
  induction n as [|n IH]; intros bi; cbn [bit_scan]; [lia|]. destruct (Z.ltb_spec (b + bi) size); [|lia].
  destruct (map_bit d bi) eqn:E; [|done]. intros HN j Hj Hs. destruct (decide (j = bi)) as [->|]; [done|].
  apply (IH _ HN); lia.
Qed.

(** * Running block operations in the file system *)

Section steps.
  Context {B : Type} {BO : BlockOps B} {BL : BlockLaws B} {DS : DevSw B}.
  Implicit Types s : fss B.

Definition fok (s : fss B) : Prop := bk_ok (blk s).
Definition fv (s : fss B) : bview := bk_abs (blk s).
Definition blocks (s : fss B) : Z → list Z := v_blocks (fv s).

Lemma runs_onblk {A} (m : M B A) s Q : runs m (blk s) (λ a b, Q a (set_blk b s)) → runs (onblk m) s Q.
Proof. apply runs_zoom. Qed.

Lemma step_bread {A} s n (K : nat → M (fss B) A) Q :
  fok s → at_home (v_geo (fv s)) n → v_free (fv s) n → v_room (fv s) →
  (∀ i b, bk_ok b → v_held (fv s) !! i = None → bk_abs b = v_take i n (fv s) → runs (K i) (set_blk b s) Q) →
  runs (bread' 1 n ≫= K) s Q.
Proof.
  intros Hok Hn Hf Hr HK. mstep. apply runs_onblk. eapply runs_mono; [by apply bk_bread_run|].
  intros i b (H1 & H2 & H3). by apply HK.
Qed.

Lemma step_data {A} s bp n v (K : list Z → M (fss B) A) Q :
  fok s → v_held (fv s) !! bp = Some (n, v) → runs (K v) s Q → runs (data' bp ≫= K) s Q.
Proof.
  intros Hok Hh HK. mstep. apply runs_onblk. eapply runs_mono; [by apply (bk_data_run (blk s) bp n v)|].
  intros w b [-> ->]. by destruct s.
Qed.

Lemma step_write {A} s bp n v w (K : unit → M (fss B) A) Q :
  fok s → v_held (fv s) !! bp = Some (n, v) → length w = Z.to_nat BSIZE → v_logs (fv s) →
  (∀ b, bk_ok b → bk_abs b = v_put bp n w (fv s) → runs (K tt) (set_blk b s) Q) →
  runs (store' bp w ≫= λ _, log_write' bp ≫= K) s Q.
Proof.
  intros Hok Hh Hw Hl HK. destruct (bk_write_run (blk s) bp n v w Hok Hh Hw Hl) as ([] & b & E & H1 & H2).
  destruct (HK b H1 H2) as (x & s' & Ex & HQ). exists x, s'. split; [|done].
  unfold store', log_write', onblk, zoom, mbind, M_bind in *. destruct (bk_store bp w (blk s)) as [[? b1]| | | |]; try done.
  cbn. by rewrite E.
Qed.

Lemma step_brelse {A} s bp n (K : unit → M (fss B) A) Q :
  fok s → v_held (fv s) !! bp = Some (n, blocks s n) →
  (∀ b, bk_ok b → bk_abs b = v_drop bp (fv s) → runs (K tt) (set_blk b s) Q) →
  runs (brelse' bp ≫= K) s Q.
Proof.
  intros Hok Hh HK. mstep. apply runs_onblk. eapply runs_mono; [by apply (bk_brelse_run _ bp n)|].
  intros [] b [H1 H2]. by apply HK.
Qed.

Lemma step_brelse_end s bp n (Q : unit → fss B → Prop) :
  fok s → v_held (fv s) !! bp = Some (n, blocks s n) →
  (∀ b, bk_ok b → bk_abs b = v_drop bp (fv s) → Q tt (set_blk b s)) → runs (brelse' bp) s Q.
Proof.
  intros Hok Hh HK. apply runs_onblk. eapply runs_mono; [by apply (bk_brelse_run _ bp n)|].
  intros [] b [H1 H2]. by apply HK.
Qed.

Lemma bzero_run {A} s n (K : unit → M (fss B) A) Q :
  fok s → at_home (v_geo (fv s)) n → v_free (fv s) n → v_room (fv s) → v_logs (fv s) →
  (∀ b, bk_ok b → bk_abs b = v_upd n (replicate (Z.to_nat BSIZE) 0) (fv s) → runs (K tt) (set_blk b s) Q) →
  runs (bzero 1 n ≫= K) s Q.
Proof.
  intros Hok Hn Hf Hr Hl HK. mstep. unfold bzero. apply step_bread; [done..|]. intros i b1 O1 N1 A1.
  eapply (step_write _ i n (blocks s n)); [done|unfold fv; cbn; rewrite A1; apply held_take|by rewrite length_replicate|
    unfold fv; cbn; by rewrite A1|].
  intros b2 O2 A2. unfold fv in A2. cbn in A2. rewrite A1 in A2.
  apply (step_brelse_end _ i n); [done|unfold blocks, fv; cbn; rewrite A2; apply held_put|].
  intros b3 O3 A3. unfold fv in A3. cbn in A3. rewrite A2 in A3. apply HK; [done|]. by rewrite A3, v_drop_put.
Qed.
End steps.

(** * The layout of the disk *)

(** Where the blocks with the contents of files start. *)
Definition data_start (sb : superblock) : Z := sb_bmapstart sb + sb_size sb / BPB + 1.

(** Boot block, super block, log, inodes, free map and data follow each other. *)
Record layout (sb : superblock) (g : geo) : Prop := {
  ly_log : 1 < g_start g;
  ly_ino : g_start g + LOGSIZE ≤ sb_inodestart sb;
  ly_nino : 0 < sb_ninodes sb;
  ly_map : sb_inodestart sb + sb_ninodes sb / IPB + 1 ≤ sb_bmapstart sb;
  ly_data : data_start sb ≤ sb_size sb;
  ly_size : sb_size sb ≤ g_size g;
  ly_int : 0 < sb_size sb < 2 ^ 31 }.

Section layout.
  Context (sb : superblock) (g : geo) (L : layout sb g).

Lemma bblock_range b : 0 ≤ b < sb_size sb → BBLOCK b sb = b / BPB + sb_bmapstart sb ∧ sb_bmapstart sb ≤ BBLOCK b sb < data_start sb.
Proof.
  destruct L as [L1 L2 L3 L4 L5 L6 L7]. intros Hb. unfold BBLOCK, data_start, BPB, IPB, sizeof_dinode, BSIZE, LOGSIZE, MAXOPBLOCKS in *.
  pose proof (Z.div_le_mono b (sb_size sb) (512 * 8) ltac:(lia) ltac:(lia)). pose proof (Z.div_pos b (512 * 8) ltac:(lia) ltac:(lia)).
  pose proof (Z.div_pos (sb_ninodes sb) (512 / 64) ltac:(lia) ltac:(done)).
  rewrite u32_small; lia.
Qed.

Lemma iblock_range i : 0 ≤ i < sb_ninodes sb →
  IBLOCK i sb = i / IPB + sb_inodestart sb ∧ sb_inodestart sb ≤ IBLOCK i sb < sb_bmapstart sb.
Proof.
  destruct L as [L1 L2 L3 L4 L5 L6 L7]. intros Hi. unfold IBLOCK, data_start, BPB, IPB, sizeof_dinode, BSIZE, LOGSIZE, MAXOPBLOCKS in *.
  change (512 / 64) with 8 in *. pose proof (Z.div_le_mono i (sb_ninodes sb) 8 ltac:(lia) ltac:(lia)).
  pose proof (Z.div_pos i 8 ltac:(lia) ltac:(lia)). pose proof (Z.div_pos (sb_size sb) (512 * 8) ltac:(lia) ltac:(lia)).
  rewrite u32_small; lia.
Qed.

(** Blocks behind the log are at home. *)
Lemma home_behind n : sb_inodestart sb ≤ n < sb_size sb → at_home g n.
Proof. destruct L. intros Hn. unfold at_home, LOGSIZE, MAXOPBLOCKS in *. lia. Qed.

Lemma home_sb : at_home g 1.
Proof.
  destruct L as [L1 L2 L3 L4 L5 L6 L7]. unfold at_home, data_start, BPB, IPB, sizeof_dinode, BSIZE, LOGSIZE, MAXOPBLOCKS in *.
  pose proof (Z.div_pos (sb_size sb) (512 * 8) ltac:(lia) ltac:(lia)). pose proof (Z.div_pos (sb_ninodes sb) (512 / 64) ltac:(lia) ltac:(done)). lia.
Qed.

Lemma start_order : sb_inodestart sb < sb_bmapstart sb < data_start sb ∧ 1 < sb_inodestart sb.
Proof.
  destruct L as [L1 L2 L3 L4 L5 L6 L7]. unfold data_start, BPB, IPB, sizeof_dinode, BSIZE, LOGSIZE, MAXOPBLOCKS in *.
  pose proof (Z.div_pos (sb_size sb) (512 * 8) ltac:(lia) ltac:(lia)). pose proof (Z.div_pos (sb_ninodes sb) (512 / 64) ltac:(lia) ltac:(done)).
  lia.
Qed.
End layout.

(** * Allocating a block *)

Section alloc.
  Context {B : Type} {BO : BlockOps B} {BL : BlockLaws B} {DS : DevSw B}.
  Implicit Types s : fss B.

(** The bit of block [b] in the free map. *)
Definition map_used (sb : superblock) (f : Z → list Z) (b : Z) : bool := map_bit (f (BBLOCK b sb)) (b mod BPB).
Definition used (s : fss B) (b : Z) : bool := map_used (fsb s) (blocks s) b.

(** The super block in memory is that of the disk, the blocks before the data are
    marked, and the buffers that are held belong to allocated data blocks. *)
Record fs_base (s : fss B) : Prop := {
  fb_ok : fok s;
  fb_layout : layout (fsb s) (v_geo (fv s));
  fb_sb : sb_of (blocks s 1) = fsb s;
  fb_meta : ∀ b, 0 ≤ b < data_start (fsb s) → used s b = true;
  fb_held : ∀ i n v, v_held (fv s) !! i = Some (n, v) → data_start (fsb s) ≤ n < sb_size (fsb s) ∧ used s n = true }.

(** The state only differs in the state of the block layer, and not in its view. *)
Lemma base_same s x : fs_base s → bk_ok x → bk_abs x = fv s → fs_base (set_blk x s).
Proof. intros [H1 H2 H3 H4 H5] Hx E. split; unfold fok, fv, blocks, used, blocks, fv in *; cbn; by rewrite ?E. Qed.

Lemma base_free s n : fs_base s → n < data_start (fsb s) → v_free (fv s) n.
Proof. intros Hb Hn i v Hi. apply (fb_held _ Hb) in Hi. lia. Qed.

Lemma base_len s n : fs_base s → sb_inodestart (fsb s) ≤ n < sb_size (fsb s) → length (blocks s n) = Z.to_nat BSIZE.
Proof. intros Hb Hn. apply bk_len; [apply Hb|]. eapply home_behind; [apply Hb|done]. Qed.

(** The view after block [b] was allocated. *)
Definition v_alloc (sb : superblock) (b : Z) (a : bview) : bview :=
  v_upd b (replicate (Z.to_nat BSIZE) 0) (v_upd (BBLOCK b sb) (map_set (v_blocks a (BBLOCK b sb)) (b mod BPB)) a).

(** Room for [k] more buffers and blocks of the transaction. *)
Definition can_log (k : nat) (a : bview) : Prop :=
  (size (v_held a) + size (v_logged a) + k ≤ 30)%nat ∧ (size (v_logged a) + k ≤ 29)%nat ∧ 1 ≤ v_open a.

Lemma can_log_room k a : can_log (S k) a → v_room a ∧ v_logs a.
Proof. unfold can_log, v_room, v_logs. lia. Qed.

Lemma can_log_mono k k' a : can_log k a → (k' ≤ k)%nat → can_log k' a.
Proof. unfold can_log. lia. Qed.

Lemma size_insert_logged (n : Z) (X : gset Z) : (size ({[n]} ∪ X) ≤ S (size X))%nat.
Proof. rewrite size_union_alt, size_singleton. pose proof (subseteq_size (X ∖ {[n]}) X ltac:(set_solver)). lia. Qed.

Lemma can_log_upd k n w a : can_log (S k) a → can_log k (v_upd n w a).
Proof. unfold can_log. cbn. pose proof (size_insert_logged n (v_logged a)). lia. Qed.
Lemma can_log_take k i n a : can_log (S k) a → v_held a !! i = None → can_log k (v_take i n a).
Proof. unfold can_log. cbn. intros H Hi. rewrite map_size_insert_None by done. lia. Qed.
Lemma can_log_put k i n v w a : can_log (S k) a → v_held a !! i = Some v → can_log k (v_put i n w a).
Proof.
  unfold can_log. cbn. intros H Hi. rewrite map_size_insert_Some by eauto.
  pose proof (size_insert_logged n (v_logged a)). lia.
Qed.

(** Block [b] was the first free one. *)
Definition allocated (s : fss B) (b : Z) (s' : fss B) : Prop :=
  ∃ x, s' = set_blk x s ∧ bk_ok x ∧ bk_abs x = v_alloc (fsb s) b (fv s) ∧
    data_start (fsb s) ≤ b < sb_size (fsb s) ∧ used s b = false ∧ ∀ c, 0 ≤ c < b → used s c = true.

(** The bits of one block of the free map. *)
Lemma map_block k j sb : 0 ≤ k → 0 ≤ j < BPB → BBLOCK (k * BPB + j) sb = BBLOCK (k * BPB) sb ∧ (k * BPB + j) mod BPB = j.
Proof.
  intros Hk Hj. unfold BBLOCK. change BPB with 4096 in *. rewrite (Z.div_add_l k 4096), Z.div_mul, (Z.div_small j) by lia.
  split; [f_equal; lia|]. rewrite Z.add_comm, Z.mod_add by lia. by apply Z.mod_small.
Qed.

(** Block [b] is marked in buffer [i] of the free map and cleared. *)
Lemma balloc_found s b i x d :
  fs_base s → can_log 2 (fv s) → 0 ≤ b < sb_size (fsb s) → used s b = false → (∀ c, 0 ≤ c < b → used s c = true) →
  bk_ok x → v_held (fv s) !! i = None → bk_abs x = v_take i (BBLOCK b (fsb s)) (fv s) → d = blocks s (BBLOCK b (fsb s)) →
  runs (store' i (map_set d (b mod BPB));; log_write' i;; brelse' i;; bzero 1 b;; mret b) (set_blk x s) (allocated s).
Proof.
  intros Hb Hc Hbs Hu Hlow O1 N1 A1 ->. set (sb := fsb s) in *. set (m := BBLOCK b sb) in *.
  assert (Hds : data_start sb ≤ b).
  { destruct (Z.lt_ge_cases b (data_start sb)); [|done]. rewrite (fb_meta _ Hb) in Hu; [done|fold sb; lia]. }
  destruct (bblock_range sb _ (fb_layout _ Hb) b Hbs) as [_ Hr]. fold m in Hr.
  pose proof (start_order _ _ (fb_layout _ Hb)) as [Ho _]. fold sb in Ho. pose proof (ly_data _ _ (fb_layout _ Hb)) as Hdl. fold sb in Hdl.
  assert (Hlen : length (blocks s m) = Z.to_nat BSIZE) by (apply base_len; [done|fold sb; lia]).
  set (w := map_set (blocks s m) (b mod BPB)). destruct (can_log_room 1 (fv s) Hc) as [Hroom Hlogs].
  apply (step_write _ i m (blocks s m)); [done|unfold fv; cbn; rewrite A1; apply held_take| |unfold fv; cbn; by rewrite A1|].
  { unfold w, map_set. by rewrite length_map_store. }
  intros x2 O2 A2. unfold fv in A2. cbn in A2. rewrite A1 in A2.
  apply (step_brelse _ i m); [done|unfold blocks, fv; cbn; rewrite A2; apply held_put|].
  intros x3 O3 A3. unfold fv in A3. cbn in A3. rewrite A2, v_drop_put in A3 by done.
  pose proof (can_log_upd 1 m w (fv s) Hc) as Hc3. rewrite <- A3 in Hc3. destruct (can_log_room 0 _ Hc3) as [Hroom3 Hlogs3].
  apply bzero_run; [done| | |done|done|].
  - unfold fv. cbn. rewrite A3. cbn. eapply home_behind; [apply Hb|fold sb; lia].
  - unfold fv. cbn. rewrite A3. cbn. intros j v Hj. apply (fb_held _ Hb) in Hj. destruct Hj as [_ Hj]. congruence.
  - intros x4 O4 A4. apply runs_ret. exists x4. split_and!; [done|done| |done|apply Hbs|done|done].
    rewrite A4. unfold fv. cbn. by rewrite A3.
Qed.

(** The rounds of balloc from block [k] of the free map on, when the blocks before
    are all in use. *)
Lemma balloc_loop_run n : ∀ s k fuel,
  fs_base s → can_log 2 (fv s) → 0 ≤ k → (n + Z.to_nat k = Z.to_nat (sb_size (fsb s) / BPB + 1))%nat → (n ≤ fuel)%nat →
  (∃ b, 0 ≤ b < sb_size (fsb s) ∧ used s b = false) → (∀ c, 0 ≤ c < k * BPB → c < sb_size (fsb s) → used s c = true) →
  runs (balloc_loop fuel 1 (k * BPB)) s (allocated s).
Proof.
  induction n as [|n IH]; intros s k fuel Hb Hc Hk Hn Hfu Hex Hlow.
  { exfalso. destruct Hex as (b & Hbs & Hu). rewrite (Hlow b) in Hu; [done| |lia].
    change BPB with 4096 in *. Z.to_euclidean_division_equations; lia. }
  destruct Hex as (b0 & Hb0 & Hu0). set (sb := fsb s) in *.
  assert (Hlt : k * BPB < sb_size sb).
  { destruct (Z.lt_ge_cases (k * BPB) (sb_size sb)); [done|]. rewrite Hlow in Hu0; [done|lia|lia]. }
  destruct (bblock_range sb _ (fb_layout _ Hb) (k * BPB)) as [_ Hr]; [change BPB with 4096 in *; lia|].
  pose proof (start_order _ _ (fb_layout _ Hb)) as [Ho _]. fold sb in Ho. pose proof (ly_data _ _ (fb_layout _ Hb)) as Hds. fold sb in Hds.
  destruct (can_log_room 1 (fv s) Hc) as [Hroom Hlogs].
  destruct fuel as [|fuel]; [lia|]. cbn [balloc_loop]. mstep. apply runs_get. fold sb. rewrite (proj2 (Z.ltb_lt _ _)) by done.
  set (m := BBLOCK (k * BPB) sb) in *. cbn iota.
  assert (Hm : at_home (v_geo (fv s)) m) by (eapply home_behind; [apply Hb|fold sb; lia]).
  assert (Hlen : length (blocks s m) = Z.to_nat BSIZE) by (apply base_len; [done|fold sb; lia]).
  apply step_bread; [apply Hb|done|apply base_free; [done|fold sb; lia]|done|]. intros i x O1 N1 A1.
  apply (step_data _ i m (blocks s m)); [done|unfold fv; cbn; rewrite A1; apply held_take|].
  assert (Hub : ∀ j, 0 ≤ j < BPB → used s (k * BPB + j) = map_bit (blocks s m) j).
  { intros j Hj. unfold used, map_used. fold sb. by destruct (map_block k j sb Hk Hj) as [-> ->]. }
  destruct (bit_scan _ _ _ _ _) as [r|] eqn:E.
  - apply bit_scan_Some in E as (E1 & E2 & E3 & E4). change (Z.of_nat (Z.to_nat BPB)) with BPB in E1.
    destruct (map_block k r sb Hk ltac:(lia)) as [Em Er].
    pose proof (balloc_found s (k * BPB + r) i x (blocks s m) Hb Hc) as HF. fold sb in HF. rewrite Em, Er in HF.
    change BPB with 4096 in *. apply HF; try done; [lia|by rewrite Hub|].
    intros c Hc'. destruct (Z.lt_ge_cases c (k * 4096)); [apply Hlow; lia|].
    replace c with (k * 4096 + (c - k * 4096)) by lia. rewrite Hub by lia. apply E4. lia.
  - apply (step_brelse _ i m); [done|unfold blocks, fv; cbn; rewrite A1; exact (held_take i m (fv s))|].
    intros x2 O2 A2. unfold fv in A2. cbn in A2. rewrite A1, v_drop_take in A2 by done.
    assert (Hb2 : fs_base (set_blk x2 s)) by (by apply base_same).
    assert (Hu2 : ∀ c, used (set_blk x2 s) c = used s c) by (intros c; unfold used, blocks, fv; cbn; by rewrite A2).
    replace (k * BPB + BPB) with ((k + 1) * BPB) by lia.
    eapply runs_mono; [apply (IH (set_blk x2 s) (k + 1) fuel); [done|unfold fv; cbn; by rewrite A2|lia|cbn; fold sb; lia|lia| |]|].
    + exists b0. by rewrite Hu2.
    + intros c Hc1 Hc2. rewrite Hu2. destruct (Z.lt_ge_cases c (k * BPB)); [apply Hlow; [lia|done]|].
      replace c with (k * BPB + (c - k * BPB)) by lia. rewrite Hub by lia.
      eapply bit_scan_None; [done|change (Z.of_nat (Z.to_nat BPB)) with BPB; lia|cbn in Hc2; fold sb in Hc2; lia].
    + intros b s' (x3 & -> & O3 & A3 & Hbr & Hub3 & Hlb). exists x3. split; [done|]. split; [done|].
      unfold fv in A3. cbn in A3. rewrite A2 in A3. split; [done|]. split; [done|]. rewrite Hu2 in Hub3. split; [done|].
      intros c Hc'. rewrite <- Hu2. by apply Hlb.
Qed.

(** balloc takes the first free block. *)
Lemma balloc_run s :
  fs_base s → can_log 2 (fv s) → (∃ b, 0 ≤ b < sb_size (fsb s) ∧ used s b = false) → runs (balloc 1) s (allocated s).
Proof.
  intros Hb Hc Hex. unfold balloc. mstep. apply runs_get. replace 0 with (0 * BPB) by lia.
  eapply balloc_loop_run; try done; lia.
Qed.

(** What changes when [b] is allocated: its bit and its contents. *)
Record took (s : fss B) (b : Z) (s' : fss B) : Prop := {
  tk_base : fs_base s';
  tk_icache : icache s' = icache s;
  tk_fsb : fsb s' = fsb s;
  tk_pid : fpid s' = fpid s;
  tk_range : data_start (fsb s) ≤ b < sb_size (fsb s);
  tk_free : used s b = false;
  tk_used : ∀ c, 0 ≤ c < sb_size (fsb s) → used s' c = (c =? b) || used s c;
  tk_zero : blocks s' b = replicate (Z.to_nat BSIZE) 0;
  tk_data : ∀ c, data_start (fsb s) ≤ c < sb_size (fsb s) → c ≠ b → blocks s' c = blocks s c;
  tk_meta : ∀ c, c < sb_bmapstart (fsb s) → blocks s' c = blocks s c;
  tk_held : v_held (fv s') = v_held (fv s);
  tk_open : v_open (fv s') = v_open (fv s);
  tk_geo : v_geo (fv s') = v_geo (fv s);
  tk_logged : v_logged (fv s') = {[b]} ∪ ({[BBLOCK b (fsb s)]} ∪ v_logged (fv s)) }.

Lemma set_block_ne n w f m : m ≠ n → set_block_v n w f m = f m.
Proof. intros H. unfold set_block_v. by rewrite (proj2 (Z.eqb_neq m n)). Qed.
Lemma set_block_eq n w f : set_block_v n w f n = w.
Proof. unfold set_block_v. by rewrite Z.eqb_refl. Qed.

(** A change of one bit in the free map. *)
Lemma map_used_upd sb g f b c w (h : bool → bool) :
  layout sb g → 0 ≤ b < sb_size sb → 0 ≤ c < sb_size sb →
  (∀ j, 0 ≤ j < BPB → map_bit w j = if j =? b mod BPB then h (map_bit (f (BBLOCK b sb)) j) else map_bit (f (BBLOCK b sb)) j) →
  map_used sb (set_block_v (BBLOCK b sb) w f) c = if c =? b then h (map_used sb f c) else map_used sb f c.
Proof.
  intros L Hb Hc Hw. unfold map_used. destruct (bblock_range sb g L b Hb) as [Eb _]. destruct (bblock_range sb g L c Hc) as [Ec _].
  destruct (decide (BBLOCK c sb = BBLOCK b sb)) as [E|E].
  - rewrite E, set_block_eq, Hw by (apply Z.mod_pos_bound; done).
    destruct (Z.eqb_spec c b) as [->|Hne]; [by rewrite Z.eqb_refl|]. rewrite (proj2 (Z.eqb_neq _ _)); [done|].
    intros Em. apply Hne. rewrite (Z.div_mod c BPB), (Z.div_mod b BPB) by done. lia.
  - rewrite set_block_ne by done. destruct (Z.eqb_spec c b) as [->|Hne]; done.
Qed.

Lemma bit_index b : 0 ≤ b mod BPB < BPB ∧ (b mod BPB) / 8 < 512.
Proof. pose proof (Z.mod_pos_bound b BPB ltac:(done)). change BPB with 4096 in *. Z.to_euclidean_division_equations. lia. Qed.

Lemma allocated_took s b s' : fs_base s → allocated s b s' → took s b s'.
Proof.
  intros Hb (x & -> & Ox & Ax & Hr & Hu & _). set (sb := fsb s) in *. pose proof (fb_layout _ Hb) as L. fold sb in L.
  destruct (start_order _ _ L) as [Ho Ho1]. pose proof (ly_data _ _ L) as Hdl.
  assert (Hbs : 0 ≤ b < sb_size sb) by (destruct L; unfold LOGSIZE, MAXOPBLOCKS in *; lia).
  destruct (bblock_range sb _ L b Hbs) as [_ Hbr]. destruct (bit_index b) as [Hbi Hbi8].
  assert (Hlen : length (blocks s (BBLOCK b sb)) = Z.to_nat BSIZE) by (apply base_len; [done|fold sb; lia]).
  assert (Hb1 : ∀ c, c ≠ b → c ≠ BBLOCK b sb → blocks (set_blk x s) c = blocks s c).
  { intros c H1 H2. unfold blocks, fv. cbn. rewrite Ax. cbn. by rewrite !set_block_ne. }
  assert (Hus : ∀ c, 0 ≤ c < sb_size sb → used (set_blk x s) c = (c =? b) || used s c).
  { intros c Hc. destruct (bblock_range sb _ L c Hc) as [_ Hcr].
    transitivity (map_used sb (set_block_v (BBLOCK b sb) (map_set (blocks s (BBLOCK b sb)) (b mod BPB)) (blocks s)) c).
    { unfold used, map_used, blocks, fv. cbn. fold sb. rewrite Ax. cbn. by rewrite (set_block_ne b) by lia. }
    rewrite (map_used_upd sb _ _ b c _ (λ _, true) L Hbs Hc).
    - unfold used. fold sb. by destruct (c =? b).
    - intros j Hj. rewrite map_set_bit by (rewrite ?Hlen; unfold BSIZE; lia). by destruct (j =? b mod BPB). }
  split; try done.
  - split; cbn; fold sb.
    + done.
    + unfold fv. cbn. rewrite Ax. done.
    + rewrite Hb1 by lia. apply Hb.
    + intros c Hc. rewrite Hus by lia. rewrite (fb_meta _ Hb) by done. apply orb_true_r.
    + unfold fv. cbn. rewrite Ax. intros i n v Hi. apply (fb_held _ Hb) in Hi as [H1 H2]. split; [done|].
      rewrite Hus by (fold sb in H1; lia). rewrite H2. apply orb_true_r.
  - unfold blocks, fv. cbn. rewrite Ax. apply set_block_eq.
  - intros c Hc Hne. fold sb in Hc. apply Hb1; [done|lia].
  - intros c Hc. fold sb in Hc. apply Hb1; lia.
  - unfold fv. cbn. by rewrite Ax.
  - unfold fv. cbn. by rewrite Ax.
  - unfold fv. cbn. by rewrite Ax.
  - unfold fv. cbn. by rewrite Ax.
Qed.

(** * Freeing a block *)

(** What changes when [b] is freed: its bit. *)
Record gave (s : fss B) (b : Z) (s' : fss B) : Prop := {
  gv_base : fs_base s';
  gv_icache : icache s' = icache s;
  gv_fsb : fsb s' = fsb s;
  gv_pid : fpid s' = fpid s;
  gv_used : ∀ c, 0 ≤ c < sb_size (fsb s) → used s' c = negb (c =? b) && used s c;
  gv_blocks : ∀ c, c < sb_bmapstart (fsb s) ∨ data_start (fsb s) ≤ c → blocks s' c = blocks s c;
  gv_held : v_held (fv s') = v_held (fv s);
  gv_open : v_open (fv s') = v_open (fv s);
  gv_geo : v_geo (fv s') = v_geo (fv s);
  gv_logged : v_logged (fv s') = {[BBLOCK b (fsb s)]} ∪ v_logged (fv s) }.

Lemma cleared_gave s b x :
  fs_base s → data_start (fsb s) ≤ b < sb_size (fsb s) → v_free (fv s) b → bk_ok x →
  bk_abs x = v_upd (BBLOCK b (fsb s)) (map_clear (blocks s (BBLOCK b (fsb s))) (b mod BPB)) (fv s) →
  gave s b (set_blk x s).
Proof.
  intros Hb Hr Hf Ox Ax. set (sb := fsb s) in *. pose proof (fb_layout _ Hb) as L. fold sb in L.
  destruct (start_order _ _ L) as [Ho Ho1]. pose proof (ly_data _ _ L) as Hdl.
  assert (Hbs : 0 ≤ b < sb_size sb) by (destruct L; unfold LOGSIZE, MAXOPBLOCKS in *; lia).
  destruct (bblock_range sb _ L b Hbs) as [_ Hbr]. destruct (bit_index b) as [Hbi Hbi8].
  assert (Hlen : length (blocks s (BBLOCK b sb)) = Z.to_nat BSIZE) by (apply base_len; [done|fold sb; lia]).
  assert (Hb1 : ∀ c, c ≠ BBLOCK b sb → blocks (set_blk x s) c = blocks s c).
  { intros c H. unfold blocks, fv. cbn. rewrite Ax. cbn. by rewrite set_block_ne. }
  assert (Hus : ∀ c, 0 ≤ c < sb_size sb → used (set_blk x s) c = negb (c =? b) && used s c).
  { intros c Hc. unfold used at 1, blocks, fv. cbn. fold sb. rewrite Ax.
    transitivity (if c =? b then false else map_used sb (blocks s) c); [|unfold used; fold sb; by destruct (c =? b)].
    apply (map_used_upd sb _ (blocks s) b c _ (λ _, false) L Hbs Hc). intros j Hj.
    rewrite map_clear_bit by (rewrite ?Hlen; unfold BSIZE; lia). by destruct (j =? b mod BPB). }
  split; try done; cbn; fold sb; try (unfold fv; cbn; by rewrite Ax).
  - split; cbn; fold sb.
    + done.
    + unfold fv. cbn. rewrite Ax. done.
    + rewrite Hb1 by lia. apply Hb.
    + intros c Hc. rewrite Hus by lia. rewrite (fb_meta _ Hb) by done. rewrite (proj2 (Z.eqb_neq c b)) by lia. done.
    + unfold fv. cbn. rewrite Ax. intros i n v Hi. pose proof Hi as [H1 H2]%(fb_held _ Hb). split; [done|]. fold sb in H1.
      rewrite Hus, H2 by lia. rewrite andb_true_r. apply negb_true_iff, Z.eqb_neq. intros ->. by apply (Hf i v).
  - intros c Hc. apply Hb1. lia.
Qed.

Lemma bfree_run s b :
  fs_base s → can_log 1 (fv s) → data_start (fsb s) ≤ b < sb_size (fsb s) → used s b = true → v_free (fv s) b →
  runs (bfree 1 b) s (λ _ s', gave s b s').
Proof.
  intros Hb Hc Hr Hu Hf. set (sb := fsb s) in *. pose proof (fb_layout _ Hb) as L. fold sb in L.
  destruct (start_order _ _ L) as [Ho Ho1]. pose proof (ly_data _ _ L) as Hdl.
  assert (Hbs : 0 ≤ b < sb_size sb) by (destruct L; unfold LOGSIZE, MAXOPBLOCKS in *; lia).
  destruct (bblock_range sb _ L b Hbs) as [_ Hbr]. destruct (can_log_room 0 _ Hc) as [Hroom Hlogs].
  unfold bfree. mstep. apply runs_onblk. eapply runs_mono; [apply bk_readsb_run; [apply Hb|by apply (home_sb sb)|apply base_free; [done|fold sb; lia]|done]|].
  intros ? x (O1 & -> & A1). mstep. apply runs_modify. change (v_blocks (bk_abs (blk s)) 1) with (blocks s 1). rewrite (fb_sb _ Hb). fold sb.
  set (s1 := set_fsb sb (set_blk x s)). assert (Es1 : s1 = set_blk x s) by done. rewrite Es1. clear s1 Es1.
  set (m := BBLOCK b sb) in *. apply step_bread; unfold fv; cbn; rewrite ?A1; [done|eapply home_behind; [done|lia]|apply base_free; [done|fold sb; lia]|done|].
  intros i x2 O2 N2 A2. apply (step_data _ i m (blocks s m)); [done|unfold fv; cbn; rewrite A2; apply held_take|].
  unfold used, map_used in Hu. fold sb in Hu. fold m in Hu. rewrite Hu. cbn [negb].
  apply (step_write _ i m (blocks s m)); [done|unfold fv; cbn; rewrite A2; apply held_take| |unfold fv; cbn; by rewrite A2|].
  { rewrite length_map_store. apply base_len; [done|fold sb; lia]. }
  intros x3 O3 A3. unfold fv in A3. cbn in A3. rewrite A2 in A3.
  apply (step_brelse_end _ i m); [done|unfold blocks, fv; cbn; rewrite A3; apply held_put|].
  intros x4 O4 A4. unfold fv in A4. cbn in A4. rewrite A3, v_drop_put in A4 by done.
  apply (cleared_gave s b x4); try done.
Qed.
End alloc.
