(* ===== verification/FsInode.v ===== *)
(** The contents of an inode (fs.c: bmap, readi, writei, iupdate): an inode is a
    sequence of bytes. *)
From Stdlib Require Import ZArith Lia Bool.
From stdpp Require Import base tactics list list_numbers strings sets gmap fin_sets.
From S2P Require Import Prelude Machine Bio Log Blocks Fs FsAlloc.

(** * Words in a block *)

Lemma word_at_zero n j : word_at (replicate n 0) 0 j = 0.
Proof.
  unfold word_at, field. rewrite drop_replicate, take_replicate. generalize (4 `min` (n - (0 + 4 * j)))%nat.
  intros k. induction k as [|k IH]; cbn; lia.
Qed.

Lemma word_at_splice d j b k :
  (4 * j + 4 ≤ length d)%nat → 0 ≤ b < 2 ^ 32 → word_at (splice d (4 * j) (word b)) 0 k = if (k =? j)%nat then b else word_at d 0 k.
Proof.
  intros Hl Hb. unfold word_at, field. cbn [Nat.add]. destruct (Nat.eqb_spec k j) as [->|Hne].
  - change 4%nat with (length (word b)) at 1. rewrite splice_same by lia. by rewrite le_word, u32_small.
  - rewrite splice_other by (cbn [length word]; lia). done.
Qed.

(** * Counting *)

Lemma size_list_to_set_le (l : list Z) : (size (list_to_set l : gset Z) ≤ length l)%nat.
Proof. induction l as [|x l IH]; cbn; [by rewrite size_empty|]. pose proof (size_insert_logged x (list_to_set l)). lia. Qed.

Lemma filter_ext_in {A} (P P' : A → Prop) `{∀ x, Decision (P x)} `{∀ x, Decision (P' x)} (l : list A) :
  (∀ y, y ∈ l → P' y ↔ P y) → filter P' l = filter P l.
Proof.
  induction l as [|y l IH]; intros H'; [done|]. rewrite !filter_cons.
  rewrite IH by (intros; apply H'; set_solver). destruct (decide (P y)) as [Hp|Hp], (decide (P' y)) as [Hp'|Hp']; try done.
  - destruct Hp'. apply H'; set_solver.
  - destruct Hp. apply H'; set_solver.
Qed.

(** Allocated or free blocks, and missing blocks of a file, are counted in lists
    without repetitions; changing the answer for one element changes the count by
    one. *)
Lemma count_change {A} `{EqDecision A} (P P' : A → Prop) `{∀ x, Decision (P x)} `{∀ x, Decision (P' x)} (l : list A) x :
  NoDup l → x ∈ l → P x → ¬ P' x → (∀ y, y ∈ l → y ≠ x → P' y ↔ P y) →
  length (filter P l) = S (length (filter P' l)).
Proof.
  intros Hnd Hx HP HP' Hy. apply list_elem_of_split in Hx as (l1 & l2 & ->).
  apply NoDup_app in Hnd as (_ & Hd & [Hx2 _]%NoDup_cons).
  assert (Hx1 : x ∉ l1) by (intros Hx1; apply (Hd x Hx1); apply elem_of_cons; auto).
  rewrite !filter_app, !length_app, !filter_cons, decide_True, decide_False by done. cbn.
  rewrite (filter_ext_in P P' l1), (filter_ext_in P P' l2); [lia| |].
  - intros y Hy2. apply Hy; [set_solver|]. intros ->. done.
  - intros y Hy1. apply Hy; [set_solver|]. intros ->. done.
Qed.

(** * The blocks of a file *)

Section inode.
  Context {B : Type} {BO : BlockOps B} {BL : BlockLaws B} {DS : DevSw B}.
  Implicit Types s : fss B.
  Implicit Types ino : inode.

Definition addr (ino : inode) (j : nat) : Z := default 0 (i_addrs ino !! j).

(** The blocks of an inode by index: those with its contents from 0 to MAXFILE - 1,
    and at MAXFILE the indirect block. There is no block where the number is 0. *)
Definition slot (f : Z → list Z) (ino : inode) (k : Z) : Z :=
  if k =? MAXFILE then addr ino 12
  else if k <? NDIRECT then addr ino (Z.to_nat k)
  else if addr ino 12 =? 0 then 0 else word_at (f (addr ino 12)) 0 (Z.to_nat (k - NDIRECT)).

Definition slot_index (k : Z) : Prop := 0 ≤ k ≤ MAXFILE.

(** The blocks of the inode are allocated, no two of them are the same, and there
    is one for every byte of the file. *)
Record file_ok (s : fss B) (ino : inode) : Prop := {
  fo_dev : i_dev ino = 1;
  fo_inum : 0 ≤ i_inum ino < sb_ninodes (fsb s);
  fo_len : length (i_addrs ino) = 13%nat;
  fo_size : 0 ≤ i_size ino ≤ MAXFILE * BSIZE;
  fo_data : ∀ k, slot_index k → slot (blocks s) ino k ≠ 0 →
    data_start (fsb s) ≤ slot (blocks s) ino k < sb_size (fsb s) ∧ used s (slot (blocks s) ino k) = true;
  fo_inj : ∀ k k', slot_index k → slot_index k' → slot (blocks s) ino k ≠ 0 →
    slot (blocks s) ino k = slot (blocks s) ino k' → k = k';
  fo_full : ∀ k, 0 ≤ k → k * BSIZE < i_size ino → slot (blocks s) ino k ≠ 0 }.

(** Block [b] becomes block [j] of the file. *)
Record grow (s : fss B) (ino : inode) (j b : Z) (s' : fss B) (ino' : inode) : Prop := {
  gr_fsb : fsb s' = fsb s;
  gr_fresh : data_start (fsb s) ≤ b < sb_size (fsb s) ∧ used s b = false;
  gr_used : ∀ c, 0 ≤ c < sb_size (fsb s) → used s' c = (c =? b) || used s c;
  gr_ino : i_dev ino' = i_dev ino ∧ i_inum ino' = i_inum ino ∧ i_size ino' = i_size ino ∧ length (i_addrs ino') = length (i_addrs ino);
  gr_none : slot (blocks s) ino j = 0;
  gr_slot : ∀ k, slot_index k → slot (blocks s') ino' k = if k =? j then b else slot (blocks s) ino k }.

Lemma grow_used s ino j b s' ino' c :
  grow s ino j b s' ino' → 0 ≤ c < sb_size (fsb s) → used s c = true → used s' c = true.
Proof. intros G Hc Hu. rewrite (gr_used _ _ _ _ _ _ G) by done. by rewrite Hu, orb_true_r. Qed.

Lemma grow_file s ino j b s' ino' :
  0 < data_start (fsb s) → file_ok s ino → slot_index j → grow s ino j b s' ino' → file_ok s' ino'.
Proof.
  intros Hd0 [F1 F2 F3 F4 F5 F6 F7] Hj G. pose proof G as [Gs [Gb Gbu] Gu (Gi1 & Gi2 & Gi3 & Gi4) Gn Gsl].
  assert (Hnew : ∀ k, slot_index k → slot (blocks s) ino k ≠ b).
  { intros k Hk E. destruct (F5 k Hk) as [_ Hu]; [lia|]. congruence. }
  split; rewrite ?Gi1, ?Gi2, ?Gi3, ?Gi4, ?Gs; try done.
  - intros k Hk. rewrite Gsl by done. destruct (Z.eqb_spec k j) as [->|Hne].
    + intros _. split; [done|]. rewrite Gu by lia. by rewrite Z.eqb_refl.
    + intros H0. destruct (F5 k Hk H0) as [H1 H2]. split; [done|]. eapply grow_used; [done|lia|done].
  - intros k k' Hk Hk'. rewrite !Gsl by done. destruct (Z.eqb_spec k j) as [->|Hne], (Z.eqb_spec k' j) as [->|Hne']; intros H0 E.
    + done.
    + by destruct (Hnew k' Hk').
    + by destruct (Hnew k Hk).
    + by apply F6.
  - intros k Hk0 Hk. assert (Hki : slot_index k) by (unfold slot_index, MAXFILE, NINDIRECT, NDIRECT, BSIZE in *; lia).
    rewrite Gsl by done. destruct (Z.eqb_spec k j) as [->|]; [lia|by apply F7].
Qed.

(** ** Counting blocks *)

(** The free blocks of the disk. *)
Definition nfree (s : fss B) : nat := length (filter (λ b, used s b = false) (seqZ 0 (sb_size (fsb s)))).

(** The blocks among [ks] that the file does not have. *)
Definition missing (s : fss B) (ino : inode) (ks : list Z) : nat := length (filter (λ k, slot (blocks s) ino k = 0) ks).

Lemma nfree_pos s : (0 < nfree s)%nat → ∃ b, 0 ≤ b < sb_size (fsb s) ∧ used s b = false.
Proof.
  unfold nfree. intros H. destruct (filter _ _) as [|b l] eqn:E; [cbn in H; lia|].
  assert (Hb : b ∈ filter (λ b, used s b = false) (seqZ 0 (sb_size (fsb s)))) by (rewrite E; set_solver).
  apply list_elem_of_filter in Hb as [Hu Hb%elem_of_seqZ]. exists b. split; [lia|done].
Qed.

Lemma missing_pos s ino ks k : k ∈ ks → slot (blocks s) ino k = 0 → (0 < missing s ino ks)%nat.
Proof.
  intros Hk H0. unfold missing. assert (Hin : k ∈ filter (λ k, slot (blocks s) ino k = 0) ks) by (by apply list_elem_of_filter).
  destruct (filter _ _); [by apply not_elem_of_nil in Hin|cbn; lia].
Qed.

(** A new block of the file is one less that is free and one less that is missing. *)
Lemma grow_count s ino j b s' ino' ks :
  0 < data_start (fsb s) → grow s ino j b s' ino' → NoDup ks → Forall slot_index ks → j ∈ ks →
  nfree s = S (nfree s') ∧ missing s ino ks = S (missing s' ino' ks).
Proof.
  intros Hd0 [Gs [Gb Gbu] Gu _ Gn Gsl] Hnd Hks Hj. rewrite Forall_forall in Hks. split.
  - unfold nfree. rewrite Gs. apply (count_change _ _ _ b); [apply NoDup_seqZ|apply elem_of_seqZ; lia|done| |].
    + rewrite Gu by lia. by rewrite Z.eqb_refl.
    + intros c Hc%elem_of_seqZ Hne. rewrite Gu by lia. by rewrite (proj2 (Z.eqb_neq c b)).
  - unfold missing. apply (count_change _ _ _ j); [done|done|done| |].
    + rewrite Gsl by auto. rewrite Z.eqb_refl. lia.
    + intros k Hk Hne. rewrite Gsl by auto. by rewrite (proj2 (Z.eqb_neq k j)).
Qed.

(** ** One more block *)

(** The blocks of the free map. *)
Definition mapset (sb : superblock) : gset Z := list_to_set (seqZ (sb_bmapstart sb) (sb_size sb / BPB + 1)).

(** The file at [ip] gets block [b] as its block [j]: the state afterwards. *)
Record grew (ip : nat) (s : fss B) (ino : inode) (j b : Z) (s' : fss B) (ino' : inode) : Prop := {
  gw_grow : grow s ino j b s' ino';
  gw_base : fs_base s';
  gw_icache : icache s' = <[ip := ino']> (icache s);
  gw_ino : ∃ l, ino' = set_i_addrs l ino;
  gw_pid : fpid s' = fpid s;
  gw_held : v_held (fv s') = v_held (fv s);
  gw_open : v_open (fv s') = v_open (fv s);
  gw_geo : v_geo (fv s') = v_geo (fv s);
  gw_logged : ∀ c, c ∈ v_logged (fv s') →
    c = b ∨ c = slot (blocks s') ino' MAXFILE ∧ c ≠ 0 ∨ c ∈ mapset (fsb s) ∨ c ∈ v_logged (fv s);
  gw_meta : ∀ c, c < sb_bmapstart (fsb s) → blocks s' c = blocks s c;
  gw_data : ∀ c, data_start (fsb s) ≤ c < sb_size (fsb s) → used s c = true → c ≠ slot (blocks s) ino MAXFILE →
    blocks s' c = blocks s c;
  gw_zero : blocks s' b = replicate (Z.to_nat BSIZE) 0 }.

Lemma modino_eq (s : fss B) i ino f : icache s !! i = Some ino → modino i f s = Ok (tt, set_icache (<[i := f ino]> (icache s)) s).
Proof. intros H. unfold modino. munfold. by rewrite H. Qed.

Lemma getino_eq (s : fss B) i ino : icache s !! i = Some ino → getino i s = Ok (ino, s).
Proof. intros H. unfold getino. munfold. by rewrite H. Qed.

Lemma bblock_mapset s b : fs_base s → 0 ≤ b < sb_size (fsb s) → BBLOCK b (fsb s) ∈ mapset (fsb s).
Proof.
  intros Hb H. destruct (bblock_range _ _ (fb_layout _ Hb) b H) as [_ Hr]. unfold mapset, data_start in *.
  apply elem_of_list_to_set, elem_of_seqZ. lia.
Qed.

Lemma base_icache s l : fs_base s → fs_base (set_icache l s).
Proof. intros [H1 H2 H3 H4 H5]. by split. Qed.

Lemma base_pos s : fs_base s → 0 < data_start (fsb s) ∧ 0 < sb_bmapstart (fsb s).
Proof. intros Hb. pose proof (start_order _ _ (fb_layout _ Hb)). lia. Qed.

(** ** A block among the addresses in the inode *)

(** Entry [i] of the addresses is block [j] of the file. *)
Definition direct_slot (j : Z) (i : nat) : Prop := 0 ≤ j < NDIRECT ∧ i = Z.to_nat j ∨ j = MAXFILE ∧ i = 12%nat.

Lemma direct_slot_at f ino j i : direct_slot j i → slot f ino j = addr ino i.
Proof.
  unfold slot, direct_slot. intros [[Hj ->]|[-> ->]]; [|by rewrite Z.eqb_refl].
  change MAXFILE with 140 in *. change NDIRECT with 12 in *. rewrite (proj2 (Z.eqb_neq _ _)) by lia. by rewrite (proj2 (Z.ltb_lt _ _)) by lia.
Qed.

Lemma slot_set_addr f f' ino i j b k :
  length (i_addrs ino) = 13%nat → direct_slot j i → slot f ino j = 0 → b ≠ 0 → slot_index k →
  (addr ino 12 ≠ 0 → f' (addr ino 12) = f (addr ino 12)) → (∀ n, word_at (f' b) 0 n = 0) →
  slot f' (set_i_addrs (<[i := b]> (i_addrs ino)) ino) k = if k =? j then b else slot f ino k.
Proof.
  intros Hl Hj H0 Hb Hk Hf Hz. rewrite (direct_slot_at f ino j i Hj) in H0.
  assert (Ha : ∀ n, addr (set_i_addrs (<[i := b]> (i_addrs ino)) ino) n = if (n =? i)%nat then b else addr ino n).
  { intros n. unfold addr. cbn. destruct (Nat.eqb_spec n i) as [->|Hne].
    - rewrite list_lookup_insert_eq; [done|]. unfold direct_slot, NDIRECT in Hj. lia.
    - by rewrite list_lookup_insert_ne. }
  unfold slot. rewrite !Ha. unfold slot_index, direct_slot, MAXFILE, NINDIRECT, NDIRECT, BSIZE in *. change (512 / 4) with 128 in *.
  destruct Hj as [[Hj ->]|[-> ->]].
  - rewrite (proj2 (Nat.eqb_neq 12 _)) by lia. destruct (Z.eqb_spec k (12 + 128)) as [->|Hk1].
    { by rewrite (proj2 (Z.eqb_neq _ _)) by lia. }
    destruct (Z.ltb_spec k 12).
    + destruct (Z.eqb_spec k j) as [->|]; [by rewrite Nat.eqb_refl|]. by rewrite (proj2 (Nat.eqb_neq _ _)) by lia.
    + rewrite (proj2 (Z.eqb_neq k j)) by lia. destruct (Z.eqb_spec (addr ino 12) 0); [done|]. by rewrite Hf.
  - cbn [Nat.eqb]. destruct (Z.eqb_spec k (12 + 128)) as [->|Hk1]; [done|].
    destruct (Z.ltb_spec k 12).
    + by rewrite (proj2 (Nat.eqb_neq _ _)) by lia.
    + rewrite (proj2 (Z.eqb_neq b 0)), H0 by done. cbn. apply Hz.
Qed.

Lemma alloc_direct ip s ino i j :
  fs_base s → icache s !! ip = Some ino → file_ok s ino → can_log 2 (fv s) → (0 < nfree s)%nat →
  direct_slot j i → slot (blocks s) ino j = 0 → v_held (fv s) = ∅ →
  runs (a ← balloc 1; set_addr ip i a;; mret a) s (λ b s', ∃ ino', grew ip s ino j b s' ino').
Proof.
  intros Hb Hi Hf Hc Hn Hj H0 Hh. mstep. eapply runs_mono; [apply balloc_run; [done|done|by apply nfree_pos]|].
  intros b s1 T%allocated_took; [|done]. destruct T as [T1 T2 T3 T4 T5 T6 T7 T8 T9 T10 T11 T12 T13 T14].
  destruct (base_pos s Hb) as [Hd0 Hm0]. set (ino' := set_i_addrs (<[i := b]> (i_addrs ino)) ino).
  assert (Hsl : ∀ k, slot_index k → slot (blocks s1) ino' k = if k =? j then b else slot (blocks s) ino k).
  { intros k Hk. apply slot_set_addr; try done; [apply Hf|lia| |].
    - intros Ha. pose proof (fo_data _ _ Hf MAXFILE) as Hd. unfold slot in Hd. rewrite Z.eqb_refl in Hd.
      destruct (Hd ltac:(done) Ha) as [Hd1 Hd2]. apply T9; [lia|]. intros <-. congruence.
    - intros n. rewrite T8. apply word_at_zero. }
  unfold set_addr. mstep. rewrite <- T2 in Hi. exists tt, (set_icache (<[ip := ino']> (icache s1)) s1).
  split; [exact (modino_eq s1 ip ino _ Hi)|]. apply runs_ret. exists ino'. split; cbn; try done.
  - split; [done|done|done| |done|done]. unfold ino'. cbn. by rewrite length_insert.
  - by apply base_icache.
  - by rewrite T2.
  - by eexists.
  - intros c Hcl. change (c ∈ v_logged (fv s1)) in Hcl. rewrite T14 in Hcl. pose proof (bblock_mapset s b Hb ltac:(lia)). set_solver.
  - intros c Hc1 Hc2 _. apply T9; [done|]. intros ->. congruence.
Qed.

(** ** A block among the entries of the indirect block *)

(** The super block and the free map do not change. *)
Lemma used_same s s' c :
  fs_base s → fsb s' = fsb s → (∀ c, sb_bmapstart (fsb s) ≤ c < data_start (fsb s) → blocks s' c = blocks s c) →
  0 ≤ c < sb_size (fsb s) → used s' c = used s c.
Proof.
  intros Hb Hs Hbl Hc. unfold used, map_used. rewrite Hs, Hbl; [done|].
  by destruct (bblock_range _ _ (fb_layout _ Hb) c Hc).
Qed.

Lemma base_data s s' :
  fs_base s → fok s' → fsb s' = fsb s → v_geo (fv s') = v_geo (fv s) →
  blocks s' 1 = blocks s 1 → (∀ c, sb_bmapstart (fsb s) ≤ c < data_start (fsb s) → blocks s' c = blocks s c) →
  (∀ i n v, v_held (fv s') !! i = Some (n, v) → data_start (fsb s) ≤ n < sb_size (fsb s) ∧ used s n = true) → fs_base s'.
Proof.
  intros Hb Ho Hs Hg Hbl1 Hbl Hh. destruct (base_pos s Hb) as [Hd0 _]. pose proof (ly_data _ _ (fb_layout _ Hb)) as Hdl. split; rewrite ?Hs, ?Hg; [done|apply Hb| | |].
  - rewrite Hbl1. apply Hb.
  - intros b Hr. rewrite (used_same s) by (done || lia). by apply Hb.
  - intros i n v Hi. destruct (Hh i n v Hi) as [H1 H2]. split; [done|]. rewrite (used_same s) by (done || lia). done.
Qed.

(** Taking a buffer for a block of a file. *)
Lemma base_take s i n x :
  fs_base s → bk_ok x → bk_abs x = v_take i n (fv s) → data_start (fsb s) ≤ n < sb_size (fsb s) → used s n = true →
  fs_base (set_blk x s).
Proof.
  intros Hb Ox Ax Hn Hu. apply (base_data s); try done; unfold fv, blocks, fv; cbn; rewrite Ax; cbn; try done.
  intros j m v [[<- [= <- <-]]|[_ Hj]]%lookup_insert_Some; [done|]. by apply (fb_held _ Hb) in Hj.
Qed.

Lemma slot_entry f ino n : addr ino 12 ≠ 0 → (n < 128)%nat → slot f ino (12 + Z.of_nat n) = word_at (f (addr ino 12)) 0 n.
Proof.
  intros Ha Hn. unfold slot. change MAXFILE with 140. change NDIRECT with 12. rewrite (proj2 (Z.eqb_neq _ 140)) by lia.
  rewrite (proj2 (Z.ltb_ge _ _)), (proj2 (Z.eqb_neq _ 0)) by lia. by replace (Z.to_nat (12 + Z.of_nat n - 12)) with n by lia.
Qed.

Lemma slot_set_entry f f' ino n b k :
  addr ino 12 ≠ 0 → (n < 128)%nat → 0 ≤ b < 2 ^ 32 → slot_index k → length (f (addr ino 12)) = Z.to_nat BSIZE →
  f' (addr ino 12) = splice (f (addr ino 12)) (4 * n) (word b) →
  slot f' ino k = if k =? 12 + Z.of_nat n then b else slot f ino k.
Proof.
  intros Ha Hn Hb Hk Hl Hf. unfold slot_index in Hk. change MAXFILE with 140 in Hk. unfold BSIZE in Hl.
  destruct (decide (12 ≤ k < 140)) as [Hr|Hr].
  - replace k with (12 + Z.of_nat (Z.to_nat (k - 12))) by lia. rewrite !slot_entry by (done || lia). rewrite Hf, word_at_splice by lia.
    destruct (Nat.eqb_spec (Z.to_nat (k - 12)) n) as [<-|]; [by rewrite Z.eqb_refl|]. by rewrite (proj2 (Z.eqb_neq _ _)) by lia.
  - rewrite (proj2 (Z.eqb_neq _ _)) by lia. unfold slot. change MAXFILE with 140. change NDIRECT with 12.
    destruct (Z.eqb_spec k 140); [done|]. by rewrite (proj2 (Z.ltb_lt _ _)) by lia.
Qed.

(** Block [b], just allocated while the indirect block was held, is entered there. *)
Lemma entry_stored ip s ino bp x n b s2 x4 w :
  fs_base s → icache s !! ip = Some ino → file_ok s ino → v_held (fv s) = ∅ → addr ino 12 ≠ 0 → (n < 128)%nat →
  slot (blocks s) ino (12 + Z.of_nat n) = 0 → bk_abs x = v_take bp (addr ino 12) (fv s) → took (set_blk x s) b s2 →
  w = splice (blocks s (addr ino 12)) (4 * n) (word b) → bk_ok x4 →
  bk_abs x4 = v_drop bp (v_put bp (addr ino 12) w (fv s2)) →
  grew ip s ino (12 + Z.of_nat n) b (set_blk x4 s2) ino.
Proof.
  intros Hb Hi Hf Hh Ha Hn H0 Ax T Hw Ox4 Ax4. set (a := addr ino 12) in *. destruct (base_pos s Hb) as [Hd0 Hm0].
  assert (Has : ∀ f, slot f ino MAXFILE = a) by (intros f; unfold slot; by rewrite Z.eqb_refl).
  destruct (fo_data _ _ Hf MAXFILE) as [Har Hau]; [done|by rewrite Has|]. rewrite Has in Har, Hau.
  pose proof (start_order _ _ (fb_layout _ Hb)) as [Ho Ho1]. pose proof (ly_int _ _ (fb_layout _ Hb)) as Hint.
  assert (Hla : length (blocks s a) = Z.to_nat BSIZE) by (apply base_len; [done|lia]).
  assert (Hbl : ∀ c, blocks (set_blk x s) c = blocks s c) by (intros c; unfold blocks, fv; cbn; by rewrite Ax).
  assert (Hu1 : ∀ c, used (set_blk x s) c = used s c) by (intros c; unfold used, map_used; cbn; by rewrite Hbl).
  destruct T as [T1 T2 T3 T4 T5 T6 T7 T8 T9 T10 T11 T12 T13 T14]. rewrite Hu1 in T6. cbn in T2, T3, T4, T5, T7, T9, T10, T14.
  assert (Hba : b ≠ a) by congruence.
  assert (Hb4 : ∀ c, blocks (set_blk x4 s2) c = if c =? a then w else blocks s2 c) by (intros c; unfold blocks, fv; cbn; by rewrite Ax4).
  assert (Hne4 : ∀ c, c ≠ a → blocks (set_blk x4 s2) c = blocks s2 c) by (intros c Hc; rewrite Hb4; by rewrite (proj2 (Z.eqb_neq c a))).
  assert (Hheld : v_held (fv (set_blk x4 s2)) = ∅).
  { unfold fv at 1. cbn. rewrite Ax4. cbn. rewrite delete_insert_eq, T11. unfold fv. cbn. rewrite Ax. cbn. rewrite Hh.
    by rewrite delete_insert_eq, delete_empty. }
  assert (Hbase : fs_base (set_blk x4 s2)).
  { apply (base_data s2); cbn; try done; [unfold fv; cbn; by rewrite Ax4|apply Hne4; lia| |].
    - intros c Hc. rewrite T3 in Hc. apply Hne4. lia.
    - rewrite Hheld. intros j m v. by rewrite lookup_empty. }
  assert (Hu4 : ∀ c, 0 ≤ c < sb_size (fsb s) → used (set_blk x4 s2) c = (c =? b) || used s c).
  { intros c Hc. rewrite <- Hu1, <- T7 by done. apply used_same; [done|done| |by rewrite T3]. intros c' Hc'. rewrite T3 in Hc'. apply Hne4. lia. }
  split; cbn; try done.
  - split; cbn; try done. intros k Hk. apply (slot_set_entry _ _ _ _ _ _ Ha Hn); [lia|done|done|]. fold a. rewrite Hb4, Z.eqb_refl, Hw. done.
  - rewrite T2. symmetry. by apply list_insert_id.
  - exists (i_addrs ino). by destruct ino.
  - by rewrite Hheld, Hh.
  - unfold fv. cbn. rewrite Ax4. cbn. rewrite T12. unfold fv. cbn. by rewrite Ax.
  - unfold fv. cbn. rewrite Ax4. cbn. rewrite T13. unfold fv. cbn. by rewrite Ax.
  - intros c. rewrite Has. unfold fv at 1. cbn. rewrite Ax4. cbn. rewrite T14. unfold fv at 1. cbn. rewrite Ax. cbn.
    pose proof (bblock_mapset s b Hb ltac:(lia)). set_solver.
  - intros c Hc. rewrite Hne4, T10, Hbl by lia. done.
  - intros c Hc1 Hc2 Hc3. rewrite Has in Hc3. rewrite Hne4, T9, Hbl; [done|lia|congruence|done].
  - by rewrite Hne4.
Qed.

Lemma alloc_entry ip s ino bp x n :
  fs_base s → icache s !! ip = Some ino → file_ok s ino → can_log 3 (fv s) → (0 < nfree s)%nat → v_held (fv s) = ∅ →
  addr ino 12 ≠ 0 → (n < 128)%nat → slot (blocks s) ino (12 + Z.of_nat n) = 0 → bk_ok x →
  bk_abs x = v_take bp (addr ino 12) (fv s) →
  runs (a ← (a ← balloc 1; d ← data' bp; store' bp (splice d (4 * n) (word a));; log_write' bp;; mret a); brelse' bp;; mret a)
    (set_blk x s) (λ b s', ∃ ino', grew ip s ino (12 + Z.of_nat n) b s' ino').
Proof.
  intros Hb Hi Hf Hc Hn Hh Ha Hn128 H0 Ox Ax. set (a := addr ino 12) in *. destruct (base_pos s Hb) as [Hd0 Hm0].
  assert (Has : slot (blocks s) ino MAXFILE = a) by (unfold slot; by rewrite Z.eqb_refl).
  destruct (fo_data _ _ Hf MAXFILE) as [Har Hau]; [done|by rewrite Has|]. rewrite Has in Har, Hau.
  pose proof (start_order _ _ (fb_layout _ Hb)) as [Ho _]. pose proof (ly_int _ _ (fb_layout _ Hb)) as Hint.
  assert (Hla : length (blocks s a) = Z.to_nat BSIZE) by (apply base_len; [done|lia]).
  assert (Hb1 : fs_base (set_blk x s)) by (by apply (base_take s bp a)).
  assert (Hc1 : can_log 2 (fv (set_blk x s))).
  { unfold fv. cbn. rewrite Ax. apply can_log_take; [done|]. by rewrite Hh, lookup_empty. }
  assert (Hu1 : ∀ c, used (set_blk x s) c = used s c) by (intros c; unfold used, blocks, fv; cbn; by rewrite Ax).
  do 2 mstep. eapply runs_mono; [apply balloc_run; [done|done|]|].
  { destruct (nfree_pos s Hn) as (c & Hcr & Hcu). exists c. by rewrite Hu1. }
  intros b s2 T%allocated_took; [|done]. pose proof T as [T1 T2 T3 T4 T5 T6 T7 T8 T9 T10 T11 T12 T13 T14].
  assert (Hheld : v_held (fv s2) !! bp = Some (a, blocks s a)).
  { rewrite T11. unfold fv. cbn. rewrite Ax. cbn. rewrite Hh. apply lookup_insert_eq. }
  set (w := splice (blocks s a) (4 * n) (word b)).
  apply (step_data _ bp a (blocks s a)); [apply T1|done|].
  apply (step_write _ bp a (blocks s a) w); [apply T1|done| | |].
  { unfold w. unfold BSIZE in Hla. rewrite length_splice; [done|]. cbn [length word]. lia. }
  { unfold v_logs. rewrite T12, T14. unfold fv. cbn. rewrite Ax. cbn. destruct Hc as (_ & Hc & ?). split; [|done].
    pose proof (size_insert_logged b ({[BBLOCK b (fsb s)]} ∪ v_logged (fv s))).
    pose proof (size_insert_logged (BBLOCK b (fsb s)) (v_logged (fv s))). unfold fv in *. lia. }
  intros x3 O3 A3. mstep. apply (step_brelse _ bp a); [done|unfold blocks, fv; cbn; rewrite A3; apply held_put|].
  intros x4 O4 A4. unfold fv in A4. cbn in A4. rewrite A3 in A4. apply runs_ret. exists ino.
  by apply (entry_stored ip s ino bp x n b s2 x4 w).
Qed.

(** ** What mapping a block may change *)

(** Only blocks [bn] and the indirect block of the file can be new. *)
Record mapped (ip : nat) (s : fss B) (ino : inode) (bn : Z) (s' : fss B) (ino' : inode) : Prop := {
  mp_icache : icache s' = <[ip := ino']> (icache s);
  mp_ino : ∃ l, ino' = set_i_addrs l ino;
  mp_fsb : fsb s' = fsb s;
  mp_pid : fpid s' = fpid s;
  mp_open : v_open (fv s') = v_open (fv s);
  mp_geo : v_geo (fv s') = v_geo (fv s);
  mp_old : ∀ k, slot_index k → slot (blocks s) ino k ≠ 0 → slot (blocks s') ino' k = slot (blocks s) ino k;
  mp_only : ∀ k, slot_index k → k ≠ bn → k ≠ MAXFILE → slot (blocks s') ino' k = slot (blocks s) ino k;
  mp_ind : bn < NDIRECT → slot (blocks s') ino' MAXFILE = slot (blocks s) ino MAXFILE;
  mp_fresh : ∀ k, slot_index k → slot (blocks s) ino k = 0 → slot (blocks s') ino' k ≠ 0 →
    data_start (fsb s) ≤ slot (blocks s') ino' k < sb_size (fsb s) ∧ used s (slot (blocks s') ino' k) = false;
  mp_zero : slot (blocks s) ino bn = 0 → slot (blocks s') ino' bn ≠ 0 →
    blocks s' (slot (blocks s') ino' bn) = replicate (Z.to_nat BSIZE) 0;
  mp_used : ∀ c, 0 ≤ c < sb_size (fsb s) → used s c = true → used s' c = true;
  mp_meta : ∀ c, c < sb_bmapstart (fsb s) → blocks s' c = blocks s c;
  mp_data : ∀ c, data_start (fsb s) ≤ c < sb_size (fsb s) → used s c = true → c ≠ slot (blocks s) ino MAXFILE →
    blocks s' c = blocks s c }.

Lemma mapped_refl ip s ino bn : icache s !! ip = Some ino → mapped ip s ino bn s ino.
Proof.
  intros Hi. split; try done.
  - symmetry. by apply list_insert_id.
  - exists (i_addrs ino). by destruct ino.
Qed.

Lemma mapped_grew ip s ino bn s1 ino1 j b s2 ino2 :
  fs_base s → file_ok s1 ino1 → mapped ip s ino bn s1 ino1 → grew ip s1 ino1 j b s2 ino2 →
  slot_index bn → slot_index j → bn ≠ MAXFILE → j = bn ∨ j = MAXFILE ∧ NDIRECT ≤ bn → mapped ip s ino bn s2 ino2.
Proof.
  intros Hb Hf [M1 [l M2] M3 M4 M5 M6 M7 M8 MI M9 M10 M11 M12 M13] G Hbn Hji Hbm Hj.
  destruct G as [[G0 [G1 G1'] G2 G3 G4 G5] W1 W2 [l' W3] W4 W5 W6 W7 W8 W9 W10 W11]. rewrite M3 in *. destruct (base_pos s Hb) as [Hd0 _].
  assert (Hs12 : ∀ k, slot_index k → slot (blocks s1) ino1 k ≠ 0 → slot (blocks s2) ino2 k = slot (blocks s1) ino1 k).
  { intros k Hk Hk0. rewrite G5 by done. destruct (Z.eqb_spec k j) as [->|]; [by destruct Hk0|done]. }
  split; try congruence.
  - by rewrite W2, M1, list_insert_insert_eq.
  - exists l'. by rewrite W3, M2.
  - intros k Hk H0. rewrite Hs12; [by apply M7|done|by rewrite M7].
  - intros k Hk H1 H2. rewrite G5 by done. rewrite (proj2 (Z.eqb_neq k j)) by (destruct Hj as [?|[? _]]; congruence). by apply M8.
  - intros Hd. rewrite G5 by done. rewrite (proj2 (Z.eqb_neq MAXFILE j)) by lia. by apply MI.
  - intros k Hk H0. rewrite G5 by done. destruct (Z.eqb_spec k j) as [->|]; [intros _|by apply M9].
    split; [done|]. destruct (used s b) eqn:E; [|done]. rewrite (M11 b) in G1'; [done|lia|done].
  - intros H0. rewrite G5 by done. destruct (Z.eqb_spec bn j) as [<-|Hne]; [done|]. intros H1. destruct Hj as [->|[-> _]]; [done|].
    destruct (fo_data _ _ Hf bn Hbn H1) as [D1 D2]. rewrite M3 in D1. rewrite W10; [by apply M10|done|done|by rewrite G4].
  - intros c Hc Hu. rewrite G2 by done. by rewrite M11, orb_true_r.
  - intros c Hc. rewrite W9 by done. by apply M12.
  - intros c Hc Hu Hne. rewrite W10; [by apply M13|done|apply M11; [lia|done]|].
    destruct (decide (slot (blocks s) ino MAXFILE = 0)) as [E0|E0].
    + destruct (decide (slot (blocks s1) ino1 MAXFILE = 0)) as [->|E1]; [lia|]. intros ->. destruct (M9 MAXFILE) as [_ Hx]; [done|done|done|congruence].
    + by rewrite M7.
Qed.

(** * A file that is being written

    [ks] are the blocks of the file that may be written or become new, the indirect
    block among them, [X] the blocks that were in the transaction before, and [spare] a
    number of blocks that are to stay free. *)

Section state.
  Context (ip : nat) (ks : list Z) (X : gset Z) (spare : nat).
  Hypothesis Hks : NoDup ks.
  Hypothesis Hki : Forall slot_index ks.
  Hypothesis Hkm : MAXFILE ∈ ks.

Definition slots_of (s : fss B) (ino : inode) : gset Z := list_to_set (filter (λ b, b ≠ 0) (slot (blocks s) ino <$> ks)).

Record fstate (s : fss B) (ino : inode) : Prop := {
  st_base : fs_base s;
  st_ino : icache s !! ip = Some ino;
  st_file : file_ok s ino;
  st_held : v_held (fv s) = ∅;
  st_open : 1 ≤ v_open (fv s);
  st_log : v_logged (fv s) ⊆ X ∪ mapset (fsb s) ∪ slots_of s ino;
  st_small : (size X + Z.to_nat (sb_size (fsb s) / BPB + 1) + length ks ≤ 26)%nat;
  st_room : (missing s ino ks + spare ≤ nfree s)%nat }.

(** The transaction stays small. *)
Lemma logged_size s ino :
  fstate s ino → (size (v_logged (fv s)) ≤ size X + Z.to_nat (sb_size (fsb s) / BPB + 1) + length ks)%nat.
Proof.
  clear Hks Hki Hkm.
  intros [Hb _ _ _ _ Hl Hs _]. apply subseteq_size in Hl. etransitivity; [done|].
  assert (E1 : (size (mapset (fsb s)) ≤ Z.to_nat (sb_size (fsb s) / BPB + 1))%nat).
  { unfold mapset. rewrite size_list_to_set by apply NoDup_seqZ. by rewrite length_seqZ. }
  assert (E2 : (size (slots_of s ino) ≤ length ks)%nat).
  { unfold slots_of. rewrite size_list_to_set_le, length_filter, length_fmap. done. }
  pose proof (size_union_alt (X ∪ mapset (fsb s)) (slots_of s ino)). pose proof (size_union_alt X (mapset (fsb s))).
  pose proof (subseteq_size (slots_of s ino ∖ (X ∪ mapset (fsb s))) (slots_of s ino) ltac:(set_solver)).
  pose proof (subseteq_size (mapset (fsb s) ∖ X) (mapset (fsb s)) ltac:(set_solver)). lia.
Qed.

Lemma logged_bound s ino : fstate s ino → (size (v_logged (fv s)) ≤ 26)%nat.
Proof.
  clear Hks Hki Hkm. intros Hs. pose proof (logged_size s ino Hs). pose proof (st_small _ _ Hs). lia.
Qed.

Lemma state_can_log s ino : fstate s ino → can_log 3 (fv s).
Proof.
  clear Hks Hki Hkm.
  intros Hs. pose proof (logged_bound s ino Hs). unfold can_log. rewrite (st_held _ _ Hs), map_size_empty.
  pose proof (st_open _ _ Hs). lia.
Qed.

Lemma state_grew s ino j b s' ino' : fstate s ino → j ∈ ks → grew ip s ino j b s' ino' → fstate s' ino'.
Proof.
  intros Hs Hj [G G1 G2 G3 G4 G5 G6 G7 G8 G9 G10 G11]. pose proof Hs as [S1 S2 S3 S4 S5 S6 S7 S8].
  destruct (base_pos s S1) as [Hd0 _]. pose proof (gr_fsb _ _ _ _ _ _ G) as Gs. rewrite Forall_forall in Hki.
  destruct (grow_count s ino j b s' ino' ks Hd0 G Hks) as [C1 C2]; [by apply Forall_forall|done|].
  split; try congruence.
  - rewrite G2. apply list_lookup_insert_eq. by eapply lookup_lt_Some.
  - eapply grow_file; [done|done|by apply Hki|done].
  - assert (Hin : ∀ k, k ∈ ks → slot (blocks s') ino' k ≠ 0 → slot (blocks s') ino' k ∈ slots_of s' ino').
    { intros k Hk Hk0. unfold slots_of. apply elem_of_list_to_set, list_elem_of_filter. split; [done|]. apply list_elem_of_fmap. eauto. }
    rewrite Gs. intros c Hc. rewrite !elem_of_union. destruct (G8 c Hc) as [->|[[-> H0]|[Hm|Hl]]]; [right|by right; apply Hin|auto|].
    + pose proof (Hin j Hj) as H. rewrite (gr_slot _ _ _ _ _ _ G), Z.eqb_refl in H by auto. apply H. destruct G as [_ [? _] _ _ _ _]. lia.
    + apply S6 in Hl. rewrite !elem_of_union in Hl. destruct Hl as [[Hl|Hl]|Hl]; [auto|auto|]. right.
      unfold slots_of in Hl. apply elem_of_list_to_set, list_elem_of_filter in Hl as [H0 (k & -> & Hk)%list_elem_of_fmap].
      assert (E : slot (blocks s') ino' k = slot (blocks s) ino k).
      { rewrite (gr_slot _ _ _ _ _ _ G) by auto. destruct (Z.eqb_spec k j) as [->|]; [|done]. by rewrite (gr_none _ _ _ _ _ _ G) in H0. }
      rewrite <- E. apply Hin; [done|by rewrite E].
  - lia.
Qed.

(** ** Reading a block leaves the file as it is *)

Lemma fv_set s x : bk_abs x = fv s → fv (set_blk x s) = fv s.
Proof. done. Qed.
Lemma blocks_set s x : bk_abs x = fv s → blocks (set_blk x s) = blocks s.
Proof. intros E. unfold blocks, fv. cbn. by rewrite E. Qed.
Lemma used_set s x : bk_abs x = fv s → used (set_blk x s) = used s.
Proof. intros E. unfold used. by rewrite blocks_set. Qed.

Lemma file_ok_set s x ino : bk_abs x = fv s → file_ok s ino → file_ok (set_blk x s) ino.
Proof. intros E [? ? ? ? ? ? ?]. split; rewrite ?(blocks_set s x E), ?(used_set s x E); done. Qed.

Lemma state_set s ino x : fstate s ino → bk_ok x → bk_abs x = fv s → fstate (set_blk x s) ino.
Proof.
  intros [S1 S2 S3 S4 S5 S6 S7 S8] Ox E. split; unfold slots_of, missing, nfree; rewrite ?(fv_set s x E), ?(blocks_set s x E), ?(used_set s x E); try done.
  - by apply base_same.
  - by apply file_ok_set.
Qed.

Lemma mapped_set s ino bn s' ino' x : mapped ip s ino bn s' ino' → bk_abs x = fv s' → mapped ip s ino bn (set_blk x s') ino'.
Proof. intros [] E. split; rewrite ?(fv_set s' x E), ?(blocks_set s' x E), ?(used_set s' x E); done. Qed.

(** ** bmap *)

Lemma addr_lookup ino j : length (i_addrs ino) = 13%nat → (j < 13)%nat → i_addrs ino !! j = Some (addr ino j).
Proof. intros Hl Hj. unfold addr. destruct (lookup_lt_is_Some_2 (i_addrs ino) j) as [v ->]; [lia|done]. Qed.

Lemma slot_bound k : k ∈ ks → slot_index k.
Proof. rewrite Forall_forall in Hki. apply Hki. Qed.

Definition map_result (s : fss B) (ino : inode) (bn : Z) (s' : fss B) (ino' : inode) : Prop :=
  fstate s' ino' ∧ mapped ip s ino bn s' ino'.

(** Allocating an address of the inode where it has none. *)
Lemma addr_run s ino bn s0 ino0 i j :
  fstate s0 ino0 → map_result s0 ino0 bn s ino → direct_slot j i → j ∈ ks → bn ∈ ks → bn ≠ MAXFILE → j = bn ∨ j = MAXFILE ∧ NDIRECT ≤ bn →
  runs (if addr ino i =? 0 then a ← balloc (i_dev ino); set_addr ip i a;; mret a else mret (addr ino i)) s
    (λ a s', ∃ ino', map_result s0 ino0 bn s' ino' ∧ a = slot (blocks s') ino' j ∧ a ≠ 0).
Proof.
  intros Hs0 [Hs M] Hji Hj Hbn Hbm Hjj. pose proof (direct_slot_at (blocks s) ino j i Hji) as Es.
  rewrite (fo_dev _ _ (st_file _ _ Hs)). destruct (Z.eqb_spec (addr ino i) 0) as [E|E].
  - eapply runs_mono; [apply (alloc_direct ip s ino i j); [apply Hs|apply Hs|apply Hs| | |done|congruence|apply Hs]|].
    + eapply can_log_mono; [by eapply state_can_log|lia].
    + pose proof (missing_pos s ino ks j Hj ltac:(congruence)). pose proof (st_room _ _ Hs). lia.
    + intros b s' (ino' & G). exists ino'. pose proof (gw_grow _ _ _ _ _ _ _ G) as G0.
      split; [split; [by apply (state_grew s ino j b s' ino')|]|].
      * eapply mapped_grew; [apply Hs0|apply Hs|done|done|by apply slot_bound|by apply slot_bound|done|done].
      * rewrite (gr_slot _ _ _ _ _ _ G0), Z.eqb_refl by (by apply slot_bound). split; [done|].
        destruct (base_pos s (st_base _ _ Hs)). destruct G0 as [_ [? _] _ _ _ _]. lia.
  - apply runs_ret. exists ino. rewrite Es. done.
Qed.

Lemma bmap_run s ino bn :
  fstate s ino → bn ∈ ks → 0 ≤ bn < MAXFILE →
  runs (bmap ip bn) s (λ a s', ∃ ino', map_result s ino bn s' ino' ∧ a = slot (blocks s') ino' bn ∧ a ≠ 0).
Proof.
  intros Hs Hbk Hbn. pose proof (st_ino _ _ Hs) as Hi. pose proof (fo_len _ _ (st_file _ _ Hs)) as Hl.
  assert (M0 : map_result s ino bn s ino) by (split; [done|by apply mapped_refl]).
  unfold bmap. mstep. exists ino, s. split; [by apply getino_eq|]. change MAXFILE with 140 in *. change NDIRECT with 12 in *. change NINDIRECT with 128.
  destruct (Z.ltb_spec bn 12) as [Hd|Hd].
  - rewrite (addr_lookup ino) by lia. mstep. apply runs_ret.
    apply (addr_run s ino bn s ino (Z.to_nat bn) bn); try done; [left; change NDIRECT with 12; lia|change MAXFILE with 140; lia|by left].
  - rewrite (proj2 (Z.ltb_lt _ _)) by lia. rewrite (addr_lookup ino) by lia. mstep. apply runs_ret. mstep.
    eapply runs_mono; [apply (addr_run s ino bn s ino 12 140); try done; [by right|change MAXFILE with 140; lia|right; split; [done|change NDIRECT with 12; lia]]|].
    intros a s1 (ino1 & [Hs1 M1] & Ea & Ha0).
    assert (Eslot : slot (blocks s1) ino1 140 = addr ino1 12) by done. rewrite Eslot in Ea. subst a. clear Eslot.
    rewrite (fo_dev _ _ (st_file _ _ Hs)). set (n := Z.to_nat (bn - 12)).
    assert (Ebn : bn = 12 + Z.of_nat n) by lia. pose proof (st_base _ _ Hs1) as Hb1.
    destruct (fo_data _ _ (st_file _ _ Hs1) MAXFILE) as [Har Hau]; [done|done|]. change (slot (blocks s1) ino1 MAXFILE) with (addr ino1 12) in Har, Hau.
    pose proof (start_order _ _ (fb_layout _ Hb1)) as [Ho _]. pose proof (state_can_log _ _ Hs1) as Hc1. destruct (can_log_room 2 _ Hc1) as [Hroom _].
    apply step_bread; [apply Hb1|eapply home_behind; [apply Hb1|lia]|intros k v; by rewrite (st_held _ _ Hs1), lookup_empty|done|].
    intros bp x Ox Nx Ax. apply (step_data _ bp (addr ino1 12) (blocks s1 (addr ino1 12))); [done|unfold fv; cbn; rewrite Ax; apply held_take|].
    rewrite <- (slot_entry (blocks s1) ino1 n) by (done || lia). rewrite <- Ebn.
    destruct (Z.eqb_spec (slot (blocks s1) ino1 bn) 0) as [E0|E0].
    + replace (Z.to_nat (4 * (bn - 12))) with (4 * n)%nat by lia.
      eapply runs_mono; [apply (alloc_entry ip s1 ino1 bp x n); try done; [apply Hs1|apply Hs1| |apply Hs1|lia|by rewrite <- Ebn]|].
      * pose proof (missing_pos s1 ino1 ks bn Hbk E0). pose proof (st_room _ _ Hs1). lia.
      * rewrite <- Ebn. intros b s2 (ino2 & G). exists ino2. pose proof (gw_grow _ _ _ _ _ _ _ G) as G0.
        split; [split; [by apply (state_grew s1 ino1 bn b s2 ino2)|]|].
        -- eapply mapped_grew; [apply Hs|apply Hs1|done|done|by apply slot_bound|by apply slot_bound|change MAXFILE with 140; lia|by left].
        -- rewrite (gr_slot _ _ _ _ _ _ G0), Z.eqb_refl by (by apply slot_bound). split; [done|].
           destruct (base_pos s1 Hb1). destruct G0 as [_ [? _] _ _ _ _]. lia.
    + mstep. apply runs_ret. apply (step_brelse _ bp (addr ino1 12)); [done|unfold blocks, fv; cbn; rewrite Ax; exact (held_take bp _ (fv s1))|].
      intros x2 O2 A2. unfold fv in A2. cbn in A2. rewrite Ax, v_drop_take in A2 by done. apply runs_ret. exists ino1.
      change (set_blk x2 (set_blk x s1)) with (set_blk x2 s1). rewrite (blocks_set s1 x2 A2).
      split; [|done]. split; [by apply state_set|by apply mapped_set].
Qed.
End state.

(** * The bytes of a file *)

(** The byte at offset [o]; 0 where there is no block. *)
Definition fbyte (f : Z → list Z) (ino : inode) (o : Z) : Z :=
  let b := slot f ino (o / BSIZE) in
  if b =? 0 then 0 else default 0 (f b !! Z.to_nat (o mod BSIZE)).

Definition content (f : Z → list Z) (ino : inode) : list Z := fbyte f ino <$> seqZ 0 (i_size ino).

Lemma content_lookup f ino i : Z.of_nat i < i_size ino → content f ino !! i = Some (fbyte f ino (Z.of_nat i)).
Proof. intros H. unfold content. rewrite list_lookup_fmap, lookup_seqZ_lt by lia. done. Qed.

Lemma content_len f ino : length (content f ino) = Z.to_nat (i_size ino).
Proof. unfold content. by rewrite length_fmap, length_seqZ. Qed.

Lemma off_index o : 0 ≤ o < MAXFILE * BSIZE → slot_index (o / BSIZE) ∧ 0 ≤ o / BSIZE < MAXFILE ∧ 0 ≤ o mod BSIZE < BSIZE.
Proof. unfold slot_index. change MAXFILE with 140. unfold BSIZE. intros H. Z.to_euclidean_division_equations. lia. Qed.

(** ** Reading *)

(** A file that can be read. *)
Record rstate (ip : nat) (s : fss B) (ino : inode) : Prop := {
  rd_base : fs_base s;
  rd_ino : icache s !! ip = Some ino;
  rd_file : file_ok s ino;
  rd_held : v_held (fv s) = ∅;
  rd_room : v_room (fv s) }.

Lemma rstate_set ip s ino x : rstate ip s ino → bk_ok x → bk_abs x = fv s → rstate ip (set_blk x s) ino.
Proof.
  intros [S1 S2 S3 S4 S5] Ox E. split; rewrite ?(fv_set s x E); try done; [by apply base_same|by apply file_ok_set].
Qed.

Lemma step_read {A} ip s ino n (K : list Z → M (fss B) A) Q :
  rstate ip s ino → data_start (fsb s) ≤ n < sb_size (fsb s) →
  (∀ x, bk_ok x → bk_abs x = fv s → runs (K (blocks s n)) (set_blk x s) Q) →
  runs (bp ← bread' 1 n; d ← data' bp; brelse' bp;; K d) s Q.
Proof.
  intros [S1 S2 S3 S4 S5] Hn HK. pose proof (start_order _ _ (fb_layout _ S1)) as [Ho _].
  apply step_bread; [apply S1|eapply home_behind; [apply S1|lia]|intros k v; by rewrite S4, lookup_empty|done|].
  intros bp x Ox Nx Ax. apply (step_data _ bp n (blocks s n)); [done|unfold fv; cbn; rewrite Ax; apply held_take|].
  apply (step_brelse _ bp n); [done|unfold blocks, fv; cbn; rewrite Ax; exact (held_take bp n (fv s))|].
  intros x2 O2 A2. unfold fv in A2. cbn in A2. rewrite Ax, v_drop_take in A2 by done. by apply HK.
Qed.

(** bmap finds a block that is there. *)
Lemma bmap_have ip s ino bn :
  rstate ip s ino → 0 ≤ bn < MAXFILE → slot (blocks s) ino bn ≠ 0 →
  runs (bmap ip bn) s (λ a s', a = slot (blocks s) ino bn ∧ ∃ x, s' = set_blk x s ∧ bk_ok x ∧ bk_abs x = fv s).
Proof.
  intros R Hbn H0. pose proof (rd_ino _ _ _ R) as Hi. pose proof (fo_len _ _ (rd_file _ _ _ R)) as Hl.
  assert (Hself : ∃ x, s = set_blk x s ∧ bk_ok x ∧ bk_abs x = fv s) by (exists (blk s); split_and!; [by destruct s|apply R|done]).
  unfold bmap. mstep. exists ino, s. split; [by apply getino_eq|]. change MAXFILE with 140 in *. change NDIRECT with 12 in *. change NINDIRECT with 128.
  destruct (Z.ltb_spec bn 12) as [Hd|Hd].
  - rewrite (addr_lookup ino) by lia. mstep. apply runs_ret. rewrite (direct_slot_at _ _ bn (Z.to_nat bn)) in * by (left; change NDIRECT with 12; lia).
    rewrite (proj2 (Z.eqb_neq _ 0)) by done. by apply runs_ret.
  - rewrite (proj2 (Z.ltb_lt _ _)) by lia. change (Z.to_nat 12) with 12%nat. rewrite (addr_lookup ino) by lia. mstep. apply runs_ret.
    assert (Ha : addr ino 12 ≠ 0).
    { intros Ha. apply H0. unfold slot. change MAXFILE with 140. change NDIRECT with 12. rewrite (proj2 (Z.eqb_neq _ _)), (proj2 (Z.ltb_ge _ _)) by lia. by rewrite Ha. }
    rewrite (proj2 (Z.eqb_neq _ 0)) by done. mstep. apply runs_ret. rewrite (fo_dev _ _ (rd_file _ _ _ R)).
    set (n := Z.to_nat (bn - 12)). assert (Ebn : bn = 12 + Z.of_nat n) by lia.
    pose proof (slot_entry (blocks s) ino n Ha ltac:(lia)) as Es. rewrite <- Ebn in Es.
    destruct (fo_data _ _ (rd_file _ _ _ R) MAXFILE) as [Har _]; [done|done|]. change (slot (blocks s) ino MAXFILE) with (addr ino 12) in Har.
    pose proof R as [S1 S2 S3 S4 S5]. pose proof (start_order _ _ (fb_layout _ S1)) as [Ho _].
    apply step_bread; [apply S1|eapply home_behind; [apply S1|lia]|intros k v; by rewrite S4, lookup_empty|done|].
    intros bp x Ox Nx Ax. apply (step_data _ bp (addr ino 12) (blocks s (addr ino 12))); [done|unfold fv; cbn; rewrite Ax; apply held_take|].
    rewrite <- Es, (proj2 (Z.eqb_neq _ 0)) by done. mstep. apply runs_ret.
    apply (step_brelse _ bp (addr ino 12)); [done|unfold blocks, fv; cbn; rewrite Ax; exact (held_take bp _ (fv s))|].
    intros x2 O2 A2. unfold fv in A2. cbn in A2. rewrite Ax, v_drop_take in A2 by done. apply runs_ret. split; [done|]. by exists x2.
Qed.

(** The part of one block is the part of the file. *)
Lemma chunk_content s ino off m :
  file_ok s ino → fs_base s → 0 ≤ off → 0 ≤ m → off + m ≤ i_size ino → m ≤ BSIZE - off mod BSIZE →
  take (Z.to_nat m) (drop (Z.to_nat (off mod BSIZE)) (blocks s (slot (blocks s) ino (off / BSIZE)))) =
  take (Z.to_nat m) (drop (Z.to_nat off) (content (blocks s) ino)).
Proof.
  intros Hf Hb Ho Hm Hsz Hmb. pose proof (fo_size _ _ Hf) as Hs. unfold BSIZE in *. apply list_eq. intros i.
  destruct (decide (i < Z.to_nat m)%nat) as [Hi|Hi]; [|by rewrite !lookup_take_ge by lia].
  rewrite !lookup_take_lt, !lookup_drop by done. rewrite content_lookup by lia. unfold fbyte.
  replace (Z.of_nat (Z.to_nat off + i)) with (off + Z.of_nat i) by lia.
  assert (E1 : (off + Z.of_nat i) / 512 = off / 512) by (Z.to_euclidean_division_equations; lia).
  assert (E2 : (off + Z.of_nat i) mod 512 = off mod 512 + Z.of_nat i) by (Z.to_euclidean_division_equations; lia).
  unfold BSIZE. rewrite E1, E2. assert (H0 : slot (blocks s) ino (off / 512) ≠ 0).
  { apply (fo_full _ _ Hf); unfold BSIZE; Z.to_euclidean_division_equations; lia. }
  rewrite (proj2 (Z.eqb_neq _ 0)) by done. pose proof (Z.mod_pos_bound off 512 ltac:(lia)).
  replace (Z.to_nat (off mod 512 + Z.of_nat i)) with (Z.to_nat (off mod 512) + i)%nat by lia.
  destruct (off_index off) as (Hk & _); [change MAXFILE with 140 in *; unfold BSIZE; lia|].
  destruct (fo_data _ _ Hf _ Hk H0) as [Hr _]. pose proof (start_order _ _ (fb_layout _ Hb)) as [Hso _].
  assert (Hlen : length (blocks s (slot (blocks s) ino (off / 512))) = 512%nat) by (rewrite base_len; [done|done|unfold BSIZE in *; lia]).
  destruct (lookup_lt_is_Some_2 (blocks s (slot (blocks s) ino (off / 512))) (Z.to_nat (off mod 512) + i)) as [v Hv]; [lia|].
  rewrite Hv. done.
Qed.

(** The state differs in the state of the block layer only, and not in its view. *)
Definition same_view (s s' : fss B) : Prop := ∃ x, s' = set_blk x s ∧ bk_ok x ∧ bk_abs x = fv s.

Lemma same_view_trans s1 s2 s3 : same_view s1 s2 → same_view s2 s3 → same_view s1 s3.
Proof.
  intros (x & -> & Ox & Ax) (y & -> & Oy & Ay). exists y. split; [done|]. split; [done|]. unfold fv in *. cbn in Ay. congruence.
Qed.

Lemma readi_loop_run ip ino fuel : ∀ s off tot n acc,
  rstate ip s ino → 0 ≤ off → tot ≤ n → off + (n - tot) ≤ i_size ino → (Z.to_nat (n - tot) ≤ fuel)%nat →
  runs (readi_loop fuel ip off tot n acc) s (λ l s',
    l = acc ++ take (Z.to_nat (n - tot)) (drop (Z.to_nat off) (content (blocks s) ino)) ∧ same_view s s').
Proof.
  induction fuel as [|fuel IH]; intros s off tot n acc R Ho Ht Hsz Hfu; cbn [readi_loop].
  { rewrite (proj2 (Z.ltb_ge _ _)) by lia. apply runs_ret. replace (Z.to_nat (n - tot)) with 0%nat by lia. rewrite app_nil_r.
    split; [done|]. exists (blk s). split_and!; [by destruct s|apply R|done]. }
  destruct (Z.ltb_spec tot n) as [Hlt|Hge].
  2: { apply runs_ret. replace (Z.to_nat (n - tot)) with 0%nat by lia. rewrite app_nil_r.
       split; [done|]. exists (blk s). split_and!; [by destruct s|apply R|done]. }
  pose proof (rd_file _ _ _ R) as Hf. pose proof (fo_size _ _ Hf) as Hsize.
  destruct (off_index off) as (Hk & Hk140 & Hmod); [lia|].
  assert (H0 : slot (blocks s) ino (off / BSIZE) ≠ 0).
  { apply (fo_full _ _ Hf); [lia|]. unfold BSIZE in *. Z.to_euclidean_division_equations. lia. }
  destruct (fo_data _ _ Hf _ Hk H0) as [Hr _].
  mstep. exists ino, s. split; [apply getino_eq, R|]. mstep. eapply runs_mono; [by apply bmap_have|].
  intros a s1 (-> & x & -> & Ox & Ax). rewrite (fo_dev _ _ Hf). set (m := Z.min (n - tot) (BSIZE - off mod BSIZE)).
  eapply (step_read ip _ ino); [by apply rstate_set|done|]. intros x2 O2 A2. rewrite (blocks_set s x Ax), (chunk_content s ino off m); [|apply R|apply R|lia|lia|lia|lia].
  change (set_blk x2 (set_blk x s)) with (set_blk x2 s). change (bk_abs x2 = bk_abs x) in A2. rewrite Ax in A2.
  eapply runs_mono; [apply (IH (set_blk x2 s) (off + m) (tot + m)); [by apply rstate_set|lia|lia|lia|lia]|].
  intros l s3 [-> V]. rewrite (blocks_set s x2 A2). split.
  - rewrite <- app_assoc. f_equal. replace (Z.to_nat (n - tot)) with (Z.to_nat m + Z.to_nat (n - (tot + m)))%nat by lia.
    rewrite <- take_take_drop, drop_drop. by replace (Z.to_nat (off + m)) with (Z.to_nat off + Z.to_nat m)%nat by lia.
  - eapply same_view_trans; [|done]. by exists x2.
Qed.

(** readi returns the bytes of the file from [off] on, as far as they go. *)
Lemma readi_run ip s ino off n :
  rstate ip s ino → i_type ino ≠ T_DEV → 0 ≤ off ≤ i_size ino → 0 ≤ n → off + n < 2 ^ 32 →
  runs (readi ip off n) s (λ rl s', let l := take (Z.to_nat n) (drop (Z.to_nat off) (content (blocks s) ino)) in
    rl = (Z.of_nat (length l), l) ∧ same_view s s').
Proof.
  intros R Ht Ho Hn Hov. pose proof (fo_size _ _ (rd_file _ _ _ R)) as Hsz.
  unfold readi. mstep. exists ino, s. split; [apply getino_eq, R|]. rewrite (proj2 (Z.eqb_neq _ _)) by done.
  rewrite (proj2 (Z.ltb_ge _ _)) by lia. rewrite u32_small, (proj2 (Z.ltb_ge _ _)) by lia. cbn [orb].
  set (k := if i_size ino <? off + n then i_size ino - off else n).
  assert (Hk : k = Z.min n (i_size ino - off)) by (unfold k; destruct (Z.ltb_spec (i_size ino) (off + n)); lia).
  mstep. eapply runs_mono; [apply (readi_loop_run ip ino (Z.to_nat k) s off 0 k []); [done|lia|lia|lia|lia]|].
  intros l s' [-> V]. apply runs_ret. rewrite Z.sub_0_r, app_nil_l.
  assert (E : take (Z.to_nat k) (drop (Z.to_nat off) (content (blocks s) ino)) = take (Z.to_nat n) (drop (Z.to_nat off) (content (blocks s) ino))).
  { destruct (Z.le_gt_cases n (i_size ino - off)); [by replace k with n by lia|].
    rewrite !take_ge by (rewrite length_drop, content_len; lia). done. }
  rewrite E. split; [|done]. f_equal. rewrite length_take, length_drop, content_len. unfold MAXFILE, NDIRECT, NINDIRECT, BSIZE in Hsz.
  change ((12 + 512 / 4) * 512) with 71680 in Hsz. rewrite s32_small by lia. lia.
Qed.
End inode.
