(* ===== verification/FsWrite.v ===== *)
(** Writing a file (fs.c: writei, iupdate): the bytes written are the bytes read
    back, the others stay, and the inode on the disk follows the one in memory. *)
From Stdlib Require Import ZArith Lia Bool.
From stdpp Require Import base tactics list list_numbers strings sets gmap fin_sets.
From S2P Require Import Prelude Machine Bio Log Blocks Fs FsAlloc FsInode.

Section write.
  Context {B : Type} {BO : BlockOps B} {BL : BlockLaws B} {DS : DevSw B}.
  Implicit Types s : fss B.

(** * Mapping a block changes no byte of the file *)

Lemma mapped_fbyte ip s ino bn s' ino' o :
  file_ok s ino → mapped ip s ino bn s' ino' → bn ≠ MAXFILE → 0 ≤ o < MAXFILE * BSIZE →
  fbyte (blocks s') ino' o = fbyte (blocks s) ino o.
Proof.
  intros Hf M Hbn Ho. destruct (off_index o Ho) as (Hk & Hk140 & _). unfold fbyte. set (k := o / BSIZE) in *.
  destruct (Z.eqb_spec (slot (blocks s) ino k) 0) as [E|E].
  - destruct (Z.eqb_spec (slot (blocks s') ino' k) 0) as [E'|E']; [done|].
    destruct (decide (k = bn)) as [->|Hne].
    + rewrite (mp_zero _ _ _ _ _ _ M E E'). destruct (decide (Z.to_nat (o mod BSIZE) < Z.to_nat BSIZE)%nat).
      * by rewrite lookup_replicate_2.
      * by rewrite lookup_ge_None_2 by (rewrite length_replicate; lia).
    + by rewrite (mp_only _ _ _ _ _ _ M k Hk Hne ltac:(lia)) in E'.
  - rewrite (mp_old _ _ _ _ _ _ M k Hk E), (proj2 (Z.eqb_neq _ 0)) by done. destruct (fo_data _ _ Hf k Hk E) as [Hr Hu].
    rewrite (mp_data _ _ _ _ _ _ M _ Hr Hu); [done|]. intros E2.
    assert (Hx : k = MAXFILE) by (apply (fo_inj _ _ Hf k MAXFILE Hk); [done|done|done]). lia.
Qed.

(** * What a write changes *)

(** The bytes [w] were written at [off]; the size in the inode is not yet changed. *)
Record wrote (ip : nat) (s : fss B) (ino : inode) (off : Z) (w : list Z) (s' : fss B) (ino' : inode) : Prop := {
  wr_icache : icache s' = <[ip := ino']> (icache s);
  wr_ino : ∃ l, ino' = set_i_addrs l ino;
  wr_fsb : fsb s' = fsb s;
  wr_pid : fpid s' = fpid s;
  wr_open : v_open (fv s') = v_open (fv s);
  wr_geo : v_geo (fv s') = v_geo (fv s);
  wr_bytes : ∀ o, 0 ≤ o < MAXFILE * BSIZE → fbyte (blocks s') ino' o =
    if decide (off ≤ o < off + Z.of_nat (length w)) then default 0 (w !! Z.to_nat (o - off)) else fbyte (blocks s) ino o;
  wr_here : ∀ o, off ≤ o < off + Z.of_nat (length w) → slot (blocks s') ino' (o / BSIZE) ≠ 0;
  wr_old : ∀ k, slot_index k → slot (blocks s) ino k ≠ 0 → slot (blocks s') ino' k = slot (blocks s) ino k;
  wr_fresh : ∀ k, slot_index k → slot (blocks s) ino k = 0 → slot (blocks s') ino' k ≠ 0 →
    data_start (fsb s) ≤ slot (blocks s') ino' k < sb_size (fsb s) ∧ used s (slot (blocks s') ino' k) = false;
  wr_only : ∀ k, slot_index k → k ≠ MAXFILE → (∀ o, off ≤ o < off + Z.of_nat (length w) → o / BSIZE ≠ k) →
    slot (blocks s') ino' k = slot (blocks s) ino k;
  wr_ind : (∀ o, off ≤ o < off + Z.of_nat (length w) → o / BSIZE < NDIRECT) → slot (blocks s') ino' MAXFILE = slot (blocks s) ino MAXFILE;
  wr_used : ∀ c, 0 ≤ c < sb_size (fsb s) → used s c = true → used s' c = true;
  wr_meta : ∀ c, c < sb_bmapstart (fsb s) → blocks s' c = blocks s c;
  wr_data : ∀ c, data_start (fsb s) ≤ c < sb_size (fsb s) → used s c = true → (∀ k, slot_index k → slot (blocks s) ino k ≠ c) →
    blocks s' c = blocks s c }.

Lemma wrote_nil ip s ino off : icache s !! ip = Some ino → wrote ip s ino off [] s ino.
Proof.
  intros Hi. split; try done.
  - symmetry. by apply list_insert_id.
  - exists (i_addrs ino). by destruct ino.
  - intros o _. by rewrite decide_False by (cbn; lia).
  - intros o Ho. cbn in Ho. lia.
Qed.

Lemma wrote_app ip s ino off w s1 ino1 w1 s2 ino2 :
  fs_base s → 0 ≤ off → off + Z.of_nat (length (w ++ w1)) ≤ MAXFILE * BSIZE →
  wrote ip s ino off w s1 ino1 → wrote ip s1 ino1 (off + Z.of_nat (length w)) w1 s2 ino2 → wrote ip s ino off (w ++ w1) s2 ino2.
Proof.
  intros Hb Hoff Hmax [A1 [l A2] A3 A4 A5 A6 A7 A8 A9 A10 A11 AI A12 A13 A14] [C1 [l' C2] C3 C4 C5 C6 C7 C8 C9 C10 C11 CI C12 C13 C14].
  rewrite A3 in *. rewrite length_app in *. destruct (base_pos s Hb) as [Hd0 _]. split; try congruence.
  - by rewrite C1, A1, list_insert_insert_eq.
  - exists l'. by rewrite C2, A2.
  - intros o Ho. rewrite C7, A7, lookup_app, length_app by done.
    destruct (decide (off + Z.of_nat (length w) ≤ o < off + Z.of_nat (length w) + Z.of_nat (length w1))).
    + rewrite decide_True by lia. rewrite (lookup_ge_None_2 w) by lia. do 2 f_equal. lia.
    + destruct (decide (off ≤ o < off + Z.of_nat (length w))) as [Hw|Hw].
      * rewrite decide_True by lia. by destruct (lookup_lt_is_Some_2 w (Z.to_nat (o - off))) as [v ->]; [lia|].
      * by rewrite decide_False by lia.
  - intros o Ho. rewrite length_app in Ho. destruct (decide (o < off + Z.of_nat (length w))) as [Hlt|Hge]; [|apply C8; lia].
    assert (Hs1 : slot (blocks s1) ino1 (o / BSIZE) ≠ 0) by (apply A8; lia). rewrite C9; [done| |done].
    destruct (off_index o) as [Hk _]; [lia|done].
  - intros k Hk H0. rewrite C9; [by apply A9|done|by rewrite A9].
  - intros k Hk H0 H1. destruct (decide (slot (blocks s1) ino1 k = 0)) as [E|E].
    + destruct (C10 k Hk E H1) as [Hr Hu]. split; [done|].
      destruct (used s (slot (blocks s2) ino2 k)) eqn:Eu; [|done]. by rewrite A12 in Hu by (done || lia).
    + rewrite C9 by done. by apply A10.
  - intros k Hk Hkm Hko. rewrite length_app in Hko. rewrite C11, A11; [done|done|done| |done|done|]; intros o Ho; apply Hko; lia.
  - rewrite length_app. intros Hd. rewrite CI, AI; [done| |]; intros o Ho; apply Hd; lia.
  - intros c Hc Hu. apply C12; [done|]. by apply A12.
  - intros c Hc. rewrite C13 by done. by apply A13.
  - intros c Hc Hu Hk. rewrite C14; [by apply A14|done|apply A12; [lia|done]|]. intros k Hki.
    destruct (decide (slot (blocks s) ino k = 0)) as [E0|E0]; [|rewrite A9 by done; by apply Hk].
    destruct (decide (slot (blocks s1) ino1 k = 0)) as [E1|E1]; [lia|]. intros <-. destruct (A10 k Hki E0 E1). congruence.
Qed.

(** The file is untouched by what happened in the block layer. *)
Lemma state_frame ip ks X spare s ino x :
  fstate ip ks X spare s ino → fs_base (set_blk x s) → (∀ c, 0 ≤ c < sb_size (fsb s) → used (set_blk x s) c = used s c) →
  (∀ k, slot (blocks (set_blk x s)) ino k = slot (blocks s) ino k) → v_held (bk_abs x) = ∅ → v_open (bk_abs x) = v_open (fv s) →
  (∀ c, c ∈ v_logged (bk_abs x) → c ∈ v_logged (fv s) ∨ c ∈ X ∨ c ∈ slots_of ks s ino) → fstate ip ks X spare (set_blk x s) ino.
Proof.
  intros [S1 S2 S3 S4 S5 S6 S7 S8] Hb Hus Hsl Hh Ho Hl. split; try done.
  - destruct S3 as [F1 F2 F3 F4 F5 F6 F7]. split; try done; cbn [fsb set_blk].
    + intros k Hk. rewrite Hsl. intros E. destruct (F5 k Hk E) as [E1 E2]. split; [done|]. destruct (base_pos s S1). rewrite Hus; [done|lia].
    + intros k k' Hk Hk'. rewrite !Hsl. by apply F6.
    + intros k. rewrite Hsl. by apply F7.
  - change (1 ≤ v_open (bk_abs x)). by rewrite Ho.
  - assert (Es : slots_of ks (set_blk x s) ino = slots_of ks s ino).
    { unfold slots_of. do 2 f_equal. apply list_fmap_ext. intros i k _. apply Hsl. }
    rewrite Es. intros c Hc. destruct (Hl c Hc) as [Hc'|[Hc'|Hc']]; [by apply S6|set_solver|set_solver].
  - assert (E1 : missing (set_blk x s) ino ks = missing s ino ks).
    { unfold missing. f_equal. apply filter_ext_in. intros k _. by rewrite Hsl. }
    assert (E2 : nfree (set_blk x s) = nfree s).
    { unfold nfree. f_equal. apply filter_ext_in. intros c Hc%elem_of_seqZ. cbn in Hc. rewrite Hus by lia. done. }
    by rewrite E1, E2.
Qed.

(** * Writing into one block *)

Section state.
  Context (ip : nat) (ks : list Z) (X : gset Z) (spare : nat).
  Hypothesis Hks : NoDup ks.
  Hypothesis Hki : Forall slot_index ks.
  Hypothesis Hkm : MAXFILE ∈ ks.

Notation fstate := (fstate ip ks X spare).

(** Block [bn] of the file gets the contents [v]. *)
Lemma data_slots s ino bn v x :
  file_ok s ino → slot_index bn → bn ≠ MAXFILE → slot (blocks s) ino bn ≠ 0 → bk_abs x = v_upd (slot (blocks s) ino bn) v (fv s) →
  ∀ k, slot (blocks (set_blk x s)) ino k = slot (blocks s) ino k.
Proof.
  intros Hf Hbn Hne H0 Ax k. unfold slot. destruct (k =? MAXFILE); [done|]. destruct (k <? NDIRECT); [done|].
  destruct (Z.eqb_spec (addr ino 12) 0) as [|Ha]; [done|]. f_equal. unfold blocks, fv. cbn. rewrite Ax. cbn. apply set_block_ne.
  intros E. apply Hne. apply (fo_inj _ _ Hf); done.
Qed.

Lemma data_state s ino bn v x :
  fstate s ino → bn ∈ ks → bn ≠ MAXFILE → slot (blocks s) ino bn ≠ 0 → bk_ok x → bk_abs x = v_upd (slot (blocks s) ino bn) v (fv s) →
  fstate (set_blk x s) ino ∧ ∀ c, 0 ≤ c < sb_size (fsb s) → used (set_blk x s) c = used s c.
Proof.
  intros Hs Hbn Hne H0 Ox Ax. pose proof Hs as [S1 S2 S3 S4 S5 S6 S7 S8]. rewrite Forall_forall in Hki.
  pose proof (data_slots s ino bn v x S3 (Hki _ Hbn) Hne H0 Ax) as Hsl. set (a := slot (blocks s) ino bn) in *.
  destruct (fo_data _ _ S3 bn (Hki _ Hbn) H0) as [Hr Hu]. fold a in Hr, Hu.
  assert (Hbl : ∀ c, c < data_start (fsb s) → blocks (set_blk x s) c = blocks s c).
  { intros c Hc. unfold blocks, fv. cbn. rewrite Ax. cbn. apply set_block_ne. lia. }
  pose proof (start_order _ _ (fb_layout _ S1)) as [Hso Hso1].
  assert (Hus : ∀ c, 0 ≤ c < sb_size (fsb s) → used (set_blk x s) c = used s c).
  { intros c Hc. apply used_same; [done|done| |done]. intros c' Hc'. apply Hbl. lia. }
  assert (Hheld : v_held (fv (set_blk x s)) = ∅) by (unfold fv; cbn; by rewrite Ax).
  split; [|done]. apply state_frame; try done; rewrite ?Ax; try done.
  - apply (base_data s); try done; [unfold fv; cbn; by rewrite Ax|apply Hbl; lia|intros c Hc; apply Hbl; lia|].
    rewrite Hheld. intros i n w. by rewrite lookup_empty.
  - cbn. intros c [->%elem_of_singleton|Hc]%elem_of_union; [right; right|by left].
    unfold slots_of. apply elem_of_list_to_set, list_elem_of_filter. split; [done|]. apply list_elem_of_fmap. eauto.
Qed.

(** The bytes of the file after part of the block of [off] was overwritten. *)
Lemma block_bytes s1 ino1 off w x o :
  fstate s1 ino1 → 0 ≤ off < MAXFILE * BSIZE → off mod BSIZE + Z.of_nat (length w) ≤ BSIZE → slot (blocks s1) ino1 (off / BSIZE) ≠ 0 →
  bk_abs x = v_upd (slot (blocks s1) ino1 (off / BSIZE))
    (splice (blocks s1 (slot (blocks s1) ino1 (off / BSIZE))) (Z.to_nat (off mod BSIZE)) w) (fv s1) →
  0 ≤ o < MAXFILE * BSIZE → fbyte (blocks (set_blk x s1)) ino1 o =
    if decide (off ≤ o < off + Z.of_nat (length w)) then default 0 (w !! Z.to_nat (o - off)) else fbyte (blocks s1) ino1 o.
Proof.
  intros Hs1 Ho Hw H0 Ax Hor. destruct (off_index off ltac:(lia)) as (Hk & Hk140 & Hmod). set (bn := off / BSIZE) in *.
  pose proof (st_file _ _ _ _ _ _ Hs1) as Hf1. set (a := slot (blocks s1) ino1 bn) in *. destruct (fo_data _ _ Hf1 bn Hk H0) as [Hr Hu]. fold a in Hr, Hu.
  pose proof (data_slots s1 ino1 bn _ x Hf1 Hk ltac:(lia) H0 Ax) as Hsl.
  pose proof (start_order _ _ (fb_layout _ (st_base _ _ _ _ _ _ Hs1))) as [Hso _].
  assert (Hla : length (blocks s1 a) = Z.to_nat BSIZE) by (apply base_len; [apply Hs1|lia]).
  destruct (off_index o Hor) as (Hok & Hok140 & Homod). unfold fbyte. rewrite Hsl. destruct (decide (o / BSIZE = bn)) as [E|E].
  - rewrite E. fold a. rewrite (proj2 (Z.eqb_neq a 0)) by done. unfold blocks at 1, fv. cbn. rewrite Ax. cbn.
    rewrite set_block_eq, lookup_splice by lia.
    assert (Eo : o = bn * BSIZE + o mod BSIZE) by (rewrite <- E; unfold BSIZE in *; Z.to_euclidean_division_equations; lia).
    assert (Eoff : off = bn * BSIZE + off mod BSIZE) by (unfold bn, BSIZE in *; Z.to_euclidean_division_equations; lia).
    destruct (decide (off ≤ o < off + Z.of_nat (length w))).
    + rewrite decide_True by lia. do 2 f_equal. lia.
    + rewrite decide_False by lia. done.
  - rewrite decide_False.
    2: { intros Hin. apply E. unfold bn, BSIZE in *. Z.to_euclidean_division_equations. lia. }
    destruct (Z.eqb_spec (slot (blocks s1) ino1 (o / BSIZE)) 0) as [|En]; [done|]. unfold blocks at 1, fv. cbn. rewrite Ax. cbn.
    rewrite set_block_ne; [done|]. intros Ea. apply E. apply (fo_inj _ _ Hf1); done.
Qed.

(** The block of [off] was mapped and part of it overwritten. *)
Lemma wrote_block s ino off w s1 ino1 x :
  fs_base s → file_ok s ino → fstate s1 ino1 → mapped ip s ino (off / BSIZE) s1 ino1 → off / BSIZE ∈ ks →
  0 ≤ off < MAXFILE * BSIZE → (0 < length w)%nat → off mod BSIZE + Z.of_nat (length w) ≤ BSIZE →
  slot (blocks s1) ino1 (off / BSIZE) ≠ 0 → bk_ok x →
  bk_abs x = v_upd (slot (blocks s1) ino1 (off / BSIZE))
    (splice (blocks s1 (slot (blocks s1) ino1 (off / BSIZE))) (Z.to_nat (off mod BSIZE)) w) (fv s1) →
  wrote ip s ino off w (set_blk x s1) ino1.
Proof.
  intros Hb Hf Hs1 M Hbk Ho Hpos Hw H0 Ox Ax. destruct (off_index off ltac:(lia)) as (Hk & Hk140 & Hmod).
  assert (Hbytes := λ o, block_bytes s1 ino1 off w x o Hs1 Ho Hw H0 Ax). assert (Hmf := λ o, mapped_fbyte ip s ino _ s1 ino1 o Hf M ltac:(lia)).
  set (bn := off / BSIZE) in *. pose proof (st_file _ _ _ _ _ _ Hs1) as Hf1. set (a := slot (blocks s1) ino1 bn) in *.
  destruct (fo_data _ _ Hf1 bn Hk H0) as [Hr Hu]. fold a in Hr, Hu.
  pose proof (data_slots s1 ino1 bn _ x Hf1 Hk ltac:(lia) H0 Ax) as Hsl.
  destruct (data_state s1 ino1 bn _ x Hs1 Hbk ltac:(lia) H0 Ox Ax) as [_ Hus].
  pose proof (start_order _ _ (fb_layout _ (st_base _ _ _ _ _ _ Hs1))) as [Hso _].
  assert (Hbl : ∀ c, c ≠ a → blocks (set_blk x s1) c = blocks s1 c).
  { intros c Hc. unfold blocks, fv. cbn. rewrite Ax. cbn. by apply set_block_ne. }
  destruct M as [M1 M2 M3 M4 M5 M6 M7 M8 MI M9 M10 M11 M12 M13]. rewrite M3 in *.
  split; cbn [fsb icache fpid set_blk]; try done; try (unfold fv; cbn; rewrite Ax; done).
  - intros o Hor. rewrite <- Hmf by done. by apply Hbytes.
  - intros o Hor. rewrite Hsl. replace (o / BSIZE) with bn; [done|]. unfold bn, BSIZE in *. Z.to_euclidean_division_equations. lia.
  - intros k Hki' Hk0. rewrite Hsl. by apply M7.
  - intros k Hki' Hk0. rewrite Hsl. by apply M9.
  - intros k Hki' Hkm' Hko. rewrite Hsl. apply M8; [done| |done]. intros ->. apply (Hko off); [lia|done].
  - intros Hd. rewrite Hsl. apply MI. apply (Hd off). lia.
  - intros c Hc Huc. rewrite Hus by done. by apply M11.
  - intros c Hc. rewrite Hbl by lia. by apply M12.
  - intros c Hc Huc Hne. rewrite Hbl; [apply M13; [done|done|]|].
    + intros E. by apply (Hne MAXFILE).
    + intros ->. destruct (decide (slot (blocks s) ino bn = 0)) as [E|E].
      * destruct (M9 bn Hk E H0) as [_ Hx]. fold a in Hx. congruence.
      * apply (Hne bn Hk). symmetry. by apply M7.
Qed.

Lemma write_block_run {A} s ino off w (K : M (fss B) A) Q :
  fstate s ino → off / BSIZE ∈ ks → 0 ≤ off < MAXFILE * BSIZE → (0 < length w)%nat → off mod BSIZE + Z.of_nat (length w) ≤ BSIZE →
  (∀ s' ino', fstate s' ino' → wrote ip s ino off w s' ino' → runs K s' Q) →
  runs (a ← bmap ip (off / BSIZE); bp ← bread' 1 a; d ← data' bp;
        store' bp (splice d (Z.to_nat (off mod BSIZE)) w);; log_write' bp;; brelse' bp;; K) s Q.
Proof.
  intros Hs Hbk Ho Hpos Hw HK. destruct (off_index off ltac:(lia)) as (Hk & Hk140 & Hmod).
  mstep. eapply runs_mono; [by apply (bmap_run ip ks X spare Hks Hki Hkm s ino)|]. intros a s1 (ino1 & [Hs1 M] & -> & H0).
  pose proof (st_base _ _ _ _ _ _ Hs1) as Hb1. destruct (fo_data _ _ (st_file _ _ _ _ _ _ Hs1) _ Hk H0) as [Hr Hu].
  pose proof (start_order _ _ (fb_layout _ Hb1)) as [Hso _]. destruct (can_log_room 2 (fv s1)) as [Hroom Hlogs]; [by eapply state_can_log|].
  set (a := slot (blocks s1) ino1 (off / BSIZE)) in *.
  assert (Hla : length (blocks s1 a) = Z.to_nat BSIZE) by (apply base_len; [done|lia]).
  apply step_bread; [apply Hb1|eapply home_behind; [apply Hb1|lia]|intros k v; by rewrite (st_held _ _ _ _ _ _ Hs1), lookup_empty|done|].
  intros bp x Ox Nx Ax. apply (step_data _ bp a (blocks s1 a)); [done|unfold fv; cbn; rewrite Ax; apply held_take|].
  apply (step_write _ bp a (blocks s1 a)); [done|unfold fv; cbn; rewrite Ax; apply held_take| |unfold fv; cbn; by rewrite Ax|].
  { rewrite length_splice; [done|]. lia. }
  intros x2 O2 A2. unfold fv in A2. cbn in A2. rewrite Ax in A2.
  apply (step_brelse _ bp a); [done|unfold blocks, fv; cbn; rewrite A2; apply held_put|].
  intros x3 O3 A3. unfold fv in A3. cbn in A3. rewrite A2, v_drop_put in A3 by done.
  apply (HK (set_blk x3 s1) ino1).
  - by destruct (data_state s1 ino1 (off / BSIZE) _ x3 Hs1 Hbk ltac:(lia) H0 O3 A3).
  - apply wrote_block; try done; apply Hs.
Qed.

Lemma writei_loop_run fuel : ∀ s ino off tot n src,
  fstate s ino → (∀ o, off ≤ o < off + (n - tot) → o / BSIZE ∈ ks) → 0 ≤ off → tot ≤ n → off + (n - tot) ≤ MAXFILE * BSIZE →
  length src = Z.to_nat (n - tot) → (Z.to_nat (n - tot) ≤ fuel)%nat →
  runs (writei_loop fuel ip off tot n src) s (λ off' s', off' = off + (n - tot) ∧ ∃ ino', fstate s' ino' ∧ wrote ip s ino off src s' ino').
Proof.
  assert (Hend : ∀ s ino off tot n src, fstate s ino → n ≤ tot → tot ≤ n → length src = Z.to_nat (n - tot) →
    runs (mret off) s (λ off' s', off' = off + (n - tot) ∧ ∃ ino', fstate s' ino' ∧ wrote ip s ino off src s' ino')).
  { intros s ino off tot n src Hs H1 H2 Hl. apply runs_ret. split; [lia|]. exists ino. split; [done|].
    assert (src = []) as -> by (apply length_zero_iff_nil; lia). apply wrote_nil, Hs. }
  induction fuel as [|fuel IH]; intros s ino off tot n src Hs Hcov Ho Ht Hmax Hlen Hfu; cbn [writei_loop].
  { rewrite (proj2 (Z.ltb_ge _ _)) by lia. by apply Hend; [|lia|lia|]. }
  destruct (Z.ltb_spec tot n) as [Hlt|Hge]; [|by apply Hend].
  destruct (off_index off ltac:(lia)) as (Hk & Hk140 & Hmod).
  mstep. exists ino, s. split; [apply getino_eq, Hs|]. rewrite (fo_dev _ _ (st_file _ _ _ _ _ _ Hs)).
  set (m := Z.min (n - tot) (BSIZE - off mod BSIZE)). assert (Hm : 0 < m) by lia.
  assert (Hlw : length (take (Z.to_nat m) src) = Z.to_nat m) by (rewrite length_take; lia).
  apply (write_block_run s ino off (take (Z.to_nat m) src)); [done|apply Hcov; lia|lia|lia|lia|]. intros s1 ino1 Hs1 W1.
  eapply runs_mono; [apply (IH s1 ino1 (off + m) (tot + m) n (drop (Z.to_nat m) src) Hs1); [|lia|lia|lia|rewrite length_drop; lia|lia]|].
  { intros o Hor. apply Hcov. lia. }
  intros off' s2 (-> & ino2 & Hs2 & W2). split; [lia|]. exists ino2. split; [done|].
  rewrite <- (take_drop (Z.to_nat m) src). apply (wrote_app _ _ _ _ _ s1 ino1); [apply Hs|lia|rewrite take_drop; lia|done|].
  rewrite Hlw. by replace (Z.of_nat (Z.to_nat m)) with m by lia.
Qed.
End state.

(** * The inode on the disk *)

(** The fields fit their types. *)
Definition short (v : Z) : Prop := - 2 ^ 15 ≤ v < 2 ^ 15.
Record dinode_ok (i : dinode) : Prop := {
  dk_type : short (d_type i);
  dk_major : short (d_major i);
  dk_minor : short (d_minor i);
  dk_nlink : short (d_nlink i);
  dk_size : 0 ≤ d_isize i < 2 ^ 32;
  dk_len : length (d_addrs i) = 13%nat;
  dk_addrs : Forall (λ a, 0 ≤ a < 2 ^ 32) (d_addrs i) }.

Lemma s16_half v : short v → s16 (le (half v)) = v.
Proof.
  unfold short, s16. intros H. cbn [le half]. change (2 ^ 15) with 32768 in *. change (2 ^ 16) with 65536. change (2 ^ 8) with 256.
  destruct (Z.ltb_spec ((v mod 256 + 256 * (v / 256 mod 256 + 256 * 0)) mod 65536) 32768); Z.to_euclidean_division_equations; lia.
Qed.

Lemma length_half v : length (half v) = 2%nat.
Proof. done. Qed.
Lemma length_word v : length (word v) = 4%nat.
Proof. done. Qed.

Lemma length_words l : length (concat (word <$> l)) = (4 * length l)%nat.
Proof. induction l as [|x l IH]; [done|]. cbn [fmap list_fmap concat]. rewrite length_app, IH. cbn [length word]. lia. Qed.

Lemma words_at l j a : l !! j = Some a → 0 ≤ a < 2 ^ 32 → field (concat (word <$> l)) (4 * j) 4 = a.
Proof.
  revert j. induction l as [|x l IH]; intros j Hj Ha; [done|]. cbn [fmap list_fmap concat]. unfold field. destruct j as [|j].
  - injection Hj as ->. change (4 * 0)%nat with 0%nat. rewrite drop_0, take_app_le by done. change (take 4 (word a)) with (word a). by rewrite le_word, u32_small.
  - rewrite drop_app_ge by (rewrite length_word; lia). rewrite length_word. replace (4 * S j - 4)%nat with (4 * j)%nat by lia. by apply IH.
Qed.

Lemma length_dinode i : length (d_addrs i) = 13%nat → length (dinode_bytes i) = 64%nat.
Proof. intros H. unfold dinode_bytes. rewrite !length_app, length_words, H. done. Qed.

(** The fields of the inode by their offsets. *)
Lemma dinode_fields i :
  dinode_ok i → let l := dinode_bytes i in
  s16 (field l 0 2) = d_type i ∧ s16 (field l 2 2) = d_major i ∧ s16 (field l 4 2) = d_minor i ∧ s16 (field l 6 2) = d_nlink i ∧
  field l 8 4 = d_isize i ∧ ∀ j a, d_addrs i !! j = Some a → field l (12 + 4 * j) 4 = a.
Proof.
  intros [H1 H2 H3 H4 H5 H6 H7] l. unfold l, dinode_bytes. split_and!.
  - change (s16 (le (half (d_type i))) = d_type i). by apply s16_half.
  - change (s16 (le (half (d_major i))) = d_major i). by apply s16_half.
  - change (s16 (le (half (d_minor i))) = d_minor i). by apply s16_half.
  - change (s16 (le (half (d_nlink i))) = d_nlink i). by apply s16_half.
  - change (le (word (d_isize i)) = d_isize i). by rewrite le_word, u32_small.
  - intros j a Hj. rewrite Forall_lookup in H7. rewrite <- (words_at _ j a Hj (H7 _ _ Hj)). unfold field.
    rewrite !drop_app_ge by (rewrite ?length_half, ?length_word; lia). rewrite !length_half, length_word. do 3 f_equal. lia.
Qed.

(** What is written as an inode is read back as that inode. *)
Lemma dinode_codec d o i : dinode_ok i → (o + 64 ≤ length d)%nat → dinode_at (splice d o (dinode_bytes i)) o = i.
Proof.
  intros Hi Ho. pose proof (length_dinode i (dk_len _ Hi)) as Hl.
  assert (Hf : ∀ k n, (k + n ≤ 64)%nat → field (splice d o (dinode_bytes i)) (o + k) n = field (dinode_bytes i) k n).
  { intros k n Hk. unfold field. f_equal. apply list_eq. intros j. destruct (decide (j < n)%nat); [|by rewrite !lookup_take_ge by lia].
    rewrite !lookup_take_lt, !lookup_drop, lookup_splice by lia. rewrite decide_True by lia. f_equal. lia. }
  destruct (dinode_fields i Hi) as (F1 & F2 & F3 & F4 & F5 & F6). unfold dinode_at.
  pose proof (Hf 0%nat 2%nat ltac:(lia)) as E0. rewrite Nat.add_0_r in E0.
  rewrite E0, !Hf, F1, F2, F3, F4, F5 by lia. destruct i as [t ma mi nl sz addrs]. cbn [d_type d_major d_minor d_nlink d_isize d_addrs] in *. f_equal.
  apply list_eq. intros j. rewrite list_lookup_fmap. destruct (addrs !! j) as [a|] eqn:E.
  - pose proof (lookup_lt_Some _ _ _ E) as Hj. rewrite (dk_len _ Hi : length addrs = 13%nat) in Hj.
    rewrite lookup_seq_lt by lia. cbn [fmap option_fmap option_map]. f_equal. unfold word_at.
    replace (o + 12 + 4 * (0 + j))%nat with (o + (12 + 4 * j))%nat by lia. rewrite Hf by lia. by apply F6.
  - apply lookup_ge_None in E. rewrite (dk_len _ Hi : length addrs = 13%nat) in E. by rewrite lookup_seq_ge.
Qed.

(** The block of an inode and its place there. *)
Definition ino_block (s : fss B) (ino : inode) : Z := IBLOCK (i_inum ino) (fsb s).
Definition ino_off (ino : inode) : nat := Z.to_nat (i_inum ino mod IPB * sizeof_dinode).

(** The inode on the disk is the one in memory. *)
Definition synced (s : fss B) (ino : inode) : Prop := dinode_at (blocks s (ino_block s ino)) (ino_off ino) = dinode_of ino.

Lemma ino_off_range ino : (ino_off ino + 64 ≤ 512)%nat.
Proof.
  unfold ino_off. pose proof (Z.mod_pos_bound (i_inum ino) IPB ltac:(done)). change IPB with 8 in *. unfold sizeof_dinode. lia.
Qed.

Lemma ino_block_range s ino :
  fs_base s → 0 ≤ i_inum ino < sb_ninodes (fsb s) →
  sb_inodestart (fsb s) ≤ ino_block s ino < sb_bmapstart (fsb s) ∧ sb_bmapstart (fsb s) < data_start (fsb s).
Proof.
  intros Hb Hi. destruct (iblock_range _ _ (fb_layout _ Hb) _ Hi) as [_ H]. pose proof (start_order _ _ (fb_layout _ Hb)). unfold ino_block. lia.
Qed.

(** The view after the inode was written to its block. *)
Definition v_iupdate (s : fss B) (ino : inode) : bview :=
  v_upd (ino_block s ino) (splice (blocks s (ino_block s ino)) (ino_off ino) (dinode_bytes (dinode_of ino))) (fv s).

Lemma iupdate_view ip s ino :
  fs_base s → icache s !! ip = Some ino → i_dev ino = 1 → 0 ≤ i_inum ino < sb_ninodes (fsb s) → length (i_addrs ino) = 13%nat →
  v_room (fv s) → v_logs (fv s) → v_held (fv s) = ∅ →
  runs (iupdate ip) s (λ _ s', ∃ x, s' = set_blk x s ∧ bk_ok x ∧ bk_abs x = v_iupdate s ino).
Proof.
  intros Hb Hi Hd Hin Hl Hr Hlg Hh. destruct (ino_block_range s ino Hb Hin) as [Hib Hds]. pose proof (ly_data _ _ (fb_layout _ Hb)) as Hdl.
  unfold iupdate. mstep. exists ino, s. split; [by apply getino_eq|]. mstep. apply runs_get. rewrite Hd.
  change (IBLOCK (i_inum ino) (fsb s)) with (ino_block s ino). set (n := ino_block s ino) in *.
  assert (Hln : length (blocks s n) = Z.to_nat BSIZE) by (apply base_len; [done|lia]).
  apply step_bread; [apply Hb|eapply home_behind; [apply Hb|lia]|intros k v; by rewrite Hh, lookup_empty|done|].
  intros bp x Ox Nx Ax. apply (step_data _ bp n (blocks s n)); [done|unfold fv; cbn; rewrite Ax; apply held_take|].
  apply (step_write _ bp n (blocks s n)); [done|unfold fv; cbn; rewrite Ax; apply held_take| |unfold fv; cbn; by rewrite Ax|].
  { rewrite length_splice; [done|]. rewrite length_dinode by done. pose proof (ino_off_range ino). unfold BSIZE in Hln. unfold ino_off in *. lia. }
  intros x2 O2 A2. unfold fv in A2. cbn in A2. rewrite Ax in A2.
  apply (step_brelse_end _ bp n); [done|unfold blocks, fv; cbn; rewrite A2; apply held_put|].
  intros x3 O3 A3. unfold fv in A3. cbn in A3. rewrite A2, v_drop_put in A3 by done. by exists x3.
Qed.

Section update.
  Context (ip : nat) (ks : list Z) (X : gset Z) (spare : nat).

(** The blocks of files are not touched by a change of a block of inodes. *)
Lemma meta_state s ino n v x :
  fstate ip ks X spare s ino → sb_inodestart (fsb s) ≤ n < sb_bmapstart (fsb s) → n ∈ X → bk_ok x → bk_abs x = v_upd n v (fv s) →
  fstate ip ks X spare (set_blk x s) ino ∧ (∀ c, 0 ≤ c < sb_size (fsb s) → used (set_blk x s) c = used s c) ∧
  ∀ k, slot_index k → slot (blocks (set_blk x s)) ino k = slot (blocks s) ino k.
Proof.
  intros Hs Hn HX Ox Ax. pose proof Hs as [S1 S2 S3 S4 S5 S6 S7 S8]. pose proof (start_order _ _ (fb_layout _ S1)) as [Hso Hso1].
  assert (Hbl : ∀ c, c ≠ n → blocks (set_blk x s) c = blocks s c).
  { intros c Hc. unfold blocks, fv. cbn. rewrite Ax. cbn. by apply set_block_ne. }
  assert (Hus : ∀ c, 0 ≤ c < sb_size (fsb s) → used (set_blk x s) c = used s c).
  { intros c Hc. apply used_same; [done|done| |done]. intros c' Hc'. apply Hbl. lia. }
  assert (Hsl : ∀ k, slot (blocks (set_blk x s)) ino k = slot (blocks s) ino k).
  { intros k. unfold slot. destruct (k =? MAXFILE); [done|]. destruct (k <? NDIRECT); [done|].
    destruct (Z.eqb_spec (addr ino 12) 0) as [|Ha]; [done|]. rewrite Hbl; [done|].
    destruct (fo_data _ _ S3 MAXFILE) as [Har _]; [done|done|]. change (slot (blocks s) ino MAXFILE) with (addr ino 12) in Har. lia. }
  split; [|by split]. apply state_frame; try done; rewrite ?Ax; try done.
  - apply (base_data s); try done; [unfold fv; cbn; by rewrite Ax|apply Hbl; lia|intros c Hc; apply Hbl; lia|].
    unfold fv. cbn. rewrite Ax. cbn. rewrite S4. intros i m w. by rewrite lookup_empty.
  - cbn. intros c [->%elem_of_singleton|Hc]%elem_of_union; auto.
Qed.
End update.

(** * writei *)

(** The bytes [w] are in the file at [off]; nothing else has changed. *)
Record written (ip : nat) (s : fss B) (ino : inode) (off : Z) (w : list Z) (s' : fss B) (ino' : inode) : Prop := {
  wn_icache : icache s' = <[ip := ino']> (icache s);
  wn_ino : ∃ l z, ino' = set_i_size z (set_i_addrs l ino);
  wn_size : i_size ino' = Z.max (i_size ino) (off + Z.of_nat (length w));
  wn_content : content (blocks s') ino' = splice (content (blocks s) ino) (Z.to_nat off) w;
  wn_fsb : fsb s' = fsb s;
  wn_pid : fpid s' = fpid s;
  wn_open : v_open (fv s') = v_open (fv s);
  wn_geo : v_geo (fv s') = v_geo (fv s);
  wn_old : ∀ k, slot_index k → slot (blocks s) ino k ≠ 0 → slot (blocks s') ino' k = slot (blocks s) ino k;
  wn_fresh : ∀ k, slot_index k → slot (blocks s) ino k = 0 → slot (blocks s') ino' k ≠ 0 →
    data_start (fsb s) ≤ slot (blocks s') ino' k < sb_size (fsb s) ∧ used s (slot (blocks s') ino' k) = false;
  wn_used : ∀ c, 0 ≤ c < sb_size (fsb s) → used s c = true → used s' c = true;
  wn_data : ∀ c, data_start (fsb s) ≤ c < sb_size (fsb s) → used s c = true → (∀ k, slot_index k → slot (blocks s) ino k ≠ c) →
    blocks s' c = blocks s c;
  wn_meta : ∀ c, c < sb_bmapstart (fsb s) → c ≠ ino_block s ino → blocks s' c = blocks s c;
  wn_inodes : ∀ o, (o + 64 ≤ ino_off ino ∨ ino_off ino + 64 ≤ o)%nat →
    dinode_at (blocks s' (ino_block s ino)) o = dinode_at (blocks s (ino_block s ino)) o;
  wn_sync : synced s ino → synced s' ino' }.

(** The contents after the bytes and perhaps the size have changed. *)
Lemma content_splice f f' ino ino' off w :
  0 ≤ i_size ino → 0 ≤ off ≤ i_size ino → i_size ino' = Z.max (i_size ino) (off + Z.of_nat (length w)) → i_size ino' ≤ MAXFILE * BSIZE →
  (∀ o, 0 ≤ o < MAXFILE * BSIZE → fbyte f' ino' o =
     if decide (off ≤ o < off + Z.of_nat (length w)) then default 0 (w !! Z.to_nat (o - off)) else fbyte f ino o) →
  content f' ino' = splice (content f ino) (Z.to_nat off) w.
Proof.
  intros Hs Ho Hz Hmax Hb. apply list_eq. intros i. rewrite lookup_splice by (rewrite content_len; lia).
  destruct (decide (Z.of_nat i < i_size ino')) as [Hi|Hi].
  - rewrite content_lookup, Hb by lia. destruct (decide (off ≤ Z.of_nat i < off + Z.of_nat (length w))).
    + rewrite decide_True by lia. replace (Z.to_nat (Z.of_nat i - off)) with (i - Z.to_nat off)%nat by lia.
      by destruct (lookup_lt_is_Some_2 w (i - Z.to_nat off)) as [v ->]; [lia|].
    + rewrite decide_False by lia. symmetry. apply content_lookup. lia.
  - rewrite lookup_ge_None_2 by (rewrite content_len; lia). rewrite decide_False by lia.
    symmetry. apply lookup_ge_None_2. rewrite content_len. lia.
Qed.

(** Without growth the addresses stay. *)
Lemma wrote_inside ip s ino off w s' ino' :
  file_ok s ino → file_ok s' ino' → 0 ≤ off → off + Z.of_nat (length w) ≤ i_size ino → wrote ip s ino off w s' ino' → ino' = ino.
Proof.
  intros Hf Hf' Ho Hin W. destruct (wr_ino _ _ _ _ _ _ _ W) as [l El].
  assert (Ha : ∀ j, (j < 13)%nat → addr ino' j = addr ino j).
  { intros j Hj. set (k := if (j =? 12)%nat then MAXFILE else Z.of_nat j).
    assert (Hd : direct_slot k j) by (unfold direct_slot, k; change NDIRECT with 12; destruct (Nat.eqb_spec j 12); [right; done|left; lia]).
    assert (Hk : slot_index k) by (unfold slot_index, k; change MAXFILE with 140; destruct (Nat.eqb_spec j 12); lia).
    rewrite <- (direct_slot_at (blocks s') ino' k j Hd), <- (direct_slot_at (blocks s) ino k j Hd).
    destruct (decide (slot (blocks s) ino k = 0)) as [E|E]; [|by apply (wr_old _ _ _ _ _ _ _ W)].
    assert (Hfull : ∀ o, off ≤ o < off + Z.of_nat (length w) → slot (blocks s) ino (o / BSIZE) ≠ 0).
    { intros o Hor. apply (fo_full _ _ Hf); unfold BSIZE in *; Z.to_euclidean_division_equations; lia. }
    destruct (decide (k = MAXFILE)) as [Ek|Ek]; [|apply (wr_only _ _ _ _ _ _ _ W); [done|done|intros o Hor <-; by apply (Hfull o)]].
    rewrite Ek in *. apply (wr_ind _ _ _ _ _ _ _ W). intros o Hor. destruct (Z.lt_ge_cases (o / BSIZE) NDIRECT); [done|].
    exfalso. apply (Hfull o Hor). unfold slot. destruct (o / BSIZE =? MAXFILE) eqn:E1; [exact E|]. rewrite (proj2 (Z.ltb_ge _ _)) by done.
    change (addr ino 12 = 0) in E. by rewrite E. }
  assert (E : l = i_addrs ino); [|rewrite El, E; by destruct ino]. assert (Hl : l = i_addrs ino') by (by rewrite El). rewrite Hl.
  apply list_eq. intros j. pose proof (fo_len _ _ Hf). pose proof (fo_len _ _ Hf'). destruct (decide (j < 13)%nat) as [Hj|Hj].
  - rewrite !addr_lookup by done. by rewrite Ha.
  - by rewrite !lookup_ge_None_2 by lia.
Qed.

(** The fields of the inode that writei does not change fit their types. *)
Definition shorts (ino : inode) : Prop := short (i_type ino) ∧ short (i_major ino) ∧ short (i_minor ino) ∧ short (i_nlink ino).

Lemma file_dinode s ino : fs_base s → file_ok s ino → shorts ino → dinode_ok (dinode_of ino).
Proof.
  intros Hb Hf (H1 & H2 & H3 & H4). pose proof (fo_size _ _ Hf) as Hz. change (MAXFILE * BSIZE) with 71680 in Hz.
  split; cbn; try done; [lia|apply Hf|]. apply Forall_lookup. intros j a Hj. pose proof (lookup_lt_Some _ _ _ Hj) as Hlt.
  rewrite (fo_len _ _ Hf) in Hlt. assert (Ea : addr ino j = a) by (unfold addr; by rewrite Hj).
  set (k := if (j =? 12)%nat then MAXFILE else Z.of_nat j).
  assert (Hd : direct_slot k j) by (unfold direct_slot, k; change NDIRECT with 12; destruct (Nat.eqb_spec j 12); [right; done|left; lia]).
  assert (Hk : slot_index k) by (unfold slot_index, k; change MAXFILE with 140; destruct (Nat.eqb_spec j 12); lia).
  pose proof (fo_data _ _ Hf k Hk) as Hfd. rewrite (direct_slot_at _ _ k j Hd), Ea in Hfd.
  destruct (decide (a = 0)) as [->|Hne]; [lia|]. destruct (Hfd Hne) as [? _]. destruct (base_pos s Hb). pose proof (ly_int _ _ (fb_layout _ Hb)). lia.
Qed.

Section writei.
  Context (ip : nat) (ks : list Z) (X : gset Z) (spare : nat).
  Hypothesis Hks : NoDup ks.
  Hypothesis Hki : Forall slot_index ks.
  Hypothesis Hkm : MAXFILE ∈ ks.

Notation fstate := (fstate ip ks X spare).

Lemma size_state s ino z :
  fstate s ino → 0 ≤ z ≤ MAXFILE * BSIZE → (∀ k, 0 ≤ k → k * BSIZE < z → slot (blocks s) ino k ≠ 0) →
  fstate (set_icache (<[ip := set_i_size z ino]> (icache s)) s) (set_i_size z ino).
Proof.
  intros [S1 S2 S3 S4 S5 S6 S7 S8] Hz Hfull. split; try done.
  - by apply base_icache.
  - cbn. apply list_lookup_insert_eq. by eapply lookup_lt_Some.
  - destruct S3 as [F1 F2 F3 F4 F5 F6 F7]. split; try done.
Qed.

(** The file has grown, and the inode was written to the disk. *)
Lemma written_grown s ino off w s1 ino1 x :
  fstate s ino → fstate s1 ino1 → wrote ip s ino off w s1 ino1 → ino_block s ino ∈ X → shorts ino →
  0 ≤ off ≤ i_size ino → i_size ino < off + Z.of_nat (length w) → off + Z.of_nat (length w) ≤ MAXFILE * BSIZE →
  let ino2 := set_i_size (off + Z.of_nat (length w)) ino1 in
  let s2 := set_icache (<[ip := ino2]> (icache s1)) s1 in
  fstate s2 ino2 → bk_ok x → bk_abs x = v_iupdate s2 ino2 →
  fstate (set_blk x s2) ino2 ∧ written ip s ino off w (set_blk x s2) ino2.
Proof.
  intros Hs Hs1 W HX Hsh Ho Hgt Hmax ino2 s2 Hs2 Ox Ax. destruct W as [W1 [l W2] W3 W4 W5 W6 W7 W8 W9 W10 W11 WI W12 W13 W14].
  assert (Eb : ino_block s2 ino2 = ino_block s ino) by (unfold ino_block; cbn; by rewrite W3, W2).
  assert (Eo : ino_off ino2 = ino_off ino) by (unfold ino_off; cbn; by rewrite W2).
  destruct (ino_block_range s ino (st_base _ _ _ _ _ _ Hs) (fo_inum _ _ (st_file _ _ _ _ _ _ Hs))) as [Hib Hds].
  pose proof (start_order _ _ (fb_layout _ (st_base _ _ _ _ _ _ Hs))) as [Hso _].
  destruct (meta_state ip ks X spare s2 ino2 (ino_block s2 ino2)
    (splice (blocks s2 (ino_block s2 ino2)) (ino_off ino2) (dinode_bytes (dinode_of ino2))) x Hs2) as (Hs3 & Hus & Hsl); [cbn; rewrite Eb, W3; lia|by rewrite Eb|done|exact Ax|].
  assert (Hbl : ∀ c, c ≠ ino_block s ino → blocks (set_blk x s2) c = blocks s1 c).
  { intros c Hc. unfold blocks at 1, fv. cbn. rewrite Ax. cbn. rewrite Eb. by apply set_block_ne. }
  assert (Hsl2 : ∀ k, slot (blocks s2) ino2 k = slot (blocks s1) ino1 k) by done.
  assert (Hbi : blocks (set_blk x s2) (ino_block s ino) = splice (blocks s1 (ino_block s ino)) (ino_off ino) (dinode_bytes (dinode_of ino2))).
  { unfold blocks at 1, fv. cbn. rewrite Ax. cbn. by rewrite Eb, Eo, set_block_eq. }
  assert (Hlb : length (blocks s1 (ino_block s ino)) = 512%nat).
  { rewrite base_len; [done|apply Hs1|]. pose proof (ly_data _ _ (fb_layout _ (st_base _ _ _ _ _ _ Hs))). rewrite W3. lia. }
  assert (Hld : length (dinode_bytes (dinode_of ino2)) = 64%nat) by (apply length_dinode; apply Hs3).
  pose proof (ino_off_range ino) as Hor. split; [done|]. split; cbn [fsb fpid icache set_blk set_icache s2]; try done.
  - by rewrite W1, list_insert_insert_eq.
  - exists l, (off + Z.of_nat (length w)). unfold ino2. by rewrite W2.
  - cbn. lia.
  - apply content_splice; [apply Hs|done|cbn; lia|done|]. intros o Hoo. rewrite <- W7 by done. unfold fbyte.
    destruct (off_index o Hoo) as [Hk _]. rewrite (Hsl _ Hk), Hsl2. destruct (Z.eqb_spec (slot (blocks s1) ino1 (o / BSIZE)) 0) as [|En]; [done|].
    rewrite Hbl; [done|]. destruct (fo_data _ _ (st_file _ _ _ _ _ _ Hs1) _ Hk En) as [Hr _]. rewrite W3 in Hr. lia.
  - unfold fv. cbn. rewrite Ax. cbn. exact W5.
  - unfold fv. cbn. rewrite Ax. cbn. exact W6.
  - intros k Hk H0. rewrite (Hsl _ Hk), Hsl2. by apply W9.
  - intros k Hk H0. rewrite (Hsl _ Hk), Hsl2. by apply W10.
  - intros c Hc Hu. rewrite Hus by (cbn; by rewrite W3). by apply W12.
  - intros c Hc Hu Hn. rewrite Hbl by lia. by apply W14.
  - intros c Hc Hn. rewrite Hbl by done. by apply W13.
  - intros o Hoo. rewrite Hbi. unfold dinode_at. assert (Hf : ∀ k n, (k + n ≤ 64)%nat →
      field (splice (blocks s1 (ino_block s ino)) (ino_off ino) (dinode_bytes (dinode_of ino2))) (o + k) n = field (blocks s (ino_block s ino)) (o + k) n).
    { intros k n Hkn. unfold field. rewrite splice_other by lia. by rewrite W13 by lia. }
    pose proof (Hf 0%nat 2%nat ltac:(lia)) as E0. rewrite Nat.add_0_r in E0. rewrite E0, !Hf by lia. f_equal.
    apply list_fmap_ext. intros j y [-> Hj]%lookup_seq. unfold word_at. rewrite <- !Nat.add_assoc. apply Hf. lia.
  - intros _. unfold synced. change (ino_block (set_blk x s2) ino2) with (ino_block s2 ino2). rewrite Eb, Hbi, Eo. apply dinode_codec; [|lia].
    eapply (file_dinode _ _ (st_base _ _ _ _ _ _ Hs3) (st_file _ _ _ _ _ _ Hs3)). unfold shorts, ino2. by rewrite W2.
Qed.

(** The write stayed inside the file. *)
Lemma written_inside s ino off w s1 ino1 :
  fstate s ino → fstate s1 ino1 → wrote ip s ino off w s1 ino1 → 0 ≤ off → off + Z.of_nat (length w) ≤ i_size ino →
  written ip s ino off w s1 ino1.
Proof.
  intros Hs Hs1 W Ho Hin. destruct (ino_block_range s ino (st_base _ _ _ _ _ _ Hs) (fo_inum _ _ (st_file _ _ _ _ _ _ Hs))) as [Hib Hds].
  pose proof (wrote_inside _ _ _ _ _ _ _ (st_file _ _ _ _ _ _ Hs) (st_file _ _ _ _ _ _ Hs1) Ho Hin W) as ->.
  pose proof (fo_size _ _ (st_file _ _ _ _ _ _ Hs)). destruct W as [W1 [l W2] W3 W4 W5 W6 W7 W8 W9 W10 W11 WI W12 W13 W14].
  split; try done.
  - exists (i_addrs ino), (i_size ino). by destruct ino.
  - lia.
  - apply content_splice; [lia|lia|lia|lia|done].
  - intros c Hc _. by apply W13.
  - intros o _. by rewrite W13 by lia.
  - unfold synced, ino_block. rewrite W3. intros <-. by rewrite W13 by (unfold ino_block in Hib; lia).
Qed.

(** writei writes all of [w] and extends the file where needed. *)
Lemma writei_run s ino off w :
  fstate s ino → ino_block s ino ∈ X → shorts ino → i_type ino ≠ T_DEV → 0 ≤ off ≤ i_size ino →
  off + Z.of_nat (length w) ≤ MAXFILE * BSIZE → (∀ o, off ≤ o < off + Z.of_nat (length w) → o / BSIZE ∈ ks) →
  runs (writei ip w off (Z.of_nat (length w))) s (λ r s', r = Z.of_nat (length w) ∧ ∃ ino', fstate s' ino' ∧ written ip s ino off w s' ino').
Proof.
  intros Hs HX Hsh Ht Ho Hmax Hcov. pose proof (fo_size _ _ (st_file _ _ _ _ _ _ Hs)) as Hsz. set (n := Z.of_nat (length w)) in *.
  assert (Hmax' : off + n ≤ 71680) by (change (MAXFILE * BSIZE) with 71680 in Hmax; lia).
  unfold writei. mstep. exists ino, s. split; [apply getino_eq, Hs|]. rewrite (proj2 (Z.eqb_neq _ _)) by done.
  rewrite (proj2 (Z.ltb_ge (i_size ino) off)) by lia. rewrite u32_small, (proj2 (Z.ltb_ge _ off)), (proj2 (Z.ltb_ge _ (off + n))) by lia. cbn [orb].
  mstep. eapply runs_mono; [apply (writei_loop_run ip ks X spare Hks Hki Hkm (Z.to_nat n) s ino off 0 n w Hs); [|lia|lia|lia|lia|lia]|].
  { rewrite Z.sub_0_r. done. }
  rewrite Z.sub_0_r. intros off' s1 (-> & ino1 & Hs1 & W).
  mstep. exists ino1, s1. split; [apply getino_eq, Hs1|]. destruct (wr_ino _ _ _ _ _ _ _ W) as [l El].
  assert (Ez : i_size ino1 = i_size ino) by (by rewrite El). rewrite Ez.
  assert (Er : s32 n = n) by (apply s32_small; lia).
  destruct ((0 <? n) && (i_size ino <? off + n)) eqn:E.
  2: { mstep. apply runs_ret. apply runs_ret. rewrite Er. split; [done|]. exists ino1. split; [done|]. apply written_inside; [done|done|done|lia|].
       apply andb_false_iff in E as [E|E]; apply Z.ltb_ge in E; lia. }
  apply andb_true_iff in E as [E1%Z.ltb_lt E2%Z.ltb_lt]. set (ino2 := set_i_size (off + n) ino1).
  assert (Hs2 : fstate (set_icache (<[ip := ino2]> (icache s1)) s1) ino2).
  { apply size_state; [done|lia|]. intros k Hk Hkz. destruct (Z.lt_ge_cases (k * BSIZE) (i_size ino)) as [Hlt|Hge].
    - apply (fo_full _ _ (st_file _ _ _ _ _ _ Hs1)); [done|by rewrite Ez].
    - pose proof (wr_here _ _ _ _ _ _ _ W (k * BSIZE) ltac:(lia)) as Hh. by rewrite Z.div_mul in Hh. }
  set (s2 := set_icache (<[ip := ino2]> (icache s1)) s1) in *. do 2 mstep. exists tt, s2. split; [by rewrite (modino_eq s1 ip ino1) by apply Hs1|].
  destruct (can_log_room 2 (fv s2)) as [Hroom Hlogs]; [by eapply state_can_log|]. pose proof (st_file _ _ _ _ _ _ Hs2) as Hf2.
  eapply runs_mono; [apply (iupdate_view ip s2 ino2); try apply Hs2; try done; apply Hf2|].
  intros [] s3 (x & -> & Ox & Ax). apply runs_ret. rewrite Er. split; [done|]. exists ino2.
  by apply (written_grown s ino off w s1 ino1).
Qed.
End writei.
End write.
