(* ===== verification/FsFile.v ===== *)
(** An inode is a file: what writei and readi promise to their callers, and how much
    of a transaction a write takes. *)
From Stdlib Require Import ZArith Lia Bool.
From stdpp Require Import base tactics list list_numbers strings sets gmap fin_sets.
From S2P Require Import Prelude Machine Bio Log Blocks Fs FsAlloc FsInode FsWrite.

(** The indirect block and the blocks that [n] bytes at [off] are in. *)
Definition touched (off n : Z) : list Z :=
  MAXFILE :: if n =? 0 then [] else seqZ (off / BSIZE) ((off + n - 1) / BSIZE - off / BSIZE + 1).

Section touched.
  Context (off n : Z).
  Hypothesis Hoff : 0 ≤ off.
  Hypothesis Hn : 0 ≤ n.
  Hypothesis Hmax : off + n ≤ MAXFILE * BSIZE.

Lemma touched_index : Forall slot_index (touched off n).
Proof.
  unfold touched. change MAXFILE with 140 in *. unfold slot_index, BSIZE in *. change MAXFILE with 140. constructor; [lia|].
  destruct (Z.eqb_spec n 0); [constructor|]. apply Forall_forall. intros k Hk%elem_of_seqZ. Z.to_euclidean_division_equations. lia.
Qed.

Lemma touched_nodup : NoDup (touched off n).
Proof.
  unfold touched. change MAXFILE with 140 in *. unfold BSIZE in *. destruct (Z.eqb_spec n 0); [apply NoDup_singleton|].
  constructor; [|apply NoDup_seqZ]. intros Hk%elem_of_seqZ. Z.to_euclidean_division_equations. lia.
Qed.

Lemma touched_cover o : off ≤ o < off + n → o / BSIZE ∈ touched off n.
Proof.
  intros Ho. unfold touched. rewrite (proj2 (Z.eqb_neq n 0)) by lia. apply elem_of_cons. right. apply elem_of_seqZ.
  unfold BSIZE in *. Z.to_euclidean_division_equations. lia.
Qed.

Lemma touched_length : Z.of_nat (length (touched off n)) ≤ n / BSIZE + 3.
Proof.
  unfold touched. cbn [length]. unfold BSIZE. destruct (Z.eqb_spec n 0) as [->|Hne]; cbn [length]; [change (0 / 512) with 0; lia|].
  rewrite length_seqZ. Z.to_euclidean_division_equations. lia.
Qed.
End touched.

Section file.
  Context {B : Type} {BO : BlockOps B} {BL : BlockLaws B} {DS : DevSw B}.
  Implicit Types s : fss B.

(** Inode [ip] is a file in a consistent file system, and [n] bytes can be written
    at [off]: a transaction is open and has room, no buffer is held, and there are
    free blocks for those the file does not have. *)
Record can_write (ip : nat) (s : fss B) (ino : inode) (off n : Z) : Prop := {
  cw_base : fs_base s;
  cw_ino : icache s !! ip = Some ino;
  cw_file : file_ok s ino;
  cw_type : i_type ino ≠ T_DEV;
  cw_shorts : shorts ino;
  cw_off : 0 ≤ off ≤ i_size ino;
  cw_n : 0 ≤ n;
  cw_max : off + n ≤ MAXFILE * BSIZE;
  cw_held : v_held (fv s) = ∅;
  cw_open : 1 ≤ v_open (fv s);
  cw_small : (size (v_logged (fv s)) + 1 + Z.to_nat (sb_size (fsb s) / BPB + 1) + length (touched off n) ≤ 26)%nat;
  cw_room : (missing s ino (touched off n) ≤ nfree s)%nat }.

Definition write_set (s : fss B) (ino : inode) : gset Z := {[ino_block s ino]} ∪ v_logged (fv s).

Lemma can_write_state ip s ino off n spare :
  can_write ip s ino off n → (missing s ino (touched off n) + spare ≤ nfree s)%nat → fstate ip (touched off n) (write_set s ino) spare s ino.
Proof.
  intros [] Hr. split; try done.
  - unfold write_set. set_solver.
  - unfold write_set. pose proof (size_insert_logged (ino_block s ino) (v_logged (fv s))). lia.
Qed.

Lemma file_write ip s ino off w spare :
  can_write ip s ino off (Z.of_nat (length w)) → (missing s ino (touched off (Z.of_nat (length w))) + spare ≤ nfree s)%nat →
  runs (writei ip w off (Z.of_nat (length w))) s (λ r s', r = Z.of_nat (length w) ∧
    ∃ ino', fstate ip (touched off (Z.of_nat (length w))) (write_set s ino) spare s' ino' ∧ written ip s ino off w s' ino').
Proof.
  intros C Hr. pose proof (can_write_state _ _ _ _ _ _ C Hr) as Hs. destruct C.
  apply (writei_run ip (touched off (Z.of_nat (length w))) (write_set s ino) spare); try done.
  - apply touched_nodup; lia.
  - apply touched_index; lia.
  - apply elem_of_cons. by left.
  - unfold write_set. set_solver.
  - intros o Ho. apply touched_cover; lia.
Qed.

(** The inodes other than [ino] in its block keep their contents on the disk. *)
Definition others_kept (s s' : fss B) (ino : inode) : Prop :=
  (∀ c, c < sb_bmapstart (fsb s) → c ≠ ino_block s ino → blocks s' c = blocks s c) ∧
  (∀ o, (o + 64 ≤ ino_off ino ∨ ino_off ino + 64 ≤ o)%nat →
     dinode_at (blocks s' (ino_block s ino)) o = dinode_at (blocks s (ino_block s ino)) o) ∧
  (∀ c, data_start (fsb s) ≤ c < sb_size (fsb s) → used s c = true → (∀ k, slot_index k → slot (blocks s) ino k ≠ c) →
     blocks s' c = blocks s c).

(** C20. A file is an array of bytes. Writing the bytes [w] at offset [off] with writei
    succeeds, and reading there with readi returns them; the rest of the contents
    is as before and the file grows when the bytes go past its end. The inode
    stays well formed (its blocks allocated, no two the same, none missing), the
    copy on the disk agrees with the one in memory if it did before, and neither
    the other inodes nor the blocks of other files change. *)
Theorem writei_readi (ip : nat) (s : fss B) (ino : inode) (off : Z) (w : list Z)
  (Hc : can_write ip s ino off (Z.of_nat (length w))) :
  runs (r ← writei ip w off (Z.of_nat (length w)); x ← readi ip off (Z.of_nat (length w)); mret (r, x)) s (λ '(r, x) s',
    r = Z.of_nat (length w) ∧ x = (Z.of_nat (length w), w) ∧
    ∃ ino', icache s' = <[ip := ino']> (icache s) ∧ file_ok s' ino' ∧
      content (blocks s') ino' = splice (content (blocks s) ino) (Z.to_nat off) w ∧
      i_size ino' = Z.max (i_size ino) (off + Z.of_nat (length w)) ∧
      (synced s ino → synced s' ino') ∧ others_kept s s' ino).
Proof.
  mstep. eapply runs_mono; [apply (file_write ip s ino off w 0); [done|pose proof (cw_room _ _ _ _ _ Hc); lia]|]. intros r s1 (-> & ino1 & Hs1 & W). destruct Hc.
  pose proof (st_file _ _ _ _ _ _ Hs1) as Hf1. destruct (wn_ino _ _ _ _ _ _ _ W) as (l & z & El).
  assert (R : rstate ip s1 ino1).
  { split; try apply Hs1. apply (can_log_room 2). by eapply state_can_log. }
  mstep. change (MAXFILE * BSIZE) with 71680 in cw_max0.
  eapply runs_mono; [apply (readi_run ip s1 ino1); [done|by rewrite El|rewrite (wn_size _ _ _ _ _ _ _ W); lia|done|lia]|].
  intros x s2 (-> & y & -> & Oy & Ay). apply runs_ret.
  assert (Er : take (Z.to_nat (Z.of_nat (length w))) (drop (Z.to_nat off) (content (blocks s1) ino1)) = w).
  { rewrite (wn_content _ _ _ _ _ _ _ W), Nat2Z.id. apply splice_same. rewrite content_len. lia. }
  rewrite Er. split; [done|]. split; [done|]. exists ino1. unfold others_kept, synced, ino_block. cbn [icache fsb set_blk]. rewrite (blocks_set s1 y Ay).
  split_and!; [apply W|by apply file_ok_set|apply W|apply W|apply W|apply W|apply W|apply W].
Qed.

(** C21. A write fits its reservation in the log. Writing at most three blocks of
    bytes, as filewrite does in one transaction, changes at most seven blocks on a
    disk whose free map is a single block: up to four blocks of contents, the
    indirect block, the free map and the block of the inode. The reservation of a
    call is MAXOPBLOCKS. *)
Theorem writei_reservation (ip : nat) (s : fss B) (ino : inode) (off : Z) (w : list Z)
  (Hc : can_write ip s ino off (Z.of_nat (length w))) (Hmap : sb_size (fsb s) < BPB)
  (Hlen : Z.of_nat (length w) ≤ 3 * BSIZE) :
  runs (writei ip w off (Z.of_nat (length w))) s (λ _ s',
    Z.of_nat (size (v_logged (fv s'))) ≤ Z.of_nat (size (v_logged (fv s))) + 7 ∧ 7 ≤ MAXOPBLOCKS).
Proof.
  eapply runs_mono; [apply (file_write ip s ino off w 0); [done|pose proof (cw_room _ _ _ _ _ Hc); lia]|]. intros r s1 (-> & ino1 & Hs1 & W). split; [|done].
  pose proof (logged_size ip _ _ _ s1 ino1 Hs1) as Hl. rewrite (wn_fsb _ _ _ _ _ _ _ W) in Hl.
  pose proof (size_insert_logged (ino_block s ino) (v_logged (fv s))) as Hx. fold (write_set s ino) in Hx.
  assert (Hm : sb_size (fsb s) / BPB = 0).
  { apply Z.div_small. pose proof (ly_int _ _ (fb_layout _ (cw_base _ _ _ _ _ Hc))). lia. }
  rewrite Hm in Hl. change (Z.to_nat (0 + 1)) with 1%nat in Hl.
  assert (Ht : (length (touched off (Z.of_nat (length w))) ≤ 5)%nat); [|lia].
  unfold touched. cbn [length]. unfold BSIZE in *. destruct (_ =? 0); cbn [length]; [lia|]. rewrite length_seqZ.
  pose proof (cw_off _ _ _ _ _ Hc). Z.to_euclidean_division_equations. lia.
Qed.
End file.
