(* ===== verification/FsLayout.v ===== *)
(** The types of what the file system keeps on the disk (fs.h): a block of the inode
    area is an array of eight [struct dinode] and a block of a directory an array of
    [struct dirent]; storing an element of the array changes that element and keeps the
    block well-typed. *)
From Stdlib Require Import ZArith Lia Bool.
From stdpp Require Import base tactics list list_numbers strings sets.
From S2P Require Import Prelude Machine Bio Log Blocks Fs FsAlloc FsInode FsWrite.

(** * Blocks of bytes *)

Definition bytes (l : list Z) : Prop := Forall (λ c, 0 ≤ c < 256) l.

Record block_ok (d : list Z) : Prop := { bo_len : length d = Z.to_nat BSIZE; bo_bytes : bytes d }.

Lemma bytes_slice l o n : bytes l → bytes (take n (drop o l)).
Proof. intros H. by apply Forall_take, Forall_drop. Qed.

Lemma bytes_splice l o w : bytes l → bytes w → bytes (splice l o w).
Proof. intros Hl Hw. unfold splice. apply Forall_app. split; [by apply Forall_take|]. apply Forall_app. split; [done|by apply Forall_drop]. Qed.

Lemma block_splice d o w : block_ok d → bytes w → (o + length w ≤ length d)%nat → block_ok (splice d o w).
Proof. intros [Hl Hb] Hw Ho. split; [by rewrite length_splice|by apply bytes_splice]. Qed.

(** A field of [n] bytes is a number of that width. *)
Lemma field_range l o n : bytes l → 0 ≤ field l o n < 256 ^ Z.of_nat n.
Proof.
  intros H. unfold field. pose proof (le_range _ (bytes_slice _ o n H)) as Hr. rewrite length_take in Hr.
  pose proof (Z.pow_le_mono_r 256 (Z.of_nat (n `min` length (drop o l))) (Z.of_nat n)). lia.
Qed.

Lemma bytes_half v : bytes (half v).
Proof. repeat constructor; apply Z.mod_pos_bound; lia. Qed.
Lemma bytes_word v : bytes (word v).
Proof. repeat constructor; apply Z.mod_pos_bound; lia. Qed.

Lemma s16_short v : short (s16 v).
Proof. unfold short, s16. pose proof (Z.mod_pos_bound v (2 ^ 16)). destruct (Z.ltb_spec (v mod 2 ^ 16) (2 ^ 15)); lia. Qed.

(** * Inodes *)

Lemma bytes_dinode i : bytes (dinode_bytes i).
Proof.
  unfold dinode_bytes, bytes. rewrite !Forall_app. split_and!; try apply bytes_half; [apply bytes_word|].
  apply Forall_concat, Forall_fmap, Forall_true. intros v. apply bytes_word.
Qed.

Lemma dinode_at_ok d o : bytes d → dinode_ok (dinode_at d o).
Proof.
  intros Hd. split; cbn [dinode_at d_type d_major d_minor d_nlink d_isize d_addrs]; try apply s16_short; [by apply field_range| |].
  - by rewrite length_fmap, length_seq.
  - apply Forall_fmap, Forall_true. intros j. by apply field_range.
Qed.

Definition inode_table (d : list Z) : list dinode := (λ k, dinode_at d (Z.to_nat sizeof_dinode * k)) <$> seq 0 (Z.to_nat IPB).

Lemma dinode_at_other d o o' w : (o + length w ≤ length d)%nat → (o' + 64 ≤ o ∨ o + length w ≤ o')%nat →
  dinode_at (splice d o w) o' = dinode_at d o'.
Proof.
  intros Ho Hd. assert (Hf : ∀ k n, (k + n ≤ 64)%nat → field (splice d o w) (o' + k) n = field d (o' + k) n).
  { intros k n Hk. unfold field. by rewrite splice_other by lia. }
  unfold dinode_at, word_at. pose proof (Hf 0%nat 2%nat ltac:(lia)) as E0. rewrite Nat.add_0_r in E0. rewrite E0, !Hf by lia. f_equal.
  apply list_fmap_ext. intros i j Hj. apply lookup_seq in Hj as [-> Hj]. rewrite <- Nat.add_assoc. apply Hf. lia.
Qed.


Definition layout_block : list Z := replicate 512 200.
Definition layout_inode : dinode := mk_dinode (-1) 0 0 1 (2 ^ 32 - 1) (replicate 13 7).


(** * Directory entries *)

Record dirent_ok (e : dirent) : Prop := { dk_inum : 0 ≤ de_inum e < 2 ^ 16; dk_name : length (de_name e) = DIRSIZ }.

Lemma dirent_codec e : dirent_ok e → dirent_of (dirent_bytes e) = e.
Proof.
  intros [Hi Hn]. destruct e as [n name]. cbn [de_inum de_name] in *. unfold dirent_of, dirent_bytes, field. cbn [de_inum de_name]. f_equal.
  - change (le (half n) = n). by apply le_half.
  - change (drop 2 (half n ++ name)) with name. by rewrite take_ge by lia.
Qed.

Lemma length_dirent e : dirent_ok e → length (dirent_bytes e) = Z.to_nat sizeof_dirent.
Proof. intros [_ Hn]. unfold dirent_bytes. by rewrite length_app, Hn. Qed.

(** strncpy fills the array of the name. *)
Lemma length_strncpy_l s n : length (strncpy_l s n) = n.
Proof. revert s. induction n as [|n IH]; intros [|c s]; cbn; [done..| |destruct (c =? 0)]; by rewrite ?length_cons, IH. Qed.

(** A name without NULs compares equal to its copy in the array, and to no other name
    that agrees with it on fewer than DIRSIZ characters. *)
Lemma strncmp_strncpy s t n : 0 ∉ s → 0 ∉ t → strncmp_l s (strncpy_l t n) n = 0 ↔ take n s = take n t.
Proof.
  revert s t. induction n as [|n IH]; intros s t Hs Ht; [done|].
  destruct t as [|b t]; destruct s as [|a s]; cbn [strncmp_l strncpy_l head tail default take]; try (cbn; done).
  - cbn. assert (a ≠ 0) by set_solver. destruct (Z.eqb_spec a 0); [done|]. cbn. destruct (Z.eqb_spec a 0); [done|]. split; [lia|done].
  - assert (b ≠ 0) by set_solver. rewrite (proj2 (Z.eqb_neq b 0)) by done. cbn. split; [lia|done].
  - assert (a ≠ 0) by set_solver. assert (b ≠ 0) by set_solver. rewrite (proj2 (Z.eqb_neq b 0)) by done. cbn [head tail default from_option id]. unfold id.
    rewrite (proj2 (Z.eqb_neq a 0)) by done. cbn [negb andb]. destruct (Z.eqb_spec a b) as [->|Hne].
    + cbn. rewrite IH by set_solver. split; [by intros ->|by intros [= ->]].
    + cbn. split; [lia|congruence].
Qed.
