(* ===== verification/FsDir.v ===== *)
(** A directory is a map from names to inode numbers: what dirlookup and dirlink (fs.c)
    do with the entries in the contents of a directory. *)
From Stdlib Require Import ZArith Lia Bool.
From stdpp Require Import base tactics list list_numbers strings sets gmap fin_sets.
From S2P Require Import Prelude Machine Bio Log Blocks Fs FsAlloc FsInode FsWrite FsFile FsLayout.

(** * The entries *)

Definition entry (c : list Z) (k : nat) : dirent := dirent_of (take 16 (drop (16 * k) c)).
Definition entries (c : list Z) : list dirent := entry c <$> seq 0 (length c / 16).

(** The entry has this name. *)
Definition named (name : list Z) (e : dirent) : bool := negb (de_inum e =? 0) && (namecmp name (de_name e) =? 0).
Definition vacant (e : dirent) : bool := de_inum e =? 0.

(** The number a name stands for. *)
Definition dir_get (name : list Z) (es : list dirent) : option Z := k ← find_idx (named name) es; de_inum <$> es !! k.

(** The entry that dirlink takes: the first vacant one, or a new one. *)
Definition dir_slot (es : list dirent) : nat := default (length es) (find_idx vacant es).
Definition dir_put (e : dirent) (es : list dirent) : list dirent :=
  if decide (dir_slot es < length es)%nat then <[dir_slot es := e]> es else es ++ [e].

Lemma length_entries c : length (entries c) = (length c / 16)%nat.
Proof. unfold entries. by rewrite length_fmap, length_seq. Qed.

Lemma entries_lookup c k : (k < length c / 16)%nat → entries c !! k = Some (entry c k).
Proof. intros H. unfold entries. by rewrite list_lookup_fmap, lookup_seq_lt. Qed.

Lemma find_idx_range {A} (f : A → bool) l k : find_idx f l = Some k → ∃ x, l !! k = Some x ∧ f x = true.
Proof.
  revert k. induction l as [|y l IH]; intros k; cbn; [done|]. destruct (f y) eqn:E; [intros [= <-]; eauto|].
  intros (j & Hj & ->)%fmap_Some. destruct (IH j) as (x & Hx & Hf); eauto.
Qed.

Lemma find_idx_none {A} (f : A → bool) l : find_idx f l = None ↔ ∀ x, x ∈ l → f x = false.
Proof.
  induction l as [|y l IH]; cbn; [set_solver|]. destruct (f y) eqn:E.
  - split; [done|]. intros H. rewrite H in E; [done|set_solver].
  - rewrite fmap_None, IH. split; intros H x; [intros [->|Hx]%elem_of_cons; auto|intros Hx; apply H; set_solver].
Qed.

Lemma find_idx_app {A} (f : A → bool) l l' : find_idx f (l ++ l') = match find_idx f l with Some k => Some k | None => (λ k, length l + k)%nat <$> find_idx f l' end.
Proof.
  induction l as [|y l IH]; cbn; [by destruct (find_idx f l')|]. destruct (f y); [done|]. rewrite IH. destruct (find_idx f l); [done|]. by destruct (find_idx f l').
Qed.

Lemma dir_slot_le es : (dir_slot es ≤ length es)%nat.
Proof. unfold dir_slot. destruct (find_idx vacant es) eqn:E; cbn; [|done]. apply find_idx_range in E as (x & Hx%lookup_lt_Some & _). lia. Qed.

Lemma entry_splice c j k e : dirent_ok e → (16 * k ≤ length c)%nat →
  entry (splice c (16 * k) (dirent_bytes e)) j = if decide (j = k) then e else entry c j.
Proof.
  intros He Hk. pose proof (length_dirent e He) as Hl. change (Z.to_nat sizeof_dirent) with 16%nat in Hl. unfold entry. case_decide as E.
  - subst j. rewrite <- Hl at 1. rewrite splice_same by done. by apply dirent_codec.
  - by rewrite splice_other by lia.
Qed.

(** Storing an entry in the contents. *)
Lemma entries_put c e : dirent_ok e → (length c mod 16 = 0)%nat →
  entries (splice c (16 * dir_slot (entries c)) (dirent_bytes e)) = dir_put e (entries c).
Proof.
  intros He Hm. pose proof (length_dirent e He) as Hl. change (Z.to_nat sizeof_dirent) with 16%nat in Hl.
  pose proof (dir_slot_le (entries c)) as Hs. unfold dir_put. set (k := dir_slot (entries c)) in *. rewrite length_entries in *.
  assert (Hc : length c = (16 * (length c / 16))%nat) by (pose proof (Nat.div_mod_eq (length c) 16); lia).
  set (n := (length c / 16)%nat) in *. apply list_eq. intros j.
  assert (Hlen : (length (splice c (16 * k) (dirent_bytes e)) / 16)%nat = if decide (k < n)%nat then n else S n).
  { case_decide; [rewrite length_splice by lia; done|]. unfold splice. rewrite !length_app, length_take, length_drop.
    replace (_ + _)%nat with (16 * S n)%nat by lia. rewrite Nat.mul_comm. by apply Nat.div_mul. }
  destruct (decide (j < if decide (k < n)%nat then n else S n)%nat) as [Hj|Hj].
  - rewrite entries_lookup by by rewrite Hlen. rewrite entry_splice by (done || lia). clear Hlen. destruct (decide (k < n)%nat) as [Hk|Hk].
    + rewrite list_lookup_insert. case_decide as E.
      * subst j. by rewrite decide_True by (split; [done|by rewrite length_entries]).
      * rewrite decide_False by naive_solver. by rewrite entries_lookup.
    + case_decide as E; [subst j; rewrite lookup_app_r by (rewrite length_entries; fold n; lia)|].
      * rewrite length_entries. fold n. by replace (k - n)%nat with 0%nat by lia.
      * rewrite lookup_app_l by (rewrite length_entries; fold n; lia). symmetry. apply entries_lookup. fold n. lia.
  - rewrite lookup_ge_None_2 by (rewrite length_entries, Hlen; lia). symmetry. apply lookup_ge_None_2.
    destruct (decide (k < n)%nat); rewrite ?length_insert, ?length_app, length_entries; fold n; cbn [length]; lia.
Qed.

(** ** Looking up names *)

(** Only the first DIRSIZ characters of a name count. *)
Lemma strncmp_take s t n : strncmp_l (take n s) t n = strncmp_l s t n.
Proof.
  revert s t. induction n as [|n IH]; intros s t; [done|]. destruct s as [|a s]; [done|]. cbn [take strncmp_l head tail]. by rewrite IH.
Qed.

Lemma named_take n n' e : take DIRSIZ n = take DIRSIZ n' → named n e = named n' e.
Proof. intros H. unfold named, namecmp. by rewrite <- (strncmp_take n), H, strncmp_take. Qed.

Lemma named_new n n' inum : 0 ∉ n → 0 ∉ n' → inum ≠ 0 →
  named n' (mk_dirent inum (strncpy_l n DIRSIZ)) = bool_decide (take DIRSIZ n' = take DIRSIZ n).
Proof.
  intros Hn Hn' Hi. unfold named, namecmp. cbn [de_inum de_name]. rewrite (proj2 (Z.eqb_neq _ 0)) by done. cbn [negb andb].
  apply eq_bool_prop_intro. rewrite Is_true_true, Z.eqb_eq, strncmp_strncpy by done. by rewrite bool_decide_spec.
Qed.

Lemma dir_get_find n es k x : find_idx (named n) es = Some k → es !! k = Some x → dir_get n es = Some (de_inum x).
Proof. intros H Hx. unfold dir_get. by rewrite H; cbn; rewrite Hx. Qed.

Lemma find_idx_insert {A} (f : A → bool) l k x y : l !! k = Some x → f x = false → f y = false → find_idx f (<[k := y]> l) = find_idx f l.
Proof.
  revert k. induction l as [|z l IH]; intros [|k]; cbn; try done.
  - intros [= ->] -> ->. done.
  - intros Hk Hx Hy. destruct (f z); [done|]. by rewrite IH.
Qed.

Lemma find_idx_new {A} (f : A → bool) l k y : (k < length l)%nat → find_idx f l = None → f y = true → find_idx f (<[k := y]> l) = Some k.
Proof.
  revert k. induction l as [|z l IH]; intros [|k]; cbn; try lia.
  - intros _ _ ->. done.
  - intros Hk. destruct (f z); [done|]. intros H%fmap_None Hy. by rewrite IH by (done || lia).
Qed.

Lemma slot_vacant es : (dir_slot es < length es)%nat → ∃ x, es !! dir_slot es = Some x ∧ de_inum x = 0.
Proof.
  unfold dir_slot. destruct (find_idx vacant es) as [k|] eqn:E; cbn; [|lia]. intros _.
  apply find_idx_range in E as (x & Hx & Hv). exists x. split; [done|]. by apply Z.eqb_eq.
Qed.

(** Adding a name that is not there adds just that name. *)
Lemma dir_get_put es n inum n' : dir_get n es = None → 0 ∉ n → 0 ∉ n' → inum ≠ 0 →
  dir_get n' (dir_put (mk_dirent inum (strncpy_l n DIRSIZ)) es) =
    if decide (take DIRSIZ n' = take DIRSIZ n) then Some inum else dir_get n' es.
Proof.
  intros Hg Hn Hn' Hi. set (e := mk_dirent inum (strncpy_l n DIRSIZ)). pose proof (named_new n n' inum Hn Hn' Hi) as Hne. fold e in Hne.
  assert (Hnone : find_idx (named n) es = None).
  { destruct (find_idx (named n) es) as [k|] eqn:E; [|done]. destruct (find_idx_range _ _ _ E) as (x & Hx & _).
    by rewrite (dir_get_find _ _ _ _ E Hx) in Hg. }
  unfold dir_put. destruct (decide (dir_slot es < length es)%nat) as [Hk|Hk].
  - destruct (slot_vacant es Hk) as (x & Hx & Hv). case_decide as Ht.
    + rewrite bool_decide_true in Hne by done. rewrite (dir_get_find n' _ (dir_slot es) e); [done| |by apply list_lookup_insert_eq].
      apply find_idx_new; [done| |done]. apply find_idx_none. intros y Hy. rewrite (named_take n' n) by done. by apply (find_idx_none (named n) es).
    + rewrite bool_decide_false in Hne by done. unfold dir_get.
      rewrite (find_idx_insert _ _ _ x) by (done || unfold named; by rewrite Hv). destruct (find_idx (named n') es) as [j|] eqn:Ej; [|done]. cbn.
      rewrite list_lookup_insert_ne; [done|]. intros <-. apply find_idx_range in Ej as (y & Hy & Hf). rewrite Hx in Hy. injection Hy as <-.
      unfold named in Hf. by rewrite Hv in Hf.
  - unfold dir_get. rewrite find_idx_app. cbn [find_idx]. rewrite Hne. case_decide as Ht.
    + rewrite bool_decide_true by done. replace (find_idx (named n') es) with (@None nat).
      2: { symmetry. apply find_idx_none. intros y Hy. rewrite (named_take n' n) by done. by apply (find_idx_none (named n) es). }
      cbn. by rewrite Nat.add_0_r, lookup_app_r, Nat.sub_diag.
    + rewrite bool_decide_false by done. destruct (find_idx (named n') es) as [j|] eqn:Ej; [|done]. cbn.
      apply find_idx_range in Ej as (y & Hy & _). rewrite lookup_app_l; [done|]. by eapply lookup_lt_Some.
Qed.

(** * dirlookup and dirlink *)

Section dir.
  Context {B : Type} {BO : BlockOps B} {BL : BlockLaws B} {DS : DevSw B}.
  Implicit Types s : fss B.

(** Inode [dp] is a directory that can be read. *)
Record dir_ok (dp : nat) s (ino : inode) : Prop := {
  do_read : rstate dp s ino;
  do_type : i_type ino = T_DIR;
  do_size : i_size ino mod sizeof_dirent = 0 }.

Definition dir_entries s (ino : inode) : list dirent := entries (content (blocks s) ino).

Lemma dir_ok_same dp s ino s' : dir_ok dp s ino → same_view s s' → dir_ok dp s' ino ∧ dir_entries s' ino = dir_entries s ino ∧ icache s' = icache s.
Proof.
  intros [R T Z] (x & -> & Ox & Ax). split; [|unfold dir_entries; by rewrite (blocks_set s x Ax)]. split; [|done|done]. by apply rstate_set.
Qed.

Lemma same_view_refl dp s ino : dir_ok dp s ino → same_view s s.
Proof. intros [R _ _]. exists (blk s). split_and!; [by destruct s|apply R|done]. Qed.

Lemma dir_len dp s ino : dir_ok dp s ino → i_size ino = 16 * Z.of_nat (length (dir_entries s ino)) ∧ 0 ≤ i_size ino ≤ 71680.
Proof.
  intros [R T Hz]. pose proof (fo_size _ _ (rd_file _ _ _ R)) as Hs. change (MAXFILE * BSIZE) with 71680 in Hs. split; [|done].
  unfold dir_entries. rewrite length_entries, content_len. unfold sizeof_dirent in Hz.
  rewrite Nat2Z.inj_div, Z2Nat.id by lia. change (Z.of_nat 16) with 16. Z.to_euclidean_division_equations. lia.
Qed.

(** Reading entry [k]. *)
Lemma read_entry dp s ino k e : dir_ok dp s ino → dir_entries s ino !! k = Some e →
  ∃ l s', readi dp (16 * Z.of_nat k) sizeof_dirent s = Ok ((sizeof_dirent, l), s') ∧ dirent_of l = e ∧ same_view s s'.
Proof.
  intros D He. destruct (dir_len _ _ _ D) as [Hl Hm]. pose proof (lookup_lt_Some _ _ _ He) as Hk. pose proof D as [R T Hz].
  unfold sizeof_dirent. destruct (readi_run dp s ino (16 * Z.of_nat k) 16 R) as (rl & s' & E & -> & V); [by rewrite T|lia|lia|lia|].
  eexists _, s'. split; [|split; [|done]].
  - rewrite E. do 3 f_equal. rewrite length_take, length_drop, content_len. lia.
  - unfold dir_entries in He. rewrite entries_lookup in He by by rewrite <- length_entries. injection He as <-. unfold entry. by replace (Z.to_nat (16 * Z.of_nat k)) with (16 * k)%nat by lia.
Qed.

Lemma dirlookup_loop_run dp name ino fuel : ∀ k s, dir_ok dp s ino → (k ≤ length (dir_entries s ino) ≤ k + fuel)%nat →
  ∃ s1, same_view s s1 ∧ dirlookup_loop fuel dp name (16 * Z.of_nat k) s =
    match find_idx (named name) (drop k (dir_entries s ino)) with
    | None => Ok (None, s1)
    | Some j => (ip ← iget 1 (de_inum (default (mk_dirent 0 []) (dir_entries s ino !! (k + j)%nat))); mret (Some (ip, 16 * Z.of_nat (k + j)))) s1
    end.
Proof.
  induction fuel as [|fuel IH]; intros k s D Hk; destruct (dir_len _ _ _ D) as [Hl Hm]; cbn [dirlookup_loop];
    rewrite (bind_eq _ _ _ _ _ (getino_eq s dp ino (rd_ino _ _ _ (do_read _ _ _ D)))).
  { rewrite (proj2 (Z.ltb_ge _ _)) by lia. rewrite drop_ge by lia. exists s. split; [by eapply same_view_refl|done]. }
  destruct (dir_entries s ino !! k) as [e|] eqn:Ee.
  2: { apply lookup_ge_None in Ee. rewrite (proj2 (Z.ltb_ge _ _)) by lia. rewrite drop_ge by lia. exists s. split; [by eapply same_view_refl|done]. }
  pose proof (lookup_lt_Some _ _ _ Ee) as Hlt. rewrite (proj2 (Z.ltb_lt _ _)) by lia.
  destruct (read_entry _ _ _ _ _ D Ee) as (l & s1 & E1 & El & V). rewrite (bind_eq _ _ _ _ _ E1), El, Z.eqb_refl. cbn [negb].
  destruct (dir_ok_same _ _ _ _ D V) as (D1 & En1 & _). rewrite (drop_S _ e) by done. cbn [find_idx]. unfold named at 1.
  replace (u32 (16 * Z.of_nat k + sizeof_dirent)) with (16 * Z.of_nat (S k)) by (unfold sizeof_dirent; rewrite u32_small; lia).
  assert (Hnext : ∃ s2, same_view s s2 ∧ dirlookup_loop fuel dp name (16 * Z.of_nat (S k)) s1 =
    match S <$> find_idx (named name) (drop (S k) (dir_entries s ino)) with
    | None => Ok (None, s2)
    | Some j => (ip ← iget 1 (de_inum (default (mk_dirent 0 []) (dir_entries s ino !! (k + j)%nat))); mret (Some (ip, 16 * Z.of_nat (k + j)))) s2
    end).
  { destruct (IH (S k) s1 D1) as (s2 & V2 & E2); [rewrite En1; lia|]. exists s2. split; [by eapply same_view_trans|].
    rewrite E2, En1. destruct (find_idx (named name) (drop (S k) (dir_entries s ino))) as [j|]; cbn [fmap option_fmap option_map]; [|done]. by replace (S k + j)%nat with (k + S j)%nat by lia. }
  destruct (de_inum e =? 0); cbn [negb andb]; [exact Hnext|].
  destruct (namecmp name (de_name e) =? 0); [|exact Hnext]. exists s1. split; [done|].
  rewrite (fo_dev _ _ (rd_file _ _ _ (do_read _ _ _ D))), Nat.add_0_r, Ee. done.
Qed.

(** ** iget *)

(** There is an inode in the cache that is not in use. *)
Definition has_room (l : list inode) : Prop := ∃ i x, l !! i = Some x ∧ i_ref x = 0.

Lemma iget_scan_spec l dev inum : ∀ n o,
  match iget_scan l n dev inum o with
  | inl i => ∃ x, (n ≤ i)%nat ∧ l !! (i - n)%nat = Some x ∧ i_dev x = dev ∧ i_inum x = inum
  | inr (Some e) => o = Some e ∨ ∃ x, (n ≤ e)%nat ∧ l !! (e - n)%nat = Some x
  | inr None => o = None ∧ ¬ has_room l
  end.
Proof.
  induction l as [|y l IH]; intros n o; cbn [iget_scan].
  { destruct o; [by left|]. split; [done|]. intros (i & x & H & _). by rewrite lookup_nil in H. }
  destruct ((0 <? i_ref y) && (i_dev y =? dev) && (i_inum y =? inum)) eqn:E.
  { apply andb_true_iff in E as [[_ E1%Z.eqb_eq]%andb_true_iff E2%Z.eqb_eq]. exists y. by rewrite Nat.sub_diag. }
  set (o' := match o with Some e => Some e | None => if i_ref y =? 0 then Some n else None end).
  specialize (IH (S n) o'). destruct (iget_scan l (S n) dev inum o') as [i|[e|]].
  - destruct IH as (x & Hn & Hx & Hd). exists x. split; [lia|]. by replace (i - n)%nat with (S (i - S n)) by lia.
  - destruct IH as [E'|(x & Hn & Hx)].
    + unfold o' in E'. destruct o; [by left|]. destruct (i_ref y =? 0); [|done]. injection E' as <-. right. exists y. by rewrite Nat.sub_diag.
    + right. exists x. split; [lia|]. by replace (e - n)%nat with (S (e - S n)) by lia.
  - destruct IH as [E' Hr]. unfold o' in E'. destruct o; [done|]. destruct (Z.eqb_spec (i_ref y) 0) as [|Hne]; [done|]. split; [done|].
    intros ([|i] & x & Hx & H0); [injection Hx as ->; done|]. apply Hr. by exists i, x.
Qed.

Lemma iget_run s dev inum : has_room (icache s) →
  runs (iget dev inum) s (λ i s', ∃ x, icache s' !! i = Some x ∧ i_dev x = dev ∧ i_inum x = inum).
Proof.
  intros Hr. unfold iget. mstep. apply runs_get. pose proof (iget_scan_spec (icache s) dev inum 0 None) as H.
  assert (Hm : ∀ i x f, icache s !! i = Some x → i_dev (f x) = dev → i_inum (f x) = inum →
    runs (modino i f;; mret i) s (λ i s', ∃ x, icache s' !! i = Some x ∧ i_dev x = dev ∧ i_inum x = inum)).
  { intros i x f Hx Hd Hi. mstep. exists tt. eexists. split; [by apply modino_eq|]. apply runs_ret. exists (f x). cbn.
    by rewrite list_lookup_insert_eq by by eapply lookup_lt_Some. }
  destruct (iget_scan _ _ _ _ _) as [i|[e|]].
  - destruct H as (x & _ & Hx & Hd & Hi). rewrite Nat.sub_0_r in Hx. by apply (Hm i x).
  - destruct H as [|(x & _ & Hx)]; [done|]. rewrite Nat.sub_0_r in Hx. by apply (Hm e x).
  - by destruct H.
Qed.

(** ** dirlookup *)

(** dirlookup finds what the directory says. *)
Definition found (r : option Z) (o : option (nat * Z)) s' : Prop :=
  match r with
  | None => o = None
  | Some inum => ∃ ip off x, o = Some (ip, off) ∧ icache s' !! ip = Some x ∧ i_dev x = 1 ∧ i_inum x = inum
  end.

Lemma dirlookup_eq dp name s ino : dir_ok dp s ino → ∃ s1, same_view s s1 ∧ dirlookup dp name s =
    match find_idx (named name) (dir_entries s ino) with
    | None => Ok (None, s1)
    | Some j => (ip ← iget 1 (de_inum (default (mk_dirent 0 []) (dir_entries s ino !! j))); mret (Some (ip, 16 * Z.of_nat j))) s1
    end.
Proof.
  intros D. destruct (dir_len _ _ _ D) as [Hl Hm].
  destruct (dirlookup_loop_run dp name ino (Z.to_nat (i_size ino / sizeof_dirent + 1)) 0 s D) as (s1 & V & E).
  { unfold sizeof_dirent. split; [lia|]. Z.to_euclidean_division_equations. lia. }
  exists s1. split; [done|]. unfold dirlookup. rewrite (bind_eq _ _ _ _ _ (getino_eq s dp ino (rd_ino _ _ _ (do_read _ _ _ D)))).
  rewrite (do_type _ _ _ D). change (T_DIR =? T_DIR) with true. cbn [negb]. rewrite drop_0 in E. exact E.
Qed.

Lemma dirlookup_run dp name s ino : dir_ok dp s ino → has_room (icache s) →
  runs (dirlookup dp name) s (λ o s', found (dir_get name (dir_entries s ino)) o s').
Proof.
  intros D Hr. destruct (dirlookup_eq dp name s ino D) as (s1 & V & E). destruct (dir_ok_same _ _ _ _ D V) as (_ & _ & Hi).
  destruct (find_idx (named name) (dir_entries s ino)) as [j|] eqn:Ej.
  - destruct (find_idx_range _ _ _ Ej) as (e & He & _). rewrite (dir_get_find _ _ _ _ Ej He). rewrite He in E. cbn in E. rewrite <- Hi in Hr.
    destruct (iget_run s1 1 (de_inum e) Hr) as (ip & s2 & E2 & x & Hx & Hd & Hn). exists (Some (ip, 16 * Z.of_nat j)), s2.
    split; [by rewrite E, (bind_eq _ _ _ _ _ E2)|]. cbn. eauto 10.
  - exists None, s1. split; [done|]. unfold dir_get. by rewrite Ej.
Qed.

(** ** dirlink *)

Lemma dirlink_loop_run dp ino fuel : ∀ k s, dir_ok dp s ino → (k ≤ length (dir_entries s ino) ≤ k + fuel)%nat →
  runs (dirlink_loop fuel dp (16 * Z.of_nat k)) s (λ off s', same_view s s' ∧
    off = 16 * Z.of_nat (k + dir_slot (drop k (dir_entries s ino)))).
Proof.
  induction fuel as [|fuel IH]; intros k s D Hk; destruct (dir_len _ _ _ D) as [Hl Hm]; cbn [dirlink_loop]; mstep;
    (exists ino, s; split; [apply getino_eq, D|]).
  { rewrite (proj2 (Z.ltb_ge _ _)) by lia. apply runs_ret. rewrite drop_ge by lia. split; [by eapply same_view_refl|]. cbn. lia. }
  destruct (dir_entries s ino !! k) as [e|] eqn:Ee.
  2: { apply lookup_ge_None in Ee. rewrite (proj2 (Z.ltb_ge _ _)) by lia. apply runs_ret. rewrite drop_ge by lia. split; [by eapply same_view_refl|]. cbn. lia. }
  pose proof (lookup_lt_Some _ _ _ Ee) as Hlt. rewrite (proj2 (Z.ltb_lt _ _)) by lia.
  destruct (read_entry _ _ _ _ _ D Ee) as (l & s1 & E1 & El & V). mstep. exists (sizeof_dirent, l), s1. split; [done|]. rewrite Z.eqb_refl, El. cbn [negb].
  destruct (dir_ok_same _ _ _ _ D V) as (D1 & En1 & _). rewrite (drop_S _ e) by done. unfold dir_slot. cbn [find_idx length]. unfold vacant at 1.
  destruct (de_inum e =? 0); [apply runs_ret; split; [done|]; cbn; lia|].
  replace (16 * Z.of_nat k + sizeof_dirent) with (16 * Z.of_nat (S k)) by (unfold sizeof_dirent; lia).
  eapply runs_mono; [apply (IH (S k) s1 D1); rewrite En1; lia|]. intros off s2 [V2 ->]. split; [by eapply same_view_trans|]. rewrite En1.
  unfold dir_slot. destruct (find_idx vacant (drop (S k) (dir_entries s ino))); cbn; lia.
Qed.

Lemma can_write_same dp s ino off n s' : can_write dp s ino off n → same_view s s' → can_write dp s' ino off n.
Proof.
  intros [C1 C2 C3 C4 C5 C6 C7 C8 C9 C10 C11 C12] (x & -> & Ox & Ax). split; rewrite ?(fv_set s x Ax); try done.
  - by apply base_same.
  - by apply file_ok_set.
  - unfold missing, nfree in *. by rewrite (blocks_set s x Ax), (used_set s x Ax).
Qed.

(** The state and the directory after an entry was written. *)
Lemma put_dir dp s ino off w s1 ino1 :
  dir_ok dp s ino → off mod 16 = 0 → length w = 16%nat →
  fstate dp (touched off (Z.of_nat (length w))) (write_set s ino) 0 s1 ino1 → written dp s ino off w s1 ino1 → dir_ok dp s1 ino1.
Proof.
  intros [R T Hz] Ho Hw F W. destruct (wn_ino _ _ _ _ _ _ _ W) as (l & z & El). split.
  - split; try apply F. apply (can_log_room 2). by eapply state_can_log.
  - by rewrite El.
  - rewrite (wn_size _ _ _ _ _ _ _ W), Hw. unfold sizeof_dirent in *. Z.to_euclidean_division_equations. lia.
Qed.

End dir.
