(* ===== verification/FsExamples.v ===== *)
(** Instances of the theorems on the file system: a disk of 300 blocks with one file,
    under the buffer cache and the log. *)
From Stdlib Require Import ZArith Lia Bool.
From stdpp Require Import base tactics list list_numbers strings sets gmap fin_sets.
From S2P Require Import Prelude Machine Bio Cache Log LogCrash Blocks LogBlocks Fs FsAlloc FsInode FsWrite FsFile FsLayout FsDir.

(** * The disk *)

Definition fs_sb : superblock := mk_sb 300 266 7 30 2 32 33.
Definition fs_sb_block : list Z :=
  word 300 ++ word 266 ++ word 7 ++ word 30 ++ word 2 ++ word 32 ++ word 33 ++ replicate 484 0.
(** Inode 2 is a file of five bytes in block 34. *)
Definition fs_dinode : dinode := mk_dinode T_FILE 0 0 1 5 (34 :: replicate 12 0).
Definition fs_inodes : list Z := replicate 128 0 ++ dinode_bytes fs_dinode ++ replicate 320 0.
Definition fs_map : list Z := [255; 255; 255; 255; 7] ++ replicate 507 0.
Definition fs_data : list Z := [104; 101; 108; 108; 111] ++ replicate 507 0.
Definition fs_block (n : Z) : list Z :=
  if n =? 1 then fs_sb_block else if n =? 32 then fs_inodes else if n =? 33 then fs_map else
  if n =? 34 then fs_data else replicate 512 0.
Definition fs_disk : disk := mk_disk fs_block [] 300.

(** * The kernel's memory: an empty cache, and a call that has started *)

Definition idle_buf (i : nat) : buf :=
  mk_buf 0 0 0 initsleeplock 0 (if (i =? 0)%nat then HEAD else Nat.pred i) (if (i =? HEAD)%nat then 0%nat else S i) (replicate 512 0).
Definition boot_lst (d : disk) (n : Z) : lst := mk_lst (mk_bst (idle_buf <$> seq 0 31) d 1) (mk_log 2 30 n 0 1 0 (replicate 30 0)).
Definition idle_lst : Z → lst := boot_lst fs_disk.
Definition fs_inode : inode := mk_inode 1 2 1 (mk_sleep 1 1) 1 T_FILE 0 0 1 5 (34 :: replicate 12 0).
Definition fs_state (n : Z) : fss lst := mk_fss (idle_lst n) fs_sb [fs_inode] 1.

Section boot.
  Context (d : disk) (n : Z) (Hd : ∀ m, length (d_block d m) = Z.to_nat BSIZE).

Lemma idle_buf_lookup i b : bufs (lb (boot_lst d n)) !! i = Some b → b = idle_buf i ∧ (i < 31)%nat.
Proof.
  intros H. cbn [bufs lb boot_lst] in H. rewrite list_lookup_fmap in H. apply fmap_Some in H as (j & Hj & ->).
  apply lookup_seq in Hj as [-> ?]. done.
Qed.

Lemma idle_cell i c : cells (lb (boot_lst d n)) !! i = Some c → c = strip (idle_buf i).
Proof. intros (b & [-> _]%idle_buf_lookup & -> & Hi)%cells_lookup. done. Qed.

Lemma boot_binv : binv (lb (boot_lst d n)).
Proof.
  split.
  - exists (seq 0 30), (λ i, if (i =? HEAD)%nat then 0%nat else S i), (λ i, if (i =? 0)%nat then HEAD else Nat.pred i). split_and!.
    + split; [done|]. intros i b [-> _]%idle_buf_lookup. done.
    + vm_compute. tauto.
    + done.
  - split; [done| | |exact Hd].
    + intros i c ->%idle_cell. split; try done; by left.
    + intros i j c c' ->%idle_cell ->%idle_cell. done.
Qed.

Lemma boot_held : held_map (lb (boot_lst d n)) = ∅.
Proof.
  apply map_empty. intros i. apply eq_None_not_Some. intros [[m v] H]. apply held_lookup in H as (c & ->%idle_cell & Hh & _); [done|apply boot_binv].
Qed.

Lemma boot_clean m : ¬ dirty (lb (boot_lst d n)) m.
Proof. intros (v & i & c & ->%idle_cell & Hf & _). done. Qed.

Lemma boot_ok : 0 ≤ n → 32 ≤ d_size d → log_ok (boot_lst d n).
Proof.
  intros Hn Hs. exists []. split; try done.
  - apply boot_binv.
  - intros m. rewrite elem_of_nil. split; [|done]. apply boot_clean.
  - intros i m v (c & ->%idle_cell & Hh & _). done.
  - constructor.
  - cbn. lia.
Qed.
End boot.

Lemma fs_disk_len m : length (d_block fs_disk m) = Z.to_nat BSIZE.
Proof. unfold d_block. cbn. unfold fs_block. by repeat destruct (_ =? _). Qed.

Lemma idle_ok n : 0 ≤ n → log_ok (idle_lst n).
Proof. intros Hn. apply boot_ok; [apply fs_disk_len|done|done]. Qed.

Lemma idle_held n : held_map (lb (idle_lst n)) = ∅.
Proof. apply boot_held, fs_disk_len. Qed.

(** * The file system *)

Lemma forallb_seqZ (f : Z → bool) n : forallb f (seqZ 0 n) = true → ∀ k, 0 ≤ k < n → f k = true.
Proof. intros H k Hk. rewrite forallb_forall in H. apply H, list_elem_of_In, elem_of_seqZ. lia. Qed.

Lemma fs_layout : layout fs_sb (mk_geo 300 2).
Proof. split; vm_compute; intuition discriminate. Qed.

Lemma fs_base_ok n : 0 ≤ n → fs_base (fs_state n).
Proof.
  intros Hn. split.
  - by apply idle_ok.
  - apply fs_layout.
  - vm_compute. done.
  - change (data_start (fsb (fs_state n))) with 34. apply forallb_seqZ. vm_compute. done.
  - intros i m v H. change (v_held (fv (fs_state n))) with (held_map (lb (idle_lst n))) in H. by rewrite idle_held in H.
Qed.

Lemma fs_slots n : ∀ k, slot_index k → slot (blocks (fs_state n)) fs_inode k = if k =? 0 then 34 else 0.
Proof.
  intros k Hk. apply Z.eqb_eq.
  apply (forallb_seqZ (λ k, slot (blocks (fs_state n)) fs_inode k =? if k =? 0 then 34 else 0) 141); [by vm_compute|].
  unfold slot_index in Hk. change MAXFILE with 140 in Hk. lia.
Qed.

Lemma fs_file_ok n : file_ok (fs_state n) fs_inode.
Proof.
  split; try done.
  - intros k Hk. rewrite (fs_slots n k Hk). case_match; [|done]. intros _. split; [vm_compute; intuition discriminate|by vm_compute].
  - intros k k' Hk Hk'. rewrite (fs_slots n k Hk), (fs_slots n k' Hk'). repeat case_match; lia.
  - intros k H1 H2. change (k * 512 < 5) in H2. assert (k = 0) as -> by lia. by vm_compute.
Qed.

(** No device is installed. *)
#[local] Instance no_devices : DevSw lst := { dev_read _ := None; dev_write _ := None }.

Definition fs_bytes : list Z := replicate 1100 42.

Lemma fs_can_write : can_write 0 (fs_state 1) fs_inode 3 (Z.of_nat (length fs_bytes)).
Proof.
  change (Z.of_nat (length fs_bytes)) with 1100. split.
  - by apply fs_base_ok.
  - done.
  - apply fs_file_ok.
  - done.
  - done.
  - done.
  - done.
  - done.
  - by vm_compute.
  - done.
  - vm_compute. lia.
  - vm_compute. lia.
Qed.

(** Writing 1100 bytes at offset 3 of the five bytes of the file. *)
Lemma writei_readi_witness :
  runs (r ← writei 0 fs_bytes 3 1100; x ← readi 0 3 1100; mret (r, x)) (fs_state 1) (λ '(r, x) s',
    r = 1100 ∧ x = (1100, fs_bytes) ∧
    ∃ ino', icache s' = [ino'] ∧ file_ok s' ino' ∧
      content (blocks s') ino' = [104; 101; 108] ++ fs_bytes ∧ i_size ino' = 1103 ∧
      synced s' ino' ∧ others_kept (fs_state 1) s' fs_inode).
Proof.
  eapply runs_mono; [apply (writei_readi 0 (fs_state 1) fs_inode 3 fs_bytes), fs_can_write|].
  intros [r x] s' (-> & -> & ino' & E & Hf & Hc & Hz & Hy & Ho). split_and!; [done|done|]. exists ino'.
  split_and!; [done|done| |done| |done].
  - rewrite Hc. by vm_compute.
  - apply Hy. by vm_compute.
Defined.

Lemma writei_reservation_witness :
  runs (writei 0 fs_bytes 3 1100) (fs_state 1) (λ _ s', Z.of_nat (size (v_logged (fv s'))) ≤ 7).
Proof.
  eapply runs_mono; [apply (writei_reservation 0 (fs_state 1) fs_inode 3 fs_bytes); [apply fs_can_write|done|done]|].
  intros r s' [H _]. exact H.
Defined.

(** * A directory

    Block 34 as the contents of a directory: an entry with the name "llo" and a vacant
    one. *)
Definition dir_inode : inode := mk_inode 1 2 1 (mk_sleep 1 1) 1 T_DIR 0 0 1 32 (34 :: replicate 12 0).
Definition spare_inode : inode := mk_inode 0 0 0 initsleeplock 0 0 0 0 0 0 [].
Definition dir_state : fss lst := mk_fss (idle_lst 1) fs_sb [dir_inode; spare_inode] 1.

Lemma dir_base : fs_base dir_state.
Proof. apply (base_icache (fs_state 1)), fs_base_ok. lia. Qed.

Lemma dir_file_ok : file_ok dir_state dir_inode.
Proof.
  destruct (fs_file_ok 1) as [F1 F2 F3 F4 F5 F6 F7]. split; try done.
  intros k H1 H2. change (k * 512 < 32) in H2. assert (k = 0) as -> by lia. by vm_compute.
Qed.

Lemma dir_is_ok : dir_ok 0 dir_state dir_inode.
Proof.
  split; [|done|done]. split; [apply dir_base|done|apply dir_file_ok|by vm_compute|]. vm_compute. lia.
Qed.

Lemma dir_can_write : can_write 0 dir_state dir_inode (16 * Z.of_nat (dir_slot (dir_entries dir_state dir_inode))) sizeof_dirent.
Proof.
  replace (dir_slot (dir_entries dir_state dir_inode)) with 1%nat by (vm_compute; reflexivity). split.
  - apply dir_base.
  - done.
  - apply dir_file_ok.
  - done.
  - done.
  - done.
  - done.
  - done.
  - by vm_compute.
  - done.
  - vm_compute. lia.
  - vm_compute. lia.
Qed.

