(* ===== verification/Ends.v ===== *)
(** Path lookup ends on every disk. The loops of the file system (fs.c) run on numbers
    that come from the disk: the size of a directory, the number of inodes, the size of
    the disk. It is proved that none of the loops that a path lookup goes through runs
    for ever, whatever is on the disk: the fuel of the model never runs out, so every
    lookup returns, panics, faults or waits for a lock. *)
From Stdlib Require Import ZArith Lia Bool.
From stdpp Require Import base tactics list list_numbers strings sets gmap.
From S2P Require Import Prelude Machine Bio Cache Log Blocks LogBlocks Fs.

(** * The cache

    The list of buffers is a ring, and its head is never locked. *)
Record bring (s : bst) : Prop := {
  br_ring : ∃ l, ring s l;
  br_head : ∀ b, bufs s !! HEAD = Some b → sl_locked (b_lock b) = 0 }.

Lemma ring_change s l i b b' : ring s l → bufs s !! i = Some b → b_next b' = b_next b → b_prev b' = b_prev b →
  ring (set_bufs (<[i := b']> (bufs s)) s) l.
Proof.
  intros (nx & pv & Hp & Hc) Hb Hn Hv. exists nx, pv. split; [|done]. split; [cbn; rewrite length_insert; apply Hp|].
  cbn. intros j c. rewrite list_lookup_insert. case_decide as E; [|by apply Hp].
  destruct E as [-> _]. intros [= <-]. rewrite Hn, Hv. by apply Hp.
Qed.

Lemma bring_change s i b b' : bring s → bufs s !! i = Some b → b_next b' = b_next b → b_prev b' = b_prev b →
  (i = HEAD → sl_locked (b_lock b') = 0) → bring (set_bufs (<[i := b']> (bufs s)) s).
Proof.
  intros [[l Hr] Hh] Hb Hn Hv Hl. split; [exists l; by eapply ring_change|]. cbn. intros c. rewrite list_lookup_insert.
  case_decide as E; [|by apply Hh]. destruct E as [-> _]. intros [= <-]. by apply Hl.
Qed.

(** A change of a buffer that leaves its links and its lock. *)
Definition inner (f : buf → buf) : Prop := ∀ b, b_next (f b) = b_next b ∧ b_prev (f b) = b_prev b ∧ b_lock (f b) = b_lock b.

Lemma safe_getbuf i : safe bring (getbuf i).
Proof. unfold getbuf. safe_steps. Qed.

Lemma safe_modbuf i f : inner f → safe bring (modbuf i f).
Proof.
  intros Hf s Hs. unfold modbuf. munfold. unfold ends. destruct (bufs s !! i) as [b|] eqn:Hb; cbn; [|done].
  destruct (Hf b) as (Hn & Hp & Hl). eapply bring_change; [done..|]. intros ->. rewrite Hl. by apply Hs.
Qed.

Lemma safe_holding i : safe bring (on_lock i holdingsleep).
Proof.
  intros s Hs. unfold ends, on_lock. destruct (bufs s !! i) as [b|] eqn:Hb; cbn; [|done].
  eapply bring_change; [done..|]. cbn. intros ->. by apply Hs.
Qed.

Lemma safe_release i : safe bring (on_lock i releasesleep).
Proof.
  intros s Hs. unfold ends, on_lock. destruct (bufs s !! i) as [b|] eqn:Hb; cbn; [|done]. by eapply bring_change.
Qed.

Lemma ends_acquire i pid s : bring s → i ≠ HEAD → ends (on_lock i (acquiresleep pid)) s (λ _ s', bring s').
Proof.
  intros Hs Hi. unfold ends, on_lock. destruct (bufs s !! i) as [b|] eqn:Hb; cbn; [|done].
  unfold zoom, acquiresleep. munfold. destruct (negb _); cbn; [done|]. by eapply bring_change.
Qed.
#[export] Hint Resolve safe_getbuf safe_holding safe_release : ends.
#[export] Hint Extern 2 (safe bring (modbuf _ _)) => (apply safe_modbuf; by intros []) : ends.

Lemma bring_dsk s d : bring s → bring (set_dsk d s).
Proof. intros [(l & nx & pv & [Hl Hg] & Hc) Hh]. split; [|done]. exists l, nx, pv. done. Qed.

Lemma safe_iderw i : safe bring (iderw i).
Proof.
  unfold iderw. safe_steps.
  apply safe_modify. intros s Hs. by apply bring_dsk.
Qed.
#[export] Hint Resolve safe_iderw : ends.

(** The two searches of bget go once around the ring. *)
Lemma find_block_ends dev n s l0 l : ring s (l0 ++ l) → ∀ fuel i,
  head (l ++ [HEAD]) = Some i → (length l ≤ fuel)%nat → ends (find_block fuel i dev n) s (λ o s', s' = s ∧ o ≠ Some HEAD).
Proof.
  revert l0. induction l as [|j l IH]; intros l0 Hr fuel i [= <-] Hf.
  - destruct fuel; cbn [find_block]; by rewrite Nat.eqb_refl.
  - destruct (ring_nodup _ _ Hr) as (Hnd & Hin & Hlen). assert (Hj : (j < 30)%nat) by (apply Hin; set_solver).
    destruct fuel as [|fuel]; cbn [length] in Hf; [lia|]. cbn [find_block]. destruct (Nat.eqb_spec j HEAD) as [->|_]; [unfold HEAD in Hj; lia|].
    destruct (bufs s !! j) as [b|] eqn:Hb; [|apply lookup_ge_None in Hb; lia].
    apply ends_bind. unfold ends at 1. rewrite (getbuf_eq _ _ _ Hb). destruct (_ && _). { cbn. split; [done|]. intros [= ->]. unfold HEAD in Hj. lia. }
    apply (IH (l0 ++ [j])); [by rewrite <- app_assoc| |lia].
    destruct Hr as (nx & pv & Hp & Hc & _). apply chain_app in Hc as [_ Hc]. destruct (pt_get _ _ _ Hp _ _ Hb) as [-> _].
    destruct l as [|k l]; cbn in Hc |- *; by destruct Hc as [-> _].
Qed.

Lemma chain_prev_last nx pv l : ∀ a z, chain nx pv a l z → last (a :: l) = Some (pv z).
Proof.
  induction l as [|x l IH]; intros a z; cbn [chain]; [by intros [_ ->]|]. intros (_ & _ & H). rewrite last_cons_cons. by apply IH.
Qed.

Lemma find_unused_ends s l : ∀ l0, ring s (l ++ l0) → ∀ fuel i,
  last (HEAD :: l) = Some i → (length l ≤ fuel)%nat → ends (find_unused fuel i) s (λ o s', s' = s ∧ o ≠ Some HEAD).
Proof.
  induction l as [|j l IH] using rev_ind; intros l0 Hr fuel i Hi Hf.
  - injection Hi as <-. destruct fuel; cbn [find_unused]; by rewrite Nat.eqb_refl.
  - rewrite app_comm_cons, last_snoc in Hi. injection Hi as <-. rewrite length_app in Hf. cbn [length] in Hf.
    destruct (ring_nodup _ _ Hr) as (Hnd & Hin & Hlen). assert (Hj : (j < 30)%nat) by (apply Hin; set_solver).
    destruct fuel as [|fuel]; [lia|]. cbn [find_unused]. destruct (Nat.eqb_spec j HEAD) as [->|_]; [unfold HEAD in Hj; lia|].
    destruct (bufs s !! j) as [b|] eqn:Hb; [|apply lookup_ge_None in Hb; lia].
    apply ends_bind. unfold ends at 1. rewrite (getbuf_eq _ _ _ Hb). destruct (_ && _). { cbn. split; [done|]. intros [= ->]. unfold HEAD in Hj. lia. }
    rewrite <- app_assoc in Hr. apply (IH (j :: l0)); [done| |lia].
    destruct Hr as (nx & pv & Hp & Hc & _). apply chain_app in Hc as [Hc _]. destruct (pt_get _ _ _ Hp _ _ Hb) as [_ ->].
    by eapply chain_prev_last.
Qed.

Lemma safe_bget dev n : safe bring (bget dev n).
Proof.
  intros s Hs. destruct (br_ring _ Hs) as [l Hr]. destruct (ring_nodup _ _ Hr) as (_ & _ & Hlen). unfold bget.
  assert (Hl : (length l ≤ Z.to_nat NBUF)%nat). { destruct Hr as (? & ? & _ & _ & ->). by rewrite length_seq. }
  destruct (bufs s !! HEAD) as [h|] eqn:Hh; [|apply lookup_ge_None in Hh; unfold HEAD in Hh; lia].
  assert (Hn : head (l ++ [HEAD]) = Some (b_next h) ∧ last (HEAD :: l) = Some (b_prev h)).
  { destruct Hr as (nx & pv & Hp & Hc & _). destruct (pt_get _ _ _ Hp _ _ Hh) as [-> ->]. split; [|by eapply chain_prev_last].
    destruct l; by destruct Hc as [-> _]. }
  apply ends_bind. unfold ends at 1. rewrite (getbuf_eq _ _ _ Hh). apply ends_bind.
  eapply ends_mono; [apply (find_block_ends _ _ s [] l); [done|apply Hn|done]|]. intros o ? [-> Ho].
  assert (Hgo : ∀ i f, i ≠ HEAD → inner f →
    ends (modbuf i f;; (s ← get; on_lock i (acquiresleep (bpid s));; mret i)) s (λ _ s', bring s')).
  { intros i f Hi Hf. eapply ends_step; [by apply safe_modbuf|done|]. intros _ s1 H1.
    apply ends_bind. cbn. apply ends_bind. eapply ends_mono; [by apply ends_acquire|]. done. }
  destruct o as [i|]; [apply Hgo; [congruence|by intros []]|].
  apply ends_bind. eapply ends_mono; [apply (find_unused_ends s l []); [by rewrite app_nil_r|apply Hn|done]|]. intros o ? [-> Ho'].
  destruct o as [i|]; [apply Hgo; [congruence|by intros []]|done].
Qed.
#[export] Hint Resolve safe_bget : ends.

Lemma safe_bread dev n : safe bring (bread dev n).
Proof. unfold bread. safe_steps. Qed.

Lemma safe_bwrite i : safe bring (bwrite i).
Proof. unfold bwrite. safe_steps. Qed.
#[export] Hint Resolve safe_bread safe_bwrite : ends.

(** A buffer that was locked is not the head, so it can go to the front. *)
Lemma safe_brelse i : safe bring (brelse i).
Proof.
  intros s Hs. unfold brelse. apply ends_bind. unfold ends at 1, on_lock. destruct (bufs s !! i) as [b|] eqn:Hb; [|done].
  cbn. destruct (negb (sl_locked (b_lock b) =? 0)) eqn:El; cbn; [|done].
  assert (Hi : i ≠ HEAD). { intros ->. by rewrite (br_head _ Hs _ Hb) in El. }
  assert (Hlt : (i < 30)%nat).
  { destruct (br_ring _ Hs) as [l Hr]. destruct (ring_nodup _ _ Hr) as (_ & _ & Hlen). apply lookup_lt_Some in Hb. unfold HEAD in Hi. lia. }
  eapply ends_step; [apply safe_release|by eapply bring_change|]. intros _ s1 H1.
  eapply ends_step; [apply safe_modbuf; by intros []|done|]. intros _ s2 H2.
  eapply ends_step; [apply safe_getbuf|done|]. intros c s3 H3. destruct (b_refcnt c =? 0); [|by apply safe_ret].
  destruct (br_ring _ H3) as [l Hr]. destruct (ring_nodup _ _ Hr) as (_ & Hin & _).
  destruct (list_elem_of_split l i) as (l1 & l2 & ->); [by apply Hin|].
  destruct (to_front_spec _ _ _ _ Hr) as ([] & s4 & E & Hr4 & Hrel). unfold ends. rewrite E. split; [by eexists|].
  intros h' Hh'. destruct (relinked_lookup _ _ _ _ (relinked_sym _ _ Hrel) Hh') as (h & Hh & Es).
  pose proof (br_head _ H3 _ Hh) as Hl. by destruct h, h'; injection Es as -> -> -> -> ->.
Qed.
#[export] Hint Resolve safe_brelse : ends.

(** * The block layer *)

(** What the file system needs: every operation ends, and keeps what makes it end. *)
Class BlockEnds (B : Type) {BO : BlockOps B} := {
  be_ok : B → Prop;
  be_bread dev n : safe be_ok (bk_bread dev n);
  be_data i : safe be_ok (bk_data i);
  be_store i v : safe be_ok (bk_store i v);
  be_log_write i : safe be_ok (bk_log_write i);
  be_brelse i : safe be_ok (bk_brelse i);
  be_readsb dev : safe be_ok (bk_readsb dev);
  be_begin_op : safe be_ok bk_begin_op;
  be_end_op : safe be_ok bk_end_op }.

Definition lring (s : lst) : Prop := bring (lb s).

Lemma safe_bio {A} (m : M bst A) : safe bring m → safe lring (bio m).
Proof. intros Hm. by apply (safe_zoom lring bring). Qed.

Lemma safe_modlog f : safe lring (modlog f).
Proof. by apply safe_modify. Qed.
#[export] Hint Resolve safe_bio safe_modlog : ends.

Lemma safe_bdata i : safe lring (bdata i).
Proof. unfold bdata. safe_steps. Qed.
Lemma safe_bstore i v : safe lring (bstore i v).
Proof. apply safe_bio. eauto with ends. Qed.
Lemma safe_lh_get i : safe lring (lh_get i).
Proof. unfold lh_get. safe_steps. Qed.
Lemma safe_lh_set i v : safe lring (lh_set i v).
Proof. unfold lh_set. safe_steps. Qed.
#[export] Hint Resolve safe_bdata safe_bstore safe_lh_get safe_lh_set : ends.

Lemma safe_install_loop n : ∀ tail, safe lring (install_loop n tail).
Proof. induction n as [|n IH]; intros tail; cbn [install_loop]; safe_steps. Qed.
Lemma safe_write_log_loop n : ∀ tail, safe lring (write_log_loop n tail).
Proof. induction n as [|n IH]; intros tail; cbn [write_log_loop]; safe_steps. Qed.
Lemma safe_write_loop n : ∀ i b, safe lring (write_loop n i b).
Proof. induction n as [|n IH]; intros i b; cbn [write_loop]; safe_steps. Qed.
#[export] Hint Resolve safe_install_loop safe_write_log_loop safe_write_loop : ends.

Lemma safe_write_head : safe lring write_head.
Proof. unfold write_head. safe_steps. Qed.
#[export] Hint Resolve safe_write_head : ends.

Lemma safe_commit : safe lring commit.
Proof. unfold commit, write_log, install_trans. safe_steps. Qed.
#[export] Hint Resolve safe_commit : ends.

#[global] Instance log_ends : BlockEnds lst.
Proof.
  apply (Build_BlockEnds _ _ lring).
  - intros dev n. apply safe_bio, safe_bread.
  - apply safe_bdata.
  - apply safe_bstore.
  - intros i. cbn. unfold log_write. safe_steps.
  - intros i. apply safe_bio, safe_brelse.
  - intros dev. cbn. unfold readsb. safe_steps.
  - cbn. unfold begin_op. safe_steps.
  - cbn. unfold end_op. safe_steps.
Defined.

(** * The file system *)

Section fs_ends.
  Context {B : Type} {BO : BlockOps B} {BE : BlockEnds B} {DS : DevSw B}.
  Implicit Types (R : superblock → list inode → Prop) (s : fss B).

(** A property of the super block and the inodes that only looks at their sizes and
    types. *)
Definition stable R : Prop := ∀ sb l i x y, R sb l → l !! i = Some x →
  i_size y = i_size x → i_type y = i_type x → R sb (<[i := y]> l).

Definition fs_ok R s : Prop := be_ok (blk s) ∧ R (fsb s) (icache s).

Definition anyR : superblock → list inode → Prop := λ _ _, True.
Lemma any_stable : stable anyR.
Proof. done. Qed.

Lemma safe_blk R {A} (m : M B A) : safe be_ok m → safe (fs_ok R) (onblk m).
Proof. intros Hm. apply (safe_zoom (fs_ok R) be_ok); [by intros s []| |done]. intros s b [_ Hr] Hb. by split. Qed.

Lemma safe_bread' R dev n : safe (fs_ok R) (bread' dev n).
Proof. apply safe_blk, be_bread. Qed.
Lemma safe_data' R i : safe (fs_ok R) (data' i).
Proof. apply safe_blk, be_data. Qed.
Lemma safe_store' R i v : safe (fs_ok R) (store' i v).
Proof. apply safe_blk, be_store. Qed.
Lemma safe_log_write' R i : safe (fs_ok R) (log_write' i).
Proof. apply safe_blk, be_log_write. Qed.
Lemma safe_brelse' R i : safe (fs_ok R) (brelse' i).
Proof. apply safe_blk, be_brelse. Qed.
Hint Resolve safe_bread' safe_data' safe_store' safe_log_write' safe_brelse' : ends.

Lemma safe_getino R i : safe (fs_ok R) (getino i).
Proof. unfold getino. safe_steps. Qed.

Lemma safe_modino R i f : stable R → (∀ x, i_size (f x) = i_size x ∧ i_type (f x) = i_type x) → safe (fs_ok R) (modino i f).
Proof.
  intros HR Hf s [Hb Hr]. unfold modino. munfold. unfold ends. destruct (icache s !! i) as [x|] eqn:Hx; cbn; [|done].
  split; [done|]. cbn. destruct (Hf x). by eapply HR.
Qed.

Lemma safe_modino_any i f : safe (fs_ok anyR) (modino i f).
Proof.
  intros s [Hb Hr]. unfold modino. munfold. unfold ends. destruct (icache s !! i) as [x|] eqn:Hx; cbn; [|done]. by split.
Qed.

Lemma safe_ilock_op R {A} i (m : M sleeplock A) : stable R → safe (λ _, True) m → safe (fs_ok R) (on_ilock i m).
Proof.
  intros HR Hm s [Hb Hr]. unfold ends, on_ilock. destruct (icache s !! i) as [x|] eqn:Hx; cbn; [|done].
  specialize (Hm (i_lock x) Logic.I). unfold ends in Hm. unfold zoom. destruct (m (i_lock x)) as [[a l]| | | |]; try done.
  split; [done|]. cbn. by eapply HR.
Qed.
Hint Resolve safe_getino safe_modino_any any_stable : ends.

(** ** Blocks *)

Lemma safe_bzero R dev n : safe (fs_ok R) (bzero dev n).
Proof. unfold bzero. safe_steps. Qed.
Hint Resolve safe_bzero : ends.

(** The outer loop of balloc covers the disk after as many rounds as there are blocks
    of the free map. *)
Lemma balloc_loop_ends R dev s fuel b : fs_ok R s → sb_size (fsb s) ≤ b + Z.of_nat fuel * BPB →
  ends (balloc_loop fuel dev b) s (λ _ s', fs_ok R s').
Proof.
  intros Hs Hf. set (R' := λ sb l, R sb l ∧ sb_size sb = sb_size (fsb s)).
  assert (Hs' : fs_ok R' s) by (destruct Hs; by split).
  enough (H : ∀ s1, fs_ok R' s1 → ends (balloc_loop fuel dev b) s1 (λ _ s', fs_ok R' s')).
  { eapply ends_mono; [by apply H|]. intros _ s' (H1 & H2 & _). by split. }
  revert b Hf. induction fuel as [|fuel IH]; intros b Hf s1 H1; cbn [balloc_loop]; apply ends_bind; cbn.
  - assert (E : sb_size (fsb s1) = sb_size (fsb s)) by apply H1. destruct (Z.ltb_spec b (sb_size (fsb s1))); [lia|]. by apply safe_panic.
  - destruct (b <? _); [|by apply safe_panic]. eapply ends_step; [apply safe_bread'|done|]. intros bp s2 H2.
    eapply ends_step; [apply safe_data'|done|]. intros d s3 H3. destruct (bit_scan _ _ _ _ _).
    + revert s3 H3. assert (H : safe (fs_ok R') (store' bp (map_store d z (Z.lor (map_byte d z) (map_mask z)));;
        log_write' bp;; brelse' bp;; bzero dev (b + z);; mret (b + z))) by safe_steps. exact H.
    + eapply ends_step; [apply safe_brelse'|done|]. intros _ s4 H4. apply IH; [|done]. lia.
Qed.

Lemma safe_balloc R dev : safe (fs_ok R) (balloc dev).
Proof.
  intros s Hs. unfold balloc. apply ends_bind. cbn. apply balloc_loop_ends; [done|].
  set (z := sb_size (fsb s)). destruct (decide (z < 0)); [unfold BPB, BSIZE; lia|].
  rewrite Z2Nat.id; unfold BPB, BSIZE; Z.to_euclidean_division_equations; lia.
Qed.
Hint Resolve safe_balloc : ends.

(** ** Contents *)

Lemma safe_set_addr R ip j v : stable R → safe (fs_ok R) (set_addr ip j v).
Proof. intros HR. by apply safe_modino. Qed.
Hint Resolve safe_set_addr : ends.

(** bmap only returns for a block of a file of at most MAXFILE blocks. *)
Lemma bmap_ends R ip bn s : stable R → fs_ok R s → ends (bmap ip bn) s (λ _ s', fs_ok R s' ∧ bn < MAXFILE).
Proof.
  intros HR Hs. assert (H : safe (fs_ok R) (bmap ip bn)) by (unfold bmap; safe_steps).
  destruct (Z.ltb_spec bn MAXFILE) as [Hlt|Hge]; [eapply ends_mono; [by apply H|]; done|].
  unfold bmap. eapply ends_step; [apply safe_getino|done|]. intros i s1 H1.
  unfold MAXFILE in Hge. change NINDIRECT with 128 in *. change NDIRECT with 12 in *.
  destruct (Z.ltb_spec bn 12); [lia|]. cbv zeta. destruct (Z.ltb_spec (bn - 12) 128); [lia|]. done.
Qed.

(** Every round of readi copies a byte at least. *)
Lemma readi_loop_ends R ip n : stable R → ∀ fuel off tot acc s, fs_ok R s → n - tot ≤ Z.of_nat fuel →
  ends (readi_loop fuel ip off tot n acc) s (λ _ s', fs_ok R s' ∧ (tot < n → off / BSIZE < MAXFILE)).
Proof.
  intros HR. induction fuel as [|fuel IH]; intros off tot acc s Hs Hf; cbn [readi_loop];
    destruct (Z.ltb_spec tot n) as [Hlt|Hge]; try lia; try (by cbn; split; [|lia]).
  eapply ends_step; [apply safe_getino|done|]. intros i s1 H1. apply ends_bind.
  eapply ends_mono; [by apply (bmap_ends R)|]. intros a s2 [H2 Hb]. cbn.
  eapply ends_step; [apply safe_bread'|done|]. intros bp s3 H3. eapply ends_step; [apply safe_data'|done|]. intros d s4 H4.
  eapply ends_step; [apply safe_brelse'|done|]. intros _ s5 H5. eapply ends_mono; [apply IH; [done|]|].
  { pose proof (Z.mod_pos_bound off BSIZE ltac:(done)). lia. }
  intros l s6 [H6 _]. done.
Qed.

(** An inode that is a directory of [sz] bytes. *)
Definition is_dir (dp : nat) (sz : Z) : superblock → list inode → Prop := λ _ l,
  ∃ i, l !! dp = Some i ∧ i_size i = sz ∧ i_type i = T_DIR.

Lemma is_dir_stable dp sz : stable (is_dir dp sz).
Proof.
  intros sb l i x y (z & Hz & Hsz & Ht) Hx Es Et. unfold is_dir. rewrite list_lookup_insert. case_decide as E; [|by eauto].
  destruct E as [-> _]. exists y. rewrite Hz in Hx. injection Hx as ->. split; [done|]. by rewrite Es, Et.
Qed.

Lemma ends_dir {A} dp sz (f : inode → M (fss B) A) s Q : fs_ok (is_dir dp sz) s →
  (∀ i, i_size i = sz → i_type i = T_DIR → ends (f i) s Q) → ends (getino dp ≫= f) s Q.
Proof.
  intros [_ (i & Hi & Hs & Ht)] H. apply ends_bind. unfold ends at 1, getino. munfold. rewrite Hi. by apply H.
Qed.

Lemma readi_dir_ends dp sz off s : fs_ok (is_dir dp sz) s → 0 ≤ off →
  ends (readi dp off sizeof_dirent) s (λ r s', fs_ok (is_dir dp sz) s' ∧
    (r.1 = sizeof_dirent → off + sizeof_dirent ≤ sz ∧ off / BSIZE < MAXFILE)).
Proof.
  intros Hs Ho. unfold readi. eapply ends_dir; [done|]. intros i Hsz Ht. rewrite Ht, Hsz. change (T_DIR =? T_DEV) with false. cbv iota.
  destruct (_ || _) eqn:E; [by apply (conj Hs)|]. apply orb_false_iff in E as [E _]. apply Z.ltb_ge in E. cbv zeta.
  set (n := if sz <? off + sizeof_dirent then sz - off else sizeof_dirent).
  assert (Hn : 0 ≤ n ≤ 16 ∧ (n = 16 → off + 16 ≤ sz)).
  { unfold n, sizeof_dirent. destruct (Z.ltb_spec sz (off + 16)); lia. }
  apply ends_bind. eapply ends_mono; [apply (readi_loop_ends (is_dir dp sz)); [apply is_dir_stable|done|lia]|].
  intros l s' [Hs' Hb]. cbn. split; [done|]. rewrite s32_small by (unfold n in *; lia). unfold sizeof_dirent in *. intros E16.
  split; [lia|]. apply Hb. lia.
Qed.

(** ** Directories *)

Lemma safe_iget R dev inum : stable R → safe (fs_ok R) (iget dev inum).
Proof.
  intros HR. unfold iget. apply safe_bind; [eauto with ends|]. intros s. destruct (iget_scan _ _ _ _ _) as [i|[e|]].
  - apply safe_bind; [by apply safe_modino|]. eauto with ends.
  - apply safe_bind; [by apply safe_modino|]. eauto with ends.
  - eauto with ends.
Qed.
Hint Resolve safe_iget is_dir_stable : ends.

(** Round [k] of dirlookup is at offset [16 * k], which lies inside the largest file, so
    the offset does not wrap around; as many rounds as entries reach the end. *)
Lemma dirlookup_loop_ends dp name sz fuel : ∀ off s, fs_ok (is_dir dp sz) s → 0 ≤ off → sz ≤ off + 16 * Z.of_nat fuel →
  ends (dirlookup_loop fuel dp name off) s (λ _ s', fs_ok (is_dir dp sz) s').
Proof.
  induction fuel as [|fuel IH]; intros off s Hs Ho Hf; cbn [dirlookup_loop];
    (eapply ends_dir; [done|]); intros i Hsz Ht; rewrite Hsz; destruct (Z.ltb_spec off sz) as [Hlt|Hge]; try lia; try done.
  apply ends_bind. eapply ends_mono; [by apply readi_dir_ends|]. intros [r l] s1 [H1 Hr]. cbn in Hr.
  destruct (Z.eqb_spec r sizeof_dirent) as [E|_]; cbn [negb]; [|done]. destruct (Hr E) as [Hle Hb].
  assert (Ho' : u32 (off + sizeof_dirent) = off + 16).
  { apply u32_small. unfold sizeof_dirent, BSIZE, MAXFILE in *. change (NDIRECT + NINDIRECT) with 140 in Hb. Z.to_euclidean_division_equations; lia. }
  rewrite Ho'. cbv zeta. assert (Hn : ends (dirlookup_loop fuel dp name (off + 16)) s1 (λ _ s', fs_ok (is_dir dp sz) s')) by (apply IH; [done|lia|lia]).
  destruct (_ =? 0); [exact Hn|]. destruct (_ =? 0); [|exact Hn].
  eapply ends_step; [by apply safe_iget, is_dir_stable|done|]. done.
Qed.

Lemma safe_dirlookup dp name : safe (fs_ok anyR) (dirlookup dp name).
Proof.
  intros s [Hb _]. unfold dirlookup. apply ends_bind. unfold ends at 1, getino. munfold. destruct (icache s !! dp) as [i|] eqn:Hi; cbn; [|done].
  destruct (Z.eqb_spec (i_type i) T_DIR) as [Ht|_]; cbn [negb]; [|done].
  eapply ends_mono; [apply (dirlookup_loop_ends dp name (i_size i))|].
  - split; [done|]. by exists i.
  - done.
  - unfold sizeof_dirent. destruct (decide (i_size i < 0)); [lia|]. Z.to_euclidean_division_equations; lia.
  - intros _ s' [H _]. by split.
Qed.
Hint Resolve safe_dirlookup : ends.

(** ** Inodes *)

Lemma safe_fsb v : safe (fs_ok anyR) (modify (set_fsb v)).
Proof. apply safe_modify. intros s [Hb _]. by split. Qed.
Lemma safe_any_lock {A} i (m : M sleeplock A) : safe (λ _, True) m → safe (fs_ok anyR) (on_ilock i m).
Proof. apply safe_ilock_op, any_stable. Qed.
Lemma safe_acquire pid : safe (λ _, True) (acquiresleep pid).
Proof. unfold acquiresleep. safe_steps. Qed.
Lemma safe_releasesleep : safe (λ _, True) releasesleep.
Proof. by apply safe_modify. Qed.
Lemma safe_holdingsleep : safe (λ _, True) holdingsleep.
Proof. apply safe_gets. Qed.
Lemma safe_readsb' dev : safe (fs_ok anyR) (onblk (bk_readsb dev)).
Proof. apply safe_blk, be_readsb. Qed.
Hint Resolve safe_fsb safe_any_lock safe_acquire safe_releasesleep safe_holdingsleep safe_readsb' : ends.

Lemma safe_bfree dev b : safe (fs_ok anyR) (bfree dev b).
Proof. unfold bfree. safe_steps. Qed.
Hint Resolve safe_bfree : ends.

Lemma safe_trunc_direct n : ∀ j ip, safe (fs_ok anyR) (trunc_direct n j ip).
Proof. induction n as [|n IH]; intros j ip; cbn [trunc_direct]; safe_steps. Qed.
Lemma safe_trunc_indirect n : ∀ j ip bp, safe (fs_ok anyR) (trunc_indirect n j ip bp).
Proof. induction n as [|n IH]; intros j ip bp; cbn [trunc_indirect]; safe_steps. Qed.
Hint Resolve safe_trunc_direct safe_trunc_indirect : ends.

Lemma safe_iupdate ip : safe (fs_ok anyR) (iupdate ip).
Proof. unfold iupdate. safe_steps. Qed.
Hint Resolve safe_iupdate : ends.

Lemma safe_itrunc ip : safe (fs_ok anyR) (itrunc ip).
Proof. unfold itrunc. safe_steps. Qed.
Hint Resolve safe_itrunc : ends.

Lemma safe_iput ip : safe (fs_ok anyR) (iput ip).
Proof. unfold iput. safe_steps. Qed.
Lemma safe_ilock ip : safe (fs_ok anyR) (ilock ip).
Proof. unfold ilock. safe_steps. Qed.
Lemma safe_iunlock ip : safe (fs_ok anyR) (iunlock ip).
Proof. unfold iunlock. safe_steps. Qed.
Hint Resolve safe_iput safe_ilock safe_iunlock : ends.

(** ** Paths *)

Lemma skip_slashes_le path : (length (skip_slashes path) ≤ length path)%nat.
Proof. induction path as [|c p IH]; cbn; [done|]. destruct (_ =? _); cbn; lia. Qed.

(** Every element takes a character of the path. *)
Lemma skipelem_lt path rest name : skipelem path = Some (rest, name) → (length rest < length path)%nat.
Proof.
  unfold skipelem. pose proof (skip_slashes_le path) as Hle. destruct (skip_slashes path) as [|c p] eqn:E; [done|].
  assert (Hc : c ≠ SLASH). { clear Hle. revert E. induction path as [|d q IH]; cbn; [done|]. destruct (Z.eqb_spec d SLASH); [done|]. intros [= -> ->]. done. }
  intros [= <- _]. cbn [path_elem]. rewrite (proj2 (Z.eqb_neq _ _) Hc). cbn [length drop].
  pose proof (skip_slashes_le (drop (length (path_elem p)) p)). rewrite length_drop in *. cbn in Hle. lia.
Qed.

Lemma namex_loop_ends fuel : ∀ ip path np name, (length path ≤ fuel)%nat → safe (fs_ok anyR) (namex_loop fuel ip path np name).
Proof.
  induction fuel as [|fuel IH]; intros ip path np name Hf; cbn [namex_loop]; (destruct (skipelem path) as [[rest nm]|] eqn:E; [|safe_steps]).
  - apply skipelem_lt in E. lia.
  - apply skipelem_lt in E. unfold iunlockput. safe_steps. apply IH. lia.
Qed.

Lemma safe_idup ip : safe (fs_ok anyR) (idup ip).
Proof. unfold idup. safe_steps. Qed.
Hint Resolve safe_idup : ends.

Lemma namex_ends cwd path np : safe (fs_ok anyR) (namex cwd path np).
Proof. unfold namex. safe_steps. by apply namex_loop_ends. Qed.
End fs_ends.

(** * Path lookup on the log and the cache *)

(** File-system calls that look up a path each, one after the other. *)
Fixpoint lookups {B} {BO : BlockOps B} {DS : DevSw B} (l : list (nat * list Z * bool)) : M (fss B) unit :=
  match l with
  | [] => mret tt
  | (cwd, path, np) :: l => onblk bk_begin_op;; namex cwd path np;; onblk bk_end_op;; lookups l
  end.

Lemma lookups_safe {B} {BO : BlockOps B} {BE : BlockEnds B} {DS : DevSw B} l : safe (fs_ok anyR) (lookups l).
Proof.
  induction l as [|[[cwd path] np] l IH]; cbn [lookups]; safe_steps; [apply safe_blk, be_begin_op|apply namex_ends|apply safe_blk, be_end_op].
Qed.


Definition bare_devices : DevSw lst := {| dev_read := λ _, None; dev_write := λ _, None |}.
Definition boot_bufs : bst := mk_bst (replicate 31 (mk_buf 0 0 0 initsleeplock 0 0 0 [])) (mk_disk (λ _, []) [] 0) 0.

