(* ===== verification/Ring.v ===== *)
(** Ring buffers with counters that run modulo 2^32 (pipe.c, console.c): the entries from
    counter [i] on, when the size of the buffer divides 2^32. *)
From Stdlib Require Import ZArith Lia Bool.
From stdpp Require Import base tactics list list_numbers.
From S2P Require Import Prelude Machine.

Definition ring (sz : Z) (l : list Z) (i n : Z) : list Z :=
  (λ j, default 0 (l !! Z.to_nat ((i + j) mod sz))) <$> seqZ 0 n.

Lemma ring_length sz l i n : 0 ≤ n → Z.of_nat (length (ring sz l i n)) = n.
Proof. intros Hn. unfold ring. rewrite length_fmap, length_seqZ. lia. Qed.

Lemma u32_add_l a b : u32 (u32 a + b) = u32 (a + b).
Proof. unfold u32. by rewrite Z.add_mod_idemp_l. Qed.

Section ring.
  Context (sz q : Z) (l : list Z).
  Hypothesis Hsz : 0 < sz.
  Hypothesis Hq : 2 ^ 32 = q * sz.
  Hypothesis Hl : length l = Z.to_nat sz.

(** The counter wraps around at a multiple of the size. *)
Lemma slot_u32 i : u32 i mod sz = i mod sz.
Proof.
  clear Hl. unfold u32. rewrite (Z.mod_eq i (2 ^ 32)) by done. rewrite Hq.
  replace (i - q * sz * (i / (q * sz))) with (i + - (q * (i / (q * sz))) * sz) by ring. by rewrite Z.mod_add by lia.
Qed.

Lemma slot_lt i : (Z.to_nat (i mod sz) < length l)%nat.
Proof. pose proof (Z.mod_pos_bound i sz Hsz). lia. Qed.

Lemma ring_app i n m : 0 ≤ n → 0 ≤ m → ring sz l i (n + m) = ring sz l i n ++ ring sz l (u32 (i + n)) m.
Proof.
  clear Hl. intros Hn Hm. unfold ring. rewrite seqZ_app, fmap_app by lia. f_equal. rewrite Z.add_0_l, <-(Z.add_0_r n) at 1.
  rewrite <-fmap_add_seqZ, <-list_fmap_compose. apply list_fmap_ext. intros j z [-> Hj]%lookup_seqZ. cbn. do 3 f_equal.
  rewrite <-(slot_u32 (i + _)), <-(slot_u32 (u32 _ + _)). f_equal. unfold u32. rewrite Z.add_mod_idemp_l by done. f_equal. lia.
Qed.

Lemma ring_one i x : l !! Z.to_nat (i mod sz) = Some x → ring sz l i 1 = [x].
Proof. intros H. unfold ring. change (seqZ 0 1) with [0]. cbn. by rewrite Z.add_0_r, H. Qed.

(** The first entry, and the last. *)
Lemma ring_cons i n : 0 < n → ∃ x, l !! Z.to_nat (i mod sz) = Some x ∧ ring sz l i n = x :: ring sz l (u32 (i + 1)) (n - 1).
Proof.
  intros Hn. destruct (lookup_lt_is_Some_2 l _ (slot_lt i)) as [x Hx]. exists x. split; [done|].
  replace n with (1 + (n - 1)) at 1 by lia. rewrite ring_app by lia. by rewrite (ring_one _ _ Hx).
Qed.

Lemma ring_snoc i n : 0 < n →
  ∃ x, l !! Z.to_nat (u32 (i + n - 1) mod sz) = Some x ∧ ring sz l i n = ring sz l i (n - 1) ++ [x].
Proof.
  intros Hn. destruct (lookup_lt_is_Some_2 l _ (slot_lt (u32 (i + n - 1)))) as [x Hx]. exists x. split; [done|].
  replace n with ((n - 1) + 1) at 1 by lia. rewrite ring_app by lia. f_equal. apply ring_one. by rewrite Z.add_sub_assoc.
Qed.

(** A new entry behind [n] others does not disturb them. *)
Lemma ring_put i n x k : 0 ≤ k ≤ n → n < sz → ring sz (<[Z.to_nat (u32 (i + n) mod sz) := x]> l) i k = ring sz l i k.
Proof.
  clear Hl. intros Hk Hn. unfold ring. apply list_fmap_ext. intros j z [-> Hj]%lookup_seqZ. cbn. f_equal.
  apply list_lookup_insert_ne. rewrite slot_u32. intros E. apply (f_equal Z.of_nat) in E.
  rewrite !Z2Nat.id in E by (apply Z.mod_pos_bound; lia).
  assert (Hd : (i + n - (i + Z.of_nat j)) mod sz = 0) by (rewrite Zminus_mod, E, Z.sub_diag; apply Z.mod_0_l; lia).
  rewrite Z.mod_small in Hd by lia. lia.
Qed.
End ring.

Lemma ring_push sz q l i n x : 0 < sz → 2 ^ 32 = q * sz → length l = Z.to_nat sz → 0 ≤ n < sz →
  ring sz (<[Z.to_nat (u32 (i + n) mod sz) := x]> l) i (n + 1) = ring sz l i n ++ [x].
Proof.
  intros Hsz Hq Hl Hn. rewrite (ring_app sz q _ Hsz Hq) by lia. f_equal.
  - apply (ring_put sz q); [done..|lia|lia].
  - apply ring_one. apply list_lookup_insert_eq. by apply slot_lt.
Qed.
