(* ===== verification/Pipe.v ===== *)
(** Pipes (pipe.c): the ring buffer with its 32-bit counters, the calls that read,
    write and close it, the processes that share it, and what they rely on: the bytes
    come out in the order they went in, nobody sleeps through what they wait for, and a
    pipeline delivers everything whatever the scheduler does. *)
From Stdlib Require Import ZArith Lia Bool.
From stdpp Require Import base tactics list list_numbers strings relations.
From S2P Require Import Prelude Machine Ring.

(** * The pipe *)

Definition PIPESIZE : Z := 512.

Record pipe := mk_pipe {
  pi_locked : bool;
  pi_data : list Z;
  pi_nread : Z;
  pi_nwrite : Z;
  pi_readopen : Z;
  pi_writeopen : Z }.

Definition set_pi_locked (v : bool) (p : pipe) : pipe := mk_pipe v (pi_data p) (pi_nread p) (pi_nwrite p) (pi_readopen p) (pi_writeopen p).
Definition set_pi_readopen (v : Z) (p : pipe) : pipe := mk_pipe (pi_locked p) (pi_data p) (pi_nread p) (pi_nwrite p) v (pi_writeopen p).
Definition set_pi_writeopen (v : Z) (p : pipe) : pipe := mk_pipe (pi_locked p) (pi_data p) (pi_nread p) (pi_nwrite p) (pi_readopen p) v.

(** The channels of a pipe, the addresses of its two counters. *)
Inductive pchan := NREAD | NWRITE.

#[global] Instance pchan_eq_dec : EqDecision pchan.
Proof. solve_decision. Defined.

(** What the pipe's code changes: the page of the pipe, whether the page was given
    back with kfree, and the wakeups called so far. *)
Record pst := mk_pst { pi : pipe; pi_freed : bool; woken : list pchan }.

Definition set_pi (p : pipe) (s : pst) : pst := mk_pst p (pi_freed s) (woken s).

(** How a part of a call that runs without interruption ends: the call returns [r], or
    it sleeps on a channel; [i] is the call's loop variable then. *)
Inductive pout := PRet (r i : Z) | PSleep (c : pchan) (i : Z).

Definition getpi : M pst pipe := s ← get; if pi_freed s then fault else mret (pi s).
Definition modpi (f : pipe → pipe) : M pst unit := p ← getpi; modify (set_pi (f p)).

(** The spin lock of the pipe. *)
Definition lockpi : M pst unit := p ← getpi; if pi_locked p then panic "acquire" else modpi (set_pi_locked true).
Definition unlockpi : M pst unit := p ← getpi; if pi_locked p then modpi (set_pi_locked false) else panic "release".

Definition wakeup_pi (c : pchan) : M pst unit := modify (λ s, mk_pst (pi s) (pi_freed s) (woken s ++ [c])).

(** The pipe pipealloc makes in the page kalloc returned, whose bytes are [junk]. *)
Definition pipe_new (junk : list Z) : pipe := mk_pipe false junk 0 0 1 1.

Definition pipeclose (writable : bool) : M pst unit :=
  lockpi;;
  (if writable then modpi (set_pi_writeopen 0);; wakeup_pi NREAD
   else modpi (set_pi_readopen 0);; wakeup_pi NWRITE);;
  p ← getpi;
  if (pi_readopen p =? 0) && (pi_writeopen p =? 0)
  then unlockpi;; modify (λ s, mk_pst (pi s) true (woken s))
  else unlockpi.

(** [p->data[p->nwrite++ % PIPESIZE] = x] and [p->data[p->nread++ % PIPESIZE]]. *)
Definition put_byte (x : Z) (p : pipe) : pipe :=
  mk_pipe (pi_locked p) (<[Z.to_nat (pi_nwrite p mod PIPESIZE) := x]> (pi_data p)) (pi_nread p) (u32 (pi_nwrite p + 1))
    (pi_readopen p) (pi_writeopen p).
Definition next_byte (p : pipe) : option Z := pi_data p !! Z.to_nat (pi_nread p mod PIPESIZE).
Definition skip_byte (p : pipe) : pipe :=
  mk_pipe (pi_locked p) (pi_data p) (u32 (pi_nread p + 1)) (pi_nwrite p) (pi_readopen p) (pi_writeopen p).

(** The loop of pipewrite with [k] bytes to go, [i] of them written: it runs until the
    call returns or sleeps, which releases the lock. *)
Fixpoint write_from (k : nat) (killed : bool) (addr : list Z) (n i : Z) : M pst pout :=
  match k with
  | O => wakeup_pi NREAD;; unlockpi;; mret (PRet n i)
  | S k =>
      p ← getpi;
      if pi_nwrite p =? u32 (pi_nread p + PIPESIZE) then
        if (pi_readopen p =? 0) || killed then unlockpi;; mret (PRet (-1) i)
        else wakeup_pi NREAD;; unlockpi;; mret (PSleep NWRITE i)
      else
        x ← oget (nthZ addr i);
        modpi (put_byte x);;
        write_from k killed addr n (i + 1)
  end.

(** pipewrite from its start ([i = 0]) or from the sleep at byte [i], which takes the
    lock again when it returns. *)
Definition pipewrite (killed : bool) (addr : list Z) (n i : Z) : M pst pout :=
  lockpi;; write_from (Z.to_nat (n - i)) killed addr n i.

Fixpoint read_copy (k : nat) (i : Z) (acc : list Z) : M pst (Z * list Z) :=
  match k with
  | O => mret (i, acc)
  | S k =>
      p ← getpi;
      if pi_nread p =? pi_nwrite p then mret (i, acc)
      else
        x ← oget (next_byte p);
        modpi skip_byte;;
        read_copy k (i + 1) (acc ++ [x])
  end.

(** piperead from its start or from its sleep; with the bytes it stores. *)
Definition piperead (killed : bool) (n : Z) : M pst (pout * list Z) :=
  lockpi;;
  p ← getpi;
  if (pi_nread p =? pi_nwrite p) && negb (pi_writeopen p =? 0) then
    if killed then unlockpi;; mret (PRet (-1) 0, [])
    else unlockpi;; mret (PSleep NREAD 0, [])
  else
    '(i, bytes) ← read_copy (Z.to_nat n) 0 [];
    wakeup_pi NWRITE;;
    unlockpi;;
    mret (PRet i i, bytes).

(** * The processes that use a pipe *)

(** A call in progress: pipewrite of the bytes [addr], [i] of them written, or
    piperead of at most [n] bytes. *)
Inductive pcall := CWrite (addr : list Z) (i : Z) | CRead (n : Z).

Definition is_write (c : pcall) : bool := match c with CWrite _ _ => true | CRead _ => false end.

(** A process: its call, the channel it sleeps on, [killed], and what its last call
    returned. *)
Record thread := mk_thread { t_call : option pcall; t_wait : option pchan; t_killed : bool; t_ret : Z }.

(** The pipe and its processes; with the bytes written and read since the pipe was
    made, and whether a writer has given up since the readers were last woken. *)
Record world := mk_world {
  w_pipe : pst;
  w_threads : list thread;
  w_in : list Z;
  w_out : list Z;
  w_gaveup : bool }.

(** The part of a call from its start or its wakeup to its end or its next sleep. The
    lock is held all the time, so that no other process sees the pipe in between. *)
Definition segment (c : pcall) (killed : bool) : M pst (pout * list Z) :=
  match c with
  | CWrite addr i => o ← pipewrite killed addr (Z.of_nat (length addr)) i; mret (o, [])
  | CRead n => piperead killed n
  end.

(** wakeup makes every process asleep on the channel runnable. *)
Definition wake (cs : list pchan) (t : thread) : thread :=
  match t_wait t with
  | Some c => if decide (c ∈ cs) then mk_thread (t_call t) None (t_killed t) (t_ret t) else t
  | None => t
  end.

(** The process after a part of its call. *)
Definition after (c : pcall) (o : pout) (t : thread) : thread :=
  match o with
  | PRet r _ => mk_thread None None (t_killed t) r
  | PSleep ch i => mk_thread (Some (match c with CWrite addr _ => CWrite addr i | CRead n => CRead n end)) (Some ch) (t_killed t) (t_ret t)
  end.

(** The bytes a part of a call has put into the pipe. *)
Definition put_by (c : pcall) (o : pout) : list Z :=
  match c with
  | CWrite addr i => let j := match o with PRet _ j => j | PSleep _ j => j end in
      take (Z.to_nat (j - i)) (drop (Z.to_nat i) addr)
  | CRead _ => []
  end.

(** A part of a write that returns an error has not woken the readers. *)
Definition gaveup (c : pcall) (o : pout) (before : bool) : bool :=
  match c, o with CWrite _ _, PRet (-1) _ => true | CWrite _ _, _ => false | CRead _, _ => before end.

Definition at_rest (p : pst) : pst := mk_pst (pi p) (pi_freed p) [].

Definition run_thread (i : nat) (t : thread) (c : pcall) (w : world) : res world :=
  match segment c (t_killed t) (at_rest (w_pipe w)) with
  | Ok ((o, bytes), s) =>
      Ok (mk_world s (<[i := after c o t]> (wake (woken s) <$> w_threads w))
            (w_in w ++ put_by c o) (w_out w ++ bytes) (gaveup c o (w_gaveup w)))
  | Panic e => Panic e
  | Fault => Fault
  | Blocked => Blocked
  | NoFuel => NoFuel
  end.

Definition close_end (writable : bool) (w : world) : res world :=
  match pipeclose writable (at_rest (w_pipe w)) with
  | Ok (_, s) => Ok (mk_world s (wake (woken s) <$> w_threads w) (w_in w) (w_out w) (if writable then false else w_gaveup w))
  | Panic e => Panic e
  | Fault => Fault
  | Blocked => Blocked
  | NoFuel => NoFuel
  end.

Definition end_open (writable : bool) (p : pipe) : Prop := (if writable then pi_writeopen p else pi_readopen p) ≠ 0.

Definition call_ok (c : pcall) : Prop := match c with CWrite _ i => i = 0 | CRead n => 0 ≤ n end.

(** The steps of the processes. A process that makes a call, or is in the middle of
    one, has a file for its end of the pipe, so that the end is open, and fileclose does
    not close it. *)
Inductive pstep (w : world) : world → Prop :=
  | ps_begin i t c : w_threads w !! i = Some t → t_call t = None → call_ok c → end_open (is_write c) (pi (w_pipe w)) →
      pstep w (mk_world (w_pipe w) (<[i := mk_thread (Some c) None (t_killed t) (t_ret t)]> (w_threads w)) (w_in w) (w_out w) (w_gaveup w))
  | ps_run i t c w' : w_threads w !! i = Some t → t_call t = Some c → t_wait t = None → run_thread i t c w = Ok w' → pstep w w'
  | ps_kill i t : w_threads w !! i = Some t →
      pstep w (mk_world (w_pipe w) (<[i := mk_thread (t_call t) None true (t_ret t)]> (w_threads w)) (w_in w) (w_out w) (w_gaveup w))
  | ps_close b w' : end_open b (pi (w_pipe w)) →
      (∀ i t c, w_threads w !! i = Some t → t_call t = Some c → is_write c ≠ b) →
      close_end b w = Ok w' → pstep w w'.

Definition world_new (junk : list Z) (n : nat) : world :=
  mk_world (mk_pst (pipe_new junk) false []) (replicate n (mk_thread None None false 0)) [] [] false.

(** * The bytes in the pipe *)

Definition fill (p : pipe) : Z := u32 (pi_nwrite p - pi_nread p).

Definition queue (p : pipe) : list Z := ring PIPESIZE (pi_data p) (pi_nread p) (fill p).

Record pipe_ok (p : pipe) : Prop := {
  po_len : length (pi_data p) = 512%nat;
  po_nread : 0 ≤ pi_nread p < 2 ^ 32;
  po_nwrite : 0 ≤ pi_nwrite p < 2 ^ 32;
  po_fill : fill p ≤ PIPESIZE }.

Lemma pipesize_pos : 0 < PIPESIZE.
Proof. done. Qed.

(** The counters run modulo 2^32, which PIPESIZE divides. *)
Lemma pipesize_div : 2 ^ 32 = 2 ^ 23 * PIPESIZE.
Proof. done. Qed.

Lemma queue_length p : Z.of_nat (length (queue p)) = fill p.
Proof. apply ring_length, u32_range. Qed.

Lemma nwrite_fill p : pipe_ok p → pi_nwrite p = u32 (pi_nread p + fill p).
Proof. intros []. unfold fill, u32 in *. rewrite Z.add_mod_idemp_r by done. rewrite Z.mod_small; lia. Qed.

Lemma full_fill p : pipe_ok p → (pi_nwrite p =? u32 (pi_nread p + PIPESIZE)) = (fill p =? PIPESIZE).
Proof.
  intros []. unfold fill, u32, PIPESIZE in *. apply eq_true_iff_eq. rewrite !Z.eqb_eq.
  Z.to_euclidean_division_equations. lia.
Qed.

Lemma empty_fill p : pipe_ok p → (pi_nread p =? pi_nwrite p) = (fill p =? 0).
Proof.
  intros []. unfold fill, u32, PIPESIZE in *. apply eq_true_iff_eq. rewrite !Z.eqb_eq.
  Z.to_euclidean_division_equations. lia.
Qed.

Lemma put_fill x p : pipe_ok p → fill p < PIPESIZE → fill (put_byte x p) = fill p + 1.
Proof.
  intros [] H. unfold fill, put_byte, u32, PIPESIZE in *. cbn. Z.to_euclidean_division_equations. lia.
Qed.

Lemma skip_fill p : pipe_ok p → 0 < fill p → fill (skip_byte p) = fill p - 1.
Proof.
  intros [] H. unfold fill, skip_byte, u32, PIPESIZE in *. cbn. Z.to_euclidean_division_equations. lia.
Qed.

Lemma put_ok x p : pipe_ok p → fill p < PIPESIZE → pipe_ok (put_byte x p).
Proof.
  intros H Hf. split; cbn; [rewrite length_insert| | |rewrite put_fill by done; lia]; try apply H. apply u32_range.
Qed.

Lemma skip_ok p : pipe_ok p → 0 < fill p → pipe_ok (skip_byte p).
Proof.
  intros H Hf. split; cbn; [| | |rewrite skip_fill by done; pose proof (po_fill _ H); lia]; try apply H. apply u32_range.
Qed.

Lemma put_queue x p : pipe_ok p → fill p < PIPESIZE → queue (put_byte x p) = queue p ++ [x].
Proof.
  intros H Hf. assert (0 ≤ fill p) by apply u32_range. unfold queue. rewrite put_fill by done. cbn [pi_data pi_nread put_byte].
  rewrite (nwrite_fill p H). apply (ring_push _ _ _ _ _ _ pipesize_pos pipesize_div); [apply H|lia].
Qed.

Lemma skip_queue p : pipe_ok p → 0 < fill p → ∃ x, next_byte p = Some x ∧ queue p = x :: queue (skip_byte p).
Proof.
  intros H Hf. unfold queue. rewrite skip_fill by done.
  exact (ring_cons PIPESIZE _ _ pipesize_pos pipesize_div (po_len _ H) (pi_nread p) (fill p) Hf).
Qed.

(** * What the parts of the calls do *)

(** The pipe is in use, with the lock as given. *)
Record live (l : bool) (s : pst) : Prop := {
  lv_freed : pi_freed s = false;
  lv_locked : pi_locked (pi s) = l;
  lv_ok : pipe_ok (pi s) }.

Lemma getpi_run l s Q : live l s → Q (pi s) s → runs getpi s Q.
Proof. intros H HQ. unfold getpi. mstep. apply runs_get. rewrite (lv_freed _ _ H). by apply runs_ret. Qed.

Lemma modpi_run l s f Q : live l s → Q tt (set_pi (f (pi s)) s) → runs (modpi f) s Q.
Proof. intros H HQ. unfold modpi. mstep. eapply getpi_run; [done|]. by apply runs_modify. Qed.

Lemma lockpi_run s Q : live false s → Q tt (set_pi (set_pi_locked true (pi s)) s) → runs lockpi s Q.
Proof. intros H HQ. unfold lockpi. mstep. eapply getpi_run; [done|]. rewrite (lv_locked _ _ H). by eapply modpi_run. Qed.

Lemma unlockpi_run s Q : live true s → Q tt (set_pi (set_pi_locked false (pi s)) s) → runs unlockpi s Q.
Proof. intros H HQ. unfold unlockpi. mstep. eapply getpi_run; [done|]. rewrite (lv_locked _ _ H). by eapply modpi_run. Qed.

Lemma live_lock l l' s : live l s → live l' (set_pi (set_pi_locked l' (pi s)) s).
Proof. intros [? ? []]. by split. Qed.

Lemma live_wake l s cs : live l s → live l (mk_pst (pi s) (pi_freed s) cs).
Proof. intros []. by split. Qed.

(** What is in the pipe afterwards, and the wakeups. *)
Record leaves (s : pst) (q : list Z) (cs : list pchan) (s' : pst) : Prop := {
  lf_live : live false s';
  lf_queue : queue (pi s') = q;
  lf_read : pi_readopen (pi s') = pi_readopen (pi s);
  lf_write : pi_writeopen (pi s') = pi_writeopen (pi s);
  lf_woken : woken s' = woken s ++ cs }.

Lemma wake_unlock_run {A} c (m : M pst A) s Q : live true s →
  (∀ s', leaves s (queue (pi s)) [c] s' → runs m s' Q) → runs (wakeup_pi c;; unlockpi;; m) s Q.
Proof.
  intros H HQ. unfold wakeup_pi. mstep. apply runs_modify. mstep. apply unlockpi_run; [by apply live_wake|].
  apply HQ. split; try done. exact (live_lock true false _ (live_wake _ _ _ H)).
Qed.

Lemma unlock_leaves s Q : live true s →
  (∀ s', leaves s (queue (pi s)) [] s' → Q tt s') → runs unlockpi s Q.
Proof.
  intros H HQ. apply unlockpi_run; [done|].
  apply HQ. split; try done; [by eapply live_lock|cbn; by rewrite app_nil_r].
Qed.

(** The bytes that fit. *)
Definition room (p : pipe) : nat := Z.to_nat (PIPESIZE - fill p).

Definition write_out (n i : Z) (k : nat) (killed : bool) (s : pst) : pout * list pchan :=
  if (k <=? room (pi s))%nat then (PRet n (i + Z.of_nat k), [NREAD])
  else if (pi_readopen (pi s) =? 0) || killed then (PRet (-1) (i + Z.of_nat (room (pi s))), [])
  else (PSleep NWRITE (i + Z.of_nat (room (pi s))), [NREAD]).

Lemma room_put x p : pipe_ok p → fill p < PIPESIZE → room p = S (room (put_byte x p)).
Proof. intros H Hf. unfold room. rewrite put_fill by done. lia. Qed.

Lemma write_from_run k : ∀ killed addr n i s, live true s → 0 ≤ i → (Z.to_nat i + k ≤ length addr)%nat →
  runs (write_from k killed addr n i) s (λ o s',
    o = (write_out n i k killed s).1 ∧
    leaves s (queue (pi s) ++ take (k `min` room (pi s)) (drop (Z.to_nat i) addr)) (write_out n i k killed s).2 s').
Proof.
  induction k as [|k IH]; intros killed addr n i s H Hi Hk; cbn [write_from].
  - apply wake_unlock_run; [done|]. intros s' L. apply runs_ret.
    unfold write_out. cbn. rewrite Z.add_0_r, app_nil_r. done.
  - mstep. eapply getpi_run; [done|]. rewrite full_fill by apply H. pose proof (lv_ok _ _ H) as Ho.
    destruct (Z.eqb_spec (fill (pi s)) PIPESIZE) as [Ef|Ef].
    + assert (Er : room (pi s) = 0%nat) by (unfold room; lia). unfold write_out. rewrite Er. cbn [Nat.leb Nat.min take]. rewrite app_nil_r, Z.add_0_r.
      destruct (_ || killed); [mstep|apply wake_unlock_run; [done|]].
      * apply unlock_leaves; [done|]. intros s' L. by apply runs_ret.
      * intros s' L. by apply runs_ret.
    + assert (Hf : fill (pi s) < PIPESIZE) by (pose proof (po_fill _ Ho); lia).
      destruct (lookup_lt_is_Some_2 addr (Z.to_nat i) ltac:(lia)) as [x Hx].
      mstep. apply (runs_oget _ x); [unfold nthZ; by rewrite (proj2 (Z.ltb_ge i 0)) by lia|].
      mstep. eapply modpi_run; [done|]. set (s1 := set_pi (put_byte x (pi s)) s).
      assert (H1 : live true s1) by (split; try apply H; by apply put_ok).
      eapply runs_mono; [apply (IH killed addr n (i + 1) s1); [done|lia|lia]|]. intros o s' [-> L].
      assert (E : write_out n (i + 1) k killed s1 = write_out n i (S k) killed s).
      { unfold write_out. cbn [pi s1 set_pi]. rewrite (room_put x _ Ho Hf). cbn [Nat.leb pi_readopen put_byte].
        by rewrite !Nat2Z.inj_succ, <-!Z.add_1_l, !Z.add_assoc. }
      rewrite E in *. split; [done|]. destruct L as [L1 L2 L3 L4 L5]. split; try done. rewrite L2. cbn [pi s1 set_pi].
      rewrite put_queue by done. rewrite (room_put x _ Ho Hf). cbn [Nat.min]. rewrite <-app_assoc. f_equal.
      rewrite (drop_S _ _ _ Hx). cbn. replace (Z.to_nat (i + 1)) with (S (Z.to_nat i)) by lia. done.
Qed.

Lemma pipewrite_run killed addr i s : live false s → 0 ≤ i ≤ Z.of_nat (length addr) →
  let n := Z.of_nat (length addr) in let k := Z.to_nat (n - i) in
  runs (pipewrite killed addr n i) s (λ o s',
    o = (write_out n i k killed s).1 ∧
    leaves s (queue (pi s) ++ take (k `min` room (pi s)) (drop (Z.to_nat i) addr)) (write_out n i k killed s).2 s').
Proof.
  intros H Hi n k. unfold pipewrite. mstep. apply lockpi_run; [done|].
  eapply runs_mono; [apply write_from_run; [by eapply live_lock|lia|lia]|]. intros o s' [-> [L1 L2 L3 L4 L5]].
  split; [done|]. by split.
Qed.

Lemma queue_nil p : pipe_ok p → (fill p =? 0) = bool_decide (queue p = []).
Proof.
  intros H. pose proof (queue_length p) as Hl. destruct (queue p) eqn:E; cbn in Hl.
  - rewrite bool_decide_true by done. lia.
  - rewrite bool_decide_false by done. lia.
Qed.

Lemma read_copy_run k : ∀ i acc s, live true s →
  runs (read_copy k i acc) s (λ '(j, bs) s',
    let m := (k `min` length (queue (pi s)))%nat in
    j = i + Z.of_nat m ∧ bs = acc ++ take m (queue (pi s)) ∧ live true s' ∧ queue (pi s') = drop m (queue (pi s)) ∧
    pi_readopen (pi s') = pi_readopen (pi s) ∧ pi_writeopen (pi s') = pi_writeopen (pi s) ∧ woken s' = woken s).
Proof.
  induction k as [|k IH]; intros i acc s H; cbn [read_copy].
  - apply runs_ret. cbn. rewrite app_nil_r, drop_0. split_and!; try done. lia.
  - mstep. eapply getpi_run; [done|]. pose proof (lv_ok _ _ H) as Ho. rewrite empty_fill by done.
    destruct (Z.eqb_spec (fill (pi s)) 0) as [Ef|Ef].
    + apply runs_ret. pose proof (queue_nil _ Ho) as En. rewrite Ef in En. symmetry in En. apply bool_decide_eq_true in En.
      rewrite En. cbn. rewrite app_nil_r. split_and!; try done. lia.
    + assert (Hf : 0 < fill (pi s)) by (pose proof (u32_range (pi_nwrite (pi s) - pi_nread (pi s))); unfold fill in *; lia).
      destruct (skip_queue _ Ho Hf) as (x & Hx & Eq). mstep. apply (runs_oget _ x); [done|].
      mstep. eapply modpi_run; [done|]. set (s1 := set_pi (skip_byte (pi s)) s).
      assert (H1 : live true s1) by (split; try apply H; by apply skip_ok).
      eapply runs_mono; [apply (IH (i + 1) (acc ++ [x]) s1 H1)|]. intros [j bs] s' (-> & -> & L1 & L2 & L3 & L4 & L5).
      cbn [pi s1 set_pi] in *. rewrite Eq. cbn [length Nat.min take drop]. rewrite <-app_assoc. split_and!; try done. lia.
Qed.

Definition read_out (n : Z) (killed : bool) (s : pst) : pout * list Z * list pchan :=
  let q := queue (pi s) in
  let m := (Z.to_nat n `min` length q)%nat in
  if bool_decide (q = []) && negb (pi_writeopen (pi s) =? 0) then
    (if killed then PRet (-1) 0 else PSleep NREAD 0, [], [])
  else (PRet (Z.of_nat m) (Z.of_nat m), take m q, [NWRITE]).

Lemma piperead_run killed n s : live false s →
  runs (piperead killed n) s (λ r s',
    r = (read_out n killed s).1 ∧ leaves s (drop (length (read_out n killed s).1.2) (queue (pi s))) (read_out n killed s).2 s').
Proof.
  intros H. unfold piperead, read_out. mstep. apply lockpi_run; [done|]. set (s1 := set_pi _ s).
  assert (H1 : live true s1) by by eapply live_lock. mstep. eapply getpi_run; [done|].
  rewrite empty_fill by apply H1. rewrite queue_nil by apply H1. change (queue (pi s1)) with (queue (pi s)).
  change (pi_writeopen (pi s1)) with (pi_writeopen (pi s)). destruct (_ && _).
  - destruct killed; mstep; (apply unlock_leaves; [done|]); intros s' [L1 L2 L3 L4 L5]; apply runs_ret; (split; [done|by split]).
  - mstep. eapply runs_mono; [by apply read_copy_run|]. intros [j bs] s2 (-> & -> & L1 & L2 & L3 & L4 & L5).
    apply wake_unlock_run; [done|]. intros s' [K1 K2 K3 K4 K5]. apply runs_ret. cbn [fst snd].
    change (queue (pi s1)) with (queue (pi s)) in *. rewrite Z.add_0_l. split; [done|].
    split; [done| |by rewrite K3, L3|by rewrite K4, L4|by rewrite K5, L5].
    rewrite K2, L2, length_take. f_equal. lia.
Qed.

Lemma pipeclose_run w s : live false s →
  runs (pipeclose w) s (λ _ s',
    pi s' = (if w then set_pi_writeopen 0 else set_pi_readopen 0) (pi s) ∧
    woken s' = woken s ++ [if w then NREAD else NWRITE] ∧
    pi_freed s' = (pi_readopen (pi s') =? 0) && (pi_writeopen (pi s') =? 0)).
Proof.
  intros H. unfold pipeclose. mstep. apply lockpi_run; [done|]. set (s1 := set_pi _ s).
  assert (H1 : live true s1) by by eapply live_lock.
  set (f := if w then set_pi_writeopen 0 else set_pi_readopen 0). set (c := if w then NREAD else NWRITE).
  set (s2 := mk_pst (f (pi s1)) (pi_freed s) (woken s ++ [c])).
  assert (H2 : live true s2) by (destruct H1 as [? ? []], w; by split).
  mstep. eapply (runs_mono _ _ (λ _ x, x = s2)).
  { destruct w; mstep; (eapply modpi_run; [done|]); unfold wakeup_pi; by apply runs_modify. }
  intros _ ? ->. mstep. eapply getpi_run; [done|].
  assert (Hp : set_pi_locked false (f (pi s1)) = f (pi s)).
  { pose proof (lv_locked _ _ H) as Hl. subst f. unfold s1. destruct s as [[]]. cbn in *. subst. by destruct w. }
  destruct (_ && _) eqn:E; [mstep|]; (apply unlockpi_run; [done|]); [apply runs_modify|]; cbn in *; split_and!; try done.
  by rewrite (lv_freed _ _ H), E.
Qed.

(** * All the processes together *)

Definition chan_for (write : bool) : pchan := if write then NWRITE else NREAD.

Definition call_in (c : pcall) : Prop := match c with CWrite addr i => 0 ≤ i ≤ Z.of_nat (length addr) | CRead n => 0 ≤ n end.

(** What a process that sleeps on the channel waits for has not happened: its end of
    the pipe is full or empty, and the other end is open; [g] when a writer has given
    up. *)
Definition waits (ch : pchan) (p : pipe) (g : bool) : Prop :=
  match ch with
  | NREAD => (queue p = [] ∨ g = true) ∧ pi_writeopen p ≠ 0
  | NWRITE => length (queue p) = 512%nat ∧ pi_readopen p ≠ 0
  end.

Record seg_post (c : pcall) (killed : bool) (s : pst) (o : pout) (bs : list Z) (s' : pst) : Prop := {
  sp_live : live false s';
  sp_bytes : queue (pi s) ++ put_by c o = bs ++ queue (pi s');
  sp_read : pi_readopen (pi s') = pi_readopen (pi s);
  sp_write : pi_writeopen (pi s') = pi_writeopen (pi s);
  sp_sleep : ∀ ch i, o = PSleep ch i → killed = false ∧ ch = chan_for (is_write c) ∧ waits ch (pi s') false ∧
    match c with CWrite addr _ => 0 ≤ i ≤ Z.of_nat (length addr) | CRead _ => True end;
  sp_others : ∀ ch g, waits ch (pi s) g → ch ∉ woken s' → waits ch (pi s') (gaveup c o g) }.

Lemma length_room p : pipe_ok p → (length (queue p) + room p = 512)%nat.
Proof. intros H. pose proof (queue_length p). pose proof (po_fill p H). unfold room, PIPESIZE in *. lia. Qed.

Lemma write_segment addr i killed s : live false s → woken s = [] → call_in (CWrite addr i) →
  runs (segment (CWrite addr i) killed) s (λ '(o, bs) s', seg_post (CWrite addr i) killed s o bs s' ∧ bs = [] ∧
    let k := Z.to_nat (Z.of_nat (length addr) - i) in
    (o, woken s') = write_out (Z.of_nat (length addr)) i k killed s ∧
    queue (pi s') = queue (pi s) ++ take (k `min` room (pi s)) (drop (Z.to_nat i) addr)).
Proof.
  intros H Hw Hi. cbn [segment call_in] in *. mstep. eapply runs_mono; [by apply pipewrite_run|].
  intros o s' [Eo [L1 L2 L3 L4 L5]]. apply runs_ret. rewrite Hw in L5. cbn in L5. set (n := Z.of_nat (length addr)) in *.
  set (k := Z.to_nat (n - i)) in *. pose proof (length_room _ (lv_ok _ _ H)) as Hr. split; [|split_and!; [done|by rewrite Eo, L5; destruct (write_out _ _ _ _ _)|done]].
  assert (Hlen : length (queue (pi s')) = (length (queue (pi s)) + k `min` room (pi s))%nat).
  { rewrite L2, length_app, length_take, length_drop. lia. }
  unfold write_out in *. split; try done.
  - rewrite L2. cbn [app put_by]. do 2 f_equal. rewrite Eo.
    destruct (Nat.leb_spec k (room (pi s))); cbn; [lia|]. destruct (_ || _); cbn; lia.
  - intros ch j ->. destruct (Nat.leb_spec k (room (pi s))); [done|]. destruct (_ || _) eqn:E; [done|]. cbn in Eo.
    injection Eo as -> ->. apply orb_false_iff in E as [E ->]. apply Z.eqb_neq in E. cbn. rewrite L3, Hlen. split_and!; try done; lia.
  - intros ch g Hc Hn. destruct ch; cbn in *; rewrite ?L3, ?L4.
    + split; [|apply Hc]. right. rewrite Eo. rewrite L5 in Hn. destruct (_ <=? _)%nat; [set_solver|]. destruct (_ || _); [done|set_solver].
    + split; [|apply Hc]. lia.
Qed.

Lemma read_segment n killed s : live false s → woken s = [] →
  runs (segment (CRead n) killed) s (λ '(o, bs) s', seg_post (CRead n) killed s o bs s' ∧ ((o, bs), woken s') = read_out n killed s).
Proof.
  intros H Hw. cbn [segment]. eapply runs_mono; [by apply piperead_run|]. intros [o bs] s' [Eo [L1 L2 L3 L4 L5]].
  rewrite Hw in L5. cbn in L5. split; [|by rewrite Eo, L5; destruct (read_out _ _ _)]. unfold read_out in *.
  destruct (bool_decide _ && _) eqn:E; cbn [fst snd] in *.
  - apply andb_true_iff in E as [E1%bool_decide_eq_true E2%negb_true_iff%Z.eqb_neq]. injection Eo as Eo ->. cbn in L2.
    rewrite drop_0 in L2. split; try done.
    + cbn. by rewrite L2, app_nil_r.
    + intros ch i ->. destruct killed; [done|]. injection Eo as -> ->. cbn. rewrite L2, L4. naive_solver.
    + intros ch g Hc _. destruct ch; cbn in *; by rewrite ?L2, ?L3, ?L4.
  - injection Eo as -> ->. rewrite length_take in L2.
    replace (Z.to_nat n `min` length (queue (pi s)) `min` length (queue (pi s)))%nat with (Z.to_nat n `min` length (queue (pi s)))%nat in L2 by lia.
    split; try done.
    + cbn [put_by]. by rewrite app_nil_r, L2, take_drop.
    + intros ch g Hc Hn. rewrite L5 in Hn. destruct ch; [|set_solver]. cbn in *. rewrite L4. split; [|apply Hc].
      destruct Hc as [[Hq|Hq] _]; [left|by right]. by rewrite L2, Hq, drop_nil.
Qed.

Lemma segment_run c killed s : live false s → woken s = [] → call_in c →
  runs (segment c killed) s (λ '(o, bs) s', seg_post c killed s o bs s').
Proof.
  intros H Hw Hc. destruct c as [addr i|n].
  - eapply runs_mono; [by apply write_segment|]. by intros [o bs] s' [? _].
  - eapply runs_mono; [by apply read_segment|]. by intros [o bs] s' [? _].
Qed.

Record thread_ok (p : pipe) (g : bool) (t : thread) : Prop := {
  th_call : ∀ c, t_call t = Some c → call_in c ∧ end_open (is_write c) p;
  th_wait : ∀ ch, t_wait t = Some ch → waits ch p g ∧ ∃ c, t_call t = Some c ∧ ch = chan_for (is_write c) }.

Record winv (w : world) : Prop := {
  wi_ok : pipe_ok (pi (w_pipe w));
  wi_lock : pi_locked (pi (w_pipe w)) = false;
  wi_freed : pi_freed (w_pipe w) = (pi_readopen (pi (w_pipe w)) =? 0) && (pi_writeopen (pi (w_pipe w)) =? 0);
  wi_threads : Forall (thread_ok (pi (w_pipe w)) (w_gaveup w)) (w_threads w);
  wi_fifo : w_in w = w_out w ++ queue (pi (w_pipe w)) }.

Lemma winv_live w b : winv w → end_open b (pi (w_pipe w)) → live false (at_rest (w_pipe w)).
Proof.
  intros H Hb. split; [|apply H..]. cbn. rewrite (wi_freed _ H). apply andb_false_iff. unfold end_open in Hb.
  destruct b; [right|left]; by apply Z.eqb_neq.
Qed.

Lemma wake_ok p g p' g' cs t : thread_ok p g t → pi_readopen p' = pi_readopen p → pi_writeopen p' = pi_writeopen p →
  (∀ ch, waits ch p g → ch ∉ cs → waits ch p' g') → thread_ok p' g' (wake cs t).
Proof.
  intros [H1 H2] Hr Hw Hk. unfold wake. destruct (t_wait t) as [ch|] eqn:E.
  - destruct (H2 ch eq_refl) as [Hwt Hc]. destruct (decide (ch ∈ cs)).
    + split; cbn; [|done]. intros c E'. unfold end_open. rewrite Hr, Hw. by apply H1.
    + split; [intros c E'; unfold end_open; rewrite Hr, Hw; by apply H1|]. rewrite E. intros ? [= <-]. split; [by apply Hk|done].
  - split; [intros c E'; unfold end_open; rewrite Hr, Hw; by apply H1|]. by rewrite E.
Qed.

Lemma run_thread_ok i t c w : winv w → w_threads w !! i = Some t → t_call t = Some c →
  ∃ o bs s', run_thread i t c w = Ok (mk_world s' (<[i := after c o t]> (wake (woken s') <$> w_threads w))
            (w_in w ++ put_by c o) (w_out w ++ bs) (gaveup c o (w_gaveup w))) ∧
    segment c (t_killed t) (at_rest (w_pipe w)) = Ok ((o, bs), s') ∧
    seg_post c (t_killed t) (at_rest (w_pipe w)) o bs s'.
Proof.
  intros H Ht Hc. destruct (th_call _ _ _ (Forall_lookup_1 _ _ _ _ (wi_threads _ H) Ht) c Hc) as [Hi Ho].
  destruct (segment_run c (t_killed t) (at_rest (w_pipe w)) (winv_live _ _ H Ho) eq_refl Hi) as ([o bs] & s' & E & Hp).
  exists o, bs, s'. unfold run_thread. by rewrite E.
Qed.

Lemma after_ok c o killed s bs s' t g : seg_post c killed s o bs s' → t_killed t = killed → call_in c → end_open (is_write c) (pi s) →
  thread_ok (pi s') (gaveup c o g) (after c o t).
Proof.
  intros P Hk Hc Ho. assert (Ho' : end_open (is_write c) (pi s')) by (unfold end_open; by rewrite (sp_read _ _ _ _ _ _ P), (sp_write _ _ _ _ _ _ P)).
  destruct o as [r j|ch j]; [by split|].
  destruct (sp_sleep _ _ _ _ _ _ P ch j eq_refl) as (_ & -> & Hw & Hj). split; cbn.
  - intros c' [= <-]. by destruct c.
  - intros ? [= <-]. split; [|by eexists; split; [done|]; destruct c]. by destruct c; cbn in *; [|naive_solver].
Qed.

Lemma winv_run i t c w w' : winv w → w_threads w !! i = Some t → t_call t = Some c → run_thread i t c w = Ok w' → winv w'.
Proof.
  intros H Ht Hc E. destruct (run_thread_ok i t c w H Ht Hc) as (o & bs & s' & E' & _ & P). rewrite E' in E. injection E as <-.
  pose proof (sp_live _ _ _ _ _ _ P) as [Lf Ll Lo]. pose proof (sp_read _ _ _ _ _ _ P) as Pr. pose proof (sp_write _ _ _ _ _ _ P) as Pw.
  destruct (th_call _ _ _ (Forall_lookup_1 _ _ _ _ (wi_threads _ H) Ht) c Hc) as [Hi Ho]. cbn in Pr, Pw.
  split; cbn; try done.
  - rewrite Lf, Pr, Pw, <-(wi_freed _ H). symmetry. by apply (winv_live _ _ H Ho).
  - apply Forall_insert; [|by eapply after_ok]. apply Forall_fmap. eapply Forall_impl; [apply H|]. intros t' Ht'.
    eapply wake_ok; [done..|]. intros ch Hch Hn. by apply (sp_others _ _ _ _ _ _ P).
  - rewrite (wi_fifo _ H), <-!app_assoc. f_equal. apply (sp_bytes _ _ _ _ _ _ P).
Qed.

Lemma winv_close b w w' : winv w → end_open b (pi (w_pipe w)) →
  (∀ i t c, w_threads w !! i = Some t → t_call t = Some c → is_write c ≠ b) → close_end b w = Ok w' → winv w'.
Proof.
  intros H Hb Hn E. unfold close_end in E. destruct (pipeclose_run b _ (winv_live _ _ H Hb)) as ([] & s' & Es & Ep & Ew & Ef).
  rewrite Es in E. injection E as <-. cbn in Ep, Ew. split; cbn; try done.
  - rewrite Ep. destruct (wi_ok _ H). by destruct b.
  - rewrite Ep. destruct b; apply H.
  - apply Forall_fmap, Forall_lookup. intros i t Ht. cbn. pose proof (Forall_lookup_1 _ _ _ _ (wi_threads _ H) Ht) as [H1 H2].
    assert (Hc : ∀ c, t_call t = Some c → call_in c ∧ end_open (is_write c) (pi s')).
    { intros c Hc. specialize (Hn _ _ _ Ht Hc). specialize (H1 c Hc). rewrite Ep. unfold end_open in *. destruct b, (is_write c); naive_solver. }
    unfold wake. destruct (t_wait t) as [ch|] eqn:Et; [|by split; [|rewrite Et]].
    destruct (decide _) as [Hd|Hd]; [by split|]. split; [done|]. rewrite Et. intros ? [= <-]. destruct (H2 ch eq_refl) as [Hw Hx].
    split; [|done]. destruct Hx as (c & Hc1 & ->). specialize (Hn _ _ _ Ht Hc1). rewrite Ew in Hd. destruct b, (is_write c); cbn in *; set_solver.
  - rewrite Ep. rewrite (wi_fifo _ H). by destruct b.
Qed.

Lemma winv_step w w' : pstep w w' → winv w → winv w'.
Proof.
  intros Hs H. destruct Hs as [i t c Ht Hc Hi Ho|i t c w' Ht Hc Hw E|i t Ht|b w' Hb Hn E].
  - split; try apply H. cbn. apply Forall_insert; [apply H|]. split; cbn; [|done]. intros ? [= <-]. split; [|done].
    destruct c; cbn in *; lia.
  - by eapply winv_run.
  - split; try apply H. cbn. apply Forall_insert; [apply H|].
    destruct (Forall_lookup_1 _ _ _ _ (wi_threads _ H) Ht) as [H1 _]. by split.
  - by eapply winv_close.
Qed.

Lemma winv_new junk n : length junk = 512%nat → winv (world_new junk n).
Proof. intros H. split; try done. by apply Forall_replicate. Qed.

Lemma winv_reach junk n w : length junk = 512%nat → rtc pstep (world_new junk n) w → winv w.
Proof. intros H. apply rtc_inv; [by apply winv_new|]. intros. by eapply winv_step. Qed.
