(* ===== verification/Pipeline.v ===== *)
(** The theorems on pipes, and two programs that a pipe connects: one writes and closes
    its end, the other reads until the end of the data. *)
From Stdlib Require Import ZArith Lia Bool.
From stdpp Require Import base tactics list list_numbers strings relations.
From S2P Require Import Prelude Machine Pipe.

(** C22. A pipe is a first-in first-out queue of at most PIPESIZE bytes, for any number
    of processes that read, write, are killed and close their ends in any order: the
    bytes written so far are the bytes read so far followed by what the ring buffer
    holds, also when the 32-bit counters wrap around; and no part of a call panics or
    touches a pipe that has been freed. *)
Theorem pipe_fifo (junk : list Z) (n : nat) (w : world) (Hj : length junk = 512%nat) (Hr : rtc pstep (world_new junk n) w) :
  w_in w = w_out w ++ queue (pi (w_pipe w)) ∧ Z.of_nat (length (queue (pi (w_pipe w)))) ≤ PIPESIZE ∧
  (∀ i t c, w_threads w !! i = Some t → t_call t = Some c → ∃ w', run_thread i t c w = Ok w').
Proof.
  pose proof (winv_reach _ _ _ Hj Hr) as H. split; [apply H|]. split.
  - rewrite queue_length. apply (po_fill _ (wi_ok _ H)).
  - intros i t c Ht Hc. destruct (run_thread_ok i t c w H Ht Hc) as (o & bs & s' & E & _). eauto.
Qed.

(** C23. No process sleeps through what it waits for: a writer that sleeps finds the pipe
    full and its read end open; a reader that sleeps finds the write end open and the
    pipe empty, unless a writer has given up since the readers were last woken. So a
    reader and a writer never wait for each other. *)
Theorem pipe_no_lost_wakeup (junk : list Z) (n : nat) (w : world) (Hj : length junk = 512%nat)
  (Hr : rtc pstep (world_new junk n) w) :
  (∀ i t, w_threads w !! i = Some t → t_wait t = Some NWRITE →
     length (queue (pi (w_pipe w))) = 512%nat ∧ pi_readopen (pi (w_pipe w)) ≠ 0) ∧
  (∀ i t, w_threads w !! i = Some t → t_wait t = Some NREAD →
     pi_writeopen (pi (w_pipe w)) ≠ 0 ∧ (queue (pi (w_pipe w)) = [] ∨ w_gaveup w = true)) ∧
  (∀ i t i' t', w_threads w !! i = Some t → t_wait t = Some NWRITE → w_threads w !! i' = Some t' → t_wait t' = Some NREAD →
     w_gaveup w = true).
Proof.
  pose proof (wi_threads _ (winv_reach _ _ _ Hj Hr)) as H. rewrite Forall_lookup in H.
  assert (Hw : ∀ i t, w_threads w !! i = Some t → t_wait t = Some NWRITE → length (queue (pi (w_pipe w))) = 512%nat ∧ pi_readopen (pi (w_pipe w)) ≠ 0).
  { intros i t Ht Hc. by destruct (th_wait _ _ _ (H i t Ht) _ Hc) as [? _]. }
  assert (Hd : ∀ i t, w_threads w !! i = Some t → t_wait t = Some NREAD → pi_writeopen (pi (w_pipe w)) ≠ 0 ∧ (queue (pi (w_pipe w)) = [] ∨ w_gaveup w = true)).
  { intros i t Ht Hc. by destruct (th_wait _ _ _ (H i t Ht) _ Hc) as [[] _]. }
  split_and!; [done..|]. intros i t i' t' Ht Hc Ht' Hc'. destruct (Hd _ _ Ht' Hc') as [_ [E|E]]; [|done].
  destruct (Hw _ _ Ht Hc) as [El _]. by rewrite E in El.
Qed.

(** ** A writer that is killed *)

Definition stranded : world :=
  mk_world (mk_pst (mk_pipe false (replicate 512 7) 0 512 1 1) false [])
    [mk_thread (Some (CRead 1)) (Some NREAD) false 0; mk_thread None None true (-1)] (replicate 512 7) [] true.

Lemma stranded_reach : rtc pstep (world_new (replicate 512 1) 2) stranded.
Proof.
  eapply rtc_l; [by apply (ps_begin _ 0 (mk_thread None None false 0) (CRead 1))|].
  eapply rtc_l; [by eapply (ps_run _ 0 (mk_thread (Some (CRead 1)) None false 0) (CRead 1)); vm_compute|].
  eapply rtc_l; [by apply (ps_begin _ 1 (mk_thread None None false 0) (CWrite (replicate 513 7) 0))|].
  eapply rtc_l; [by eapply (ps_kill _ 1)|].
  eapply rtc_l; [by eapply (ps_run _ 1 (mk_thread (Some (CWrite (replicate 513 7) 0)) None true 0) (CWrite (replicate 513 7) 0)); vm_compute|].
  apply rtc_refl.
Qed.

(** The exception is real. A killed process that fills the pipe returns from
    pipewrite without a wakeup of the readers: a reader sleeps on while the pipe is
    full, the write end is open, and no call is in progress that would wake it. *)
Theorem killed_writer_strands_reader :
  rtc pstep (world_new (replicate 512 1) 2) stranded ∧
  t_wait <$> w_threads stranded !! 0%nat = Some (Some NREAD) ∧ length (queue (pi (w_pipe stranded))) = 512%nat ∧
  pi_writeopen (pi (w_pipe stranded)) ≠ 0 ∧ t_call <$> w_threads stranded !! 1%nat = Some None.
Proof. split; [apply stranded_reach|by vm_compute]. Qed.

(** * A pipeline *)

(** Process 0 writes and then closes its end of the pipe; process 1 reads [m] bytes at
    a time until read returns 0. The phase of the writer is 2 while it writes, 1 when it
    is about to close, 0 at its end. *)
Record pipeline := mk_pl { pl_w : world; pl_phase : nat; pl_eof : bool }.

Definition with_thread (i : nat) (t : thread) (w : world) : world :=
  mk_world (w_pipe w) (<[i := t]> (w_threads w)) (w_in w) (w_out w) (w_gaveup w).

Inductive plstep (m : Z) (x : pipeline) : pipeline → Prop :=
  | pl_write t c w' t' : w_threads (pl_w x) !! 0%nat = Some t → t_call t = Some c → t_wait t = None →
      run_thread 0 t c (pl_w x) = Ok w' → w_threads w' !! 0%nat = Some t' →
      plstep m x (mk_pl w' (match t_call t' with Some _ => 2 | None => 1 end) (pl_eof x))
  | pl_close w' : pl_phase x = 1%nat → close_end true (pl_w x) = Ok w' → plstep m x (mk_pl w' 0 (pl_eof x))
  | pl_read t c w' t' : w_threads (pl_w x) !! 1%nat = Some t → t_call t = Some c → t_wait t = None →
      run_thread 1 t c (pl_w x) = Ok w' → w_threads w' !! 1%nat = Some t' →
      plstep m x
        (match t_call t' with
         | Some _ => mk_pl w' (pl_phase x) (pl_eof x)
         | None => if t_ret t' =? 0 then mk_pl w' (pl_phase x) true
                   else mk_pl (with_thread 1 (mk_thread (Some (CRead m)) None (t_killed t') (t_ret t')) w') (pl_phase x) (pl_eof x)
         end).

(** Both have made their first call. *)
Definition pl_new (junk w : list Z) (m : Z) : pipeline :=
  mk_pl (mk_world (mk_pst (pipe_new junk) false [])
    [mk_thread (Some (CWrite w 0)) None false 0; mk_thread (Some (CRead m)) None false 0] [] [] false) 2 false.

Definition ready (t : thread) : nat := match t_call t, t_wait t with Some _, None => 1 | _, _ => 0 end.

Section pipeline.
  Context (w : list Z) (m : Z).
  Hypothesis Hm : 0 < m.

(** The writer in its phase. *)
Definition writer_at (x : pipeline) (t : thread) : Prop :=
  match pl_phase x with
  | 2%nat => ∃ i, t_call t = Some (CWrite w i) ∧ 0 ≤ i ≤ Z.of_nat (length w) ∧ w_in (pl_w x) = take (Z.to_nat i) w
  | _ => t_call t = None ∧ w_in (pl_w x) = w
  end.

Record plinv (x : pipeline) (t0 t1 : thread) : Prop := {
  pn_winv : winv (pl_w x);
  pn_threads : w_threads (pl_w x) = [t0; t1];
  pn_alive : t_killed t0 = false ∧ t_killed t1 = false;
  pn_calm : w_gaveup (pl_w x) = false;
  pn_reader : pi_readopen (pi (w_pipe (pl_w x))) ≠ 0;
  pn_phase : (pl_phase x ≤ 2)%nat;
  pn_close : pi_writeopen (pi (w_pipe (pl_w x))) = 0 ↔ pl_phase x = 0%nat;
  pn_writer : writer_at x t0;
  pn_call : if pl_eof x then t_call t1 = None ∧ pl_phase x = 0%nat ∧ queue (pi (w_pipe (pl_w x))) = []
            else t_call t1 = Some (CRead m) }.

Definition measure (x : pipeline) (t0 t1 : thread) : nat :=
  3 * (length w - length (w_in (pl_w x))) + 2 * length (queue (pi (w_pipe (pl_w x)))) + ready t0 + ready t1 + 2 * pl_phase x.

Lemma plinv_new junk : length junk = 512%nat →
  plinv (pl_new junk w m) (mk_thread (Some (CWrite w 0)) None false 0) (mk_thread (Some (CRead m)) None false 0).
Proof.
  intros Hj. split; try done.
  - split; try done. apply Forall_cons; split; [|apply Forall_singleton]; split; cbn; try done; intros ? [= <-]; (split; [cbn; lia|done]).
  - exists 0. cbn. split_and!; [done|lia|lia|done].
Qed.

Lemma wake_call cs t : t_call (wake cs t) = t_call t.
Proof. unfold wake. by repeat case_match. Qed.

Lemma wake_killed cs t : t_killed (wake cs t) = t_killed t.
Proof. unfold wake. by repeat case_match. Qed.

Lemma ready_le t : (ready t ≤ 1)%nat.
Proof. unfold ready. repeat case_match; lia. Qed.

(** A reader only sleeps when the pipe is empty. *)
Lemma reader_awake x t0 t1 cs : plinv x t0 t1 → queue (pi (w_pipe (pl_w x))) ≠ [] → wake cs t1 = t1.
Proof.
  intros H Hq. unfold wake. destruct (t_wait t1) as [ch|] eqn:E; [|done].
  pose proof (wi_threads _ (pn_winv _ _ _ H)) as Ht. rewrite (pn_threads _ _ _ H) in Ht. apply Forall_cons in Ht as [_ Ht].
  apply Forall_cons in Ht as [Ht _]. destruct (th_wait _ _ _ Ht ch E) as (Hw & c & Hc & ->).
  pose proof (pn_call _ _ _ H) as Hr. destruct (pl_eof x); [naive_solver|]. rewrite Hr in Hc. injection Hc as <-.
  destruct Hw as [[Hw|Hw] _]; [done|]. by rewrite (pn_calm _ _ _ H) in Hw.
Qed.

(** Phase 2 of the writer. *)
Lemma writing x t0 t1 c : plinv x t0 t1 → t_call t0 = Some c →
  pl_phase x = 2%nat ∧ live false (at_rest (w_pipe (pl_w x))) ∧ pl_eof x = false ∧
  ∃ i, c = CWrite w i ∧ 0 ≤ i ≤ Z.of_nat (length w) ∧ w_in (pl_w x) = take (Z.to_nat i) w.
Proof.
  intros H Hc. pose proof (pn_writer _ _ _ H) as Hw. unfold writer_at in Hw. pose proof (pn_phase _ _ _ H) as Hp.
  assert (Hph : pl_phase x = 2%nat) by (destruct (pl_phase x) as [|[|[|]]]; naive_solver lia).
  rewrite Hph in Hw. destruct Hw as (i & Hc' & Hi & Hin). rewrite Hc in Hc'. injection Hc' as ->. split_and!; [done| | |eauto].
  - apply (winv_live _ true); [apply H|]. intros E%(pn_close _ _ _ H). lia.
  - pose proof (pn_call _ _ _ H) as Hr. destruct (pl_eof x); [|done]. lia.
Qed.

(** A part of the write puts bytes in and ends the call or sleeps. *)
Lemma write_facts x t0 t1 i o bs s' : plinv x t0 t1 → live false (at_rest (w_pipe (pl_w x))) → 0 ≤ i ≤ Z.of_nat (length w) →
  segment (CWrite w i) false (at_rest (w_pipe (pl_w x))) = Ok ((o, bs), s') →
  let q := queue (pi (w_pipe (pl_w x))) in
  let k := Z.to_nat (Z.of_nat (length w) - i) in
  ∃ r, woken s' = [NREAD] ∧ bs = [] ∧ length (queue (pi s')) = (length q + r)%nat ∧ (r ≤ k)%nat ∧
    ((o = PRet (Z.of_nat (length w)) (Z.of_nat (length w)) ∧ r = k) ∨
     (o = PSleep NWRITE (i + Z.of_nat r) ∧ (length q + r = 512)%nat)).
Proof.
  intros H Hl Hi Es q k. destruct (runs_Ok _ _ _ _ _ (write_segment w i false _ Hl eq_refl Hi) Es) as (P & -> & Eo & Eq).
  pose proof (length_room _ (lv_ok _ _ Hl)) as Hr. cbn in Hr, Eq, Eo. fold q in Hr, Eq. fold k in Eo, Eq.
  set (r := room (pi (w_pipe (pl_w x)))) in *. exists (k `min` r)%nat. unfold write_out in Eo. cbn in Eo. fold r in Eo.
  assert (length (queue (pi s')) = (length q + k `min` r)%nat) as Elen by (rewrite Eq, length_app, length_take, length_drop; lia).
  destruct (Nat.leb_spec k r); [injection Eo as -> ->|].
  - split_and!; [done|done|done|lia|]. left. split; [f_equal; lia|lia].
  - rewrite (proj2 (Z.eqb_neq _ _) (pn_reader _ _ _ H)) in Eo. injection Eo as -> ->. split_and!; [done|done|done|lia|]. right.
    split; [do 2 f_equal; lia|lia].
Qed.

Lemma gaveup_ret l i n j g : 0 ≤ n → gaveup (CWrite l i) (PRet n j) g = false.
Proof. intros Hn. destruct n as [|p|p]; [done|done|lia]. Qed.

(** The world after a part of the write. *)
Record wrote_part (x : pipeline) (t0 t1 : thread) (w' : world) (t' : thread) (r : nat) : Prop := {
  wt_winv : winv w';
  wt_threads : w_threads w' = [t'; wake [NREAD] t1];
  wt_killed : t_killed t' = false;
  wt_calm : w_gaveup w' = false;
  wt_opens : pi_readopen (pi (w_pipe w')) = pi_readopen (pi (w_pipe (pl_w x))) ∧ pi_writeopen (pi (w_pipe w')) ≠ 0;
  wt_queue : length (queue (pi (w_pipe w'))) = (length (queue (pi (w_pipe (pl_w x)))) + r)%nat;
  wt_ready : ready t0 = 1%nat ∧ ready t' = 0%nat;
  wt_in : (length (w_in (pl_w x)) + r ≤ length w)%nat;
  wt_end : (t_call t' = None ∧ (length (w_in (pl_w x)) + r)%nat = length w ∧ w_in w' = w) ∨
    (∃ j, t_call t' = Some (CWrite w j) ∧ 0 ≤ j ≤ Z.of_nat (length w) ∧ w_in w' = take (Z.to_nat j) w ∧
       Z.to_nat j = (length (w_in (pl_w x)) + r)%nat ∧ length (queue (pi (w_pipe w'))) = 512%nat) }.

Lemma write_shape x t0 t1 c w' t' : plinv x t0 t1 → t_call t0 = Some c → t_wait t0 = None →
  run_thread 0 t0 c (pl_w x) = Ok w' → w_threads w' !! 0%nat = Some t' → ∃ r, wrote_part x t0 t1 w' t' r.
Proof.
  intros H Hc Hn E Et. pose proof (pn_threads _ _ _ H) as Hts. destruct (pn_alive _ _ _ H) as [Hk0 Hk1].
  destruct (writing x t0 t1 c H Hc) as (Hph & Hl & He & i & -> & Hi & Hin).
  assert (Ht0 : w_threads (pl_w x) !! 0%nat = Some t0) by by rewrite Hts.
  destruct (run_thread_ok 0 t0 _ _ (pn_winv _ _ _ H) Ht0 Hc) as (o & bs & s' & E' & Es & P).
  pose proof (winv_run _ _ _ _ _ (pn_winv _ _ _ H) Ht0 Hc E) as Hi'. rewrite E' in E. injection E as <-.
  rewrite Hts in Et. cbn in Et. injection Et as <-. rewrite Hk0 in Es, P.
  destruct (write_facts x t0 t1 i o bs s' H Hl Hi Es) as (r & Ew & -> & Eq & Hrk & Eo).
  assert (Hlen : length (w_in (pl_w x)) = Z.to_nat i) by (rewrite Hin, length_take; lia). exists r.
  split; cbn [w_pipe w_threads w_in w_gaveup]; try done.
  - rewrite Hts, Ew. done.
  - by destruct Eo as [[-> _]|[-> _]].
  - destruct Eo as [[-> _]|[-> _]]; [exact (gaveup_ret w i _ (Z.of_nat (length w)) (w_gaveup (pl_w x)) (Nat2Z.is_nonneg _))|done].
  - split; [apply (sp_read _ _ _ _ _ _ P)|]. rewrite (sp_write _ _ _ _ _ _ P). intros Ez%(pn_close _ _ _ H). lia.
  - unfold ready. rewrite Hc, Hn. by destruct Eo as [[-> _]|[-> _]].
  - lia.
  - destruct Eo as [[-> ->]|[-> Hf]]; [left|right]; cbn.
    + split_and!; [done|lia|]. rewrite Hin, take_ge with (l := drop _ _) by (rewrite length_drop; lia). apply take_drop.
    + exists (i + Z.of_nat r). split_and!; [done|lia|lia| |lia|lia]. rewrite Hin.
      rewrite <-(take_drop (Z.to_nat i) (take (Z.to_nat (i + Z.of_nat r)) w)), take_take, skipn_firstn_comm.
      f_equal; f_equal; lia.
Qed.

Lemma pl_write_step x t0 t1 c w' t' : plinv x t0 t1 → t_call t0 = Some c → t_wait t0 = None →
  run_thread 0 t0 c (pl_w x) = Ok w' → w_threads w' !! 0%nat = Some t' →
  let y := mk_pl w' (match t_call t' with Some _ => 2 | None => 1 end) (pl_eof x) in
  ∃ t1', plinv y t' t1' ∧ (measure y t' t1' < measure x t0 t1)%nat.
Proof.
  intros H Hc Hn E Et y. destruct (write_shape x t0 t1 c w' t' H Hc Hn E Et) as (r & W).
  destruct (writing x t0 t1 c H Hc) as (Hph & _ & He & _). destruct (pn_alive _ _ _ H) as [Hk0 Hk1].
  destruct W as [W1 W2 W3 W4 [W5 W6] W7 [W8 W9] W10 W11]. pose proof (pn_call _ _ _ H) as Hcall. rewrite He in Hcall.
  pose proof (ready_le (wake [NREAD] t1)) as Hr1. exists (wake [NREAD] t1). subst y. split.
  - split; cbn; try done; [by rewrite wake_killed|rewrite W5; apply H|by case_match; lia| | |by rewrite He, wake_call].
    + split; [done|]. by case_match.
    + unfold writer_at. cbn. destruct W11 as [(-> & _ & ?)|(j & -> & ? & ? & _)]; [done|]. by exists j.
  - unfold measure. cbn. rewrite W7, W8, W9, Hph. destruct W11 as [(-> & Hl & ->)|(j & -> & Hj & -> & Hl & Hf)].
    + lia.
    + rewrite length_take. destruct (decide (r = 0%nat)) as [->|]; [|lia].
      rewrite (reader_awake x t0 t1 [NREAD] H); [lia|]. intros Eq. rewrite Eq in W7. cbn in W7. lia.
Qed.

Lemma pl_close_step x t0 t1 w' : plinv x t0 t1 → pl_phase x = 1%nat → close_end true (pl_w x) = Ok w' →
  let y := mk_pl w' 0 (pl_eof x) in
  ∃ t0' t1', plinv y t0' t1' ∧ (measure y t0' t1' < measure x t0 t1)%nat.
Proof.
  intros H Hp E y. pose proof (pn_threads _ _ _ H) as Hts. destruct (pn_alive _ _ _ H) as [Hk0 Hk1].
  pose proof (pn_writer _ _ _ H) as Hw. unfold writer_at in Hw. rewrite Hp in Hw. destruct Hw as [Hc0 Hin].
  pose proof (pn_call _ _ _ H) as Hc1. destruct (pl_eof x) eqn:He; [lia|].
  assert (Ho : end_open true (pi (w_pipe (pl_w x)))) by (intros Ez%(pn_close _ _ _ H); lia).
  assert (Hi' : winv w').
  { eapply winv_close; [apply H|done| |done]. intros i t c Ht Hc Hb. rewrite Hts in Ht.
    destruct i as [|[|]]; [injection Ht as <-; congruence| |done]. injection Ht as <-. rewrite Hc1 in Hc. by injection Hc as <-. }
  unfold close_end in E. destruct (pipeclose_run true _ (winv_live _ _ (pn_winv _ _ _ H) Ho)) as ([] & s' & Es & Ep & Ew & Ef).
  rewrite Es in E. injection E as <-. cbn in Ew, Ep. exists (wake [NREAD] t0), (wake [NREAD] t1). subst y.
  pose proof (ready_le (wake [NREAD] t1)). split.
  - split; cbn; try done; rewrite ?Ep; cbn; rewrite ?wake_killed, ?wake_call; try done; [by rewrite Hts, Ew|apply H|lia].
  - unfold measure. cbn. rewrite Ep, Hp. cbn.
    assert (ready (wake [NREAD] t0) = 0%nat) as -> by (unfold ready; by rewrite wake_call, Hc0).
    change (queue (set_pi_writeopen 0 (pi (w_pipe (pl_w x))))) with (queue (pi (w_pipe (pl_w x)))). lia.
Qed.

(** The world after a part of a read: the reader sleeps on an empty pipe, or its call
    has returned. *)
Record read_part (x : pipeline) (t0 : thread) (w' : world) (t' t0' : thread) : Prop := {
  rp_winv : winv w';
  rp_threads : w_threads w' = [t0'; t'];
  rp_killed : t_killed t' = false ∧ t_killed t0' = false;
  rp_call0 : t_call t0' = t_call t0;
  rp_calm : w_gaveup w' = false;
  rp_opens : pi_readopen (pi (w_pipe w')) = pi_readopen (pi (w_pipe (pl_w x))) ∧
             pi_writeopen (pi (w_pipe w')) = pi_writeopen (pi (w_pipe (pl_w x)));
  rp_in : w_in w' = w_in (pl_w x);
  rp_end : (t_call t' = Some (CRead m) ∧ ready t' = 0%nat ∧ t0' = t0 ∧ queue (pi (w_pipe w')) = queue (pi (w_pipe (pl_w x)))) ∨
    (t_call t' = None ∧ t_ret t' = 0 ∧ queue (pi (w_pipe w')) = [] ∧ queue (pi (w_pipe (pl_w x))) = [] ∧ pl_phase x = 0%nat) ∨
    (t_call t' = None ∧ 0 < t_ret t' ∧ length (queue (pi (w_pipe (pl_w x)))) = (length (queue (pi (w_pipe w'))) + Z.to_nat (t_ret t'))%nat) }.

Lemma read_shape x t0 t1 c w' t' : plinv x t0 t1 → t_call t1 = Some c → t_wait t1 = None →
  run_thread 1 t1 c (pl_w x) = Ok w' → w_threads w' !! 1%nat = Some t' → pl_eof x = false ∧ ∃ t0', read_part x t0 w' t' t0'.
Proof.
  intros H Hc Hn E Et. pose proof (pn_threads _ _ _ H) as Hts. destruct (pn_alive _ _ _ H) as [Hk0 Hk1].
  pose proof (pn_call _ _ _ H) as Hcall. destruct (pl_eof x) eqn:He; [destruct Hcall; congruence|]. split; [done|].
  rewrite Hcall in Hc. injection Hc as <-. assert (Ht1 : w_threads (pl_w x) !! 1%nat = Some t1) by by rewrite Hts.
  destruct (run_thread_ok 1 t1 _ _ (pn_winv _ _ _ H) Ht1 Hcall) as (o & bs & s' & E' & Es & P).
  pose proof (winv_run _ _ _ _ _ (pn_winv _ _ _ H) Ht1 Hcall E) as Hi'. rewrite E' in E. injection E as <-.
  rewrite Hts in Et. cbn in Et. injection Et as <-. rewrite Hk1 in Es, P.
  assert (Hl : live false (at_rest (w_pipe (pl_w x)))) by (apply (winv_live _ false); apply H).
  destruct (runs_Ok _ _ _ _ _ (read_segment m false _ Hl eq_refl) Es) as (_ & Eo).
  pose proof (sp_bytes _ _ _ _ _ _ P) as Hb. cbn in Hb. rewrite app_nil_r in Hb. exists (wake (woken s') t0).
  split; cbn [w_pipe w_threads w_in w_gaveup]; try done; [by rewrite Hts|by rewrite wake_killed; destruct o|by rewrite wake_call|apply (pn_calm _ _ _ H)| |by rewrite app_nil_r|].
  - split; [apply (sp_read _ _ _ _ _ _ P)|apply (sp_write _ _ _ _ _ _ P)].
  - unfold read_out in Eo. cbn in Eo. destruct (bool_decide _ && _) eqn:Eb.
    + injection Eo as -> -> ->. left. cbn. unfold wake. split_and!; try done. by case_match.
    + injection Eo as -> -> ->. right. apply (f_equal length) in Hb as Hbl. rewrite length_app, length_take in Hbl.
      destruct (decide (queue (pi (w_pipe (pl_w x))) = [])) as [Eq|Nq]; [left|right]; cbn.
      * rewrite Eq in *. cbn in *. apply negb_false_iff, Z.eqb_eq in Eb.
        split_and!; try done; [by rewrite Nat.min_0_r|destruct (Z.to_nat m); by rewrite Hb|by apply (pn_close _ _ _ H)].
      * assert (0 < length (queue (pi (w_pipe (pl_w x)))))%nat by (destruct (queue _); [done|cbn; lia]). split_and!; [done|lia|lia].
Qed.

Lemma pl_read_step x t0 t1 c w' t' : plinv x t0 t1 → t_call t1 = Some c → t_wait t1 = None →
  run_thread 1 t1 c (pl_w x) = Ok w' → w_threads w' !! 1%nat = Some t' →
  let y := match t_call t' with
           | Some _ => mk_pl w' (pl_phase x) (pl_eof x)
           | None => if t_ret t' =? 0 then mk_pl w' (pl_phase x) true
                     else mk_pl (with_thread 1 (mk_thread (Some (CRead m)) None (t_killed t') (t_ret t')) w') (pl_phase x) (pl_eof x)
           end in
  ∃ t0' t1', plinv y t0' t1' ∧ (measure y t0' t1' < measure x t0 t1)%nat.
Proof.
  intros H Hc Hn E Et y. destruct (read_shape x t0 t1 c w' t' H Hc Hn E Et) as (He & t0' & [R1 R2 [R3 R3'] R4 R5 [R6 R6'] R7 R8]).
  assert (Hwr : ∀ f, writer_at (mk_pl w' (pl_phase x) f) t0').
  { intros f. pose proof (pn_writer _ _ _ H) as Hw. unfold writer_at in *. cbn. by rewrite R4, R7. }
  assert (Hr1 : ready t1 = 1%nat) by (unfold ready; by rewrite Hc, Hn). pose proof (ready_le t0') as Hr0.
  pose proof (pn_phase _ _ _ H) as Hph. pose proof (pn_close _ _ _ H) as Hcl. pose proof (pn_reader _ _ _ H) as Hrd.
  subst y. rewrite He. destruct R8 as [(C1 & C2 & -> & C3)|[(C1 & C2 & C3 & C4 & C5)|(C1 & C2 & C3)]]; rewrite C1.
  - exists t0, t'. split; [split; cbn; try done; by rewrite ?R6, ?R6'|]. unfold measure. cbn. rewrite C2, C3, R7. lia.
  - rewrite C2. exists t0', t'. split; [split; cbn; try done; by rewrite ?R6, ?R6'|]. unfold measure. cbn. rewrite C3, C4, R7.
    assert (ready t' = 0%nat) as -> by (unfold ready; by rewrite C1).
    assert (ready t0' = 0%nat) as ->; [|lia]. pose proof (Hwr true) as Hw. unfold writer_at in Hw. cbn in Hw. rewrite C5 in Hw.
    unfold ready. by rewrite (proj1 Hw).
  - rewrite (proj2 (Z.eqb_neq (t_ret t') 0)) by lia. exists t0', (mk_thread (Some (CRead m)) None (t_killed t') (t_ret t')).
    assert (Hi : winv (with_thread 1 (mk_thread (Some (CRead m)) None (t_killed t') (t_ret t')) w')).
    { apply (winv_step w'); [|done]. apply (ps_begin w' 1 t' (CRead m)); [by rewrite R2|done|cbn; lia|unfold end_open; cbn; by rewrite R6]. }
    split; [split; cbn; try done; rewrite ?R2, ?R6, ?R6'; try done; apply (Hwr false)|]. unfold measure. cbn. rewrite R7. unfold ready in *. cbn. lia.
Qed.

Lemma pl_step x t0 t1 y : plinv x t0 t1 → plstep m x y → ∃ t0' t1', plinv y t0' t1' ∧ (measure y t0' t1' < measure x t0 t1)%nat.
Proof.
  intros H Hs. pose proof (pn_threads _ _ _ H) as Hts.
  destruct Hs as [t c w' t' Ht Hc Hn E Et|w' Hp E|t c w' t' Ht Hc Hn E Et].
  - rewrite Hts in Ht. injection Ht as <-. exists t'. by eapply pl_write_step.
  - by apply pl_close_step.
  - rewrite Hts in Ht. injection Ht as <-. by eapply pl_read_step.
Qed.

(** The call in progress of a runnable process runs. *)
Lemma pl_runs x t0 t1 i t c : plinv x t0 t1 → w_threads (pl_w x) !! i = Some t → t_call t = Some c →
  ∃ w' t', run_thread i t c (pl_w x) = Ok w' ∧ w_threads w' !! i = Some t'.
Proof.
  intros H Ht Hc. destruct (run_thread_ok i t c _ (pn_winv _ _ _ H) Ht Hc) as (o & bs & s' & E & _). eexists _, _. split; [done|].
  cbn. apply list_lookup_insert_eq. rewrite length_fmap. by eapply lookup_lt_Some.
Qed.

Lemma reader_waits x t0 t1 : plinv x t0 t1 → pl_eof x = false →
  t_wait t1 = None ∨ queue (pi (w_pipe (pl_w x))) = [] ∧ pl_phase x ≠ 0%nat.
Proof.
  intros H He. pose proof (wi_threads _ (pn_winv _ _ _ H)) as Hf. rewrite (pn_threads _ _ _ H) in Hf. apply Forall_cons in Hf as [_ [F1 _]%Forall_cons].
  destruct (t_wait t1) as [ch|] eqn:E; [right|by left]. destruct (th_wait _ _ _ F1 ch E) as (Hw & c & Hc & ->).
  pose proof (pn_call _ _ _ H) as Hr. rewrite He in Hr. rewrite Hr in Hc. injection Hc as <-. destruct Hw as [[Hw|Hw] Ho].
  - split; [done|]. intros Hp. by apply Ho, (pn_close _ _ _ H).
  - by rewrite (pn_calm _ _ _ H) in Hw.
Qed.

(** Somebody can go on, or everything has been delivered. *)
Lemma pl_progress x t0 t1 : plinv x t0 t1 → (∃ y, plstep m x y) ∨ (pl_phase x = 0%nat ∧ pl_eof x = true ∧ w_out (pl_w x) = w).
Proof.
  intros H. pose proof (pn_threads _ _ _ H) as Hts. pose proof (pn_winv _ _ _ H) as Hi. pose proof (pn_phase _ _ _ H) as Hph.
  assert (Hread : pl_eof x = false → t_wait t1 = None → ∃ y, plstep m x y).
  { intros He Hn. pose proof (pn_call _ _ _ H) as Hc. rewrite He in Hc. assert (Ht : w_threads (pl_w x) !! 1%nat = Some t1) by by rewrite Hts.
    destruct (pl_runs x t0 t1 1 t1 _ H Ht Hc) as (w' & t' & E & Et). eexists. by eapply (pl_read m x t1). }
  pose proof (pn_writer _ _ _ H) as Hw. pose proof (pn_call _ _ _ H) as Hc. unfold writer_at in Hw.
  destruct (pl_phase x) as [|[|p]] eqn:Ep.
  - destruct (pl_eof x) eqn:He.
    + right. split_and!; [done|done|]. pose proof (wi_fifo _ Hi) as Hq. destruct Hc as (_ & _ & Eq), Hw as [_ Ein]. by rewrite Eq, app_nil_r, Ein in Hq.
    + left. apply Hread; [done|]. destruct (reader_waits x t0 t1 H He) as [?|[_ ?]]; [done|lia].
  - left. assert (Ho : end_open true (pi (w_pipe (pl_w x)))) by (intros Ez%(pn_close _ _ _ H); lia).
    destruct (pipeclose_run true _ (winv_live _ _ Hi Ho)) as ([] & s' & Es & _). eexists. eapply (pl_close m x); [done|].
    unfold close_end. by rewrite Es.
  - left. assert (p = 0%nat) as -> by lia. destruct Hw as (i & Hc0 & _). assert (Ht : w_threads (pl_w x) !! 0%nat = Some t0) by by rewrite Hts.
    assert (He : pl_eof x = false) by (destruct (pl_eof x); [lia|done]). destruct (t_wait t0) as [ch|] eqn:Et0.
    + apply Hread; [done|]. destruct (reader_waits x t0 t1 H He) as [?|[Eq _]]; [done|].
      destruct (th_wait _ _ _ (Forall_lookup_1 _ _ _ _ (wi_threads _ Hi) Ht) ch Et0) as (Hx & c & Hc' & ->).
      rewrite Hc0 in Hc'. injection Hc' as <-. destruct Hx as [Hx _]. by rewrite Eq in Hx.
    + destruct (pl_runs x t0 t1 0 t0 _ H Ht Hc0) as (w' & t' & E & Et). eexists. by eapply (pl_write m x t0).
Qed.

(** C24. A pipeline delivers. One program writes the bytes [w] to a pipe and closes its
    end, another reads [m] bytes at a time until read returns 0. Whatever the scheduler
    does, the two take at most 3|w| + 6 turns, and they only stop when the writer has
    ended, the reader has seen the end of the data, and what it has read is [w]. *)
Theorem pipeline_delivers (junk : list Z) (Hj : length junk = 512%nat) (k : nat) (x : pipeline)
  (Hk : nsteps (plstep m) k (pl_new junk w m) x) :
  (k ≤ 3 * length w + 6)%nat ∧
  ((∃ y, plstep m x y) ∨ (pl_phase x = 0%nat ∧ pl_eof x = true ∧ w_out (pl_w x) = w)).
Proof.
  assert (Hn : ∀ n a b t0 t1, nsteps (plstep m) n a b → plinv a t0 t1 → ∃ t0' t1', plinv b t0' t1' ∧ (measure b t0' t1' + n ≤ measure a t0 t1)%nat).
  { intros n a b t0 t1 Hs. revert t0 t1. induction Hs as [a|n a b c Hab Hbc IH]; intros t0 t1 Ha; [exists t0, t1; split; [done|lia]|].
    destruct (pl_step _ _ _ _ Ha Hab) as (u0 & u1 & Hb & Hlt). destruct (IH _ _ Hb) as (v0 & v1 & Hc & Hle). exists v0, v1. split; [done|lia]. }
  destruct (Hn _ _ _ _ _ Hk (plinv_new junk Hj)) as (t0 & t1 & Hx & Hle). split; [|by eapply pl_progress].
  change (measure (pl_new junk w m) _ _) with (3 * (length w - 0) + 2 * 0 + 1 + 1 + 2 * 2)%nat in Hle. lia.
Qed.
End pipeline.

(** * Instances *)

Definition page_ones : list Z := replicate 512 1.

(** Process 1 has written three bytes and process 0 has read two of them. *)
Definition ex_world : world :=
  mk_world (mk_pst (mk_pipe false ([7; 8; 9] ++ replicate 509 1) 2 3 1 1) false [NWRITE])
    [mk_thread None None false 2; mk_thread None None false 3] [7; 8; 9] [7; 8] false.

Lemma ex_world_reach : rtc pstep (world_new page_ones 2) ex_world.
Proof.
  eapply rtc_l; [by apply (ps_begin _ 1 (mk_thread None None false 0) (CWrite [7; 8; 9] 0))|].
  eapply rtc_l; [by eapply (ps_run _ 1 (mk_thread (Some (CWrite [7; 8; 9] 0)) None false 0) (CWrite [7; 8; 9] 0)); vm_compute|].
  eapply rtc_l; [by apply (ps_begin _ 0 (mk_thread None None false 0) (CRead 2))|].
  eapply rtc_l; [by eapply (ps_run _ 0 (mk_thread (Some (CRead 2)) None false 0) (CRead 2)); vm_compute|].
  apply rtc_refl.
Qed.

Lemma pipe_fifo_witness : w_in ex_world = w_out ex_world ++ [9] ∧ queue (pi (w_pipe ex_world)) = [9].
Proof. split; [exact (proj1 (pipe_fifo page_ones 2 ex_world eq_refl ex_world_reach))|by vm_compute]. Defined.

(** The reader of [stranded], whose writer has given up. *)
Lemma pipe_no_lost_wakeup_witness : pi_writeopen (pi (w_pipe stranded)) ≠ 0 ∧ w_gaveup stranded = true.
Proof.
  destruct (pipe_no_lost_wakeup page_ones 2 stranded eq_refl stranded_reach) as (_ & H & _).
  destruct (H 0%nat (mk_thread (Some (CRead 1)) (Some NREAD) false 0) eq_refl eq_refl) as [? [E|?]]; [by vm_compute in E|done].
Defined.

(** Two bytes through a pipe, five at a time: the states in turn. *)
Definition pl_state (nr nw wo : Z) (cs : list pchan) (t0 t1 : thread) (d out : list Z) (phase : nat) (eof : bool) : pipeline :=
  mk_pl (mk_world (mk_pst (mk_pipe false (d ++ drop (length d) page_ones) nr nw 1 wo) false cs) [t0; t1] d out false) phase eof.
Definition pl_ret (r : Z) : thread := mk_thread None None false r.
Definition pl_reading (r : Z) : thread := mk_thread (Some (CRead 5)) None false r.
Definition pl_1 : pipeline := pl_state 0 2 1 [NREAD] (pl_ret 2) (pl_reading 0) [7; 8] [] 1 false.
Definition pl_2 : pipeline := pl_state 0 2 0 [NREAD] (pl_ret 2) (pl_reading 0) [7; 8] [] 0 false.
Definition pl_3 : pipeline := pl_state 2 2 0 [NWRITE] (pl_ret 2) (pl_reading 2) [7; 8] [7; 8] 0 false.
Definition pl_4 : pipeline := pl_state 2 2 0 [NWRITE] (pl_ret 2) (pl_ret 0) [7; 8] [7; 8] 0 true.

Lemma pl_run_steps : nsteps (plstep 5) 4 (pl_new page_ones [7; 8] 5) pl_4.
Proof.
  eapply nsteps_l; [apply (pl_write 5 _ (mk_thread (Some (CWrite [7; 8] 0)) None false 0) (CWrite [7; 8] 0) (pl_w pl_1) (pl_ret 2)); by vm_compute|].
  eapply nsteps_l; [apply (pl_close 5 pl_1 (pl_w pl_2)); by vm_compute|].
  eapply nsteps_l; [apply (pl_read 5 pl_2 (pl_reading 0) (CRead 5)
    (mk_world (w_pipe (pl_w pl_3)) [pl_ret 2; pl_ret 2] [7; 8] [7; 8] false) (pl_ret 2)); by vm_compute|].
  eapply nsteps_l; [apply (pl_read 5 pl_3 (pl_reading 2) (CRead 5) (pl_w pl_4) (pl_ret 0)); by vm_compute|].
  apply nsteps_O.
Qed.

Lemma pipeline_delivers_witness : (4 ≤ 3 * 2 + 6)%nat ∧ w_out (pl_w pl_4) = [7; 8].
Proof. split; [exact (proj1 (pipeline_delivers [7; 8] 5 eq_refl page_ones eq_refl 4 pl_4 pl_run_steps))|done]. Defined.
