(* ===== verification/File.v ===== *)
(** Open files (file.c, file.h) over the file system and the pipes, and the operations
    on files and directories that system calls and the swap files share (sysfile.c,
    fs.c).

    The spin lock of the file table is held only inside one operation. A process that
    would sleep in a pipe stops there: the outcome [Blocked]; Pipe.v has the processes
    that go on. *)
From Stdlib Require Import ZArith Lia Bool.
From stdpp Require Import base tactics list strings gmap.
From S2P Require Import Prelude Machine CString Format Bio Log Blocks Fs Pipe.

(** * Data *)

Definition NFILE : Z := 100.

Inductive fdtype := FD_NONE | FD_PIPE | FD_INODE.

(** [struct file]. The pipe is the address of its page; an inode is an index of the
    inode cache. *)
Record file := mk_file {
  f_type : fdtype;
  f_ref : Z;
  f_readable : Z;
  f_writable : Z;
  f_pipe : Z;
  f_ip : nat;
  f_off : Z }.

Definition set_f_type (v : fdtype) (f : file) : file := mk_file v (f_ref f) (f_readable f) (f_writable f) (f_pipe f) (f_ip f) (f_off f).
Definition set_f_ref (v : Z) (f : file) : file := mk_file (f_type f) v (f_readable f) (f_writable f) (f_pipe f) (f_ip f) (f_off f).
Definition set_f_off (v : Z) (f : file) : file := mk_file (f_type f) (f_ref f) (f_readable f) (f_writable f) (f_pipe f) (f_ip f) v.

(** * State *)

Section state.
  Context {B : Type}.

(** The file system, the file table, the pipes by the address of their page, and
    whether the process that runs has been killed. *)
Record ffs := mk_ffs { fsx : fss B; ftable : list file; pipes : gmap Z pst; fkilled : bool }.

Definition set_fsx (v : fss B) (s : ffs) : ffs := mk_ffs v (ftable s) (pipes s) (fkilled s).
Definition set_ftable (v : list file) (s : ffs) : ffs := mk_ffs (fsx s) v (pipes s) (fkilled s).
Definition set_pipes (v : gmap Z pst) (s : ffs) : ffs := mk_ffs (fsx s) (ftable s) v (fkilled s).

Definition onfs {A} (m : M (fss B) A) : M ffs A := zoom fsx set_fsx m.
Definition getfile (f : nat) : M ffs file := s ← get; oget (ftable s !! f).
Definition modfile (f : nat) (g : file → file) : M ffs unit :=
  s ← get; x ← oget (ftable s !! f); modify (set_ftable (<[f := g x]> (ftable s))).

(** An operation on the pipe in page [a]. *)
Definition on_pipe {A} (a : Z) (m : M pst A) : M ffs A := λ s,
  match pipes s !! a with
  | None => Fault
  | Some p => zoom (λ _, p) (λ q s, set_pipes (<[a := q]> (pipes s)) s) m s
  end.
End state.
Arguments ffs : clear implicits.

Section file.
  Context {B : Type} {BO : BlockOps B} {DS : DevSw B}.
  Notation K := (M (ffs B)).

Definition begin_op' : K unit := onfs (onblk bk_begin_op).
Definition end_op' : K unit := onfs (onblk bk_end_op).

(** * file.c *)

Definition filealloc : K (option nat) :=
  s ← get;
  match find_idx (λ f, f_ref f =? 0) (ftable s) with
  | Some f => modfile f (set_f_ref 1);; mret (Some f)
  | None => mret None
  end.

Definition filedup (f : nat) : K unit :=
  x ← getfile f;
  if f_ref x <? 1 then panic "filedup" else
  modfile f (set_f_ref (s32 (f_ref x + 1))).

Definition fileclose (f : nat) : K unit :=
  x ← getfile f;
  if f_ref x <? 1 then panic "fileclose" else
  if 0 <? f_ref x - 1 then modfile f (set_f_ref (f_ref x - 1)) else
  modfile f (λ x, set_f_type FD_NONE (set_f_ref 0 x));;
  match f_type x with
  | FD_PIPE => on_pipe (f_pipe x) (pipeclose (negb (f_writable x =? 0)))
  | FD_INODE => begin_op';; onfs (iput (f_ip x));; end_op'
  | FD_NONE => mret tt
  end.

Definition filestat (f : nat) : K (option stat) :=
  x ← getfile f;
  match f_type x with
  | FD_INODE =>
      onfs (ilock (Some (f_ip x)));;
      st ← onfs (stati (f_ip x));
      onfs (iunlock (Some (f_ip x)));;
      mret (Some st)
  | _ => mret None
  end.

(** What fileread returns, and the bytes it stores. *)
Definition fileread (f : nat) (n : Z) : K (Z * list Z) :=
  x ← getfile f;
  if f_readable x =? 0 then mret (-1, []) else
  match f_type x with
  | FD_PIPE =>
      s ← get;
      '(o, l) ← on_pipe (f_pipe x) (piperead (fkilled s) n);
      match o with PRet r _ => mret (r, l) | PSleep _ _ => blocked end
  | FD_INODE =>
      onfs (ilock (Some (f_ip x)));;
      '(r, l) ← onfs (readi (f_ip x) (f_off x) n);
      (if 0 <? r then modfile f (λ x, set_f_off (u32 (f_off x + r)) x) else mret tt);;
      onfs (iunlock (Some (f_ip x)));;
      mret (r, l)
  | FD_NONE => panic "fileread"
  end.

(** The bytes filewrite writes in one transaction. *)
Definition filewrite_max : Z := ((MAXOPBLOCKS - 1 - 1 - 2) / 2) * 512.

(** The loop of filewrite with [i] bytes written; it returns the final [i]. *)
Fixpoint filewrite_loop (fuel : nat) (f : nat) (addr : list Z) (n i : Z) : K Z :=
  if i <? n then
    match fuel with
    | O => nofuel
    | S fuel =>
        let n1 := Z.min (n - i) filewrite_max in
        begin_op';;
        x ← getfile f;
        onfs (ilock (Some (f_ip x)));;
        r ← onfs (writei (f_ip x) (take (Z.to_nat n1) (drop (Z.to_nat i) addr)) (f_off x) n1);
        (if 0 <? r then modfile f (λ x, set_f_off (u32 (f_off x + r)) x) else mret tt);;
        onfs (iunlock (Some (f_ip x)));;
        end_op';;
        if r <? 0 then mret i else
        if negb (r =? n1) then panic "short filewrite" else
        filewrite_loop fuel f addr n (i + r)
    end
  else mret i.

(** Every round writes at least one byte. The message before the last panic is not
    modelled. *)
Definition filewrite (f : nat) (addr : list Z) (n : Z) : K Z :=
  x ← getfile f;
  if f_writable x =? 0 then mret (-1) else
  match f_type x with
  | FD_PIPE =>
      s ← get;
      o ← on_pipe (f_pipe x) (pipewrite (fkilled s) addr n 0);
      match o with PRet r _ => mret r | PSleep _ _ => blocked end
  | FD_INODE =>
      i ← filewrite_loop (Z.to_nat n) f addr n 0;
      mret (if i =? n then n else -1)
  | FD_NONE => panic "filewrite"
  end.

(** * sysfile.c: creating and removing names *)

(** The loop of isdirempty. *)
Fixpoint isdirempty_loop (fuel : nat) (dp : nat) (off : Z) : M (fss B) bool :=
  i ← getino dp;
  if off <? i_size i then
    match fuel with
    | O => nofuel
    | S fuel =>
        '(r, l) ← readi dp off sizeof_dirent;
        if negb (r =? sizeof_dirent) then panic "isdirempty: readi" else
        if negb (de_inum (dirent_of l) =? 0) then mret false else isdirempty_loop fuel dp (off + sizeof_dirent)
    end
  else mret true.

Definition isdirempty (dp : nat) : M (fss B) bool :=
  i ← getino dp; isdirempty_loop (Z.to_nat (i_size i / sizeof_dirent + 1)) dp (2 * sizeof_dirent).

Definition DOT : list Z := [46].
Definition DOTDOT : list Z := [46; 46].

Definition set_i_dev_nums (major minor : Z) (i : inode) : inode :=
  mk_inode (i_dev i) (i_inum i) (i_ref i) (i_lock i) (i_valid i) (i_type i) major minor (i_nlink i) (i_size i) (i_addrs i).

(** The inode, locked. *)
Definition create (cwd : nat) (path : list Z) (type major minor : Z) : M (fss B) (option nat) :=
  o ← nameiparent cwd path;
  match o with
  | None => mret None
  | Some (dp, name) =>
      ilock (Some dp);;
      o ← dirlookup dp name;
      match o with
      | Some (ip, _) =>
          iunlockput dp;;
          ilock (Some ip);;
          i ← getino ip;
          if (type =? T_FILE) && (i_type i =? T_FILE) then mret (Some ip)
          else iunlockput ip;; mret None
      | None =>
          d ← getino dp;
          ip ← ialloc (i_dev d) type;
          ilock (Some ip);;
          modino ip (λ i, set_i_nlink 1 (set_i_dev_nums (s16 major) (s16 minor) i));;
          iupdate ip;;
          (if type =? T_DIR then
             modino dp (λ d, set_i_nlink (s16 (i_nlink d + 1)) d);;
             iupdate dp;;
             i ← getino ip;
             d ← getino dp;
             r ← dirlink ip DOT (i_inum i);
             if r <? 0 then panic "create dots" else
             r ← dirlink ip DOTDOT (i_inum d);
             if r <? 0 then panic "create dots" else mret tt
           else mret tt);;
          i ← getino ip;
          r ← dirlink dp name (i_inum i);
          if r <? 0 then panic "create: dirlink" else
          iunlockput dp;;
          mret (Some ip)
      end
  end.

(** The part of sys_unlink and of removeSwapFile inside begin_op and end_op. *)
Definition unlink (cwd : nat) (path : list Z) : M (fss B) Z :=
  o ← nameiparent cwd path;
  match o with
  | None => mret (-1)
  | Some (dp, name) =>
      ilock (Some dp);;
      if (namecmp name DOT =? 0) || (namecmp name DOTDOT =? 0) then iunlockput dp;; mret (-1) else
      o ← dirlookup dp name;
      match o with
      | None => iunlockput dp;; mret (-1)
      | Some (ip, off) =>
          ilock (Some ip);;
          i ← getino ip;
          if i_nlink i <? 1 then panic "unlink: nlink < 1" else
          e ← (if i_type i =? T_DIR then isdirempty ip else mret true);
          if negb e then iunlockput ip;; iunlockput dp;; mret (-1) else
          r ← writei dp (dirent_bytes (mk_dirent 0 (replicate DIRSIZ 0))) off sizeof_dirent;
          if negb (r =? sizeof_dirent) then panic "unlink: writei" else
          (if i_type i =? T_DIR then modino dp (λ d, set_i_nlink (s16 (i_nlink d - 1)) d);; iupdate dp else mret tt);;
          iunlockput dp;;
          modino ip (λ i, set_i_nlink (s16 (i_nlink i - 1)) i);;
          iupdate ip;;
          iunlockput ip;;
          mret 0
      end
  end.

(** The part of sys_link inside begin_op and end_op. *)
Definition link (cwd : nat) (old new : list Z) : M (fss B) Z :=
  o ← namei cwd old;
  match o with
  | None => mret (-1)
  | Some ip =>
      ilock (Some ip);;
      i ← getino ip;
      if i_type i =? T_DIR then iunlockput ip;; mret (-1) else
      modino ip (λ i, set_i_nlink (s16 (i_nlink i + 1)) i);;
      iupdate ip;;
      iunlock (Some ip);;
      let bad := ilock (Some ip);;
                 modino ip (λ i, set_i_nlink (s16 (i_nlink i - 1)) i);;
                 iupdate ip;;
                 iunlockput ip;;
                 mret (-1) in
      o ← nameiparent cwd new;
      match o with
      | None => bad
      | Some (dp, name) =>
          ilock (Some dp);;
          i ← getino ip;
          d ← getino dp;
          r ← (if negb (i_dev d =? i_dev i) then mret (-1) else dirlink dp name (i_inum i));
          if r <? 0 then iunlockput dp;; bad else
          iunlockput dp;;
          iput ip;;
          mret 0
      end
  end.

(** * fs.c: swap files *)

(** The path of the swap file, which must fit [char path[DIGITS]]. *)
Definition swap_file_path (pid : Z) : K (list Z) :=
  let path := swap_prefix ++ decimal pid in
  if Z.of_nat (length path) <? DIGITS then mret path else fault.

(** The open file. *)
Definition createSwapFile (cwd : nat) (pid : Z) : K nat :=
  path ← swap_file_path pid;
  begin_op';;
  ip ← onfs (create cwd path T_FILE 0 0);
  onfs (iunlock ip);;
  f ← filealloc;
  match f with
  | None => panic "no slot for files on /store"
  | Some f =>
      ip ← oget ip;
      modfile f (λ x, mk_file FD_INODE (f_ref x) O_WRONLY O_RDWR (f_pipe x) ip 0);;
      end_op';;
      mret f
  end.

(** [None] when the process has no swap file. *)
Definition removeSwapFile (cwd : nat) (pid : Z) (swapFile : option nat) : K Z :=
  path ← swap_file_path pid;
  match swapFile with
  | None => mret (-1)
  | Some f =>
      fileclose f;;
      begin_op';;
      r ← onfs (unlink cwd path);
      end_op';;
      mret r
  end.
End file.
