(* ===== verification/OpenFile.v ===== *)
(** Reading and writing an open file (file.c) whose inode is idle: filewrite in its
    transactions of a few blocks, and fileread, as operations on the contents of the
    file. *)
From Stdlib Require Import ZArith Lia Bool.
From stdpp Require Import base tactics list list_numbers strings sets gmap fin_sets.
From S2P Require Import Prelude Machine Bio Log Blocks Fs FsAlloc FsInode FsWrite FsFile Pipe File.

Section openfile.
  Context {B : Type} {BO : BlockOps B} {BL : BlockLaws B} {DS : DevSw B}.
  Implicit Types s : fss B.

(** * An inode at rest *)

(** The blocks a file can have. *)
Definition all_slots : list Z := seqZ 0 (MAXFILE + 1).

(** Inode [ip] is loaded and unlocked, in a file system where no call is in progress;
    the disk has room for the file to grow to its largest size. *)
Record idle (ip : nat) (s : fss B) (ino : inode) : Prop := {
  id_base : fs_base s;
  id_ino : icache s !! ip = Some ino;
  id_file : file_ok s ino;
  id_type : i_type ino ≠ T_DEV;
  id_shorts : shorts ino;
  id_ref : 1 ≤ i_ref ino;
  id_lock : i_lock ino = initsleeplock;
  id_valid : i_valid ino ≠ 0;
  id_held : v_held (fv s) = ∅;
  id_open : v_open (fv s) = 0;
  id_logged : v_logged (fv s) = ∅;
  id_small : sb_size (fsb s) / BPB < 19;
  id_room : (missing s ino all_slots ≤ nfree s)%nat }.

(** The view of the blocks decides about the rest. *)
Lemma base_view s x :
  fs_base s → bk_ok x → v_blocks (bk_abs x) = v_blocks (fv s) → v_held (bk_abs x) = v_held (fv s) → v_geo (bk_abs x) = v_geo (fv s) →
  fs_base (set_blk x s).
Proof.
  intros [H1 H2 H3 H4 H5] Ox E1 E2 E3. split; unfold fok, used, blocks, fv in *; cbn; rewrite ?E1, ?E2, ?E3; try done.
Qed.

Lemma file_ok_view s s' ino ino' :
  blocks s' = blocks s → fsb s' = fsb s → i_dev ino' = i_dev ino → i_inum ino' = i_inum ino → i_addrs ino' = i_addrs ino →
  i_size ino' = i_size ino → file_ok s ino → file_ok s' ino'.
Proof.
  intros E1 E2 E3 E4 E5 E6 [H1 H2 H3 H4 H5 H6 H7].
  assert (Es : ∀ k, slot (blocks s') ino' k = slot (blocks s) ino k) by (intros k; unfold slot, addr; by rewrite E1, E5).
  assert (Eu : ∀ c, used s' c = used s c) by (intros c; unfold used; by rewrite E1, E2).
  split; try congruence.
  - intros k Hk. rewrite Es, Eu, E2. by apply H5.
  - intros k k' Hk Hk'. rewrite !Es. by apply H6.
  - intros k Hk. rewrite E6, Es. by apply H7.
Qed.

Lemma room_view s s' ino ino' ks :
  blocks s' = blocks s → fsb s' = fsb s → i_addrs ino' = i_addrs ino →
  missing s' ino' ks = missing s ino ks ∧ nfree s' = nfree s.
Proof.
  intros E1 E2 E3. unfold missing, nfree, used. rewrite E1, E2. split; [|done]. f_equal. apply filter_ext_in.
  intros k _. unfold slot, addr. by rewrite E3.
Qed.

(** ** Room *)

Lemma missing_app s ino l l' : missing s ino (l ++ l') = (missing s ino l + missing s ino l')%nat.
Proof. unfold missing. by rewrite filter_app, length_app. Qed.

Lemma missing_perm s ino l l' : l ≡ₚ l' → missing s ino l = missing s ino l'.
Proof. intros H. unfold missing. by rewrite H. Qed.

(** A file that keeps its blocks does not miss more of them. *)
Lemma missing_mono s ino s' ino' l :
  Forall slot_index l → (∀ k, slot_index k → slot (blocks s) ino k ≠ 0 → slot (blocks s') ino' k ≠ 0) →
  (missing s' ino' l ≤ missing s ino l)%nat.
Proof.
  intros Hl H. induction Hl as [|k l Hk _ IH]; [done|]. unfold missing in *. rewrite !filter_cons.
  destruct (decide (slot (blocks s') ino' k = 0)) as [E|E], (decide (slot (blocks s) ino k = 0)) as [E'|E']; cbn; try lia.
  by apply H in E'.
Qed.

(** The blocks apart from [ks]. *)
Lemma slots_split ks : NoDup ks → Forall slot_index ks → ∃ rest, all_slots ≡ₚ ks ++ rest ∧ Forall slot_index rest.
Proof.
  intros Hn Hf. assert (Hs : ks ⊆+ all_slots).
  { apply NoDup_submseteq; [done|]. intros k Hk. rewrite Forall_forall in Hf. apply Hf in Hk. unfold slot_index in Hk.
    apply elem_of_seqZ. lia. }
  apply submseteq_Permutation in Hs as [rest Hp]. exists rest. split; [done|]. apply Forall_forall. intros k Hk.
  assert (Hin : k ∈ all_slots) by (rewrite Hp; set_solver). apply elem_of_seqZ in Hin. unfold slot_index. lia.
Qed.

(** * Calls on an idle inode *)

Definition locked (s : fss B) (ino : inode) : inode := set_i_lock (mk_sleep 1 (fpid s)) ino.

Lemma ilock_run s ip ino Q :
  icache s !! ip = Some ino → 1 ≤ i_ref ino → i_lock ino = initsleeplock → i_valid ino ≠ 0 →
  Q tt (set_icache (<[ip := locked s ino]> (icache s)) s) → runs (ilock (Some ip)) s Q.
Proof.
  intros Hi Hr Hl Hv HQ. unfold ilock. mstep. exists ino, s. split; [by apply getino_eq|]. rewrite (proj2 (Z.ltb_ge _ _)) by lia.
  mstep. apply runs_get. mstep. exists tt, (set_icache (<[ip := locked s ino]> (icache s)) s). split.
  { unfold on_ilock. rewrite Hi. unfold zoom, acquiresleep. munfold. by rewrite Hl. }
  mstep. eexists _, _. split; [apply getino_eq; cbn; apply list_lookup_insert_eq; by eapply lookup_lt_Some|].
  cbn. rewrite (proj2 (Z.eqb_neq _ _)) by done. by apply runs_ret.
Qed.

Lemma iunlock_run s ip ino Q :
  icache s !! ip = Some ino → 1 ≤ i_ref ino → sl_locked (i_lock ino) ≠ 0 →
  Q tt (set_icache (<[ip := set_i_lock initsleeplock ino]> (icache s)) s) → runs (iunlock (Some ip)) s Q.
Proof.
  intros Hi Hr Hl HQ. unfold iunlock. mstep. exists true, (set_icache (icache s) s). split.
  { unfold on_ilock. rewrite Hi. unfold zoom, holdingsleep. munfold. rewrite (proj2 (Z.eqb_neq _ _)) by done. cbn.
    rewrite list_insert_id; [by destruct s|]. by destruct ino. }
  mstep. exists ino, s. split; [by destruct s; apply getino_eq|]. rewrite (proj2 (Z.ltb_ge _ _)) by lia. cbn [negb orb].
  eexists _, _. split; [|exact HQ]. unfold on_ilock. rewrite Hi. done.
Qed.

(** ** Writing *)

Section chunk.
  Context (ip : nat) (s : fss B) (ino : inode) (off : Z) (w : list Z) (b1 : B).
  Hypothesis Hid : idle ip s ino.
  Hypothesis Hoff : 0 ≤ off ≤ i_size ino.
  Hypothesis Hmax : off + Z.of_nat (length w) ≤ MAXFILE * BSIZE.
  Hypothesis Hlen : Z.of_nat (length w) ≤ filewrite_max.
  Hypothesis Ob1 : bk_ok b1.
  Hypothesis Ab1 : bk_abs b1 = v_begin (fv s).

(** The transaction has started and the inode is locked. *)
Let s2 : fss B := set_icache (<[ip := locked (set_blk b1 s) ino]> (icache s)) (set_blk b1 s).
Let n : Z := Z.of_nat (length w).

Lemma blocks_s2 : blocks s2 = blocks s.
Proof. unfold s2, blocks, fv. cbn. by rewrite Ab1. Qed.

Lemma chunk_room : ∃ rest, all_slots ≡ₚ touched off n ++ rest ∧ Forall slot_index rest ∧
  (missing s2 (locked s ino) (touched off n) + missing s2 (locked s ino) rest ≤ nfree s2)%nat.
Proof.
  assert (Hn : 0 ≤ n) by (unfold n; lia). destruct Hoff as [Ho _].
  destruct (slots_split (touched off n)) as (rest & Hp & Hr); [by apply touched_nodup|by apply touched_index|].
  exists rest. split_and!; [done..|]. rewrite <-missing_app, <-(missing_perm _ _ _ _ Hp).
  destruct (room_view s s2 ino (locked s ino) all_slots) as [-> ->]; [apply blocks_s2|done|done|apply Hid].
Qed.

Lemma chunk_can_write : can_write ip s2 (locked s ino) off n.
Proof.
  destruct chunk_room as (rest & _ & _ & Hroom). destruct Hid. pose proof blocks_s2 as E2. split; try done.
  - apply base_icache, base_view; try done; by rewrite Ab1.
  - cbn. apply list_lookup_insert_eq. by eapply lookup_lt_Some.
  - by apply (file_ok_view s _ ino).
  - unfold n. lia.
  - unfold fv. cbn. by rewrite Ab1.
  - unfold fv. cbn. rewrite Ab1. cbn. rewrite id_open0. lia.
  - unfold fv, s2. cbn [blk set_blk set_icache fsb]. rewrite Ab1. cbn [v_logged v_begin]. rewrite id_logged0, size_empty.
    assert (0 ≤ sb_size (fsb s) / BPB) by (apply Z.div_pos; [pose proof (ly_int _ _ (fb_layout _ id_base0)); lia|done]).
    pose proof (touched_length off n ltac:(lia) ltac:(unfold n; lia)) as Ht. change filewrite_max with 1536 in Hlen. unfold n, BSIZE in *.
    assert (Z.of_nat (length w) / 512 ≤ 3) by (Z.to_euclidean_division_equations; lia). lia.
  - lia.
Qed.

(** The bytes are written, the inode unlocked, and the transaction ended. *)
Definition chunk_done (s' : fss B) (ino' : inode) : Prop :=
  idle ip s' ino' ∧ content (blocks s') ino' = splice (content (blocks s) ino) (Z.to_nat off) w ∧
  i_size ino' = Z.max (i_size ino) (off + n) ∧ icache s' = <[ip := ino']> (icache s) ∧ fpid s' = fpid s.

Lemma chunk_end X s3 ino3 rest b5 :
  all_slots ≡ₚ touched off n ++ rest → Forall slot_index rest →
  fstate ip (touched off n) X (missing s2 (locked s ino) rest) s3 ino3 → written ip s2 (locked s ino) off w s3 ino3 →
  let s4 := set_icache (<[ip := set_i_lock initsleeplock ino3]> (icache s3)) s3 in
  bk_ok b5 → bk_abs b5 = v_end (fv s4) → chunk_done (set_blk b5 s4) (set_i_lock initsleeplock ino3).
Proof.
  intros Hp Hr [S1 S2 S3 S4 S5 S6 S7 S8] [W1 (l & z & W2) W3 W4 W5 W6 W7 W8 W9 W10 W11 W12 W13 W14 W15] s4 Ob5 Ab5.
  pose proof Hid as []. pose proof blocks_s2 as E2. rewrite E2 in W4.
  assert (E1 : v_open (fv s3) = 1) by (rewrite W7; unfold fv, s2; cbn; rewrite Ab1; cbn; lia).
  set (s5 := set_blk b5 s4). set (ino4 := set_i_lock initsleeplock ino3).
  assert (E5 : blocks s5 = blocks s3) by (unfold s5, blocks, fv; cbn; by rewrite Ab5).
  assert (Hin : icache s5 !! ip = Some ino4) by (cbn; apply list_lookup_insert_eq; by eapply lookup_lt_Some).
  unfold chunk_done. split_and!; [|by rewrite E5|done|by cbn; rewrite W1; cbn; rewrite !list_insert_insert_eq|done].
  split; try done.
  - apply base_view; [by apply base_icache|done|by rewrite Ab5..].
  - by apply (file_ok_view s3 _ ino3).
  - unfold ino4. by rewrite W2.
  - unfold ino4, shorts. rewrite W2. apply id_shorts0.
  - unfold ino4. by rewrite W2.
  - unfold ino4. by rewrite W2.
  - unfold fv. cbn. by rewrite Ab5.
  - unfold fv. cbn. rewrite Ab5. change (v_open (fv s3) - 1 = 0). lia.
  - unfold fv. cbn. rewrite Ab5. change (v_logged (v_end (fv s3)) = ∅). unfold v_end. cbn [v_logged]. by rewrite E1.
  - cbn. by rewrite W5.
  - destruct (room_view s3 s5 ino3 ino4 all_slots) as [-> ->]; [done..|]. rewrite (missing_perm _ _ _ _ Hp), missing_app.
    pose proof (missing_mono s2 (locked s ino) s3 ino3 rest Hr) as Hm. unfold n in *.
    assert (missing s3 ino3 rest ≤ missing s2 (locked s ino) rest)%nat; [|lia]. apply Hm. intros k Hk Hne. by rewrite W9.
Qed.

Lemma chunk_writei : runs (writei ip w off n) s2 (λ r s3, r = n ∧ ∃ ino3,
  icache s3 !! ip = Some ino3 ∧ 1 ≤ i_ref ino3 ∧ sl_locked (i_lock ino3) ≠ 0 ∧ fok s3 ∧ 1 ≤ v_open (fv s3) ∧ v_held (fv s3) = ∅ ∧
  let s4 := set_icache (<[ip := set_i_lock initsleeplock ino3]> (icache s3)) s3 in
  ∀ b5, bk_ok b5 → bk_abs b5 = v_end (fv s4) → chunk_done (set_blk b5 s4) (set_i_lock initsleeplock ino3)).
Proof.
  destruct chunk_room as (rest & Hp & Hr & Hroom). pose proof chunk_can_write as Hc.
  eapply runs_mono; [by apply (file_write ip s2 (locked s ino) off w (missing s2 (locked s ino) rest))|].
  intros r s3 (-> & ino3 & Hs3 & W). split; [done|]. exists ino3. pose proof Hs3 as [S1 S2 S3 S4 S5 S6 S7 S8].
  pose proof W as [W1 (l & z & W2) _ _ _ _ _ _ _ _ _ _ _ _ _]. split_and!; [done|by rewrite W2; apply Hid|by rewrite W2|apply S1|done|done|].
  intros s4 b5 Ob5 Ab5. by eapply chunk_end.
Qed.
End chunk.
End openfile.

(** * Open files *)

Section files.
  Context {B : Type} {BO : BlockOps B} {BL : BlockLaws B} {DS : DevSw B}.

Lemma runs_onfs {A} (m : M (fss B) A) (s : ffs B) Q : runs m (fsx s) (λ a y, Q a (set_fsx y s)) → runs (onfs m) s Q.
Proof. apply runs_zoom. Qed.

Lemma getfile_eq (s : ffs B) f x : ftable s !! f = Some x → getfile f s = Ok (x, s).
Proof. intros H. unfold getfile. munfold. by rewrite H. Qed.

Lemma modfile_eq (s : ffs B) f x g : ftable s !! f = Some x → modfile f g s = Ok (tt, set_ftable (<[f := g x]> (ftable s)) s).
Proof. intros H. unfold modfile. munfold. by rewrite H. Qed.

(** File [f] is open for reading and writing, and its inode is idle. *)
Record opened (f : nat) (s : ffs B) (x : file) (ino : inode) : Prop := {
  op_file : ftable s !! f = Some x;
  op_type : f_type x = FD_INODE;
  op_read : f_readable x ≠ 0;
  op_write : f_writable x ≠ 0;
  op_idle : idle (f_ip x) (fsx s) ino }.

Lemma opened_seek f (s : ffs B) x ino off : opened f s x ino → opened f (set_ftable (<[f := set_f_off off x]> (ftable s)) s) (set_f_off off x) ino.
Proof. intros []. split; try done. cbn. apply list_lookup_insert_eq. by eapply lookup_lt_Some. Qed.

(** Nothing but file [f], its offset and its contents has changed. *)
Definition only_file (f : nat) (s : ffs B) (x : file) (off : Z) (s' : ffs B) (ino' : inode) : Prop :=
  ftable s' = <[f := set_f_off off x]> (ftable s) ∧ icache (fsx s') = <[f_ip x := ino']> (icache (fsx s)) ∧
  pipes s' = pipes s ∧ fkilled s' = fkilled s ∧ fpid (fsx s') = fpid (fsx s).

Lemma begin_run ip ino (s : ffs B) Q :
  idle ip (fsx s) ino → (∀ b, bk_ok b → bk_abs b = v_begin (fv (fsx s)) → Q tt (set_fsx (set_blk b (fsx s)) s)) → runs begin_op' s Q.
Proof.
  intros [] HQ. apply runs_onfs, runs_zoom. eapply runs_mono; [apply bk_begin_run; [apply id_base0|]|].
  - change (bk_abs (blk (fsx s))) with (fv (fsx s)). rewrite id_logged0, id_open0, size_empty. done.
  - intros [] b [Ob Ab]. by apply HQ.
Qed.

Lemma end_run (s : ffs B) Q :
  fok (fsx s) → 1 ≤ v_open (fv (fsx s)) → v_held (fv (fsx s)) = ∅ →
  (∀ b, bk_ok b → bk_abs b = v_end (fv (fsx s)) → Q tt (set_fsx (set_blk b (fsx s)) s)) → runs end_op' s Q.
Proof.
  intros H1 H2 H3 HQ. apply runs_onfs, runs_zoom. eapply runs_mono; [by apply bk_end_run|]. intros [] b [Ob Ab]. by apply HQ.
Qed.

(** One transaction of filewrite. *)
Lemma filewrite_chunk {A} f (s : ffs B) x ino (w : list Z) (k : Z → M (ffs B) A) Q :
  let n1 := Z.of_nat (length w) in
  opened f s x ino → 0 < n1 ≤ filewrite_max → 0 ≤ f_off x ≤ i_size ino → f_off x + n1 ≤ MAXFILE * BSIZE →
  (∀ (s' : ffs B) ino', opened f s' (set_f_off (f_off x + n1) x) ino' → only_file f s x (f_off x + n1) s' ino' →
     content (blocks (fsx s')) ino' = splice (content (blocks (fsx s)) ino) (Z.to_nat (f_off x)) w →
     i_size ino' = Z.max (i_size ino) (f_off x + n1) → runs (k n1) s' Q) →
  runs (begin_op';;
        x ← getfile f;
        onfs (ilock (Some (f_ip x)));;
        r ← onfs (writei (f_ip x) w (f_off x) n1);
        (if 0 <? r then modfile f (λ x, set_f_off (u32 (f_off x + r)) x) else mret tt);;
        onfs (iunlock (Some (f_ip x)));;
        end_op';;
        k r) s Q.
Proof.
  intros n1 [O1 O2 O3 O4 O5] Hn Hoff Hmax HQ. pose proof O5 as []. mstep. eapply begin_run; [done|]. intros b1 Ob1 Ab1.
  mstep. exists x, (set_fsx (set_blk b1 (fsx s)) s). split; [by apply getfile_eq|].
  mstep. apply runs_onfs. apply (ilock_run _ _ ino); try done. mstep. apply runs_onfs.
  eapply runs_mono; [apply (chunk_writei (f_ip x) (fsx s) ino (f_off x) w b1 O5 Hoff Hmax (proj2 Hn) Ob1 Ab1)|].
  intros r s3 (-> & ino3 & C1 & C2 & C3 & C4 & C5 & C6 & C7). rewrite (proj2 (Z.ltb_lt 0 _)) by apply Hn.
  mstep. eexists _, _. split; [by apply modfile_eq|]. cbn [ftable set_fsx set_ftable].
  change (MAXFILE * BSIZE) with 71680 in Hmax. fold n1. rewrite u32_small by lia.
  mstep. apply runs_onfs. apply (iunlock_run _ _ ino3); try done. mstep. apply end_run; try done. intros b5 Ob5 Ab5.
  destruct (C7 b5 Ob5 Ab5) as (D1 & D2 & D3 & D4 & D5). eapply HQ; [|by split_and!|done|done].
  split; try done. cbn. apply list_lookup_insert_eq. by eapply lookup_lt_Some.
Qed.

Lemma only_file_trans f (s s1 s2 : ffs B) x off off' ino1 ino2 :
  only_file f s x off s1 ino1 → only_file f s1 (set_f_off off x) off' s2 ino2 → only_file f s x off' s2 ino2.
Proof.
  intros (A1 & A2 & A3 & A4 & A5) (B1 & B2 & B3 & B4 & B5). cbn in B2. unfold only_file.
  rewrite B1, B2, B3, B4, B5, A1, A2, A3, A4, A5, !list_insert_insert_eq. by destruct x.
Qed.

Lemma only_file_refl f (s : ffs B) x ino : opened f s x ino → only_file f s x (f_off x) s ino.
Proof.
  intros [H1 _ _ _ []]. unfold only_file. rewrite !list_insert_id; try done. by destruct x.
Qed.

(** The bytes [w] have been written at the offset, which has moved behind them. *)
Definition file_wrote (f : nat) (s : ffs B) (x : file) (ino : inode) (w : list Z) (s' : ffs B) : Prop :=
  let off := f_off x + Z.of_nat (length w) in
  ∃ ino', opened f s' (set_f_off off x) ino' ∧ only_file f s x off s' ino' ∧
    content (blocks (fsx s')) ino' = splice (content (blocks (fsx s)) ino) (Z.to_nat (f_off x)) w ∧
    i_size ino' = Z.max (i_size ino) off.

Lemma filewrite_loop_run f addr fuel : ∀ (s : ffs B) x ino i,
  let n := Z.of_nat (length addr) in
  opened f s x ino → 0 ≤ i ≤ n → (Z.to_nat (n - i) ≤ fuel)%nat → 0 ≤ f_off x ≤ i_size ino → f_off x + (n - i) ≤ MAXFILE * BSIZE →
  runs (filewrite_loop fuel f addr n i) s (λ r s', r = n ∧ file_wrote f s x ino (drop (Z.to_nat i) addr) s').
Proof.
  assert (Hend : ∀ fuel (s : ffs B) x ino, opened f s x ino → 0 ≤ f_off x ≤ i_size ino → let n := Z.of_nat (length addr) in
    runs (filewrite_loop fuel f addr n n) s (λ r s', r = n ∧ file_wrote f s x ino (drop (Z.to_nat n) addr) s')).
  { intros fu s x ino H Hoff n. assert (E : filewrite_loop fu f addr n n = mret n) by (destruct fu; cbn; by rewrite Z.ltb_irrefl).
    rewrite E. apply runs_ret. split; [done|]. rewrite drop_ge by lia. exists ino. cbn [length Z.of_nat]. rewrite Z.add_0_r, splice_nil.
    assert (set_f_off (f_off x) x = x) as -> by by destruct x. split_and!; [done|by apply only_file_refl|done|lia]. }
  induction fuel as [|fuel IH]; intros s x ino i n H Hi Hfu Hoff Hmax.
  { assert (i = n) as -> by lia. by apply Hend. }
  destruct (decide (i = n)) as [->|Hne]; [by apply Hend|]. cbn [filewrite_loop]. rewrite (proj2 (Z.ltb_lt i n)) by lia.
  set (n1 := Z.min (n - i) filewrite_max). assert (Hn1 : 0 < n1 ≤ n - i) by (unfold n1; change filewrite_max with 1536; lia).
  set (w := take (Z.to_nat n1) (drop (Z.to_nat i) addr)).
  assert (Hw : Z.of_nat (length w) = n1) by (unfold w; rewrite length_take, length_drop; lia). rewrite <-Hw.
  apply filewrite_chunk with (x := x) (ino := ino); [done|unfold n1 in *; lia|done|lia|]. rewrite Hw. intros s' ino' O1 O2 O3 O4.
  rewrite (proj2 (Z.ltb_ge _ _)), Z.eqb_refl by lia. cbn [negb].
  eapply runs_mono; [apply (IH s' _ ino' (i + n1) O1); cbn; lia|].
  intros r s2 (-> & ino2 & P1 & P2 & P3 & P4). cbn [f_off set_f_off] in *. split; [done|]. exists ino2.
  rewrite length_drop in *. replace (f_off x + n1 + Z.of_nat (length addr - Z.to_nat (i + n1)))
    with (f_off x + Z.of_nat (length addr - Z.to_nat i)) in * by lia.
  split_and!; [by destruct x|by eapply only_file_trans| |lia]. rewrite P3, O3.
  replace (Z.to_nat (f_off x + n1)) with (Z.to_nat (f_off x) + length w)%nat by lia.
  rewrite splice_app by (rewrite content_len; lia). f_equal. unfold w.
  rewrite <-(take_drop (Z.to_nat n1) (drop (Z.to_nat i) addr)) at 2. rewrite drop_drop. do 2 f_equal. lia.
Qed.

Lemma filewrite_run f (s : ffs B) x ino addr :
  opened f s x ino → 0 ≤ f_off x ≤ i_size ino → f_off x + Z.of_nat (length addr) ≤ MAXFILE * BSIZE →
  runs (filewrite f addr (Z.of_nat (length addr))) s (λ r s', r = Z.of_nat (length addr) ∧ file_wrote f s x ino addr s').
Proof.
  intros H Hoff Hmax. unfold filewrite. mstep. exists x, s. split; [apply getfile_eq, H|].
  rewrite (proj2 (Z.eqb_neq _ _)) by apply H. rewrite (op_type _ _ _ _ H). mstep.
  eapply runs_mono; [apply (filewrite_loop_run f addr _ s x ino 0); [done|lia|lia|done|lia]|].
  intros r s' [-> W]. apply runs_ret. by rewrite Z.eqb_refl.
Qed.

(** Blocks may have been read into the cache. *)
Lemma idle_view ip (s : fss B) ino x : idle ip s ino → bk_ok x → bk_abs x = fv s → idle ip (set_blk x s) ino.
Proof.
  intros [] Ox E. destruct (room_view s (set_blk x s) ino ino all_slots) as [Em En]; [by apply blocks_set|done|done|].
  split; try done; rewrite ?(fv_set _ _ E), ?Em, ?En; try done; [by apply base_same|by apply file_ok_set].
Qed.

Lemma fileread_run f (s : ffs B) x ino n :
  opened f s x ino → 0 ≤ f_off x ≤ i_size ino → 0 ≤ n → f_off x + n < 2 ^ 32 →
  let l := take (Z.to_nat n) (drop (Z.to_nat (f_off x)) (content (blocks (fsx s)) ino)) in
  runs (fileread f n) s (λ rl s', rl = (Z.of_nat (length l), l) ∧
    opened f s' (set_f_off (f_off x + Z.of_nat (length l)) x) ino ∧ only_file f s x (f_off x + Z.of_nat (length l)) s' ino ∧
    blocks (fsx s') = blocks (fsx s)).
Proof.
  intros [O1 O2 O3 O4 O5] Hoff Hn Hov l. pose proof O5 as []. pose proof (fo_size _ _ id_file0) as Hsz. change (MAXFILE * BSIZE) with 71680 in Hsz.
  assert (Hl : Z.of_nat (length l) ≤ n ∧ f_off x + Z.of_nat (length l) ≤ i_size ino).
  { unfold l. rewrite length_take, length_drop, content_len. lia. }
  unfold fileread. mstep. exists x, s. split; [by apply getfile_eq|]. rewrite (proj2 (Z.eqb_neq _ _)), O2 by done.
  mstep. apply runs_onfs. apply (ilock_run _ _ ino); try done. set (s1 := set_icache _ (fsx s)). mstep. apply runs_onfs.
  assert (R : rstate (f_ip x) s1 (locked (fsx s) ino)).
  { split; try done; [by apply base_icache|cbn; apply list_lookup_insert_eq; by eapply lookup_lt_Some|by apply (file_ok_view (fsx s) _ ino)|].
    unfold v_room. change (fv s1) with (fv (fsx s)). rewrite id_held0, id_logged0, map_size_empty, size_empty. lia. }
  eapply runs_mono; [apply (readi_run _ s1 (locked (fsx s) ino) (f_off x) n R); done|]. intros rl s3 [-> (y & -> & Oy & Ay)].
  change (content (blocks s1) (locked (fsx s) ino)) with (content (blocks (fsx s)) ino). fold l. cbn iota beta.
  mstep. set (s4 := set_fsx (set_blk y s1) (set_fsx s1 s)).
  set (x' := set_f_off (f_off x + Z.of_nat (length l)) x).
  apply (runs_mono _ _ (λ _ z, z = set_ftable (<[f := x']> (ftable s)) s4)).
  { destruct (Z.ltb_spec 0 (Z.of_nat (length l))) as [Hp|Hp].
    - eexists _, _. split; [by apply modfile_eq|]. cbv beta. rewrite u32_small by lia. done.
    - apply runs_ret. unfold x'. assert (Z.of_nat (length l) = 0) as -> by lia. rewrite Z.add_0_r, list_insert_id; [done|].
      rewrite O1. by destruct x. }
  intros _ ? ->. mstep. apply runs_onfs. apply (iunlock_run _ _ (locked (fsx s) ino)); try done.
  { cbn. apply list_lookup_insert_eq. by eapply lookup_lt_Some. }
  apply runs_ret. assert (Ei : set_i_lock initsleeplock (locked (fsx s) ino) = ino) by (rewrite <-id_lock0; by destruct ino).
  cbn. rewrite Ei, list_insert_insert_eq, (list_insert_id _ _ _ id_ino0).
  split; [done|]. split_and!; [|by unfold only_file; cbn; rewrite (list_insert_id _ _ _ id_ino0)|exact (blocks_set (fsx s) y Ay)].
  split; try done; cbn; [apply list_lookup_insert_eq; by eapply lookup_lt_Some|].
  exact (idle_view (f_ip x) (fsx s) ino y O5 Oy Ay).
Qed.
End files.
