(* ===== verification/SwapDisk.v ===== *)
(** The file system as the rest of the kernel sees it: open files and inodes by their
    addresses; and its swap files: an open file of whole pages is the store that paging
    relies on, down to the buffer cache and the log. *)
From Stdlib Require Import ZArith Lia Bool.
From stdpp Require Import base tactics list list_numbers strings sets gmap fin_sets.
From S2P Require Import Prelude Machine CString Format Kalloc PageTable Locks State Vm Uvm Paging Swap.
From S2P Require Import Bio Log Blocks Fs FsAlloc FsInode FsWrite FsFile Pipe File OpenFile.

(** * Addresses *)

(** The entry of a table that an address stands for; 0 is the null pointer. *)
Definition entry (a : Z) : option nat := if a <? 1 then None else Some (Z.to_nat (a - 1)).
Definition entry_addr (i : nat) : Z := Z.of_nat i + 1.

Lemma entry_of_addr i : entry (entry_addr i) = Some i.
Proof. unfold entry, entry_addr. rewrite (proj2 (Z.ltb_ge _ _)) by lia. f_equal. lia. Qed.

Section fsops.
  Context {B : Type} {BO : BlockOps B} {DS : DevSw B}.
  Notation K := (M (ffs B)).

Definition with_entry {A} (a : Z) (k : nat → K A) : K A := i ← oget (entry a); k i.

(** A path that starts at the root does not use the working directory. *)
Definition namei_addr (cwd : Z) (path : list Z) : K Z :=
  c ← (if bool_decide (head path = Some SLASH) then mret 0%nat else oget (entry cwd));
  o ← onfs (namei c path);
  mret (match o with Some ip => entry_addr ip | None => 0 end).

#[global] Instance file_system : FsOps (ffs B) := {
  fs_begin_op := begin_op';
  fs_end_op := end_op';
  fs_filedup a := with_entry a filedup;
  fs_fileclose a := with_entry a fileclose;
  fs_idup a := with_entry a (λ ip, _ ← onfs (idup ip); mret tt);
  fs_iput a := with_entry a (λ ip, onfs (iput ip));
  fs_namei := namei_addr;
  fs_ilock a := onfs (ilock (entry a));
  fs_iunlockput a := with_entry a (λ ip, onfs (iunlockput ip));
  fs_readi a off n := with_entry a (λ ip, onfs (readi ip off n));
  fs_set_off a off := with_entry a (λ f, modfile f (set_f_off (u32 off)));
  fs_filewrite a d := with_entry a (λ f, filewrite f d (Z.of_nat (length d)));
  fs_fileread a n := with_entry a (λ f, fileread f n);
  fs_createSwapFile pid := f ← createSwapFile 0 pid; mret (entry_addr f);
  fs_removeSwapFile pid a := removeSwapFile 0 pid (entry a) }.
End fsops.

(** * Pages of a file *)

Definition pages (l : list Z) : list (list Z) :=
  (λ i, take 4096 (drop (4096 * i) l)) <$> seq 0 (length l / 4096).

Lemma length_pages l : length (pages l) = (length l / 4096)%nat.
Proof. unfold pages. by rewrite length_fmap, length_seq. Qed.

Lemma pages_lookup l i : pages l !! i = if (i <? length l / 4096)%nat then Some (take 4096 (drop (4096 * i) l)) else None.
Proof.
  unfold pages. rewrite list_lookup_fmap. destruct (Nat.ltb_spec i (length l / 4096)).
  - by rewrite lookup_seq_lt.
  - by rewrite lookup_seq_ge.
Qed.

(** Overwriting page [i], or appending it. *)
Lemma pages_splice l d i k :
  length l = (4096 * k)%nat → (i ≤ k)%nat → length d = 4096%nat →
  pages (splice l (4096 * i) d) = take i (pages l) ++ d :: drop (S i) (pages l).
Proof.
  intros Hl Hi Hd. assert (Hs : length (splice l (4096 * i) d) = (4096 * (k `max` S i))%nat).
  { unfold splice. rewrite !length_app, length_take, length_drop, Hl, Hd. lia. }
  assert (Hk : (length l / 4096 = k)%nat) by (rewrite Hl, Nat.mul_comm; apply Nat.div_mul; done).
  assert (Hk' : (length (splice l (4096 * i) d) / 4096 = k `max` S i)%nat) by (rewrite Hs, Nat.mul_comm; apply Nat.div_mul; done).
  apply list_eq. intros j. rewrite pages_lookup, Hk'.
  assert (Ht : length (take i (pages l)) = i) by (rewrite length_take, length_pages; lia).
  destruct (Nat.lt_trichotomy j i) as [Hj|[->|Hj]].
  - rewrite (proj2 (Nat.ltb_lt _ _)), lookup_app_l, lookup_take_lt, pages_lookup, Hk, (proj2 (Nat.ltb_lt j k)) by lia.
    f_equal. apply splice_other; [lia|lia].
  - rewrite (proj2 (Nat.ltb_lt _ _)), lookup_app_r, Ht, Nat.sub_diag by lia. cbn. f_equal.
    rewrite <-Hd. apply splice_same. lia.
  - rewrite lookup_app_r, Ht by lia. replace (j - i)%nat with (S (j - S i)) by lia.
    change ((d :: drop (S i) (pages l)) !! S (j - S i)) with (drop (S i) (pages l) !! (j - S i)%nat).
    rewrite lookup_drop, pages_lookup, Hk. replace (S i + (j - S i))%nat with j by lia. destruct (Nat.ltb_spec j k) as [H1|H1].
    + rewrite (proj2 (Nat.ltb_lt j (k `max` S i))) by lia. f_equal. apply splice_other; [lia|lia].
    + rewrite (proj2 (Nat.ltb_ge j (k `max` S i))) by lia. done.
Qed.

(** * Swap files *)

Section swap.
  Context {B : Type} {BO : BlockOps B} {BL : BlockLaws B} {DS : DevSw B}.

(** The contents of open file [f]. *)
Definition file_content (s : ffs B) (f : nat) : list Z :=
  match ftable s !! f with
  | None => []
  | Some x => match icache (fsx s) !! f_ip x with None => [] | Some ino => content (blocks (fsx s)) ino end
  end.

Lemma opened_content f s x ino : opened f s x ino → file_content s f = content (blocks (fsx s)) ino.
Proof. intros [H1 _ _ _ []]. unfold file_content. by rewrite H1, id_ino. Qed.

(** A swap file is an open file of whole pages. *)
Definition swap_file (s : ffs B) (a : Z) : Prop :=
  ∃ f x ino k, entry a = Some f ∧ opened f s x ino ∧ i_size ino = Z.of_nat (4096 * k).

Definition swap_pages (s : ffs B) (a : Z) : list (list Z) :=
  match entry a with Some f => pages (file_content s f) | None => [] end.

Lemma swap_write_run (s : ffs B) a i d :
  swap_file s a → (i ≤ length (swap_pages s a))%nat → (i < 16)%nat → length d = Z.to_nat PGSIZE →
  runs (fs_set_off a (PGSIZE * Z.of_nat i);; fs_filewrite a d) s (λ r s',
    r = PGSIZE ∧ swap_file s' a ∧ swap_pages s' a = take i (swap_pages s a) ++ d :: drop (S i) (swap_pages s a)).
Proof.
  intros (f & x & ino & k & Ha & Ho & Hz) Hi H16 Hd. unfold swap_pages in *. rewrite Ha in *. rewrite (opened_content _ _ _ _ Ho) in *.
  assert (Hl : length (content (blocks (fsx s)) ino) = (4096 * k)%nat) by (rewrite content_len; lia).
  rewrite length_pages, Hl, Nat.mul_comm, Nat.div_mul in Hi by done. change PGSIZE with 4096 in *. change (Z.to_nat 4096) with 4096%nat in Hd.
  cbn [fs_set_off fs_filewrite file_system]. unfold with_entry. rewrite Ha. mstep. mstep. apply (runs_oget _ f); [done|].
  eexists _, _. split; [apply modfile_eq, Ho|]. rewrite u32_small by lia. mstep. apply (runs_oget _ f); [done|].
  pose proof (opened_seek f s x ino (4096 * Z.of_nat i) Ho) as Ho'.
  eapply runs_mono; [apply (filewrite_run f _ _ ino d Ho'); [cbn; lia|cbn [f_off set_f_off]; change (MAXFILE * BSIZE) with 71680; lia]|].
  intros r s' (-> & ino' & P1 & _ & P3 & P4). cbn [f_off set_f_off fsx set_ftable] in *. split; [by rewrite Hd|]. split.
  - eexists f, _, ino', (k `max` S i)%nat. split_and!; [done|exact P1|]. rewrite P4, Hd, Hz. lia.
  - rewrite (opened_content _ _ _ _ P1), P3. replace (Z.to_nat (4096 * Z.of_nat i)) with (4096 * i)%nat by lia.
    by apply (pages_splice _ _ _ k).
Qed.

Lemma swap_read_run (s : ffs B) a i d :
  swap_file s a → swap_pages s a !! i = Some d → (i < 16)%nat →
  runs (fs_set_off a (PGSIZE * Z.of_nat i);; fs_fileread a PGSIZE) s (λ rd s',
    rd = (PGSIZE, d) ∧ swap_file s' a ∧ swap_pages s' a = swap_pages s a).
Proof.
  intros (f & x & ino & k & Ha & Ho & Hz) Hi H16. unfold swap_pages in *. rewrite Ha in *. rewrite (opened_content _ _ _ _ Ho) in *.
  assert (Hl : length (content (blocks (fsx s)) ino) = (4096 * k)%nat) by (rewrite content_len; lia).
  rewrite pages_lookup, Hl, (Nat.mul_comm _ k), Nat.div_mul in Hi by done. destruct (Nat.ltb_spec i k) as [Hik|]; [|done]. injection Hi as <-.
  change PGSIZE with 4096 in *. cbn [fs_set_off fs_fileread file_system]. unfold with_entry. rewrite Ha. mstep. mstep. apply (runs_oget _ f); [done|].
  eexists _, _. split; [apply modfile_eq, Ho|]. rewrite u32_small by lia. mstep. apply (runs_oget _ f); [done|].
  pose proof (opened_seek f s x ino (4096 * Z.of_nat i) Ho) as Ho'.
  eapply runs_mono; [apply (fileread_run f _ _ ino 4096 Ho'); cbn [f_off set_f_off]; lia|].
  intros rl s' (-> & P1 & _ & P3). cbn [f_off set_f_off fsx set_ftable] in *. replace (Z.to_nat (4096 * Z.of_nat i)) with (4096 * i)%nat by lia.
  change (Z.to_nat 4096) with 4096%nat. split; [f_equal; rewrite length_take, length_drop; lia|]. split.
  - eexists f, _, ino, k. split_and!; [done|exact P1|done].
  - by rewrite (opened_content _ _ _ _ P1), P3.
Qed.

(** C27. A page written to a swap file comes back. Writing page [i] with
    writeToSwapFile's two steps and reading it with readFromSwapFile's returns the page,
    and the other pages of the file are as before; filewrite does it in transactions
    that fit the log, whatever blocks the file has to get on the way. *)
Theorem swap_page_roundtrip (s : ffs B) (a : Z) (i : nat) (d : list Z)
  (Hs : swap_file s a) (Hi : (i ≤ length (swap_pages s a))%nat) (H16 : (i < 16)%nat) (Hd : length d = Z.to_nat PGSIZE) :
  runs (r ← (fs_set_off a (PGSIZE * Z.of_nat i);; fs_filewrite a d);
        x ← (fs_set_off a (PGSIZE * Z.of_nat i);; fs_fileread a PGSIZE);
        mret (r, x)) s (λ '(r, x) s',
    r = PGSIZE ∧ x = (PGSIZE, d) ∧ swap_file s' a ∧
    ∀ j, j ≠ i → swap_pages s' a !! j = swap_pages s a !! j).
Proof.
  mstep. eapply runs_mono; [by apply swap_write_run|]. intros r s1 (-> & H1 & E1).
  assert (Ht : length (take i (swap_pages s a)) = i) by (rewrite length_take; lia).
  mstep. eapply runs_mono; [apply (swap_read_run s1 a i d H1); [|done]|].
  { rewrite E1, lookup_app_r by lia. by rewrite Ht, Nat.sub_diag. }
  intros x s2 (-> & H2 & E2). apply runs_ret. split_and!; [done|done|done|]. intros j Hj. rewrite E2, E1.
  destruct (Nat.lt_ge_cases j i).
  - rewrite lookup_app_l, lookup_take_lt by lia. done.
  - rewrite lookup_app_r, Ht by lia. replace (j - i)%nat with (S (j - S i)) by lia.
    change ((d :: drop (S i) (swap_pages s a)) !! S (j - S i)) with (drop (S i) (swap_pages s a) !! (j - S i)%nat).
    rewrite lookup_drop. f_equal. lia.
Qed.

#[global] Instance swap_on_disk : SwapLaws (ffs B).
Proof.
  refine {| sw_ok := swap_file; sw_pages := swap_pages |}.
  - intros. by apply swap_write_run.
  - intros. by apply swap_read_run.
Defined.
End swap.
