(* ===== verification/Sysfile.v ===== *)
(** The system calls on files (sysfile.c), and making a pipe (pipe.c): the calls get
    their arguments from the process, change its table of open files and its working
    directory, and call the file system. The bytes a call writes are read from user
    memory when it starts, and the bytes it reads are stored when it ends. *)
From Stdlib Require Import ZArith Lia Bool.
From stdpp Require Import base tactics list strings gmap.
From S2P Require Import Prelude Machine CString Format Kalloc PageTable Locks State Vm Uvm Paging Proc Syscall Exec.
From S2P Require Import Bio Log Blocks Fs Pipe File SwapDisk.

Section sysfile.
  Context {KI : KernelImage} {CF : Config} {CP : Cpus} {KT : KernelText} {KV : KernelVars}.
  Context {B : Type} {BO : BlockOps B} {DS : DevSw B}.
  Notation F := (ffs B).
  Notation K := (M (kst F)).

Definition onfsx {A} (m : M (fss B) A) : K A := liftf (onfs m).

(** The file system learns which process calls. *)
Definition as_current : K unit :=
  p ← myproc;
  pr ← getproc p;
  liftf (modify (λ s, mk_ffs (mk_fss (blk (fsx s)) (fsb (fsx s)) (icache (fsx s)) (p_pid pr)) (ftable s) (pipes s)
                        (negb (p_killed pr =? 0)))).

(** The addresses of the counters in the page of a pipe. *)
Definition pipe_chan (page : Z) (c : pchan) : chan := CAddr (page + match c with NREAD => 564 | NWRITE => 568 end).

Fixpoint wake_all (page : Z) (cs : list pchan) : K unit :=
  match cs with [] => mret tt | c :: cs => wakeup (pipe_chan page c);; wake_all page cs end.

(** The wakeups and the kfree that pipe.c has called. *)
Fixpoint settle_pipes (l : list (Z * pst)) : K unit :=
  match l with
  | [] => mret tt
  | (page, p) :: l =>
      wake_all page (woken p);;
      (if pi_freed p then
         liftk (kfree page);; liftf (modify (λ s, set_pipes (delete page (pipes s)) s))
       else liftf (modify (λ s, set_pipes (<[page := at_rest p]> (pipes s)) s)));;
      settle_pipes l
  end.
Definition settle : K unit := s ← get; settle_pipes (map_to_list (pipes (fsys s))).

(** A string argument. *)
Definition argpath (n : Z) : K (option (list Z)) :=
  o ← argstr n;
  match o with
  | None => mret None
  | Some (a, len) => l ← ubytes a (Z.to_nat len); mret (Some l)
  end.

Definition put_user (va : Z) (l : list Z) : K unit :=
  s ← get;
  m ← oget (uwrite (mem (km s)) (P2V (cr3 s)) va l);
  liftk (modify (set_mem m)).

(** * Descriptors *)

Definition argfd (n : Z) : K (option (Z * nat)) :=
  o ← argint n;
  match o with
  | None => mret None
  | Some fd =>
      if (fd <? 0) || (NOFILE <=? fd) then mret None else
      p ← myproc;
      pr ← getproc p;
      a ← oget (p_ofile pr !! Z.to_nat fd);
      mret (match entry a with None => None | Some f => Some (fd, f) end)
  end.

Definition set_fd (fd : nat) (a : Z) : K unit :=
  p ← myproc; modproc p (λ q, set_p_ofile (<[fd := a]> (p_ofile q)) q).

Definition fdalloc (f : nat) : K Z :=
  p ← myproc;
  pr ← getproc p;
  match find_idx (λ a, a =? 0) (p_ofile pr) with
  | None => mret (-1)
  | Some fd => set_fd fd (entry_addr f);; mret (Z.of_nat fd)
  end.

Definition sys_dup : K Z :=
  o ← argfd 0;
  match o with
  | None => mret (-1)
  | Some (_, f) =>
      fd ← fdalloc f;
      if fd <? 0 then mret (-1) else
      liftf (filedup f);;
      mret fd
  end.

Definition sys_read : K Z :=
  o ← argfd 0;
  match o with
  | None => mret (-1)
  | Some (_, f) =>
      n ← argint 2;
      match n with
      | None => mret (-1)
      | Some n =>
          p ← argptr 1 n;
          match p with
          | None => mret (-1)
          | Some p =>
              as_current;;
              '(r, l) ← liftf (fileread f n);
              put_user p l;;
              settle;;
              mret r
          end
      end
  end.

Definition sys_write : K Z :=
  o ← argfd 0;
  match o with
  | None => mret (-1)
  | Some (_, f) =>
      n ← argint 2;
      match n with
      | None => mret (-1)
      | Some n =>
          p ← argptr 1 n;
          match p with
          | None => mret (-1)
          | Some p =>
              l ← ubytes p (Z.to_nat n);
              as_current;;
              r ← liftf (filewrite f l n);
              settle;;
              mret r
          end
      end
  end.

Definition sys_close : K Z :=
  o ← argfd 0;
  match o with
  | None => mret (-1)
  | Some (fd, f) =>
      set_fd (Z.to_nat fd) 0;;
      as_current;;
      liftf (fileclose f);;
      settle;;
      mret 0
  end.

(** [struct stat] as it is laid out in memory: the two shorts are followed by two
    bytes of padding, which are not written. *)
Definition put_stat (va : Z) (st : stat) : K unit :=
  put_user va (half (st_type st));;
  put_user (va + 4) (word (st_dev st));;
  put_user (va + 8) (word (st_ino st));;
  put_user (va + 12) (half (st_nlink st));;
  put_user (va + 16) (word (st_size st)).

Definition sys_fstat : K Z :=
  o ← argfd 0;
  match o with
  | None => mret (-1)
  | Some (_, f) =>
      p ← argptr 1 20;
      match p with
      | None => mret (-1)
      | Some p =>
          as_current;;
          st ← liftf (filestat f);
          match st with
          | None => mret (-1)
          | Some st => put_stat p st;; mret 0
          end
      end
  end.

(** The working directory. *)
Definition getcwd : K nat := p ← myproc; pr ← getproc p; oget (entry (p_cwd pr)).

Definition sys_link : K Z :=
  old ← argpath 0;
  match old with
  | None => mret (-1)
  | Some old =>
      new ← argpath 1;
      match new with
      | None => mret (-1)
      | Some new =>
          as_current;;
          cwd ← getcwd;
          liftf begin_op';;
          r ← onfsx (link cwd old new);
          liftf end_op';;
          mret r
      end
  end.

Definition sys_unlink : K Z :=
  path ← argpath 0;
  match path with
  | None => mret (-1)
  | Some path =>
      as_current;;
      cwd ← getcwd;
      liftf begin_op';;
      r ← onfsx (unlink cwd path);
      liftf end_op';;
      mret r
  end.

(** ** open *)

(** The inode to open, locked. *)
Definition open_inode (cwd : nat) (path : list Z) (omode : Z) : M (fss B) (option nat) :=
  if negb (Z.land omode O_CREATE =? 0) then create cwd path T_FILE 0 0
  else
    o ← namei cwd path;
    match o with
    | None => mret None
    | Some ip =>
        ilock (Some ip);;
        i ← getino ip;
        if (i_type i =? T_DIR) && negb (omode =? O_RDONLY) then iunlockput ip;; mret None
        else mret (Some ip)
    end.

(** A file and a descriptor for it. *)
Definition alloc_fd : K (option (nat * Z)) :=
  f ← liftf filealloc;
  match f with
  | None => mret None
  | Some f =>
      fd ← fdalloc f;
      if fd <? 0 then liftf (fileclose f);; mret None else mret (Some (f, fd))
  end.

Definition sys_open : K Z :=
  path ← argpath 0;
  match path with
  | None => mret (-1)
  | Some path =>
      omode ← argint 1;
      match omode with
      | None => mret (-1)
      | Some omode =>
          as_current;;
          cwd ← getcwd;
          liftf begin_op';;
          o ← onfsx (open_inode cwd path omode);
          match o with
          | None => liftf end_op';; mret (-1)
          | Some ip =>
              a ← alloc_fd;
              match a with
              | None => onfsx (iunlockput ip);; liftf end_op';; mret (-1)
              | Some (f, fd) =>
                  onfsx (iunlock (Some ip));;
                  liftf end_op';;
                  let wr := negb (Z.land omode O_WRONLY =? 0) in
                  liftf (modfile f (λ x, mk_file FD_INODE (f_ref x) (if wr then 0 else 1)
                           (if wr || negb (Z.land omode O_RDWR =? 0) then 1 else 0) (f_pipe x) ip 0));;
                  mret fd
              end
          end
      end
  end.

(** The end of sys_mkdir and sys_mknod. *)
Definition create_node (path : list Z) (type major minor : Z) : K Z :=
  cwd ← getcwd;
  o ← onfsx (create cwd path type major minor);
  match o with
  | None => liftf end_op';; mret (-1)
  | Some ip => onfsx (iunlockput ip);; liftf end_op';; mret 0
  end.

Definition sys_mkdir : K Z :=
  as_current;;
  liftf begin_op';;
  path ← argpath 0;
  match path with
  | None => liftf end_op';; mret (-1)
  | Some path => create_node path T_DIR 0 0
  end.

Definition sys_mknod : K Z :=
  as_current;;
  liftf begin_op';;
  path ← argpath 0;
  match path with
  | None => liftf end_op';; mret (-1)
  | Some path =>
      major ← argint 1;
      match major with
      | None => liftf end_op';; mret (-1)
      | Some major =>
          minor ← argint 2;
          match minor with
          | None => liftf end_op';; mret (-1)
          | Some minor => create_node path T_DEV (s16 major) (s16 minor)
          end
      end
  end.

Definition sys_chdir : K Z :=
  as_current;;
  liftf begin_op';;
  path ← argpath 0;
  match path with
  | None => liftf end_op';; mret (-1)
  | Some path =>
      cwd ← getcwd;
      o ← onfsx (namei cwd path);
      match o with
      | None => liftf end_op';; mret (-1)
      | Some ip =>
          onfsx (ilock (Some ip));;
          i ← onfsx (getino ip);
          if negb (i_type i =? T_DIR) then onfsx (iunlockput ip);; liftf end_op';; mret (-1) else
          onfsx (iunlock (Some ip));;
          onfsx (iput cwd);;
          liftf end_op';;
          p ← myproc;
          modproc p (set_p_cwd (entry_addr ip));;
          mret 0
      end
  end.

(** * Pipes *)

(** The two files, the read end first; the page holds what kalloc left in it. *)
Definition pipealloc : K (option (nat * nat)) :=
  f0 ← liftf filealloc;
  match f0 with
  | None => mret None
  | Some f0 =>
      f1 ← liftf filealloc;
      match f1 with
      | None => liftf (fileclose f0);; mret None
      | Some f1 =>
          p ← liftk kalloc;
          if p =? 0 then liftf (fileclose f0);; liftf (fileclose f1);; mret None else
          s ← get;
          let junk := (λ i, ld8 (mem (km s)) (p + 52 + Z.of_nat i)) <$> seq 0 512 in
          liftf (modify (λ s, set_pipes (<[p := mk_pst (pipe_new junk) false []]> (pipes s)) s));;
          liftf (modfile f0 (λ x, mk_file FD_PIPE (f_ref x) 1 0 p (f_ip x) (f_off x)));;
          liftf (modfile f1 (λ x, mk_file FD_PIPE (f_ref x) 0 1 p (f_ip x) (f_off x)));;
          mret (Some (f0, f1))
      end
  end.

Definition sys_pipe : K Z :=
  fd ← argptr 0 8;
  match fd with
  | None => mret (-1)
  | Some fd =>
      as_current;;
      o ← pipealloc;
      match o with
      | None => mret (-1)
      | Some (rf, wf) =>
          fd0 ← fdalloc rf;
          fd1 ← (if fd0 <? 0 then mret (-1) else fdalloc wf);
          if (fd0 <? 0) || (fd1 <? 0) then
            (if 0 <=? fd0 then set_fd (Z.to_nat fd0) 0 else mret tt);;
            liftf (fileclose rf);;
            liftf (fileclose wf);;
            settle;;
            mret (-1)
          else
            put_user fd (word fd0);;
            put_user (fd + 4) (word fd1);;
            mret 0
      end
  end.

#[global] Instance file_calls : FileCalls F := {
  Syscall.sys_pipe := sys_pipe;
  Syscall.sys_read := sys_read;
  Syscall.sys_exec := sys_exec_call;
  Syscall.sys_fstat := sys_fstat;
  Syscall.sys_chdir := sys_chdir;
  Syscall.sys_dup := sys_dup;
  Syscall.sys_open := sys_open;
  Syscall.sys_write := sys_write;
  Syscall.sys_mknod := sys_mknod;
  Syscall.sys_unlink := sys_unlink;
  Syscall.sys_link := sys_link;
  Syscall.sys_mkdir := sys_mkdir;
  Syscall.sys_close := sys_close }.
End sysfile.
