(* ===== verification/Console.v ===== *)
(** The console (console.c): the screen and the serial port that characters go to, the
    ring buffer of what is typed with its line editing, and reading and writing the
    console device; proved to be a line editor.

    The spin lock of the console is held only inside one operation; consoleread gives it
    up where it sleeps, and goes on from there. *)
From Stdlib Require Import ZArith Lia Bool.
From stdpp Require Import base tactics list list_numbers strings sets.
From S2P Require Import Prelude Machine Ring.

(** * Output *)

Definition BACKSPACE : Z := 0x100.

(** The memory of the screen, 25 rows of 80 characters with their attributes, the
    cursor register, the characters sent to the serial port (the last one first), and
    the flags [uart], for a serial port that is there, and [panicked]. *)
Record screen := mk_screen { crt : list Z; cursor : Z; uart_out : list Z; uart : bool; panicked : bool }.

Definition set_crt (v : list Z) (s : screen) : screen := mk_screen v (cursor s) (uart_out s) (uart s) (panicked s).
Definition set_cursor (v : Z) (s : screen) : screen := mk_screen (crt s) v (uart_out s) (uart s) (panicked s).

(** [crt[pos] = v] *)
Definition crt_put (pos v : Z) : M screen unit :=
  s ← get;
  if (pos <? 0) || (Z.of_nat (length (crt s)) <=? pos) then fault
  else modify (set_crt (<[Z.to_nat pos := v]> (crt s))).

(** The rows move up by one, and the rest from [pos] to the end of row 24 is cleared. *)
Definition scroll (pos : Z) : M screen unit :=
  modify (λ s, let moved := take (23 * 80) (drop 80 (crt s)) ++ drop (23 * 80) (crt s) in
               set_crt (take (Z.to_nat pos) moved ++ replicate (Z.to_nat (24 * 80 - pos)) 0 ++ drop (24 * 80) moved) s).

(** The cursor is read and written in two bytes. *)
Definition cgaputc (c : Z) : M screen unit :=
  s ← get;
  let pos := cursor s in
  pos ← (if c =? 10 then mret (pos + (80 - pos mod 80))
         else if c =? BACKSPACE then mret (if 0 <? pos then pos - 1 else pos)
         else crt_put pos (Z.lor (Z.land c 0xff) 0x0700);; mret (pos + 1));
  if (pos <? 0) || (25 * 80 <? pos) then panic "pos under/overflow" else
  pos ← (if 24 <=? pos / 80 then scroll (pos - 80);; mret (pos - 80) else mret pos);
  modify (set_cursor (Z.lor (Z.shiftl (Z.land (Z.shiftr pos 8) 0xff) 8) (Z.land pos 0xff)));;
  crt_put pos (Z.lor 32 0x0700).

(** The port takes the character after the delay. *)
Definition uartputc (c : Z) : M screen unit :=
  s ← get;
  if negb (uart s) then mret tt else
  modify (λ s, mk_screen (crt s) (cursor s) (Z.land c 0xff :: uart_out s) (uart s) (panicked s)).

(** After a panic the CPU stays in a loop. *)
Definition consputc (c : Z) : M screen unit :=
  s ← get;
  if panicked s then blocked else
  (if c =? BACKSPACE then uartputc 8;; uartputc 32;; uartputc 8 else uartputc c);;
  cgaputc c.

(** * Input *)

Definition INPUT_BUF : Z := 128.

(** Control-x *)
Definition Ctrl (x : Z) : Z := x - 64.
Definition ctrl_P : Z := Ctrl 80.
Definition ctrl_U : Z := Ctrl 85.
Definition ctrl_H : Z := Ctrl 72.
Definition ctrl_D : Z := Ctrl 68.

(** The buffer with its read, write and edit index, the screen, and how many times the
    readers have been woken. *)
Record cons := mk_cons { in_buf : list Z; in_r : Z; in_w : Z; in_e : Z; scr : screen; wakes : nat }.

Definition set_in_r (v : Z) (s : cons) : cons := mk_cons (in_buf s) v (in_w s) (in_e s) (scr s) (wakes s).
Definition set_in_e (v : Z) (s : cons) : cons := mk_cons (in_buf s) (in_r s) (in_w s) v (scr s) (wakes s).
Definition set_scr (v : screen) (s : cons) : cons := mk_cons (in_buf s) (in_r s) (in_w s) (in_e s) v (wakes s).
Definition onscr {A} (m : M screen A) : M cons A := zoom scr set_scr m.

(** [buf[i % INPUT_BUF]] *)
Definition in_char (i : Z) (s : cons) : option Z := in_buf s !! Z.to_nat (i mod INPUT_BUF).

Definition erase : M cons unit := modify (λ s, set_in_e (u32 (in_e s - 1)) s);; onscr (consputc BACKSPACE).

(** The loop for Control-U. *)
Fixpoint kill_line (fuel : nat) : M cons unit :=
  s ← get;
  if in_e s =? in_w s then mret tt else
  c ← oget (in_char (u32 (in_e s - 1)) s);
  if c =? 10 then mret tt else
  match fuel with
  | O => nofuel
  | S fuel => erase;; kill_line fuel
  end.

(** One character; whether procdump was asked for. *)
Definition cons_key (c : Z) : M cons bool :=
  s ← get;
  if c =? ctrl_P then mret true
  else if c =? ctrl_U then kill_line (Z.to_nat (u32 (in_e s - in_w s)));; mret false
  else if (c =? ctrl_H) || (c =? 127) then (if in_e s =? in_w s then mret tt else erase);; mret false
  else if negb (c =? 0) && (u32 (in_e s - in_r s) <? INPUT_BUF) then
    let c := if c =? 13 then 10 else c in
    modify (λ s, mk_cons (<[Z.to_nat (in_e s mod INPUT_BUF) := c mod 256]> (in_buf s)) (in_r s) (in_w s) (u32 (in_e s + 1)) (scr s) (wakes s));;
    onscr (consputc c);;
    s ← get;
    (if (c =? 10) || (c =? ctrl_D) || (in_e s =? u32 (in_r s + INPUT_BUF))
     then modify (λ s, mk_cons (in_buf s) (in_r s) (in_e s) (in_e s) (scr s) (S (wakes s)))
     else mret tt);;
    mret false
  else mret false.

(** The characters that [getc] returns until it returns a negative number. *)
Fixpoint consoleintr (keys : list Z) (doprocdump : bool) : M cons bool :=
  match keys with
  | [] => mret doprocdump
  | c :: keys => d ← cons_key c; consoleintr keys (doprocdump || d)
  end.

(** How a part of consoleread ends: it returns, or it sleeps with [n] bytes to go. *)
Inductive cout := CRet (r : Z) | CSleep (n : Z).

(** The loop of consoleread for [k] more bytes, with the bytes stored so far; the lock is
    held. *)
Fixpoint cons_read (k : nat) (target : Z) (killed : bool) (acc : list Z) : M cons (cout * list Z) :=
  match k with
  | O => mret (CRet target, acc)
  | S k =>
      let n := Z.of_nat (S k) in
      s ← get;
      if in_r s =? in_w s then mret (if killed then CRet (-1) else CSleep n, acc) else
      c ← oget (in_char (in_r s) s);
      modify (set_in_r (u32 (in_r s + 1)));;
      if c =? ctrl_D then
        (if n <? target then modify (λ s, set_in_r (u32 (in_r s - 1)) s) else mret tt);;
        mret (CRet (target - n), acc)
      else if c =? 10 then mret (CRet (target - (n - 1)), acc ++ [c])
      else cons_read k target killed (acc ++ [c])
  end.

(** consoleread from its start, or from its sleep with [n] of [target] bytes to go. *)
Definition consoleread (target n : Z) (killed : bool) : M cons (cout * list Z) := cons_read (Z.to_nat n) target killed [].

Fixpoint cons_puts (l : list Z) : M screen unit :=
  match l with [] => mret tt | c :: l => consputc (Z.land c 0xff);; cons_puts l end.

Definition consolewrite (buf : list Z) (n : Z) : M screen Z := cons_puts (take (Z.to_nat n) buf);; mret n.

(** * The screen *)

Record screen_ok (s : screen) : Prop := {
  so_len : length (crt s) = 2000%nat;
  so_cursor : 0 ≤ cursor s < 24 * 80;
  so_uart : uart s = true;
  so_live : panicked s = false }.

Definition uart_bytes (c : Z) : list Z := if c =? BACKSPACE then [8; 32; 8] else [Z.land c 0xff].

Lemma cursor_bytes pos : 0 ≤ pos < 2 ^ 16 → Z.lor (Z.shiftl (Z.land (Z.shiftr pos 8) 0xff) 8) (Z.land pos 0xff) = pos.
Proof.
  intros H. change 0xff with (Z.ones 8). rewrite !Z.land_ones, Z.shiftr_div_pow2 by lia.
  rewrite (Z.mod_small (pos / 2 ^ 8)) by (Z.to_euclidean_division_equations; lia).
  rewrite lor_shiftl_add by (try lia; apply Z.mod_pos_bound; lia).
  pose proof (Z.div_mod pos (2 ^ 8) ltac:(done)). lia.
Qed.

Lemma crt_put_run pos v s Q : length (crt s) = 2000%nat → 0 ≤ pos < 2000 →
  Q tt (set_crt (<[Z.to_nat pos := v]> (crt s)) s) → runs (crt_put pos v) s Q.
Proof.
  intros Hl Hp HQ. unfold crt_put. mstep. apply runs_get. rewrite Hl, (proj2 (Z.ltb_ge pos 0)), (proj2 (Z.leb_gt _ pos)) by lia.
  by apply runs_modify.
Qed.

Lemma cgaputc_run c s : screen_ok s → runs (cgaputc c) s (λ _ s', screen_ok s' ∧ uart_out s' = uart_out s).
Proof.
  intros [Hl Hc Hua Hpa]. unfold cgaputc. mstep. apply runs_get. mstep.
  eapply (runs_mono _ _ (λ pos s1, length (crt s1) = 2000%nat ∧ uart_out s1 = uart_out s ∧ uart s1 = true ∧ panicked s1 = false ∧ 0 ≤ pos ≤ 24 * 80)).
  { destruct (c =? 10); [apply runs_ret; split_and!; try done; Z.to_euclidean_division_equations; lia|].
    destruct (c =? BACKSPACE); [apply runs_ret; split_and!; try done; destruct (Z.ltb_spec 0 (cursor s)); lia|].
    mstep. apply crt_put_run; [done|lia|]. apply runs_ret. cbn. rewrite length_insert. split_and!; try done; lia. }
  intros pos s1 (Hl1 & Hu1 & Hua1 & Hpa1 & Hp). rewrite (proj2 (Z.ltb_ge pos 0)), (proj2 (Z.ltb_ge _ pos)) by lia. cbn [orb]. mstep.
  eapply (runs_mono _ _ (λ pos s2, length (crt s2) = 2000%nat ∧ uart_out s2 = uart_out s ∧ uart s2 = true ∧ panicked s2 = false ∧ 0 ≤ pos < 24 * 80)).
  { destruct (Z.leb_spec 24 (pos / 80)) as [H24|H24].
    - mstep. unfold scroll. apply runs_modify. apply runs_ret. cbn [crt uart_out set_crt uart panicked].
      rewrite !length_app, length_take, length_replicate, length_drop, !length_app, length_take, !length_drop, Hl1.
      split_and!; try done; Z.to_euclidean_division_equations; lia.
    - apply runs_ret. split_and!; try done; Z.to_euclidean_division_equations; lia. }
  intros pos2 s2 (Hl2 & Hu2 & Hua2 & Hpa2 & Hp2). mstep. apply runs_modify. rewrite cursor_bytes by lia.
  apply crt_put_run; [done|lia|]. split; [|done]. split; cbn; [by rewrite length_insert|done..].
Qed.

Lemma uartputc_run c s Q : uart s = true →
  Q tt (mk_screen (crt s) (cursor s) (Z.land c 0xff :: uart_out s) (uart s) (panicked s)) → runs (uartputc c) s Q.
Proof. intros Hu HQ. unfold uartputc. mstep. apply runs_get. rewrite Hu. by apply runs_modify. Qed.

Lemma consputc_run c s : screen_ok s →
  runs (consputc c) s (λ _ s', screen_ok s' ∧ uart_out s' = reverse (uart_bytes c) ++ uart_out s).
Proof.
  intros H. unfold consputc, uart_bytes. mstep. apply runs_get. rewrite (so_live _ H). mstep. destruct (c =? BACKSPACE).
  - mstep. apply uartputc_run; [apply H|]. mstep. apply uartputc_run; [apply H|]. apply uartputc_run; [apply H|].
    eapply runs_mono; [apply cgaputc_run; destruct H; by split|]. done.
  - apply uartputc_run; [apply H|]. eapply runs_mono; [apply cgaputc_run; destruct H; by split|]. done.
Qed.

(** * The line editor *)

(** What can be read, and the line that is being typed. *)
Record editor := mk_ed { ready : list Z; editing : list Z }.

Definition ed_size (a : editor) : Z := Z.of_nat (length (ready a) + length (editing a)).

Definition ed_key (c : Z) (a : editor) : editor :=
  if c =? ctrl_P then a
  else if c =? ctrl_U then mk_ed (ready a) []
  else if (c =? ctrl_H) || (c =? 127) then mk_ed (ready a) (take (length (editing a) - 1) (editing a))
  else if negb (c =? 0) && (ed_size a <? INPUT_BUF) then
    let c := if c =? 13 then 10 else c in
    let l := editing a ++ [c] in
    if (c =? 10) || (c =? ctrl_D) || (ed_size a + 1 =? INPUT_BUF) then mk_ed (ready a ++ l) [] else mk_ed (ready a) l
  else a.

(** What the console shows. *)
Definition ed_echo (c : Z) (a : editor) : list Z :=
  if c =? ctrl_P then []
  else if c =? ctrl_U then replicate (length (editing a)) BACKSPACE
  else if (c =? ctrl_H) || (c =? 127) then (if bool_decide (editing a = []) then [] else [BACKSPACE])
  else if negb (c =? 0) && (ed_size a <? INPUT_BUF) then [if c =? 13 then 10 else c]
  else [].

(** Reading [k] bytes: up to the end of a line or a Control-D, which ends the file when
    nothing has been read ([got]) and is kept for the next read otherwise. The bytes, what
    is left, and whether the reader has to wait. *)
Fixpoint ed_read (k : nat) (got : bool) (l : list Z) : list Z * list Z * bool :=
  match k with
  | O => ([], l, false)
  | S k =>
      match l with
      | [] => ([], [], true)
      | c :: l' =>
          if c =? ctrl_D then ([], if got then l else l', false)
          else if c =? 10 then ([c], l', false)
          else let '(b, r, z) := ed_read k true l' in (c :: b, r, z)
      end
  end.

(** The buffer stands for the editor: [na] bytes to read and [nb] that can be edited. *)
Record cons_is (s : cons) (a : editor) (na nb : Z) : Prop := {
  ci_len : length (in_buf s) = 128%nat;
  ci_na : 0 ≤ na;
  ci_nb : 0 ≤ nb;
  ci_fit : na + nb ≤ INPUT_BUF;
  ci_r : 0 ≤ in_r s < 2 ^ 32;
  ci_w : in_w s = u32 (in_r s + na);
  ci_e : in_e s = u32 (in_r s + na + nb);
  ci_ready : ready a = ring INPUT_BUF (in_buf s) (in_r s) na;
  ci_edit : editing a = ring INPUT_BUF (in_buf s) (in_w s) nb;
  ci_line : 10 ∉ editing a;
  ci_screen : screen_ok (scr s) }.

Lemma input_pos : 0 < INPUT_BUF.
Proof. done. Qed.
Lemma input_div : 2 ^ 32 = 2 ^ 25 * INPUT_BUF.
Proof. done. Qed.

Section editor.
  Context (s : cons) (a : editor) (na nb : Z) (H : cons_is s a na nb).

Lemma edit_empty : (in_e s =? in_w s) = (nb =? 0).
Proof.
  destruct H. rewrite ci_w0, ci_e0. unfold u32, INPUT_BUF in *. apply eq_true_iff_eq. rewrite !Z.eqb_eq.
  Z.to_euclidean_division_equations; lia.
Qed.

Lemma ready_empty : (in_r s =? in_w s) = (na =? 0).
Proof.
  destruct H. rewrite ci_w0. unfold u32, INPUT_BUF in *. apply eq_true_iff_eq. rewrite !Z.eqb_eq.
  Z.to_euclidean_division_equations; lia.
Qed.

Lemma input_size : u32 (in_e s - in_r s) = na + nb.
Proof. destruct H. rewrite ci_e0. unfold u32, INPUT_BUF in *. Z.to_euclidean_division_equations; lia. Qed.

Lemma edit_size : u32 (in_e s - in_w s) = nb.
Proof. destruct H. rewrite ci_e0, ci_w0. unfold u32, INPUT_BUF in *. Z.to_euclidean_division_equations; lia. Qed.

Lemma editor_size : ed_size a = na + nb ∧ length (editing a) = Z.to_nat nb ∧ length (ready a) = Z.to_nat na.
Proof.
  destruct H. unfold ed_size. rewrite ci_ready0, ci_edit0.
  pose proof (ring_length INPUT_BUF (in_buf s) (in_r s) na ci_na0). pose proof (ring_length INPUT_BUF (in_buf s) (in_w s) nb ci_nb0). lia.
Qed.
End editor.

(** The edit index moves back by one. *)
Lemma erase_run s a na nb : cons_is s a na nb → 0 < nb →
  runs erase s (λ _ s', cons_is s' (mk_ed (ready a) (take (length (editing a) - 1) (editing a))) na (nb - 1) ∧
    uart_out (scr s') = reverse (uart_bytes BACKSPACE) ++ uart_out (scr s)).
Proof.
  intros H Hn. unfold erase. mstep. apply runs_modify. apply runs_zoom. pose proof (ci_screen _ _ _ _ H) as Hs.
  eapply runs_mono; [apply consputc_run; exact Hs|]. intros [] x [Hx Hu]. split; [|exact Hu].
  destruct (ring_snoc INPUT_BUF _ _ input_pos input_div (ci_len _ _ _ _ H) (in_w s) nb Hn) as (y & _ & Ey).
  rewrite <-(ci_edit _ _ _ _ H) in Ey. pose proof (ring_length INPUT_BUF (in_buf s) (in_w s) (nb - 1) ltac:(lia)) as Hr.
  assert (Et : take (length (editing a) - 1) (editing a) = ring INPUT_BUF (in_buf s) (in_w s) (nb - 1)).
  { rewrite Ey, length_app. cbn. rewrite Nat.add_sub. apply take_app_length. }
  destruct H. split; cbn; try done; try lia.
  - rewrite ci_e0. unfold u32 in *. rewrite Zminus_mod_idemp_l. f_equal. lia.
  - rewrite Et. intros Hin. apply ci_line0. rewrite Ey. set_solver.
Qed.

Lemma kill_line_run fuel : ∀ s a na nb, cons_is s a na nb → (Z.to_nat nb ≤ fuel)%nat →
  runs (kill_line fuel) s (λ _ s', cons_is s' (mk_ed (ready a) []) na 0 ∧
    uart_out (scr s') = reverse (replicate (length (editing a)) BACKSPACE ≫= uart_bytes) ++ uart_out (scr s)).
Proof.
  induction fuel as [|fuel IH]; intros s a na nb H Hf; destruct (editor_size s a na nb H) as (_ & El & _); cbn [kill_line]; mstep; apply runs_get;
    rewrite (edit_empty s a na nb H); destruct (Z.eqb_spec nb 0) as [->|Hne].
  1,3: apply runs_ret; assert (En : editing a = []) by (destruct (editing a); [done|cbn in El; lia]); rewrite En; split; [|done];
    destruct H as [H1 H2 H3 H4 H5 H6 H7 H8 H9 H10 H11]; rewrite En in *; by split.
  1: pose proof (ci_nb _ _ _ _ H); lia.
  pose proof (ci_nb _ _ _ _ H) as Hnb.
  destruct (ring_snoc INPUT_BUF _ _ input_pos input_div (ci_len _ _ _ _ H) (in_w s) nb ltac:(lia)) as (y & Hy & Ey).
  rewrite <-(ci_edit _ _ _ _ H) in Ey. mstep. apply (runs_oget _ y).
  { unfold in_char. rewrite <-Hy. do 3 f_equal. rewrite (ci_e _ _ _ _ H), (ci_w _ _ _ _ H). unfold u32.
    rewrite Zminus_mod_idemp_l, <-Z.add_sub_assoc, <-(Z.add_sub_assoc _ nb), Z.add_mod_idemp_l by done. by rewrite Z.add_sub_assoc. }
  assert (Hy10 : y ≠ 10) by (intros ->; apply (ci_line _ _ _ _ H); rewrite Ey; set_solver).
  rewrite (proj2 (Z.eqb_neq y 10)) by done. mstep. eapply runs_mono; [apply (erase_run s a na nb H); lia|].
  intros [] s1 [H1 U1]. eapply runs_mono; [apply (IH s1 _ na (nb - 1) H1); lia|]. intros [] s2 [H2 U2]. split; [exact H2|].
  rewrite U2, U1. cbn [editing]. rewrite length_take, El. replace (Z.to_nat nb) with (S (Z.to_nat (nb - 1))) by lia.
  replace ((S (Z.to_nat (nb - 1)) - 1) `min` S (Z.to_nat (nb - 1)))%nat with (Z.to_nat (nb - 1)) by lia.
  by rewrite app_assoc, <-reverse_app.
Qed.

(** A character is added to the line, and the line perhaps ended. *)
Lemma type_run s a na nb c : cons_is s a na nb → na + nb < INPUT_BUF → 0 ≤ c < 256 →
  let commit := (c =? 10) || (c =? ctrl_D) || (na + nb + 1 =? INPUT_BUF) in
  runs (modify (λ s, mk_cons (<[Z.to_nat (in_e s mod INPUT_BUF) := c mod 256]> (in_buf s)) (in_r s) (in_w s) (u32 (in_e s + 1)) (scr s) (wakes s));;
        onscr (consputc c);;
        s ← get;
        (if (c =? 10) || (c =? ctrl_D) || (in_e s =? u32 (in_r s + INPUT_BUF))
         then modify (λ s, mk_cons (in_buf s) (in_r s) (in_e s) (in_e s) (scr s) (S (wakes s)))
         else mret tt);;
        mret false) s (λ d s', d = false ∧ uart_out (scr s') = reverse (uart_bytes c) ++ uart_out (scr s) ∧
    if commit then cons_is s' (mk_ed (ready a ++ editing a ++ [c]) []) (na + nb + 1) 0
    else cons_is s' (mk_ed (ready a) (editing a ++ [c])) na (nb + 1)).
Proof.
  intros H Hsz Hc commit. pose proof H as []. mstep. apply runs_modify. mstep. apply runs_zoom. eapply runs_mono; [by apply consputc_run|].
  intros [] x [Hx Hu]. mstep. apply runs_get. cbn [in_e in_r set_scr]. rewrite (Z.mod_small c) by lia.
  assert (Ew : u32 (in_w s + nb) = in_e s) by (rewrite ci_w0, ci_e0; unfold u32; by rewrite Z.add_mod_idemp_l).
  assert (Er : u32 (in_r s + (na + nb)) = in_e s) by (rewrite ci_e0; f_equal; lia).
  assert (E1 : ring INPUT_BUF (<[Z.to_nat (in_e s mod INPUT_BUF) := c]> (in_buf s)) (in_w s) (nb + 1) = editing a ++ [c]).
  { rewrite <-Ew, ci_edit0. apply (ring_push _ _ _ _ _ _ input_pos input_div); [exact ci_len0|lia]. }
  assert (E2 : ring INPUT_BUF (<[Z.to_nat (in_e s mod INPUT_BUF) := c]> (in_buf s)) (in_r s) na = ready a).
  { rewrite <-Er, ci_ready0. apply (ring_put _ _ _ input_pos input_div); first [exact ci_len0|lia]. }
  assert (Ee : u32 (in_e s + 1) = u32 (in_r s + na + (nb + 1))).
  { rewrite ci_e0. unfold u32. rewrite Z.add_mod_idemp_l by done. f_equal. lia. }
  assert (Ef : (u32 (in_e s + 1) =? u32 (in_r s + INPUT_BUF)) = (na + nb + 1 =? INPUT_BUF)).
  { rewrite Ee. unfold u32, INPUT_BUF in *. apply eq_true_iff_eq. rewrite !Z.eqb_eq. Z.to_euclidean_division_equations; lia. }
  rewrite Ef. fold commit. mstep. destruct commit eqn:Ec.
  - apply runs_modify. apply runs_ret. split_and!; [done|exact Hu|]. split; cbn; try done; try lia; try (by rewrite length_insert).
    + rewrite Ee. f_equal. lia.
    + rewrite Ee. f_equal. lia.
    + rewrite <-Z.add_assoc, (ring_app _ _ _ input_pos input_div), E2 by lia. by rewrite <-ci_w0, E1.
    + set_solver.
  - apply runs_ret. apply runs_ret. split_and!; [done|exact Hu|]. apply orb_false_iff in Ec as [Ec Ec3]. apply orb_false_iff in Ec as [Ec1 Ec2].
    apply Z.eqb_neq in Ec1, Ec3. split; cbn; try done; try lia; try (by rewrite length_insert). set_solver.
Qed.

Lemma cons_key_run s a na nb c : cons_is s a na nb → 0 ≤ c < 256 →
  runs (cons_key c) s (λ d s', d = (c =? ctrl_P) ∧ (∃ na' nb', cons_is s' (ed_key c a) na' nb') ∧
    uart_out (scr s') = reverse (ed_echo c a ≫= uart_bytes) ++ uart_out (scr s)).
Proof.
  intros H Hc. destruct (editor_size s a na nb H) as (Es & El & Er). unfold cons_key, ed_key, ed_echo. mstep. apply runs_get.
  destruct (Z.eqb_spec c ctrl_P) as [->|HP]; [apply runs_ret; eauto 10|].
  destruct (Z.eqb_spec c ctrl_U) as [->|HU].
  { mstep. eapply runs_mono; [apply (kill_line_run _ s a na nb H); rewrite (edit_size s a na nb H); lia|].
    intros [] s' [H' U']. apply runs_ret. eauto 10. }
  destruct ((c =? ctrl_H) || (c =? 127)) eqn:EH.
  { rewrite (edit_empty s a na nb H). mstep. destruct (Z.eqb_spec nb 0) as [->|Hne].
    - apply runs_ret. apply runs_ret. assert (En : editing a = []) by (destruct (editing a); [done|cbn in El; lia]).
      rewrite En. cbn. split_and!; [done| |done]. exists na, 0. destruct H as [H1 H2 H3 H4 H5 H6 H7 H8 H9 H10 H11]. rewrite En in *. by split.
    - pose proof (ci_nb _ _ _ _ H). eapply runs_mono; [apply (erase_run s a na nb H); lia|]. intros [] s' [H' U']. apply runs_ret.
      rewrite bool_decide_false by (intros En; rewrite En in El; cbn in El; lia). cbn in *. eauto 10. }
  rewrite (input_size s a na nb H), Es. destruct (negb (c =? 0) && (na + nb <? INPUT_BUF)) eqn:Ed; [|apply runs_ret; cbn; eauto 10].
  apply andb_true_iff in Ed as [_ Ed%Z.ltb_lt]. set (c' := if c =? 13 then 10 else c).
  assert (Hc' : 0 ≤ c' < 256) by (unfold c'; destruct (c =? 13); lia).
  eapply runs_mono; [apply (type_run s a na nb c' H Ed Hc')|]. intros d s' (-> & Hu & Hs). split_and!; [done| |by cbn; rewrite app_nil_r].
  cbv zeta. fold c'. destruct ((c' =? 10) || (c' =? ctrl_D) || (na + nb + 1 =? INPUT_BUF)); eauto.
Qed.

(** ** Reading *)

Lemma next_char s a na nb : cons_is s a na nb → 0 < na →
  ∃ c l, in_char (in_r s) s = Some c ∧ ready a = c :: l ∧
    cons_is (set_in_r (u32 (in_r s + 1)) s) (mk_ed l (editing a)) (na - 1) nb.
Proof.
  intros H Hn. pose proof H as [].
  destruct (ring_cons INPUT_BUF _ _ input_pos input_div ci_len0 (in_r s) na Hn) as (c & Hc & Er). rewrite <-ci_ready0 in Er.
  exists c, (ring INPUT_BUF (in_buf s) (u32 (in_r s + 1)) (na - 1)). split_and!; [done|done|].
  split; cbn; try done; try lia; [apply u32_range| |].
  - rewrite ci_w0, u32_add_l. f_equal. lia.
  - rewrite ci_e0, <-(Z.add_assoc (u32 _)), u32_add_l. f_equal. lia.
Qed.

(** What consoleread returns for the [b] bytes read and whether it has to wait. *)
Definition read_res (target : Z) (k : nat) (killed : bool) (b : list Z) (wait : bool) : cout :=
  let left := Z.of_nat k - Z.of_nat (length b) in
  if wait then (if killed then CRet (-1) else CSleep left) else CRet (target - left).

Lemma cons_read_run k : ∀ target killed acc s a na nb, cons_is s a na nb → Z.of_nat k ≤ target →
  runs (cons_read k target killed acc) s (λ '(o, l) s',
    let '(b, r, z) := ed_read k (Z.of_nat k <? target) (ready a) in
    l = acc ++ b ∧ o = read_res target k killed b z ∧ (∃ na', cons_is s' (mk_ed r (editing a)) na' nb) ∧ scr s' = scr s).
Proof.
  induction k as [|k IH]; intros target killed acc s a na nb H Ht; cbn [cons_read ed_read].
  { apply runs_ret. unfold read_res. cbn [length]. rewrite app_nil_r. split_and!; [done|f_equal; lia| |done]. exists na. by destruct a. }
  mstep. apply runs_get. rewrite (ready_empty s a na nb H). destruct (Z.eqb_spec na 0) as [->|Hne].
  { apply runs_ret. destruct (editor_size s a 0 nb H) as (_ & _ & Er). destruct (ready a) eqn:Ea; [|done].
    unfold read_res. cbn [length]. rewrite app_nil_r, Z.sub_0_r. split_and!; [done|by destruct killed| |done]. exists 0. rewrite <-Ea. by destruct a. }
  pose proof (ci_na _ _ _ _ H). destruct (next_char s a na nb H ltac:(lia)) as (c & l & Hc & Ea & H1). rewrite Ea.
  mstep. apply (runs_oget _ c); [done|]. mstep. apply runs_modify. destruct (Z.eqb_spec c ctrl_D) as [->|HD].
  - mstep. destruct (Z.of_nat (S k) <? target); [apply runs_modify|apply runs_ret]; apply runs_ret; unfold read_res; cbn [length];
      rewrite app_nil_r; (split_and!; [done|f_equal; lia| |done]).
    + exists na. cbn. pose proof (ci_r _ _ _ _ H) as Hr.
      assert (Eb : set_in_r (u32 (u32 (in_r s + 1) - 1)) (set_in_r (u32 (in_r s + 1)) s) = s).
      { assert (u32 (u32 (in_r s + 1) - 1) = in_r s) as ->; [|by destruct s]. unfold u32. rewrite Zminus_mod_idemp_l, Z.add_simpl_r. by apply Z.mod_small. }
      rewrite Eb, <-Ea. by destruct a.
    + by exists (na - 1).
  - destruct (Z.eqb_spec c 10) as [->|HN].
    + apply runs_ret. unfold read_res. cbn [length]. split_and!; [done|f_equal; lia| |done]. by exists (na - 1).
    + eapply runs_mono; [apply (IH target killed (acc ++ [c]) _ _ (na - 1) nb H1); lia|]. intros [o l'] s'. cbn [ready editing].
      rewrite (proj2 (Z.ltb_lt (Z.of_nat k) target)) by lia. destruct (ed_read k true l) as [[b r] z].
      intros (-> & -> & Hs & Hsc). split_and!; [by rewrite <-app_assoc| |done|done].
      unfold read_res. cbn [length]. replace (Z.of_nat (S k) - Z.of_nat (S (length b))) with (Z.of_nat k - Z.of_nat (length b)) by lia. done.
Qed.

(** ** Sequences of operations *)

(** Interrupts with the characters that were typed, and reads of [n] bytes, of [target]
    in all. *)
Inductive cop := CKeys (keys : list Z) | CRead (target n : Z) (killed : bool).
Inductive cres := RKeys (dump : bool) | RRead (o : cout) (bytes : list Z).

Definition cop_ok (o : cop) : Prop :=
  match o with CKeys keys => Forall (λ c, 0 ≤ c < 256) keys | CRead target n _ => 0 ≤ n ≤ target end.

Definition cons_op (o : cop) : M cons cres :=
  match o with
  | CKeys keys => d ← consoleintr keys false; mret (RKeys d)
  | CRead target n killed => '(o, l) ← consoleread target n killed; mret (RRead o l)
  end.

Fixpoint cons_run (ops : list cop) : M cons (list cres) :=
  match ops with [] => mret [] | o :: ops => r ← cons_op o; rs ← cons_run ops; mret (r :: rs) end.

(** The same for the line editor: the results, what is shown, and the editor. *)
Fixpoint ed_keys (keys : list Z) (a : editor) : list Z * editor :=
  match keys with [] => ([], a) | c :: keys => let '(e, a') := ed_keys keys (ed_key c a) in (ed_echo c a ++ e, a') end.

Definition ed_op (o : cop) (a : editor) : cres * list Z * editor :=
  match o with
  | CKeys keys => let '(e, a') := ed_keys keys a in (RKeys (existsb (Z.eqb ctrl_P) keys), e, a')
  | CRead target n killed =>
      let '(b, r, z) := ed_read (Z.to_nat n) (n <? target) (ready a) in
      (RRead (read_res target (Z.to_nat n) killed b z) b, [], mk_ed r (editing a))
  end.

Fixpoint ed_run (ops : list cop) (a : editor) : list cres * list Z * editor :=
  match ops with
  | [] => ([], [], a)
  | o :: ops => let '(r, e, a1) := ed_op o a in let '(rs, e', a2) := ed_run ops a1 in (r :: rs, e ++ e', a2)
  end.

Lemma consoleintr_run keys : ∀ d s a na nb, cons_is s a na nb → Forall (λ c, 0 ≤ c < 256) keys →
  runs (consoleintr keys d) s (λ d' s', d' = d || existsb (Z.eqb ctrl_P) keys ∧
    (∃ na' nb', cons_is s' (ed_keys keys a).2 na' nb') ∧
    uart_out (scr s') = reverse ((ed_keys keys a).1 ≫= uart_bytes) ++ uart_out (scr s)).
Proof.
  induction keys as [|c keys IH]; intros d s a na nb H Hk; cbn [consoleintr existsb ed_keys].
  { apply runs_ret. rewrite orb_false_r. cbn. eauto 10. }
  apply Forall_cons in Hk as [Hc Hk]. mstep. eapply runs_mono; [by apply (cons_key_run s a na nb c)|].
  intros d1 s1 (-> & (na1 & nb1 & H1) & U1). eapply runs_mono; [by apply (IH (d || (c =? ctrl_P)) s1 (ed_key c a) na1 nb1)|].
  intros d2 s2 (-> & Hs & U2). destruct (ed_keys keys (ed_key c a)) as [e a'] eqn:E. cbn [fst snd] in *. split_and!; [|done|].
  - by rewrite orb_assoc, (Z.eqb_sym ctrl_P c).
  - by rewrite U2, U1, bind_app, reverse_app, <-app_assoc.
Qed.

Lemma cons_op_run o s a na nb : cons_is s a na nb → cop_ok o →
  runs (cons_op o) s (λ r s', r = (ed_op o a).1.1 ∧ (∃ na' nb', cons_is s' (ed_op o a).2 na' nb') ∧
    uart_out (scr s') = reverse ((ed_op o a).1.2 ≫= uart_bytes) ++ uart_out (scr s)).
Proof.
  intros H Ho. destruct o as [keys|target n killed]; cbn [cons_op ed_op cop_ok] in *; mstep.
  - eapply runs_mono; [by apply (consoleintr_run keys false s a na nb)|]. intros d s' (-> & Hs & Hu). apply runs_ret. by destruct (ed_keys keys a).
  - eapply runs_mono; [apply (cons_read_run _ target killed [] s a na nb H); lia|]. intros [o l] s'. rewrite Z2Nat.id by lia.
    destruct (ed_read _ _ _) as [[b r] z]. intros (-> & -> & [na' Hs] & Hsc). apply runs_ret. cbn. rewrite Hsc. eauto.
Qed.

(** C25. The console is a line editor. Whatever is typed and read in whatever order, the
    ring buffer with its three 32-bit indices behaves like a line editor: characters
    are echoed and collected, Control-H and Control-U take them back, the line becomes
    readable when it ends, with Control-D, or when the buffer is full; a read returns
    what the editor has up to the end of a line, waits when there is nothing, and sees a
    Control-D as the end of the file. No operation runs over the buffer or the screen. *)
Theorem console_line_editor (ops : list cop) (s : cons) (a : editor) (na nb : Z)
  (H : cons_is s a na nb) (Ho : Forall cop_ok ops) :
  runs (cons_run ops) s (λ rs s', rs = (ed_run ops a).1.1 ∧ (∃ na' nb', cons_is s' (ed_run ops a).2 na' nb') ∧
    uart_out (scr s') = reverse ((ed_run ops a).1.2 ≫= uart_bytes) ++ uart_out (scr s)).
Proof.
  revert s a na nb H. induction Ho as [|o ops Ho _ IH]; intros s a na nb H; cbn [cons_run ed_run].
  { apply runs_ret. cbn. eauto. }
  mstep. eapply runs_mono; [by apply (cons_op_run o s a na nb)|]. intros r s1 (-> & (na1 & nb1 & H1) & U1).
  destruct (ed_op o a) as [[r e] a1]. cbn [fst snd] in *. mstep. eapply runs_mono; [by apply (IH s1 a1 na1 nb1)|].
  intros rs s2 (-> & Hs & U2). apply runs_ret. destruct (ed_run ops a1) as [[rs e'] a2]. cbn [fst snd] in *. split_and!; [done|done|].
  by rewrite U2, U1, bind_app, reverse_app, <-app_assoc.
Qed.

(** "ab", a backspace, "c", a second line that is taken back, and Control-D. *)
Definition cons_boot : cons := mk_cons (replicate 128 0) (2 ^ 32 - 2) (2 ^ 32 - 2) (2 ^ 32 - 2) (mk_screen (replicate 2000 0) 0 [] true false) 0.

Lemma console_line_editor_witness :
  ∃ s, cons_run [CKeys [97; 98; 8; 99; 13; 120; 21; 4]; CRead 10 10 false; CRead 10 10 false; CRead 10 10 false] cons_boot =
    Ok ([RKeys false; RRead (CRet 3) [97; 99; 10]; RRead (CRet 0) []; RRead (CSleep 10) []], s).
Proof.
  assert (Ho : Forall cop_ok [CKeys [97; 98; 8; 99; 13; 120; 21; 4]; CRead 10 10 false; CRead 10 10 false; CRead 10 10 false]).
  { repeat constructor. all: cbn; lia. }
  assert (Hi : cons_is cons_boot (mk_ed [] []) 0 0) by (split; try done; set_solver).
  destruct (console_line_editor _ cons_boot (mk_ed [] []) 0 0 Hi Ho) as (rs & s & E & -> & _). exists s. exact E.
Defined.
