(* ===== verification/Kbd.v ===== *)
(** The keyboard (kbd.c, kbd.h): from scan codes to characters. *)
From Stdlib Require Import ZArith Lia Bool.
From stdpp Require Import base tactics list list_numbers strings sets.
From S2P Require Import Prelude Machine Ring Console.

(** * kbd.h *)

Definition SHIFT : Z := 1.
Definition CTL : Z := 2.
Definition ALT : Z := 4.
Definition CAPSLOCK : Z := 8.
Definition NUMLOCK : Z := 16.
Definition SCROLLLOCK : Z := 32.
Definition E0ESC : Z := 64.

(** An array of 256 bytes given by its first entries and by single ones. *)
Fixpoint single (l : list (Z * Z)) (i : Z) : Z :=
  match l with [] => 0 | (j, v) :: l => if i =? j then v else single l i end.
Definition keymap (low : list Z) (l : list (Z * Z)) (i : Z) : Z :=
  match low !! Z.to_nat i with Some v => v | None => single l i end.

Definition shiftcode : Z → Z := single [(0x1D, CTL); (0x2A, SHIFT); (0x36, SHIFT); (0x38, ALT); (0x9D, CTL); (0xB8, ALT)].
Definition togglecode : Z → Z := single [(0x3A, CAPSLOCK); (0x45, NUMLOCK); (0x46, SCROLLLOCK)].

Definition normalmap : Z → Z := keymap
  [0; 27; 49; 50; 51; 52; 53; 54; 55; 56; 57; 48; 45; 61; 8; 9;
   113; 119; 101; 114; 116; 121; 117; 105; 111; 112; 91; 93; 10; 0; 97; 115;
   100; 102; 103; 104; 106; 107; 108; 59; 39; 96; 0; 92; 122; 120; 99; 118;
   98; 110; 109; 44; 46; 47; 0; 42; 0; 32; 0; 0; 0; 0; 0; 0;
   0; 0; 0; 0; 0; 0; 0; 55; 56; 57; 45; 52; 53; 54; 43; 49;
   50; 51; 48; 46; 0; 0; 0; 0]
  [(0x9C, 10); (0xB5, 47); (0xC8, 226); (0xD0, 227); (0xC9, 230); (0xD1, 231); (0xCB, 228); (0xCD, 229); (0x97, 224); (0xCF, 225); (0xD2, 232); (0xD3, 233)].

Definition shiftmap : Z → Z := keymap
  [0; 27; 33; 64; 35; 36; 37; 94; 38; 42; 40; 41; 95; 43; 8; 9;
   81; 87; 69; 82; 84; 89; 85; 73; 79; 80; 123; 125; 10; 0; 65; 83;
   68; 70; 71; 72; 74; 75; 76; 58; 34; 126; 0; 124; 90; 88; 67; 86;
   66; 78; 77; 60; 62; 63; 0; 42; 0; 32; 0; 0; 0; 0; 0; 0;
   0; 0; 0; 0; 0; 0; 0; 55; 56; 57; 45; 52; 53; 54; 43; 49;
   50; 51; 48; 46; 0; 0; 0; 0]
  [(0x9C, 10); (0xB5, 47); (0xC8, 226); (0xD0, 227); (0xC9, 230); (0xD1, 231); (0xCB, 228); (0xCD, 229); (0x97, 224); (0xCF, 225); (0xD2, 232); (0xD3, 233)].

Definition ctlmap : Z → Z := keymap
  [0; 0; 0; 0; 0; 0; 0; 0; 0; 0; 0; 0; 0; 0; 0; 0;
   17; 23; 5; 18; 20; 25; 21; 9; 15; 16; 0; 0; 13; 0; 1; 19;
   4; 6; 7; 8; 10; 11; 12; 0; 0; 0; 0; 28; 26; 24; 3; 22;
   2; 14; 13; 0; 0; 239; 0; 0]
  [(0x9C, 13); (0xB5, 239); (0xC8, 226); (0xD0, 227); (0xC9, 230); (0xD1, 231); (0xCB, 228); (0xCD, 229); (0x97, 224); (0xCF, 225); (0xD2, 232); (0xD3, 233)].

(** * kbd.c *)

(** The table that the modifiers select. *)
Definition charcode (m : Z) : Z → Z := if m =? 0 then normalmap else if m =? 1 then shiftmap else ctlmap.

(** kbdgetc with the static variable [shift] and the byte in the controller's buffer, if
    there is one: the new [shift] and the result. *)
Definition kbdgetc (shift : Z) (port : option Z) : Z * Z :=
  match port with
  | None => (shift, -1)
  | Some data =>
      if data =? 0xE0 then (Z.lor shift E0ESC, 0)
      else if negb (Z.land data 0x80 =? 0) then
        let data := if negb (Z.land shift E0ESC =? 0) then data else Z.land data 0x7F in
        (clr shift (Z.lor (shiftcode data) E0ESC), 0)
      else
        let '(data, shift) := if negb (Z.land shift E0ESC =? 0) then (Z.lor data 0x80, clr shift E0ESC) else (data, shift) in
        let shift := Z.lxor (Z.lor shift (shiftcode data)) (togglecode data) in
        let c := charcode (Z.land shift (Z.lor CTL SHIFT)) data in
        let c := if negb (Z.land shift CAPSLOCK =? 0) then
                   if (97 <=? c) && (c <=? 122) then c + 65 - 97
                   else if (65 <=? c) && (c <=? 90) then c + 97 - 65 else c
                 else c in
        (shift, c)
  end.

(** kbdintr: consoleintr gets the characters for the bytes in the controller. *)
Fixpoint kbd_chars (shift : Z) (codes : list Z) : Z * list Z :=
  match codes with
  | [] => (shift, [])
  | d :: codes => let '(shift, c) := kbdgetc shift (Some d) in let '(shift, l) := kbd_chars shift codes in (shift, c :: l)
  end.

Definition kbdintr (shift : Z) (codes : list Z) : Z * M cons bool :=
  let '(shift, l) := kbd_chars shift codes in (shift, consoleintr l false).

(** * uart.c *)

(** uartgetc with the byte that the port has received, if any. *)
Definition uartgetc (uart : bool) (port : option Z) : Z :=
  if negb uart then -1 else match port with None => -1 | Some c => c end.

(** The bytes in the port are typed until uartgetc finds none. *)
Fixpoint uart_chars (uart : bool) (port : list Z) : list Z :=
  let c := uartgetc uart (head port) in
  if c <? 0 then [] else match port with [] => [] | _ :: port => c :: uart_chars uart port end.

Definition uartintr (uart : bool) (port : list Z) : M cons bool := consoleintr (uart_chars uart port) false.

(** * What the console gets *)

Lemma single_range l i : Forall (λ x, 0 ≤ x.2 < 256) l → 0 ≤ single l i < 256.
Proof. induction 1 as [|[j v] l Hx _ IH]; cbn; [lia|]. destruct (i =? j); [exact Hx|exact IH]. Qed.

Lemma keymap_range low l i : Forall (λ v, 0 ≤ v < 256) low → Forall (λ x, 0 ≤ x.2 < 256) l → 0 ≤ keymap low l i < 256.
Proof. intros Hl Hs. unfold keymap. destruct (low !! _) eqn:E; [exact (Forall_lookup_1 _ _ _ _ Hl E)|by apply single_range]. Qed.

Lemma charcode_range m i : 0 ≤ charcode m i < 256.
Proof.
  unfold charcode, normalmap, shiftmap, ctlmap.
  destruct (m =? 0); [|destruct (m =? 1)]; apply keymap_range; repeat (apply Forall_cons; split; [cbn; lia|]); apply Forall_nil_2.
Qed.

Lemma kbdgetc_range shift d : 0 ≤ (kbdgetc shift (Some d)).2 < 256.
Proof.
  unfold kbdgetc. destruct (d =? 0xE0); [cbn; lia|]. destruct (negb _); [cbn; lia|].
  destruct (if negb (Z.land shift E0ESC =? 0) then _ else _) as [d' s']. cbn [snd].
  set (c := charcode _ _). pose proof (charcode_range (Z.land (Z.lxor (Z.lor s' (shiftcode d')) (togglecode d')) (Z.lor CTL SHIFT)) d') as Hc.
  fold c in Hc. destruct (negb _); [|done].
  destruct (Z.leb_spec 97 c), (Z.leb_spec c 122), (Z.leb_spec 65 c), (Z.leb_spec c 90); cbn; lia.
Qed.

(** What the keyboard sends is what the console expects. *)
Lemma kbd_chars_range codes : ∀ shift, Forall (λ c, 0 ≤ c < 256) (kbd_chars shift codes).2.
Proof.
  induction codes as [|d codes IH]; intros shift; cbn [kbd_chars]; [apply Forall_nil_2|].
  pose proof (kbdgetc_range shift d) as Hc. destruct (kbdgetc shift (Some d)) as [s1 c]. specialize (IH s1).
  destruct (kbd_chars s1 codes) as [s2 l]. cbn in *. by apply Forall_cons.
Qed.

(** Pressing and releasing a key leaves the modifiers as they were, but for the locks
    that the key toggles and the bit that it stands for. *)
Lemma press_release shift d : 0 ≤ shift < 64 → 0 ≤ d < 128 → d ≠ 96 →
  (kbdgetc (kbdgetc shift (Some d)).1 (Some (d + 128))).1 = Z.land (Z.lxor shift (togglecode d)) (Z.lnot (shiftcode d)).
Proof.
  set (ok s d := (d =? 96) || ((kbdgetc (kbdgetc s (Some d)).1 (Some (d + 128))).1 =? Z.land (Z.lxor s (togglecode d)) (Z.lnot (shiftcode d)))).
  assert (H : forallb (λ s, forallb (ok s) (seqZ 0 128)) (seqZ 0 64) = true) by (vm_compute; reflexivity).
  intros Hs Hd Hne. rewrite forallb_forall in H. specialize (H shift (proj1 (list_elem_of_In _ _) (proj2 (elem_of_seqZ 0 64 shift) ltac:(lia)))).
  rewrite forallb_forall in H. specialize (H d (proj1 (list_elem_of_In _ _) (proj2 (elem_of_seqZ 0 128 d) ltac:(lia)))).
  unfold ok in H. rewrite (proj2 (Z.eqb_neq d 96)) in H by done. by apply Z.eqb_eq in H.
Qed.
