(* ===== verification/Ide.v ===== *)
(** The driver of the IDE disk (ide.c): the queue of requests, threaded through the
    buffers, that the interrupt handler works off one after the other. It is proved to
    serve the requests in their order, each the way the memory disk does it at once.

    The spin lock of the driver is held only inside one operation. *)
From Stdlib Require Import ZArith Lia Bool.
From stdpp Require Import base tactics list list_numbers strings sets.
From S2P Require Import Prelude Machine Bio.

Definition SECTOR_SIZE : Z := 512.
Definition IDE_CMD_READ : Z := 0x20.
Definition IDE_CMD_WRITE : Z := 0x30.
Definition IDE_CMD_RDMUL : Z := 0xc4.
Definition IDE_CMD_WRMUL : Z := 0xc5.

(** * The disk

    The registers that a command reads, the command in progress with the data of a
    write, the blocks, and whether the status shows an error. A command ends with an
    interrupt; a write changes the disk, a read has its data ready. *)
Record hdisk := mk_hd {
  hd_count : Z;
  hd_lba : list Z;
  hd_drive : Z;
  hd_cmd : option Z;
  hd_wdata : list Z;
  hd_blocks : Z * Z → list Z;
  hd_err : bool }.

(** The drive and the sector number in the registers. *)
Definition hd_sector (h : hdisk) : Z * Z :=
  (Z.land (Z.shiftr (hd_drive h) 4) 1,
   match hd_lba h with
   | [a; b; c] => a + 2 ^ 8 * b + 2 ^ 16 * c + 2 ^ 24 * Z.land (hd_drive h) 0x0f
   | _ => 0
   end).

Definition set_block (n : Z * Z) (v : list Z) (f : Z * Z → list Z) : Z * Z → list Z := λ m, if decide (m = n) then v else f m.

(** The command in progress is done. *)
Definition hd_finish (h : hdisk) : hdisk :=
  mk_hd (hd_count h) (hd_lba h) (hd_drive h) None []
    (match hd_cmd h with
     | Some c => if c =? IDE_CMD_WRITE then set_block (hd_sector h) (hd_wdata h) (hd_blocks h) else hd_blocks h
     | None => hd_blocks h
     end) (hd_err h).

(** * The driver *)

(** What the driver uses of [struct buf]. *)
Record ibuf := mk_ibuf { ib_flags : Z; ib_dev : Z; ib_blockno : Z; ib_qnext : option nat; ib_data : list Z }.

Definition set_qnext (v : option nat) (b : ibuf) : ibuf := mk_ibuf (ib_flags b) (ib_dev b) (ib_blockno b) v (ib_data b).

(** The buffers, the queue, the disk, and the buffers whose process was woken. *)
Record ide := mk_ide { ibufs : list ibuf; idequeue : option nat; hd : hdisk; iwoken : list nat }.

Definition set_idequeue (v : option nat) (s : ide) : ide := mk_ide (ibufs s) v (hd s) (iwoken s).
Definition set_hd (v : hdisk) (s : ide) : ide := mk_ide (ibufs s) (idequeue s) v (iwoken s).

Definition getib (b : nat) : M ide ibuf := s ← get; oget (ibufs s !! b).
Definition modib (b : nat) (f : ibuf → ibuf) : M ide unit :=
  s ← get; x ← oget (ibufs s !! b); modify (λ s, mk_ide (<[b := f x]> (ibufs s)) (idequeue s) (hd s) (iwoken s)).
Definition modhd (f : hdisk → hdisk) : M ide unit := modify (λ s, set_hd (f (hd s)) s).

(** The disk is ready when it is asked (idewait). *)
Definition idestart (b : option nat) : M ide unit :=
  match b with
  | None => panic "idestart"
  | Some b =>
      x ← getib b;
      if FSSIZE <=? ib_blockno x then panic "incorrect blockno" else
      let sector_per_block := BSIZE / SECTOR_SIZE in
      let sector := ib_blockno x * sector_per_block in
      let read_cmd := if sector_per_block =? 1 then IDE_CMD_READ else IDE_CMD_RDMUL in
      let write_cmd := if sector_per_block =? 1 then IDE_CMD_WRITE else IDE_CMD_WRMUL in
      if 7 <? sector_per_block then panic "idestart" else
      modhd (λ h, mk_hd sector_per_block
        [Z.land sector 0xff; Z.land (Z.shiftr sector 8) 0xff; Z.land (Z.shiftr sector 16) 0xff]
        (Z.lor (Z.lor 0xe0 (Z.shiftl (Z.land (ib_dev x) 1) 4)) (Z.land (Z.shiftr sector 24) 0x0f))
        (hd_cmd h) (hd_wdata h) (hd_blocks h) (hd_err h));;
      if negb (Z.land (ib_flags x) B_DIRTY =? 0)
      then modhd (λ h, mk_hd (hd_count h) (hd_lba h) (hd_drive h) (Some write_cmd) (ib_data x) (hd_blocks h) (hd_err h))
      else modhd (λ h, mk_hd (hd_count h) (hd_lba h) (hd_drive h) (Some read_cmd) (hd_wdata h) (hd_blocks h) (hd_err h))
  end.

(** The data of the sector that was read (insl). *)
Definition hd_read (h : hdisk) : list Z := hd_blocks h (hd_sector h).

Definition ideintr : M ide unit :=
  s ← get;
  match idequeue s with
  | None => mret tt
  | Some b =>
      x ← getib b;
      modify (set_idequeue (ib_qnext x));;
      (if (Z.land (ib_flags x) B_DIRTY =? 0) && negb (hd_err (hd s))
       then s ← get; modib b (λ x, mk_ibuf (ib_flags x) (ib_dev x) (ib_blockno x) (ib_qnext x) (hd_read (hd s)))
       else mret tt);;
      modib b (λ x, mk_ibuf (clr (Z.lor (ib_flags x) B_VALID) B_DIRTY) (ib_dev x) (ib_blockno x) (ib_qnext x) (ib_data x));;
      modify (λ s, mk_ide (ibufs s) (idequeue s) (hd s) (b :: iwoken s));;
      s ← get;
      match idequeue s with None => mret tt | Some _ => idestart (idequeue s) end
  end.

(** The loop that finds the end of the queue, from buffer [b] on: the last one. *)
Fixpoint queue_end (fuel : nat) (b : nat) : M ide nat :=
  x ← getib b;
  match ib_qnext x with
  | None => mret b
  | Some c => match fuel with O => nofuel | S fuel => queue_end fuel c end
  end.

(** [(b->flags & (B_VALID|B_DIRTY)) == B_VALID] *)
Definition ide_done (x : ibuf) : bool := Z.land (ib_flags x) (Z.lor B_VALID B_DIRTY) =? B_VALID.

(** iderw up to its sleep; [holding] says whether the process holds the buffer. *)
Definition iderw_enter (havedisk1 holding : bool) (b : nat) : M ide unit :=
  if negb holding then panic "iderw: buf not locked" else
  x ← getib b;
  if ide_done x then panic "iderw: nothing to do" else
  if negb (ib_dev x =? 0) && negb havedisk1 then panic "iderw: ide disk 1 not present" else
  modib b (set_qnext None);;
  s ← get;
  (match idequeue s with
   | None => modify (set_idequeue (Some b))
   | Some h => e ← queue_end (length (ibufs s)) h; modib e (set_qnext (Some b))
   end);;
  s ← get;
  if bool_decide (idequeue s = Some b) then idestart (Some b) else mret tt.

(** Whether the process that was woken leaves the loop of iderw. *)
Definition iderw_exit (b : nat) : M ide bool := x ← getib b; mret (ide_done x).

(** The disk ends a command and interrupts. *)
Definition interrupt : M ide unit := modhd hd_finish;; ideintr.

(** * The queue as the callers see it *)

(** The drive and the block of a buffer. *)
Definition iblock (x : ibuf) : Z * Z := (Z.land (ib_dev x) 1, ib_blockno x).

(** A request served at once, as by the memory disk: the buffer and the blocks. *)
Definition serve (x : ibuf) (f : Z * Z → list Z) : ibuf * (Z * Z → list Z) :=
  let flags := clr (Z.lor (ib_flags x) B_VALID) B_DIRTY in
  if Z.land (ib_flags x) B_DIRTY =? 0
  then (mk_ibuf flags (ib_dev x) (ib_blockno x) None (f (iblock x)), f)
  else (mk_ibuf flags (ib_dev x) (ib_blockno x) None (ib_data x), set_block (iblock x) (ib_data x) f).

Record adisk := mk_ad { a_bufs : list ibuf; a_blocks : Z * Z → list Z; a_queue : list nat }.

Inductive iop := Req (b : nat) | Intr.

Definition a_step (o : iop) (a : adisk) : adisk :=
  match o with
  | Req b => mk_ad (a_bufs a) (a_blocks a) (a_queue a ++ [b])
  | Intr =>
      match a_queue a with
      | [] => a
      | b :: q =>
          match a_bufs a !! b with
          | None => a
          | Some x => let '(x', f) := serve x (a_blocks a) in mk_ad (<[b := x']> (a_bufs a)) f q
          end
      end
  end.

(** A request is for a buffer that is not in the queue and has something to do. *)
Definition can_req (b : nat) (a : adisk) : Prop :=
  b ∉ a_queue a ∧ ∃ x, a_bufs a !! b = Some x ∧ ide_done x = false ∧ 0 ≤ ib_blockno x < FSSIZE ∧ 0 ≤ ib_flags x < 8.

Fixpoint valid_ops (ops : list iop) (a : adisk) : Prop :=
  match ops with
  | [] => True
  | o :: ops => match o with Req b => can_req b a | Intr => True end ∧ valid_ops ops (a_step o a)
  end.

Definition a_run (ops : list iop) (a : adisk) : adisk := foldl (λ a o, a_step o a) a ops.

Definition ide_op (o : iop) : M ide unit := match o with Req b => iderw_enter true true b | Intr => interrupt end.
Fixpoint ide_run (ops : list iop) : M ide unit :=
  match ops with [] => mret tt | o :: ops => ide_op o;; ide_run ops end.

(** ** The queue in memory *)

Fixpoint linked (l : list ibuf) (o : option nat) (q : list nat) : Prop :=
  match q with
  | [] => o = None
  | b :: q => o = Some b ∧ ∃ x, l !! b = Some x ∧ linked l (ib_qnext x) q
  end.

(** The command for the first request is in progress. *)
Definition hd_serves (h : hdisk) (x : ibuf) : Prop :=
  hd_sector h = iblock x ∧
  if Z.land (ib_flags x) B_DIRTY =? 0 then hd_cmd h = Some IDE_CMD_READ
  else hd_cmd h = Some IDE_CMD_WRITE ∧ hd_wdata h = ib_data x.

Record ide_is (s : ide) (a : adisk) : Prop := {
  ii_bufs : set_qnext None <$> ibufs s = a_bufs a;
  ii_blocks : hd_blocks (hd s) = a_blocks a;
  ii_queue : linked (ibufs s) (idequeue s) (a_queue a);
  ii_nodup : NoDup (a_queue a);
  ii_work : ∀ b x, b ∈ a_queue a → ibufs s !! b = Some x → ide_done x = false ∧ 0 ≤ ib_blockno x < FSSIZE ∧ 0 ≤ ib_flags x < 8;
  ii_head : match a_queue a with [] => hd_cmd (hd s) = None | b :: _ => ∃ x, ibufs s !! b = Some x ∧ hd_serves (hd s) x end;
  ii_err : hd_err (hd s) = false }.

Lemma linked_change l o q b x : b ∉ q → linked l o q → linked (<[b := x]> l) o q.
Proof.
  revert o. induction q as [|c q IH]; intros o Hb; cbn; [done|]. intros (-> & y & Hy & Hl). split; [done|]. exists y.
  split; [rewrite list_lookup_insert_ne; [done|set_solver]|]. apply IH; [set_solver|done].
Qed.

(** Buffers keep their successors. *)
Lemma linked_data l o q b x x' : l !! b = Some x → ib_qnext x' = ib_qnext x → linked l o q → linked (<[b := x']> l) o q.
Proof.
  intros Hb E. revert o. induction q as [|c q IH]; intros o; cbn; [done|]. intros (-> & y & Hy & Hl). split; [done|].
  destruct (decide (c = b)) as [->|Hne].
  - exists x'. rewrite list_lookup_insert_eq by by eapply lookup_lt_Some. split; [done|]. rewrite Hb in Hy. injection Hy as ->. rewrite E. by apply IH.
  - exists y. rewrite list_lookup_insert_ne by done. split; [done|]. by apply IH.
Qed.

Lemma linked_last l q c e b x : linked l (Some c) (q ++ [e]) → e ∉ q → b ∉ q → e ≠ b → l !! e = Some x →
  (∃ y, l !! b = Some y ∧ ib_qnext y = None) → linked (<[e := set_qnext (Some b) x]> l) (Some c) (q ++ [e; b]).
Proof.
  intros Hl He Hb Hne Hx (y & Hy & Ey). revert c Hl. induction q as [|d q IH]; intros c; cbn.
  - intros ([= <-] & z & Hz & _). split; [done|]. exists (set_qnext (Some b) x).
    rewrite list_lookup_insert_eq by by eapply lookup_lt_Some. split; [done|]. split; [done|]. exists y. by rewrite list_lookup_insert_ne.
  - intros ([= <-] & z & Hz & Hl). split; [done|]. exists z. rewrite list_lookup_insert_ne by set_solver. split; [done|].
    destruct (ib_qnext z) as [c'|]; [|destruct q; by destruct Hl]. apply IH; [set_solver|set_solver|done].
Qed.

(** ** The commands *)

Lemma land_1_cases z : Z.land z 1 = 0 ∨ Z.land z 1 = 1.
Proof. replace (Z.land z 1) with (z mod 2) by (symmetry; apply (Z.land_ones z 1); lia). pose proof (Z.mod_pos_bound z 2). lia. Qed.

(** The sector number is cut into bytes for the registers and put together again. *)
Lemma sector_registers dev n cnt cmd d f e : 0 ≤ n < FSSIZE →
  hd_sector (mk_hd cnt [Z.land n 0xff; Z.land (Z.shiftr n 8) 0xff; Z.land (Z.shiftr n 16) 0xff]
    (Z.lor (Z.lor 0xe0 (Z.shiftl (Z.land dev 1) 4)) (Z.land (Z.shiftr n 24) 0x0f)) cmd d f e) = (Z.land dev 1, n).
Proof.
  unfold FSSIZE. intros Hn. unfold hd_sector. cbn [hd_drive hd_lba].
  rewrite !Z.shiftr_div_pow2 by lia. rewrite (Z.div_small n (2 ^ 16)), (Z.div_small n (2 ^ 24)) by lia.
  change 0xff with (Z.ones 8). rewrite !Z.land_ones by lia.
  assert (E : n `mod` 2 ^ 8 + 2 ^ 8 * (n `div` 2 ^ 8) `mod` 2 ^ 8 = n) by (Z.to_euclidean_division_equations; lia).
  destruct (land_1_cases dev) as [->| ->]; rewrite E; apply (f_equal2 pair); [done|change (n + 0 + 0 = n); lia|done|change (n + 0 + 0 = n); lia].
Qed.

Lemma getib_run s b x : ibufs s !! b = Some x → getib b s = Ok (x, s).
Proof. intros Hx. unfold getib. munfold. by rewrite Hx. Qed.

Lemma modib_run s b x f : ibufs s !! b = Some x →
  modib b f s = Ok (tt, mk_ide (<[b := f x]> (ibufs s)) (idequeue s) (hd s) (iwoken s)).
Proof. intros Hx. unfold modib. munfold. by rewrite Hx. Qed.

Lemma idestart_run s b x : ibufs s !! b = Some x → 0 ≤ ib_blockno x < FSSIZE → ∃ h,
  idestart (Some b) s = Ok (tt, set_hd h s) ∧ hd_serves h x ∧ hd_blocks h = hd_blocks (hd s) ∧ hd_err h = hd_err (hd s).
Proof.
  intros Hx Hn. unfold idestart. mrun (getib_run _ _ _ Hx). replace (FSSIZE <=? ib_blockno x) with false by lia.
  change (BSIZE / SECTOR_SIZE) with 1. change (7 <? 1) with false. change (1 =? 1) with true. cbv zeta. rewrite Z.mul_1_r.
  destruct (Z.land (ib_flags x) B_DIRTY =? 0) eqn:E; cbn [negb]; unfold modhd; munfold; (eexists; split; [reflexivity|]); cbn;
    (split; [|done]); (split; [by apply sector_registers|]); by rewrite E.
Qed.

Lemma queue_end_run s q e : ∀ fuel c, linked (ibufs s) (Some c) (q ++ [e]) → (length q ≤ fuel)%nat → queue_end fuel c s = Ok (e, s).
Proof.
  induction q as [|d q IH]; intros fuel c; cbn; intros ([= <-] & x & Hx & Hl) Hf;
    destruct fuel as [|fuel]; try lia; cbn [queue_end]; mrun (getib_run _ _ _ Hx).
  1,2: by rewrite Hl.
  destruct (ib_qnext x) as [c'|]; [|destruct q; by destruct Hl]. apply IH; [done|lia].
Qed.

(** ** Requests and interrupts *)

Lemma get_bind {B} (f : ide → M ide B) s : (get ≫= f) s = f s s.
Proof. done. Qed.

Lemma linked_lookup l o q b : linked l o q → b ∈ q → is_Some (l !! b).
Proof.
  revert o. induction q as [|c q IH]; intros o; cbn; [set_solver|]. intros (_ & x & Hx & Hl) [->|Hb]%elem_of_cons; eauto.
Qed.

Lemma linked_length l o q : linked l o q → NoDup q → (length q ≤ length l)%nat.
Proof.
  intros Hl Hn. rewrite <- (length_seq (length l) 0). apply submseteq_length, NoDup_submseteq; [done|].
  intros b Hb. destruct (linked_lookup _ _ _ _ Hl Hb) as [x Hx%lookup_lt_Some]. apply elem_of_seq. lia.
Qed.

Lemma strip_insert (l : list ibuf) b x v : l !! b = Some x → set_qnext None <$> <[b := set_qnext v x]> l = set_qnext None <$> l.
Proof.
  intros Hx. rewrite list_fmap_insert. apply list_insert_id. rewrite list_lookup_fmap, Hx. done.
Qed.

Lemma strip_lookup s a b x : ide_is s a → a_bufs a !! b = Some x → ∃ y, ibufs s !! b = Some y ∧ x = set_qnext None y.
Proof. intros Hs. rewrite <- (ii_bufs _ _ Hs), list_lookup_fmap. destruct (ibufs s !! b) as [y|]; [|done]. intros [= <-]. eauto. Qed.

(** A request that does not start the disk only goes to the end of the queue. *)
Lemma ii_append s a b y q e z : ide_is s a → a_queue a = q ++ [e] → b ∉ a_queue a → ibufs s !! b = Some y → ibufs s !! e = Some z →
  ide_done y = false → 0 ≤ ib_blockno y < FSSIZE → 0 ≤ ib_flags y < 8 →
  ide_is (mk_ide (<[e := set_qnext (Some b) z]> (<[b := set_qnext None y]> (ibufs s))) (idequeue s) (hd s) (iwoken s))
         (mk_ad (a_bufs a) (a_blocks a) (a_queue a ++ [b])).
Proof.
  intros Hs Eq Hb Hy Hz Hd Hn Hf. assert (Hne : e ≠ b) by (rewrite Eq in Hb; set_solver).
  assert (Hbl : (b < length (ibufs s))%nat) by by eapply lookup_lt_Some.
  assert (Hel : (e < length (ibufs s))%nat) by by eapply lookup_lt_Some.
  assert (Hne' : e ∉ q). { pose proof (ii_nodup _ _ Hs) as H. rewrite Eq in H. apply NoDup_app in H. set_solver. }
  assert (Hz' : <[b := set_qnext None y]> (ibufs s) !! e = Some z) by by rewrite list_lookup_insert_ne.
  assert (Hb' : <[b := set_qnext None y]> (ibufs s) !! b = Some (set_qnext None y)) by by apply list_lookup_insert_eq.
  destruct (idequeue s) as [c|] eqn:Ec.
  2: { pose proof (ii_queue _ _ Hs) as H. rewrite Eq, Ec in H. destruct q; by destruct H. }
  split; cbn [ibufs idequeue hd iwoken a_bufs a_blocks a_queue].
  - rewrite strip_insert by done. rewrite strip_insert by done. apply Hs.
  - apply Hs.
  - rewrite Eq, <- app_assoc. apply linked_last; [|done|rewrite Eq in Hb; set_solver|done|done|eauto].
    apply linked_change; [by rewrite <- Eq|]. rewrite <- Ec, <- Eq. apply Hs.
  - apply NoDup_app. split; [apply Hs|]. split; [|apply NoDup_singleton]. set_solver.
  - intros c' x Hc. rewrite list_lookup_insert. case_decide as E; [destruct E as [<- _]; intros [= <-]|].
    { cbn. apply (ii_work _ _ Hs e z); [rewrite Eq; set_solver|done]. }
    rewrite list_lookup_insert. case_decide as E'; [by intros [= <-]|]. intros Hx. apply (ii_work _ _ Hs c' x); [|done].
    apply elem_of_app in Hc as [Hc|Hc]; [done|]. apply list_elem_of_singleton in Hc as ->. naive_solver.
  - pose proof (ii_head _ _ Hs) as Hh. destruct (a_queue a) as [|c' q'] eqn:Eq'; [by destruct q|]. cbn.
    destruct Hh as (x & Hx & Hsv). rewrite list_lookup_insert. case_decide as E.
    + destruct E as [-> _]. exists (set_qnext (Some b) z). split; [done|]. rewrite Hz in Hx. by injection Hx as ->.
    + exists x. split; [|done]. rewrite list_lookup_insert_ne; [done|]. intros ->. set_solver.
  - apply Hs.
Qed.

Lemma req_step s a b : ide_is s a → can_req b a →
  ∃ s', iderw_enter true true b s = Ok (tt, s') ∧ ide_is s' (a_step (Req b) a).
Proof.
  intros Hs (Hb & x & Hx & Hd & Hn & Hf). destruct (strip_lookup _ _ _ _ Hs Hx) as (y & Hy & ->).
  assert (Hbl : (b < length (ibufs s))%nat) by by eapply lookup_lt_Some.
  unfold iderw_enter. cbn [negb]. mrun (getib_run _ _ _ Hy). change (ide_done y) with (ide_done (set_qnext None y)). rewrite Hd.
  rewrite andb_false_r. mrun (modib_run _ _ _ (set_qnext None) Hy). rewrite get_bind. cbn [idequeue ibufs].
  destruct (a_queue a) as [|e q _] eqn:Eq using rev_ind.
  - pose proof (ii_queue _ _ Hs) as Hq. rewrite Eq in Hq. cbn in Hq. rewrite Hq. rewrite modify_bind. rewrite get_bind.
    cbn [idequeue set_idequeue]. rewrite bool_decide_true by done.
    destruct (idestart_run (set_idequeue (Some b) (mk_ide (<[b := set_qnext None y]> (ibufs s)) None (hd s) (iwoken s))) b (set_qnext None y))
      as (h & Hr & Hsv & Hbk & He); [by apply list_lookup_insert_eq|done|].
    eexists. split; [exact Hr|]. split; cbn; rewrite ?Eq; cbn [app].
    + rewrite strip_insert by done. apply Hs.
    + rewrite Hbk. apply Hs.
    + split; [done|]. exists (set_qnext None y). by rewrite list_lookup_insert_eq.
    + apply NoDup_singleton.
    + intros c x ->%list_elem_of_singleton. rewrite list_lookup_insert_eq by done. by intros [= <-].
    + exists (set_qnext None y). by rewrite list_lookup_insert_eq.
    + rewrite He. apply Hs.
  - destruct (idequeue s) as [c|] eqn:Ec.
    2: { pose proof (ii_queue _ _ Hs) as H. rewrite Eq, Ec in H. destruct q; by destruct H. }
    rewrite <- Eq in Hb. pose proof (linked_change _ _ _ b (set_qnext None y) Hb (ii_queue _ _ Hs)) as Hl. rewrite Eq, Ec in Hl.
    destruct (linked_lookup _ _ _ e (ii_queue _ _ Hs)) as [z Hz]; [rewrite Eq; set_solver|].
    assert (Hf' : (length q ≤ length (<[b := set_qnext None y]> (ibufs s)))%nat).
    { pose proof (linked_length _ _ _ Hl) as H. rewrite length_app in H. cbn in H. rewrite <- Eq in H. specialize (H (ii_nodup _ _ Hs)). lia. }
    rewrite (bind_eq _ _ _ tt (mk_ide (<[e := set_qnext (Some b) z]> (<[b := set_qnext None y]> (ibufs s))) (Some c) (hd s) (iwoken s))).
    2: { rewrite (bind_eq _ _ _ e (mk_ide (<[b := set_qnext None y]> (ibufs s)) (Some c) (hd s) (iwoken s))) by by apply (queue_end_run _ q).
         rewrite (modib_run _ e z); [done|]. cbn. rewrite list_lookup_insert_ne; [done|]. rewrite Eq in Hb. set_solver. }
    rewrite get_bind. cbn [idequeue]. rewrite bool_decide_false.
    2: { intros [= ->]. apply Hb. pose proof (ii_queue _ _ Hs) as H. rewrite Eq, Ec in H. rewrite Eq. destruct q; destruct H as [[= ->] _]; set_solver. }
    eexists. split; [done|]. rewrite <- Ec. by apply ii_append with q.
Qed.

(** The transfer of the first request: what ideintr leaves before it starts the next one. *)
Lemma flags_done f : 0 ≤ f < 8 → Z.land (clr (Z.lor f B_VALID) B_DIRTY) (Z.lor B_VALID B_DIRTY) = B_VALID.
Proof.
  intros Hf. assert (H : f = 0 ∨ f = 1 ∨ f = 2 ∨ f = 3 ∨ f = 4 ∨ f = 5 ∨ f = 6 ∨ f = 7) by lia.
  repeat destruct H as [->|H]; [done..|]. by subst f.
Qed.

Definition served (x : ibuf) (d : list Z) : ibuf :=
  mk_ibuf (clr (Z.lor (ib_flags x) B_VALID) B_DIRTY) (ib_dev x) (ib_blockno x) (ib_qnext x) d.

Lemma ideintr_run s b x : idequeue s = Some b → ibufs s !! b = Some x → hd_err (hd s) = false →
  ideintr s = (s ← get; match idequeue s with None => mret tt | Some _ => idestart (idequeue s) end)
    (mk_ide (<[b := served x (if Z.land (ib_flags x) B_DIRTY =? 0 then hd_read (hd s) else ib_data x)]> (ibufs s))
            (ib_qnext x) (hd s) (b :: iwoken s)).
Proof.
  intros Hq Hx He. assert (Hbl : (b < length (ibufs s))%nat) by by eapply lookup_lt_Some.
  unfold ideintr. rewrite get_bind, Hq. mrun (getib_run _ _ _ Hx). rewrite modify_bind, He. cbn [negb]. rewrite andb_true_r.
  destruct (_ =? 0).
  - rewrite (bind_eq _ _ _ tt (mk_ide (<[b := mk_ibuf (ib_flags x) (ib_dev x) (ib_blockno x) (ib_qnext x) (hd_read (hd s))]> (ibufs s)) (ib_qnext x) (hd s) (iwoken s))).
    2: { rewrite get_bind. by rewrite (modib_run _ b x). }
    erewrite bind_eq; [|apply modib_run; by apply list_lookup_insert_eq]. rewrite modify_bind. cbn.
    by rewrite list_insert_insert_eq.
  - rewrite (bind_eq _ _ _ tt (set_idequeue (ib_qnext x) s)) by done.
    by rewrite (bind_eq _ _ _ _ _ (modib_run (set_idequeue (ib_qnext x) s) b x _ Hx)), modify_bind.
Qed.

(** The transfer itself is that of the specification. *)
Lemma finish_serves h x : hd_serves h x →
  (if Z.land (ib_flags x) B_DIRTY =? 0 then hd_read (hd_finish h) else ib_data x) = ib_data (serve x (hd_blocks h)).1 ∧
  hd_blocks (hd_finish h) = (serve x (hd_blocks h)).2.
Proof.
  unfold hd_serves, hd_read, serve. intros [Hs Hc]. destruct (_ =? 0); cbn.
  - rewrite Hc. cbn. unfold hd_sector in *. cbn. by rewrite Hs.
  - destruct Hc as [Hc Hw]. rewrite Hc. cbn. by rewrite Hs, Hw.
Qed.

Lemma intr_idle s a : ide_is s a → a_queue a = [] → ∃ s', interrupt s = Ok (tt, s') ∧ ide_is s' a.
Proof.
  intros Hs Eq. pose proof (ii_queue _ _ Hs) as Hq. pose proof (ii_head _ _ Hs) as Hh. rewrite Eq in Hq, Hh. cbn in Hq.
  exists (set_hd (hd_finish (hd s)) s). unfold interrupt, modhd, ideintr. rewrite modify_bind, get_bind. cbn [idequeue set_hd]. rewrite Hq.
  split; [done|]. split; cbn; try apply Hs; [by rewrite Hh; apply Hs|by rewrite Eq].
Qed.

(** The state after the first request, given that the disk is at work on the next. *)
Lemma ii_pop s a b q x h w : ide_is s a → a_queue a = b :: q → ibufs s !! b = Some x →
  let '(x', f) := serve x (a_blocks a) in
  hd_blocks h = f → hd_err h = false →
  match q with [] => hd_cmd h = None | c :: _ => ∃ y, ibufs s !! c = Some y ∧ hd_serves h y end →
  ide_is (mk_ide (<[b := served x (ib_data x')]> (ibufs s)) (ib_qnext x) h w) (mk_ad (<[b := x']> (a_bufs a)) f q).
Proof.
  intros Hs Eq Hx. destruct (serve x (a_blocks a)) as [x' f] eqn:Es. intros Hb He Hc.
  pose proof (ii_nodup _ _ Hs) as Hn. rewrite Eq in Hn. apply NoDup_cons in Hn as [Hbq Hn].
  pose proof (ii_queue _ _ Hs) as Hl. rewrite Eq in Hl. destruct Hl as (_ & x0 & Hx0 & Hl). rewrite Hx in Hx0. injection Hx0 as <-.
  split; cbn; try done.
  - rewrite list_fmap_insert, (ii_bufs _ _ Hs). f_equal. unfold serve in Es. by destruct (_ =? 0); injection Es as <- <-.
  - by apply linked_change.
  - intros c y Hcq. rewrite list_lookup_insert_ne by (intros ->; done). intros Hy. apply (ii_work _ _ Hs c y); [rewrite Eq; set_solver|done].
  - destruct q as [|c q]; [done|]. destruct Hc as (y & Hy & Hsv). exists y. by rewrite list_lookup_insert_ne by set_solver.
Qed.

Lemma intr_busy s a b q : ide_is s a → a_queue a = b :: q → ∃ s', interrupt s = Ok (tt, s') ∧ ide_is s' (a_step Intr a).
Proof.
  intros Hs Eq. pose proof (ii_queue _ _ Hs) as Hq. pose proof (ii_head _ _ Hs) as Hh. rewrite Eq in Hq, Hh.
  destruct Hq as (Hq & x & Hx & Hl). destruct Hh as (x' & Hx' & Hsv). rewrite Hx in Hx'. injection Hx' as <-.
  unfold interrupt, modhd. rewrite modify_bind. rewrite (ideintr_run _ b x); [|done..|cbn; apply Hs]. rewrite get_bind. cbn [idequeue set_hd hd ibufs iwoken].
  pose proof (finish_serves _ _ Hsv) as Hfs. rewrite (ii_blocks _ _ Hs) in Hfs. destruct Hfs as [Hd Hbk]. rewrite Hd.
  assert (Ha : a_step Intr a = mk_ad (<[b := (serve x (a_blocks a)).1]> (a_bufs a)) (serve x (a_blocks a)).2 q).
  { cbn [a_step]. rewrite Eq, <- (ii_bufs _ _ Hs), list_lookup_fmap, Hx. cbn. unfold serve. cbn. by destruct (_ =? 0). }
  rewrite Ha. pose proof (ii_pop s a b q x) as Hp. destruct (serve x (a_blocks a)) as [x' f]. cbn [fst snd] in *.
  destruct q as [|c q]; cbn in Hl.
  - rewrite Hl in *. eexists. split; [done|]. apply Hp; try done. apply Hs.
  - destruct Hl as (Ec & y & Hy & Hl). rewrite Ec. assert (Hne : b ≠ c). { pose proof (ii_nodup _ _ Hs) as H. rewrite Eq in H. apply NoDup_cons in H. set_solver. }
    destruct (idestart_run (mk_ide (<[b := served x (ib_data x')]> (ibufs s)) (Some c) (hd_finish (hd s)) (b :: iwoken s)) c y) as (h & Hr & Hsv' & Hb & He).
    { cbn. by rewrite list_lookup_insert_ne. } { apply (ii_work _ _ Hs c y); [rewrite Eq; set_solver|done]. }
    eexists. split; [exact Hr|]. unfold set_hd. cbn. rewrite <- Ec. apply Hp; try done; [by rewrite Hb|by rewrite He; cbn; apply Hs|eauto].
Qed.

Lemma intr_step s a : ide_is s a → ∃ s', interrupt s = Ok (tt, s') ∧ ide_is s' (a_step Intr a).
Proof.
  intros Hs. destruct (a_queue a) as [|b q] eqn:Eq; [|by eapply intr_busy].
  destruct (intr_idle _ _ Hs Eq) as (s' & Hr & Hs'). exists s'. cbn. by rewrite Eq.
Qed.

(** ** The driver *)

Lemma a_drain a : (∀ b, b ∈ a_queue a → ∃ x, a_bufs a !! b = Some x ∧ 0 ≤ ib_flags x < 8) → NoDup (a_queue a) →
  let a' := a_run (replicate (length (a_queue a)) Intr) a in
  a_queue a' = [] ∧ (∀ b, b ∈ a_queue a → ∃ x, a_bufs a' !! b = Some x ∧ ide_done x = true) ∧
  (∀ b, b ∉ a_queue a → a_bufs a' !! b = a_bufs a !! b).
Proof.
  remember (a_queue a) as q eqn:Eq. revert a Eq. induction q as [|b q IH]; intros a Eq Hx Hn; cbn; [set_solver|].
  destruct (Hx b) as (x & Hb & Hf); [set_solver|]. apply NoDup_cons in Hn as [Hbq Hn]. rewrite <- Eq, Hb.
  assert (Hbl : (b < length (a_bufs a))%nat) by by eapply lookup_lt_Some.
  destruct (serve x (a_blocks a)) as [x' f] eqn:Es.
  destruct (IH (mk_ad (<[b := x']> (a_bufs a)) f q)) as (H1 & H2 & H3); [done| |done|].
  { intros c Hc. destruct (Hx c) as (y & Hy & Hfy); [set_solver|]. exists y. cbn. rewrite list_lookup_insert_ne by (intros ->; done). done. }
  split; [done|]. split.
  - intros c [->|Hc]%elem_of_cons; [|by apply H2]. exists x'. rewrite H3 by done. cbn. rewrite list_lookup_insert_eq by done. split; [done|].
    unfold serve in Es. unfold ide_done. destruct (_ =? 0); injection Es as <- <-; cbn; by rewrite flags_done.
  - intros c Hc. rewrite H3 by set_solver. cbn. apply list_lookup_insert_ne. set_solver.
Qed.

Lemma ide_run_sim ops s a : ide_is s a → valid_ops ops a → ∃ s', ide_run ops s = Ok (tt, s') ∧ ide_is s' (a_run ops a).
Proof.
  revert s a. induction ops as [|o ops IH]; intros s a Hs; cbn; [eauto|]. intros [Ho Hv].
  assert (H : ∃ s', ide_op o s = Ok (tt, s') ∧ ide_is s' (a_step o a)) by (destruct o; [by apply req_step|by apply intr_step]).
  destruct H as (s1 & Hr & Hs1). rewrite (bind_eq _ _ _ _ _ Hr). by apply IH.
Qed.


(** Two requests, of which the first is written while the second comes in. *)
Definition ide_start : ide :=
  mk_ide [mk_ibuf 4 1 5 None [7]; mk_ibuf 0 1 5 None []] None (mk_hd 0 [0; 0; 0] 0 None [] (λ _, [0]) false) [].

Definition ide_spec : adisk := mk_ad (ibufs ide_start) (λ _, [0]) [].

