(* ===== verification/Umalloc.v ===== *)
(** The memory allocator of user programs (umalloc.c): the circular list of free blocks
    of Kernighan and Ritchie, with the pages that the assignment adds. malloc and free
    are proved to give every caller memory of its own and to lose none of it.

    The memory is a function from addresses to the headers stored there; everything the
    allocator reads and writes is a header. *)
From Stdlib Require Import ZArith Lia Bool.
From stdpp Require Import base tactics list list_numbers strings sets.
From S2P Require Import Prelude Machine.

(** * State *)

(** [union header]: eight bytes, a pointer and the size of the block in headers. *)
Record header := mk_header { h_ptr : Z; h_size : Z }.
Definition sizeof_Header : Z := 8.

(** The memory, [freep] (0 is the null pointer), the size of the process, the flags of
    its pages and the count of protected pages that the kernel keeps. *)
Record um := mk_um { hdrs : Z → header; freep : Z; ubrk : Z; uflags : Z → Z; uprot : Z }.

Definition store (a : Z) (h : header) (f : Z → header) : Z → header := λ x, if x =? a then h else f x.

Definition set_freep (v : Z) (s : um) : um := mk_um (hdrs s) v (ubrk s) (uflags s) (uprot s).
Definition set_ptr (a v : Z) : M um unit :=
  modify (λ s, mk_um (store a (mk_header v (h_size (hdrs s a))) (hdrs s)) (freep s) (ubrk s) (uflags s) (uprot s)).
Definition set_size (a v : Z) : M um unit :=
  modify (λ s, mk_um (store a (mk_header (h_ptr (hdrs s a)) v) (hdrs s)) (freep s) (ubrk s) (uflags s) (uprot s)).

Definition ptr_of (a : Z) : M um Z := gets (λ s, h_ptr (hdrs s a)).
Definition size_of (a : Z) : M um Z := gets (λ s, h_size (hdrs s a)).

(** [p + n] for a pointer to a header. *)
Definition padd (p n : Z) : Z := u32 (p + sizeof_Header * n).

Section umalloc.
(** Whether the kernel has the memory for a process of this size, and where the variable
    [base] is. *)
Context (can_grow : Z → bool) (base : Z).

(** sbrk as the kernel does it (sys_sbrk and growproc), on the size of the process. *)
Definition sbrk (n : Z) : M um Z :=
  s ← get;
  let sz := ubrk s in
  let set v := modify (λ s, mk_um (hdrs s) (freep s) v (uflags s) (uprot s)) in
  if 0 <? s32 n then
    let newsz := u32 (sz + n) in
    if KERNBASE <=? newsz then mret (-1) else
    if newsz <? sz then mret sz else
    if can_grow newsz then set newsz;; mret sz else mret (-1)
  else if s32 n <? 0 then
    let newsz := u32 (sz + n) in
    if sz <=? newsz then (if sz =? 0 then mret (-1) else mret sz) else
    if newsz =? 0 then mret (-1) else set newsz;; mret sz
  else mret sz.

(** ** free *)

(** The loop that looks for the place of [bp] from [p] on. *)
Fixpoint free_loop (fuel : nat) (bp p : Z) : M um Z :=
  nx ← ptr_of p;
  if (p <? bp) && (bp <? nx) then mret p else
  if (nx <=? p) && ((p <? bp) || (bp <? nx)) then mret p else
  match fuel with
  | O => nofuel
  | S fuel => free_loop fuel bp nx
  end.

(** There are fewer blocks than bytes, so the loops have gone around the list once
    within this many rounds. *)
Definition rounds (s : um) : nat := Z.to_nat (ubrk s) + 10.

(** Block [bp] is joined with the free block at [nx] when it ends there, and the block
    at [p] with [bp]. *)
Definition join_next (bp nx : Z) : M um unit :=
  n ← size_of bp;
  if padd bp n =? nx then
    k ← size_of nx; set_size bp (u32 (n + k));;
    q ← ptr_of nx; set_ptr bp q
  else set_ptr bp nx.
Definition join_prev (p bp : Z) : M um unit :=
  m ← size_of p;
  if padd p m =? bp then
    n ← size_of bp; set_size p (u32 (m + n));;
    q ← ptr_of bp; set_ptr p q
  else set_ptr p bp.

Definition free (ap : Z) : M um unit :=
  let bp := u32 (ap - sizeof_Header) in
  s ← get;
  p ← free_loop (rounds s) bp (freep s);
  nx ← ptr_of p;
  join_next bp nx;;
  join_prev p bp;;
  modify (set_freep p).

(** ** malloc *)

(** [None] is the null pointer. *)
Definition morecore (nu : Z) : M um (option Z) :=
  let nu := if nu <? 4096 then 4096 else nu in
  p ← sbrk (u32 (nu * sizeof_Header));
  if p =? -1 then mret None else
  set_size p nu;;
  free (padd p 1);;
  s ← get;
  mret (Some (freep s)).

(** The search that malloc and pmalloc share, at [p] with [prevp] before it: a block of
    [need] headers is taken; back at [freep] there has to be more memory. *)
Fixpoint search_loop (need nunits : Z) (take_block : Z → Z → Z → M um Z) (fuel : nat) (prevp p : Z) : M um Z :=
  match fuel with
  | O => nofuel
  | S fuel =>
      n ← size_of p;
      if need <=? n then take_block n prevp p
      else
        s ← get;
        p ← (if p =? freep s then morecore nunits else mret (Some p));
        match p with
        | None => mret 0
        | Some p => q ← ptr_of p; search_loop need nunits take_block fuel p q
        end
  end.

(** malloc takes the block of [n] headers at [p], or the end of it. *)
Definition malloc_take (nunits n prevp p : Z) : M um Z :=
  p ← (if n =? nunits then q ← ptr_of p; set_ptr prevp q;; mret p
       else set_size p (u32 (n - nunits));;
            let p := padd p (u32 (n - nunits)) in
            set_size p nunits;; mret p);
  modify (set_freep prevp);;
  mret (padd p 1).

(** The beginning of malloc and pmalloc: the list is made when there is none. *)
Definition start_list : M um Z :=
  s ← get;
  if freep s =? 0 then
    set_ptr base base;;
    modify (set_freep base);;
    set_size base 0;;
    mret base
  else mret (freep s).

Definition nunits_of (nbytes : Z) : Z := u32 (u32 (nbytes + sizeof_Header - 1) / sizeof_Header + 1).

Definition malloc (nbytes : Z) : M um Z :=
  prevp ← start_list;
  s ← get;
  p ← ptr_of prevp;
  let nunits := nunits_of nbytes in
  search_loop nunits nunits (malloc_take nunits) (rounds s) prevp p.

(** ** Pages *)

(** The system calls turn_flag, is_flag_on and update_protected_pages on the flags. *)
Definition page_of (va : Z) : Z := va / PGSIZE.
Definition u_turn_flag (va flag on : Z) : M um unit :=
  modify (λ s, mk_um (hdrs s) (freep s) (ubrk s)
    (λ p, if p =? page_of va then (if on =? 0 then clr (uflags s p) flag else Z.lor (uflags s p) flag) else uflags s p) (uprot s)).
Definition u_is_flag_on (va flag : Z) : M um bool := gets (λ s, negb (Z.land (uflags s (page_of va)) flag =? 0)).
Definition u_update_protected_pages (up : Z) : M um unit :=
  modify (λ s, mk_um (hdrs s) (freep s) (ubrk s) (uflags s) (if up =? 0 then uprot s - 1 else uprot s + 1)).

(** pmalloc takes a page near the end of the block of [n] headers at [p]. *)
Definition pmalloc_take (nunits n prevp p : Z) : M um Z :=
  let n' := u32 ((n / (4096 / 8) - 1) * (4096 / 8) - 1) in
  set_size p n';;
  let p := padd p n' in
  set_size p nunits;;
  u_turn_flag (padd p 1) PTE_1 1;;
  modify (set_freep prevp);;
  mret (padd p 1).

Definition pmalloc : M um Z :=
  let ps := 4096 / 8 in
  let p_bytes := PGSIZE + sizeof_Header - 1 in
  let nunits := p_bytes / sizeof_Header + 1 in
  prevp ← start_list;
  s ← get;
  p ← ptr_of prevp;
  search_loop (ps * 2) nunits (pmalloc_take nunits) (rounds s) prevp p.

Definition protect_page (ap : Z) : M um Z :=
  f ← u_is_flag_on ap PTE_1;
  if negb f then mret (-1) else
  n ← size_of (u32 (ap - sizeof_Header));
  if negb (n =? 4096 / 8 + 1) then mret (-1) else
  u_turn_flag ap PTE_W 0;;
  u_update_protected_pages 1;;
  mret 1.

Definition protected (ap : Z) : M um bool := f ← u_is_flag_on ap PTE_W; mret (negb f).

Definition pfree (ap : Z) : M um Z :=
  f ← u_is_flag_on ap PTE_1;
  if negb f then mret (-1) else
  w ← protected ap;
  if negb w then mret (-1) else
  n ← size_of (u32 (ap - sizeof_Header));
  if negb (n =? 4096 / 8 + 1) then mret (-1) else
  u_turn_flag ap PTE_W 1;;
  u_update_protected_pages 0;;
  free ap;;
  mret 1.
End umalloc.

(** * The list of free blocks

    A block is the address of its header and its size in headers. *)
Notation blocks := (list (Z * Z)).

Definition first (F : blocks) (z : Z) : Z := match F with [] => z | (a, _) :: _ => a end.
Fixpoint last_a (x : Z) (F : blocks) : Z := match F with [] => x | (a, _) :: F => last_a a F end.
Fixpoint end_of (lo : Z) (F : blocks) : Z := match F with [] => lo | (a, n) :: F => end_of (a + 8 * n) F end.
Definition total (F : blocks) : Z := foldr (λ x t, x.2 + t) 0 F.

(** From the header at [x] the links go through the blocks of [F] to [z]. *)
Fixpoint fchain (h : Z → header) (x : Z) (F : blocks) (z : Z) : Prop :=
  match F with
  | [] => h_ptr (h x) = z
  | (a, n) :: F => h_ptr (h x) = a ∧ h_size (h a) = n ∧ fchain h a F z
  end.

(** The blocks follow each other with gaps between them, from [lo] to [hi]. *)
Fixpoint apart (lo : Z) (F : blocks) (hi : Z) : Prop :=
  match F with
  | [] => lo ≤ hi
  | (a, n) :: F => lo < a ∧ 1 ≤ n ∧ a mod 8 = 0 ∧ apart (a + 8 * n) F hi
  end.

Fixpoint asc (x : Z) (F : blocks) : Prop := match F with [] => True | (a, _) :: F => x < a ∧ asc a F end.

Definition disj (x y : Z * Z) : Prop := x.1 + 8 * x.2 ≤ y.1 ∨ y.1 + 8 * y.2 ≤ x.1.
Fixpoint pairwise (L : blocks) : Prop := match L with [] => True | x :: L => Forall (disj x) L ∧ pairwise L end.

Lemma total_app F G : total (F ++ G) = total F + total G.
Proof. induction F as [|[a n] F IH]; cbn; [done|]. fold (total (F ++ G)) (total F). lia. Qed.

Lemma last_app x F G : last_a x (F ++ G) = last_a (last_a x F) G.
Proof. revert x. induction F as [|[a n] F IH]; intros x; cbn; auto. Qed.

Lemma fchain_app h F G z : ∀ x, fchain h x (F ++ G) z ↔ fchain h x F (first G z) ∧ fchain h (last_a x F) G z.
Proof.
  induction F as [|[a n] F IH]; intros x; cbn.
  - destruct G as [|[b m] G]; cbn; tauto.
  - rewrite IH. tauto.
Qed.

Lemma apart_mono lo lo' F hi : lo' ≤ lo → apart lo F hi → apart lo' F hi.
Proof. destruct F as [|[a n] F]; cbn; [lia|]. intros H (H1 & H2). split; [lia|done]. Qed.

Lemma apart_app lo F G hi : apart lo (F ++ G) hi ↔ apart lo F (end_of lo F) ∧ apart (end_of lo F) G hi.
Proof. revert lo. induction F as [|[a n] F IH]; intros lo; cbn; [split; [split; [lia|done]|tauto]|]. rewrite IH. tauto. Qed.

Lemma apart_asc lo F hi : apart lo F hi → asc lo F.
Proof.
  revert lo. induction F as [|[a n] F IH]; intros lo; cbn; [done|]. intros (H1 & H2 & _ & H3). split; [done|].
  apply IH in H3. destruct F as [|[b m] F]; [done|]. cbn in *. split; [lia|apply H3].
Qed.

Lemma asc_mono x y F : x ≤ y → asc y F → asc x F.
Proof. destruct F as [|[a n] F]; cbn; [done|]. intros H [H1 H2]. split; [lia|done]. Qed.

Lemma asc_above x F : asc x F → Forall (λ b, x < b.1) F.
Proof.
  revert x. induction F as [|[a n] F IH]; intros x; cbn; [constructor|]. intros [H1 H2]. constructor; [done|].
  apply IH. apply asc_mono with a; [lia|done].
Qed.

Lemma asc_app x F G : asc x (F ++ G) ↔ asc x F ∧ asc (last_a x F) G.
Proof. revert x. induction F as [|[a n] F IH]; intros x; cbn; [tauto|]. rewrite IH. tauto. Qed.

Lemma last_cases x F : last_a x F = x ∧ F = [] ∨ ∃ G n, F = G ++ [(last_a x F, n)].
Proof.
  destruct F as [|[a n] F _] using rev_ind; [by left|]. right. exists F, n. rewrite last_app. done.
Qed.

Lemma last_below x F bp : x < bp → Forall (λ b, b.1 < bp) F → last_a x F < bp.
Proof. intros Hx HF. destruct (last_cases x F) as [[-> _]|(G & n & E)]; [done|]. rewrite E, Forall_app, Forall_singleton in HF. apply HF. Qed.

(** A part of the memory that changes outside a chain. *)
Lemma fchain_from h h' x y F z : fchain h y F z → h_ptr (h' x) = first F z → (∀ a, a ∈ F.*1 → h' a = h a) → fchain h' x F z.
Proof.
  revert x y. induction F as [|[a n] F IH]; intros x y; cbn; [done|]. intros (H1 & H2 & H3) Hp Ha.
  split; [done|]. rewrite (Ha a) by set_solver. split; [done|]. apply (IH a a); [done| |set_solver].
  rewrite (Ha a) by set_solver. destruct F as [|[b m] F]; cbn in H3 |- *; [done|apply H3].
Qed.

(** The last block of a chain gets another successor. *)
Lemma fchain_relink h h' x F z z' : fchain h x F z → asc x F → (∀ a, a ∈ x :: F.*1 → a ≠ last_a x F → h' a = h a) →
  h_ptr (h' (last_a x F)) = z' → (F ≠ [] → h_size (h' (last_a x F)) = h_size (h (last_a x F))) → fchain h' x F z'.
Proof.
  revert x. induction F as [|[a n] F IH]; intros x; cbn [fchain last_a fmap list_fmap asc]; [done|]. intros (H1 & H2 & H3) [Ha Hs] He Hp Hz.
  assert (Hx : x ≠ last_a a F).
  { intros E. destruct (last_cases a F) as [[E' _]|(G & m & E')]; [lia|]. apply asc_above in Hs. rewrite E', Forall_app, Forall_singleton in Hs.
    destruct Hs as [_ Hs]. cbn in Hs. lia. }
  rewrite (He x) by set_solver. split; [done|]. split.
  - destruct (decide (a = last_a a F)) as [E|Hne]; [|rewrite He; [done|set_solver|done]].
    rewrite E, Hz by done. by rewrite <- E.
  - apply IH; [done|done| |done|intros _; by apply Hz]. intros b Hb. apply He. set_solver.
Qed.

(** * free *)

(** Enough headers for the bytes and the header of the block. *)
Lemma nunits_enough b : 0 ≤ b ≤ 2 ^ 31 - 32 → 1 ≤ nunits_of b ∧ b + 8 ≤ 8 * nunits_of b < b + 16.
Proof.
  intros Hb. unfold nunits_of, sizeof_Header. rewrite (u32_small (b + 8 - 1)) by lia.
  rewrite u32_small by (Z.to_euclidean_division_equations; lia). Z.to_euclidean_division_equations. lia.
Qed.

Lemma disj_sym x y : disj x y → disj y x.
Proof. unfold disj. tauto. Qed.

Lemma pairwise_app L1 x L2 : pairwise (L1 ++ x :: L2) → pairwise (L1 ++ L2) ∧ Forall (disj x) (L1 ++ L2).
Proof.
  induction L1 as [|y L1 IH]; cbn; [tauto|]. intros [Hy H]. destruct (IH H) as [H1 H2]. rewrite Forall_app, Forall_cons in Hy.
  split; [split; [rewrite Forall_app; tauto|done]|]. constructor; [apply disj_sym; tauto|done].
Qed.

Lemma pairwise_lookup L i j x y : pairwise L → i ≠ j → L !! i = Some x → L !! j = Some y → disj x y.
Proof.
  revert i j. induction L as [|z L IH]; intros [|i] [|j]; cbn; try done; intros [Hz H] Hne.
  - intros [= ->] Hy. rewrite Forall_forall in Hz. apply Hz. by eapply list_elem_of_lookup_2.
  - intros Hx [= ->]. apply disj_sym. rewrite Forall_forall in Hz. apply Hz. by eapply list_elem_of_lookup_2.
  - intros Hx Hy. apply (IH i j); auto.
Qed.

Section heap.
  Context (can_grow : Z → bool) (base h0 : Z).
  Implicit Types (s : um) (F L : blocks).

(** A block of the heap that is in use, with its header. *)
Record live_ok s (x : Z * Z) : Prop := {
  lk_lo : h0 ≤ x.1;
  lk_size : 1 ≤ x.2;
  lk_align : x.1 mod 8 = 0;
  lk_hi : x.1 + 8 * x.2 ≤ ubrk s;
  lk_header : h_size (hdrs s x.1) = x.2 }.

(** The free blocks [F] and the blocks in use [L]: the list of free blocks is circular,
    starts at [base] and is sorted; no two free blocks touch, and no two blocks overlap. *)
Record heap s F L : Prop := {
  hk_base : 0 < base < h0;
  hk_chain : fchain (hdrs s) base F base;
  hk_bsize : h_size (hdrs s base) = 0;
  hk_apart : apart base F (ubrk s);
  hk_lo : Forall (λ x, h0 ≤ x.1) F;
  hk_freep : freep s ∈ base :: F.*1;
  hk_live : Forall (live_ok s) L;
  hk_sep : ∀ x y, x ∈ F → y ∈ L → disj x y;
  hk_pair : pairwise L;
  hk_brk : h0 ≤ ubrk s < KERNBASE }.

(** What is stored in the blocks in use has not changed. *)
Definition same_in L s s' : Prop := ∀ y x, y ∈ L → y.1 ≤ x < y.1 + 8 * y.2 → hdrs s' x = hdrs s x.

(** The headers of the free blocks are outside the blocks in use. *)
Lemma header_outside s F L p y : heap s F L → p ∈ base :: F.*1 → y ∈ L → ¬ y.1 ≤ p < y.1 + 8 * y.2.
Proof.
  intros H Hp Hy. pose proof (hk_live _ _ _ H) as HL. rewrite Forall_forall in HL. pose proof (HL _ Hy) as [Y1 Y2 _ _ _].
  pose proof (hk_base _ _ _ H). apply elem_of_cons in Hp as [->|Hp]; [lia|]. apply list_elem_of_fmap in Hp as (z & -> & Hz).
  pose proof (hk_sep _ _ _ H z y Hz Hy) as HD. enough (1 ≤ z.2) by (unfold disj in HD; lia).
  pose proof (hk_apart _ _ _ H) as Ha. clear -Ha Hz. revert Ha. generalize base. induction F as [|[a n] F IH]; intros lo; cbn; [set_solver|].
  intros (_ & Hn & _ & Ha). apply elem_of_cons in Hz as [->|Hz]; [done|]. by eapply IH.
Qed.

Lemma place F : ∀ lo hi bp n, apart lo F hi → Forall (disj (bp, n)) F → 1 ≤ n →
  ∃ F1 F2, F = F1 ++ F2 ∧ Forall (λ x, x.1 + 8 * x.2 ≤ bp ∧ x.1 < bp) F1 ∧ Forall (λ x, bp + 8 * n ≤ x.1) F2.
Proof.
  induction F as [|[a m] F IH]; intros lo hi bp n Ha Hd Hn; [exists [], []; split_and!; constructor|].
  apply Forall_cons in Hd as [Hd HF]. destruct Ha as (Hlo & Hm & _ & Ha). unfold disj in Hd. cbn in Hd.
  destruct (decide (bp + 8 * n ≤ a)) as [Hle|Hgt].
  - exists [], ((a, m) :: F). split_and!; [done|constructor|]. constructor; [done|]. apply apart_asc, asc_above in Ha.
    eapply Forall_impl; [exact Ha|]. cbn. intros x Hx. lia.
  - destruct (IH _ _ _ _ Ha HF Hn) as (F1 & F2 & -> & H1 & H2). exists ((a, m) :: F1), F2. split_and!; [done| |done].
    constructor; [cbn; lia|done].
Qed.

(** The search stops at the last header below [bp]. *)
Lemma free_loop_up s bp G z : ∀ x fuel, fchain (hdrs s) x G z → asc x G → x < bp → Forall (λ b, b.1 < bp) G →
  bp < z ∨ z ≤ last_a x G → (length G ≤ fuel)%nat → free_loop fuel bp x s = Ok (last_a x G, s).
Proof.
  induction G as [|[a n] G IH]; intros x fuel Hc Ha Hx HG Hz Hf.
  - cbn in *. assert (E : ptr_of x s = Ok (z, s)) by (unfold ptr_of, gets; by rewrite Hc).
    destruct fuel; cbn [free_loop]; mrun E; rewrite (proj2 (Z.ltb_lt x bp)) by done; cbn [andb orb];
      (destruct (Z.ltb_spec bp z); [done|]); by rewrite (proj2 (Z.leb_le z x)) by lia.
  - destruct fuel as [|fuel]; cbn [length] in Hf; [lia|]. destruct Hc as (Hp & Hs & Hc). destruct Ha as [Hlt Ha].
    apply Forall_cons in HG as [Hab HG]. cbn in Hab. cbn [free_loop last_a].
    assert (E : ptr_of x s = Ok (a, s)) by (unfold ptr_of, gets; by rewrite Hp). mrun E.
    rewrite (proj2 (Z.ltb_ge bp a)), (proj2 (Z.leb_gt a x)), andb_false_r by lia. cbn [andb]. apply IH; [done..|lia].
Qed.

(** Above [bp] it goes on to [base]. *)
Lemma free_loop_over s bp G : ∀ x fuel, fchain (hdrs s) x G base → asc x G → bp < x → base < bp →
  free_loop (S (length G + fuel)) bp x s = free_loop fuel bp base s.
Proof.
  induction G as [|[a n] G IH]; intros x fuel Hc Ha Hx Hb.
  - cbn in Hc. assert (E : ptr_of x s = Ok (base, s)) by (unfold ptr_of, gets; by rewrite Hc). cbn [length Nat.add free_loop]. mrun E.
    rewrite (proj2 (Z.ltb_ge x bp)), (proj2 (Z.ltb_ge bp base)) by lia. cbn [andb orb]. by rewrite andb_false_r.
  - destruct Hc as (Hp & Hs & Hc). destruct Ha as [Hlt Ha]. cbn [length Nat.add]. cbn [free_loop].
    assert (E : ptr_of x s = Ok (a, s)) by (unfold ptr_of, gets; by rewrite Hp). mrun E.
    rewrite (proj2 (Z.ltb_ge x bp)), (proj2 (Z.leb_gt a x)) by lia. cbn [andb]. apply IH; [done|done|lia|done].
Qed.

Lemma free_loop_run s F1 F2 L bp fuel : heap s (F1 ++ F2) L → base < bp →
  Forall (λ x, x.1 < bp) F1 → Forall (λ x, bp < x.1) F2 → (length (F1 ++ F2) < fuel)%nat →
  free_loop fuel bp (freep s) s = Ok (last_a base F1, s).
Proof.
  intros H Hb H1 H2 Hf. rewrite length_app in Hf. pose proof (apart_asc _ _ _ (hk_apart _ _ _ H)) as Ha.
  pose proof (hk_chain _ _ _ H) as Hc. apply fchain_app in Hc as [Hc1 Hc2]. apply asc_app in Ha as [Ha1 Ha2].
  assert (Hz : bp < first F2 base ∨ first F2 base ≤ last_a base F1).
  { destruct F2 as [|[c k] F2]; cbn; [|left; apply Forall_cons in H2; apply H2]. right.
    destruct (last_cases base F1) as [[-> _]|(G & n & E)]; [done|]. apply asc_above in Ha1. rewrite E, Forall_app, Forall_singleton in Ha1.
    destruct Ha1 as [_ Ha1]. cbn in Ha1. lia. }
  pose proof (hk_freep _ _ _ H) as Hp. rewrite fmap_app in Hp.
  assert (Hup : ∀ fuel, (length F1 ≤ fuel)%nat → free_loop fuel bp base s = Ok (last_a base F1, s)) by (intros; by apply (free_loop_up s bp F1 (first F2 base))).
  apply elem_of_cons in Hp as [->|Hp]; [apply Hup; lia|]. apply elem_of_app in Hp as [Hp|Hp].
  - apply list_elem_of_fmap in Hp as ([x n] & Ex & Hin). cbn in Ex. rewrite Ex. apply list_elem_of_split in Hin as (A & C & ->).
    apply fchain_app in Hc1 as [_ (_ & _ & Hc1)]. apply asc_app in Ha1 as [_ [_ Ha1]]. apply Forall_app in H1 as [_ [Hx H1]%Forall_cons].
    rewrite last_app in *. cbn [last_a] in *. rewrite length_app in Hf. cbn [length] in Hf. apply (free_loop_up s bp C (first F2 base)); [done..|lia].
  - apply list_elem_of_fmap in Hp as ([x n] & Ex & Hin). cbn in Ex. rewrite Ex. apply list_elem_of_split in Hin as (A & C & ->).
    apply fchain_app in Hc2 as [_ (_ & _ & Hc2)]. apply asc_app in Ha2 as [_ [_ Ha2]]. apply Forall_app in H2 as [_ [Hx H2]%Forall_cons]. cbn in Hx.
    rewrite length_app in Hf. cbn [length] in Hf. replace fuel with (S (length C + (fuel - S (length C))))%nat by lia.
    rewrite free_loop_over by done. apply Hup. lia.
Qed.

Lemma apart_length F : ∀ lo hi, apart lo F hi → 8 * Z.of_nat (length F) ≤ hi - lo.
Proof. induction F as [|[a n] F IH]; intros lo hi; cbn [apart length]; [lia|]. intros (H1 & H2 & _ & H3). apply IH in H3. lia. Qed.

Lemma apart_hi F : ∀ lo hi, apart lo F hi → lo ≤ hi ∧ Forall (λ x, x.1 + 8 * x.2 ≤ hi ∧ 1 ≤ x.2) F.
Proof.
  induction F as [|[a n] F IH]; intros lo hi; cbn [apart]; [auto|]. intros (H1 & H2 & _ & H3). apply IH in H3 as [H3 H4].
  split; [lia|]. constructor; [cbn; lia|done].
Qed.

(** The block after it is joined to [bp]. *)
Lemma join_next_run s F2 q bp n hi : fchain (hdrs s) q F2 base → apart (bp + 8 * n - 1) F2 hi → h_size (hdrs s bp) = n →
  0 < base < bp → 1 ≤ n → bp + 8 * n ≤ hi → hi < KERNBASE →
  ∃ s1 n' F2', join_next bp (first F2 base) s = Ok (tt, s1) ∧
    (∀ x, x ≠ bp → hdrs s1 x = hdrs s x) ∧ hdrs s1 bp = mk_header (first F2' base) n' ∧ freep s1 = freep s ∧ ubrk s1 = ubrk s ∧
    apart (bp + 8 * n') F2' hi ∧ (F2' = F2 ∧ n' = n ∨ ∃ k, F2 = (bp + 8 * n, k) :: F2' ∧ n' = n + k ∧ 1 ≤ k).
Proof.
  intros Hc Ha Hn Hb H1 Hhi HK. unfold KERNBASE in HK. unfold join_next.
  assert (E : size_of bp s = Ok (n, s)) by (unfold size_of, gets; by rewrite Hn). mrun E.
  unfold padd, sizeof_Header. rewrite u32_small by lia. destruct (Z.eqb_spec (bp + 8 * n) (first F2 base)) as [Ef|Hne].
  - destruct F2 as [|[c k] F3]; cbn in Ef; [lia|]. subst c. destruct Hc as (_ & Hk & Hc). destruct Ha as (_ & Hk1 & _ & Ha).
    destruct (apart_hi _ _ _ Ha) as [Hle _]. cbn [first]. eexists _, (n + k), F3.
    split; [unfold size_of, set_size, ptr_of, set_ptr; munfold; cbn; reflexivity|]. cbn. unfold store. rewrite Z.eqb_refl. cbn.
    rewrite Hk, (u32_small (n + k)) by lia. rewrite (proj2 (Z.eqb_neq (bp + 8 * n) bp)) by lia. split_and!; try done.
    + intros x Hx. by rewrite (proj2 (Z.eqb_neq x bp)).
    + f_equal. destruct F3 as [|[d m] F3]; cbn in Hc |- *; [done|apply Hc].
    + replace (bp + 8 * (n + k)) with (bp + 8 * n + 8 * k) by lia. done.
    + right. exists k. done.
  - eexists _, n, F2. split; [reflexivity|]. cbn. unfold store. rewrite Z.eqb_refl, Hn. split_and!; try done.
    + intros x Hx. by rewrite (proj2 (Z.eqb_neq x bp)).
    + destruct F2 as [|[c k] F2]; cbn in *; [lia|]. split; [lia|apply Ha].
    + by left.
Qed.

(** The block before it takes [bp] in. *)
Lemma join_prev_run s p bp m n q : h_size (hdrs s p) = m → hdrs s bp = mk_header q n → 0 ≤ p → p ≠ bp → 0 ≤ m → 0 ≤ n → p + 8 * m < 2 ^ 32 → m + n < 2 ^ 32 →
  ∃ s2, join_prev p bp s = Ok (tt, s2) ∧ (∀ x, x ≠ p → hdrs s2 x = hdrs s x) ∧
    hdrs s2 p = (if p + 8 * m =? bp then mk_header q (m + n) else mk_header bp m) ∧ freep s2 = freep s ∧ ubrk s2 = ubrk s.
Proof.
  intros Hm Hn Hp Hne Hm0 Hn0 H1 H2. unfold join_prev. assert (E : size_of p s = Ok (m, s)) by (unfold size_of, gets; by rewrite Hm). mrun E.
  unfold padd, sizeof_Header. rewrite u32_small by lia. destruct (p + 8 * m =? bp).
  - eexists. split; [unfold size_of, set_size, ptr_of, set_ptr; munfold; cbn; reflexivity|]. cbn. unfold store. rewrite Z.eqb_refl, Hn. cbn.
    rewrite (u32_small (m + n)), (proj2 (Z.eqb_neq bp p)) by lia. split_and!; try done. intros x Hx. by rewrite (proj2 (Z.eqb_neq x p)).
  - eexists. split; [reflexivity|]. cbn. unfold store. rewrite Z.eqb_refl, Hm. split_and!; try done. intros x Hx. by rewrite (proj2 (Z.eqb_neq x p)).
Qed.

Lemma fchain_last h F z : ∀ x, fchain h x F z → h_ptr (h (last_a x F)) = z.
Proof. induction F as [|[a n] F IH]; intros x; cbn; [done|]. intros (_ & _ & H). by apply IH. Qed.

Lemma apart_above lo F hi x : apart lo F hi → x ≤ hi → Forall (λ b, x < b.1) F → apart x F hi.
Proof. destruct F as [|[a n] F]; cbn; [done|]. intros (_ & H) _ [Ha _]%Forall_cons. done. Qed.

(** Block [(bp, n)] lies in the heap beside all others. *)
Record loose s F L (bp n : Z) : Prop := {
  ls_size : h_size (hdrs s bp) = n;
  ls_n : 1 ≤ n;
  ls_lo : h0 ≤ bp;
  ls_align : bp mod 8 = 0;
  ls_hi : bp + 8 * n ≤ ubrk s;
  ls_free : Forall (disj (bp, n)) F;
  ls_live : Forall (disj (bp, n)) L }.

(** The heap after a change at the headers [p] and [bp] that makes [F'] the free blocks. *)
Lemma heap_change s F L s' F' p bp n : heap s F L → loose s F L bp n → p ∈ base :: F.*1 → ubrk s' = ubrk s → freep s' = p → p ∈ base :: F'.*1 →
  (∀ x, x ≠ p → x ≠ bp → hdrs s' x = hdrs s x) → fchain (hdrs s') base F' base → h_size (hdrs s' base) = 0 → apart base F' (ubrk s) →
  (∀ x, x ∈ F' → h0 ≤ x.1 ∧ ∀ y, 1 ≤ y.2 → disj (bp, n) y → (∀ z, z ∈ F → disj z y) → disj x y) → heap s' F' L.
Proof.
  intros H Hl Hp Eb Ef Hp' Hh Hc Hs Ha Hx. assert (Hout : ∀ y, y ∈ L → y.1 ≠ p ∧ y.1 ≠ bp).
  { intros y Hy. pose proof (hk_live _ _ _ H) as HL. rewrite Forall_forall in HL. pose proof (HL _ Hy) as [Y1 Y2 _ _ _].
    pose proof (ls_live _ _ _ _ _ Hl) as HD. rewrite Forall_forall in HD. specialize (HD _ Hy). pose proof (ls_n _ _ _ _ _ Hl).
    pose proof (hk_base _ _ _ H). unfold disj in HD. cbn in HD. split; [|lia]. intros E. apply elem_of_cons in Hp as [->|Hp]; [lia|].
    apply list_elem_of_fmap in Hp as (z & -> & Hz). pose proof (hk_sep _ _ _ H z y Hz Hy) as HD'.
    destruct (apart_hi _ _ _ (hk_apart _ _ _ H)) as [_ HF]. rewrite Forall_forall in HF. specialize (HF _ Hz). unfold disj in HD'. lia. }
  split; rewrite ?Eb; try done; try apply H.
  - apply Forall_forall. intros x Hin. by apply Hx.
  - by rewrite Ef.
  - apply Forall_forall. intros y Hy. pose proof (hk_live _ _ _ H) as HL. rewrite Forall_forall in HL. destruct (HL _ Hy). destruct (Hout _ Hy).
    split; rewrite ?Eb; try done. by rewrite Hh.
  - intros x y Hin Hy. destruct (Hx _ Hin) as [_ Hd]. pose proof (hk_live _ _ _ H) as HL. rewrite Forall_forall in HL.
    pose proof (ls_live _ _ _ _ _ Hl) as HD. rewrite Forall_forall in HD. apply Hd; [by apply HL|by apply HD|]. intros z Hz. by apply (hk_sep _ _ _ H).
Qed.

(** Where the search leaves a new block: between [F1] and [F2]. *)
Lemma loose_place s F L bp n : heap s F L → loose s F L bp n → ∃ F1 F2, F = F1 ++ F2 ∧ base < bp ∧ bp + 8 * n < KERNBASE ∧
  Forall (λ x, x.1 + 8 * x.2 ≤ bp ∧ x.1 < bp) F1 ∧ Forall (λ x, bp + 8 * n ≤ x.1) F2 ∧ last_a base F1 < bp ∧
  apart (bp + 8 * n - 1) F2 (ubrk s) ∧ base ≤ last_a base F1.
Proof.
  intros H Hl. destruct (place F _ _ _ _ (hk_apart _ _ _ H) (ls_free _ _ _ _ _ Hl) (ls_n _ _ _ _ _ Hl)) as (F1 & F2 & -> & H1 & H2).
  pose proof (hk_base _ _ _ H). pose proof (ls_lo _ _ _ _ _ Hl). pose proof (ls_hi _ _ _ _ _ Hl). pose proof (hk_brk _ _ _ H).
  pose proof (hk_apart _ _ _ H) as Ha. pose proof (apart_asc _ _ _ Ha) as Hs. apply apart_app in Ha as [Ha1 Ha2]. apply asc_app in Hs as [Hs1 _].
  exists F1, F2. split_and!; try done; try lia.
  - apply last_below; [lia|]. eapply Forall_impl; [exact H1|]. cbn. tauto.
  - eapply apart_above; [exact Ha2|lia|]. eapply Forall_impl; [exact H2|]. cbn. lia.
  - destruct (last_cases base F1) as [[-> _]|(G & m & E)]; [lia|]. apply asc_above in Hs1. rewrite E, Forall_app, Forall_singleton in Hs1.
    destruct Hs1 as [_ Hs1]. cbn in Hs1. lia.
Qed.

(** The block after [bp] was joined to it, or was not. *)
Definition next_joined F2 (bp n : Z) F2' (n' : Z) : Prop :=
  F2' = F2 ∧ n' = n ∨ ∃ k, F2 = (bp + 8 * n, k) :: F2' ∧ n' = n + k ∧ 1 ≤ k.

(** Block [bp] is between [F1] and [F2]. *)
Record between s F1 F2 L (bp n : Z) : Prop := {
  bt_heap : heap s (F1 ++ F2) L;
  bt_loose : loose s (F1 ++ F2) L bp n;
  bt_base : base < bp;
  bt_hi : bp + 8 * n < KERNBASE;
  bt_below : Forall (λ x, x.1 + 8 * x.2 ≤ bp ∧ x.1 < bp) F1;
  bt_above : Forall (λ x, bp + 8 * n ≤ x.1) F2;
  bt_last : base ≤ last_a base F1 < bp;
  bt_apart : apart (bp + 8 * n - 1) F2 (ubrk s) }.

(** What free has done to the headers at [bp] and at [p], the one before it. *)
Record freed s F1 F2 (bp n : Z) s' (n' : Z) F2' (p m : Z) : Prop := {
  fr_freep : freep s' = p;
  fr_brk : ubrk s' = ubrk s;
  fr_p : p = last_a base F1;
  fr_m : h_size (hdrs s p) = m;
  fr_same : ∀ x, x ≠ p → x ≠ bp → hdrs s' x = hdrs s x;
  fr_bp : hdrs s' bp = mk_header (first F2' base) n';
  fr_hp : hdrs s' p = (if p + 8 * m =? bp then mk_header (first F2' base) (m + n') else mk_header bp m);
  fr_apart : apart (bp + 8 * n') F2' (ubrk s);
  fr_case : next_joined F2 bp n F2' n';
  fr_range : 0 ≤ m ∧ p + 8 * m ≤ bp }.

Lemma free_state s F1 F2 L bp n : between s F1 F2 L bp n →
  ∃ s' n' F2' p m, free (bp + 8) s = Ok (tt, s') ∧ freed s F1 F2 bp n s' n' F2' p m.
Proof.
  intros [H Hl Hb HK H1 H2 [Hbp Hlast] Ha2]. set (p := last_a base F1). set (m := h_size (hdrs s p)). pose proof (hk_base _ _ _ H) as Hb0. pose proof (hk_brk _ _ _ H) as Hbrk. unfold KERNBASE in *.
  pose proof (hk_chain _ _ _ H) as Hc. apply fchain_app in Hc as [Hc1 Hc2].
  pose proof (ls_n _ _ _ _ _ Hl) as Hn1. pose proof (ls_hi _ _ _ _ _ Hl) as Hhi. pose proof (ls_size _ _ _ _ _ Hl) as Hsz.
  assert (Hm : 0 ≤ m ∧ p + 8 * m ≤ bp).
  { unfold m, p. destruct (last_cases base F1) as [[E _]|(G & k & E)].
    - rewrite E, (hk_bsize _ _ _ H). lia.
    - set (q := last_a base F1) in *. pose proof Hc1 as Hc1'. rewrite E in Hc1'. apply fchain_app in Hc1' as (_ & _ & Hk & _). rewrite Hk.
      rewrite E, Forall_app, Forall_singleton in H1. destruct H1 as [_ H1]. cbn in H1. pose proof (hk_apart _ _ _ H) as Hap. rewrite E, <- app_assoc in Hap.
      apply apart_app in Hap as [_ (_ & Hk1 & _)]. lia. }
  destruct (join_next_run s F2 p bp n (ubrk s) Hc2 Ha2 Hsz ltac:(lia) Hn1 Hhi ltac:(unfold KERNBASE; lia))
    as (s1 & n' & F2' & E1 & Hx1 & Hb1 & Ef1 & Eb1 & Ha' & Hcase).
  assert (Hn' : n ≤ n' ∧ bp + 8 * n' ≤ ubrk s). { destruct (apart_hi _ _ _ Ha') as [Hle _]. split; [|lia]. destruct Hcase as [[_ ->]|(k & _ & -> & ?)]; lia. }
  destruct (join_prev_run s1 p bp m n' (first F2' base)) as (s2 & E2 & Hx2 & Hp2 & Ef2 & Eb2); try lia.
  { rewrite Hx1; [done|unfold p; lia]. } { done. }
  exists (set_freep p s2), n', F2', p, m. split.
  - unfold free, sizeof_Header. replace (bp + 8 - 8) with bp by lia. rewrite u32_small by lia. cbn zeta.
    rewrite (bind_eq get _ s s s eq_refl). rewrite (bind_eq _ _ _ p s).
    2: { apply (free_loop_run s F1 F2 L); [done|done| | |].
         - eapply Forall_impl; [exact H1|]. cbn. lia.
         - eapply Forall_impl; [exact H2|]. cbn. lia.
         - pose proof (apart_length _ _ _ (hk_apart _ _ _ H)). unfold rounds. lia. }
    rewrite (bind_eq _ _ _ (first F2 base) s) by (unfold ptr_of, gets; by rewrite (fchain_last _ _ _ _ Hc1 : h_ptr (hdrs s p) = _)).
    rewrite (bind_eq _ _ _ _ _ E1), (bind_eq _ _ _ _ _ E2). done.
  - split; try done; [cbn; by rewrite Eb2, Eb1| |].
    + intros x Hxp Hxb. cbn. by rewrite Hx2, Hx1.
    + cbn. rewrite Hx2; [done|unfold p; lia].
Qed.

Lemma fchain_first h F z x : fchain h x F z → h_ptr (h x) = first F z.
Proof. destruct F as [|[a n] F]; cbn; [done|]. by intros [H _]. Qed.

Lemma last_in x F : last_a x F ∈ x :: F.*1.
Proof. revert x. induction F as [|[a n] F IH]; intros x; cbn [last_a fmap list_fmap]; [set_solver|]. specialize (IH a). set_solver. Qed.

Lemma end_snoc lo G p m : end_of lo (G ++ [(p, m)]) = p + 8 * m.
Proof. revert lo. induction G as [|[a n] G IH]; intros lo; cbn; auto. Qed.

Section freed.
  Context s F1 F2 L bp n s' n' F2' p m (Hbt : between s F1 F2 L bp n) (Hfr : freed s F1 F2 bp n s' n' F2' p m).

Lemma freed_sub z : z ∈ F2' → z ∈ F1 ++ F2.
Proof. destruct (fr_case _ _ _ _ _ _ _ _ _ _ Hfr) as [[-> _]|(k & -> & _)]; set_solver. Qed.

(** The chain after the new block. *)
Lemma freed_tail x : h_ptr (hdrs s' x) = first F2' base → fchain (hdrs s') x F2' base.
Proof.
  intros Hf. destruct Hbt as [H Hl _ _ _ H2 Hp _]. destruct Hfr as [_ _ Ep _ Hx _ _ _ Hcase _]. pose proof (ls_n _ _ _ _ _ Hl).
  pose proof (hk_chain _ _ _ H) as Hc. apply fchain_app in Hc as [_ Hc2].
  assert (Hy : ∃ y, fchain (hdrs s) y F2' base ∧ Forall (λ x, bp < x.1) F2').
  { destruct Hcase as [[-> _]|(k & -> & _)].
    - eexists. split; [exact Hc2|]. eapply Forall_impl; [exact H2|]. cbn. lia.
    - destruct Hc2 as (_ & _ & Hc2). eexists. split; [exact Hc2|]. apply Forall_cons in H2 as [_ H2]. eapply Forall_impl; [exact H2|]. cbn. lia. }
  destruct Hy as (y & Hy & HF). eapply fchain_from; [exact Hy|done|]. intros a Ha. apply list_elem_of_fmap in Ha as (z & -> & Hz).
  rewrite Forall_forall in HF. specialize (HF _ Hz). apply Hx; lia.
Qed.

(** The new block is disjoint from what was disjoint from the blocks it was made of. *)
Lemma freed_disj y : 1 ≤ y.2 → disj (bp, n) y → (∀ z, z ∈ F1 ++ F2 → disj z y) → disj (bp, n') y.
Proof.
  intros Hy Hd Hz. pose proof (ls_n _ _ _ _ _ (bt_loose _ _ _ _ _ _ Hbt)). destruct (fr_case _ _ _ _ _ _ _ _ _ _ Hfr) as [[_ ->]|(k & E & -> & Hk)]; [done|].
  specialize (Hz (bp + 8 * n, k) ltac:(rewrite E; set_solver)). unfold disj in *. cbn in *. lia.
Qed.

Lemma freed_total : total (F1 ++ F2) + n = total F1 + n' + total F2' ∧ n ≤ n'.
Proof.
  rewrite total_app. destruct (fr_case _ _ _ _ _ _ _ _ _ _ Hfr) as [[-> ->]|(k & -> & -> & Hk)]; [lia|]. cbn [total foldr]. fold (total F2'). cbn. lia.
Qed.

Lemma freed_in : p ∈ base :: (F1 ++ F2).*1.
Proof. rewrite (fr_p _ _ _ _ _ _ _ _ _ _ Hfr), fmap_app. pose proof (last_in base F1). set_solver. Qed.

(** The new block stands alone after [F1]. *)
Lemma freed_alone : p + 8 * m ≠ bp → heap s' (F1 ++ (bp, n') :: F2') L.
Proof.
  intros Hne. pose proof freed_in as Hin. pose proof freed_tail as Htail. pose proof freed_disj as Hdisj. pose proof freed_sub as Hsub. pose proof freed_total as [_ Hnn].
  destruct Hbt as [H Hl Hb HK H1 H2 Hp Ha]. destruct Hfr as [Ef Eb Ep Em Hx Hhb Hhp Ha' Hcase Hm].
  rewrite (proj2 (Z.eqb_neq _ _)) in Hhp by done. pose proof (hk_chain _ _ _ H) as Hc. apply fchain_app in Hc as [Hc1 _].
  pose proof (apart_asc _ _ _ (hk_apart _ _ _ H)) as Hs. apply asc_app in Hs as [Hs1 _]. pose proof (ls_n _ _ _ _ _ Hl).
  pose proof (hk_apart _ _ _ H) as Hap. apply apart_app in Hap as [Hap1 _].
  apply (heap_change s (F1 ++ F2) L _ _ p bp n); try done.
  - rewrite fmap_app. pose proof (last_in base F1) as Hin'. rewrite <- Ep in Hin'. set_solver.
  - apply fchain_app. cbn [first fchain]. rewrite <- Ep. split.
    + eapply fchain_relink; [exact Hc1|done| |rewrite <- Ep; by rewrite Hhp|intros _; by rewrite <- Ep, Hhp, Em].
      intros a Hin' Hna. apply Hx; [congruence|]. intros ->. apply elem_of_cons in Hin' as [->|Hin']; [lia|].
      apply list_elem_of_fmap in Hin' as (z & -> & Hz). rewrite Forall_forall in H1. specialize (H1 _ Hz). lia.
    + rewrite Hhp, Hhb. split_and!; [done|done|]. apply Htail. by rewrite Hhb.
  - destruct (decide (base = p)) as [E|Hb']; [|rewrite Hx by (done || lia); apply H]. rewrite E, Hhp. cbn. rewrite <- Em, <- E. apply H.
  - apply apart_app. split; [done|]. cbn. split_and!; [|lia|apply Hl|done].
    destruct (last_cases base F1) as [[E0 ->]|(G & k & EG)]; [cbn; lia|]. rewrite <- Ep in EG.
    rewrite EG, end_snoc. rewrite EG in Hc1. apply fchain_app in Hc1 as (_ & _ & Hk & _). rewrite Em in Hk. subst k. lia.
  - intros x Hin'. apply elem_of_app in Hin' as [Hin'|Hin'].
    + split; [|intros y _ _ Hz; apply Hz; set_solver]. pose proof (hk_lo _ _ _ H) as HF. rewrite Forall_forall in HF. apply HF. set_solver.
    + apply elem_of_cons in Hin' as [->|Hin']; [split; [apply Hl|done]|]. split; [|intros y _ _ Hz; apply Hz; by apply Hsub].
      pose proof (hk_lo _ _ _ H) as HF. rewrite Forall_forall in HF. by apply HF, Hsub.
Qed.

(** It is joined to the last block of [F1]. *)
Lemma freed_joined G : p + 8 * m = bp → F1 = G ++ [(p, m)] → heap s' (G ++ (p, m + n') :: F2') L.
Proof.
  intros Hj EG. pose proof freed_in as Hin. pose proof freed_tail as Htail. pose proof freed_disj as Hdisj. pose proof freed_sub as Hsub. pose proof freed_total as [_ Hnn].
  destruct Hbt as [H Hl Hb HK H1 H2 Hp Ha]. destruct Hfr as [Ef Eb Ep Em Hx Hhb Hhp Ha' Hcase Hm].
  rewrite (proj2 (Z.eqb_eq _ _) Hj) in Hhp. pose proof (hk_chain _ _ _ H) as Hc. apply fchain_app in Hc as [Hc1 _].
  rewrite EG in Hc1. apply fchain_app in Hc1 as [HcG _]. cbn [first] in HcG.
  pose proof (apart_asc _ _ _ (hk_apart _ _ _ H)) as Hs. rewrite EG, <- app_assoc in Hs. apply asc_app in Hs as [HsG [HpG _]]. pose proof (ls_n _ _ _ _ _ Hl).
  pose proof (hk_apart _ _ _ H) as Hap. rewrite EG, <- app_assoc in Hap. apply apart_app in Hap as [HapG (Hep & Hm1 & Hal & _)].
  assert (Hpb : base < p). { destruct (last_cases base G) as [[E _]|(K & k & E)]; [lia|]. apply asc_above in HsG. rewrite E, Forall_app, Forall_singleton in HsG. cbn in HsG. lia. }
  assert (Hlow : ∀ a, a ∈ base :: G.*1 → a < p).
  { intros a Hina. pose proof (apart_asc _ _ _ (hk_apart _ _ _ H)) as Hs'. rewrite EG, <- app_assoc in Hs'.
    apply elem_of_cons in Hina as [->|Hina]; [done|]. apply list_elem_of_fmap in Hina as (z & -> & Hz). apply list_elem_of_split in Hz as (A & C & ->).
    rewrite <- app_assoc in Hs'. apply asc_app in Hs' as [_ Hs']. destruct z as [z k]. cbn in Hs'. destruct Hs' as [_ Hs'].
    apply asc_above in Hs'. rewrite Forall_app, Forall_cons in Hs'. cbn in Hs' |- *. lia. }
  assert (HcG' : fchain (hdrs s') base G p).
  { eapply fchain_from; [exact HcG| |].
    - rewrite Hx by lia. by eapply fchain_first.
    - intros a Hina. specialize (Hlow a ltac:(set_solver)). apply Hx; lia. }
  apply (heap_change s (F1 ++ F2) L _ _ p bp n); try done.
  - rewrite fmap_app. set_solver.
  - apply fchain_app. cbn [first fchain]. split; [done|]. rewrite (fchain_last _ _ _ _ HcG'), Hhp. split_and!; [done|done|]. apply Htail. by rewrite Hhp.
  - rewrite Hx by lia. apply H.
  - apply apart_app. split; [done|]. cbn. split_and!; [done|lia|done|]. by replace (p + 8 * (m + n')) with (bp + 8 * n') by lia.
  - pose proof (hk_lo _ _ _ H) as HF. rewrite Forall_forall in HF. assert (Hpm : (p, m) ∈ F1 ++ F2) by (rewrite EG; set_solver).
    intros x Hin'. apply elem_of_app in Hin' as [Hin'|Hin'].
    + split; [apply HF; rewrite EG; set_solver|]. intros y _ _ Hz. apply Hz. rewrite EG. set_solver.
    + apply elem_of_cons in Hin' as [->|Hin']; [|split; [by apply HF, Hsub|intros y _ _ Hz; by apply Hz, Hsub]].
      split; [apply (HF _ Hpm)|]. intros y Hy Hd Hz. pose proof (Hz _ Hpm) as Hd1. pose proof (Hdisj y Hy Hd Hz) as Hd2. unfold disj in *. cbn in *. lia.
Qed.
End freed.

(** free puts a block back: it is one of the free blocks afterwards, or part of one. *)
Lemma free_run s F L bp n : heap s F L → loose s F L bp n →
  ∃ s' F', free (bp + 8) s = Ok (tt, s') ∧ heap s' F' L ∧ total F' = total F + n ∧ ubrk s' = ubrk s ∧ Exists (λ x, n ≤ x.2) F' ∧
    (length F' ≤ S (length F))%nat ∧ same_in L s s'.
Proof.
  intros H Hl. destruct (loose_place _ _ _ _ _ H Hl) as (F1 & F2 & -> & Hb & HK & H1 & H2 & Hlast & Ha2 & Hbl).
  assert (Hbt : between s F1 F2 L bp n) by by split. destruct (free_state _ _ _ _ _ _ Hbt) as (s' & n' & F2' & p & m & E & Hfr).
  edestruct freed_total as [Ht Hn]; [exact Hbt|exact Hfr|].
  assert (Hin : same_in L s s').
  { intros y x Hy Hx. assert (Hp : ¬ y.1 ≤ p < y.1 + 8 * y.2) by (eapply header_outside; [exact H|by eapply freed_in|done]).
    pose proof (ls_live _ _ _ _ _ Hl) as HD. rewrite Forall_forall in HD. specialize (HD _ Hy). pose proof (ls_n _ _ _ _ _ Hl).
    apply (fr_same _ _ _ _ _ _ _ _ _ _ Hfr); [lia|]. unfold disj in HD. cbn in HD. lia. }
  assert (Hlen : (length F2' ≤ length F2)%nat) by (destruct (fr_case _ _ _ _ _ _ _ _ _ _ Hfr) as [[-> _]|(k & -> & _)]; cbn; lia). destruct (decide (p + 8 * m = bp)) as [Ej|Hne].
  - destruct (last_cases base F1) as [[E0 ->]|(G & k & EG)]; rewrite <- (fr_p _ _ _ _ _ _ _ _ _ _ Hfr) in *.
    { pose proof (fr_m _ _ _ _ _ _ _ _ _ _ Hfr) as Hm. rewrite E0, (hk_bsize _ _ _ H) in Hm. lia. }
    pose proof (hk_chain _ _ _ H) as Hc. rewrite EG, <- app_assoc in Hc. apply fchain_app in Hc as (_ & _ & Hk & _).
    rewrite (fr_m _ _ _ _ _ _ _ _ _ _ Hfr) in Hk. subst k. exists s', (G ++ (p, m + n') :: F2'). split_and!; [done|by eapply freed_joined| |apply Hfr| |rewrite EG, !length_app; cbn; lia|done].
    + rewrite EG in Ht |- *. rewrite !total_app in *. cbn in *. fold (total F2') in *. lia.
    + apply Exists_app. right. left. pose proof (fr_range _ _ _ _ _ _ _ _ _ _ Hfr). cbn. lia.
  - exists s', (F1 ++ (bp, n') :: F2'). split_and!; [done|by eapply freed_alone| |apply Hfr| |rewrite !length_app; cbn; lia|done].
    + rewrite !total_app in *. cbn. fold (total F2'). lia.
    + apply Exists_app. right. by left.
Qed.

(** * malloc *)

(** Writing a header outside the heap's blocks, or below the break, only makes a new
    block loose. *)
Lemma heap_grow s F L nu newsz : heap s F L → ubrk s mod 8 = 0 → 1 ≤ nu → newsz = ubrk s + 8 * nu → newsz < KERNBASE →
  let s1 := mk_um (store (ubrk s) (mk_header (h_ptr (hdrs s (ubrk s))) nu) (hdrs s)) (freep s) newsz (uflags s) (uprot s) in
  heap s1 F L ∧ loose s1 F L (ubrk s) nu.
Proof.
  intros H Hal Hnu Hnew HK s1. destruct (apart_hi _ _ _ (hk_apart _ _ _ H)) as [Hb HF]. rewrite Forall_forall in HF.
  pose proof (hk_live _ _ _ H) as HL. rewrite Forall_forall in HL. pose proof (hk_base _ _ _ H) as Hb0. pose proof (hk_brk _ _ _ H) as Hbrk.
  assert (Hsame : ∀ a, a ≠ ubrk s → hdrs s1 a = hdrs s a) by (intros a Ha; cbn; unfold store; by rewrite (proj2 (Z.eqb_neq _ _) Ha)).
  split.
  - split; try apply H.
    + eapply fchain_from; [apply H| |].
      * rewrite Hsame by lia. by eapply fchain_first, H.
      * intros a Ha. apply list_elem_of_fmap in Ha as (z & -> & Hz). apply Hsame. specialize (HF _ Hz). lia.
    + rewrite Hsame by lia. apply H.
    + cbn. pose proof (hk_apart _ _ _ H) as Ha. clear -Ha Hnew Hnu. revert Ha. generalize base. induction F as [|[a n] F IH]; intros lo; cbn; [lia|]. intros (H1 & H2 & H3 & H4). auto.
    + apply Forall_forall. intros y Hy. destruct (HL _ Hy). split; try done; [cbn; lia|]. rewrite Hsame by lia. done.
    + cbn. lia.
  - split; try done; try lia.
    + cbn. unfold store. by rewrite Z.eqb_refl.
    + cbn. lia.
    + apply Forall_forall. intros z Hz. specialize (HF _ Hz). right. cbn. lia.
    + apply Forall_forall. intros z Hz. destruct (HL _ Hz). right. cbn. lia.
Qed.

Lemma sbrk_run s n : 0 ≤ ubrk s < KERNBASE → 0 < n < 2 ^ 31 →
  (sbrk can_grow n s = Ok (-1, s) ∧ (KERNBASE ≤ ubrk s + n ∨ can_grow (ubrk s + n) = false)) ∨
  ubrk s + n < KERNBASE ∧ sbrk can_grow n s = Ok (ubrk s, mk_um (hdrs s) (freep s) (ubrk s + n) (uflags s) (uprot s)).
Proof.
  intros Hb Hn. unfold KERNBASE in *. unfold sbrk. rewrite (bind_eq get _ s s s eq_refl). cbv zeta. rewrite s32_small, u32_small by lia.
  rewrite (proj2 (Z.ltb_lt 0 n)) by lia. unfold KERNBASE. destruct (Z.leb_spec 2147483648 (ubrk s + n)); [left; split; [done|by left]|].
  rewrite (proj2 (Z.ltb_ge _ (ubrk s))) by lia. destruct (can_grow _); [by right|left; split; [done|by right]].
Qed.

Definition no_core s n : Prop := let v := ubrk s + 8 * Z.max n 4096 in KERNBASE ≤ v ∨ can_grow v = false.

(** morecore has no memory and changes nothing, or there is a free block that is large
    enough. *)
Lemma morecore_run s F L nu : heap s F L → ubrk s mod 8 = 0 → 1 ≤ nu → 8 * nu < 2 ^ 31 →
  (morecore can_grow nu s = Ok (None, s) ∧ no_core s nu) ∨
  ∃ s' F', morecore can_grow nu s = Ok (Some (freep s'), s') ∧ heap s' F' L ∧ Exists (λ x, Z.max nu 4096 ≤ x.2) F' ∧
    ubrk s' mod 8 = 0 ∧ 8 * total F' - ubrk s' = 8 * total F - ubrk s ∧ (length F' ≤ S (length F))%nat ∧ same_in L s s'.
Proof.
  intros H Hal Hnu Hov. pose proof (hk_brk _ _ _ H) as Hbrk. pose proof (hk_base _ _ _ H) as Hb0. unfold morecore.
  set (m := if nu <? 4096 then 4096 else nu). assert (Hm : m = Z.max nu 4096 ∧ 1 ≤ m ∧ 8 * m < 2 ^ 31) by (unfold m; destruct (Z.ltb_spec nu 4096); lia).
  cbv zeta. fold m. unfold sizeof_Header. rewrite u32_small by lia. destruct (sbrk_run s (m * 8)) as [[E HK]|[HK E]]; [lia|lia| |]; mrun E.
  { left. split; [done|]. unfold no_core. replace (8 * Z.max nu 4096) with (m * 8); [done|]. unfold m. destruct (Z.ltb_spec nu 4096); lia. }
  right. rewrite (proj2 (Z.eqb_neq (ubrk s) (-1))) by lia. unfold KERNBASE in *.
  destruct (heap_grow s F L m (ubrk s + m * 8) H Hal) as [H1 Hl1]; [lia|lia|unfold KERNBASE; lia|].
  destruct (free_run _ _ _ _ _ H1 Hl1) as (s' & F' & Ef & H' & Ht & Eb & Hex & Hlen & Hsame). exists s', F'.
  rewrite (bind_eq _ _ _ _ _ (eq_refl : set_size (ubrk s) m _ = Ok (tt, _))). unfold padd, sizeof_Header. rewrite u32_small by lia.
  cbn [hdrs freep ubrk uflags uprot] in *. replace (ubrk s + 8 * 1) with (ubrk s + 8) by lia. mrun Ef. split_and!; [done|done| | | |done|].
  - eapply Exists_impl; [exact Hex|]. cbn. lia.
  - rewrite Eb. rewrite Z.add_mod, Hal by lia. rewrite Z.mod_mul by lia. done.
  - rewrite Ht, Eb. lia.
  - intros y x Hy Hx. rewrite (Hsame y x Hy Hx). cbn. unfold store. pose proof (hk_live _ _ _ H) as HL. rewrite Forall_forall in HL.
    destruct (HL _ Hy). by rewrite (proj2 (Z.eqb_neq x (ubrk s))) by lia.
Qed.

(** free and morecore leave the flags alone. *)
Lemma free_loop_same fuel bp : ∀ p s r s', free_loop fuel bp p s = Ok (r, s') → s' = s.
Proof.
  induction fuel as [|fuel IH]; intros p s r s' E; cbn [free_loop] in E; rewrite (bind_eq _ _ _ _ _ (eq_refl : ptr_of p s = Ok (h_ptr (hdrs s p), s))) in E;
    repeat case_match; try (injection E as _ ->; done); [done|by eapply IH].
Qed.

Lemma join_flags x y s r s' : join_next x y s = Ok (r, s') ∨ join_prev x y s = Ok (r, s') → uflags s' = uflags s ∧ uprot s' = uprot s.
Proof.
  unfold join_next, join_prev, size_of, ptr_of, set_size, set_ptr. munfold. intros [E|E]; revert E; cbn; destruct (_ =? _); cbn; intros [= _ <-]; done.
Qed.

Lemma free_flags ap s s' : free ap s = Ok (tt, s') → uflags s' = uflags s ∧ uprot s' = uprot s.
Proof.
  unfold free. rewrite (bind_eq get _ s s s eq_refl). intros (p & s1 & ->%free_loop_same & E)%bind_Ok.
  apply bind_Ok in E as (q & s2 & [= <- <-] & E). apply bind_Ok in E as ([] & s3 & E3 & E).
  apply bind_Ok in E as ([] & s4 & E4 & E). destruct (join_flags _ _ _ _ _ (or_introl E3)) as [<- <-]. destruct (join_flags _ _ _ _ _ (or_intror E4)) as [<- <-]. revert E. munfold. by intros [= <-].
Qed.

Lemma sbrk_flags n s r s' : sbrk can_grow n s = Ok (r, s') → uflags s' = uflags s ∧ uprot s' = uprot s.
Proof. unfold sbrk. munfold. cbn. repeat case_match; intros [= _ <-]; done. Qed.

Lemma morecore_flags nu s r s' : morecore can_grow nu s = Ok (Some r, s') → uflags s' = uflags s ∧ uprot s' = uprot s.
Proof.
  unfold morecore. cbv zeta. intros (p & s1 & [<- <-]%sbrk_flags & E)%bind_Ok. destruct (p =? -1); [done|].
  apply bind_Ok in E as ([] & s2 & [= <-] & E). apply bind_Ok in E as ([] & s3 & [Ef Ep]%free_flags & E). cbn in Ef, Ep. rewrite <- Ef, <- Ep.
  revert E. munfold. cbn. by intros [= _ <-].
Qed.

(** ** The search *)

Section search.
  Context (need nu : Z) (tk : Z → Z → Z → M um Z).
  Local Notation loop := (search_loop can_grow need nu tk).

Lemma search s G z : ∀ x fuel, fchain (hdrs s) x G z → Forall (λ b, b.2 < need ∧ b.1 ≠ freep s) G →
  loop (length G + fuel) x (first G z) s = loop fuel (last_a x G) z s.
Proof.
  induction G as [|[a n] G IH]; intros x fuel Hc HG; [done|]. destruct Hc as (_ & Hn & Hc). apply Forall_cons in HG as [[Hs Hf] HG]. cbn in Hs, Hf.
  cbn [length Nat.add first last_a search_loop]. assert (E : size_of a s = Ok (n, s)) by (unfold size_of, gets; by rewrite Hn). mrun E.
  rewrite (proj2 (Z.leb_gt _ _)) by done. rewrite (bind_eq get _ s s s eq_refl). rewrite (proj2 (Z.eqb_neq a (freep s))) by done.
  rewrite (bind_eq _ _ s (Some a) s eq_refl). assert (E' : ptr_of a s = Ok (first G z, s)) by (unfold ptr_of, gets; by rewrite (fchain_first _ _ _ _ Hc)).
  mrun E'. by apply IH.
Qed.

Lemma first_big F : Forall (λ b, b.2 < need) F ∨ ∃ D a m E, F = D ++ (a, m) :: E ∧ Forall (λ b, b.2 < need) D ∧ need ≤ m.
Proof.
  induction F as [|[a n] F IH]; [by left; constructor|]. destruct (Z.lt_ge_cases n need) as [Hn|Hn].
  - destruct IH as [IH|(D & b & m & E & -> & HD & Hm)]; [left; by constructor|]. right. exists ((a, n) :: D), b, m, E. split_and!; [done| |done]. by constructor.
  - right. exists [], a, n, F. split_and!; [done|constructor|done].
Qed.

Lemma split_at x F : x ∈ base :: F.*1 → ∃ F1 F2, F = F1 ++ F2 ∧ x = last_a base F1.
Proof.
  intros [->|Hx]%elem_of_cons; [by exists [], F|]. apply list_elem_of_fmap in Hx as ([a n] & -> & Hin). apply list_elem_of_split in Hin as (A & C & ->).
  exists (A ++ [(a, n)]), C. rewrite <- app_assoc, last_app. done.
Qed.

(** Where the search gets to: the first block that is large enough, or all the way round
    to [freep]. *)
Definition search_ends s F : Prop :=
  (∃ A a m B k, F = A ++ (a, m) :: B ∧ need ≤ m ∧ (k ≤ length F + 1)%nat ∧
     ∀ fuel, loop (k + fuel) (freep s) (h_ptr (hdrs s (freep s))) s = loop fuel (last_a base A) a s) ∨
  (Forall (λ b, b.2 < need) F ∧ ∃ k q, (k ≤ length F + 1)%nat ∧
     ∀ fuel, loop (k + fuel) (freep s) (h_ptr (hdrs s (freep s))) s = loop fuel q (freep s) s).

Lemma small_others s G : Forall (λ b, b.2 < need) G → Forall (λ b, b.1 ≠ freep s) G → Forall (λ b, b.2 < need ∧ b.1 ≠ freep s) G.
Proof. intros H1 H2. rewrite Forall_forall in *. intros x Hx. split; auto. Qed.

(** One round at [base], which is never large enough. *)
Lemma search_base s F L q fuel : heap s F L → 1 ≤ need → freep s ≠ base →
  loop (S fuel) q base s = loop fuel base (first F base) s.
Proof.
  intros H Hn Hf. cbn [search_loop]. assert (E : size_of base s = Ok (0, s)) by (unfold size_of, gets; by rewrite (hk_bsize _ _ _ H)). mrun E.
  rewrite (proj2 (Z.leb_gt _ _)) by lia. rewrite (bind_eq get _ s s s eq_refl). rewrite (proj2 (Z.eqb_neq base (freep s))) by congruence.
  rewrite (bind_eq _ _ s (Some base) s eq_refl). assert (E' : ptr_of base s = Ok (first F base, s)) by (unfold ptr_of, gets; by rewrite (fchain_first _ _ _ _ (hk_chain _ _ _ H))).
  by mrun E'.
Qed.

Lemma search_all s F L : heap s F L → 1 ≤ need → search_ends s F.
Proof.
  intros H Hn. destruct (split_at _ _ (hk_freep _ _ _ H)) as (F1 & F2 & -> & Ef).
  pose proof (hk_chain _ _ _ H) as Hc. apply fchain_app in Hc as [Hc1 Hc2]. unfold search_ends.
  assert (En : h_ptr (hdrs s (freep s)) = first F2 base) by (rewrite Ef; by apply fchain_last). rewrite En. clear En.
  pose proof (apart_asc _ _ _ (hk_apart _ _ _ H)) as Hs. apply asc_app in Hs as [Hs1 Hs2]. rewrite <- Ef in Hs2, Hc2.
  assert (HF2 : Forall (λ b, b.1 ≠ freep s) F2) by (eapply Forall_impl; [apply (asc_above _ _ Hs2)|]; cbn; lia).
  destruct (first_big F2) as [Hsm2|(D & a & m & E & -> & HD & Hm)].
  2: { left. exists (F1 ++ D), a, m, E, (length D). split_and!; [by rewrite <- app_assoc|done|rewrite !length_app; lia|]. intros fuel.
       apply fchain_app in Hc2 as [HcD _]. rewrite last_app, <- Ef. replace (first (D ++ (a, m) :: E) base) with (first D a) by by destruct D as [|[]].
       apply (search s D a); [done|]. apply small_others; [done|]. by apply Forall_app in HF2 as [? _]. }
  assert (R2 : ∀ fuel, loop (length F2 + fuel) (freep s) (first F2 base) s = loop fuel (last_a (freep s) F2) base s)
    by (intros; apply search; [done|by apply small_others]).
  destruct (last_cases base F1) as [[E0 ->]|(G & mm & EG)]; rewrite <- Ef in *.
  { right. split; [done|]. exists (length F2), (last_a (freep s) F2). split; [cbn; lia|]. intros fuel. by rewrite R2, E0. }
  assert (Hfb : base < freep s) by (apply asc_above in Hs1; rewrite EG, Forall_app, Forall_singleton in Hs1; apply Hs1).
  assert (R3 : ∀ fuel, loop (length F2 + S fuel) (freep s) (first F2 base) s = loop fuel base (first F1 (first F2 base)) s).
  { intros fuel. rewrite R2, (search_base s (F1 ++ F2) L) by (done || lia). f_equal. by destruct F1 as [|[]]. }
  subst F1. apply fchain_app in Hc1 as [HcG (_ & Hmm & _)]. rewrite asc_app in Hs1. destruct Hs1 as [HsG [HlG _]].
  assert (HG : Forall (λ b, b.1 ≠ freep s) G).
  { apply Forall_forall. intros x Hx. apply list_elem_of_split in Hx as (A & C & ->). destruct x as [x k]. rewrite last_app in HlG. cbn in HlG.
    apply asc_app in HsG as [_ [_ HsC]]. cbn. pose proof (last_cases x C) as [[El _]|(K & j & El)]; [lia|]. apply asc_above in HsC. rewrite El, Forall_app, Forall_singleton in HsC. cbn in HsC. lia. }
  assert (Ef1 : first (G ++ [(freep s, mm)]) (first F2 base) = first G (freep s)) by by destruct G as [|[]]. rewrite Ef1 in R3.
  destruct (first_big G) as [HsmG|(D & a & m & E & -> & HD & Hm)].
  - assert (R4 : ∀ fuel, loop (length F2 + S (length G + fuel)) (freep s) (first F2 base) s = loop fuel (last_a base G) (freep s) s)
      by (intros; rewrite R3; apply search; [done|by apply small_others]).
    destruct (Z.lt_ge_cases mm need) as [Hlt|Hge].
    + right. split; [rewrite !Forall_app, Forall_singleton; done|]. exists (length F2 + S (length G))%nat, (last_a base G). split; [rewrite !length_app; cbn; lia|].
      intros fuel. rewrite <- Nat.add_assoc. apply R4.
    + left. exists G, (freep s), mm, F2, (length F2 + S (length G))%nat. split_and!; [by rewrite <- app_assoc|lia|rewrite !length_app; cbn; lia|].
      intros fuel. rewrite <- Nat.add_assoc. apply R4.
  - left. exists D, a, m, (E ++ (freep s, mm) :: F2), (length F2 + S (length D))%nat. split_and!; [by rewrite <- !app_assoc|done|rewrite !length_app; cbn; lia|].
    intros fuel. rewrite <- Nat.add_assoc. cbn [Nat.add]. rewrite R3. apply fchain_app in HcG as [HcD _]. apply Forall_app in HG as [HG _].
    replace (first (D ++ (a, m) :: E) (freep s)) with (first D a) by by destruct D as [|[]]. apply search; [done|by apply small_others].
Qed.
End search.

(** ** Taking a block *)

Lemma apart_disj lo A a n B hi : apart lo (A ++ (a, n) :: B) hi → lo < a ∧ 1 ≤ n ∧ a mod 8 = 0 ∧ Forall (disj (a, n)) (A ++ B).
Proof.
  revert lo. induction A as [|[b m] A IH]; intros lo; cbn.
  - intros (H1 & H2 & H3 & H4). split_and!; [done..|]. apply apart_asc, asc_above in H4. eapply Forall_impl; [exact H4|]. intros x Hx. left. cbn in *. lia.
  - intros (H1 & H2 & _ & H4). destruct (IH _ H4) as (H5 & H6 & H7 & H8). split_and!; [lia|done|done|]. constructor; [|done]. right. cbn. lia.
Qed.

(** The blocks in use keep their headers when only headers outside them change. *)
Lemma live_keep s s' L (P : Z → Prop) : Forall (live_ok s) L → (∀ y, y ∈ L → ¬ P y.1) → (∀ x, ¬ P x → hdrs s' x = hdrs s x) → ubrk s' = ubrk s →
  Forall (live_ok s') L.
Proof.
  intros HL HP Hx Eb. rewrite Forall_forall in *. intros y Hy. destruct (HL _ Hy). split; rewrite ?Eb; try done. rewrite Hx by by apply HP. done.
Qed.

Section take.
  Context s A a m B L (H : heap s (A ++ (a, m) :: B) L).

Lemma take_facts : let p := last_a base A in base < a ∧ 1 ≤ m ∧ a mod 8 = 0 ∧ h0 ≤ a ∧ a + 8 * m ≤ ubrk s ∧ Forall (disj (a, m)) (A ++ B) ∧
  Forall (disj (a, m)) L ∧ h_size (hdrs s a) = m ∧ h_ptr (hdrs s a) = first B base ∧ base ≤ p < a ∧ (∀ y, y ∈ L → y.1 ≠ p ∧ y.1 ≠ a).
Proof.
  intros p. destruct (apart_disj _ _ _ _ _ _ (hk_apart _ _ _ H)) as (H1 & H2 & H3 & H4). pose proof (hk_chain _ _ _ H) as Hc.
  apply fchain_app in Hc as [HcA (_ & Hm & HcB)]. pose proof (hk_lo _ _ _ H) as Hlo. rewrite Forall_app, Forall_cons in Hlo. destruct Hlo as (_ & Hlo & _).
  destruct (apart_hi _ _ _ (hk_apart _ _ _ H)) as [_ Hhi]. pose proof Hhi as Hall. rewrite Forall_app, Forall_cons in Hhi. destruct Hhi as (_ & Hhi & _). cbn in Hlo, Hhi.
  pose proof (apart_asc _ _ _ (hk_apart _ _ _ H)) as Hs. apply asc_app in Hs as [HsA [HlA _]]. fold p in HlA.
  assert (HL : Forall (disj (a, m)) L) by (apply Forall_forall; intros y Hy; apply (hk_sep _ _ _ H); [set_solver|done]).
  split_and!; try done; try lia.
  - by apply fchain_first.
  - unfold p. destruct (last_cases base A) as [[-> _]|(G & n & E)]; [lia|]. apply asc_above in HsA. rewrite E, Forall_app, Forall_singleton in HsA. cbn in HsA. lia.
  - intros y Hy. pose proof (hk_live _ _ _ H) as HL'. rewrite Forall_forall in HL, HL', Hall. destruct (HL' _ Hy) as [Y1 Y2 _ _ _]. specialize (HL _ Hy).
    unfold disj in HL. cbn in HL. pose proof (hk_base _ _ _ H). split; [|lia]. intros E. pose proof (last_in base A) as Hin. fold p in Hin.
    apply elem_of_cons in Hin as [Hin|Hin]; [lia|]. apply list_elem_of_fmap in Hin as (z & Ez & Hz).
    pose proof (hk_sep _ _ _ H z y ltac:(set_solver) Hy) as Hd. specialize (Hall z ltac:(set_solver)). unfold disj in Hd. lia.
Qed.

Lemma take_all s' : let p := last_a base A in freep s' = p → ubrk s' = ubrk s → (∀ x, x ≠ p → hdrs s' x = hdrs s x) →
  hdrs s' p = mk_header (first B base) (h_size (hdrs s p)) → heap s' (A ++ B) ((a, m) :: L).
Proof.
  intros p Ef Eb Hx Hp. destruct take_facts as (T1 & T2 & T3 & T4 & T5 & T6 & T7 & T8 & T9 & T10 & T11). fold p in T10, T11.
  pose proof (hk_chain _ _ _ H) as Hc. apply fchain_app in Hc as [HcA (_ & _ & HcB)].
  pose proof (apart_asc _ _ _ (hk_apart _ _ _ H)) as Hs. apply asc_app in Hs as [HsA [_ HsB]].
  pose proof (hk_apart _ _ _ H) as Ha. apply apart_app in Ha as [HaA (Hea & _ & _ & HaB)].
  split; rewrite ?Eb; try apply H.
  - apply fchain_app. fold p. split.
    + eapply fchain_relink; [exact HcA|done|intros y _ Hy; apply Hx; done|fold p; by rewrite Hp|intros _; fold p; by rewrite Hp].
    + eapply fchain_from; [exact HcB|by rewrite Hp|]. intros y Hy. apply list_elem_of_fmap in Hy as (z & -> & Hz).
      apply asc_above in HsB. rewrite Forall_forall in HsB. specialize (HsB _ Hz). apply Hx. lia.
  - destruct (decide (base = p)) as [E|Hne]; [rewrite E, Hp; cbn; rewrite <- E|rewrite Hx by done]; apply H.
  - apply apart_app. split; [done|]. eapply apart_mono; [|exact HaB]. lia.
  - pose proof (hk_lo _ _ _ H) as Hlo. rewrite !Forall_app, Forall_cons in *. tauto.
  - rewrite Ef. unfold p. rewrite fmap_app. pose proof (last_in base A). set_solver.
  - constructor; [split; cbn; try done; [by rewrite Eb|rewrite Hx by lia; done]|].
    apply (live_keep s s' L (λ x, x = p)); [apply H|intros y Hy; by apply T11|done|done].
  - intros x y Hin [->|Hy]%elem_of_cons; [rewrite Forall_forall in T6; specialize (T6 _ Hin); unfold disj in *; tauto|].
    apply (hk_sep _ _ _ H); set_solver.
  - split; [done|apply H].
Qed.

Lemma take_part s' k n : let p := last_a base A in let b := a + 8 * k in 1 ≤ k → 1 ≤ n → k + n ≤ m → freep s' = p → ubrk s' = ubrk s →
  (∀ x, x ≠ a → x ≠ b → hdrs s' x = hdrs s x) → hdrs s' a = mk_header (first B base) k → h_size (hdrs s' b) = n →
  heap s' (A ++ (a, k) :: B) ((b, n) :: L).
Proof.
  intros p b Hk Hn Hkn Ef Eb Hx Hha Hhb. destruct take_facts as (T1 & T2 & T3 & T4 & T5 & T6 & T7 & T8 & T9 & T10 & T11). fold p in T10, T11.
  pose proof (hk_chain _ _ _ H) as Hc. apply fchain_app in Hc as [HcA (HpA & _ & HcB)]. cbn [first] in HcA. fold p in HpA.
  pose proof (hk_apart _ _ _ H) as Ha. apply apart_app in Ha as [HaA (Hea & _ & _ & HaB)].
  assert (Hsame : ∀ z, z ∈ A ++ B → hdrs s' z.1 = hdrs s z.1).
  { intros z Hz. rewrite Forall_forall in T6. specialize (T6 _ Hz). destruct (apart_hi _ _ _ (hk_apart _ _ _ H)) as [_ Hall]. rewrite Forall_forall in Hall.
    specialize (Hall z ltac:(set_solver)). unfold disj in T6. cbn in T6. apply Hx; unfold b; lia. }
  assert (Hbase : hdrs s' base = hdrs s base) by (apply Hx; unfold b; lia).
  split; rewrite ?Eb; try apply H.
  - apply fchain_app. cbn [first fchain]. fold p. assert (HcA' : fchain (hdrs s') base A a).
    { eapply fchain_from; [exact HcA|rewrite Hbase; by apply fchain_first|]. intros y Hy. apply list_elem_of_fmap in Hy as (z & -> & Hz). apply Hsame. set_solver. }
    split; [done|]. split; [by apply fchain_last|]. split; [by rewrite Hha|]. eapply fchain_from; [exact HcB|by rewrite Hha|].
    intros y Hy. apply list_elem_of_fmap in Hy as (z & -> & Hz). apply Hsame. set_solver.
  - by rewrite Hbase; apply H.
  - apply apart_app. split; [done|]. cbn. split_and!; [done|lia|done|]. eapply apart_mono; [|exact HaB]. lia.
  - pose proof (hk_lo _ _ _ H) as Hlo. rewrite !Forall_app, !Forall_cons in *. tauto.
  - rewrite Ef. unfold p. rewrite fmap_app. pose proof (last_in base A). set_solver.
  - assert (Hbm : b mod 8 = 0) by (unfold b; rewrite Z.add_mod, T3, Z.mul_comm, Z.mod_mul by lia; done).
    constructor; [split; cbn; try done; unfold b; lia|]. apply (live_keep s s' L (λ x, x = a ∨ x = b)); [apply H| |intros x Hnx; apply Hx; tauto|done].
    intros y Hy. pose proof (hk_live _ _ _ H) as HL'. rewrite Forall_forall in T7, HL'. destruct (HL' _ Hy) as [_ Y2 _ _ _]. specialize (T7 _ Hy).
    unfold disj in T7. cbn in T7. unfold b. lia.
  - intros x y Hin [->|Hy]%elem_of_cons.
    + apply elem_of_app in Hin as [Hin|[->|Hin]%elem_of_cons]; [| |];
        try (rewrite Forall_forall in T6; specialize (T6 x ltac:(set_solver))); unfold disj, b in *; cbn in *; lia.
    + apply elem_of_app in Hin as [Hin|[->|Hin]%elem_of_cons]; [apply (hk_sep _ _ _ H); set_solver| |apply (hk_sep _ _ _ H); set_solver].
      rewrite Forall_forall in T7. specialize (T7 _ Hy). unfold disj in *. cbn in *. lia.
  - split; [|apply H]. eapply Forall_impl; [exact T7|]. intros y. unfold disj, b. cbn. lia.
Qed.
End take.

Lemma alloc_run s A a m B L n : heap s (A ++ (a, m) :: B) L → 1 ≤ n ≤ m →
  ∃ s' b F', malloc_take n m (last_a base A) a s = Ok (b + 8, s') ∧ heap s' F' ((b, n) :: L) ∧
    total F' + n = total (A ++ (a, m) :: B) ∧ ubrk s' = ubrk s ∧ same_in L s s'.
Proof.
  intros H Hn. destruct (take_facts _ _ _ _ _ _ H) as (T1 & T2 & T3 & T4 & T5 & T6 & T7 & T8 & T9 & T10 & T11).
  pose proof (hk_base _ _ _ H) as Hb0. pose proof (hk_brk _ _ _ H) as Hbrk. unfold KERNBASE in *.
  assert (Hpin : last_a base A ∈ base :: (A ++ (a, m) :: B).*1) by (rewrite fmap_app; pose proof (last_in base A); set_solver).
  unfold malloc_take. destruct (Z.eqb_spec m n) as [->|Hne].
  - eexists _, a, (A ++ B). split; [unfold ptr_of, set_ptr; munfold; cbn; unfold padd, sizeof_Header; rewrite u32_small by lia; reflexivity|].
    split; [|rewrite !total_app; cbn; fold (total B); split_and!; [lia|done|]].
    2: { intros y x Hy Hx. cbn. unfold store. pose proof (header_outside _ _ _ _ _ H Hpin Hy). by rewrite (proj2 (Z.eqb_neq x _)) by lia. }
    apply (take_all s A a n B L H); cbn; try done; unfold store.
    + intros x Hx. by rewrite (proj2 (Z.eqb_neq _ _) Hx).
    + by rewrite Z.eqb_refl, T9.
  - eexists _, (a + 8 * (m - n)), (A ++ (a, m - n) :: B).
    split; [unfold set_size; munfold; cbn; unfold padd, sizeof_Header; rewrite (u32_small (m - n)), (u32_small (a + 8 * (m - n))), (u32_small (a + 8 * (m - n) + 8 * 1)) by lia; reflexivity|].
    split; [|rewrite !total_app; cbn; fold (total B); split_and!; [lia|done|]].
    2: { intros y x Hy Hx. cbn. unfold store. rewrite Forall_forall in T7. specialize (T7 _ Hy). unfold disj in T7. cbn in T7.
         by rewrite (proj2 (Z.eqb_neq x _)), (proj2 (Z.eqb_neq x a)) by lia. }
    apply (take_part s A a m B L H); cbn; try done; try lia; unfold store.
    + intros x Hx Hx'. by rewrite (proj2 (Z.eqb_neq _ _) Hx'), (proj2 (Z.eqb_neq _ _) Hx).
    + by rewrite (proj2 (Z.eqb_neq a _)), Z.eqb_refl, T9 by lia.
    + by rewrite Z.eqb_refl.
Qed.

(** ** The whole search *)

(** No free block is large enough and the kernel does not give the process more memory. *)
Definition no_memory s F need nu : Prop := Forall (λ x, x.2 < need) F ∧ no_core s nu.

(** The heap with more memory: what is in use is not changed. *)
Record grown s F L s1 F1 : Prop := {
  gr_heap : heap s1 F1 L;
  gr_align : ubrk s1 mod 8 = 0;
  gr_total : 8 * total F1 - ubrk s1 = 8 * total F - ubrk s;
  gr_same : same_in L s s1;
  gr_flags : uflags s1 = uflags s ∧ uprot s1 = uprot s }.

Section found.
  Context (need nu : Z) (tk : Z → Z → Z → M um Z) (L : blocks) (Q : um → blocks → Z → um → Prop).
  Context (Hneed : 1 ≤ need ≤ Z.max nu 4096) (Hnu : 1 ≤ nu) (Hov : 8 * nu < 2 ^ 31).
  Context (Htk : ∀ s A a m B, heap s (A ++ (a, m) :: B) L → need ≤ m → runs (tk m (last_a base A) a) s (Q s (A ++ (a, m) :: B))).
  Local Notation loop := (search_loop can_grow need nu tk).

Lemma found_run s F A a m B k fuel : heap s F L → F = A ++ (a, m) :: B → need ≤ m →
  (∀ fuel, loop (k + fuel)%nat (freep s) (h_ptr (hdrs s (freep s))) s = loop fuel (last_a base A) a s) → (k < fuel)%nat →
  runs (loop fuel (freep s) (h_ptr (hdrs s (freep s)))) s (Q s F).
Proof.
  intros H -> Hm Hk Hf. unfold runs. replace fuel with (k + S (fuel - k - 1))%nat by lia. rewrite Hk. cbn [search_loop].
  pose proof (hk_chain _ _ _ H) as Hc. apply fchain_app in Hc as [_ (_ & Hsz & _)].
  assert (E : size_of a s = Ok (m, s)) by (unfold size_of, gets; by rewrite Hsz). rewrite (bind_eq _ _ _ _ _ E), (proj2 (Z.leb_le _ _)) by done. by apply Htk.
Qed.

Lemma search_run s F : heap s F L → ubrk s mod 8 = 0 →
  runs (loop (rounds s) (freep s) (h_ptr (hdrs s (freep s)))) s
    (λ r s', (r = 0 ∧ s' = s ∧ no_memory s F need nu) ∨ ∃ s1 F1, grown s F L s1 F1 ∧ Q s1 F1 r s').
Proof.
  intros H Hal. pose proof (apart_length _ _ _ (hk_apart _ _ _ H)) as Hlen. pose proof (hk_base _ _ _ H) as Hb0. pose proof (hk_brk _ _ _ H) as Hbrk.
  assert (Hr : (2 * length F + 5 < rounds s)%nat) by (unfold rounds; lia).
  destruct (search_all need nu tk s F L H ltac:(lia)) as [(A & a & m & B & k & EF & Hm & Hk & Hs)|[Hsm (k & q & Hk & Hs)]].
  { eapply runs_mono; [eapply found_run; eauto; lia|]. intros r s' HQ. right. exists s, F. split; [by split|done]. }
  set (fuel := (rounds s - k - 1)%nat). replace (rounds s) with (k + S fuel)%nat by (unfold fuel; lia). unfold runs. rewrite Hs. cbn [search_loop].
  assert (Hsz : h_size (hdrs s (freep s)) < need).
  { pose proof (hk_freep _ _ _ H) as Hin. apply elem_of_cons in Hin as [->|Hin]; [rewrite (hk_bsize _ _ _ H); lia|].
    apply list_elem_of_fmap in Hin as ([x w] & -> & Hin). rewrite Forall_forall in Hsm. specialize (Hsm _ Hin). apply list_elem_of_split in Hin as (A & C & ->).
    pose proof (hk_chain _ _ _ H) as Hc. apply fchain_app in Hc as (_ & _ & Hw & _). cbn in *. lia. }
  rewrite (bind_eq _ _ _ _ _ (eq_refl : size_of (freep s) s = Ok (h_size (hdrs s (freep s)), s))), (proj2 (Z.leb_gt _ _)) by done.
  rewrite (bind_eq get _ s s s eq_refl), Z.eqb_refl.
  destruct (morecore_run s F L nu H Hal Hnu Hov) as [[E Hno]|(s1 & F1 & E & H1 & Hex & Hal1 & Ht1 & Hl1 & Hsame)]; rewrite (bind_eq _ _ _ _ _ E).
  { exists 0, s. split; [done|]. left. by split_and!. }
  rewrite (bind_eq _ _ _ _ _ (eq_refl : ptr_of (freep s1) s1 = Ok (h_ptr (hdrs s1 (freep s1)), s1))).
  destruct (search_all need nu tk s1 F1 L H1 ltac:(lia)) as [(A & a & m & B & k1 & EF & Hm & Hk1 & Hs1)|[Hsm1 _]].
  2: { apply Exists_exists in Hex as (z & Hz & Hbig). rewrite Forall_forall in Hsm1. specialize (Hsm1 _ Hz). cbn in *. lia. }
  eapply (runs_mono _ s1); [eapply (found_run s1 F1 A a m B k1 fuel); [done..|unfold fuel; lia]|]. intros r s' HQ. right. exists s1, F1. split; [|done].
  split; [done|done|lia|done|by eapply morecore_flags].
Qed.
End found.

(** ** malloc *)

(** What malloc for [n] headers does to a heap: nothing for want of memory, or a block
    of that size is in use afterwards. *)
Definition malloced s F L n (r : Z) s' : Prop :=
  (r = 0 ∧ s' = s ∧ no_memory s F n n) ∨
  ∃ b F', r = b + 8 ∧ heap s' F' ((b, n) :: L) ∧ ubrk s' mod 8 = 0 ∧ 8 * (total F' + n) - ubrk s' = 8 * total F - ubrk s ∧ same_in L s s'.

Lemma malloc_loop_run s F L n : heap s F L → ubrk s mod 8 = 0 → 1 ≤ n → 8 * n < 2 ^ 31 →
  runs (search_loop can_grow n n (malloc_take n) (rounds s) (freep s) (h_ptr (hdrs s (freep s)))) s (malloced s F L n).
Proof.
  intros H Hal Hn Hov.
  eapply runs_mono; [apply (search_run n n (malloc_take n) L (λ s F r s', ∃ b F', r = b + 8 ∧ heap s' F' ((b, n) :: L) ∧ total F' + n = total F ∧ ubrk s' = ubrk s ∧ same_in L s s')); [lia|lia|lia| |exact H|exact Hal]|].
  - intros s1 A a m B H1 Hm. destruct (alloc_run s1 A a m B L n H1 ltac:(lia)) as (s' & b & F' & E & HQ). exists (b + 8), s'. split; [done|]. eauto.
  - intros r s' [Hz|(s1 & F1 & [G1 G2 G3 G4 _] & b & F' & -> & H' & Ht & Eb & Hs)]; [by left|]. right. exists b, F'. rewrite Eb. split_and!; [done|done|done|lia|].
    intros y x Hy Hx. rewrite (Hs y x Hy Hx). by apply (G4 y).
Qed.

Lemma freep_nonnull s F L : heap s F L → freep s ≠ 0.
Proof.
  intros H. pose proof (hk_base _ _ _ H). pose proof (hk_lo _ _ _ H) as Hlo. pose proof (hk_freep _ _ _ H) as Hin. apply elem_of_cons in Hin as [->|Hin]; [lia|].
  apply list_elem_of_fmap in Hin as (z & -> & Hz). rewrite Forall_forall in Hlo. specialize (Hlo _ Hz). cbn in Hlo. lia.
Qed.

Lemma malloc_run s F L b : heap s F L → ubrk s mod 8 = 0 → 0 ≤ b ≤ 2 ^ 31 - 32 →
  runs (malloc can_grow base b) s (malloced s F L (nunits_of b)).
Proof.
  intros H Hal Hb. destruct (nunits_enough b Hb) as [Hn1 Hn2]. unfold malloc, start_list.
  assert (Hf : freep s ≠ 0) by by eapply freep_nonnull.
  mstep. mstep. apply runs_get. rewrite (proj2 (Z.eqb_neq _ 0)) by done. apply runs_ret. mstep. apply runs_get. mstep. apply runs_gets.
  apply malloc_loop_run; [done|done|done|lia].
Qed.

(** The first malloc makes the list. *)
Lemma malloc_first s b : freep s = 0 → 0 < base < h0 → h0 ≤ ubrk s < KERNBASE → ubrk s mod 8 = 0 → 0 ≤ b ≤ 2 ^ 31 - 32 →
  ∃ s0, heap s0 [] [] ∧ ubrk s0 = ubrk s ∧ runs (malloc can_grow base b) s (malloced s0 [] [] (nunits_of b)).
Proof.
  intros Hf Hb0 Hbrk Hal Hb. destruct (nunits_enough b Hb) as [Hn1 Hn2].
  set (s0 := mk_um (store base (mk_header base 0) (store base (mk_header base (h_size (hdrs s base))) (hdrs s))) base (ubrk s) (uflags s) (uprot s)).
  assert (H : heap s0 [] []).
  { split; cbn; try done; try (unfold store; by rewrite Z.eqb_refl); [lia|set_solver|set_solver]. }
  exists s0. split; [done|]. split; [done|]. unfold malloc, start_list. mstep. mstep. apply runs_get. rewrite Hf. cbn [Z.eqb].
  assert (E : (set_ptr base base;; modify (set_freep base);; set_size base 0;; mret base) s = Ok (base, s0)).
  { unfold set_ptr, set_size. munfold. cbn. unfold s0, set_freep. cbn. unfold store at 2. by rewrite Z.eqb_refl. }
  exists base, s0. split; [exact E|]. mstep. apply runs_get. mstep. apply runs_gets. apply (malloc_loop_run s0 [] []); [done|done|done|lia].
Qed.
(** A block in use becomes loose. *)
Lemma unuse s F L1 x L2 : heap s F (L1 ++ x :: L2) → heap s F (L1 ++ L2) ∧ loose s F (L1 ++ L2) x.1 x.2.
Proof.
  destruct x as [bp n]. intros H. destruct (pairwise_app _ _ _ (hk_pair _ _ _ H)) as [Hp Hd]. pose proof (hk_live _ _ _ H) as HL. rewrite Forall_app, Forall_cons in HL.
  destruct HL as (HL1 & [X1 X2 X3 X4 X5] & HL2). split.
  - split; try apply H; [by apply Forall_app| |done]. intros y z Hy Hz. apply (hk_sep _ _ _ H); [done|set_solver].
  - split; try done.
    apply Forall_forall. intros y Hy. apply disj_sym, (hk_sep _ _ _ H); [done|set_solver].
Qed.

(** ** Pages *)

(** Where pmalloc puts the page in a free block of [m] headers at [a]: the header of the
    page comes after so many headers. *)
Definition page_off (m : Z) : Z := (m / 512 - 1) * 512 - 1.

Definition set_flag_at (p f : Z) (g : Z → Z) : Z → Z := λ q, if q =? p then Z.lor (g q) f else g q.

(** The page that pmalloc takes out of the free block [(a, m)]: the [m mod 512] headers
    after it are in no block any more. *)
Record paged s F L (r : Z) s' : Prop := {
  pg_heap : ∃ F' a m, (a, m) ∈ F ∧ 1024 ≤ m ∧ r = a + 4096 * (m / 512 - 1) ∧ heap s' F' ((r - 8, 513) :: L) ∧
    total F' + 513 + m mod 512 = total F;
  pg_brk : ubrk s' = ubrk s;
  pg_same : same_in L s s';
  pg_flags : uflags s' = set_flag_at (page_of r) PTE_1 (uflags s);
  pg_prot : uprot s' = uprot s }.

Lemma ptake_run s A a m B L : heap s (A ++ (a, m) :: B) L → 1024 ≤ m →
  runs (pmalloc_take 513 m (last_a base A) a) s (paged s (A ++ (a, m) :: B) L).
Proof.
  intros H Hm. destruct (take_facts _ _ _ _ _ _ H) as (T1 & T2 & T3 & T4 & T5 & T6 & T7 & T8 & T9 & T10 & T11).
  pose proof (hk_base _ _ _ H) as Hb0. pose proof (hk_brk _ _ _ H) as Hbrk. unfold KERNBASE in *. set (k := page_off m).
  assert (Hk : 511 ≤ k ∧ k + 513 + m mod 512 = m) by (unfold k, page_off; Z.to_euclidean_division_equations; lia).
  assert (Hmod : 0 ≤ m mod 512) by (apply Z.mod_pos_bound; lia). unfold pmalloc_take. change (4096 / 8) with 512. cbv zeta. fold (page_off m). fold k.
  rewrite (u32_small k) by lia. unfold padd, sizeof_Header. rewrite (u32_small (a + 8 * k)), (u32_small (a + 8 * k + 8 * 1)) by lia. change (8 * 1) with 8.
  unfold runs, set_size, u_turn_flag. munfold. cbn. eexists _, _. split; [done|]. assert (Er : a + 8 * k + 8 = a + 4096 * (m / 512 - 1)) by (unfold k, page_off; lia).
  split; cbn; try done.
  - exists (A ++ (a, k) :: B), a, m. split_and!; [set_solver|done|done| |rewrite !total_app; cbn; fold (total B); lia]. replace (a + 8 * k + 8 - 8) with (a + 8 * k) by lia.
    apply (take_part s A a m B L H _ k 513); cbn; try done; try lia; unfold store.
    + intros x Hx Hx'. by rewrite (proj2 (Z.eqb_neq _ _) Hx'), (proj2 (Z.eqb_neq _ _) Hx).
    + by rewrite (proj2 (Z.eqb_neq a _)), Z.eqb_refl, T9 by lia.
    + by rewrite Z.eqb_refl.
  - intros y x Hy Hx. cbn. unfold store. rewrite Forall_forall in T7. specialize (T7 _ Hy). unfold disj in T7. cbn in T7.
    by rewrite (proj2 (Z.eqb_neq x _)), (proj2 (Z.eqb_neq x a)) by lia.
Qed.

Lemma pmalloc_run s F L : heap s F L → ubrk s mod 8 = 0 →
  runs (pmalloc can_grow base) s (λ r s', (r = 0 ∧ s' = s ∧ no_memory s F 1024 513) ∨ ∃ s1 F1, grown s F L s1 F1 ∧ paged s1 F1 L r s').
Proof.
  intros H Hal. unfold pmalloc, start_list. change (4096 / 8 * 2) with 1024. change ((PGSIZE + sizeof_Header - 1) / sizeof_Header + 1) with 513. cbv zeta.
  assert (Hf : freep s ≠ 0) by by eapply freep_nonnull.
  mstep. mstep. apply runs_get. rewrite (proj2 (Z.eqb_neq _ 0)) by done. apply runs_ret. mstep. apply runs_get. mstep. apply runs_gets.
  apply (search_run 1024 513 (pmalloc_take 513) L (λ s F, paged s F L)); [lia|lia|lia| |done|done]. intros s1 A a m B. apply ptake_run.
Qed.

(** *** Protecting and freeing a page *)

Lemma land_clr_W x : Z.land (clr x PTE_W) PTE_W = 0.
Proof. unfold clr. rewrite <- Z.land_assoc. change (Z.land (u32 (Z.lnot PTE_W)) PTE_W) with 0. apply Z.land_0_r. Qed.

Lemma land_clr_1 x : Z.land (clr x PTE_W) PTE_1 = Z.land x PTE_1.
Proof. unfold clr. by rewrite <- Z.land_assoc. Qed.

Lemma lor_on x f : f ≠ 0 → Z.land (Z.lor x f) f ≠ 0.
Proof. intros Hf. by rewrite Z.land_lor_distr_l, Z.land_diag, Z.lor_eq_0_iff; intros [_ ?]. Qed.

Definition turned s (r flag on d : Z) : um :=
  mk_um (hdrs s) (freep s) (ubrk s)
    (λ p, if p =? page_of r then (if on =? 0 then clr (uflags s p) flag else Z.lor (uflags s p) flag) else uflags s p) (uprot s + d).

Lemma protect_page_run s r : Z.land (uflags s (page_of r)) PTE_1 ≠ 0 → 8 ≤ r < 2 ^ 32 → h_size (hdrs s (r - 8)) = 513 →
  protect_page r s = Ok (1, turned s r PTE_W 0 1).
Proof.
  intros H1 Hr Hs. unfold protect_page, u_is_flag_on, size_of, sizeof_Header. munfold. cbn. rewrite (proj2 (Z.eqb_neq _ 0)) by done. cbn.
  rewrite u32_small, Hs by lia. done.
Qed.

(** protect_page refuses what pmalloc has not given out. *)
Lemma protect_page_refuses s r : Z.land (uflags s (page_of r)) PTE_1 = 0 ∨ h_size (hdrs s (u32 (r - 8))) ≠ 513 → protect_page r s = Ok (-1, s).
Proof.
  intros H. unfold protect_page, u_is_flag_on, size_of, sizeof_Header. munfold. cbn. destruct (Z.eqb_spec (Z.land (uflags s (page_of r)) PTE_1) 0) as [E|E]; [done|].
  cbn. destruct H as [H|H]; [done|]. by rewrite (proj2 (Z.eqb_neq _ 513)).
Qed.

Lemma protected_run s r : protected r s = Ok (Z.land (uflags s (page_of r)) PTE_W =? 0, s).
Proof. unfold protected, u_is_flag_on. munfold. cbn. by rewrite negb_involutive. Qed.

Lemma pfree_run s r : Z.land (uflags s (page_of r)) PTE_1 ≠ 0 → Z.land (uflags s (page_of r)) PTE_W = 0 → 8 ≤ r < 2 ^ 32 → h_size (hdrs s (r - 8)) = 513 →
  pfree r s = (free r;; mret 1) (turned s r PTE_W 1 (-1)).
Proof.
  intros H1 H2 Hr Hs. unfold pfree, protected, u_is_flag_on, size_of, sizeof_Header. munfold. cbn. rewrite (proj2 (Z.eqb_neq _ 0)) by done. cbn.
  rewrite H2. cbn. rewrite u32_small, Hs by lia. done.
Qed.

(** pfree refuses a page that is not protected. *)
Lemma pfree_refuses s r : Z.land (uflags s (page_of r)) PTE_1 = 0 ∨ Z.land (uflags s (page_of r)) PTE_W ≠ 0 ∨ h_size (hdrs s (u32 (r - 8))) ≠ 513 →
  pfree r s = Ok (-1, s).
Proof.
  intros H. unfold pfree, protected, u_is_flag_on, size_of, sizeof_Header. munfold. cbn. destruct (Z.eqb_spec (Z.land (uflags s (page_of r)) PTE_1) 0) as [E|E]; [done|]. cbn.
  destruct (Z.eqb_spec (Z.land (uflags s (page_of r)) PTE_W) 0) as [E'|E']; [|done]. cbn. destruct H as [H|[H|H]]; [done|done|]. by rewrite (proj2 (Z.eqb_neq _ 513)).
Qed.

Lemma heap_turned s F L r f o d : heap s F L → heap (turned s r f o d) F L.
Proof. intros [H1 H2 H3 H4 H5 H6 H7 H8 H9 H10]. split; try done. eapply Forall_impl; [exact H7|]. intros x [X1 X2 X3 X4 X5]. by split. Qed.

(** A page from beginning to end. *)
Definition page_life : M um (Z * Z * bool * Z) :=
  p ← pmalloc can_grow base;
  if p =? 0 then mret (0, 0, false, 0) else
  a ← protect_page p;
  b ← protected p;
  c ← pfree p;
  mret (p, a, b, c).

(** What is left afterwards, when the page was taken from [s1] with the free blocks [F1]. *)
Record page_gone s1 F1 L (p : Z) s' : Prop := {
  gone_heap : ∃ F' a m, (a, m) ∈ F1 ∧ 1024 ≤ m ∧ p = a + 4096 * (m / 512 - 1) ∧ heap s' F' L ∧ total F' + m mod 512 = total F1;
  gone_brk : ubrk s' = ubrk s1;
  gone_same : same_in L s1 s';
  gone_prot : uprot s' = uprot s1;
  gone_flags : ∀ q, uflags s' q = if q =? page_of p then Z.lor (clr (Z.lor (uflags s1 q) PTE_1) PTE_W) PTE_W else uflags s1 q }.

Lemma page_used s1 F1 L p s : paged s1 F1 L p s → p ≠ 0 ∧
  runs (a ← protect_page p; b ← protected p; c ← pfree p; mret (p, a, b, c)) s (λ r s', r = (p, 1, true, 1) ∧ page_gone s1 F1 L p s').
Proof.
  intros [(F' & a & m & Hin & Hm & Ep & H & Ht) Hb Hs Hf Hp]. destruct (unuse s F' [] (p - 8, 513) L H) as [H1 Hl]. cbn [app fst snd] in H1, Hl.
  pose proof (hk_live _ _ _ H) as HL. apply Forall_cons in HL as [[X1 X2 X3 X4 X5] _]. pose proof (hk_brk _ _ _ H) as HK. pose proof (hk_base _ _ _ H). unfold KERNBASE in HK. cbn in *. split; [lia|].
  assert (E1 : Z.land (uflags s (page_of p)) PTE_1 ≠ 0) by (rewrite Hf; unfold set_flag_at; rewrite Z.eqb_refl; by apply lor_on).
  unfold runs. rewrite (bind_eq _ _ _ _ _ (protect_page_run s p E1 ltac:(lia) X5)). set (s2 := turned s p PTE_W 0 1).
  assert (E2 : uflags s2 (page_of p) = clr (uflags s (page_of p)) PTE_W) by (cbn; by rewrite Z.eqb_refl).
  rewrite (bind_eq _ _ _ _ _ (protected_run s2 p)), E2, land_clr_W, Z.eqb_refl.
  set (s3 := turned s2 p PTE_W 1 (-1)). assert (H3 : heap s3 F' L) by by apply heap_turned, heap_turned.
  assert (Hl3 : loose s3 F' L (p - 8) 513) by by destruct Hl as [L1 L2 L3 L4 L5 L6 L7].
  destruct (free_run s3 F' L (p - 8) 513 H3 Hl3) as (s4 & F4 & E4 & H4 & Ht4 & Eb4 & _ & _ & Hs4). replace (p - 8 + 8) with p in E4 by lia.
  assert (E : pfree p s2 = Ok (1, s4)) by (rewrite pfree_run; [fold s3; by rewrite (bind_eq _ _ _ _ _ E4)|by rewrite E2, land_clr_1|by rewrite E2, land_clr_W|lia|done]).
  rewrite (bind_eq _ _ _ _ _ E). destruct (free_flags _ _ _ E4) as [Ef4 Ep4]. eexists _, s4. split; [done|]. split; [done|]. split.
  - exists F4, a, m. split_and!; [done|done|done|done|lia].
  - rewrite Eb4. done.
  - intros y x Hy Hx. rewrite (Hs4 y x Hy Hx). by apply (Hs y).
  - rewrite Ep4. cbn. lia.
  - intros q. rewrite Ef4. cbn. rewrite Hf. unfold set_flag_at. by destruct (q =? page_of p).
Qed.

(** A page from pmalloc is taken from a free block, can be protected, is then
    protected, and is freed by pfree, which unprotects it: the heap is well formed
    afterwards, no other block is touched, and the count of protected pages is what it
    was. The page is page aligned only when the free block was, the headers at the end of
    the free block after the last whole page are lost, and the flag PTE_1 stays. *)
Theorem page_life_run s F L : heap s F L → ubrk s mod 8 = 0 →
  runs page_life s (λ r s', (r = (0, 0, false, 0) ∧ s' = s ∧ no_memory s F 1024 513) ∨
    ∃ p s1 F1, r = (p, 1, true, 1) ∧ grown s F L s1 F1 ∧ page_gone s1 F1 L p s').
Proof.
  intros H Hal. unfold page_life. apply runs_bind. eapply runs_mono; [by apply pmalloc_run|]. intros p s2 [(-> & -> & Hno)|(s1 & F1 & Hg & Hp)].
  - apply runs_ret. by left.
  - destruct (page_used _ _ _ _ _ Hp) as [Hp0 HR]. rewrite (proj2 (Z.eqb_neq p 0)) by done. eapply runs_mono; [exact HR|]. intros r s' [-> Hgone]. right. eauto 6.
Qed.
End heap.

(** * A program that uses malloc and free *)

Section client.
  Context (can_grow : Z → bool) (base h0 : Z).

(** The memory, what the program has allocated (address and bytes asked for), and what it
    has stored there. *)
Record client := mk_cl { cl_um : um; cl_live : list (Z * Z); cl_mem : Z → option header }.

Definition set_um (s : um) (c : client) : client := mk_cl s (cl_live c) (cl_mem c).

(** The program allocates some bytes, frees its [k]-th block, or stores something in it
    at an offset of [i] headers. *)
Inductive mop := OMalloc (b : Z) | OFree (k : nat) | OWrite (k : nat) (i : Z) (h : header).

Definition forget (ap b : Z) (W : Z → option header) : Z → option header := λ x, if (ap <=? x) && (x <? ap + b) then None else W x.
Definition write_at (x : Z) (h : header) (c : client) : client :=
  let s := cl_um c in
  mk_cl (mk_um (store x h (hdrs s)) (freep s) (ubrk s) (uflags s) (uprot s)) (cl_live c) (λ y, if y =? x then Some h else cl_mem c y).

Definition cstep (o : mop) : M client unit :=
  match o with
  | OMalloc b =>
      r ← zoom cl_um set_um (malloc can_grow base b);
      if r =? 0 then mret tt else modify (λ c, mk_cl (cl_um c) ((r, b) :: cl_live c) (cl_mem c))
  | OFree k =>
      c ← get;
      match cl_live c !! k with
      | None => mret tt
      | Some (ap, b) =>
          zoom cl_um set_um (free ap);;
          modify (λ c, mk_cl (cl_um c) (delete k (cl_live c)) (forget ap b (cl_mem c)))
      end
  | OWrite k i h =>
      c ← get;
      match cl_live c !! k with
      | None => mret tt
      | Some (ap, b) => if (0 <=? i) && (8 * i <? b) then modify (write_at (ap + 8 * i) h) else mret tt
      end
  end.

Fixpoint crun (ops : list mop) : M client unit := match ops with [] => mret tt | o :: ops => cstep o;; crun ops end.

(** The sizes that the program asks for do not overflow the computation in malloc. *)
Definition op_ok (o : mop) : Prop := match o with OMalloc b => 0 ≤ b ≤ 2 ^ 31 - 32 | _ => True end.

(** The block behind an allocation. *)
Definition blk (x : Z * Z) : Z * Z := (x.1 - 8, nunits_of x.2).

Record busy (c : client) (F : list (Z * Z)) : Prop := {
  by_heap : heap base h0 (cl_um c) F (blk <$> cl_live c);
  by_align : ubrk (cl_um c) mod 8 = 0;
  by_total : 8 * (total F + total (blk <$> cl_live c)) = ubrk (cl_um c) - h0;
  by_sizes : Forall (λ x, 0 ≤ x.2 ≤ 2 ^ 31 - 32) (cl_live c);
  by_mem : ∀ x h, cl_mem c x = Some h → hdrs (cl_um c) x = h ∧ ∃ y, y ∈ cl_live c ∧ y.1 ≤ x < y.1 + y.2 }.

Definition fresh (c : client) : Prop := freep (cl_um c) = 0 ∧ cl_live c = [] ∧ (∀ x, cl_mem c x = None) ∧ ubrk (cl_um c) = h0.

(** What the program can rely on. *)
Record client_ok (c : client) : Prop := {
  co_inside : ∀ ap b, (ap, b) ∈ cl_live c → h0 ≤ ap ∧ ap mod 8 = 0 ∧ ap + b ≤ ubrk (cl_um c);
  co_apart : ∀ i j ap b ap' b', i ≠ j → cl_live c !! i = Some (ap, b) → cl_live c !! j = Some (ap', b') → ap + b ≤ ap' ∨ ap' + b' ≤ ap;
  co_mem : ∀ x h, cl_mem c x = Some h → hdrs (cl_um c) x = h;
  co_total : ∃ F, (freep (cl_um c) = 0 ∧ F = [] ∨ fchain (hdrs (cl_um c)) base F base ∧ apart base F (ubrk (cl_um c))) ∧
    8 * (total F + total (blk <$> cl_live c)) = ubrk (cl_um c) - h0 ∧
    ∀ b, 0 ≤ b ≤ 2 ^ 31 - 32 → runs (malloc can_grow base b) (cl_um c) (λ r _, r = 0 → no_memory can_grow (cl_um c) F (nunits_of b) (nunits_of b)) }.

(** ** The invariant *)

Lemma fresh_ok c : fresh c → 0 < base < h0 → h0 < KERNBASE → h0 mod 8 = 0 → client_ok c.
Proof.
  intros (Hf & HL & Hm & Hb) Hb0 HK Hal. split; rewrite ?HL; try done; [set_solver|by intros x h; rewrite Hm|].
  exists []. split; [by left|]. split; [cbn; lia|]. intros b Hob.
  destruct (malloc_first can_grow base h0 (cl_um c) b Hf Hb0) as (s0 & H0 & Eb & r & s' & E & HQ); [lia|by rewrite Hb|done|].
  exists r, s'. split; [done|]. intros ->. unfold no_memory, no_core in *. rewrite <- Eb. destruct HQ as [(_ & _ & ?)|(b' & F' & E' & H' & _)]; [done|].
  pose proof (hk_live _ _ _ _ _ H') as HL'. apply Forall_cons in HL' as [[Hlo _ _ _ _] _]. cbn in Hlo. lia.
Qed.

Lemma busy_ok c F : busy c F → client_ok c.
Proof.
  intros [H Hal Ht Hsz Hm]. pose proof (hk_live _ _ _ _ _ H) as HL. rewrite Forall_forall in HL. rewrite Forall_forall in Hsz.
  assert (Hin : ∀ ap b, (ap, b) ∈ cl_live c → live_ok h0 (cl_um c) (blk (ap, b))) by (intros ap b Hin; apply HL; by apply list_elem_of_fmap_2).
  split.
  - intros ap b Hx. destruct (Hin _ _ Hx) as [L1 L2 L3 L4 L5]. specialize (Hsz _ Hx). cbn in *. destruct (nunits_enough b) as [N1 N2]; [lia|].
    split; [lia|]. split; [|lia]. replace ap with (ap - 8 + 1 * 8) by lia. by rewrite Z_mod_plus_full.
  - intros i j ap b ap' b' Hij Hi Hj. pose proof (Hsz _ (list_elem_of_lookup_2 _ _ _ Hi)) as S1. pose proof (Hsz _ (list_elem_of_lookup_2 _ _ _ Hj)) as S2. cbn in *.
    destruct (nunits_enough b) as [N1 N2]; [lia|]. destruct (nunits_enough b') as [N1' N2']; [lia|].
    assert (HD : disj (blk (ap, b)) (blk (ap', b'))).
    { apply (pairwise_lookup _ i j _ _ (hk_pair _ _ _ _ _ H) Hij); rewrite list_lookup_fmap; [by rewrite Hi|by rewrite Hj]. }
    unfold disj in HD. cbn in HD. lia.
  - intros x h Hx. by apply Hm.
  - exists F. split; [right; split; apply H|]. split; [done|]. intros b Hb. destruct (malloc_run can_grow base h0 _ _ _ b H Hal Hb) as (r & s' & E & HQ).
    exists r, s'. split; [done|]. intros ->. destruct HQ as [(_ & _ & ?)|(b' & F' & E' & H' & _)]; [done|].
    pose proof (hk_base _ _ _ _ _ H). pose proof (hk_live _ _ _ _ _ H') as HL'. apply Forall_cons in HL' as [[Hlo _ _ _ _] _]. cbn in Hlo. lia.
Qed.

(** ** The operations *)

(** What is stored in the blocks in use stays. *)
Lemma mem_kept (C C' : list (Z * Z)) s s' (W : Z → option header) : (∀ x h, W x = Some h → hdrs s x = h ∧ ∃ y, y ∈ C ∧ y.1 ≤ x < y.1 + y.2) →
  Forall (λ x, 0 ≤ x.2 ≤ 2 ^ 31 - 32) C → same_in (blk <$> C) s s' → (∀ y, y ∈ C → y ∈ C') →
  ∀ x h, W x = Some h → hdrs s' x = h ∧ ∃ y, y ∈ C' ∧ y.1 ≤ x < y.1 + y.2.
Proof.
  intros Hm Hsz Hs HC x h Hx. destruct (Hm x h Hx) as (E & y & Hy & Hr). split; [|exists y; split; [by apply HC|done]].
  rewrite Forall_forall in Hsz. specialize (Hsz _ Hy). destruct (nunits_enough y.2) as [N1 N2]; [lia|].
  rewrite (Hs (blk y) x); [done|by apply list_elem_of_fmap_2|cbn; lia].
Qed.

Lemma malloced_busy c F s0 b r s' : heap base h0 s0 F (blk <$> cl_live c) → 8 * (total F + total (blk <$> cl_live c)) = ubrk s0 - h0 →
  Forall (λ x, 0 ≤ x.2 ≤ 2 ^ 31 - 32) (cl_live c) → (∀ x h, cl_mem c x = Some h → hdrs s0 x = h ∧ ∃ y, y ∈ cl_live c ∧ y.1 ≤ x < y.1 + y.2) →
  0 ≤ b ≤ 2 ^ 31 - 32 → r ≠ 0 → malloced can_grow base h0 s0 F (blk <$> cl_live c) (nunits_of b) r s' →
  ∃ F', busy (mk_cl s' ((r, b) :: cl_live c) (cl_mem c)) F'.
Proof.
  intros H Ht Hsz Hm Hb Hr [(-> & _)|(a & F' & -> & H' & Hal & Ht' & Hs)]; [done|]. exists F'. split; cbn [cl_um cl_live cl_mem fmap list_fmap].
  - unfold blk at 1. cbn. by replace (a + 8 - 8) with a by lia.
  - done.
  - unfold blk at 1. cbn. fold (total (blk <$> cl_live c)). lia.
  - by constructor.
  - eapply mem_kept; [exact Hm|done|done|]. intros y Hy. by right.
Qed.

Lemma step_malloc c F b : busy c F → 0 ≤ b ≤ 2 ^ 31 - 32 → runs (cstep (OMalloc b)) c (λ _ c', ∃ F', busy c' F').
Proof.
  intros Hc Hb. destruct (malloc_run can_grow base h0 _ _ _ b (by_heap _ _ Hc) (by_align _ _ Hc) Hb) as (r & s' & E & HQ).
  unfold cstep, runs. rewrite (bind_eq _ _ _ _ _ (zoom_eq _ _ _ _ _ _ E)). destruct (Z.eqb_spec r 0) as [->|Hr].
  - exists tt, (set_um s' c). split; [done|]. destruct HQ as [(_ & -> & _)|(a & F' & E' & H' & _)]; [exists F; by destruct c|].
    pose proof (hk_base _ _ _ _ _ H'). pose proof (hk_live _ _ _ _ _ H') as HL'. apply Forall_cons in HL' as [[Hlo _ _ _ _] _]. cbn in Hlo. lia.
  - eexists _, _. split; [done|]. cbn. eapply malloced_busy; [apply Hc|apply Hc|apply Hc|apply Hc|done|done|done].
Qed.

Lemma step_first c b : fresh c → 0 < base < h0 → h0 < KERNBASE → h0 mod 8 = 0 → 0 ≤ b ≤ 2 ^ 31 - 32 →
  runs (cstep (OMalloc b)) c (λ _ c', ∃ F', busy c' F').
Proof.
  intros (Hf & HL & Hm & Hbr) Hb0 HK Hal Hb. destruct (malloc_first can_grow base h0 (cl_um c) b Hf Hb0) as (s0 & H0 & Eb & r & s' & E & HQ); [lia|by rewrite Hbr|done|].
  unfold cstep, runs. rewrite (bind_eq _ _ _ _ _ (zoom_eq _ _ _ _ _ _ E)). destruct (Z.eqb_spec r 0) as [->|Hr].
  - eexists tt, _. split; [done|]. destruct HQ as [(_ & -> & _)|(a & F' & E' & H' & _)].
    + exists []. split; cbn; rewrite ?HL; [done|by rewrite Eb, Hbr|cbn; lia|done|]. intros x h. by rewrite Hm.
    + pose proof (hk_live _ _ _ _ _ H') as HL'. apply Forall_cons in HL' as [[Hlo _ _ _ _] _]. cbn in Hlo. lia.
  - eexists _, _. split; [done|]. cbn. eapply (malloced_busy c []); rewrite ?HL; [done|cbn; lia|done|intros x h; by rewrite Hm|done|done|done].
Qed.

Lemma total_blk C1 y C2 : total (blk <$> C1 ++ y :: C2) = total (blk <$> C1 ++ C2) + nunits_of y.2.
Proof. rewrite !fmap_app, fmap_cons, !total_app. cbn. fold (total (blk <$> C2)). lia. Qed.

Lemma step_free c F k : busy c F → runs (cstep (OFree k)) c (λ _ c', ∃ F', busy c' F').
Proof.
  intros Hc. unfold cstep, runs. rewrite (bind_eq get _ c c c eq_refl). destruct (cl_live c !! k) as [[ap b]|] eqn:Ek; [|exists tt, c; eauto].
  destruct (list_elem_of_split_length _ _ _ Ek) as (C1 & C2 & EC & ->). destruct Hc as [H Hal Ht Hsz Hm]. rewrite EC in *. rewrite total_blk in Ht.
  rewrite fmap_app, fmap_cons in H. destruct (unuse can_grow base h0 _ _ _ _ _ H) as [H1 Hl]. rewrite <- fmap_app in H1, Hl. cbn [blk fst snd] in Hl.
  destruct (free_run can_grow base h0 _ _ _ _ _ H1 Hl) as (s' & F' & E & H' & Ht' & Eb & _ & _ & Hs). replace (ap - 8 + 8) with ap in E by lia.
  rewrite (bind_eq _ _ _ _ _ (zoom_eq _ _ _ _ _ _ E)). eexists tt, _. split; [done|]. exists F'. cbn. rewrite EC, delete_middle.
  rewrite Forall_app, Forall_cons in Hsz. destruct Hsz as (Z1 & Z & Z2). split; cbn [cl_um cl_live cl_mem].
  - done.
  - by rewrite Eb.
  - rewrite Eb, Ht'. cbn in *. lia.
  - by apply Forall_app.
  - eapply (mem_kept (C1 ++ C2)); [|by apply Forall_app|exact Hs|done]. intros x h. unfold forget. destruct (_ && _) eqn:Ein; [done|].
    intros Hx. destruct (Hm x h Hx) as (Eh & y & Hy & Hr). split; [done|]. exists y. split; [|done]. apply elem_of_app in Hy as [Hy|[->|Hy]%elem_of_cons]; [set_solver| |set_solver].
    cbn in Hr. apply andb_false_iff in Ein as [Ein|Ein]; lia.
Qed.

(** A program that writes in its own blocks does not hurt the allocator. *)
Lemma heap_write s F L y x h : heap base h0 s F L → y ∈ L → y.1 < x < y.1 + 8 * y.2 →
  heap base h0 (mk_um (store x h (hdrs s)) (freep s) (ubrk s) (uflags s) (uprot s)) F L.
Proof.
  intros H Hy Hx. pose proof (hk_live _ _ _ _ _ H) as HL. rewrite Forall_forall in HL.
  assert (Hout : ∀ p, p ∈ base :: F.*1 → store x h (hdrs s) p = hdrs s p).
  { intros p Hp. unfold store. rewrite (proj2 (Z.eqb_neq p x)); [done|]. intros ->. apply (header_outside _ _ _ _ _ x y H Hp Hy). lia. }
  split; cbn; try apply H.
  - eapply fchain_from; [apply (hk_chain _ _ _ _ _ H)| |intros a Ha; apply Hout; by right]. rewrite Hout by by left. by rewrite (fchain_first _ _ _ _ (hk_chain _ _ _ _ _ H)).
  - rewrite Hout by by left. apply H.
  - apply Forall_forall. intros z Hz. destruct (HL _ Hz) as [Z1 Z2 Z3 Z4 Z5]. split; try done. cbn. unfold store. rewrite (proj2 (Z.eqb_neq z.1 x)); [done|]. intros E.
    apply list_elem_of_lookup_1 in Hz as [i Hi]. apply list_elem_of_lookup_1 in Hy as [j Hj]. destruct (decide (i = j)) as [<-|Hij]; [rewrite Hi in Hj; injection Hj as ->; lia|].
    pose proof (pairwise_lookup _ _ _ _ _ (hk_pair _ _ _ _ _ H) Hij Hi Hj) as HD. unfold disj in HD. lia.
Qed.

Lemma step_store c F k i h : busy c F → runs (cstep (OWrite k i h)) c (λ _ c', ∃ F', busy c' F').
Proof.
  intros Hc. unfold cstep, runs. rewrite (bind_eq get _ c c c eq_refl). destruct (cl_live c !! k) as [[ap b]|] eqn:Ek; [|exists tt, c; eauto].
  destruct (_ && _) eqn:Ei; [|exists tt, c; eauto]. apply andb_true_iff in Ei as [E1 E2]. eexists tt, _. split; [done|]. exists F.
  apply list_elem_of_lookup_2 in Ek. destruct Hc as [H Hal Ht Hsz Hm]. rewrite Forall_forall in Hsz. pose proof (Hsz _ Ek) as Hb. cbn in Hb.
  destruct (nunits_enough b) as [N1 N2]; [lia|]. split; cbn [write_at cl_um cl_live cl_mem hdrs ubrk]; try done.
  - apply (heap_write _ _ _ (blk (ap, b))); [done|by apply list_elem_of_fmap_2|cbn; lia].
  - by apply Forall_forall.
  - intros x h'. unfold store. destruct (Z.eqb_spec x (ap + 8 * i)) as [->|Hx]; [|by apply Hm]. intros [= ->]. split; [done|]. exists (ap, b). split; [done|cbn; lia].
Qed.

Lemma step_busy c F o : busy c F → op_ok o → runs (cstep o) c (λ _ c', ∃ F', busy c' F').
Proof. intros Hc Ho. destruct o; [by eapply step_malloc|by eapply step_free|by eapply step_store]. Qed.

Lemma crun_busy ops : ∀ c F, busy c F → Forall op_ok ops → runs (crun ops) c (λ _ c', ∃ F', busy c' F').
Proof.
  induction ops as [|o ops IH]; intros c F Hc Ho; cbn [crun]; [apply runs_ret; eauto|]. apply Forall_cons in Ho as [Ho Hops].
  apply runs_bind. eapply runs_mono; [by eapply step_busy|]. intros _ c' [F' Hc']. by eapply IH.
Qed.

Lemma step_fresh c o : fresh c → 0 < base < h0 → h0 < KERNBASE → h0 mod 8 = 0 → op_ok o →
  runs (cstep o) c (λ _ c', fresh c' ∨ ∃ F', busy c' F').
Proof.
  intros Hc Hb HK Hal Ho. destruct o as [b|k|k i h].
  - eapply runs_mono; [by apply step_first|]. intros [] c' Hc'. by right.
  - unfold cstep, runs. rewrite (bind_eq get _ c c c eq_refl). destruct (Hc) as (_ & -> & _). exists tt, c. auto.
  - unfold cstep, runs. rewrite (bind_eq get _ c c c eq_refl). destruct (Hc) as (_ & -> & _). exists tt, c. auto.
Qed.

Lemma crun_fresh ops : ∀ c, fresh c → 0 < base < h0 → h0 < KERNBASE → h0 mod 8 = 0 → Forall op_ok ops →
  runs (crun ops) c (λ _ c', client_ok c').
Proof.
  induction ops as [|o ops IH]; intros c Hc Hb HK Hal Ho; cbn [crun]; [apply runs_ret; by apply fresh_ok|]. apply Forall_cons in Ho as [Ho Hops].
  apply runs_bind. eapply runs_mono; [by apply step_fresh|]. intros _ c' [Hc'|[F' Hc']]; [by apply IH|].
  eapply runs_mono; [by eapply crun_busy|]. intros _ c2 [F2 H2]. by eapply busy_ok.
Qed.

(** C30. A program that allocates, frees and writes to its own blocks in any order always
    gets through: its blocks are aligned, inside the heap and apart from each other,
    what it has stored in them is there, every byte of the heap is in one of its blocks
    or in the list of free blocks, which is sorted and has no two blocks that touch, and
    malloc fails only when no free block is large enough and the kernel has no memory. *)
Theorem malloc_free_safe ops c : fresh c → 0 < base < h0 → h0 < KERNBASE → h0 mod 8 = 0 → Forall op_ok ops →
  runs (crun ops) c (λ _ c', client_ok c').
Proof. apply crun_fresh. Qed.
End client.

(** ** Examples *)

(** A program whose heap begins at 0x4000 in a machine that gives a process 128 Kbytes. *)
Definition grow_ex (v : Z) : bool := v <=? 131072.
Definition cl_ex : client := mk_cl (mk_um (λ _, mk_header 0 0) 0 16384 (λ _, 0) 0) [] (λ _, None).
Definition ops_ex : list mop :=
  [OMalloc 20; OMalloc 100; OWrite 0 3 (mk_header 7 8); OFree 1; OMalloc 32000; OMalloc 50000; OFree 2; OMalloc 100000000; OFree 0; OMalloc 12].

Lemma malloc_free_safe_witness : fresh 16384 cl_ex ∧ runs (crun grow_ex 12000 ops_ex) cl_ex (λ _ c', client_ok grow_ex 12000 16384 c').
Proof.
  split; [done|]. apply malloc_free_safe; [done|lia|unfold KERNBASE; lia|done|]. repeat constructor; cbn; lia.
Defined.

(** The heap after the first malloc of that program. *)
Definition heap_ex : um :=
  mk_um (store 49128 (mk_header 0 3) (store 16384 (mk_header 12000 4093) (store 12000 (mk_header 16384 0) (λ _, mk_header 0 0)))) 12000 49152 (λ _, 7) 0.

Lemma heap_ex_ok : heap 12000 16384 heap_ex [(16384, 4093)] [(49128, 3)].
Proof.
  split; cbn; try done; try lia; try set_solver.
  - constructor; [cbn; lia|constructor].
  - constructor; [split; cbn; try done; lia|constructor].
  - intros x y [= ->]%list_elem_of_singleton [= ->]%list_elem_of_singleton. left. cbn. lia.
Qed.

Lemma page_life_run_witness :
  runs (page_life grow_ex 12000) heap_ex (λ r s', (r = (0, 0, false, 0) ∧ s' = heap_ex ∧ no_memory grow_ex heap_ex [(16384, 4093)] 1024 513) ∨
    ∃ p s1 F1, r = (p, 1, true, 1) ∧ grown 12000 16384 heap_ex [(16384, 4093)] [(49128, 3)] s1 F1 ∧ page_gone 12000 16384 s1 F1 [(49128, 3)] p s').
Proof. apply (page_life_run grow_ex 12000 16384 heap_ex [(16384, 4093)] [(49128, 3)]); [apply heap_ex_ok|done]. Defined.

(** Two pages in a row: both are page aligned, but 511 headers of the heap of 4096 are in
    no block afterwards. *)
Lemma pmalloc_loses_headers :
  ∃ s, (p ← pmalloc grow_ex 12000; q ← pmalloc grow_ex 12000; mret (p, q)) (cl_um cl_ex) = Ok ((45056, 36864), s) ∧
    fchain (hdrs s) 12000 [(16384, 2559)] 12000 ∧ ubrk s = 16384 + 8 * 4096 ∧ 2559 + 513 + 513 + 511 = 4096.
Proof. eexists. split; [vm_compute; reflexivity|]. by vm_compute. Qed.

(** A page from a free block that does not begin a page is not page aligned. *)
Lemma pmalloc_misaligned :
  ∃ s, (a ← malloc grow_ex 12000 16000; b ← malloc grow_ex 12000 16752; free a;; p ← pmalloc grow_ex 12000; mret p) (cl_um cl_ex) = Ok (41336, s) ∧
    41336 mod PGSIZE = 376.
Proof. eexists. split; [vm_compute; reflexivity|]. by vm_compute. Qed.

(** The size in malloc overflows: the block has no room for the bytes asked for. *)
Lemma malloc_overflow b : 2 ^ 32 - 7 ≤ b < 2 ^ 32 → nunits_of b = 1.
Proof.
  intros Hb. unfold nunits_of, sizeof_Header. unfold u32 at 2. replace ((b + 8 - 1) mod 2 ^ 32) with (b + 7 - 2 ^ 32).
  2: { symmetry. replace (b + 8 - 1) with (b + 7 - 2 ^ 32 + 1 * 2 ^ 32) by lia. rewrite Z_mod_plus_full. apply Z.mod_small. lia. }
  rewrite (Z.div_small (b + 7 - 2 ^ 32) 8) by lia. done.
Qed.
