(* ===== verification/Sh.v ===== *)
(** The shell (sh.c): its parser, proved to give every command line of the grammar its
    meaning, with the words of the line as strings, and to end on every line.

    The line is the list of its bytes up to the NUL. While it is parsed, [*ps] is the
    part of the line that is left, up to [es]; a pointer into the line that is stored in
    a command is the number of bytes from there to [es]. *)
From Stdlib Require Import ZArith Lia Bool Ascii.
From stdpp Require Import base tactics list list_numbers strings sets.
From S2P Require Import Prelude Machine.

(** * Characters *)

(** [strchr(l, c)] as a condition, for a character [c] that is not NUL. *)
Definition has (l : list Z) (c : Z) : bool := existsb (Z.eqb c) l.

Definition whitespace : list Z := [ch " "; 9; 13; 10; 11].
Definition symbols : list Z := chars "<|>&;()".
Definition MAXARGS : nat := 10.

(** * Commands *)

Inductive cmd :=
  | EXEC (argv : list (nat * nat))
  | REDIR (sub : cmd) (file efile : nat) (mode fd : Z)
  | PIPE (left right : cmd)
  | LIST (left right : cmd)
  | BACK (sub : cmd).

(** * The scanner *)

Fixpoint skip (s : list Z) : list Z :=
  match s with
  | [] => []
  | c :: s' => if has whitespace c then skip s' else s
  end.

Definition wordc (c : Z) : bool := negb (has whitespace c) && negb (has symbols c).

Fixpoint word_end (s : list Z) : list Z :=
  match s with
  | [] => []
  | c :: s' => if wordc c then word_end s' else s
  end.

(** The token at [s] and what comes after it: the switch of gettoken. *)
Definition token_at (s : list Z) : Z * list Z :=
  match s with
  | [] => (0, [])
  | c :: s1 =>
      if has (chars "|();&<") c then (c, s1)
      else if c =? ch ">" then
        match s1 with
        | [] => (c, s1)
        | c2 :: s2 => if c2 =? ch ">" then (ch "+", s2) else (c, s1)
        end
      else (ch "a", word_end s)
  end.

(** The token, and where it begins and ends. *)
Definition gettoken : M (list Z) (Z * nat * nat) :=
  s ← gets skip;
  let '(ret, e) := token_at s in
  modify (λ _, skip e);;
  mret (ret, length s, length e).

Definition peek (toks : string) : M (list Z) bool :=
  modify skip;;
  s ← get;
  mret (match s with [] => false | c :: _ => has (chars toks) c end).

(** * The parser *)

Fixpoint parseredirs (fuel : nat) (c : cmd) : M (list Z) cmd :=
  b ← peek "<>";
  if negb b then mret c else
  match fuel with
  | O => nofuel
  | S fuel =>
      t1 ← gettoken;
      t2 ← gettoken;
      let '(tok, _, _) := t1 in
      let '(t, q, eq) := t2 in
      if negb (t =? ch "a") then panic "missing file for redirection" else
      let c :=
        if tok =? ch "<" then REDIR c q eq O_RDONLY 0 else
        if tok =? ch ">" then REDIR c q eq (Z.lor O_WRONLY O_CREATE) 1 else
        if tok =? ch "+" then REDIR c q eq (Z.lor O_WRONLY O_CREATE) 1 else c in
      parseredirs fuel c
  end.

(** [cmd] of parseexec is the command inside the redirections of [ret]. *)
Fixpoint add_arg (ret : cmd) (a : nat * nat) : cmd :=
  match ret with
  | EXEC argv => EXEC (argv ++ [a])
  | REDIR sub q eq mode fd => REDIR (add_arg sub a) q eq mode fd
  | c => c
  end.

Fixpoint args_loop (fuel argc : nat) (ret : cmd) : M (list Z) cmd :=
  b ← peek "|)&;";
  if (b : bool) then mret ret else
  match fuel with
  | O => nofuel
  | S fuel =>
      t ← gettoken;
      let '(tok, q, eq) := t in
      if tok =? 0 then mret ret else
      if negb (tok =? ch "a") then panic "syntax" else
      let ret := add_arg ret (q, eq) in
      let argc := S argc in
      if (MAXARGS <=? argc)%nat then panic "too many args" else
      s ← get;
      ret ← parseredirs (length s) ret;
      args_loop fuel argc ret
  end.

Fixpoint back_loop (fuel : nat) (c : cmd) : M (list Z) cmd :=
  b ← peek "&";
  if negb b then mret c else
  match fuel with
  | O => nofuel
  | S fuel => gettoken;; back_loop fuel (BACK c)
  end.

Fixpoint parseline (fuel : nat) : M (list Z) cmd :=
  match fuel with
  | O => nofuel
  | S fuel =>
      c ← parsepipe fuel;
      s ← get;
      c ← back_loop (length s) c;
      b ← peek ";";
      if (b : bool) then gettoken;; r ← parseline fuel; mret (LIST c r) else mret c
  end
with parsepipe (fuel : nat) : M (list Z) cmd :=
  match fuel with
  | O => nofuel
  | S fuel =>
      c ← parseexec fuel;
      b ← peek "|";
      if (b : bool) then gettoken;; r ← parsepipe fuel; mret (PIPE c r) else mret c
  end
with parseexec (fuel : nat) : M (list Z) cmd :=
  match fuel with
  | O => nofuel
  | S fuel =>
      b ← peek "(";
      if (b : bool) then parseblock fuel else
      s ← get;
      ret ← parseredirs (length s) (EXEC []);
      s ← get;
      args_loop (S (length s)) 0 ret
  end
with parseblock (fuel : nat) : M (list Z) cmd :=
  match fuel with
  | O => nofuel
  | S fuel =>
      b ← peek "(";
      if negb b then panic "parseblock" else
      gettoken;;
      c ← parseline fuel;
      b ← peek ")";
      if negb b then panic "syntax - missing )" else
      gettoken;;
      s ← get;
      parseredirs (length s) c
  end.

(** The zeros that nulterminate stores in the line, whose length is [n]. *)
Definition put_nul (n : nat) (buf : list Z) (e : nat) : list Z := <[(n - e)%nat := 0]> buf.

Fixpoint nulterminate (n : nat) (c : cmd) (buf : list Z) : list Z :=
  match c with
  | EXEC argv => foldl (λ buf a, put_nul n buf a.2) buf argv
  | REDIR sub _ efile _ _ => put_nul n (nulterminate n sub buf) efile
  | PIPE l r => nulterminate n r (nulterminate n l buf)
  | LIST l r => nulterminate n r (nulterminate n l buf)
  | BACK sub => nulterminate n sub buf
  end.

(** The fuel is four for every byte, and four: there is a byte between two calls of the
    same function. *)
Definition parse_fuel (s : list Z) : nat := 4 * length s + 4.

(** The command, and the line with its NULs; [b] is the line without its NUL. *)
Definition parsecmd (b : list Z) : M unit (cmd * list Z) :=
  c ← zoom (λ _, b) (λ _ u, u)
    (c ← parseline (parse_fuel b);
     peek "";;
     s ← get;
     match s with
     | [] => mret c
     | _ => panic "syntax"
     end);
  mret (c, nulterminate (length b) c (b ++ [0])).

(** * The grammar

    What a line may be, with the meaning of each form. *)

Notation word := (list Z).
Inductive rkind := RIn | ROut | RApp.
Notation redir := (rkind * word)%type.

Inductive line :=
  | Last (p : pipeline) (bg : nat)
  | Seq (p : pipeline) (bg : nat) (l : line)
with pipeline :=
  | One (e : element)
  | Bar (e : element) (p : pipeline)
with element :=
  | Simple (rs : list redir) (args : list (word * list redir))
  | Block (l : line) (rs : list redir).

(** A command with its strings. *)
Inductive scmd :=
  | SExec (argv : list word)
  | SRedir (sub : scmd) (file : word) (mode fd : Z)
  | SPipe (left right : scmd)
  | SList (left right : scmd)
  | SBack (sub : scmd).

Definition rmode (k : rkind) : Z := match k with RIn => O_RDONLY | _ => Z.lor O_WRONLY O_CREATE end.
Definition rfd (k : rkind) : Z := match k with RIn => 0 | _ => 1 end.
Definition redirected (d : scmd) (rs : list redir) : scmd := foldl (λ d r, SRedir d r.2 (rmode r.1) (rfd r.1)) d rs.
Definition backs (n : nat) (d : scmd) : scmd := Nat.iter n SBack d.

(** The redirections of a simple command are around it in the order of the line, and the
    words are its arguments. *)
Fixpoint meaning (l : line) : scmd :=
  match l with
  | Last p bg => backs bg (meaning_p p)
  | Seq p bg l => SList (backs bg (meaning_p p)) (meaning l)
  end
with meaning_p (p : pipeline) : scmd :=
  match p with
  | One e => meaning_e e
  | Bar e p => SPipe (meaning_e e) (meaning_p p)
  end
with meaning_e (e : element) : scmd :=
  match e with
  | Simple rs args => redirected (redirected (SExec args.*1) rs) (concat args.*2)
  | Block l rs => redirected (meaning l) rs
  end.

(** ** Tokens and spelling *)

Inductive token := TSym (c : Z) | TGt | TApp | TWord (w : word).

Definition rtoken (k : rkind) : token := match k with RIn => TSym (ch "<") | ROut => TGt | RApp => TApp end.
Definition toks_r (rs : list redir) : list token := rs ≫= λ r, [rtoken r.1; TWord r.2].
Definition toks_a (args : list (word * list redir)) : list token := args ≫= λ a, TWord a.1 :: toks_r a.2.

Fixpoint toks (l : line) : list token :=
  match l with
  | Last p bg => toks_p p ++ replicate bg (TSym (ch "&"))
  | Seq p bg l => toks_p p ++ replicate bg (TSym (ch "&")) ++ TSym (ch ";") :: toks l
  end
with toks_p (p : pipeline) : list token :=
  match p with
  | One e => toks_e e
  | Bar e p => toks_e e ++ TSym (ch "|") :: toks_p p
  end
with toks_e (e : element) : list token :=
  match e with
  | Simple rs args => toks_r rs ++ toks_a args
  | Block l rs => TSym (ch "(") :: toks l ++ TSym (ch ")") :: toks_r rs
  end.

Definition spelling (t : token) : list Z :=
  match t with
  | TSym c => [c]
  | TGt => [ch ">"]
  | TApp => [ch ">"; ch ">"]
  | TWord w => w
  end.

(** A word ends where the next character is none of a word; and > where there is no
    other > after it. *)
Definition stops (t : token) (rest : list Z) : Prop :=
  match t with
  | TSym c => has (chars "|();&<") c = true
  | TGt => head rest ≠ Some (ch ">")
  | TApp => True
  | TWord w => w ≠ [] ∧ Forall (λ c, wordc c = true) w ∧ (∀ c, head rest = Some c → wordc c = false)
  end.

(** The text spells the tokens, with whitespace anywhere between them. *)
Inductive spells : list token → list Z → Prop :=
  | spells_nil s : Forall (λ c, has whitespace c = true) s → spells [] s
  | spells_cons t ts ws rest : Forall (λ c, has whitespace c = true) ws → stops t rest → spells ts rest →
      spells (t :: ts) (ws ++ spelling t ++ rest).

(** At most nine arguments. *)
Fixpoint short (l : line) : Prop :=
  match l with
  | Last p _ => short_p p
  | Seq p _ l => short_p p ∧ short l
  end
with short_p (p : pipeline) : Prop :=
  match p with
  | One e => short_e e
  | Bar e p => short_e e ∧ short_p p
  end
with short_e (e : element) : Prop :=
  match e with
  | Simple _ args => (length args < MAXARGS)%nat
  | Block l _ => short l
  end.

(** The strings of a command in the line with its NULs: the bytes from the pointer to the
    next NUL. *)
Fixpoint upto_nul (s : list Z) : list Z :=
  match s with
  | [] => []
  | c :: s => if c =? 0 then [] else c :: upto_nul s
  end.
Definition string_at (n : nat) (buf : list Z) (q : nat) : word := upto_nul (drop (n - q) buf).

Fixpoint strings_of (n : nat) (buf : list Z) (c : cmd) : scmd :=
  match c with
  | EXEC argv => SExec ((λ a, string_at n buf a.1) <$> argv)
  | REDIR sub q _ mode fd => SRedir (strings_of n buf sub) (string_at n buf q) mode fd
  | PIPE l r => SPipe (strings_of n buf l) (strings_of n buf r)
  | LIST l r => SList (strings_of n buf l) (strings_of n buf r)
  | BACK sub => SBack (strings_of n buf sub)
  end.

(** * The scanner gives the tokens *)

#[local] Arguments has : simpl never.
#[local] Arguments chars : simpl never.

Notation all_ws := (Forall (λ c, has whitespace c = true)).

Lemma skip_app ws s : all_ws ws → skip (ws ++ s) = skip s.
Proof. induction 1 as [|c ws Hc _ IH]; cbn; [done|]. by rewrite Hc. Qed.

Lemma skip_all ws : all_ws ws → skip ws = [].
Proof. intros H. rewrite <- (app_nil_r ws), skip_app by done. done. Qed.

Lemma skip_suffix s : skip s `suffix_of` s.
Proof. induction s as [|c s IH]; cbn; [done|]. destruct (has whitespace c); [by apply suffix_cons_r|done]. Qed.

Lemma has_In l c : has l c = true → c ∈ l.
Proof. unfold has. rewrite existsb_exists. intros (x & Hx & E). apply Z.eqb_eq in E as ->. by apply list_elem_of_In. Qed.

(** The first character of a token. *)
Definition first_of (t : token) : Z := match t with TSym c => c | TGt | TApp => ch ">" | TWord w => hd 0 w end.

Lemma spelling_first t rest : stops t rest → ∃ tl, spelling t = first_of t :: tl ∧ has whitespace (first_of t) = false.
Proof.
  destruct t as [c| | |w]; cbn.
  - intros Hc%has_In. exists []. split; [done|]. cbn in Hc. repeat (apply elem_of_cons in Hc as [->|Hc]; [done|]). by apply not_elem_of_nil in Hc.
  - by exists [].
  - by exists [ch ">"].
  - intros (Hw & Ha & _). destruct w as [|c w]; [done|]. exists w. split; [done|]. apply Forall_cons in Ha as [Ha _]. unfold wordc in Ha. cbn.
    by destruct (has whitespace c).
Qed.

Lemma spells_skip ts s : spells ts s → spells ts (skip s) ∧
  match ts with
  | [] => skip s = []
  | t :: ts => ∃ rest, skip s = spelling t ++ rest ∧ stops t rest ∧ spells ts rest
  end.
Proof.
  intros [s' Hs|t ts' ws rest Hws Hst Hsp]; [rewrite skip_all by done; split; [by constructor|done]|].
  destruct (spelling_first t rest Hst) as (tl & E & Hf). assert (Es : skip (ws ++ spelling t ++ rest) = spelling t ++ rest).
  { rewrite skip_app by done. rewrite E. cbn. by rewrite Hf. }
  rewrite Es. split; [|eauto]. by apply (spells_cons t ts' [] rest).
Qed.

Definition ret_of (t : token) : Z := match t with TSym c => c | TGt => ch ">" | TApp => ch "+" | TWord _ => ch "a" end.

Lemma word_end_app w rest : Forall (λ c, wordc c = true) w → (∀ c, head rest = Some c → wordc c = false) → word_end (w ++ rest) = rest.
Proof.
  intros Hw Hr. induction Hw as [|c w Hc _ IH]; cbn; [|by rewrite Hc]. destruct rest as [|c rest]; [done|]. cbn. by rewrite (Hr c eq_refl).
Qed.

(** The characters of a word are those that begin no other token. *)
Lemma wordc_first c : wordc c = true ↔ has whitespace c = false ∧ has (chars "|();&<") c = false ∧ (c =? ch ">") = false.
Proof.
  unfold wordc. rewrite andb_true_iff, !negb_true_iff. enough (has symbols c = false ↔ has (chars "|();&<") c = false ∧ (c =? ch ">") = false) by tauto.
  unfold has, symbols, chars. cbn. rewrite !orb_false_iff. tauto.
Qed.

Lemma token_at_run t rest : stops t rest → token_at (spelling t ++ rest) = (ret_of t, rest).
Proof.
  destruct t as [c| | |w]; intros Hst; cbn in Hst.
  - cbn. by rewrite Hst.
  - destruct rest as [|c rest]; [done|]. cbn in *. destruct (Z.eqb_spec c (ch ">")) as [->|]; done.
  - done.
  - destruct Hst as (Hne & Hw & Hr). pose proof (word_end_app w rest Hw Hr) as E. destruct w as [|c w]; [done|]. apply Forall_cons in Hw as [Hc _].
    apply wordc_first in Hc.
    cbn [spelling app ret_of] in *. unfold token_at. destruct Hc as (_ & -> & ->). by rewrite E.
Qed.

Lemma suffix_length (l1 l2 : list Z) : l1 `suffix_of` l2 → (length l1 ≤ length l2)%nat.
Proof. intros [k ->]. rewrite length_app. lia. Qed.

Lemma word_end_suffix s : word_end s `suffix_of` s.
Proof. induction s as [|c s IH]; cbn; [done|]. destruct (wordc c); [by apply suffix_cons_r|done]. Qed.

Lemma skip_first s c s1 : skip s = c :: s1 → has whitespace c = false.
Proof. induction s as [|x s IH]; cbn; [done|]. destruct (has whitespace x) eqn:Ex; [done|]. by intros [= -> ->]. Qed.

Lemma token_at_length c s1 : has whitespace c = false → (length (token_at (c :: s1)).2 ≤ length s1)%nat.
Proof.
  intros Hc. unfold token_at. destruct (has (chars "|();&<") c) eqn:E1; [cbn; lia|]. destruct (Z.eqb_spec c (ch ">")) as [->|Hgt].
  - destruct s1 as [|c2 s2]; cbn; [lia|]. destruct (c2 =? ch ">"); cbn; lia.
  - cbn. apply Z.eqb_neq in Hgt. rewrite (proj2 (wordc_first c)) by done. apply suffix_length, word_end_suffix.
Qed.

Lemma gettoken_run t ts s : spells (t :: ts) s → ∃ rest, skip s = spelling t ++ rest ∧ stops t rest ∧ spells ts (skip rest) ∧
  gettoken s = Ok ((ret_of t, length (spelling t ++ rest), length rest), skip rest).
Proof.
  intros (_ & rest & Es & Hst & Hsp)%spells_skip. exists rest. split; [done|]. split; [done|]. split; [by apply spells_skip|].
  unfold gettoken. rewrite (bind_eq _ _ s (skip s) s eq_refl), Es, token_at_run by done. done.
Qed.

Lemma gettoken_end s : spells [] s → gettoken s = Ok ((0, 0%nat, 0%nat), []).
Proof. intros [_ E]%spells_skip. unfold gettoken. by rewrite (bind_eq _ _ s (skip s) s eq_refl), E. Qed.

(** Whether one of the symbols [l] comes next. *)
Definition opens (l : string) (ts : list token) : bool :=
  match ts with
  | [] | TWord _ :: _ => false
  | t :: _ => has (chars l) (first_of t)
  end.

Lemma peek_run l ts s : Forall (λ c, has symbols c = true) (chars l) → spells ts s → peek l s = Ok (opens l ts, skip s).
Proof.
  intros Hl Hsp. unfold peek. rewrite (bind_eq _ _ s tt (skip s) eq_refl), (bind_eq get _ (skip s) _ _ eq_refl).
  apply spells_skip in Hsp as [_ H]. unfold mret, M_ret. repeat f_equal. destruct ts as [|t ts]; [by rewrite H|]. destruct H as (rest & -> & Hst & _).
  destruct (spelling_first t rest Hst) as (tl & E & _). destruct t as [c| | |w]; try done. cbn in E |- *. destruct Hst as (_ & Hw & _). rewrite E in Hw |- *. cbn.
  apply Forall_cons in Hw as [Hc _]. apply not_true_iff_false. intros Hh%has_In. rewrite Forall_forall in Hl. specialize (Hl _ Hh). unfold wordc in Hc. rewrite Hl in Hc.
  by rewrite andb_false_r in Hc.
Qed.

(** * The parser gives the meaning *)

Section parse.
  Context (b : list Z).

(** The word [w] is at these two pointers in the line. *)
Definition word_at (a : nat * nat) (w : word) : Prop :=
  ∃ rest, (w ++ rest) `suffix_of` b ∧ a = (length (w ++ rest), length rest) ∧ stops (TWord w) rest.

(** The command is the one with these strings. *)
Fixpoint means (c : cmd) (d : scmd) : Prop :=
  match c, d with
  | EXEC argv, SExec ws => Forall2 word_at argv ws
  | REDIR sub q eq mode fd, SRedir d w mode' fd' => means sub d ∧ word_at (q, eq) w ∧ mode = mode' ∧ fd = fd'
  | PIPE l r, SPipe l' r' => means l l' ∧ means r r'
  | LIST l r, SList l' r' => means l l' ∧ means r r'
  | BACK c, SBack d => means c d
  | _, _ => False
  end.

(** Where parsing goes on after the tokens of a phrase. *)
Record parsed (s : list Z) (ts : list token) (s' : list Z) : Prop := {
  pd_spells : spells ts s';
  pd_suffix : s' `suffix_of` s }.

Lemma parsed_line s ts s' : s `suffix_of` b → parsed s ts s' → s' `suffix_of` b.
Proof. intros Hs [_ H]. by etrans. Qed.

Lemma peek_parsed l ts s : Forall (λ c, has symbols c = true) (chars l) → spells ts s → peek l s = Ok (opens l ts, skip s) ∧ parsed s ts (skip s).
Proof. intros Hl Hsp. split; [by apply peek_run|]. split; [by apply spells_skip|apply skip_suffix]. Qed.

(** A token takes at least one byte. *)
Lemma token_parsed t ts s : spells (t :: ts) s → ∃ a s', gettoken s = Ok ((ret_of t, a.1, a.2), s') ∧ parsed s ts s' ∧ (length s' < length s)%nat ∧
  (s `suffix_of` b → ∀ w, t = TWord w → word_at a w).
Proof.
  intros (rest & Es & Hst & Hsp & E)%gettoken_run. exists (length (spelling t ++ rest), length rest), (skip rest). pose proof (skip_suffix rest) as Hr. pose proof (skip_suffix s) as Hs.
  rewrite Es in Hs. split; [done|]. split; [|split].
  - split; [done|]. etrans; [exact Hr|]. etrans; [|exact Hs]. by apply suffix_app_r.
  - apply suffix_length in Hr, Hs. destruct (spelling_first t rest Hst) as (tl & Et & _). rewrite Et in Hs. cbn in Hs. rewrite length_app in Hs. lia.
  - intros Hb w ->. exists rest. split; [by etrans|]. split; [done|done].
Qed.

Lemma parsed_trans s ts s' ts' s'' : parsed s ts s' → parsed s' ts' s'' → parsed s ts' s''.
Proof. intros [_ H1] [H2 H3]. split; [done|by etrans]. Qed.

Ltac parsed_chain := repeat first [eassumption | eapply parsed_trans; [eassumption|]].

Lemma redirs_run rs : ∀ s c d ts fuel, spells (toks_r rs ++ ts) s → opens "<>" ts = false → (length s ≤ fuel)%nat → s `suffix_of` b → means c d →
  ∃ c' s', parseredirs fuel c s = Ok (c', s') ∧ parsed s ts s' ∧ means c' (redirected d rs).
Proof.
  induction rs as [|[k w] rs IH]; intros s c d ts fuel Hsp Hno Hf Hb Hm.
  - destruct (peek_parsed "<>" ts s) as [E Hp]; [by repeat constructor|done|]. exists c, (skip s). split_and!; [|done|done].
    destruct fuel; cbn [parseredirs]; rewrite (bind_eq _ _ _ _ _ E), Hno; done.
  - cbn in Hsp. destruct (peek_parsed "<>" _ s (ltac:(by repeat constructor)) Hsp) as [E Hp]. pose proof (parsed_line _ _ _ Hb Hp) as Hb1.
    destruct (token_parsed _ _ _ (pd_spells _ _ _ Hp)) as (a1 & s1 & E1 & Hp1 & Hl1 & _). pose proof (parsed_line _ _ _ Hb1 Hp1) as Hb2.
    destruct (token_parsed _ _ _ (pd_spells _ _ _ Hp1)) as (a2 & s2 & E2 & Hp2 & Hl2 & Hw). pose proof (suffix_length _ _ (skip_suffix s)).
    destruct fuel as [|fuel]; [lia|]. cbn [parseredirs]. rewrite (bind_eq _ _ _ _ _ E). replace (opens "<>" _) with true by by destruct k. cbn [negb].
    rewrite (bind_eq _ _ _ _ _ E1), (bind_eq _ _ _ _ _ E2). cbn [ret_of]. set (c1 := if _ =? ch "<" then _ else _).
    assert (Hm1 : means c1 (SRedir d w (rmode k) (rfd k))).
    { destruct a2 as [q e]. unfold c1. destruct k; cbn; split_and!; try done; by apply Hw. }
    destruct (IH s2 c1 (SRedir d w (rmode k) (rfd k)) ts fuel) as (c' & s' & E' & Hp' & Hm'); [apply Hp2|done|lia|by eapply parsed_line|done|].
    exists c', s'. split; [exact E'|]. split; [|done]. by parsed_chain.
Qed.

Lemma add_arg_means ws rs : ∀ c a w, means c (redirected (SExec ws) rs) → word_at a w → means (add_arg c a) (redirected (SExec (ws ++ [w])) rs).
Proof.
  induction rs as [|r rs IH] using rev_ind; intros c a w Hm Hw.
  - destruct c; try done. cbn in *. apply Forall2_app; [done|]. by repeat constructor.
  - unfold redirected in *. rewrite foldl_snoc in Hm. rewrite foldl_snoc. destruct c as [|sub q e m f| | |]; try done. cbn in *. destruct Hm as (Hm & ? & ? & ?). split_and!; try done. by apply IH.
Qed.

Lemma args_run args : ∀ s c ws rs ts fuel, spells (toks_a args ++ ts) s → (ts = [] ∨ opens "|)&;" ts = true) → (length s < fuel)%nat → s `suffix_of` b →
  means c (redirected (SExec ws) rs) → (length ws + length args < MAXARGS)%nat →
  ∃ c' s', args_loop fuel (length ws) c s = Ok (c', s') ∧ parsed s ts s' ∧ means c' (redirected (SExec (ws ++ args.*1)) (rs ++ concat args.*2)).
Proof.
  induction args as [|[w rs1] args IH]; intros s c ws rs ts fuel Hsp Hts Hf Hb Hm Hlen; (destruct fuel as [|fuel]; [lia|]); cbn [args_loop].
  - cbn [fmap list_fmap concat]. rewrite !app_nil_r. cbn in Hsp. destruct (peek_parsed "|)&;" ts s) as [E Hp]; [by repeat constructor|done|].
    rewrite (bind_eq _ _ _ _ _ E). destruct Hts as [->|Ho]; [|rewrite Ho; by exists c, (skip s)]. cbn [opens].
    rewrite (bind_eq _ _ _ _ _ (gettoken_end _ (pd_spells _ _ _ Hp))). exists c, []. split; [done|]. split; [|done]. split; [by repeat constructor|apply suffix_nil].
  - cbn in Hsp. rewrite <- app_assoc in Hsp. destruct (peek_parsed "|)&;" _ s (ltac:(by repeat constructor)) Hsp) as [E Hp]. pose proof (parsed_line _ _ _ Hb Hp) as Hb1.
    destruct (token_parsed _ _ _ (pd_spells _ _ _ Hp)) as (a1 & s1 & E1 & Hp1 & Hl1 & Hw). pose proof (parsed_line _ _ _ Hb1 Hp1) as Hb2.
    rewrite (bind_eq _ _ _ _ _ E). cbn [opens]. rewrite (bind_eq _ _ _ _ _ E1). cbn [ret_of]. change (ch "a" =? 0) with false. change (ch "a" =? ch "a") with true. cbn [negb].
    rewrite <- surjective_pairing. cbn in Hlen. rewrite (proj2 (Nat.leb_gt _ _)) by lia. rewrite (bind_eq get _ s1 _ _ eq_refl).
    assert (Ho : opens "<>" (toks_a args ++ ts) = false).
    { destruct args; [|done]. cbn. destruct Hts as [->|Ho]; [done|]. destruct ts as [|t ts]; [done|]. destruct t as [x| | |]; try done. cbn in *. apply has_In in Ho. cbn in Ho.
      repeat (apply elem_of_cons in Ho as [->|Ho]; [done|]). by apply not_elem_of_nil in Ho. }
    destruct (redirs_run rs1 s1 (add_arg c a1) (redirected (SExec (ws ++ [w])) rs) (toks_a args ++ ts) (length s1)) as (c2 & s2 & E2 & Hp2 & Hm2);
      [apply Hp1|done|lia|done|apply add_arg_means; [done|by apply Hw]|].
    rewrite (bind_eq _ _ _ _ _ E2). unfold redirected in Hm2. rewrite <- foldl_app in Hm2. pose proof (parsed_line _ _ _ Hb2 Hp2) as Hb3.
    pose proof (suffix_length _ _ (pd_suffix _ _ _ Hp2)). pose proof (suffix_length _ _ (pd_suffix _ _ _ Hp)).
    destruct (IH s2 c2 (ws ++ [w]) (rs ++ rs1) ts fuel) as (c' & s' & E' & Hp' & Hm'); [apply Hp2|done|lia|done|done|rewrite length_app; cbn; lia|].
    rewrite length_app, Nat.add_1_r in E'. exists c', s'. split; [exact E'|]. split; [by parsed_chain|].
    cbn [fmap list_fmap concat fst snd]. by rewrite <- !app_assoc in Hm'.
Qed.

Lemma back_run n : ∀ s c d ts fuel, spells (replicate n (TSym (ch "&")) ++ ts) s → opens "&" ts = false → (length s ≤ fuel)%nat → means c d →
  ∃ c' s', back_loop fuel c s = Ok (c', s') ∧ parsed s ts s' ∧ means c' (backs n d).
Proof.
  induction n as [|n IH]; intros s c d ts fuel Hsp Hno Hf Hm; cbn in Hsp; destruct (peek_parsed "&" _ s ltac:(by repeat constructor) Hsp) as [E Hp].
  - exists c, (skip s). split_and!; [|done|done]. destruct fuel; cbn [back_loop]; rewrite (bind_eq _ _ _ _ _ E), Hno; done.
  - destruct (token_parsed _ _ _ (pd_spells _ _ _ Hp)) as (a1 & s1 & E1 & Hp1 & Hl1 & _). pose proof (suffix_length _ _ (skip_suffix s)).
    destruct fuel as [|fuel]; [lia|]. cbn [back_loop]. rewrite (bind_eq _ _ _ _ _ E). cbn [opens first_of]. change (negb (has (chars "&") (ch "&"))) with false. cbn match.
    rewrite (bind_eq _ _ _ _ _ E1). destruct (IH s1 (BACK c) (SBack d) ts fuel) as (c' & s' & E' & Hp' & Hm'); [apply Hp1|done|lia|done|].
    exists c', s'. split; [done|]. split; [by parsed_chain|]. unfold backs in *. by rewrite Nat.iter_succ_r.
Qed.

(** What may come after a phrase. *)
Definition follow (l : string) (ts : list token) : Prop := ts = [] ∨ opens l ts = true.

Lemma opens_char l ts : opens l ts = true → ∃ c, c ∈ chars l ∧ ∀ l', opens l' ts = has (chars l') c.
Proof. destruct ts as [|[c| | |w] ts]; try done; cbn; intros H%has_In; eauto. Qed.

Lemma follow_not l l' ts : follow l ts → Forall (λ c, has (chars l') c = false) (chars l) → opens l' ts = false.
Proof. intros [->|H] Hl; [done|]. destruct (opens_char _ _ H) as (c & Hc & ->). rewrite Forall_forall in Hl. by apply Hl. Qed.

Lemma follow_incl l l' ts : follow l ts → Forall (λ c, has (chars l') c = true) (chars l) → follow l' ts.
Proof. intros [->|H] Hl; [by left|]. right. destruct (opens_char _ _ H) as (c & Hc & ->). rewrite Forall_forall in Hl. by apply Hl. Qed.

Ltac chars := by repeat constructor.

(** The functions parse their phrases. *)
Definition line_ok (l : line) : Prop := ∀ s ts fuel, spells (toks l ++ ts) s → follow ")" ts → (4 * length s + 4 ≤ fuel)%nat → s `suffix_of` b → short l →
  ∃ c s', parseline fuel s = Ok (c, s') ∧ parsed s ts s' ∧ means c (meaning l).
Definition pipe_ok (p : pipeline) : Prop := ∀ s ts fuel, spells (toks_p p ++ ts) s → follow ")&;" ts → (4 * length s + 3 ≤ fuel)%nat → s `suffix_of` b → short_p p →
  ∃ c s', parsepipe fuel s = Ok (c, s') ∧ parsed s ts s' ∧ means c (meaning_p p).
Definition elem_ok (e : element) : Prop := ∀ s ts fuel, spells (toks_e e ++ ts) s → follow "|)&;" ts → (4 * length s + 2 ≤ fuel)%nat → s `suffix_of` b → short_e e →
  ∃ c s', parseexec fuel s = Ok (c, s') ∧ parsed s ts s' ∧ means c (meaning_e e).

Lemma simple_ok rs args : elem_ok (Simple rs args).
Proof.
  intros s ts fuel Hsp Hfo Hf Hb Hsh. destruct fuel as [|fuel]; [lia|]. cbn [parseexec]. cbn [toks_e] in Hsp. rewrite <- app_assoc in Hsp.
  destruct (peek_parsed "(" _ s ltac:(chars) Hsp) as [E Hp]. rewrite (bind_eq _ _ _ _ _ E). pose proof (parsed_line _ _ _ Hb Hp) as Hb1.
  assert (Ho : opens "(" (toks_r rs ++ toks_a args ++ ts) = false).
  { destruct rs as [|[[] w] rs]; try done. destruct args; [|done]. cbn. by eapply follow_not; [exact Hfo|chars]. }
  rewrite Ho, (bind_eq get _ (skip s) _ _ eq_refl).
  assert (Ho1 : opens "<>" (toks_a args ++ ts) = false) by (destruct args; [|done]; cbn; by eapply follow_not; [exact Hfo|chars]).
  destruct (redirs_run rs (skip s) (EXEC []) (SExec []) (toks_a args ++ ts) (length (skip s))) as (c1 & s1 & E1 & Hp1 & Hm1); [apply Hp|done|lia|done|by constructor|].
  rewrite (bind_eq _ _ _ _ _ E1), (bind_eq get _ s1 _ _ eq_refl). pose proof (parsed_line _ _ _ Hb1 Hp1) as Hb2.
  destruct (args_run args s1 c1 [] rs ts (S (length s1))) as (c' & s' & E' & Hp' & Hm'); [apply Hp1|done|lia|done|done|exact Hsh|].
  exists c', s'. split; [exact E'|]. split; [by parsed_chain|]. cbn [meaning_e]. unfold redirected in *. rewrite <- foldl_app. done.
Qed.

Lemma block_ok l rs : line_ok l → elem_ok (Block l rs).
Proof.
  intros IH s ts fuel Hsp Hfo Hf Hb Hsh. destruct fuel as [|[|fuel]]; [lia|lia|]. cbn [parseexec]. cbn [toks_e app] in Hsp. rewrite <- app_assoc in Hsp. cbn [app] in Hsp.
  destruct (peek_parsed "(" _ s ltac:(chars) Hsp) as [E Hp]. rewrite (bind_eq _ _ _ _ _ E). cbn [opens first_of]. change (has (chars "(") (ch "(")) with true. cbn match. cbn [parseblock].
  destruct (peek_parsed "(" _ (skip s) ltac:(chars) (pd_spells _ _ _ Hp)) as [E0 Hp0]. rewrite (bind_eq _ _ _ _ _ E0). cbn [opens first_of]. change (negb (has (chars "(") (ch "("))) with false. cbn match.
  destruct (token_parsed _ _ _ (pd_spells _ _ _ Hp0)) as (a1 & s1 & E1 & Hp1 & Hl1 & _). rewrite (bind_eq _ _ _ _ _ E1).
  pose proof (suffix_length _ _ (pd_suffix _ _ _ Hp)). pose proof (suffix_length _ _ (pd_suffix _ _ _ Hp0)).
  assert (Hb1 : s1 `suffix_of` b) by (eapply parsed_line; [exact Hb|by parsed_chain]).
  destruct (IH s1 (TSym (ch ")") :: toks_r rs ++ ts) fuel) as (c2 & s2 & E2 & Hp2 & Hm2); [apply Hp1|by right|lia|done|done|]. rewrite (bind_eq _ _ _ _ _ E2).
  destruct (peek_parsed ")" _ s2 ltac:(chars) (pd_spells _ _ _ Hp2)) as [E3 Hp3]. rewrite (bind_eq _ _ _ _ _ E3). cbn [opens first_of]. change (negb (has (chars ")") (ch ")"))) with false. cbn match.
  destruct (token_parsed _ _ _ (pd_spells _ _ _ Hp3)) as (a4 & s4 & E4 & Hp4 & Hl4 & _). rewrite (bind_eq _ _ _ _ _ E4), (bind_eq get _ s4 _ _ eq_refl).
  assert (Hb4 : s4 `suffix_of` b) by (eapply parsed_line; [exact Hb|by parsed_chain]).
  destruct (redirs_run rs s4 c2 (meaning l) ts (length s4)) as (c' & s' & E' & Hp' & Hm'); [apply Hp4|by eapply follow_not; [exact Hfo|chars]|lia|done|done|].
  exists c', s'. split; [exact E'|]. split; [by parsed_chain|done].
Qed.

Lemma pipe_one e : elem_ok e → pipe_ok (One e).
Proof.
  intros IH s ts fuel Hsp Hfo Hf Hb Hsh. destruct fuel as [|fuel]; [lia|]. cbn [parsepipe].
  destruct (IH s ts fuel) as (c1 & s1 & E1 & Hp1 & Hm1); [done|by eapply follow_incl; [exact Hfo|chars]|lia|done|done|]. rewrite (bind_eq _ _ _ _ _ E1).
  destruct (peek_parsed "|" _ s1 ltac:(chars) (pd_spells _ _ _ Hp1)) as [E2 Hp2]. rewrite (bind_eq _ _ _ _ _ E2), (follow_not _ "|" _ Hfo) by chars.
  eexists _, _. split; [done|]. split; [by parsed_chain|done].
Qed.

Lemma pipe_bar e p : elem_ok e → pipe_ok p → pipe_ok (Bar e p).
Proof.
  intros IHe IHp s ts fuel Hsp Hfo Hf Hb [He Hsh]. destruct fuel as [|fuel]; [lia|]. cbn [parsepipe]. cbn [toks_p] in Hsp. rewrite <- app_assoc in Hsp. cbn [app] in Hsp.
  destruct (IHe s _ fuel Hsp) as (c1 & s1 & E1 & Hp1 & Hm1); [by right|lia|done|done|]. rewrite (bind_eq _ _ _ _ _ E1).
  destruct (peek_parsed "|" _ s1 ltac:(chars) (pd_spells _ _ _ Hp1)) as [E2 Hp2]. rewrite (bind_eq _ _ _ _ _ E2). cbn [opens first_of]. change (has (chars "|") (ch "|")) with true. cbn match.
  destruct (token_parsed _ _ _ (pd_spells _ _ _ Hp2)) as (a3 & s3 & E3 & Hp3 & Hl3 & _). rewrite (bind_eq _ _ _ _ _ E3).
  pose proof (suffix_length _ _ (pd_suffix _ _ _ Hp1)). pose proof (suffix_length _ _ (pd_suffix _ _ _ Hp2)).
  destruct (IHp s3 ts fuel) as (c' & s' & E' & Hp' & Hm'); [apply Hp3|done|lia|eapply parsed_line; [exact Hb|by parsed_chain]|done|]. rewrite (bind_eq _ _ _ _ _ E').
  eexists _, s'. split; [done|]. split; [by parsed_chain|done].
Qed.

(** The beginning of parseline: a pipeline and the &s after it. *)
Lemma line_head p bg s ts fuel : pipe_ok p → spells (toks_p p ++ replicate bg (TSym (ch "&")) ++ ts) s → follow ");" ts → (4 * length s + 3 ≤ fuel)%nat → s `suffix_of` b → short_p p →
  ∃ c s', (c ← parsepipe fuel; s ← get; back_loop (length s) c) s = Ok (c, s') ∧ parsed s ts s' ∧ means c (backs bg (meaning_p p)).
Proof.
  intros IHp Hsp Hfo Hf Hb Hsh. destruct (IHp s _ fuel Hsp) as (c1 & s1 & E1 & Hp1 & Hm1); [|lia|done|done|].
  { destruct bg; [by eapply follow_incl; [exact Hfo|chars]|by right]. }
  rewrite (bind_eq _ _ _ _ _ E1), (bind_eq get _ s1 _ _ eq_refl).
  destruct (back_run bg s1 c1 (meaning_p p) ts (length s1)) as (c2 & s2 & E2 & Hp2 & Hm2); [apply Hp1|by eapply follow_not; [exact Hfo|chars]|lia|done|].
  exists c2, s2. split; [done|]. split; [by parsed_chain|done].
Qed.

Lemma parseline_unfold fuel s c s1 : (c ← parsepipe fuel; s ← get; back_loop (length s) c) s = Ok (c, s1) →
  parseline (S fuel) s = (b ← peek ";"; if (b : bool) then gettoken;; r ← parseline fuel; mret (LIST c r) else mret c) s1.
Proof.
  intros (c0 & s0 & E0 & E1)%bind_Ok. cbn [parseline]. rewrite (bind_eq _ _ _ _ _ E0). rewrite (bind_eq get _ s0 _ _ eq_refl) in E1. rewrite (bind_eq get _ s0 _ _ eq_refl). by rewrite (bind_eq _ _ _ _ _ E1).
Qed.

Lemma line_last p bg : pipe_ok p → line_ok (Last p bg).
Proof.
  intros IHp s ts fuel Hsp Hfo Hf Hb Hsh. destruct fuel as [|fuel]; [lia|]. cbn [toks] in Hsp. rewrite <- app_assoc in Hsp.
  destruct (line_head p bg s ts fuel IHp Hsp) as (c1 & s1 & E1 & Hp1 & Hm1); [by eapply follow_incl; [exact Hfo|chars]|lia|done|done|]. rewrite (parseline_unfold _ _ _ _ E1).
  destruct (peek_parsed ";" _ s1 ltac:(chars) (pd_spells _ _ _ Hp1)) as [E2 Hp2]. rewrite (bind_eq _ _ _ _ _ E2), (follow_not _ ";" _ Hfo) by chars.
  eexists _, _. split; [done|]. split; [by parsed_chain|done].
Qed.

Lemma line_seq p bg l : pipe_ok p → line_ok l → line_ok (Seq p bg l).
Proof.
  intros IHp IHl s ts fuel Hsp Hfo Hf Hb [Hshp Hsh]. destruct fuel as [|fuel]; [lia|]. cbn [toks] in Hsp. rewrite <- !app_assoc in Hsp. cbn [app] in Hsp.
  destruct (line_head p bg s _ fuel IHp Hsp) as (c1 & s1 & E1 & Hp1 & Hm1); [by right|lia|done|done|]. rewrite (parseline_unfold _ _ _ _ E1).
  destruct (peek_parsed ";" _ s1 ltac:(chars) (pd_spells _ _ _ Hp1)) as [E2 Hp2]. rewrite (bind_eq _ _ _ _ _ E2). cbn [opens first_of]. change (has (chars ";") (ch ";")) with true. cbn match.
  destruct (token_parsed _ _ _ (pd_spells _ _ _ Hp2)) as (a3 & s3 & E3 & Hp3 & Hl3 & _). rewrite (bind_eq _ _ _ _ _ E3).
  pose proof (suffix_length _ _ (pd_suffix _ _ _ Hp1)). pose proof (suffix_length _ _ (pd_suffix _ _ _ Hp2)).
  destruct (IHl s3 ts fuel) as (c' & s' & E' & Hp' & Hm'); [apply Hp3|done|lia|eapply parsed_line; [exact Hb|by parsed_chain]|done|]. rewrite (bind_eq _ _ _ _ _ E').
  eexists _, s'. split; [done|]. split; [by parsed_chain|done].
Qed.

Scheme line_mut := Induction for line Sort Prop
  with pipeline_mut := Induction for pipeline Sort Prop
  with element_mut := Induction for element Sort Prop.

Lemma parse_line l : line_ok l.
Proof.
  apply (line_mut line_ok pipe_ok elem_ok); auto using line_last, line_seq, pipe_one, pipe_bar, simple_ok, block_ok.
Qed.

(** ** The strings *)

(** Where nulterminate stores its NULs. *)
Fixpoint nuls (c : cmd) : list nat :=
  match c with
  | EXEC argv => argv.*2
  | REDIR sub _ e _ _ => nuls sub ++ [e]
  | PIPE l r | LIST l r => nuls l ++ nuls r
  | BACK sub => nuls sub
  end.

Lemma nulterminate_nuls n c : ∀ buf, nulterminate n c buf = foldl (put_nul n) buf (nuls c).
Proof.
  induction c as [argv|sub IH q e m f|l IHl r IHr|l IHl r IHr|sub IH]; intros buf; cbn; rewrite ?foldl_app, ?IH, ?IHl, ?IHr; try done.
  revert buf. induction argv as [|a argv IHa]; intros buf; cbn; [done|]. apply IHa.
Qed.

(** A pointer to a byte that is in no word. *)
Definition gap (e : nat) : Prop := ∃ rest, rest `suffix_of` b ∧ e = length rest ∧ ∀ c, head rest = Some c → wordc c = false.

Lemma word_gap a w : word_at a w → gap a.2.
Proof. intros (rest & Hs & -> & _ & _ & Hr). exists rest. split; [|done]. etrans; [|exact Hs]. by apply suffix_app_r. Qed.

Lemma means_gaps c : ∀ d, means c d → Forall gap (nuls c).
Proof.
  induction c as [argv|sub IH q e m f|l IHl r IHr|l IHl r IHr|sub IH]; intros d; destruct d; try done; cbn.
  - intros H. induction H as [|a w argv' ws Ha _ IH]; cbn; [done|]. constructor; [by eapply word_gap|done].
  - intros (H1 & H2 & _). rewrite Forall_app, Forall_singleton. split; [by eapply IH|by apply (word_gap (q, e) file)].
  - intros [H1 H2]. rewrite Forall_app. split; [by eapply IHl|by eapply IHr].
  - intros [H1 H2]. rewrite Forall_app. split; [by eapply IHl|by eapply IHr].
  - apply IH.
Qed.

Lemma put_nuls_length n es : ∀ buf, length (foldl (put_nul n) buf es) = length buf.
Proof. induction es as [|e es IH]; intros buf; cbn; [done|]. rewrite IH. apply length_insert. Qed.

Lemma put_nuls_out n es i : ∀ buf, (∀ e, e ∈ es → i ≠ (n - e)%nat) → foldl (put_nul n) buf es !! i = buf !! i.
Proof.
  induction es as [|e es IH]; intros buf H; cbn; [done|]. rewrite IH by set_solver. apply list_lookup_insert_ne. apply not_eq_sym, H. set_solver.
Qed.

Lemma put_nuls_in n es e : ∀ buf, e ∈ es → (n - e < length buf)%nat → foldl (put_nul n) buf es !! (n - e)%nat = Some 0.
Proof.
  induction es as [|e' es IH] using rev_ind; intros buf He Hl; [by apply not_elem_of_nil in He|]. rewrite foldl_snoc. unfold put_nul at 1.
  destruct (decide (n - e' = n - e)%nat) as [->|Hne]; [apply list_lookup_insert_eq; by rewrite put_nuls_length|].
  rewrite list_lookup_insert_ne by done. apply elem_of_app in He as [He|He%list_elem_of_singleton]; [by apply IH|congruence].
Qed.

Lemma upto_word w : ∀ rest, Forall (λ c, c ≠ 0) w → upto_nul (w ++ 0 :: rest) = w.
Proof. induction w as [|c w IH]; intros rest H; cbn; [done|]. apply Forall_cons in H as [Hc H]. rewrite (proj2 (Z.eqb_neq c 0)) by done. by rewrite IH. Qed.

(** A word reads as the word once there is a NUL after it, and only gaps have changed. *)
Lemma string_back es a w : Forall (λ c, c ≠ 0) b → Forall gap es → a.2 ∈ es → word_at a w →
  string_at (length b) (foldl (put_nul (length b)) (b ++ [0]) es) a.1 = w.
Proof.
  intros Hnz Hg Hin (rest & [pre E] & -> & _ & Hw & Hr). unfold string_at. cbn [fst snd] in *. set (n := length b). set (buf := foldl _ _ _).
  assert (Hn : n = (length pre + (length w + length rest))%nat) by (unfold n; rewrite E, !length_app; lia).
  assert (Hbuf : ∀ j, (j < length w)%nat → buf !! (length pre + j)%nat = w !! j).
  { intros j Hj. destruct (lookup_lt_is_Some_2 w j Hj) as [c Hc]. assert (Hbj : b !! (length pre + j)%nat = Some c) by (rewrite E, lookup_app_r by lia; rewrite lookup_app_l by lia; by replace (length pre + j - length pre)%nat with j by lia).
    unfold buf. rewrite put_nuls_out; [rewrite lookup_app_l by (apply lookup_lt_Some in Hbj; lia); by rewrite Hc|].
    intros e He Ee. rewrite Forall_forall in Hg. destruct (Hg _ He) as (r & [p Er] & -> & Hrw). assert (Hlr : head r = Some c).
    { assert (Hp : length p = (n - length r)%nat) by (unfold n; rewrite Er, length_app; lia). rewrite Ee in Hbj. fold n in Hbj. rewrite <- Hp, Er, lookup_app_r, Nat.sub_diag in Hbj by lia. by destruct r. }
    rewrite Forall_lookup in Hw. specialize (Hw _ _ Hc). specialize (Hrw _ Hlr). congruence. }
  assert (Hend : buf !! (length pre + length w)%nat = Some 0).
  { replace (length pre + length w)%nat with (n - length rest)%nat by lia. apply put_nuls_in; [done|]. rewrite length_app. fold n. cbn. lia. }
  replace (n - length (w ++ rest))%nat with (length pre) by (rewrite length_app; lia).
  assert (Ed : drop (length pre) buf = w ++ 0 :: drop (length pre + length w + 1) buf).
  { rewrite <- (take_drop (length w + 1) (drop (length pre) buf)), drop_drop, Nat.add_assoc. rewrite (app_assoc w [0] _ : w ++ 0 :: _ = _). f_equal. apply list_eq. intros j.
    destruct (decide (j < length w)%nat) as [Hj|Hj]; [rewrite lookup_take_lt, lookup_drop, lookup_app_l by lia; by apply Hbuf|].
    destruct (decide (j = length w)) as [->|Hj']; [rewrite lookup_take_lt, lookup_drop, lookup_app_r, Nat.sub_diag by lia; done|].
    rewrite lookup_take_ge by lia. symmetry. apply lookup_ge_None. rewrite length_app. cbn. lia. }
  rewrite Ed. apply upto_word. rewrite E, !Forall_app in Hnz. tauto.
Qed.

Lemma strings_back es c : ∀ d, Forall (λ c, c ≠ 0) b → Forall gap es → nuls c ⊆ es → means c d →
  strings_of (length b) (foldl (put_nul (length b)) (b ++ [0]) es) c = d.
Proof.
  intros d Hnz Hg. revert d. induction c as [argv|sub IH q e m f|l IHl r IHr|l IHl r IHr|sub IH]; intros d Hin; destruct d; try done; cbn in *.
  - intros H. f_equal. induction H as [|a w argv' ws Ha _ IH]; cbn in *; [done|]. rewrite (string_back es a w) by (done || set_solver). f_equal. apply IH. set_solver.
  - intros (H1 & H2 & -> & ->). rewrite (string_back es (q, e) file Hnz Hg ltac:(set_solver) H2 : string_at _ _ q = file). rewrite (IH d); [done|set_solver|done].
  - intros [H1 H2]. rewrite (IHl d1), (IHr d2); [done|set_solver|done|set_solver|done].
  - intros [H1 H2]. rewrite (IHl d1), (IHr d2); [done|set_solver|done|set_solver|done].
  - intros H. rewrite (IH d); done.
Qed.
End parse.

Lemma parsecmd_runs l b : spells (toks l) b → Forall (λ c, c ≠ 0) b → short l →
  runs (parsecmd b) tt (λ r _, strings_of (length b) r.2 r.1 = meaning l).
Proof.
  intros Hsp Hnz Hsh. destruct (parse_line b l b [] (parse_fuel b)) as (c & s & E & Hp & Hm); [by rewrite app_nil_r|by left|done|done|done|].
  destruct (peek_parsed "" [] s ltac:(constructor) (pd_spells _ _ _ Hp)) as [E1 _]. destruct (spells_skip _ _ (pd_spells _ _ _ Hp)) as [_ Es].
  unfold parsecmd. apply runs_bind, runs_zoom. cbn beta. exists c, []. split.
  - rewrite (bind_eq _ _ _ _ _ E), (bind_eq _ _ _ _ _ E1), (bind_eq get _ _ _ _ eq_refl), Es. done.
  - apply runs_ret. cbn. rewrite nulterminate_nuls. apply strings_back; [done|by eapply means_gaps|done|done].
Qed.

(** C33. Every line that the grammar allows, with any whitespace and at most nine
    arguments a command, is parsed to the command that it means: redirections and words
    belong to their commands, | binds more tightly than & and &, than ;, parentheses
    group; and after nulterminate every argument and file name reads as its word. *)
Theorem parsecmd_meaning l b : spells (toks l) b → Forall (λ c, c ≠ 0) b → short l →
  runs (parsecmd b) tt (λ r _, strings_of (length b) r.2 r.1 = meaning l).
Proof. apply parsecmd_runs. Qed.

(** ** The tokens of a text *)

Fixpoint lexf (fuel : nat) (s : list Z) : list token :=
  match fuel with
  | O => []
  | S fuel =>
      match skip s with
      | [] => []
      | c :: s1 =>
          let '(r, e) := token_at (c :: s1) in
          (if has (chars "|();&<") c then TSym c
           else if c =? ch ">" then (if r =? ch "+" then TApp else TGt)
           else TWord (take (length (c :: s1) - length e) (c :: s1))) :: lexf fuel e
      end
  end.
Definition lex (s : list Z) : list token := lexf (S (length s)) s.

Lemma lexf_spelled ts s : spells ts s → ∀ fuel, (length s < fuel)%nat → lexf fuel s = ts.
Proof.
  induction 1 as [s Hs|t ts ws rest Hws Hst Hsp IH]; intros fuel Hf; (destruct fuel as [|fuel]; [lia|]); cbn [lexf]; [by rewrite skip_all|].
  destruct (spelling_first t rest Hst) as (tl & E & Hw). pose proof (token_at_run t rest Hst) as Et. rewrite skip_app by done. rewrite E in Et, Hf |- *. cbn [app skip] in *. rewrite Hw, Et.
  rewrite IH by (rewrite !length_app in Hf; cbn in Hf; rewrite length_app in Hf; lia). f_equal. destruct t as [c| | |w]; cbn in E, Hst; cbn [first_of ret_of].
  - by rewrite Hst.
  - done.
  - done.
  - destruct Hst as (Hne & Hwd & _). destruct w as [|c w]; [done|]. cbn [hd] in *. injection E as ->. apply Forall_cons in Hwd as [Hc _].
    apply wordc_first in Hc.
    destruct Hc as (_ & -> & ->). f_equal. cbn [length]. rewrite length_app. replace (S (length tl + length rest) - length rest)%nat with (S (length tl)) by lia. cbn. by rewrite take_app_length.
Qed.

Lemma word_end_split s : ∃ w, s = w ++ word_end s ∧ Forall (λ c, wordc c = true) w ∧ ∀ c, head (word_end s) = Some c → wordc c = false.
Proof.
  induction s as [|c s IH]; [by exists []|]. cbn. destruct (wordc c) eqn:E.
  - destruct IH as (w & E1 & Hw & Hr). exists (c :: w). split; [cbn; by f_equal|]. split; [by constructor|done].
  - exists []. split; [done|]. split; [done|]. cbn. by intros x [= <-].
Qed.

Lemma skip_split s : ∃ ws, s = ws ++ skip s ∧ all_ws ws.
Proof. induction s as [|c s (ws & E & H)]; [by exists []|]. cbn. destruct (has whitespace c) eqn:Ec; [exists (c :: ws); cbn; split; [by f_equal|by constructor]|by exists []]. Qed.

(** Every text spells its tokens, and no others. *)
Lemma lex_spells ts s : lex s = ts ↔ spells ts s.
Proof.
  split; [|intros H; apply lexf_spelled; [done|lia]]. intros <-. unfold lex. assert (Hf : (length s < S (length s))%nat) by lia. revert Hf. generalize (S (length s)). intros fuel.
  revert s. induction fuel as [|fuel IH]; intros s Hf; [lia|]. cbn [lexf]. destruct (skip_split s) as (ws & Es & Hws). destruct (skip s) as [|c s1] eqn:Ek; [rewrite Es, app_nil_r; by constructor|].
  pose proof (skip_first _ _ _ Ek) as Hc. pose proof (token_at_length c s1 Hc) as Hl. destruct (token_at (c :: s1)) as [r e] eqn:Et. cbn [snd] in Hl.
  assert (Hfe : (length e < fuel)%nat) by (rewrite Es, length_app in Hf; cbn in Hf; lia). specialize (IH e Hfe). rewrite Es. set (t := if has _ c then _ else _).
  enough (H : c :: s1 = spelling t ++ e ∧ stops t e) by (destruct H as [-> Hst]; by constructor).
  unfold t. clear t. cbn in Et. destruct (has (chars "|();&<") c) eqn:E1; [by injection Et as <- <-|]. destruct (Z.eqb_spec c (ch ">")) as [->|Hgt].
  - destruct s1 as [|c2 s2]; [by injection Et as <- <-|]. destruct (Z.eqb_spec c2 (ch ">")) as [->|Hgt]; [by injection Et as <- <-|]. injection Et as <- <-. cbn. split; [done|]. by intros [= ->].
  - apply Z.eqb_neq in Hgt. rewrite (proj2 (wordc_first c)) in Et by done. injection Et as _ <-. destruct (word_end_split s1) as (w & Ew & Hw & Hr). set (e := word_end s1) in *.
    assert (Et : take (length (c :: s1) - length e) (c :: s1) = c :: w).
    { rewrite Ew. cbn [length]. rewrite length_app. replace (S (length w + length e) - length e)%nat with (S (length w)) by lia. cbn. by rewrite take_app_length. }
    rewrite Et. cbn. split; [by f_equal|]. split; [done|]. split; [|done]. constructor; [by apply wordc_first|done].
Qed.

(** * The parser ends *)

Lemma peek_ends l s : ends (peek l) s (λ r s', (length s' ≤ length s)%nat ∧ (r = true → s' ≠ [] ∧ skip s' = s')).
Proof.
  unfold ends, peek. cbn. split; [apply suffix_length, skip_suffix|]. intros Hr. split; [by destruct (skip s)|].
  clear Hr. induction s as [|c s IH]; cbn; [done|]. destruct (has whitespace c) eqn:E; [done|]. cbn. by rewrite E.
Qed.

(** A token other than the end takes at least one byte. *)
Lemma gettoken_ends s : ends gettoken s (λ r s', (length s' ≤ length s)%nat ∧ (skip s ≠ [] → (length s' < length s)%nat) ∧ (skip s = [] → r.1.1 = 0)).
Proof.
  unfold ends, gettoken. rewrite (bind_eq _ _ s (skip s) s eq_refl). pose proof (suffix_length _ _ (skip_suffix s)) as Hs.
  destruct (skip s) as [|c s1] eqn:E; [cbn; split_and!; [lia|done|done]|]. pose proof (token_at_length c s1 (skip_first _ _ _ E)) as Hl.
  destruct (token_at (c :: s1)) as [r e]. cbn in *. pose proof (suffix_length _ _ (skip_suffix e)). split; [lia|]. split; [intros _; lia|done].
Qed.

Lemma redirs_end fuel : ∀ s c, (length s ≤ fuel)%nat → ends (parseredirs fuel c) s (λ _ s', (length s' ≤ length s)%nat).
Proof.
  induction fuel as [|fuel IH]; intros s c Hf; cbn [parseredirs]; apply ends_bind; (eapply ends_mono; [apply peek_ends|]); intros [] s1 [H1 Hne]; cbn [negb]; try (exact H1).
  - destruct s1; [by destruct (Hne eq_refl)|]. cbn in *. lia.
  - destruct (Hne eq_refl) as [Hn Hk]. apply ends_bind. eapply ends_mono; [apply gettoken_ends|]. intros [[t1 q1] e1] s2 (H2 & H2' & _). rewrite Hk in H2'. specialize (H2' Hn).
    apply ends_bind. eapply ends_mono; [apply gettoken_ends|]. intros [[t2 q2] e2] s3 (H3 & _). destruct (negb _); [done|]. eapply ends_mono; [apply IH; lia|]. cbn. lia.
Qed.

Lemma args_end fuel : ∀ s argc c, (length s < fuel)%nat → ends (args_loop fuel argc c) s (λ _ s', (length s' ≤ length s)%nat).
Proof.
  induction fuel as [|fuel IH]; intros s argc c Hf; [lia|]. cbn [args_loop]. apply ends_bind. eapply ends_mono; [apply peek_ends|]. intros [] s1 [H1 _]; [exact H1|].
  apply ends_bind. eapply ends_mono; [apply gettoken_ends|]. intros [[t q] e] s2 (H2 & H2' & H2z). destruct (Z.eqb_spec t 0) as [|Ht]; [cbn; unfold ends; cbn; lia|].
  assert (Hlt : (length s2 < length s1)%nat) by (destruct (skip s1) eqn:E; [by specialize (H2z eq_refl)|by apply H2']).
  destruct (negb _); [done|]. cbv zeta. destruct (MAXARGS <=? S argc)%nat; [done|]. apply ends_bind. unfold ends at 1. cbn [get].
  apply ends_bind. eapply ends_mono; [by apply redirs_end|]. intros c3 s3 H3. cbn in H3. eapply ends_mono; [apply IH; lia|]. cbn. lia.
Qed.

Lemma back_end fuel : ∀ s c, (length s ≤ fuel)%nat → ends (back_loop fuel c) s (λ _ s', (length s' ≤ length s)%nat).
Proof.
  induction fuel as [|fuel IH]; intros s c Hf; cbn [back_loop]; apply ends_bind; (eapply ends_mono; [apply peek_ends|]); intros [] s1 [H1 Hne]; cbn [negb]; try (exact H1).
  - destruct s1; [by destruct (Hne eq_refl)|]. cbn in *. lia.
  - destruct (Hne eq_refl) as [Hn Hk]. apply ends_bind. eapply ends_mono; [apply gettoken_ends|]. intros [[t1 q1] e1] s2 (H2 & H2' & _). rewrite Hk in H2'. specialize (H2' Hn).
    eapply ends_mono; [apply IH; lia|]. cbn. lia.
Qed.

(** A symbol that has been seen is taken. *)
Lemma peek_token {A} l (f : M (list Z) A) (g : M (list Z) A) s Q : (∀ s', (length s' < length s)%nat → ends f s' Q) → (∀ s', (length s' ≤ length s)%nat → ends g s' Q) →
  ends (b ← peek l; if (b : bool) then gettoken;; f else g) s Q.
Proof.
  intros Hf Hg. apply ends_bind. eapply ends_mono; [apply peek_ends|]. intros [] s1 [H1 Hne]; [|by apply Hg]. destruct (Hne eq_refl) as [Hn Hk].
  apply ends_bind. eapply ends_mono; [apply gettoken_ends|]. intros [[t1 q1] e1] s2 (H2 & H2' & _). rewrite Hk in H2'. apply Hf. specialize (H2' Hn). lia.
Qed.

Notation shrinks s := (λ _ s', (length s' ≤ length s)%nat).

Lemma parse_ends fuel : ∀ s,
  ((4 * length s + 4 ≤ fuel)%nat → ends (parseline fuel) s (shrinks s)) ∧ ((4 * length s + 3 ≤ fuel)%nat → ends (parsepipe fuel) s (shrinks s)) ∧
  ((4 * length s + 2 ≤ fuel)%nat → ends (parseexec fuel) s (shrinks s)) ∧ ((4 * length s + 1 ≤ fuel)%nat → ends (parseblock fuel) s (shrinks s)).
Proof.
  induction fuel as [|fuel IH]; intros s; [split_and!; lia|]. split_and!; intros Hf.
  - cbn [parseline]. apply ends_bind. eapply ends_mono; [apply IH; lia|]. intros c s1 H1. apply ends_bind. unfold ends at 1. cbn [get].
    apply ends_bind. eapply ends_mono; [by apply back_end|]. intros c2 s2 H2. apply peek_token; intros s3 H3; [|unfold ends; cbn in *; lia].
    apply ends_bind. eapply ends_mono; [apply IH; cbn in *; lia|]. intros r s4 H4. unfold ends. cbn in *. lia.
  - cbn [parsepipe]. apply ends_bind. eapply ends_mono; [apply IH; lia|]. intros c s2 H2. apply peek_token; intros s3 H3; [|unfold ends; cbn in *; lia].
    apply ends_bind. eapply ends_mono; [apply IH; cbn in *; lia|]. intros r s4 H4. unfold ends. cbn in *. lia.
  - cbn [parseexec]. apply ends_bind. eapply ends_mono; [apply peek_ends|]. intros [] s1 [H1 Hne]; [eapply ends_mono; [apply IH; lia|]; cbn; lia|].
    apply ends_bind. unfold ends at 1. cbn [get]. apply ends_bind. eapply ends_mono; [by apply redirs_end|]. intros c2 s2 H2.
    apply ends_bind. unfold ends at 1. cbn [get]. eapply ends_mono; [apply args_end; lia|]. cbn in *. lia.
  - cbn [parseblock]. apply ends_bind. eapply ends_mono; [apply peek_ends|]. intros [] s1 [H1 Hne]; [|done]. destruct (Hne eq_refl) as [Hn Hk]. cbn [negb].
    apply ends_bind. eapply ends_mono; [apply gettoken_ends|]. intros [[t1 q1] e1] s2 (H2 & H2' & _). rewrite Hk in H2'. specialize (H2' Hn).
    apply ends_bind. eapply ends_mono; [apply IH; lia|]. intros c s3 H3. apply ends_bind. eapply ends_mono; [apply peek_ends|]. intros [] s4 [H4 _]; [|done]. cbn [negb].
    apply ends_bind. eapply ends_mono; [apply gettoken_ends|]. intros _ s5 (H5 & _). apply ends_bind. unfold ends at 1. cbn [get].
    eapply ends_mono; [by apply redirs_end|]. cbn in *. lia.
Qed.

(** Whatever is typed, the parser ends: it gives a command or complains. *)
Theorem parsecmd_ends b : parsecmd b tt ≠ NoFuel.
Proof.
  unfold parsecmd. pose proof (proj1 (parse_ends (parse_fuel b) b) ltac:(unfold parse_fuel; lia)) as H. unfold ends in H.
  unfold mbind at 1, M_bind, zoom. set (m := parseline _ ≫= _). destruct (parseline (parse_fuel b) b) as [[c s]| | | |] eqn:E; try done.
  - replace (m b) with ((peek "";; s ← get; match s with [] => mret c | _ => panic "syntax" end) s) by (unfold m; by rewrite (bind_eq _ _ _ _ _ E)).
    unfold peek. munfold. cbn. by destruct (skip s).
  - unfold m, mbind, M_bind. by rewrite E.
  - unfold m, mbind, M_bind. by rewrite E.
  - unfold m, mbind, M_bind. by rewrite E.
Qed.

(** ** An example *)

(** A line with redirections, a pipe, parentheses, & and ;. *)
Definition line_ex : list Z := chars "cat <in| (grep -x a; wc)>>out & ;".
Definition ast_ex : line :=
  Seq (Bar (Simple [] [(chars "cat", [(RIn, chars "in")])])
         (One (Block (Seq (One (Simple [] [(chars "grep", []); (chars "-x", []); (chars "a", [])])) 0
                          (Last (One (Simple [] [(chars "wc", [])])) 0)) [(RApp, chars "out")]))) 1
      (Last (One (Simple [] [])) 0).

Lemma parsecmd_meaning_witness : lex line_ex = toks ast_ex ∧
  runs (parsecmd line_ex) tt
    (λ r _, strings_of (length line_ex) r.2 r.1 = meaning ast_ex).
Proof.
  assert (E : lex line_ex = toks ast_ex) by by vm_compute. split; [done|].
  apply parsecmd_meaning; [by apply lex_spells| |cbn; unfold MAXARGS; lia]. vm_compute. repeat (constructor; [done|]). constructor.
Defined.
