(* ===== verification/ShRun.v ===== *)
(** The shell (sh.c) at work: running a command, with the open files that its processes
    have, and the loop that reads and runs lines. It is proved that every program is
    started with the files that the line says and with no others open.

    A process that the shell forks runs the same program on a copy of the table of open
    files. What the processes do is written to a log, in the order in which they are
    forked; how long they run is not part of the model, so that wait does nothing. *)
From Stdlib Require Import ZArith Lia Bool Ascii.
From stdpp Require Import base tactics list list_numbers strings sets.
From S2P Require Import Prelude Machine Sh.

(** * Open files *)

(** What a file descriptor is open on. *)
Inductive obj := OTerm (n : nat) | OFile (path : word) (mode : Z) | ORead (pipe : nat) | OWrite (pipe : nat).
Notation fds := (list (option obj)).

Definition is_free (o : option obj) : bool := match o with None => true | Some _ => false end.
Definition close_fd (fd : nat) (f : fds) : fds := <[fd := None]> f.

(** The lowest descriptor that is free, as the kernel gives them out. *)
Definition alloc_fd (o : obj) (f : fds) : option (nat * fds) :=
  match find_idx is_free f with
  | None => None
  | Some fd => Some (fd, <[fd := Some o]> f)
  end.

Definition dup_fd (fd : nat) (f : fds) : fds :=
  match f !! fd with
  | Some (Some o) => match alloc_fd o f with Some (_, f) => f | None => f end
  | _ => f
  end.

(** The pipe number [n]: its two descriptors. *)
Definition pipe_fds (n : nat) (f : fds) : option (nat * nat * fds) :=
  match alloc_fd (ORead n) f with
  | None => None
  | Some (p0, f) => match alloc_fd (OWrite n) f with None => None | Some (p1, f) => Some (p0, p1, f) end
  end.

(** * Running a command *)

Inductive event := Run (argv : list word) (f : fds) | Says (format : string) (arg : word) | Chdir (path : word).
Record sh := mk_sh { sh_forks : nat; sh_pipes : nat; sh_log : list event }.

Definition log (e : event) : M sh unit := modify (λ s, mk_sh (sh_forks s) (sh_pipes s) (sh_log s ++ [e])).

Section run.
  (** Whether a file can be opened, a program run, a directory entered, and whether the
      [n]-th fork has the memory it needs. *)
  Context (can_open : word → Z → bool) (can_exec can_chdir : word → bool) (can_fork : nat → bool).

Definition open_fd (path : word) (mode : Z) (f : fds) : option (nat * fds) := if can_open path mode then alloc_fd (OFile path mode) f else None.

(** Whether there is a child; a parent without one has printed a message and exits. *)
Definition fork1 : M sh bool :=
  s ← get;
  modify (λ s, mk_sh (S (sh_forks s)) (sh_pipes s) (sh_log s));;
  if can_fork (sh_forks s) then mret true else log (Says "fork" []);; mret false.

(** Each child is run where it is forked; the code after it is the parent. *)
Fixpoint runcmd (c : scmd) (f : fds) : M sh unit :=
  match c with
  | SExec [] => mret tt
  | SExec (a :: argv) => if can_exec a then log (Run (a :: argv) f) else log (Says "exec %s failed" a)
  | SRedir sub file mode fd =>
      match open_fd file mode (close_fd (Z.to_nat fd) f) with
      | None => log (Says "open %s failed" file)
      | Some (_, f) => runcmd sub f
      end
  | SList l r =>
      ok ← fork1;
      if (ok : bool) then runcmd l f;; runcmd r f else mret tt
  | SPipe l r =>
      s ← get;
      match pipe_fds (sh_pipes s) f with
      | None => log (Says "pipe" [])
      | Some (p0, p1, f) =>
          modify (λ s, mk_sh (sh_forks s) (S (sh_pipes s)) (sh_log s));;
          ok ← fork1;
          if (ok : bool) then
            runcmd l (close_fd p1 (close_fd p0 (dup_fd p1 (close_fd 1 f))));;
            ok ← fork1;
            if (ok : bool) then runcmd r (close_fd p1 (close_fd p0 (dup_fd p0 (close_fd 0 f)))) else mret tt
          else mret tt
      end
  | SBack sub =>
      ok ← fork1;
      if (ok : bool) then runcmd sub f else mret tt
  end.

(** * The main loop *)

Definition console : word := chars "console".

(** The loop that opens the console until three descriptors are open. *)
Fixpoint open_console (fuel : nat) (f : fds) : option fds :=
  match fuel with
  | O => None
  | S fuel =>
      match open_fd console O_RDWR f with
      | None => Some f
      | Some (fd, f) => if (3 <=? fd)%nat then Some (close_fd fd f) else open_console fuel f
      end
  end.

(** gets (ulib.c) with room for [n] more bytes: the line and the input that is left. *)
Fixpoint ugets (n : nat) (input : list Z) : list Z * list Z :=
  match n, input with
  | S n, c :: input =>
      if (c =? 10) || (c =? 13) then ([c], input) else let '(l, r) := ugets n input in (c :: l, r)
  | _, _ => ([], input)
  end.

(** The line, up to a NUL; [None] at the end of the input. *)
Definition getcmd (nbuf : nat) (input : list Z) : option (list Z * list Z) :=
  let '(l, r) := ugets (nbuf - 1) input in
  match upto_nul l with
  | [] => None
  | l => Some (l, r)
  end.

Definition is_cd (l : list Z) : bool := bool_decide (take 3 l = chars "cd ").

(** The child that runs a line. *)
Definition run_line (l : list Z) (f : fds) : M sh unit :=
  match parsecmd l tt with
  | Ok (c, buf, _) => runcmd (strings_of (length l) buf c) f
  | Panic msg => log (Says msg [])
  | Fault => fault
  | Blocked => blocked
  | NoFuel => nofuel
  end.

Fixpoint main_loop (fuel : nat) (input : list Z) (f : fds) : M sh unit :=
  match fuel with
  | O => nofuel
  | S fuel =>
      match getcmd 100 input with
      | None => mret tt
      | Some (l, rest) =>
          if is_cd l then
            let path := drop 3 (removelast l) in
            (if can_chdir path then log (Chdir path) else log (Says "cannot cd %s" path));;
            main_loop fuel rest f
          else
            ok ← fork1;
            if (ok : bool) then run_line l f;; main_loop fuel rest f else mret tt
      end
  end.

(** Every round takes a byte of the input. *)
Definition main (input : list Z) (f : fds) : M sh unit :=
  match open_console (S (length f)) f with
  | None => nofuel
  | Some f => main_loop (S (length input)) input f
  end.

(** * What a line asks for

    The programs with their standard input, output and error; [n] is the number of pipes
    so far. *)
Definition std (i o e : obj) : fds := [Some i; Some o; Some e] ++ replicate 13 None.

Fixpoint wiring (c : scmd) (i o e : obj) (n : nat) : list event * nat :=
  match c with
  | SExec [] => ([], n)
  | SExec (a :: argv) => ([if can_exec a then Run (a :: argv) (std i o e) else Says "exec %s failed" a], n)
  | SRedir sub file mode fd =>
      if can_open file mode then
        if fd =? 0 then wiring sub (OFile file mode) o e n else wiring sub i (OFile file mode) e n
      else ([Says "open %s failed" file], n)
  | SList l r =>
      let '(e1, n1) := wiring l i o e n in
      let '(e2, n2) := wiring r i o e n1 in (e1 ++ e2, n2)
  | SPipe l r =>
      let '(e1, n1) := wiring l i (OWrite n) e (S n) in
      let '(e2, n2) := wiring r (ORead n) o e n1 in (e1 ++ e2, n2)
  | SBack sub => wiring sub i o e n
  end.

(** Redirections are of the standard input or output. *)
Fixpoint std_fds (c : scmd) : Prop :=
  match c with
  | SExec _ => True
  | SRedir sub _ _ fd => (fd = 0 ∨ fd = 1) ∧ std_fds sub
  | SList l r | SPipe l r => std_fds l ∧ std_fds r
  | SBack sub => std_fds sub
  end.

(** * Proofs *)

Section forks.
  Context (Hfork : ∀ n, can_fork n = true).

(** What a process has done: the log has these events more. *)
Definition did (s : sh) (w : list event * nat) (_ : unit) (s' : sh) : Prop := sh_log s' = sh_log s ++ w.1 ∧ sh_pipes s' = w.2.

Lemma runs_fork {A} (k : bool → M sh A) s Q : (∀ s', sh_log s' = sh_log s → sh_pipes s' = sh_pipes s → runs (k true) s' Q) → runs (fork1 ≫= k) s Q.
Proof.
  intros H. apply runs_bind. unfold fork1. apply runs_bind, runs_get, runs_bind, runs_modify. rewrite Hfork. apply runs_ret. by apply H.
Qed.

Lemma runs_seq (m1 m2 : M sh unit) s w1 (w2 : nat → list event * nat) : runs m1 s (did s w1) → (∀ s', runs m2 s' (did s' (w2 (sh_pipes s')))) →
  runs (m1;; m2) s (did s (w1.1 ++ (w2 w1.2).1, (w2 w1.2).2)).
Proof.
  intros H1 H2. apply runs_bind. eapply runs_mono; [exact H1|]. intros [] s1 [E1 P1]. eapply runs_mono; [apply H2|]. intros [] s2 [E2 P2]. rewrite P1 in E2, P2.
  split; cbn; [by rewrite E2, E1, app_assoc|done].
Qed.

Lemma did_from s s' w : sh_log s' = sh_log s → ∀ u s2, did s' w u s2 → did s w u s2.
Proof. intros E u s2 [H1 H2]. split; [by rewrite H1, E|done]. Qed.

Lemma runs_log ev s n : sh_pipes s = n → runs (log ev) s (did s ([ev], n)).
Proof. intros <-. apply runs_modify. by split. Qed.

Lemma runcmd_wires c : ∀ i o e s, std_fds c → runs (runcmd c (std i o e)) s (did s (wiring c i o e (sh_pipes s))).
Proof.
  induction c as [argv|sub IH file mode fd|l IHl r IHr|l IHl r IHr|sub IH]; intros i o e s Hc; cbn [runcmd wiring].
  - destruct argv as [|a argv]; [apply runs_ret; split; cbn; by rewrite ?app_nil_r|]. destruct (can_exec a); by apply runs_log.
  - destruct Hc as [Hfd Hc]. unfold open_fd. destruct (can_open file mode); [|by apply runs_log].
    destruct Hfd as [-> | ->]; cbn [Z.eqb]; [apply (IH (OFile file mode) o e s Hc)|apply (IH i (OFile file mode) e s Hc)].
  - destruct Hc as [Hl Hr]. apply runs_bind, runs_get. cbn [pipe_fds std alloc_fd find_idx is_free app fmap option_fmap option_map list_insert insert replicate].
    apply runs_bind, runs_modify. apply runs_fork. intros s1 E1 P1. rewrite (surjective_pairing (wiring l _ _ _ _)), (surjective_pairing (wiring r _ _ _ _)).
    eapply runs_mono; [apply (runs_seq _ _ s1 (wiring l i (OWrite (sh_pipes s)) e (S (sh_pipes s))) (wiring r (ORead (sh_pipes s)) o e))|].
    + cbn in P1. rewrite <- P1. apply (IHl i (OWrite (sh_pipes s)) e s1 Hl).
    + intros s2. apply runs_fork. intros s3 E3 P3. rewrite <- P3. eapply runs_mono; [apply (IHr (ORead (sh_pipes s)) o e s3 Hr)|]. intros u s4. by apply did_from.
    + intros u s4. by apply did_from.
  - destruct Hc as [Hl Hr]. apply runs_fork. intros s1 E1 P1. rewrite (surjective_pairing (wiring l _ _ _ _)), (surjective_pairing (wiring r _ _ _ _)).
    eapply runs_mono; [apply (runs_seq _ _ s1 (wiring l i o e (sh_pipes s)) (wiring r i o e))|].
    + rewrite <- P1. by apply IHl.
    + intros s2. by apply IHr.
    + intros u s4. by apply did_from.
  - apply runs_fork. intros s1 E1 P1. rewrite <- P1. eapply runs_mono; [by apply IH|]. intros u s2. by apply did_from.
Qed.

(** The meaning of a line redirects only the standard input and output. *)
Lemma redirected_std rs : ∀ d, std_fds d → std_fds (redirected d rs).
Proof. induction rs as [|[k w] rs IH]; intros d Hd; cbn; [done|]. apply IH. split; [destruct k; auto|done]. Qed.

Lemma backs_std n d : std_fds d → std_fds (backs n d).
Proof. by induction n. Qed.

Lemma meaning_std l : std_fds (meaning l).
Proof.
  apply (line_mut (λ l, std_fds (meaning l)) (λ p, std_fds (meaning_p p)) (λ e, std_fds (meaning_e e))); cbn; auto using backs_std, redirected_std.
  intros rs args. by apply redirected_std, redirected_std.
Qed.

(** ** A session *)

(** A line that is typed: a directory to go to, or a command. *)
Inductive entry := ECd (path : word) | ECmd (text : list Z) (l : line).

Definition text_of (x : entry) : list Z := match x with ECd path => chars "cd " ++ path ++ [10] | ECmd text _ => text ++ [10] end.

Definition entry_ok (x : entry) : Prop :=
  let body := match x with ECd path => chars "cd " ++ path | ECmd text _ => text end in
  Forall (λ c, c ≠ 0 ∧ c ≠ 10 ∧ c ≠ 13) body ∧ (length body < 99)%nat ∧
  match x with ECd _ => True | ECmd text l => spells (toks l) (text ++ [10]) ∧ short l ∧ is_cd (text ++ [10]) = false end.

(** What the lines ask for. *)
Fixpoint session (es : list entry) (i o e : obj) (n : nat) : list event * nat :=
  match es with
  | [] => ([], n)
  | ECd path :: es => let '(ev, n') := session es i o e n in ((if can_chdir path then Chdir path else Says "cannot cd %s" path) :: ev, n')
  | ECmd _ l :: es =>
      let '(e1, n1) := wiring (meaning l) i o e n in
      let '(e2, n2) := session es i o e n1 in (e1 ++ e2, n2)
  end.

Lemma ugets_line body rest : ∀ n, Forall (λ c, c ≠ 0 ∧ c ≠ 10 ∧ c ≠ 13) body → (length body < n)%nat → ugets n (body ++ 10 :: rest) = (body ++ [10], rest).
Proof.
  induction body as [|c body IH]; intros n Hb Hn; (destruct n as [|n]; [cbn in Hn; lia|]); [done|]. apply Forall_cons in Hb as [(_ & H1 & H2) Hb]. cbn in *.
  rewrite (proj2 (Z.eqb_neq c 10)), (proj2 (Z.eqb_neq c 13)) by done. cbn. by rewrite IH by (done || lia).
Qed.

Lemma upto_nul_id l : Forall (λ c, c ≠ 0) l → upto_nul l = l.
Proof. induction 1 as [|c l Hc _ IH]; cbn; [done|]. by rewrite (proj2 (Z.eqb_neq c 0)), IH by done. Qed.

Lemma body_nonzero body : Forall (λ c, c ≠ 0 ∧ c ≠ 10 ∧ c ≠ 13) body → Forall (λ c, c ≠ 0) (body ++ [10]).
Proof. intros H. apply Forall_app. split; [|by repeat constructor]. eapply Forall_impl; [exact H|]. by intros c []. Qed.

Lemma getcmd_line body rest : Forall (λ c, c ≠ 0 ∧ c ≠ 10 ∧ c ≠ 13) body → (length body < 99)%nat → getcmd 100 (body ++ 10 :: rest) = Some (body ++ [10], rest).
Proof.
  intros Hb Hl. unfold getcmd. change (100 - 1)%nat with 99%nat. rewrite ugets_line by done. rewrite upto_nul_id by by apply body_nonzero. by destruct body.
Qed.

Lemma run_line_wires text l i o e s : spells (toks l) text → Forall (λ c, c ≠ 0) text → short l →
  runs (run_line text (std i o e)) s (did s (wiring (meaning l) i o e (sh_pipes s))).
Proof.
  intros Hsp Hnz Hsh. destruct (parsecmd_runs l text Hsp Hnz Hsh) as ([c buf] & [] & E & Es). unfold run_line. rewrite E. cbn in Es. rewrite Es. apply runcmd_wires, meaning_std.
Qed.

Lemma main_session es : ∀ fuel i o e s, Forall entry_ok es → (length es < fuel)%nat →
  runs (main_loop fuel (es ≫= text_of) (std i o e)) s (did s (session es i o e (sh_pipes s))).
Proof.
  induction es as [|x es IH]; intros fuel i o e s Hes Hf; (destruct fuel as [|fuel]; [cbn in Hf; lia|]); cbn [main_loop].
  - cbn. apply runs_ret. split; cbn; [by rewrite app_nil_r|done].
  - apply Forall_cons in Hes as [(Hb & Hl & Hx) Hes]. cbn in Hf. destruct x as [path|text l]; cbn [mbind list_bind text_of session]; fold (es ≫= text_of).
    + rewrite <- !app_assoc. cbn [app]. rewrite (app_assoc (chars "cd ") path), getcmd_line by done.
      assert (Ecd : is_cd ((chars "cd " ++ path) ++ [10]) = true) by (unfold is_cd; rewrite <- app_assoc; by apply bool_decide_eq_true_2).
      rewrite Ecd. cbv zeta. rewrite removelast_last. change (drop 3 (chars "cd " ++ path)) with path. rewrite (surjective_pairing (session es _ _ _ _)).
      set (ev := if can_chdir path then Chdir path else _). replace (if can_chdir path then log (Chdir path) else _) with (log ev) by (unfold ev; by destruct (can_chdir path)).
      apply (runs_seq _ _ s ([ev], sh_pipes s) (session es i o e)); [by apply runs_log|]. intros s'. apply IH; [done|lia].
    + destruct Hx as (Hsp & Hsh & Hcd). rewrite <- app_assoc. cbn [app]. rewrite getcmd_line by done. rewrite Hcd. apply runs_fork. intros s1 E1 P1.
      rewrite (surjective_pairing (wiring _ _ _ _ _)), (surjective_pairing (session es _ _ _ _)).
      eapply runs_mono; [apply (runs_seq _ _ s1 (wiring (meaning l) i o e (sh_pipes s)) (session es i o e))|].
      * rewrite <- P1. by apply run_line_wires; [|apply body_nonzero|].
      * intros s2. apply IH; [done|lia].
      * intros u s2. by apply did_from.
Qed.

(** ** The three standard descriptors *)

(** A descriptor that was closed is the console. *)
Definition or_console (o : option obj) : obj := default (OFile console O_RDWR) o.

Lemma open_console_std a b c : can_open console O_RDWR = true →
  open_console 17 ([a; b; c] ++ replicate 13 None) = Some (std (or_console a) (or_console b) (or_console c)).
Proof. intros H. cbn [open_console]. unfold open_fd. rewrite H. by destruct a, b, c. Qed.

Lemma session_fuel es : Forall entry_ok es → (length es ≤ length (es ≫= text_of))%nat.
Proof. induction 1 as [|x es _ _ IH]; cbn; [lia|]. rewrite length_app. destruct x; cbn; rewrite ?length_app; cbn; lia. Qed.

(** C34. A session of the shell, whatever of the standard descriptors is open at first:
    every program that the lines ask for is started, with the arguments and with the
    standard input, output and error that the line says, a pipe connecting exactly its
    two sides, and with no other descriptor open; a file that cannot be opened stops only
    its own command, and cd changes the directory of the shell itself. *)
Theorem shell_session es a b c s : can_open console O_RDWR = true → Forall entry_ok es →
  runs (main (es ≫= text_of) ([a; b; c] ++ replicate 13 None)) s (did s (session es (or_console a) (or_console b) (or_console c) (sh_pipes s))).
Proof.
  intros Hc Hes. unfold main. change (S (length ([a; b; c] ++ replicate 13 None))) with 17%nat. rewrite open_console_std by done.
  apply main_session; [done|]. pose proof (session_fuel es Hes). lia.
Qed.
End forks.
End run.

(** ** An example *)

Definition es_ex : list entry :=
  [ECd (chars "/home"); ECmd (chars "cat < in | (grep a; wc) > out &") (Last (Bar (Simple [] [(chars "cat", [(RIn, chars "in")])])
     (One (Block (Seq (One (Simple [] [(chars "grep", []); (chars "a", [])])) 0 (Last (One (Simple [] [(chars "wc", [])])) 0)) [(ROut, chars "out")]))) 1);
   ECmd (chars "echo hi") (Last (One (Simple [] [(chars "echo", []); (chars "hi", [])])) 0)].

Lemma shell_session_witness :
  session (λ _ _, true) (λ _, true) (λ _, true) es_ex (OTerm 0) (OFile console O_RDWR) (OTerm 2) 0 =
    ([Chdir (chars "/home"); Run [chars "cat"] (std (OFile (chars "in") O_RDONLY) (OWrite 0) (OTerm 2));
      Run [chars "grep"; chars "a"] (std (ORead 0) (OFile (chars "out") (Z.lor O_WRONLY O_CREATE)) (OTerm 2));
      Run [chars "wc"] (std (ORead 0) (OFile (chars "out") (Z.lor O_WRONLY O_CREATE)) (OTerm 2));
      Run [chars "echo"; chars "hi"] (std (OTerm 0) (OFile console O_RDWR) (OTerm 2))], 1%nat) ∧
  runs (main (λ _ _, true) (λ _, true) (λ _, true) (λ _, true) (es_ex ≫= text_of) ([Some (OTerm 0); None; Some (OTerm 2)] ++ replicate 13 None)) (mk_sh 0 0 [])
    (did (mk_sh 0 0 []) (session (λ _ _, true) (λ _, true) (λ _, true) es_ex (OTerm 0) (OFile console O_RDWR) (OTerm 2) 0)).
Proof.
  split; [by vm_compute|].
  apply (shell_session (λ _ _, true) (λ _, true) (λ _, true) (λ _, true) ltac:(done) es_ex (Some (OTerm 0)) None (Some (OTerm 2)) (mk_sh 0 0 [])); [done|].
  repeat constructor; cbn; try lia; try (by apply lex_spells; vm_compute); unfold MAXARGS; try done; try lia.
Defined.
