(* ===== verification/Grep.v ===== *)
(** The programs grep, wc and cat (grep.c, wc.c, cat.c): the matcher of regular
    expressions, proved to decide the language of the expression, and the loops that read
    their input piece by piece, proved not to depend on how it is cut where that is so.

    A string is the list of its bytes up to the NUL. *)
From Stdlib Require Import ZArith Lia Bool Ascii.
From stdpp Require Import base tactics list list_numbers strings sets.
From S2P Require Import Prelude Machine.

(** * The matcher *)

(** [matchhere] on the expression after the star is the argument [mh]. *)
Fixpoint matchstar (mh : list Z → bool) (c : Z) (text : list Z) : bool :=
  if mh text then true else
  match text with
  | [] => false
  | t :: text => if (t =? c) || (c =? ch ".") then matchstar mh c text else false
  end.

Fixpoint matchhere (re text : list Z) : bool :=
  match re with
  | [] => true
  | c :: re1 =>
      let single :=
        match text with
        | [] => false
        | t :: text => if (c =? ch ".") || (c =? t) then matchhere re1 text else false
        end in
      match re1 with
      | [] => if c =? ch "$" then match text with [] => true | _ => false end else single
      | c2 :: re2 => if c2 =? ch "*" then matchstar (matchhere re2) c text else single
      end
  end.

Fixpoint match_anywhere (re text : list Z) : bool :=
  if matchhere re text then true else
  match text with
  | [] => false
  | _ :: text => match_anywhere re text
  end.

(** [match] of grep.c. *)
Definition re_match (re text : list Z) : bool :=
  match re with
  | c :: re1 => if c =? ch "^" then matchhere re1 text else match_anywhere re text
  | [] => match_anywhere re text
  end.

(** * Reading

    The input is the list of the pieces in which it arrives; a read takes what there is
    of the first piece, and nothing at the end of the input. *)
Definition read (n : nat) (input : list (list Z)) : list Z * list (list Z) :=
  match input with
  | [] => ([], [])
  | c :: input => if (length c <=? n)%nat then (c, input) else (take n c, drop n c :: input)
  end.

(** * grep *)

(** The line up to a newline and what follows it: strchr does not look beyond a NUL. *)
Fixpoint find_nl (p : list Z) : option (list Z * list Z) :=
  match p with
  | [] => None
  | c :: p =>
      if c =? 0 then None else
      if c =? 10 then Some ([], p) else
      match find_nl p with
      | None => None
      | Some (l, r) => Some (c :: l, r)
      end
  end.

(** The lines of the buffer: what is printed, and where [p] is in the end. *)
Fixpoint grep_lines (fuel : nat) (pattern p : list Z) : list Z * list Z :=
  match fuel with
  | O => ([], p)
  | S fuel =>
      match find_nl p with
      | None => ([], p)
      | Some (l, r) => let '(o, p) := grep_lines fuel pattern r in ((if re_match pattern l then l ++ [10] else []) ++ o, p)
      end
  end.

(** [buf] is the first [m] bytes of the buffer. *)
Fixpoint grep (fuel : nat) (pattern buf : list Z) (input : list (list Z)) : option (list Z) :=
  match fuel with
  | O => None
  | S fuel =>
      let '(got, input) := read (1024 - length buf - 1) input in
      match got with
      | [] => Some []
      | _ =>
          let buf := buf ++ got in
          let '(o, p) := grep_lines (length buf) pattern buf in
          let buf := if (length p =? length buf)%nat then [] else p in
          match grep fuel pattern buf input with
          | None => None
          | Some o' => Some (o ++ o')
          end
      end
  end.

(** * wc *)

Record wcount := mk_wc { w_l : Z; w_w : Z; w_c : Z; w_in : bool }.

Definition wc_char (s : wcount) (b : Z) : wcount :=
  let c := s32 (w_c s + 1) in
  let l := if b =? 10 then s32 (w_l s + 1) else w_l s in
  if existsb (Z.eqb b) [32; 13; 9; 10; 11] then mk_wc l (w_w s) c false
  else if negb (w_in s) then mk_wc l (s32 (w_w s + 1)) c true
  else mk_wc l (w_w s) c (w_in s).

Fixpoint wc (fuel : nat) (s : wcount) (input : list (list Z)) : option wcount :=
  match fuel with
  | O => None
  | S fuel =>
      let '(got, input) := read 512 input in
      match got with
      | [] => Some s
      | _ => wc fuel (foldl wc_char s got) input
      end
  end.

(** * cat *)

(** What is written, when every write takes all it is given. *)
Fixpoint cat (fuel : nat) (input : list (list Z)) : option (list Z) :=
  match fuel with
  | O => None
  | S fuel =>
      let '(got, input) := read 512 input in
      match got with
      | [] => Some []
      | _ => match cat fuel input with None => None | Some o => Some (got ++ o) end
      end
  end.

(** * The language of an expression *)

(** A character, or any for the dot; once or any number of times. *)
Inductive item := ILit (c : option Z) | IStar (c : option Z).

Definition sym (c : Z) : option Z := if c =? ch "." then None else Some c.
Definition accepts (s : option Z) (t : Z) : Prop := match s with None => True | Some c => t = c end.

(** The items of an expression, and whether it ends in a dollar. *)
Fixpoint items (re : list Z) : list item * bool :=
  match re with
  | [] => ([], false)
  | c :: re1 =>
      match re1 with
      | [] => if c =? ch "$" then ([], true) else ([ILit (sym c)], false)
      | c2 :: re2 =>
          if c2 =? ch "*" then let '(its, d) := items re2 in (IStar (sym c) :: its, d)
          else let '(its, d) := items re1 in (ILit (sym c) :: its, d)
      end
  end.

Inductive lang : list item → list Z → Prop :=
  | lang_nil : lang [] []
  | lang_lit c t its w : accepts c t → lang its w → lang (ILit c :: its) (t :: w)
  | lang_star c u its w : Forall (accepts c) u → lang its w → lang (IStar c :: its) (u ++ w).

(** The expression matches at the beginning of the text, up to its end after a dollar. *)
Definition here (e : list item * bool) (text : list Z) : Prop :=
  ∃ w post, text = w ++ post ∧ lang e.1 w ∧ (e.2 = true → post = []).

(** The text has a part in the language of the expression; at its beginning after ^. *)
Definition denotes (re text : list Z) : Prop :=
  match re with
  | c :: re1 => if c =? ch "^" then here (items re1) text else ∃ pre post, text = pre ++ post ∧ here (items re) post
  | [] => ∃ pre post, text = pre ++ post ∧ here (items re) post
  end.

(** The complete lines of a text and the rest of it. *)
Fixpoint cut (t : list Z) : list (list Z) * list Z :=
  match t with
  | [] => ([], [])
  | c :: t =>
      let '(ls, r) := cut t in
      if c =? 10 then ([] :: ls, r) else
      match ls with
      | [] => ([], c :: r)
      | l :: ls => ((c :: l) :: ls, r)
      end
  end.

Definition printed (pattern : list Z) (ls : list (list Z)) : list Z := ls ≫= λ l, if re_match pattern l then l ++ [10] else [].

(** Every piece has a newline and fits in the buffer behind what is left of the last. *)
Fixpoint fits (rest : list Z) (input : list (list Z)) : Prop :=
  match input with
  | [] => True
  | c :: input => 10 ∈ c ∧ 0 ∉ c ∧ (length rest + length c ≤ 1023)%nat ∧ fits (cut (rest ++ c)).2 input
  end.

(** * The matcher decides the language *)

Lemma matchstar_spec mh c (P : list Z → Prop) : (∀ text, mh text = true ↔ P text) →
  ∀ text, matchstar mh c text = true ↔ ∃ u v, text = u ++ v ∧ Forall (accepts (sym c)) u ∧ P v.
Proof.
  intros Hmh. assert (Hacc : ∀ t, (t =? c) || (c =? ch ".") = true ↔ accepts (sym c) t).
  { intros t. unfold sym. rewrite orb_true_iff, !Z.eqb_eq. destruct (Z.eqb_spec c (ch ".")); cbn; tauto. }
  induction text as [|t text IH]; cbn; destruct (mh _) eqn:E.
  - split; [|done]. intros _. exists [], []. split_and!; [done|done|by apply Hmh].
  - split; [done|]. intros (u & v & Euv & _ & HP). symmetry in Euv. apply app_nil in Euv as [-> ->]. apply Hmh in HP. congruence.
  - split; [|done]. intros _. exists [], (t :: text). split_and!; [done|done|by apply Hmh].
  - destruct (_ || _) eqn:Ea.
    + rewrite IH. split; intros (u & v & Et & Hu & HP).
      * exists (t :: u), v. split_and!; [by rewrite Et|constructor; [by apply Hacc|done]|done].
      * destruct u as [|t' u]; [cbn in Et; subst v; apply Hmh in HP; congruence|]. injection Et as -> ->. apply Forall_cons in Hu as [_ Hu]. by exists u, v.
    + split; [done|]. intros (u & v & Et & Hu & HP). destruct u as [|t' u]; [cbn in Et; subst v; apply Hmh in HP; congruence|].
      injection Et as -> ->. apply Forall_cons in Hu as [Ht _]. apply Hacc in Ht. congruence.
Qed.

Lemma here_star c its d text : here (IStar c :: its, d) text ↔ ∃ u v, text = u ++ v ∧ Forall (accepts c) u ∧ here (its, d) v.
Proof.
  split.
  - intros (w & post & -> & Hl & Hd). inversion Hl as [| |c' u its' w' Hu Hw]; subst. exists u, (w' ++ post). split_and!; [by rewrite app_assoc|done|]. by exists w', post.
  - intros (u & v & -> & Hu & w & post & -> & Hw & Hd). exists (u ++ w), post. split_and!; [by rewrite app_assoc|by constructor|done].
Qed.

Lemma here_lit c its d text : here (ILit c :: its, d) text ↔ ∃ t v, text = t :: v ∧ accepts c t ∧ here (its, d) v.
Proof.
  split.
  - intros (w & post & -> & Hl & Hd). inversion Hl as [|c' t its' w' Ht Hw|]; subst. exists t, (w' ++ post). split_and!; [done|done|]. by exists w', post.
  - intros (t & v & -> & Ht & w & post & -> & Hw & Hd). exists (t :: w), post. split_and!; [done|by constructor|done].
Qed.

Lemma single_spec c its d text (mh : list Z → bool) : (∀ text, mh text = true ↔ here (its, d) text) →
  match text with [] => false | t :: text => if (c =? ch ".") || (c =? t) then mh text else false end = true ↔ here (ILit (sym c) :: its, d) text.
Proof.
  intros Hmh. rewrite here_lit. assert (Hacc : ∀ t, (c =? ch ".") || (c =? t) = true ↔ accepts (sym c) t).
  { intros t. unfold sym. rewrite orb_true_iff, !Z.eqb_eq. destruct (Z.eqb_spec c (ch ".")); cbn; naive_solver. }
  destruct text as [|t text]; [split; [done|]; by intros (? & ? & ? & _)|]. destruct (_ || _) eqn:E.
  - rewrite Hmh. split; [intros H; exists t, text; split_and!; [done|by apply Hacc|done]|]. by intros (t' & v & [= -> ->] & _ & H).
  - split; [done|]. intros (t' & v & [= -> ->] & Ha & _). apply Hacc in Ha. congruence.
Qed.

Lemma matchhere_unfold c re1 text : matchhere (c :: re1) text =
  let single := match text with [] => false | t :: text => if (c =? ch ".") || (c =? t) then matchhere re1 text else false end in
  match re1 with
  | [] => if c =? ch "$" then match text with [] => true | _ => false end else single
  | c2 :: re2 => if c2 =? ch "*" then matchstar (matchhere re2) c text else single
  end.
Proof. done. Qed.

Lemma items_unfold c re1 : items (c :: re1) =
  match re1 with
  | [] => if c =? ch "$" then ([], true) else ([ILit (sym c)], false)
  | c2 :: re2 =>
      if c2 =? ch "*" then let '(its, d) := items re2 in (IStar (sym c) :: its, d)
      else let '(its, d) := items re1 in (ILit (sym c) :: its, d)
  end.
Proof. done. Qed.

Lemma matchhere_spec n : ∀ re text, (length re ≤ n)%nat → matchhere re text = true ↔ here (items re) text.
Proof.
  induction n as [|n IH]; intros re text Hn; (destruct re as [|c re1]; [split; [intros _; exists [], text; split_and!; [done|constructor|done]|done]|]); [cbn in Hn; lia|].
  rewrite matchhere_unfold, items_unfold. cbv zeta. destruct re1 as [|c2 re2].
  - destruct (Z.eqb_spec c (ch "$")) as [->|Hd]; [|apply (single_spec c [] false text (matchhere [])); intros t; by apply (IH []); cbn; lia].
    split.
    + destruct text; [|done]. intros _. exists [], []. split_and!; [done|constructor|done].
    + intros (w & post & -> & Hl & Hp). inversion Hl; subst. by rewrite Hp.
  - destruct (c2 =? ch "*").
    + destruct (items re2) as [its d] eqn:Ei. rewrite here_star. apply matchstar_spec. intros t. rewrite <- Ei. apply IH. cbn in Hn. lia.
    + destruct (items (c2 :: re2)) as [its d] eqn:Ei. apply (single_spec c its d text (matchhere (c2 :: re2))). intros t. rewrite <- Ei. apply IH. cbn in *. lia.
Qed.

Lemma match_anywhere_spec re text : match_anywhere re text = true ↔ ∃ pre post, text = pre ++ post ∧ here (items re) post.
Proof.
  induction text as [|t text IH]; cbn; destruct (matchhere re _) eqn:E.
  - split; [|done]. intros _. exists [], []. split; [done|]. by apply (matchhere_spec (length re)).
  - split; [done|]. intros (pre & post & Et & H). symmetry in Et. apply app_nil in Et as [-> ->]. apply (matchhere_spec (length re)) in H; [congruence|done].
  - split; [|done]. intros _. exists [], (t :: text). split; [done|]. by apply (matchhere_spec (length re)).
  - rewrite IH. split; intros (pre & post & Et & H); [exists (t :: pre), post; by rewrite Et|]. destruct pre as [|t' pre]; [|injection Et as -> ->; by exists pre, post].
    cbn in Et. subst post. apply (matchhere_spec (length re)) in H; [congruence|done].
Qed.

Lemma re_match_spec re text : re_match re text = true ↔ denotes re text.
Proof.
  unfold re_match, denotes. destruct re as [|c re1]; [apply match_anywhere_spec|]. destruct (c =? ch "^"); [by apply (matchhere_spec (length re1))|apply match_anywhere_spec].
Qed.

(** * Reading in pieces *)

Lemma read_spec n input got input' : (0 < n)%nat → Forall (λ c, c ≠ []) input → read n input = (got, input') →
  concat input = got ++ concat input' ∧ Forall (λ c, c ≠ []) input' ∧ (got = [] → input = []).
Proof.
  intros Hn Hin. destruct input as [|c input]; cbn; [by intros [= <- <-]|]. apply Forall_cons in Hin as [Hc Hin]. destruct (Nat.leb_spec (length c) n) as [Hl|Hl]; intros [= <- <-].
  - split_and!; [done|done|]. by intros ->.
  - split_and!.
    + cbn. by rewrite app_assoc, take_drop.
    + constructor; [|done]. intros E. assert (H : length (drop n c) = 0%nat) by by rewrite E. rewrite length_drop in H. lia.
    + intros E. destruct c; [done|]. destruct n; [lia|]. done.
Qed.

(** cat puts out what comes in. *)
Lemma cat_all fuel : ∀ input, Forall (λ c, c ≠ []) input → (length (concat input) < fuel)%nat → cat fuel input = Some (concat input).
Proof.
  induction fuel as [|fuel IH]; intros input Hin Hf; [lia|]. cbn [cat]. destruct (read 512 input) as [got input'] eqn:E.
  destruct (read_spec 512 _ _ _ ltac:(lia) Hin E) as (Ec & Hin' & He). destruct got as [|c got]; [by rewrite (He eq_refl)|]. rewrite Ec, length_app in Hf. cbn in Hf.
  rewrite IH by (done || lia). by rewrite Ec.
Qed.

(** wc counts over the whole input. *)
Lemma wc_all fuel : ∀ s input, Forall (λ c, c ≠ []) input → (length (concat input) < fuel)%nat → wc fuel s input = Some (foldl wc_char s (concat input)).
Proof.
  induction fuel as [|fuel IH]; intros s input Hin Hf; [lia|]. cbn [wc]. destruct (read 512 input) as [got input'] eqn:E.
  destruct (read_spec 512 _ _ _ ltac:(lia) Hin E) as (Ec & Hin' & He). destruct got as [|c got]; [by rewrite (He eq_refl)|]. rewrite Ec, length_app in Hf. cbn in Hf.
  rewrite IH by (done || lia). by rewrite Ec, foldl_app.
Qed.

(** The words of a text, when [cur] is the beginning of one. *)
Definition is_space (b : Z) : bool := existsb (Z.eqb b) [32; 13; 9; 10; 11].
Fixpoint words (cur t : list Z) : list (list Z) :=
  match t with
  | [] => if decide (cur = []) then [] else [cur]
  | b :: t =>
      if is_space b then (if decide (cur = []) then words [] t else cur :: words [] t)
      else words (cur ++ [b]) t
  end.

Lemma cut_cons c t : length (cut (c :: t)).1 = ((if (c =? 10)%Z then 1 else 0) + length (cut t).1)%nat.
Proof. cbn. destruct (cut t) as [ls r]. destruct (c =? 10); [done|]. by destruct ls. Qed.

Lemma wc_counts t : ∀ s cur, (w_in s = true ↔ cur ≠ []) → 0 ≤ w_l s ≤ w_c s → 0 ≤ w_w s ≤ w_c s → w_c s + Z.of_nat (length t) < 2 ^ 31 →
  let s' := foldl wc_char s t in
  w_c s' = w_c s + Z.of_nat (length t) ∧ w_l s' = w_l s + Z.of_nat (length (cut t).1) ∧
  w_w s' = w_w s + Z.of_nat (length (words cur t)) - (if w_in s then 1 else 0).
Proof.
  induction t as [|b t IH]; intros s cur Hin Hl Hw Hb; [cbn; destruct (w_in s), (decide (cur = [])); cbn; naive_solver lia|].
  cbn [foldl length] in *. rewrite cut_cons. set (s1 := wc_char s b). set (cur1 := if is_space b then [] else cur ++ [b]).
  assert (Hs1 : w_c s1 = w_c s + 1 ∧ w_l s1 = w_l s + (if b =? 10 then 1 else 0) ∧ w_in s1 = negb (is_space b) ∧
    w_w s1 = w_w s + (if is_space b || w_in s then 0 else 1)).
  { unfold s1, wc_char. fold (is_space b). rewrite !s32_small by lia. destruct (is_space b), (w_in s), (b =? 10); cbn; split_and!; lia || done. }
  destruct Hs1 as (E1 & E2 & E3 & E4). destruct (IH s1 cur1) as (R1 & R2 & R3).
  { rewrite E3. unfold cur1. destruct (is_space b); cbn; [done|]. split; [|done]. intros _ H. by apply app_nil in H as [_ ?]. }
  { rewrite E1, E2. destruct (b =? 10); lia. }
  { rewrite E1, E4. destruct (_ || _); lia. }
  { lia. }
  cbv zeta in *. rewrite R1, R2, R3, E1, E2, E3, E4. split; [lia|]. split; [destruct (b =? 10); lia|].
  unfold cur1. cbn [words]. destruct (is_space b); cbn [negb orb]; [|destruct (w_in s); lia]. destruct (w_in s), (decide (cur = [])); cbn [length]; naive_solver lia.
Qed.

(** * grep prints the lines that match *)

Lemma find_nl_cut p : 0 ∉ p → match find_nl p with None => cut p = ([], p) | Some (l, r) => cut p = (l :: (cut r).1, (cut r).2) ∧ (length r < length p)%nat ∧ 0 ∉ r end.
Proof.
  induction p as [|c p IH]; intros H0; cbn; [done|]. apply not_elem_of_cons in H0 as [Hc H0]. rewrite (proj2 (Z.eqb_neq c 0)) by done. specialize (IH H0).
  destruct (c =? 10); [destruct (cut p); split_and!; [done|lia|done]|]. destruct (find_nl p) as [[l r]|].
  - destruct IH as (-> & Hl & Hr). split_and!; [done|lia|done].
  - by rewrite IH.
Qed.

Lemma grep_lines_spec pattern fuel : ∀ p, 0 ∉ p → (length p ≤ fuel)%nat → grep_lines fuel pattern p = (printed pattern (cut p).1, (cut p).2).
Proof.
  induction fuel as [|fuel IH]; intros p H0 Hf; [destruct p; [done|cbn in Hf; lia]|]. cbn [grep_lines]. pose proof (find_nl_cut p H0) as H. destruct (find_nl p) as [[l r]|]; [|by rewrite H].
  destruct H as (-> & Hl & Hr). rewrite IH by (done || lia). done.
Qed.

Lemma cut_app a b : cut (a ++ b) = ((cut a).1 ++ (cut ((cut a).2 ++ b)).1, (cut ((cut a).2 ++ b)).2).
Proof.
  induction a as [|c a IH]; cbn; [by destruct (cut b)|]. rewrite IH. destruct (cut a) as [ls r]. cbn. destruct (c =? 10) eqn:E; [done|]. destruct ls as [|l ls]; [|done]. cbn. rewrite E.
  by destruct (cut (r ++ b)) as [[|]].
Qed.

Lemma cut_newline c : 10 ∈ c → ∀ a, (cut (a ++ c)).1 ≠ [] ∧ (length (cut (a ++ c)).2 < length (a ++ c))%nat.
Proof.
  intros Hc. assert (H : ∀ t, 10 ∈ t → (cut t).1 ≠ [] ∧ (length (cut t).2 < length t)%nat).
  { clear. induction t as [|x t IH]; intros H; [by apply not_elem_of_nil in H|]. assert (Hle : ∀ u, (length (cut u).2 ≤ length u)%nat).
    { clear. induction u as [|y u IHu]; cbn; [lia|]. destruct (cut u) as [[|l ls] r]; cbn in *; destruct (y =? 10); cbn; lia. }
    specialize (Hle t). cbn. destruct (Z.eqb_spec x 10) as [->|Hx]; [destruct (cut t) as [ls r]; cbn in *; split; [done|lia]|].
    apply elem_of_cons in H as [E|H]; [congruence|]. specialize (IH H). destruct (cut t) as [[|l ls] r]; cbn in *; [tauto|]. split; [done|lia]. }
  intros a. apply H. set_solver.
Qed.

Lemma cut_rest_nonzero t : 0 ∉ t → 0 ∉ (cut t).2.
Proof.
  induction t as [|c t IH]; cbn; [done|]. rewrite not_elem_of_cons. intros [Hc H]. specialize (IH H). destruct (cut t) as [[|l ls] r]; cbn in *; destruct (c =? 10); cbn; set_solver.
Qed.

Lemma grep_prints pattern input : ∀ fuel rest, fits rest input → 0 ∉ rest → (length input < fuel)%nat → cut rest = ([], rest) →
  grep fuel pattern rest input = Some (printed pattern (cut (rest ++ concat input)).1).
Proof.
  induction input as [|c input IH]; intros fuel rest Hfit H0 Hf Hr; (destruct fuel as [|fuel]; [cbn in Hf; lia|]); cbn [grep read]; [by rewrite app_nil_r, Hr|].
  destruct Hfit as (Hnl & Hc0 & Hlen & Hfit). cbn in Hf. rewrite (proj2 (Nat.leb_le _ _)) by lia. destruct c as [|x c]; [by apply not_elem_of_nil in Hnl|].
  assert (Hn0 : 0 ∉ rest ++ x :: c) by set_solver. destruct (cut_newline _ Hnl rest) as [_ Hlt]. rewrite grep_lines_spec by done. rewrite (proj2 (Nat.eqb_neq _ _)) by lia.
  set (b := rest ++ x :: c) in *. rewrite (IH fuel (cut b).2).
  - cbn [concat]. rewrite (app_assoc rest (x :: c) (concat input)). fold b. rewrite (cut_app b (concat input)). cbn [fst]. unfold printed. by rewrite bind_app.
  - done.
  - by apply cut_rest_nonzero.
  - lia.
  - clear. induction b as [|y b IH]; cbn; [done|]. destruct (cut b) as [[|l ls] r]; cbn in *; destruct (y =? 10) eqn:E; cbn; rewrite ?E, ?IH; done.
Qed.

(** C35. grep prints exactly the lines that have a part in the language of the pattern,
    in their order, however the input is cut into pieces, as long as every piece that is
    read has a newline in it and fits in the buffer. *)
Theorem grep_correct pattern input : fits [] input →
  grep (S (length input)) pattern [] input = Some (printed pattern (cut (concat input)).1) ∧ ∀ l, re_match pattern l = true ↔ denotes pattern l.
Proof. intros H. split; [apply (grep_prints pattern input _ []); [done|apply not_elem_of_nil|lia|done]|apply re_match_spec]. Qed.

Lemma grep_correct_witness : fits [] [chars "hello" ++ [10]; chars "a" ++ [10] ++ chars "he"; chars "lo " ++ [10]] ∧
  grep 4 (chars "^h.*o") [] [chars "hello" ++ [10]; chars "a" ++ [10] ++ chars "he"; chars "lo " ++ [10]] = Some (chars "hello" ++ [10] ++ chars "helo " ++ [10]).
Proof.
  assert (H : fits [] [chars "hello" ++ [10]; chars "a" ++ [10] ++ chars "he"; chars "lo " ++ [10]]).
  { cbn. repeat split; try lia; by apply (bool_decide_unpack _). }
  split; [exact H|]. etransitivity; [exact (proj1 (grep_correct (chars "^h.*o") _ H))|by vm_compute].
Defined.

(** wc counts the lines, words and bytes of its input. *)
Lemma wc_correct input : Forall (λ c, c ≠ []) input → Z.of_nat (length (concat input)) < 2 ^ 31 →
  let t := concat input in
  ∃ s, wc (S (length t)) (mk_wc 0 0 0 false) input = Some s ∧
    w_l s = Z.of_nat (length (cut t).1) ∧ w_w s = Z.of_nat (length (words [] t)) ∧ w_c s = Z.of_nat (length t).
Proof.
  intros Hin Hl t. eexists. split; [apply wc_all; [done|unfold t; lia]|]. fold t. destruct (wc_counts t (mk_wc 0 0 0 false) []) as (H1 & H2 & H3); [done|cbn; lia|cbn; lia|exact Hl|].
  cbn in *. lia.
Qed.

(** A piece of the input without a newline is lost together with the line that it
    belongs to, and so is the last line when it has no newline. *)
Lemma grep_loses_lines : grep 5 (chars "abc") [] [chars "ab"; chars "c" ++ [10]] = Some [] ∧
  printed (chars "abc") (cut (concat [chars "ab"; chars "c" ++ [10]])).1 = chars "abc" ++ [10] ∧ grep 5 (chars "abc") [] [chars "abc"] = Some [].
Proof. by vm_compute. Qed.
