(* ===== verification/Mkfs.v ===== *)
(** The program that makes the disk image (mkfs.c): it lays out the disk, copies files
    into it and builds the root directory, with its own code for inodes and blocks. It is
    proved that the file system of the kernel (fs.c) reads from the image what was put in.

    The image is a function from block numbers to blocks; a failed assertion ends the
    program. The numbers that mkfs stores with xint and xshort are in the byte order of
    the disk on every host: they are the fields of [dinode_bytes] and the like. *)
From Stdlib Require Import ZArith Lia Bool Ascii.
From stdpp Require Import base tactics list list_numbers strings sets gmap fin_sets.
From S2P Require Import Prelude Machine Bio Log Blocks Fs FsAlloc FsInode FsWrite FsFile FsLayout FsDir.

(** * The layout *)

Definition NINODES : Z := 200.
Definition nbitmap : Z := FSSIZE / (BSIZE * 8) + 1.
Definition ninodeblocks : Z := NINODES / IPB + 1.
Definition nlog : Z := LOGSIZE.
Definition nmeta : Z := 2 + nlog + ninodeblocks + nbitmap.
Definition mkfs_sb : superblock := mk_sb FSSIZE (FSSIZE - nmeta) NINODES nlog 2 (2 + nlog) (2 + nlog + ninodeblocks).

(** * State and operations *)

Record image := mk_image { disk : Z → list Z; freeinode : Z; freeblock : Z }.

Definition zeroes : list Z := replicate (Z.to_nat BSIZE) 0.

Definition wsect (sec : Z) (buf : list Z) : M image unit :=
  modify (λ s, mk_image (λ b, if b =? sec then buf else disk s b) (freeinode s) (freeblock s)).
(** There is nothing to read beyond the blocks that have been cleared. *)
Definition rsect (sec : Z) : M image (list Z) := if (0 <=? sec) && (sec <? FSSIZE) then gets (λ s, disk s sec) else panic "read".

Definition winode (inum : Z) (d : dinode) : M image unit :=
  let bn := IBLOCK inum mkfs_sb in
  buf ← rsect bn;
  wsect bn (splice buf (Z.to_nat (inum mod IPB * sizeof_dinode)) (dinode_bytes d)).
Definition rinode (inum : Z) : M image dinode :=
  buf ← rsect (IBLOCK inum mkfs_sb);
  mret (dinode_at buf (Z.to_nat (inum mod IPB * sizeof_dinode))).

(** [freeinode++] and [freeblock++] *)
Definition next_inode : M image Z :=
  s ← get; modify (λ s, mk_image (disk s) (u32 (freeinode s + 1)) (freeblock s));; mret (freeinode s).
Definition next_block : M image Z :=
  s ← get; modify (λ s, mk_image (disk s) (freeinode s) (u32 (freeblock s + 1)));; mret (freeblock s).

Definition mk_ialloc (type : Z) : M image Z :=
  inum ← next_inode;
  winode inum (mk_dinode type 0 0 1 0 (replicate 13 0));;
  mret inum.

(** The bits of the first [used] blocks. *)
Fixpoint set_bits (n : nat) (buf : list Z) : list Z :=
  match n with
  | O => buf
  | S n => let buf := set_bits n buf in let i := Z.of_nat n in map_store buf i (Z.lor (map_byte buf i) (Z.shiftl 1 (i mod 8)))
  end.
Definition mk_balloc (used : Z) : M image unit :=
  if negb (used <? BSIZE * 8) then panic "used < BSIZE*8" else
  wsect (sb_bmapstart mkfs_sb) (set_bits (Z.to_nat used) zeroes).

Definition set_daddr (j : nat) (v : Z) (d : dinode) : dinode :=
  mk_dinode (d_type d) (d_major d) (d_minor d) (d_nlink d) (d_isize d) (<[j := v]> (d_addrs d)).
Definition set_dsize (v : Z) (d : dinode) : dinode :=
  mk_dinode (d_type d) (d_major d) (d_minor d) (d_nlink d) v (d_addrs d).
Definition daddr (d : dinode) (j : nat) : Z := default 0 (d_addrs d !! j).

(** The address [addrs[j]] of the inode, with a new block when there is none. *)
Definition need_addr (j : nat) (d : dinode) : M image dinode :=
  if daddr d j =? 0 then b ← next_block; mret (set_daddr j b d) else mret d.

(** The block of the file for [fbn], and the inode that has it. *)
Definition need_block (fbn : Z) (d : dinode) : M image (dinode * Z) :=
  if fbn <? NDIRECT then
    d ← need_addr (Z.to_nat fbn) d;
    mret (d, daddr d (Z.to_nat fbn))
  else
    d ← need_addr 12 d;
    let j := Z.to_nat (fbn - NDIRECT) in
    indirect ← rsect (daddr d 12);
    indirect ← (if word_at indirect 0 j =? 0 then
                  b ← next_block;
                  let indirect := splice indirect (4 * j) (word b) in
                  wsect (daddr d 12) indirect;; mret indirect
                else mret indirect);
    mret (d, word_at indirect 0 j).

(** The loop of iappend: [p] is what is left to append at [off]. *)
Fixpoint append_loop (fuel : nat) (d : dinode) (off : Z) (p : list Z) : M image (dinode * Z) :=
  match p with
  | [] => mret (d, off)
  | _ =>
      match fuel with
      | O => nofuel
      | S fuel =>
          let fbn := off / BSIZE in
          if negb (fbn <? MAXFILE) then panic "fbn < MAXFILE" else
          r ← need_block fbn d;
          let '(d, x) := r in
          let n1 := Z.to_nat (Z.min (Z.of_nat (length p)) ((fbn + 1) * BSIZE - off)) in
          buf ← rsect x;
          wsect x (splice buf (Z.to_nat (off - fbn * BSIZE)) (take n1 p));;
          append_loop fuel d (u32 (off + Z.of_nat n1)) (drop n1 p)
      end
  end.

Definition iappend (inum : Z) (p : list Z) : M image unit :=
  d ← rinode inum;
  r ← append_loop (length p) d (d_isize d) p;
  let '(d, off) := r in
  winode inum (set_dsize off d).

(** The loop that copies a file, a block at a time. *)
Fixpoint copy_file (fuel : nat) (inum : Z) (data : list Z) : M image unit :=
  match data with
  | [] => mret tt
  | _ =>
      match fuel with
      | O => nofuel
      | S fuel => iappend inum (take (Z.to_nat BSIZE) data);; copy_file fuel inum (drop (Z.to_nat BSIZE) data)
      end
  end.

Definition entry_bytes (inum : Z) (name : list Z) : list Z := dirent_bytes (mk_dirent inum (strncpy_l name DIRSIZ)).

(** A file of the command line: its name and contents. *)
Definition add_file (rootino : Z) (file : list Z * list Z) : M image unit :=
  let '(name, data) := file in
  if existsb (Z.eqb (ch "/")) name then panic "index(argv[i], '/') == 0" else
  let name := match name with c :: rest => if c =? ch "_" then rest else name | [] => name end in
  inum ← mk_ialloc T_FILE;
  iappend rootino (entry_bytes inum name);;
  copy_file (length data) inum data.

Fixpoint add_files (rootino : Z) (files : list (list Z * list Z)) : M image unit :=
  match files with
  | [] => mret tt
  | f :: files => add_file rootino f;; add_files rootino files
  end.

Definition sb_bytes (sb : superblock) : list Z :=
  concat (word <$> [sb_size sb; sb_nblocks sb; sb_ninodes sb; sb_nlog sb; sb_logstart sb; sb_inodestart sb; sb_bmapstart sb]).

(** main, from the point where the image is open: all its blocks are cleared first. *)
Definition mkfs (files : list (list Z * list Z)) : M image unit :=
  modify (λ s, mk_image (disk s) (freeinode s) nmeta);;
  modify (λ s, mk_image (λ b, if (0 <=? b) && (b <? FSSIZE) then zeroes else disk s b) (freeinode s) (freeblock s));;
  wsect 1 (splice zeroes 0 (sb_bytes mkfs_sb));;
  rootino ← mk_ialloc T_DIR;
  if negb (rootino =? ROOTINO) then panic "rootino == ROOTINO" else
  iappend rootino (entry_bytes rootino [ch "."]);;
  iappend rootino (entry_bytes rootino [ch "."; ch "."]);;
  add_files rootino files;;
  d ← rinode rootino;
  winode rootino (set_dsize (u32 ((d_isize d / BSIZE + 1) * BSIZE)) d);;
  s ← get;
  mk_balloc (freeblock s).

(** * Blocks of inodes

    [dslot] and [dbyte] are [slot] and [fbyte] of FsInode.v for an inode on the disk. *)
Definition dslot (f : Z → list Z) (d : dinode) (k : Z) : Z :=
  if k =? MAXFILE then daddr d 12
  else if k <? NDIRECT then daddr d (Z.to_nat k)
  else if daddr d 12 =? 0 then 0 else word_at (f (daddr d 12)) 0 (Z.to_nat (k - NDIRECT)).
Definition dbyte (f : Z → list Z) (d : dinode) (o : Z) : Z :=
  let b := dslot f d (o / BSIZE) in
  if b =? 0 then 0 else default 0 (f b !! Z.to_nat (o mod BSIZE)).

Lemma slot_dslot f ino k : slot f ino k = dslot f (dinode_of ino) k.
Proof. done. Qed.
Lemma fbyte_dbyte f ino o : fbyte f ino o = dbyte f (dinode_of ino) o.
Proof. done. Qed.

(** The blocks of the inodes [D] are among those given out, and no two are the same; the
    blocks that have not been given out are cleared. *)
Record slots_ok (f : Z → list Z) (fb : Z) (D : list dinode) : Prop := {
  so_blocks : ∀ b, 0 ≤ b < FSSIZE → block_ok (f b);
  so_fb : nmeta ≤ fb ≤ FSSIZE;
  so_zero : ∀ b, fb ≤ b < FSSIZE → f b = zeroes;
  so_addrs : ∀ i d, D !! i = Some d → length (d_addrs d) = 13%nat;
  so_range : ∀ i d k, D !! i = Some d → slot_index k → dslot f d k ≠ 0 → nmeta ≤ dslot f d k < fb;
  so_inj : ∀ i d k i' d' k', D !! i = Some d → D !! i' = Some d' → slot_index k → slot_index k' →
    dslot f d k ≠ 0 → dslot f d k = dslot f d' k' → i = i' ∧ k = k' }.

Definition set_addrs (l : list Z) (d : dinode) : dinode := mk_dinode (d_type d) (d_major d) (d_minor d) (d_nlink d) (d_isize d) l.

(** Inode [i] gets the blocks [ks] more; what its bytes and those of the other inodes are
    does not change. *)
Record ext (f : Z → list Z) (fb : Z) (D : list dinode) (i : nat) (ks : list Z) (f' : Z → list Z) (fb' : Z) (d' : dinode) : Prop := {
  ex_slots : slots_ok f' fb' (<[i := d']> D);
  ex_fb : fb' = fb + Z.of_nat (length ks);
  ex_low : ∀ b, b < nmeta → f' b = f b;
  ex_has : ∀ j d dj, D !! j = Some d → (<[i := d']> D) !! j = Some dj → ∀ k, slot_index k → dslot f' dj k ≠ 0 ↔ dslot f d k ≠ 0 ∨ j = i ∧ k ∈ ks;
  ex_bytes : ∀ j d dj, D !! j = Some d → (<[i := d']> D) !! j = Some dj → ∀ o, 0 ≤ o < MAXFILE * BSIZE → dbyte f' dj o = dbyte f d o;
  ex_head : ∀ d, D !! i = Some d → set_addrs [] d' = set_addrs [] d }.

Lemma nmeta_eq : nmeta = 59.
Proof. done. Qed.

Lemma zeroes_ok : block_ok zeroes.
Proof. split; [done|]. apply Forall_replicate. lia. Qed.

Lemma zeroes_byte r : default 0 (zeroes !! r) = 0.
Proof. unfold zeroes. destruct (replicate (Z.to_nat BSIZE) 0 !! r) as [x|] eqn:E; [|done]. by apply lookup_replicate in E as [-> _]. Qed.

Section grows.
  Context (f : Z → list Z) (fb : Z) (D : list dinode) (i : nat) (d : dinode) (k : Z).
  Context (Hs : slots_ok f fb D) (Hd : D !! i = Some d) (Hz : dslot f d k = 0) (Hfb : fb < FSSIZE).

(** A new block [fb] becomes block [k] of inode [i]; at most the block [a] changes, which
    holds no contents. *)
Lemma grows_ext f' d' a : length (d_addrs d') = 13%nat → set_addrs [] d' = set_addrs [] d → (∀ b, b ≠ a → f' b = f b) → block_ok (f' a) → a < fb → nmeta ≤ a ∨ f' a = f a →
  (∀ k', slot_index k' → dslot f' d' k' = if k' =? k then fb else dslot f d k') →
  (∀ j dj k', j ≠ i → D !! j = Some dj → slot_index k' → dslot f' dj k' = dslot f dj k') →
  (∀ j dj k', D !! j = Some dj → slot_index k' → k' ≠ MAXFILE → dslot f dj k' ≠ 0 → dslot f dj k' ≠ a ∨ f' a = f a) →
  ext f fb D i [k] f' (fb + 1) d'.
Proof.
  intros Hl Hh Hf Ha Hafb Hlow Hi Hj Hc. pose proof Hs as [B F Ze A R I]. rewrite nmeta_eq in *.
  assert (Hsl : ∀ j dj, (<[i := d']> D) !! j = Some dj → ∃ d0, D !! j = Some d0 ∧ ∀ k', slot_index k' → dslot f' dj k' = if decide (j = i ∧ k' = k) then fb else dslot f d0 k').
  { intros j dj Hdj. destruct (decide (j = i)) as [->|Hne].
    - rewrite list_lookup_insert_eq in Hdj by by eapply lookup_lt_Some. injection Hdj as <-. exists d. split; [done|]. intros k' Hk'. rewrite Hi by done.
      destruct (Z.eqb_spec k' k) as [->|]; [by rewrite decide_True|by rewrite decide_False by naive_solver].
    - rewrite list_lookup_insert_ne in Hdj by done. exists dj. split; [done|]. intros k' Hk'. rewrite decide_False by naive_solver. by eapply Hj. }
  assert (Hnew : ∀ j d0 k', D !! j = Some d0 → slot_index k' → dslot f d0 k' ≠ fb) by (intros j d0 k' H1 H2 E; pose proof (R _ _ _ H1 H2); lia).
  split; [split|..]; rewrite ?nmeta_eq.
  - intros b Hb. destruct (decide (b = a)) as [->|Hne]; [done|]. rewrite Hf by done. by apply B.
  - lia.
  - intros b Hb. rewrite Hf by lia. apply Ze. lia.
  - intros j dj Hdj. destruct (decide (j = i)) as [->|Hne]; [rewrite list_lookup_insert_eq in Hdj by (by eapply lookup_lt_Some); by injection Hdj as <-|].
    rewrite list_lookup_insert_ne in Hdj by done. by eapply A.
  - intros j dj k' Hdj Hk'. destruct (Hsl _ _ Hdj) as (d0 & H0 & ->); [|done]. case_decide; [lia|]. intros Hnz. pose proof (R _ _ _ H0 Hk' Hnz). lia.
  - intros j dj k1 j' dj' k1' Hdj Hdj' Hk1 Hk1'. destruct (Hsl _ _ Hdj) as (d0 & H0 & ->); [|done]. destruct (Hsl _ _ Hdj') as (d0' & H0' & ->); [|done].
    case_decide as E1; case_decide as E2; intros Hnz E; [naive_solver|by destruct (Hnew _ _ _ H0' Hk1')|by destruct (Hnew _ _ _ H0 Hk1)|by eapply I].
  - cbn. lia.
  - intros b Hb. destruct (decide (b = a)) as [->|Hne]; [|by apply Hf]. destruct Hlow; [lia|done].
  - intros j d0 dj H0 Hdj k' Hk'. destruct (Hsl _ _ Hdj) as (d0' & H0' & ->); [|done]. assert (d0' = d0) as -> by congruence. rewrite list_elem_of_singleton. case_decide as E; [|naive_solver].
    split; [by right|]. lia.
  - intros j d0 dj H0 Hdj o Ho. pose proof (off_index o Ho) as (Ho1 & Ho2 & Ho3). destruct (Hsl _ _ Hdj) as (d0' & H0' & Es). assert (d0' = d0) as -> by congruence.
    unfold dbyte. rewrite Es by done. destruct (decide (j = i ∧ o / BSIZE = k)) as [[-> Ek]|E].
    + assert (d0 = d) as -> by congruence. rewrite Ek, Hz. rewrite (proj2 (Z.eqb_neq fb 0)) by lia. cbn. rewrite Hf by lia. rewrite Ze by lia. apply zeroes_byte.
    + destruct (Z.eqb_spec (dslot f d0 (o / BSIZE)) 0) as [|Hnz]; [done|]. destruct (decide (dslot f d0 (o / BSIZE) = a)) as [Ea|Hna]; [|by rewrite Hf].
      destruct (Hc j d0 (o / BSIZE) H0 Ho1 ltac:(lia) Hnz) as [?|Eq]; [done|]. by rewrite Ea, Eq.
  - intros d0 H0. assert (d0 = d) as -> by congruence. done.
Qed.
End grows.

Definition node (d : dinode) : inode := mk_inode 1 0 0 (mk_sleep 0 0) 0 (d_type d) (d_major d) (d_minor d) (d_nlink d) (d_isize d) (d_addrs d).

(** A new block in an address of the inode. *)
Lemma addr_ext f fb D i d k j : slots_ok f fb D → D !! i = Some d → direct_slot k j → dslot f d k = 0 → fb < FSSIZE →
  ext f fb D i [k] f (fb + 1) (set_daddr j fb d).
Proof.
  intros Hs Hd Hj Hz Hfb. pose proof (so_fb _ _ _ Hs) as F. rewrite nmeta_eq in F. assert (Hk : slot_index k) by (unfold direct_slot, slot_index in *; change MAXFILE with 140 in *; change NDIRECT with 12 in *; lia).
  apply (grows_ext f fb D i d k Hs Hd Hz Hfb f _ 0); try done; try lia.
  - cbn. rewrite length_insert. by eapply so_addrs.
  - apply (so_blocks _ _ _ Hs). unfold FSSIZE. lia.
  - by right.
  - intros k' Hk'. apply (slot_set_addr f f (node d) j k fb k'); try done; [by eapply so_addrs|lia|]. intros n. rewrite (so_zero _ _ _ Hs) by lia. apply word_at_zero.
Qed.

(** A new block in the indirect block. *)
Lemma entry_ext f fb D i d k : slots_ok f fb D → D !! i = Some d → NDIRECT ≤ k < MAXFILE → daddr d 12 ≠ 0 → dslot f d k = 0 → fb < FSSIZE →
  ext f fb D i [k] (λ b, if b =? daddr d 12 then splice (f (daddr d 12)) (4 * Z.to_nat (k - NDIRECT)) (word fb) else f b) (fb + 1) d.
Proof.
  intros Hs Hd Hk Ha Hz Hfb. pose proof Hs as [B F Ze A R I]. rewrite nmeta_eq in *. set (a := daddr d 12) in *. set (n := Z.to_nat (k - NDIRECT)). unfold slot_index in *. change MAXFILE with 140 in *. change NDIRECT with 12 in *.
  assert (Hra : 59 ≤ a < fb) by (apply (R i d 140 Hd ltac:(lia) Ha)). unfold FSSIZE in *. assert (Hba : block_ok (f a)) by (apply B; lia). pose proof (bo_len _ Hba) as Hl. change (Z.to_nat BSIZE) with 512%nat in Hl.
  assert (Hn : (4 * n + 4 ≤ length (f a))%nat) by (unfold n; lia).
  assert (Hdir : ∀ f' dj k', k' = 140 ∨ k' < 12 → dslot f' dj k' = dslot f dj k').
  { intros f' dj k' Hk'. unfold dslot. change MAXFILE with 140. change NDIRECT with 12. destruct (Z.eqb_spec k' 140); [done|]. by rewrite (proj2 (Z.ltb_lt k' 12)) by lia. }
  assert (Hind : ∀ f' dj k', 12 ≤ k' < 140 → dslot f' dj k' = if daddr dj 12 =? 0 then 0 else word_at (f' (daddr dj 12)) 0 (Z.to_nat (k' - 12))).
  { intros f' dj k' Hk'. unfold dslot. change MAXFILE with 140. change NDIRECT with 12. rewrite (proj2 (Z.eqb_neq k' 140)) by lia. by rewrite (proj2 (Z.ltb_ge k' 12)) by lia. }
  eapply (grows_ext f fb D i d k Hs Hd); [done|unfold FSSIZE; lia|by eapply A|done| | |exact (proj2 Hra)|..].
  - intros b Hb. cbn beta. by rewrite (proj2 (Z.eqb_neq b a)).
  - cbn beta. rewrite Z.eqb_refl. apply block_splice; [done|apply bytes_word|cbn; lia].
  - left. rewrite nmeta_eq. lia.
  - intros k' Hk'. unfold slot_index in Hk'. change MAXFILE with 140 in Hk'. destruct (decide (12 ≤ k' < 140)) as [Hi|Hi]; [|rewrite Hdir by lia; by rewrite (proj2 (Z.eqb_neq k' k)) by lia].
    rewrite !Hind by done. fold a. rewrite (proj2 (Z.eqb_neq a 0)) by done. rewrite Z.eqb_refl, word_at_splice by lia. unfold n.
    destruct (Z.eqb_spec k' k) as [->|Hne]; [by rewrite Nat.eqb_refl|]. by rewrite (proj2 (Nat.eqb_neq _ _)) by lia.
  - intros j dj k' Hj Hdj Hk'. unfold slot_index in Hk'. change MAXFILE with 140 in Hk'. destruct (decide (12 ≤ k' < 140)) as [Hi|Hi]; [|apply Hdir; lia]. rewrite !Hind by done.
    destruct (Z.eqb_spec (daddr dj 12) 0) as [|Hnz]; [done|]. rewrite (proj2 (Z.eqb_neq (daddr dj 12) a)); [done|]. intros E.
    destruct (I j dj 140 i d 140 Hdj Hd ltac:(lia) ltac:(lia) Hnz E). done.
  - intros j dj k' Hdj Hk' Hne Hnz. left. intros E. destruct (I j dj k' i d 140 Hdj Hd ltac:(done) ltac:(lia) Hnz E). change MAXFILE with 140 in Hne. done.
Qed.

Lemma ext_refl f fb D i d : slots_ok f fb D → D !! i = Some d → ext f fb D i [] f fb d.
Proof.
  intros Hs Hd. assert (E : <[i := d]> D = D) by by apply list_insert_id. split; rewrite ?E; try done; [cbn; lia|..].
  - intros j d0 dj H0 Hj k _. assert (dj = d0) as -> by congruence. rewrite elem_of_nil. tauto.
  - intros j d0 dj H0 Hj o _. by assert (dj = d0) as -> by congruence.
  - intros d0 H0. by assert (d0 = d) as -> by congruence.
Qed.

Lemma ext_trans f fb D i ks f1 fb1 d1 ks' f2 fb2 d2 : (i < length D)%nat → ext f fb D i ks f1 fb1 d1 → ext f1 fb1 (<[i := d1]> D) i ks' f2 fb2 d2 →
  ext f fb D i (ks ++ ks') f2 fb2 d2.
Proof.
  intros Hi [S1 F1 L1 H1 B1 M1] [S2 F2 L2 H2 B2 M2]. rewrite list_insert_insert_eq in *.
  assert (Hmid : ∀ j d dj, D !! j = Some d → (<[i := d2]> D) !! j = Some dj → ∃ dm, (<[i := d1]> D) !! j = Some dm).
  { intros j d dj Hd _. destruct (decide (j = i)) as [->|Hne]; [exists d1; by apply list_lookup_insert_eq|exists d; by rewrite list_lookup_insert_ne]. }
  split; try done.
  - rewrite length_app. lia.
  - intros b Hb. by rewrite L2, L1.
  - intros j d dj Hd Hdj k Hk. destruct (Hmid _ _ _ Hd Hdj) as [dm Hm]. rewrite (H2 j dm dj Hm Hdj k Hk), (H1 j d dm Hd Hm k Hk). set_solver.
  - intros j d dj Hd Hdj o Ho. destruct (Hmid _ _ _ Hd Hdj) as [dm Hm]. rewrite (B2 j dm dj Hm Hdj o Ho). by eapply B1.
  - intros d Hd. rewrite (M2 d1); [by apply M1|by apply list_lookup_insert_eq].
Qed.

(** The blocks that have to be added for block [k]. *)
Definition add_if_none (f : Z → list Z) (d : dinode) (k : Z) : list Z := if dslot f d k =? 0 then [k] else [].
Definition added (f : Z → list Z) (d : dinode) (fbn : Z) : list Z :=
  (if fbn <? NDIRECT then [] else add_if_none f d MAXFILE) ++ add_if_none f d fbn.

Lemma dslot_direct f d k j : direct_slot k j → dslot f d k = daddr d j.
Proof. exact (direct_slot_at f (node d) k j). Qed.

Lemma need_addr_run s D i d k j : slots_ok (disk s) (freeblock s) D → D !! i = Some d → direct_slot k j →
  freeblock s + Z.of_nat (length (add_if_none (disk s) d k)) ≤ FSSIZE →
  ∃ s' d', need_addr j d s = Ok (d', s') ∧ ext (disk s) (freeblock s) D i (add_if_none (disk s) d k) (disk s') (freeblock s') d' ∧ freeinode s' = freeinode s ∧ disk s' = disk s.
Proof.
  intros Hs Hd Hj Hroom. unfold need_addr, add_if_none in *. rewrite (dslot_direct _ _ _ _ Hj) in *. destruct (Z.eqb_spec (daddr d j) 0) as [Hz|Hnz].
  - pose proof (so_fb _ _ _ Hs) as F. rewrite nmeta_eq in F. unfold FSSIZE in *. cbn in Hroom. unfold next_block. munfold. eexists _, _. split; [done|]. cbn. rewrite u32_small by lia.
    split; [|done]. apply addr_ext; [done|done|done|by rewrite (dslot_direct _ _ _ _ Hj)|unfold FSSIZE; lia].
  - exists s, d. split; [done|]. split; [|done]. by apply ext_refl.
Qed.

Lemma need_block_run s D i d fbn : slots_ok (disk s) (freeblock s) D → D !! i = Some d → 0 ≤ fbn < MAXFILE →
  freeblock s + Z.of_nat (length (added (disk s) d fbn)) ≤ FSSIZE →
  ∃ s' d', need_block fbn d s = Ok ((d', dslot (disk s') d' fbn), s') ∧ ext (disk s) (freeblock s) D i (added (disk s) d fbn) (disk s') (freeblock s') d' ∧ freeinode s' = freeinode s.
Proof.
  intros Hs Hd Hk Hroom. unfold need_block, added in *. pose proof (lookup_lt_Some _ _ _ Hd) as Hlt. destruct (Z.ltb_spec fbn NDIRECT) as [Hn|Hn].
  - assert (Hj : direct_slot fbn (Z.to_nat fbn)) by (left; lia). cbn [app] in *. destruct (need_addr_run s D i d fbn (Z.to_nat fbn) Hs Hd Hj Hroom) as (s' & d' & E & He & Hfi & Ed).
    exists s', d'. rewrite (bind_eq _ _ _ _ _ E), (dslot_direct _ _ _ _ Hj). done.
  - assert (Hj : direct_slot MAXFILE 12) by (right; done). rewrite length_app in Hroom.
    destruct (need_addr_run s D i d MAXFILE 12 Hs Hd Hj ltac:(lia)) as (s1 & d1 & E1 & He1 & Hfi1 & Ed1). rewrite (bind_eq _ _ _ _ _ E1). cbv zeta.
    pose proof (ex_slots _ _ _ _ _ _ _ _ He1) as Hs1. assert (Hd1 : (<[i := d1]> D) !! i = Some d1) by by apply list_lookup_insert_eq.
    assert (Hi140 : slot_index MAXFILE) by (unfold slot_index; change MAXFILE with 140; lia). assert (Hik : slot_index fbn) by (unfold slot_index; lia).
    assert (Ha : daddr d1 12 ≠ 0).
    { rewrite <- (dslot_direct (disk s1) d1 _ _ Hj). apply (ex_has _ _ _ _ _ _ _ _ He1 i d d1 Hd Hd1 _ Hi140). unfold add_if_none.
      destruct (Z.eqb_spec (dslot (disk s) d MAXFILE) 0); [right; set_solver|by left]. }
    pose proof (so_range _ _ _ Hs1 i d1 MAXFILE Hd1 Hi140 ltac:(by rewrite (dslot_direct _ _ _ _ Hj))) as Hr. rewrite (dslot_direct _ _ _ _ Hj), nmeta_eq in Hr.
    pose proof (so_fb _ _ _ Hs1) as F1.
    assert (Er : rsect (daddr d1 12) s1 = Ok (disk s1 (daddr d1 12), s1)) by (unfold rsect; rewrite (proj2 (Z.leb_le _ _)), (proj2 (Z.ltb_lt _ _)) by lia; done). rewrite (bind_eq _ _ _ _ _ Er).
    assert (Esl : ∀ f dj, daddr dj 12 ≠ 0 → dslot f dj fbn = word_at (f (daddr dj 12)) 0 (Z.to_nat (fbn - NDIRECT))).
    { intros f dj Hnz. unfold dslot. rewrite (proj2 (Z.eqb_neq fbn MAXFILE)), (proj2 (Z.ltb_ge fbn NDIRECT)), (proj2 (Z.eqb_neq _ 0)) by (lia || done). done. }
    rewrite <- (Esl (disk s1) d1 Ha). assert (Eb : (dslot (disk s1) d1 fbn =? 0) = (dslot (disk s) d fbn =? 0)).
    { pose proof (ex_has _ _ _ _ _ _ _ _ He1 i d d1 Hd Hd1 fbn Hik) as Hh. unfold add_if_none in Hh. assert (fbn ≠ MAXFILE) by lia.
      destruct (Z.eqb_spec (dslot (disk s1) d1 fbn) 0), (Z.eqb_spec (dslot (disk s) d fbn) 0); try done; destruct (_ =? 0) in Hh; set_solver. }
    unfold add_if_none at 2. unfold add_if_none at 2 in Hroom. rewrite <- Eb in Hroom |- *. destruct (Z.eqb_spec (dslot (disk s1) d1 fbn) 0) as [Hz|Hnz].
    + pose proof (entry_ext (disk s1) (freeblock s1) _ i d1 fbn Hs1 Hd1 ltac:(lia) Ha Hz ltac:(pose proof (ex_fb _ _ _ _ _ _ _ _ He1); cbn in Hroom; lia)) as He2.
      assert (Hu : u32 (freeblock s1 + 1) = freeblock s1 + 1) by (rewrite nmeta_eq in F1; unfold FSSIZE in F1; by rewrite u32_small by lia).
      eexists (mk_image _ (freeinode s1) (u32 (freeblock s1 + 1))), d1. cbn [disk freeblock freeinode]. rewrite Hu. split; [|split; [eapply ext_trans; [done|exact He1|exact He2]|done]].
      unfold next_block, wsect. munfold. cbn. rewrite Hu. rewrite (Esl _ d1 Ha), Z.eqb_refl. done.
    + exists s1, d1. rewrite app_nil_r. split; [|done]. munfold. by rewrite (Esl _ d1 Ha).
Qed.

(** * Contents *)

(** The bytes of the inode are [c] and zeros after it, and it has exactly the blocks for
    them. *)
Record holds (f : Z → list Z) (d : dinode) (c : list Z) : Prop := {
  hd_len : Z.of_nat (length c) ≤ MAXFILE * BSIZE;
  hd_bytes : ∀ o, 0 ≤ o < MAXFILE * BSIZE → dbyte f d o = default 0 (c !! Z.to_nat o);
  hd_exact : ∀ k, slot_index k → dslot f d k ≠ 0 ↔ (if k =? MAXFILE then NDIRECT else k) * BSIZE < Z.of_nat (length c) }.

(** The blocks for a file of [n] bytes, with the indirect block. *)
Definition need (n : Z) : Z := let nb := (n + 511) / 512 in nb + (if 12 <? nb then 1 else 0).

Record files (f : Z → list Z) (fb : Z) (D : list dinode) (C : list (list Z)) : Prop := {
  fi_slots : slots_ok f fb D;
  fi_len : length D = length C;
  fi_holds : ∀ i d c, D !! i = Some d → C !! i = Some c → holds f d c }.

(** Writing in a block of an inode. *)
Lemma write_block f fb D i d k r w : slots_ok f fb D → D !! i = Some d → 0 ≤ k < MAXFILE → dslot f d k ≠ 0 → (r + length w ≤ 512)%nat → bytes w →
  let x := dslot f d k in let f' := λ b, if b =? x then splice (f x) r w else f b in
  slots_ok f' fb D ∧ (∀ b, b < nmeta → f' b = f b) ∧ (∀ j dj k', D !! j = Some dj → slot_index k' → dslot f' dj k' = dslot f dj k') ∧
  (∀ j dj o, D !! j = Some dj → 0 ≤ o < MAXFILE * BSIZE →
     dbyte f' dj o = if decide (j = i ∧ k * 512 + Z.of_nat r ≤ o < k * 512 + Z.of_nat r + Z.of_nat (length w)) then default 0 (w !! Z.to_nat (o - k * 512 - Z.of_nat r)) else dbyte f dj o).
Proof.
  intros Hs Hd Hk Hx Hr Hw x f'. pose proof Hs as [B F Ze A R I]. rewrite nmeta_eq in *. unfold FSSIZE in *.
  assert (Hki : slot_index k) by (unfold slot_index; lia). assert (Hi140 : slot_index MAXFILE) by (unfold slot_index; change MAXFILE with 140; lia).
  pose proof (R i d k Hd Hki Hx) as Hxr. fold x in Hxr. pose proof (B x ltac:(lia)) as Hbx. pose proof (bo_len _ Hbx) as Hl. change (Z.to_nat BSIZE) with 512%nat in Hl.
  assert (Hsl : ∀ j dj k', D !! j = Some dj → slot_index k' → dslot f' dj k' = dslot f dj k').
  { intros j dj k' Hj Hk'. unfold dslot, f'. destruct (k' =? MAXFILE); [done|]. destruct (k' <? NDIRECT); [done|]. destruct (Z.eqb_spec (daddr dj 12) 0) as [|Hnz]; [done|].
    rewrite (proj2 (Z.eqb_neq (daddr dj 12) x)); [done|]. intros E. destruct (I j dj MAXFILE i d k Hj Hd Hi140 Hki Hnz E) as [_ ?]. lia. }
  split; [|split; [|split; [done|]]].
  - split; rewrite ?nmeta_eq; try done.
    + intros b Hb. unfold f'. destruct (b =? x); [|by apply B]. apply block_splice; [done|done|]. lia.
    + intros b Hb. unfold f'. rewrite (proj2 (Z.eqb_neq b x)) by lia. by apply Ze.
    + intros j dj k' Hj Hk'. rewrite (Hsl j dj k' Hj Hk'). by apply (R j dj k').
    + intros j dj k1 j' dj' k1' Hj Hj' Hk1 Hk1'. rewrite (Hsl j dj k1 Hj Hk1), (Hsl j' dj' k1' Hj' Hk1'). by apply I.
  - intros b Hb. unfold f'. by rewrite (proj2 (Z.eqb_neq b x)) by lia.
  - intros j dj o Hj Ho. pose proof (off_index o Ho) as (Ho1 & Ho2 & Ho3). unfold dbyte. rewrite (Hsl j dj _ Hj Ho1). change BSIZE with 512 in *. destruct (Z.eqb_spec (dslot f dj (o / 512)) 0) as [Hz|Hnz].
    { rewrite decide_False; [done|]. intros [-> Hin]. assert (dj = d) as -> by congruence. assert (o / 512 = k) by (Z.to_euclidean_division_equations; lia). congruence. }
    unfold f'. destruct (Z.eqb_spec (dslot f dj (o / 512)) x) as [E|Hne].
    + destruct (I j dj (o / 512) i d k Hj Hd Ho1 Hki Hnz E) as [-> Ek]. rewrite lookup_splice by lia. destruct (decide (r ≤ Z.to_nat (o mod 512) < r + length w)%nat) as [Hin|Hout].
      * rewrite decide_True by (split; [done|]; Z.to_euclidean_division_equations; lia). f_equal. f_equal. Z.to_euclidean_division_equations. lia.
      * rewrite decide_False by (intros [_ ?]; apply Hout; Z.to_euclidean_division_equations; lia). by rewrite E.
    + rewrite decide_False; [done|]. intros [-> Hin]. assert (dj = d) as -> by congruence. apply Hne. unfold x. f_equal. Z.to_euclidean_division_equations. lia.
Qed.

(** One round of iappend, for the part [w] that goes into one block. *)
Section round.
  Context (f : Z → list Z) (fb : Z) (D : list dinode) (C : list (list Z)) (i : nat) (d : dinode) (c w : list Z).
  Context (HF : files f fb D C) (Hd : D !! i = Some d) (HC : C !! i = Some c) (Hw : w ≠ []) (Hb : bytes w).
Let off := Z.of_nat (length c).
Let fbn := off / 512.
  Context (Hfbn : fbn < MAXFILE) (Hfit : off + Z.of_nat (length w) ≤ (fbn + 1) * 512).

Lemma round_index : 0 ≤ fbn < MAXFILE ∧ slot_index fbn ∧ slot_index MAXFILE ∧ (length w ≠ 0)%nat.
Proof.
  assert (0 ≤ fbn) by (unfold fbn, off; apply Z.div_pos; lia). unfold slot_index. change MAXFILE with 140 in *. destruct w; [done|]. cbn. lia.
Qed.

Lemma need_round : need (off + Z.of_nat (length w)) = need off + (if off =? fbn * 512 then 1 else 0) + (if (12 <=? fbn) && (off =? 6144) then 1 else 0).
Proof.
  destruct round_index as (H1 & _ & _ & H4). change MAXFILE with 140 in *. assert (0 ≤ off) by (unfold off; lia). clearbody off. revert H1 H4 Hfit Hfbn. unfold fbn, need. generalize (length w). intros n H1 H4 Hfit' Hfbn'.
  assert (E : (off + Z.of_nat n + 511) / 512 = off / 512 + 1) by (Z.to_euclidean_division_equations; lia). rewrite E.
  destruct (Z.eqb_spec off (off / 512 * 512)) as [E1|E1].
  - assert (E2 : (off + 511) / 512 = off / 512) by (Z.to_euclidean_division_equations; lia). rewrite E2.
    destruct (Z.ltb_spec 12 (off / 512 + 1)), (Z.ltb_spec 12 (off / 512)), (Z.leb_spec 12 (off / 512)), (Z.eqb_spec off 6144); cbn; lia.
  - assert (E2 : (off + 511) / 512 = off / 512 + 1) by (Z.to_euclidean_division_equations; lia). rewrite E2. destruct (Z.eqb_spec off 6144) as [->|]; [by destruct E1|]. rewrite andb_false_r. lia.
Qed.

(** How many blocks the round adds. *)
Lemma added_length : Z.of_nat (length (added f d fbn)) = need (off + Z.of_nat (length w)) - need off.
Proof.
  destruct round_index as (H1 & H2 & H3 & _). rewrite need_round. pose proof (hd_exact _ _ _ (fi_holds _ _ _ _ HF i d c Hd HC)) as He.
  pose proof (He fbn H2) as E1. pose proof (He MAXFILE H3) as E2. rewrite Z.eqb_refl in E2. rewrite (proj2 (Z.eqb_neq fbn MAXFILE)) in E1 by lia. fold off in E1, E2.
  change BSIZE with 512 in *. unfold added, add_if_none. change NDIRECT with 12 in *. change MAXFILE with 140 in *. rewrite length_app, Nat2Z.inj_add.
  assert (Hle : fbn * 512 ≤ off) by (unfold fbn; Z.to_euclidean_division_equations; lia).
  assert (L1 : Z.of_nat (length (if dslot f d fbn =? 0 then [fbn] else [])) = if off =? fbn * 512 then 1 else 0).
  { destruct (Z.eqb_spec (dslot f d fbn) 0), (Z.eqb_spec off (fbn * 512)); cbn; lia. }
  assert (L2 : Z.of_nat (length (if fbn <? 12 then [] else if dslot f d 140 =? 0 then [140] else [])) = if (12 <=? fbn) && (off =? 6144) then 1 else 0).
  { destruct (Z.ltb_spec fbn 12), (Z.leb_spec 12 fbn); try lia; cbn [andb]; [done|]. destruct (Z.eqb_spec (dslot f d 140) 0), (Z.eqb_spec off 6144); cbn; lia. }
  rewrite L1, L2. lia.
Qed.

Lemma round_files f1 fb1 d1 : ext f fb D i (added f d fbn) f1 fb1 d1 →
  let x := dslot f1 d1 fbn in let f2 := λ b, if b =? x then splice (f1 x) (Z.to_nat (off - fbn * 512)) w else f1 b in
  nmeta ≤ x < FSSIZE ∧ files f2 fb1 (<[i := d1]> D) (<[i := c ++ w]> C) ∧ (∀ b, b < nmeta → f2 b = f b).
Proof.
  intros He x f2. destruct round_index as (H1 & H2 & H3 & H4). pose proof (lookup_lt_Some _ _ _ Hd) as Hlt. assert (Hd1 : (<[i := d1]> D) !! i = Some d1) by by apply list_lookup_insert_eq.
  assert (Hadd : ∀ k, k ∈ added f d fbn → k = fbn ∨ k = MAXFILE ∧ NDIRECT ≤ fbn).
  { intros k. unfold added, add_if_none. rewrite elem_of_app. intros [Hk|Hk]; [destruct (Z.ltb_spec fbn NDIRECT); [set_solver|]|]; destruct (_ =? 0) in Hk; set_solver. }
  assert (Hx : x ≠ 0).
  { apply (ex_has _ _ _ _ _ _ _ _ He i d d1 Hd Hd1 fbn H2). unfold added, add_if_none. destruct (Z.eqb_spec (dslot f d fbn) 0); [right; set_solver|by left]. }
  pose proof (ex_slots _ _ _ _ _ _ _ _ He) as Hs1. pose proof (so_range _ _ _ Hs1 i d1 fbn Hd1 H2 Hx) as Hxr. pose proof (so_fb _ _ _ Hs1) as F1. fold x in Hxr. split; [lia|].
  assert (Hpos : 0 ≤ off - fbn * 512) by (unfold fbn; Z.to_euclidean_division_equations; lia).
  destruct (write_block f1 fb1 (<[i := d1]> D) i d1 fbn (Z.to_nat (off - fbn * 512)) w Hs1 Hd1 H1 Hx ltac:(lia) Hb) as (W1 & W2 & W3 & W4). fold x f2 in W1, W2, W3, W4.
  split; [|intros b Hbl; transitivity (f1 b); [exact (W2 b Hbl)|by apply (ex_low _ _ _ _ _ _ _ _ He)]]. split; [done|rewrite !length_insert; apply (fi_len _ _ _ _ HF)|].
  intros j dj cj Hdj Hcj. destruct (lookup_lt_is_Some_2 D j) as [d0 H0]; [apply lookup_lt_Some in Hdj; by rewrite length_insert in Hdj|].
  destruct (lookup_lt_is_Some_2 C j) as [c0 Hc0]; [apply lookup_lt_Some in Hcj; by rewrite length_insert in Hcj|]. destruct (fi_holds _ _ _ _ HF j d0 c0 H0 Hc0) as [K1 K2 K3].
  assert (Ec : cj = if decide (j = i) then c ++ w else c0).
  { case_decide as E; [subst j; rewrite list_lookup_insert_eq in Hcj by (by eapply lookup_lt_Some); by injection Hcj as <-|]. rewrite list_lookup_insert_ne in Hcj by done. congruence. }
  assert (Hoff : off + Z.of_nat (length w) ≤ MAXFILE * BSIZE) by (change MAXFILE with 140 in *; change BSIZE with 512; lia).
  split.
  - rewrite Ec. case_decide; [rewrite length_app; fold off; lia|done].
  - intros o Ho. rewrite (W4 j dj o Hdj Ho), (ex_bytes _ _ _ _ _ _ _ _ He j d0 dj H0 Hdj o Ho), (K2 o Ho), Ec. destruct (decide (j = i)) as [->|Hne]; [|by rewrite decide_False by naive_solver].
    assert (c0 = c) as -> by congruence. destruct (decide _) as [[_ Hin]|Hout].
    + rewrite lookup_app_r by (unfold off in *; lia). f_equal. f_equal. fold off. lia.
    + destruct (decide (o < off)) as [Hlo|Hhi]; [by rewrite lookup_app_l by lia|]. rewrite (lookup_ge_None_2 c), (lookup_ge_None_2 (c ++ w)); [done| |unfold off in *; lia].
      rewrite length_app. apply Z.nlt_ge in Hhi. assert (¬ o < off + Z.of_nat (length w)) by (intros ?; apply Hout; split; [done|lia]). unfold off in *. lia.
  - intros k Hk. rewrite (W3 j dj k Hdj Hk), (ex_has _ _ _ _ _ _ _ _ He j d0 dj H0 Hdj k Hk), (K3 k Hk), Ec. destruct (decide (j = i)) as [->|Hne]; [|naive_solver].
    assert (c0 = c) as -> by congruence. rewrite length_app, Nat2Z.inj_add. fold off. split.
    + intros [?|[_ Hin]]; [lia|]. destruct (Hadd k Hin) as [->|[-> Hn]]; [rewrite (proj2 (Z.eqb_neq fbn MAXFILE)) by lia; change BSIZE with 512; lia|rewrite Z.eqb_refl; change BSIZE with 512; change NDIRECT with 12 in *; lia].
    + intros Hlt'. destruct (decide ((if k =? MAXFILE then NDIRECT else k) * BSIZE < off)) as [|Hge]; [by left|]. right. split; [done|]. unfold added, add_if_none.
      change BSIZE with 512 in *. change MAXFILE with 140 in *. change NDIRECT with 12 in *. unfold slot_index in *. pose proof (K3 k Hk) as K3k. change MAXFILE with 140 in K3k. change NDIRECT with 12 in K3k. change BSIZE with 512 in K3k. fold off in K3k. assert (d0 = d) as -> by congruence.
      destruct (Z.eqb_spec k 140) as [->|Hk140].
      * rewrite (proj2 (Z.ltb_ge fbn 12)) by (unfold fbn; Z.to_euclidean_division_equations; lia). destruct (Z.eqb_spec (dslot f d 140) 0); [set_solver|]. lia.
      * assert (k = fbn) as -> by (unfold fbn in *; Z.to_euclidean_division_equations; lia). destruct (Z.eqb_spec (dslot f d fbn) 0); [set_solver|]. lia.
Qed.
End round.

Lemma need_mono a b : 0 ≤ a ≤ b → need a ≤ need b.
Proof.
  intros H. unfold need. assert ((a + 511) / 512 ≤ (b + 511) / 512) by (apply Z.div_le_mono; lia).
  destruct (Z.ltb_spec 12 ((a + 511) / 512)), (Z.ltb_spec 12 ((b + 511) / 512)); lia.
Qed.

Lemma bytes_take n l : bytes l → bytes (take n l).
Proof. apply Forall_take. Qed.
Lemma bytes_drop n l : bytes l → bytes (drop n l).
Proof. apply Forall_drop. Qed.

(** The loop of iappend appends. *)
Lemma append_run fuel : ∀ p s D C i d c, files (disk s) (freeblock s) D C → D !! i = Some d → C !! i = Some c → bytes p →
  Z.of_nat (length c) + Z.of_nat (length p) ≤ MAXFILE * BSIZE → (length p ≤ fuel)%nat →
  freeblock s + need (Z.of_nat (length c) + Z.of_nat (length p)) - need (Z.of_nat (length c)) ≤ FSSIZE →
  ∃ s' d', append_loop fuel d (Z.of_nat (length c)) p s = Ok ((d', Z.of_nat (length c) + Z.of_nat (length p)), s') ∧
    files (disk s') (freeblock s') (<[i := d']> D) (<[i := c ++ p]> C) ∧ set_addrs [] d' = set_addrs [] d ∧
    freeblock s' = freeblock s + need (Z.of_nat (length c) + Z.of_nat (length p)) - need (Z.of_nat (length c)) ∧
    freeinode s' = freeinode s ∧ (∀ b, b < nmeta → disk s' b = disk s b).
Proof.
  induction fuel as [|fuel IH]; intros p s D C i d c HF Hd HC Hb Hlen Hfuel Hroom; (destruct p as [|y p]; [|]).
  1, 3: exists s, d; cbn [append_loop]; rewrite app_nil_r, Z.add_0_r; split; [done|]; rewrite !list_insert_id by done; split_and!; done || lia.
  { cbn in Hfuel. lia. }
  cbn [append_loop]. set (q := y :: p) in *. set (off := Z.of_nat (length c)) in *. cbv zeta. change BSIZE with 512. set (fbn := off / 512). set (n1 := Z.to_nat (Z.min (Z.of_nat (length q)) ((fbn + 1) * 512 - off))). change (MAXFILE * BSIZE) with 71680 in *.
  assert (Hq : (0 < length q)%nat) by (unfold q; cbn; lia). assert (Ho : 0 ≤ off) by (unfold off; lia).
  assert (Hf : 0 ≤ fbn < MAXFILE ∧ 0 < (fbn + 1) * 512 - off ≤ 512) by (unfold fbn; change MAXFILE with 140; Z.to_euclidean_division_equations; lia).
  assert (Hn1 : (0 < n1 ≤ length q)%nat ∧ off + Z.of_nat n1 ≤ (fbn + 1) * 512 ∧ Z.of_nat n1 = Z.min (Z.of_nat (length q)) ((fbn + 1) * 512 - off)) by (unfold n1; lia).
  rewrite (proj2 (Z.ltb_lt fbn MAXFILE)) by lia. cbn [negb]. set (w := take n1 q). assert (Hlw : length w = n1) by (unfold w; rewrite length_take; lia).
  assert (Hw : w ≠ []) by (intros E; rewrite E in Hlw; cbn in Hlw; lia). assert (Hbw : bytes w) by by apply bytes_take.
  assert (Hq1 : Z.of_nat (length c) / 512 < MAXFILE) by exact (proj2 (proj1 Hf)).
  assert (Hq2 : Z.of_nat (length c) + Z.of_nat (length w) ≤ (Z.of_nat (length c) / 512 + 1) * 512) by (rewrite Hlw; exact (proj1 (proj2 Hn1))).
  pose proof (added_length _ _ _ _ i d c w HF Hd HC Hw Hbw Hq1 Hq2) as Hal. fold off fbn in Hal. rewrite Hlw in Hal.
  pose proof (need_mono (off + Z.of_nat n1) (off + Z.of_nat (length q)) ltac:(lia)) as Hmono.
  destruct (need_block_run s D i d fbn (fi_slots _ _ _ _ HF) Hd ltac:(lia) ltac:(lia)) as (s1 & d1 & E1 & He & Hfi1). rewrite (bind_eq _ _ _ _ _ E1).
  destruct (round_files _ _ _ _ i d c w HF Hd HC Hw Hbw Hq1 Hq2 _ _ _ He) as (Hx & HF2 & Hlow). fold off fbn in Hx, HF2, Hlow.
  assert (Er : rsect (dslot (disk s1) d1 fbn) s1 = Ok (disk s1 (dslot (disk s1) d1 fbn), s1)) by (unfold rsect; rewrite nmeta_eq in Hx; rewrite (proj2 (Z.leb_le _ _)), (proj2 (Z.ltb_lt _ _)) by lia; done).
  rewrite (bind_eq _ _ _ _ _ Er). rewrite (bind_eq _ _ _ _ _ (eq_refl : wsect _ _ s1 = Ok (tt, _))). rewrite u32_small by lia.
  pose proof (ex_fb _ _ _ _ _ _ _ _ He) as Hfb1. pose proof (lookup_lt_Some _ _ _ Hd) as Hlt. pose proof (lookup_lt_Some _ _ _ HC) as HltC.
  set (s2 := mk_image _ (freeinode s1) (freeblock s1)). assert (El : Z.of_nat (length (c ++ w)) = off + Z.of_nat n1) by (rewrite length_app, Hlw; unfold off; lia).
  destruct (IH (drop n1 q) s2 (<[i := d1]> D) (<[i := c ++ w]> C) i d1 (c ++ w)) as (s3 & d3 & E3 & HF3 & Hh3 & Hfb3 & Hfi3 & Hlow3);
    [done|by apply list_lookup_insert_eq|by apply list_lookup_insert_eq|by apply bytes_drop|rewrite El, length_drop; lia|rewrite length_drop; lia|rewrite El, length_drop; cbn [freeblock s2]; replace (off + Z.of_nat n1 + Z.of_nat (length q - n1)) with (off + Z.of_nat (length q)) by lia; lia|].
  rewrite El in E3, Hfb3. rewrite length_drop in E3, Hfb3. replace (off + Z.of_nat n1 + Z.of_nat (length q - n1)) with (off + Z.of_nat (length q)) in E3, Hfb3 by lia.
  exists s3, d3. split; [exact E3|]. rewrite !list_insert_insert_eq, <- app_assoc in HF3. unfold w in HF3. rewrite take_drop in HF3. split; [done|]. split; [|split; [|split]].
  - rewrite Hh3. by apply (ex_head _ _ _ _ _ _ _ _ He).
  - cbn [freeblock s2] in Hfb3. lia.
  - by rewrite Hfi3.
  - intros b Hb'. rewrite Hlow3 by done. by apply Hlow.
Qed.

(** * The image *)

(** The inode [inum] on the image. *)
Definition inode_of (f : Z → list Z) (inum : Z) : dinode := dinode_at (f (IBLOCK inum mkfs_sb)) (Z.to_nat (inum mod IPB * sizeof_dinode)).

Definition total_need (C : list (list Z)) : Z := foldr (λ c n, need (Z.of_nat (length c)) + n) 0 C.

(** Inode number [i + 1] is [D !! i] and has the contents [C !! i]; the others are free. *)
Record img_ok (s : image) (D : list dinode) (C : list (list Z)) : Prop := {
  im_files : files (disk s) (freeblock s) D C;
  im_count : freeinode s = Z.of_nat (length D) + 1 ∧ (length D ≤ 199)%nat;
  im_fb : freeblock s = nmeta + total_need C;
  im_size : ∀ i d c, D !! i = Some d → C !! i = Some c → d_isize d = Z.of_nat (length c);
  im_ok : ∀ i d, D !! i = Some d → dinode_ok d;
  im_disk : ∀ i d, D !! i = Some d → inode_of (disk s) (Z.of_nat i + 1) = d;
  im_unused : ∀ i, Z.of_nat (length D) < i < NINODES → d_type (inode_of (disk s) i) = 0;
  im_sb : disk s 1 = splice zeroes 0 (sb_bytes mkfs_sb) }.

(** The blocks and bytes of the inodes depend on the data blocks only. *)
Lemma slots_same f f' fb D i d : slots_ok f fb D → (∀ b, nmeta ≤ b < FSSIZE → f' b = f b) → D !! i = Some d →
  (∀ k, dslot f' d k = dslot f d k) ∧ ∀ o, 0 ≤ o < MAXFILE * BSIZE → dbyte f' d o = dbyte f d o.
Proof.
  intros [B F Ze A R I] Hf Hd. assert (Hi140 : slot_index MAXFILE) by (unfold slot_index; change MAXFILE with 140; lia).
  assert (Hsl : ∀ k, dslot f' d k = dslot f d k).
  { intros k. unfold dslot. destruct (k =? MAXFILE); [done|]. destruct (k <? NDIRECT); [done|]. destruct (Z.eqb_spec (daddr d 12) 0) as [|Hnz]; [done|].
    rewrite Hf; [done|]. pose proof (R i d MAXFILE Hd Hi140 Hnz) as Hr. change (dslot f d MAXFILE) with (daddr d 12) in Hr. lia. }
  split; [done|]. intros o Ho. unfold dbyte. rewrite Hsl. destruct (Z.eqb_spec (dslot f d (o / BSIZE)) 0) as [|Hnz]; [done|]. rewrite Hf; [done|].
  pose proof (R i d (o / BSIZE) Hd (proj1 (off_index o Ho)) Hnz). lia.
Qed.

(** Blocks below the contents do not matter to the files. *)
Lemma files_low f f' fb D C : files f fb D C → (∀ b, nmeta ≤ b < FSSIZE → f' b = f b) → (∀ b, 0 ≤ b < nmeta → block_ok (f' b)) → files f' fb D C.
Proof.
  intros [Hs L H] Hf Hb. assert (Hsame : ∀ i d, D !! i = Some d → (∀ k, dslot f' d k = dslot f d k) ∧ ∀ o, 0 ≤ o < MAXFILE * BSIZE → dbyte f' d o = dbyte f d o)
    by (intros i d Hd; exact (slots_same f f' fb D i d Hs Hf Hd)).
  destruct Hs as [B F Ze A R I]. rewrite nmeta_eq in *.
  split; [split|done|]; rewrite ?nmeta_eq.
  - intros b Hb'. destruct (decide (b < 59)); [apply Hb; lia|]. rewrite Hf by lia. by apply B.
  - done.
  - intros b Hb'. rewrite Hf by lia. by apply Ze.
  - done.
  - intros i d k Hd Hk. rewrite (proj1 (Hsame i d Hd)). by apply (R i d k).
  - intros i d k i' d' k' Hd Hd' Hk Hk'. rewrite (proj1 (Hsame i d Hd)), (proj1 (Hsame i' d' Hd')). by apply I.
  - intros i d c Hd Hc. destruct (H i d c Hd Hc) as [H1 H2 H3]. destruct (Hsame i d Hd) as [E1 E2]. split; [done| |].
    + intros o Ho. rewrite E2 by done. by apply H2.
    + intros k Hk. rewrite E1. by apply H3.
Qed.

Lemma mk_iblock_range inum : 0 ≤ inum < 208 → 32 ≤ IBLOCK inum mkfs_sb < 58 ∧ IBLOCK inum mkfs_sb = inum / 8 + 32.
Proof. intros H. unfold IBLOCK. change (sb_inodestart mkfs_sb) with 32. change IPB with 8. rewrite u32_small by (Z.to_euclidean_division_equations; lia). Z.to_euclidean_division_equations. lia. Qed.

(** Writing an inode changes that inode only. *)
Lemma winode_run s inum d : 0 ≤ inum < 208 → (∀ b, 0 ≤ b < FSSIZE → block_ok (disk s b)) → dinode_ok d →
  ∃ s', winode inum d s = Ok (tt, s') ∧ freeinode s' = freeinode s ∧ freeblock s' = freeblock s ∧ (∀ b, b ≠ IBLOCK inum mkfs_sb → disk s' b = disk s b) ∧
    (∀ b, 0 ≤ b < FSSIZE → block_ok (disk s' b)) ∧ ∀ j, 0 ≤ j < 208 → inode_of (disk s') j = if j =? inum then d else inode_of (disk s) j.
Proof.
  intros Hi Hb Hd. destruct (mk_iblock_range inum Hi) as [Hr Er]. unfold winode. set (bn := IBLOCK inum mkfs_sb) in *. unfold FSSIZE in *.
  assert (E : rsect bn s = Ok (disk s bn, s)) by (unfold rsect; rewrite (proj2 (Z.leb_le _ _)), (proj2 (Z.ltb_lt _ _)) by (unfold FSSIZE; lia); done). rewrite (bind_eq _ _ _ _ _ E).
  eexists. split; [done|]. cbn [disk freeinode freeblock]. pose proof (Hb bn ltac:(lia)) as Hbn. pose proof (bo_len _ Hbn) as Hl. change (Z.to_nat BSIZE) with 512%nat in Hl.
  pose proof (length_dinode d (dk_len _ Hd)) as Hld. set (o := Z.to_nat (inum mod IPB * sizeof_dinode)). change IPB with 8 in *. unfold sizeof_dinode in *.
  assert (Ho : (o + 64 ≤ 512)%nat ∧ Z.of_nat o = inum mod 8 * 64) by (unfold o; Z.to_euclidean_division_equations; lia). split_and!; try done.
  - intros b Hne. by rewrite (proj2 (Z.eqb_neq b bn)).
  - intros b Hb'. destruct (b =? bn); [|by apply Hb]. apply block_splice; [done|apply bytes_dinode|lia].
  - intros j Hj. destruct (mk_iblock_range j Hj) as [Hrj Erj]. unfold inode_of. change IPB with 8. unfold sizeof_dinode. destruct (Z.eqb_spec j inum) as [->|Hne].
    + fold bn. rewrite Z.eqb_refl. fold o. apply dinode_codec; [done|lia].
    + destruct (Z.eqb_spec (IBLOCK j mkfs_sb) bn) as [Eb|Hnb]; [|done]. rewrite Eb. apply dinode_at_other; [lia|]. rewrite Hld. rewrite Erj, Er in Eb. assert (j mod 8 ≠ inum mod 8) by (Z.to_euclidean_division_equations; lia).
      assert (0 ≤ j mod 8 < 8) by (apply Z.mod_pos_bound; lia). lia.
Qed.

Lemma total_need_app C C' : total_need (C ++ C') = total_need C + total_need C'.
Proof. induction C as [|c C IH]; cbn; [done|]. fold (total_need (C ++ C')) (total_need C). rewrite IH. lia. Qed.

Lemma total_need_insert C i c c' : C !! i = Some c → total_need (<[i := c']> C) = total_need C - need (Z.of_nat (length c)) + need (Z.of_nat (length c')).
Proof.
  revert i. induction C as [|x C IH]; intros [|i]; try done.
  - intros [= ->]. cbn. fold (total_need C). lia.
  - cbn. intros H. specialize (IH i H). change (need (Z.of_nat (length x)) + total_need (<[i := c']> C) = need (Z.of_nat (length x)) + total_need C - need (Z.of_nat (length c)) + need (Z.of_nat (length c'))). lia.
Qed.

Lemma snoc_lookup {A} (l : list A) x j y : (l ++ [x]) !! j = Some y → l !! j = Some y ∨ j = length l ∧ y = x.
Proof. intros H. apply lookup_app_Some in H as [H|[Hl H]]; [by left|]. right. destruct (j - length l)%nat eqn:E; [|done]. injection H as <-. split; [lia|done]. Qed.

Definition empty_inode (type : Z) : dinode := mk_dinode type 0 0 1 0 (replicate 13 0).

Lemma empty_slot f type k : slot_index k → dslot f (empty_inode type) k = 0.
Proof.
  intros Hk. assert (Ha : ∀ j, daddr (empty_inode type) j = 0).
  { intros j. unfold daddr, empty_inode. cbn [d_addrs]. destruct (replicate 13 0 !! j) as [x|] eqn:E; [|done]. by apply lookup_replicate in E as [-> _]. }
  unfold dslot. rewrite !Ha. by destruct (k =? MAXFILE), (k <? NDIRECT).
Qed.

(** A new empty inode. *)
Lemma files_new f fb D C type : files f fb D C → files f fb (D ++ [empty_inode type]) (C ++ [[]]).
Proof.
  intros [[B F Ze A R I] L H]. split; [split; try done|by rewrite !length_app, L|].
  - intros i d [Hd|[_ ->]]%snoc_lookup; [by eapply A|done].
  - intros i d k [Hd|[_ ->]]%snoc_lookup Hk; [by apply (R i)|by rewrite empty_slot].
  - intros i d k i' d' k' Hd Hd' Hk Hk' Hnz E. apply snoc_lookup in Hd as [Hd|[_ ->]]; [|by rewrite empty_slot in Hnz].
    apply snoc_lookup in Hd' as [Hd'|[_ ->]]; [by eapply I|]. rewrite (empty_slot _ _ k' Hk') in E. done.
  - intros i d c Hd Hc. apply snoc_lookup in Hd as [Hd|[Ei ->]]; apply snoc_lookup in Hc as [Hc|[Ei' ->]].
    + by eapply H.
    + apply lookup_lt_Some in Hd. lia.
    + apply lookup_lt_Some in Hc. lia.
    + split; [cbn; unfold BSIZE; change MAXFILE with 140; lia| |].
      * intros o Ho. unfold dbyte. by rewrite empty_slot by (by apply off_index).
      * intros k Hk. rewrite empty_slot by done. unfold slot_index in Hk. cbn. change NDIRECT with 12. unfold BSIZE. split; [done|]. destruct (k =? MAXFILE); lia.
Qed.

Lemma mk_ialloc_run s D C type : img_ok s D C → short type → (length D < 199)%nat →
  ∃ s', mk_ialloc type s = Ok (Z.of_nat (length D) + 1, s') ∧ img_ok s' (D ++ [empty_inode type]) (C ++ [[]]).
Proof.
  intros [HF [Hc Hc'] Hfb Hsz Hok Hd Hun Hsb] Ht Hn. unfold mk_ialloc, next_inode. munfold. cbn [disk freeinode freeblock].
  assert (Hdo : dinode_ok (empty_inode type)) by (split; cbn; unfold short in *; try lia; repeat constructor; lia).
  destruct (winode_run (mk_image (disk s) (u32 (freeinode s + 1)) (freeblock s)) (freeinode s) (empty_inode type)) as (s' & E & E1 & E2 & Eb & Hb & Ei);
    [lia|apply (fi_slots _ _ _ _ HF)|done|]. unfold empty_inode in E. unfold mbind, M_bind in E |- *. rewrite E. exists s'. rewrite Hc. split; [done|]. cbn [disk freeinode freeblock] in *.
  destruct (mk_iblock_range (freeinode s) ltac:(lia)) as [Hr _]. rewrite u32_small in E1 by lia. split.
  - rewrite E2. apply files_new. eapply files_low; [exact HF|intros b Hb'; apply Eb; rewrite nmeta_eq in Hb'; lia|]. intros b Hb'. rewrite nmeta_eq in Hb'. apply Hb. unfold FSSIZE. lia.
  - rewrite length_app. cbn. lia.
  - rewrite E2, Hfb, total_need_app. change (total_need [[]]) with 0. lia.
  - intros i d c [Hdi|[E3 ->]]%snoc_lookup [Hci|[E4 ->]]%snoc_lookup; [by eapply Hsz|apply lookup_lt_Some in Hdi; rewrite (fi_len _ _ _ _ HF) in Hdi; lia|apply lookup_lt_Some in Hci; rewrite <- (fi_len _ _ _ _ HF) in Hci; lia|done].
  - intros i d [Hdi|[_ ->]]%snoc_lookup; [by eapply Hok|done].
  - intros i d [Hdi|[-> ->]]%snoc_lookup.
    + pose proof (lookup_lt_Some _ _ _ Hdi). rewrite Ei by lia. rewrite (proj2 (Z.eqb_neq _ _)) by lia. by apply Hd.
    + rewrite Ei by lia. by rewrite (proj2 (Z.eqb_eq _ _)) by lia.
  - intros i Hi. rewrite length_app in Hi. cbn in Hi. unfold NINODES in *. rewrite Ei by lia. rewrite (proj2 (Z.eqb_neq _ _)) by lia. apply Hun. lia.
  - rewrite Eb by lia. done.
Qed.

(** The addresses of an inode are block numbers. *)
Lemma addrs_range f fb D i d : slots_ok f fb D → D !! i = Some d → Forall (λ a, 0 ≤ a < 2 ^ 32) (d_addrs d).
Proof.
  intros Hs Hd. pose proof (so_addrs _ _ _ Hs i d Hd) as Hl. pose proof (so_fb _ _ _ Hs) as F. rewrite nmeta_eq in F. unfold FSSIZE in F. apply Forall_lookup. intros j a Ha. pose proof (lookup_lt_Some _ _ _ Ha) as Hj.
  set (k := if (j =? 12)%nat then MAXFILE else Z.of_nat j). assert (Hk : direct_slot k j).
  { unfold k, direct_slot. change NDIRECT with 12. destruct (Nat.eqb_spec j 12) as [->|]; [by right|left; lia]. }
  assert (Hi : slot_index k) by (unfold k, slot_index; change MAXFILE with 140; destruct (j =? 12)%nat; lia).
  assert (E : dslot f d k = a) by (rewrite (dslot_direct _ _ _ _ Hk); unfold daddr; by rewrite Ha). destruct (decide (a = 0)) as [->|Hnz]; [lia|].
  pose proof (so_range _ _ _ Hs i d k Hd Hi ltac:(congruence)) as Hr. rewrite nmeta_eq in Hr. lia.
Qed.

(** The other fields of an inode do not matter to the files. *)
Lemma files_addrs f fb D C i d d' : files f fb D C → D !! i = Some d → d_addrs d' = d_addrs d → files f fb (<[i := d']> D) C.
Proof.
  intros [[B F Ze A R I] L H] Hd Ed. assert (Hto : ∀ j dj, (<[i := d']> D) !! j = Some dj → ∃ dj', D !! j = Some dj' ∧ d_addrs dj' = d_addrs dj).
  { intros j dj [[-> ->]|[Hne Hj]]%lookup_insert_cases; eauto. }
  assert (Hda : ∀ f x y k, d_addrs x = d_addrs y → dslot f x k = dslot f y k) by (intros g x y k E; unfold dslot, daddr; by rewrite E).
  split; [split; try done|by rewrite length_insert|].
  - intros j dj Hj. destruct (Hto _ _ Hj) as (x & Hx & <-). by eapply A.
  - intros j dj k Hj Hk. destruct (Hto _ _ Hj) as (x & Hx & Ex). rewrite <- (Hda _ x dj k Ex). by apply (R j).
  - intros j dj k j' dj' k' Hj Hj' Hk Hk'. destruct (Hto _ _ Hj) as (x & Hx & Ex). destruct (Hto _ _ Hj') as (x' & Hx' & Ex'). rewrite <- (Hda _ x dj k Ex), <- (Hda _ x' dj' k' Ex'). by apply I.
  - intros j dj cj Hj Hcj. destruct (Hto _ _ Hj) as (x & Hx & Ex). destruct (H j x cj Hx Hcj) as [H1 H2 H3]. split; [done| |].
    + intros o Ho. unfold dbyte. rewrite <- (Hda _ x dj _ Ex). by apply H2.
    + intros k Hk. rewrite <- (Hda _ x dj k Ex). by apply H3.
Qed.

Lemma rinode_run s D C i d : img_ok s D C → D !! i = Some d → rinode (Z.of_nat i + 1) s = Ok (d, s).
Proof.
  intros Hs Hd. pose proof (lookup_lt_Some _ _ _ Hd) as Hlt. pose proof (im_count _ _ _ Hs) as [_ Hc]. destruct (mk_iblock_range (Z.of_nat i + 1) ltac:(lia)) as [Hr _].
  unfold rinode, rsect. rewrite (proj2 (Z.leb_le _ _)), (proj2 (Z.ltb_lt _ _)) by (unfold FSSIZE; lia). munfold. cbn [andb].
  pose proof (im_disk _ _ _ Hs i d Hd) as E. unfold inode_of in E. by rewrite E.
Qed.

Lemma iappend_run s D C i d c p : img_ok s D C → D !! i = Some d → C !! i = Some c → bytes p →
  Z.of_nat (length c) + Z.of_nat (length p) ≤ MAXFILE * BSIZE → nmeta + total_need (<[i := c ++ p]> C) ≤ FSSIZE →
  ∃ s' d', iappend (Z.of_nat i + 1) p s = Ok (tt, s') ∧ img_ok s' (<[i := d']> D) (<[i := c ++ p]> C) ∧
    set_addrs [] d' = set_addrs [] (set_dsize (Z.of_nat (length (c ++ p))) d).
Proof.
  intros Hs Hdi Hci Hb Hlen Hroom. pose proof (rinode_run _ _ _ _ _ Hs Hdi) as Er. destruct Hs as [HF [Hcn Hcn'] Hfb Hsz Hok Hd Hun Hsb]. pose proof (lookup_lt_Some _ _ _ Hdi) as Hlt. unfold iappend.
  destruct (mk_iblock_range (Z.of_nat i + 1) ltac:(lia)) as [Hr _].
  rewrite (bind_eq _ _ _ _ _ Er), (Hsz i d c Hdi Hci). rewrite (total_need_insert _ _ _ _ Hci), length_app, Nat2Z.inj_add in Hroom.
  destruct (append_run (length p) p s D C i d c HF Hdi Hci Hb Hlen ltac:(lia) ltac:(lia)) as (s1 & d1 & E1 & HF1 & Hh & Hfb1 & Hfi & Hlow). rewrite (bind_eq _ _ _ _ _ E1).
  set (n := Z.of_nat (length c) + Z.of_nat (length p)) in *. set (d2 := set_dsize n d1). pose proof (Hok i d Hdi) as [O1 O2 O3 O4 O5 O6 O7]. unfold set_addrs in Hh. injection Hh as Q1 Q2 Q3 Q4 Q5.
  assert (Hd1 : (<[i := d1]> D) !! i = Some d1) by by apply list_lookup_insert_eq. pose proof (fi_slots _ _ _ _ HF1) as Hs1.
  assert (Hok2 : dinode_ok d2).
  { split; cbn; rewrite ?Q1, ?Q2, ?Q3, ?Q4; try done; [change (MAXFILE * BSIZE) with 71680 in Hlen; lia|by eapply so_addrs|by eapply addrs_range]. }
  destruct (winode_run s1 (Z.of_nat i + 1) d2) as (s2 & E2 & Hfi2 & Hfb2 & Eb2 & Hb2 & Ei2); [lia|apply Hs1|done|].
  exists s2, d2. split; [exact E2|]. split; [|unfold d2, set_addrs, set_dsize; cbn; rewrite Q1, Q2, Q3, Q4, length_app, Nat2Z.inj_add; done].
  assert (HC2 : ∀ j dj, (<[i := d2]> D) !! j = Some dj → j = i ∧ dj = d2 ∨ j ≠ i ∧ D !! j = Some dj) by (intros j dj Hj; by apply lookup_insert_cases).
  split.
  - rewrite Hfb2. assert (HF2 : files (disk s1) (freeblock s1) (<[i := d2]> D) (<[i := c ++ p]> C)).
    { pose proof (files_addrs _ _ _ _ i d1 d2 HF1 Hd1 eq_refl) as H. by rewrite list_insert_insert_eq in H. }
    eapply files_low; [exact HF2|intros b Hb'; apply Eb2; rewrite nmeta_eq in Hb'; lia|]. intros b Hb'. rewrite nmeta_eq in Hb'. apply Hb2. unfold FSSIZE. lia.
  - rewrite length_insert. by rewrite Hfi2, Hfi.
  - rewrite Hfb2, Hfb1, Hfb, (total_need_insert _ _ _ _ Hci), length_app, Nat2Z.inj_add. fold n. lia.
  - intros j dj cj [[-> ->]|[Hne Hj]]%HC2 Hcj; [rewrite list_lookup_insert_eq in Hcj by (by eapply lookup_lt_Some); injection Hcj as <-; cbn; rewrite length_app; lia|].
    rewrite list_lookup_insert_ne in Hcj by done. by eapply Hsz.
  - intros j dj [[-> ->]|[Hne Hj]]%HC2; [done|by eapply Hok].
  - intros j dj [[-> ->]|[Hne Hj]]%HC2; [rewrite Ei2 by lia; by rewrite Z.eqb_refl|]. pose proof (lookup_lt_Some _ _ _ Hj). rewrite Ei2 by lia. rewrite (proj2 (Z.eqb_neq _ _)) by lia.
    rewrite <- (Hd j dj Hj). unfold inode_of. rewrite Hlow; [done|]. rewrite nmeta_eq. pose proof (mk_iblock_range (Z.of_nat j + 1) ltac:(lia)). lia.
  - intros j Hj. rewrite length_insert in Hj. unfold NINODES in *. rewrite Ei2 by lia. rewrite (proj2 (Z.eqb_neq _ _)) by lia. rewrite <- (Hun j) by lia. unfold inode_of. rewrite Hlow; [done|].
    rewrite nmeta_eq. pose proof (mk_iblock_range j ltac:(lia)). lia.
  - rewrite Eb2 by lia. rewrite Hlow by (rewrite nmeta_eq; lia). done.
Qed.

Lemma need_total_mono C i c p q : C !! i = Some c → total_need (<[i := c ++ p]> C) ≤ total_need (<[i := c ++ p ++ q]> C).
Proof.
  intros H. rewrite !(total_need_insert _ _ _ _ H). pose proof (need_mono (Z.of_nat (length (c ++ p))) (Z.of_nat (length (c ++ p ++ q)))) as Hm. rewrite !length_app in *. lia.
Qed.

(** The head of an inode but for its size. *)
Definition head_of (d : dinode) : dinode := set_dsize 0 (set_addrs [] d).

Lemma copy_run fuel : ∀ data s D C i d c, img_ok s D C → D !! i = Some d → C !! i = Some c → bytes data → (length data ≤ fuel)%nat →
  Z.of_nat (length c) + Z.of_nat (length data) ≤ MAXFILE * BSIZE → nmeta + total_need (<[i := c ++ data]> C) ≤ FSSIZE →
  ∃ s' d', copy_file fuel (Z.of_nat i + 1) data s = Ok (tt, s') ∧ img_ok s' (<[i := d']> D) (<[i := c ++ data]> C) ∧ head_of d' = head_of d.
Proof.
  induction fuel as [|fuel IH]; intros data s D C i d c Hs Hd Hc Hb Hf Hlen Hroom; (destruct data as [|y data]; [|]).
  1, 3: exists s, d; rewrite app_nil_r, !list_insert_id by done; done.
  { cbn in Hf. lia. }
  cbn [copy_file]. set (q := y :: data) in *. change (Z.to_nat BSIZE) with 512%nat. assert (Hq : (0 < length q)%nat) by (unfold q; cbn; lia). set (p1 := take 512 q). set (p2 := drop 512 q).
  assert (Eq : p1 ++ p2 = q) by apply take_drop. pose proof (f_equal length Eq) as El. rewrite length_app in El. assert (Hp2 : (length p2 < length q)%nat) by (unfold p2; rewrite length_drop; lia).
  pose proof (need_total_mono C i c p1 p2 Hc) as Hm. rewrite Eq in Hm.
  destruct (iappend_run s D C i d c p1) as (s1 & d1 & E1 & Hs1 & Hh1); [done|done|done|by apply bytes_take|lia|lia|]. rewrite (bind_eq _ _ _ _ _ E1).
  pose proof (lookup_lt_Some _ _ _ Hd) as Hl. pose proof (lookup_lt_Some _ _ _ Hc) as HlC.
  destruct (IH p2 s1 (<[i := d1]> D) (<[i := c ++ p1]> C) i d1 (c ++ p1)) as (s2 & d2 & E2 & Hs2 & Hh2);
    [done|by apply list_lookup_insert_eq|by apply list_lookup_insert_eq|by apply bytes_drop|lia|rewrite length_app; lia|by rewrite list_insert_insert_eq, <- app_assoc, Eq|].
  exists s2, d2. split; [exact E2|]. rewrite !list_insert_insert_eq, <- app_assoc, Eq in Hs2. split; [done|]. rewrite Hh2. unfold head_of. by rewrite Hh1.
Qed.

(** ** The files of the command line *)

Definition stripped (name : list Z) : list Z := match name with c :: rest => if c =? ch "_" then rest else name | [] => name end.

Record file_fits (file : list Z * list Z) : Prop := {
  ff_name : bytes file.1 ∧ 0 ∉ file.1 ∧ ch "/" ∉ file.1;
  ff_data : bytes file.2;
  ff_len : Z.of_nat (length file.2) ≤ MAXFILE * BSIZE }.

(** The entries of the files from inode [n] on. *)
Fixpoint file_entries (n : nat) (fs : list (list Z * list Z)) : list Z :=
  match fs with
  | [] => []
  | file :: fs => entry_bytes (Z.of_nat n) (stripped file.1) ++ file_entries (S n) fs
  end.

(** The root directory is the first inode, the others are files. *)
Definition typed (D : list dinode) : Prop := ∀ i d, D !! i = Some d → head_of d = head_of (empty_inode (if (i =? 0)%nat then T_DIR else T_FILE)).

Lemma bytes_strncpy name n : bytes name → bytes (strncpy_l name n).
Proof.
  revert name. induction n as [|n IH]; intros name H; cbn; [constructor|]. destruct name as [|c name]; [constructor; [lia|by apply IH]|]. apply Forall_cons in H as [Hc H].
  destruct (c =? 0); (constructor; [lia|]); [apply IH; constructor|by apply IH].
Qed.

Lemma bytes_stripped name : bytes name → bytes (stripped name).
Proof. intros H. destruct H as [|c name Hc H]; [constructor|]. cbn. destruct (c =? ch "_"); [done|by constructor]. Qed.

Lemma entry_bytes_ok inum name : bytes name → bytes (entry_bytes inum name) ∧ length (entry_bytes inum name) = 16%nat.
Proof.
  intros H. unfold entry_bytes, dirent_bytes. cbn [de_inum de_name]. rewrite length_app, length_strncpy_l. split; [|done]. apply Forall_app. split; [apply bytes_half|by apply bytes_strncpy].
Qed.

Lemma typed_insert D i d d' : typed D → D !! i = Some d → head_of d' = head_of d → typed (<[i := d']> D).
Proof. intros H Hd Hh j dj [[-> ->]|[Hne Hj]]%lookup_insert_cases; [rewrite Hh; by apply H|by apply H]. Qed.

Lemma add_file_run s D C r file : img_ok s D (r :: C) → typed D → file_fits file → (length D < 199)%nat → Z.of_nat (length r) + 16 ≤ MAXFILE * BSIZE →
  nmeta + total_need ((r ++ entry_bytes (Z.of_nat (length D) + 1) (stripped file.1)) :: C ++ [file.2]) ≤ FSSIZE →
  ∃ s' D', add_file 1 file s = Ok (tt, s') ∧ img_ok s' D' ((r ++ entry_bytes (Z.of_nat (length D) + 1) (stripped file.1)) :: C ++ [file.2]) ∧ typed D' ∧ length D' = S (length D).
Proof.
  destruct file as [name data]. intros Hs Ht [(Hn1 & Hn2 & Hn3) Hdb Hdl] Hl Hr Hroom. cbn [fst snd] in *. unfold add_file. assert (Ex : existsb (Z.eqb (ch "/")) name = false).
  { apply not_true_iff_false. rewrite existsb_exists. intros (x & Hx & E). apply Z.eqb_eq in E as <-. by apply Hn3, list_elem_of_In. }
  rewrite Ex. cbv zeta. fold (stripped name). destruct (mk_ialloc_run s D (r :: C) T_FILE Hs ltac:(done) Hl) as (s1 & E1 & Hs1). rewrite (bind_eq _ _ _ _ _ E1).
  set (e := entry_bytes (Z.of_nat (length D) + 1) (stripped name)) in *. destruct (entry_bytes_ok (Z.of_nat (length D) + 1) (stripped name) (bytes_stripped _ Hn1)) as [Heb Hel]. fold e in Heb, Hel.
  pose proof (fi_len _ _ _ _ (im_files _ _ _ Hs)) as HL. cbn in HL. destruct D as [|d0 D]; [done|]. cbn [length app] in *.
  assert (Hm : total_need ((r ++ e) :: C ++ [[]]) ≤ total_need ((r ++ e) :: C ++ [data])).
  { change (total_need ((r ++ e) :: C ++ [[]])) with (need (Z.of_nat (length (r ++ e))) + total_need (C ++ [[]])). change (total_need ((r ++ e) :: C ++ [data])) with (need (Z.of_nat (length (r ++ e))) + total_need (C ++ [data])).
    rewrite !total_need_app. pose proof (need_mono 0 (Z.of_nat (length data)) ltac:(lia)) as Hn0. change (need 0) with 0 in Hn0. change (total_need [[]]) with 0. change (total_need [data]) with (need (Z.of_nat (length data)) + 0). lia. }
  destruct (iappend_run s1 _ _ 0 d0 r e Hs1 eq_refl eq_refl Heb ltac:(rewrite Hel; lia) ltac:(cbn [insert list_insert]; lia)) as (s2 & d2 & E2 & Hs2 & Hh2). rewrite (bind_eq _ _ _ _ _ E2). cbn [insert list_insert] in Hs2.
  assert (Hi : ∀ A (x y : A) l, (x :: l ++ [y]) !! S (length l) = Some y) by (intros A x y l; change ((l ++ [y]) !! length l = Some y); by rewrite lookup_app_r, Nat.sub_diag by lia).
  assert (Hu : ∀ A (x y z : A) l, <[S (length l) := z]> (x :: l ++ [y]) = x :: l ++ [z]) by (intros A x y z l; change (x :: <[length l := z]> (l ++ [y]) = x :: l ++ [z]); by rewrite insert_app_r_alt, Nat.sub_diag by lia).
  destruct (copy_run (length data) data s2 _ _ (S (length D)) (empty_inode T_FILE) [] Hs2 (Hi _ _ _ _)) as (s3 & d3 & E3 & Hs3 & Hh3).
  { replace (length D) with (length C) by lia. apply Hi. }
  { done. } { lia. } { cbn. lia. }
  { replace (length D) with (length C) by lia. rewrite Hu. exact Hroom. }
  exists s3. eexists. split; [rewrite <- E3; f_equal; lia|]. replace (length D) with (length C) in Hs3 at 2 by lia. rewrite (Hu _ _ _ ([] ++ data)) in Hs3.
  split; [exact Hs3|]. split; [|rewrite length_insert; cbn; rewrite length_app; cbn; lia].
  apply (typed_insert _ _ (empty_inode T_FILE)); [|apply Hi|done]. intros j dj Hj. destruct j as [|j]; [injection Hj as <-; unfold head_of; rewrite Hh2; exact (Ht 0%nat d0 eq_refl)|]. change ((D ++ [empty_inode T_FILE]) !! j = Some dj) in Hj. apply snoc_lookup in Hj as [Hj|[_ ->]]; [by apply (Ht (S j))|done].
Qed.

Lemma need_total_cons r r' C C' : (length r ≤ length r')%nat → total_need C ≤ total_need C' → total_need (r :: C) ≤ total_need (r' :: C').
Proof.
  intros Hr HC. change (need (Z.of_nat (length r)) + total_need C ≤ need (Z.of_nat (length r')) + total_need C').
  pose proof (need_mono (Z.of_nat (length r)) (Z.of_nat (length r'))). lia.
Qed.

Lemma need_total_nonneg C : 0 ≤ total_need C.
Proof. induction C as [|c C IH]; [done|]. change (0 ≤ need (Z.of_nat (length c)) + total_need C). pose proof (need_mono 0 (Z.of_nat (length c)) ltac:(lia)) as H. change (need 0) with 0 in H. lia. Qed.

Lemma length_file_entries fs n : Forall file_fits fs → length (file_entries n fs) = (16 * length fs)%nat.
Proof.
  intros H. revert n. induction H as [|file fs [(Hn & _) _ _] H IH]; intros n; [done|]. cbn [file_entries length].
  rewrite length_app, IH, (proj2 (entry_bytes_ok _ _ (bytes_stripped _ Hn))). lia.
Qed.

(** All the files of the command line. *)
Lemma add_files_run fs : ∀ s D C r, img_ok s D (r :: C) → typed D → Forall file_fits fs → (length D + length fs ≤ 199)%nat →
  Z.of_nat (length r) + 16 * Z.of_nat (length fs) ≤ MAXFILE * BSIZE →
  nmeta + total_need ((r ++ file_entries (S (length D)) fs) :: C ++ (snd <$> fs)) ≤ FSSIZE →
  ∃ s' D', add_files 1 fs s = Ok (tt, s') ∧ img_ok s' D' ((r ++ file_entries (S (length D)) fs) :: C ++ (snd <$> fs)) ∧ typed D' ∧ length D' = (length D + length fs)%nat.
Proof.
  induction fs as [|file fs IH]; intros s D C r Hs Ht Hf Hl Hr Hroom.
  { exists s, D. cbn [file_entries fmap list_fmap]. rewrite !app_nil_r. split_and!; try done. }
  apply Forall_cons in Hf as [Hf Hfs]. cbn [length] in Hl, Hr. cbn [file_entries add_files] in *. change (snd <$> file :: fs) with ([file.2] ++ (snd <$> fs)) in *. rewrite !app_assoc in *.
  replace (Z.of_nat (S (length D))) with (Z.of_nat (length D) + 1) in * by lia. set (e := entry_bytes (Z.of_nat (length D) + 1) (stripped file.1)) in *.
  assert (He : length e = 16%nat) by (apply entry_bytes_ok, bytes_stripped, Hf).
  assert (Hm : total_need ((r ++ e) :: C ++ [file.2]) ≤ total_need (((r ++ e) ++ file_entries (S (S (length D))) fs) :: (C ++ [file.2]) ++ (snd <$> fs))).
  { apply need_total_cons; [rewrite (length_app (r ++ e)); lia|]. rewrite (total_need_app (C ++ [file.2])). pose proof (need_total_nonneg (snd <$> fs)). lia. }
  destruct (add_file_run s D C r file Hs Ht Hf ltac:(lia) ltac:(lia)) as (s1 & D1 & E1 & Hs1 & Ht1 & Hl1); [fold e; lia|]. fold e in Hs1. rewrite (bind_eq _ _ _ _ _ E1).
  rewrite <- Hl1 in Hroom |- *. destruct (IH s1 D1 (C ++ [file.2]) (r ++ e) Hs1 Ht1 Hfs) as (s2 & D2 & E2 & Hs2 & Ht2 & Hl2); [lia|rewrite length_app; lia|done|].
  exists s2, D2. split_and!; try done. cbn [length]. lia.
Qed.

(** ** The free map *)

Lemma length_set_bits n buf : length (set_bits n buf) = length buf.
Proof. induction n as [|n IH]; [done|]. cbn [set_bits]. cbv zeta. by rewrite length_map_store. Qed.

Lemma set_bits_bit n buf b : (n ≤ 8 * length buf)%nat → 0 ≤ b → map_bit (set_bits n buf) b = (b <? Z.of_nat n) || map_bit buf b.
Proof.
  intros Hn Hb. induction n as [|n IH]; [by rewrite (proj2 (Z.ltb_ge b (Z.of_nat 0)))|]. change (set_bits (S n) buf) with (map_set (set_bits n buf) (Z.of_nat n)).
  rewrite map_set_bit, IH by (rewrite ?length_set_bits; Z.to_euclidean_division_equations; lia). rewrite orb_assoc. f_equal.
  destruct (Z.eqb_spec b (Z.of_nat n)), (Z.ltb_spec b (Z.of_nat n)), (Z.ltb_spec b (Z.of_nat (S n))); (done || lia).
Qed.

Lemma lor_bits_range n a b : 0 ≤ n → 0 ≤ a < 2 ^ n → 0 ≤ b < 2 ^ n → 0 ≤ Z.lor a b < 2 ^ n.
Proof.
  intros Hn [Ha Ha'] [Hb Hb']. assert (Hl : 0 ≤ Z.lor a b) by by apply Z.lor_nonneg. split; [done|]. pose proof (proj1 (Z.bounded_iff_bits_nonneg n a Hn Ha) Ha') as Ha2. pose proof (proj1 (Z.bounded_iff_bits_nonneg n b Hn Hb) Hb') as Hb2.
  apply (Z.bounded_iff_bits_nonneg n); [done|done|]. intros l Hnl. by rewrite Z.lor_spec, Ha2, Hb2.
Qed.

Lemma set_bits_ok n buf : block_ok buf → block_ok (set_bits n buf).
Proof.
  intros [Hl Hb]. split; [by rewrite length_set_bits|]. induction n as [|n IH]; [done|]. cbn [set_bits]. cbv zeta. unfold map_store. apply Forall_insert; [done|].
  unfold map_byte. pose proof (Z.mod_pos_bound (Z.of_nat n) 8 ltac:(lia)) as Hm. assert (Hx : 0 ≤ default 0 (set_bits n buf !! Z.to_nat (Z.of_nat n / 8)) < 2 ^ 8).
  { destruct (_ !! _) as [x|] eqn:E; [|done]. exact (Forall_lookup_1 _ _ _ _ IH E). }
  change 256 with (2 ^ 8). apply lor_bits_range; [lia|done|]. rewrite Z.shiftl_1_l. split; [lia|]. apply Z.pow_lt_mono_r; lia.
Qed.

Lemma zeroes_bit b : map_bit zeroes b = false.
Proof. unfold map_bit, map_byte. rewrite zeroes_byte. done. Qed.

(** The marks of the blocks that are in use. *)
Lemma map_of_bits f n b : 0 ≤ b < FSSIZE → 0 ≤ n ≤ 4096 → f (sb_bmapstart mkfs_sb) = set_bits (Z.to_nat n) zeroes → map_used mkfs_sb f b = (b <? n).
Proof.
  unfold FSSIZE. intros Hb Hn E. unfold map_used, BBLOCK. change BPB with 4096. rewrite (Z.div_small b 4096), (Z.mod_small b 4096) by lia. change (u32 (0 + sb_bmapstart mkfs_sb)) with (sb_bmapstart mkfs_sb).
  rewrite E, set_bits_bit by (lia || (change (length zeroes) with 512%nat; lia)). rewrite zeroes_bit, orb_false_r, Z2Nat.id by lia. done.
Qed.

(** ** The whole image *)

Definition root_data (fs : list (list Z * list Z)) : list Z := entry_bytes 1 [ch "."] ++ entry_bytes 1 [ch "."; ch "."] ++ file_entries 2 fs.
Definition root_size (n : nat) : Z := ((32 + 16 * Z.of_nat n) / BSIZE + 1) * BSIZE.

(** The image with the files [fs]: its inodes are [D] from number 1 on and the blocks up
    to [fb] are in use. *)
Record made (f : Z → list Z) (fb : Z) (D : list dinode) (fs : list (list Z * list Z)) : Prop := {
  md_files : files f fb D (root_data fs :: (snd <$> fs));
  md_typed : typed D;
  md_root : ∀ d, D !! 0%nat = Some d → d_isize d = root_size (length fs);
  md_size : ∀ i d file, D !! S i = Some d → fs !! i = Some file → d_isize d = Z.of_nat (length file.2);
  md_disk : ∀ i d, D !! i = Some d → inode_of f (Z.of_nat i + 1) = d;
  md_unused : ∀ i, Z.of_nat (length D) < i < NINODES → d_type (inode_of f i) = 0;
  md_sb : sb_of (f 1) = mkfs_sb;
  md_map : ∀ b, 0 ≤ b < FSSIZE → map_used mkfs_sb f b = (b <? fb) }.

Lemma length_root fs : Forall file_fits fs → length (root_data fs) = (32 + 16 * length fs)%nat.
Proof. intros H. unfold root_data. rewrite !length_app, length_file_entries by done. done. Qed.

Lemma sb_codec : sb_of (splice zeroes 0 (sb_bytes mkfs_sb)) = mkfs_sb.
Proof. vm_compute. done. Qed.

Lemma bytes_words l : bytes (concat (word <$> l)).
Proof. apply Forall_concat, Forall_fmap, Forall_true. intros x. apply bytes_word. Qed.

Lemma field_zero n o k : field (replicate n 0) o k = 0.
Proof. unfold field. rewrite drop_replicate, take_replicate. generalize (k `min` (n - o))%nat. intros j. induction j as [|j IH]; cbn; lia. Qed.

(** The disk when it is cleared and has its super block. *)
Lemma img_start s : (∀ b, 0 ≤ b < FSSIZE → disk s b = if b =? 1 then splice zeroes 0 (sb_bytes mkfs_sb) else zeroes) → freeinode s = 1 → freeblock s = nmeta → img_ok s [] [].
Proof.
  intros Hd Hi Hb. split; try done.
  - split; [split; try done|done|done].
    + intros b Hb'. rewrite Hd by done. destruct (b =? 1); [|apply zeroes_ok]. apply block_splice; [apply zeroes_ok|apply bytes_words|vm_compute; lia].
    + rewrite Hb, nmeta_eq. unfold FSSIZE. lia.
    + intros b Hb'. rewrite Hb, nmeta_eq in Hb'. rewrite Hd by lia. by rewrite (proj2 (Z.eqb_neq b 1)) by lia.
  - split; [by rewrite Hi|cbn; lia].
  - intros i Hi'. cbn in Hi'. unfold NINODES in Hi'. unfold inode_of. destruct (mk_iblock_range i ltac:(lia)) as [Hr _]. rewrite Hd by (unfold FSSIZE; lia). rewrite (proj2 (Z.eqb_neq _ 1)) by lia.
    unfold dinode_at. cbn [d_type]. unfold zeroes. by rewrite field_zero.
  - rewrite Hd by (unfold FSSIZE; lia). done.
Qed.

(** The size of the root directory and the free map come last. *)
Lemma finish_run s D fs : img_ok s D (root_data fs :: (snd <$> fs)) → typed D → Forall file_fits fs → (length fs ≤ 198)%nat →
  ∃ s' D', (d ← rinode 1; winode 1 (set_dsize (u32 ((d_isize d / BSIZE + 1) * BSIZE)) d);; s ← get; mk_balloc (freeblock s)) s = Ok (tt, s') ∧
    freeblock s' = freeblock s ∧ freeinode s' = freeinode s ∧ made (disk s') (freeblock s) D' fs.
Proof.
  intros Hs Ht Hf Hn. pose proof Hs as [HF _ _ Hsz Hok Hd Hun Hsb]. pose proof (fi_len _ _ _ _ HF) as HL. destruct D as [|d0 D]; [done|].
  pose proof (rinode_run _ _ _ 0 d0 Hs eq_refl) as Er. change (Z.of_nat 0 + 1) with 1 in Er. rewrite (bind_eq _ _ _ _ _ Er). rewrite (Hsz 0%nat d0 (root_data fs) eq_refl eq_refl), length_root by done.
  replace (Z.of_nat (32 + 16 * length fs)) with (32 + 16 * Z.of_nat (length fs)) by lia. fold (root_size (length fs)).
  assert (Hrs : 0 ≤ root_size (length fs) < 2 ^ 32) by (unfold root_size; change BSIZE with 512; Z.to_euclidean_division_equations; lia). rewrite u32_small by done.
  set (d1 := set_dsize (root_size (length fs)) d0). pose proof (Hok 0%nat d0 eq_refl) as [O1 O2 O3 O4 O5 O6 O7]. pose proof (so_fb _ _ _ (fi_slots _ _ _ _ HF)) as Hfb. rewrite nmeta_eq in Hfb. unfold FSSIZE in Hfb.
  destruct (winode_run s 1 d1) as (s1 & E1 & Hfi1 & Hfb1 & Eb1 & Hb1 & Ei1); [lia|apply HF|by split|]. rewrite (bind_eq _ _ _ _ _ E1).
  rewrite (bind_eq _ _ _ _ _ (eq_refl : get s1 = Ok (s1, s1))). unfold mk_balloc. change (BSIZE * 8) with 4096. rewrite Hfb1, (proj2 (Z.ltb_lt _ 4096)) by lia. cbn [negb].
  eexists _, (d1 :: D). split; [done|]. cbn [disk freeblock freeinode]. split; [done|]. split; [done|]. change (IBLOCK 1 mkfs_sb) with 32 in Eb1. change (sb_bmapstart mkfs_sb) with 58.
  assert (Hin : ∀ j, 0 ≤ j < 208 → inode_of (λ b, if b =? 58 then set_bits (Z.to_nat (freeblock s)) zeroes else disk s1 b) j = if j =? 1 then d1 else inode_of (disk s) j).
  { intros j Hj. rewrite <- (Ei1 j Hj). unfold inode_of. destruct (mk_iblock_range j Hj) as [Hr _]. by rewrite (proj2 (Z.eqb_neq _ 58)) by lia. }
  split.
  - apply (files_low (disk s)).
    + exact (files_addrs _ _ _ _ 0 d0 d1 HF eq_refl eq_refl).
    + intros b Hb. rewrite nmeta_eq in Hb. rewrite (proj2 (Z.eqb_neq b 58)) by lia. apply Eb1. lia.
    + intros b Hb. rewrite nmeta_eq in Hb. destruct (b =? 58); [|apply Hb1; unfold FSSIZE; lia]. apply set_bits_ok, zeroes_ok.
  - exact (typed_insert _ 0 d0 d1 Ht eq_refl eq_refl).
  - intros d [= <-]. done.
  - intros i d file Hi Hfile. rewrite (Hsz (S i) d file.2); [done|done|]. change ((snd <$> fs) !! i = Some file.2). by rewrite list_lookup_fmap, Hfile.
  - intros i d Hi. pose proof (lookup_lt_Some _ _ _ Hi) as Hlt. cbn [length] in Hlt, HL. rewrite length_fmap in HL. rewrite Hin by lia. destruct i as [|i]; [by injection Hi|]. rewrite (proj2 (Z.eqb_neq _ 1)) by lia. by apply Hd.
  - intros i Hi. cbn [length] in Hi. unfold NINODES in *. rewrite Hin by lia. rewrite (proj2 (Z.eqb_neq i 1)) by lia. apply Hun. cbn [length]. lia.
  - change (1 =? 58) with false. rewrite Eb1, Hsb by lia. apply sb_codec.
  - intros b Hb. by apply map_of_bits; [|lia|].
Qed.

Lemma mkfs_run fs s : freeinode s = 1 → Forall file_fits fs → (length fs ≤ 198)%nat → nmeta + total_need (root_data fs :: (snd <$> fs)) ≤ FSSIZE →
  ∃ s' D, mkfs fs s = Ok (tt, s') ∧ freeblock s' = nmeta + total_need (root_data fs :: (snd <$> fs)) ∧ made (disk s') (freeblock s') D fs.
Proof.
  intros Hi Hf Hn Hroom. unfold mkfs. do 3 rewrite (bind_eq _ _ _ _ _ eq_refl). cbn [disk freeinode freeblock]. set (s1 := mk_image _ (freeinode s) nmeta).
  assert (H1 : img_ok s1 [] []).
  { apply img_start; [|done|done]. intros b Hb. cbn [disk s1]. destruct (b =? 1); [done|]. rewrite (proj2 (Z.leb_le 0 b)), (proj2 (Z.ltb_lt b FSSIZE)) by lia. done. }
  destruct (mk_ialloc_run s1 [] [] T_DIR H1 ltac:(done) ltac:(cbn; lia)) as (s2 & E2 & H2). rewrite (bind_eq _ _ _ _ _ E2). change (negb (Z.of_nat (length (@nil dinode)) + 1 =? ROOTINO)) with false. cbv iota.
  change (Z.of_nat (length (@nil dinode)) + 1) with (Z.of_nat 0 + 1). change ([] ++ [empty_inode T_DIR]) with [empty_inode T_DIR] in H2. change ([] ++ [[]]) with [@nil Z] in H2.
  set (e1 := entry_bytes (Z.of_nat 0 + 1) [ch "."]). set (e2 := entry_bytes (Z.of_nat 0 + 1) [ch "."; ch "."]). assert (Hm : MAXFILE * BSIZE = 71680) by done.
  assert (B1 : bytes e1 ∧ length e1 = 16%nat) by (apply entry_bytes_ok; by repeat (apply Forall_cons_2; [done|])). assert (B2 : bytes e2 ∧ length e2 = 16%nat) by (apply entry_bytes_ok; by repeat (apply Forall_cons_2; [done|])).
  destruct B1 as [B1 L1], B2 as [B2 L2].
  destruct (iappend_run s2 _ _ 0 _ [] e1 H2 eq_refl eq_refl B1) as (s3 & d3 & E3 & H3 & T3); [rewrite L1, Hm; cbn; lia|vm_compute; discriminate|]. rewrite (bind_eq _ _ _ _ _ E3).
  change (img_ok s3 [d3] [e1]) in H3.
  destruct (iappend_run s3 _ _ 0 _ e1 e2 H3 eq_refl eq_refl B2) as (s4 & d4 & E4 & H4 & T4); [rewrite L1, L2, Hm; lia|vm_compute; discriminate|]. rewrite (bind_eq _ _ _ _ _ E4).
  change (img_ok s4 [d4] [e1 ++ e2]) in H4. assert (Ht : typed [d4]) by (intros [|i] d; [|done]; intros [= <-]; unfold head_of; rewrite T4; change (set_addrs [] (set_dsize (Z.of_nat (length (e1 ++ e2))) d3)) with (set_dsize (Z.of_nat (length (e1 ++ e2))) (set_addrs [] d3)); by rewrite T3).
  destruct (add_files_run fs s4 [d4] [] (e1 ++ e2) H4 Ht Hf) as (s5 & D5 & E5 & H5 & T5 & L5); [cbn [length]; lia|rewrite length_app, L1, L2, Hm; lia|rewrite <- app_assoc; exact Hroom|].
  change (Z.of_nat 0 + 1) with 1. rewrite (bind_eq _ _ _ _ _ E5). rewrite <- app_assoc in H5. change (img_ok s5 D5 (root_data fs :: (snd <$> fs))) in H5.
  destruct (finish_run s5 D5 fs H5 T5 Hf Hn) as (s6 & D6 & E6 & F6 & _ & M6). exists s6, D6. split; [exact E6|]. rewrite F6. split; [apply H5|done].
Qed.
