(* ===== verification/MkfsFs.v ===== *)
(** The image that mkfs makes is a file system for the kernel: fs.c finds in it the names
    and the contents of the files that were put in (mkfs.c against fs.c). *)
From Stdlib Require Import ZArith Lia Bool Ascii.
From stdpp Require Import base tactics list list_numbers strings sets gmap fin_sets.
From S2P Require Import Prelude Machine Bio Cache Log LogCrash Blocks LogBlocks Fs FsAlloc FsInode FsWrite FsFile FsLayout FsDir FsExamples Mkfs.

(** * The names in the root directory *)

Definition listing := list (list Z * Z).

(** What a name stands for in a listing: only the first DIRSIZ characters count. *)
Fixpoint name_get (n : list Z) (l : listing) : option Z :=
  match l with
  | [] => None
  | (m, i) :: l => if decide (take DIRSIZ n = take DIRSIZ m) then Some i else name_get n l
  end.

Fixpoint names_from (i : nat) (fs : list (list Z * list Z)) : listing :=
  match fs with
  | [] => []
  | file :: fs => (stripped file.1, Z.of_nat i) :: names_from (S i) fs
  end.
Definition root_dir (fs : list (list Z * list Z)) : listing := ([ch "."], 1) :: ([ch "."; ch "."], 1) :: names_from 2 fs.

Definition listing_bytes (l : listing) : list Z := concat ((λ e, entry_bytes e.2 e.1) <$> l).
Definition listing_ok (l : listing) : Prop := Forall (λ e, 0 ∉ e.1 ∧ 0 < e.2 < 2 ^ 16) l.

Lemma root_bytes fs : root_data fs = listing_bytes (root_dir fs).
Proof.
  unfold root_data, root_dir, listing_bytes. cbn [fmap list_fmap concat fst snd]. do 2 f_equal. generalize 2%nat. induction fs as [|file fs IH]; intros n; [done|].
  cbn [file_entries names_from fmap list_fmap concat fst snd]. by rewrite IH.
Qed.

Lemma names_ok fs n : Forall file_fits fs → (1 ≤ n)%nat → (n + length fs ≤ 200)%nat → listing_ok (names_from n fs).
Proof.
  intros Hf. revert n. induction Hf as [|file fs [(_ & H0 & _) _ _] Hf IH]; intros n H1 H2; [constructor|].
  cbn [length names_from] in *. constructor; [|apply IH; lia]. cbn [fst snd]. split; [|lia]. destruct file as [[|c name] data]; [done|]. cbn in *. destruct (c =? ch "_"); set_solver.
Qed.

Lemma root_dir_ok fs : Forall file_fits fs → (length fs ≤ 198)%nat → listing_ok (root_dir fs).
Proof.
  intros Hf Hn. constructor; [cbn; split; [vm_compute; set_solver|lia]|]. constructor; [cbn; split; [vm_compute; set_solver|lia]|]. apply names_ok; [done|lia|lia].
Qed.

(** ** Entries *)

Lemma entries_cons e c : length e = 16%nat → entries (e ++ c) = dirent_of e :: entries c.
Proof.
  intros He. unfold entries. rewrite length_app, He. replace (16 + length c)%nat with (length c + 1 * 16)%nat by lia. rewrite Nat.div_add by done. rewrite Nat.add_1_r. cbn [seq fmap list_fmap]. f_equal.
  - unfold entry. rewrite Nat.mul_0_r, drop_0, take_app_length' by done. done.
  - rewrite <- seq_shift, <- list_fmap_compose. apply list_fmap_ext. intros i j _. cbn. unfold entry. do 2 f_equal. rewrite drop_app_ge by lia. f_equal. lia.
Qed.

Lemma dir_get_cons n e es : dir_get n (e :: es) = if named n e then Some (de_inum e) else dir_get n es.
Proof. unfold dir_get. cbn [find_idx]. destruct (named n e); [done|]. by destruct (find_idx (named n) es). Qed.

Lemma dir_get_zeros n k : dir_get n (entries (replicate k 0)) = None.
Proof.
  unfold dir_get. rewrite (proj2 (find_idx_none _ _)); [done|]. intros x Hx. unfold entries in Hx. apply list_elem_of_fmap in Hx as (j & -> & _).
  unfold named. assert (E : de_inum (entry (replicate k 0) j) = 0) by (unfold entry, dirent_of; rewrite drop_replicate, take_replicate; cbn; apply field_zero). by rewrite E.
Qed.

(** The names of a listing, followed by vacant entries. *)
Lemma dir_get_listing n l k : listing_ok l → 0 ∉ n → dir_get n (entries (listing_bytes l ++ replicate k 0)) = name_get n l.
Proof.
  intros Hl Hn. induction Hl as [|[m i] l [Hm Hi] Hl IH]; [apply dir_get_zeros|]. cbn [fst snd] in *. change (listing_bytes ((m, i) :: l)) with (entry_bytes i m ++ listing_bytes l).
  assert (Ho : dirent_ok (mk_dirent i (strncpy_l m DIRSIZ))) by (split; [cbn; lia|apply length_strncpy_l]).
  rewrite <- app_assoc, entries_cons by exact (length_dirent _ Ho). rewrite dir_get_cons. unfold entry_bytes. rewrite dirent_codec, named_new by (done || lia). cbn [name_get].
  destruct (decide _); [by rewrite bool_decide_true|by rewrite bool_decide_false].
Qed.

(** * The kernel on the image *)

Section kernel.
  Context {B : Type} {BO : BlockOps B} {BL : BlockLaws B} {DS : DevSw B}.

(** The kernel has read the super block, and the blocks are those of the image; no buffer
    is held and there is room for one. The log is not part of what the kernel sees. *)
Record mounted (f : Z → list Z) (k : fss B) : Prop := {
  mo_ok : fok k;
  mo_sb : fsb k = sb_of (f 1);
  mo_geo : v_geo (fv k) = mk_geo FSSIZE 2;
  mo_blocks : ∀ b, at_home (mk_geo FSSIZE 2) b → blocks k b = f b;
  mo_held : v_held (fv k) = ∅;
  mo_room : v_room (fv k) }.

(** Inode [n] is in slot [ip] of the cache, as ilock reads it. *)
Record cached (k : fss B) (ip : nat) (ino : inode) (n : Z) : Prop := {
  ca_ino : icache k !! ip = Some ino;
  ca_dev : i_dev ino = 1;
  ca_inum : i_inum ino = n;
  ca_disk : dinode_of ino = dinode_at (blocks k (IBLOCK n (fsb k))) (Z.to_nat (n mod IPB * sizeof_dinode)) }.

Section image.
  Context (f : Z → list Z) (fb : Z) (D : list dinode) (fs : list (list Z * list Z)) (k : fss B).
  Context (Hm : made f fb D fs) (Hk : mounted f k).

Lemma home_is b : b = 1 ∨ 32 ≤ b < FSSIZE → blocks k b = f b.
Proof. intros Hb. apply (mo_blocks _ _ Hk). unfold at_home, FSSIZE, LOGSIZE, MAXOPBLOCKS in *. cbn. lia. Qed.

Lemma mounted_sb : fsb k = mkfs_sb.
Proof. rewrite (mo_sb _ _ Hk). apply Hm. Qed.

Lemma mounted_used b : 0 ≤ b < FSSIZE → used k b = (b <? fb).
Proof.
  intros Hb. rewrite <- (md_map _ _ _ _ Hm b Hb). unfold used, map_used. rewrite mounted_sb. rewrite home_is; [done|]. right. unfold BBLOCK, FSSIZE in *. change BPB with 4096.
  rewrite Z.div_small by lia. vm_compute. intuition discriminate.
Qed.

Lemma mounted_base : fs_base k.
Proof.
  pose proof (so_fb _ _ _ (fi_slots _ _ _ _ (md_files _ _ _ _ Hm))) as Hb. split.
  - apply Hk.
  - rewrite mounted_sb, (mo_geo _ _ Hk). split; vm_compute; intuition discriminate.
  - rewrite home_is by by left. symmetry. apply Hk.
  - intros b Hb'. rewrite mounted_sb in Hb'. change (data_start mkfs_sb) with 59 in Hb'. rewrite nmeta_eq in Hb. rewrite mounted_used by (unfold FSSIZE; lia). apply Z.ltb_lt. lia.
  - intros i n v. rewrite (mo_held _ _ Hk). done.
Qed.

Lemma inode_count : length D = S (length fs).
Proof. rewrite (fi_len _ _ _ _ (md_files _ _ _ _ Hm)). cbn [length]. by rewrite length_fmap. Qed.

  Context (Hn : (length fs ≤ 198)%nat).

Lemma cached_is ip ino i d : D !! i = Some d → cached k ip ino (Z.of_nat i + 1) → dinode_of ino = d.
Proof.
  intros Hd C. rewrite (ca_disk _ _ _ _ C), mounted_sb. pose proof (lookup_lt_Some _ _ _ Hd) as Hl. rewrite inode_count in Hl. destruct (mk_iblock_range (Z.of_nat i + 1) ltac:(lia)) as [Hr _].
  rewrite home_is by (right; unfold FSSIZE; lia). exact (md_disk _ _ _ _ Hm i d Hd).
Qed.

(** Every inode that has a block for each of its bytes can be read by the kernel. *)
Lemma cached_file ip ino i d c : D !! i = Some d → (root_data fs :: (snd <$> fs)) !! i = Some c → cached k ip ino (Z.of_nat i + 1) →
  0 ≤ d_isize d ≤ MAXFILE * BSIZE → (∀ j, j * BSIZE < d_isize d → j * BSIZE < Z.of_nat (length c)) → file_ok k ino.
Proof.
  intros Hd Hc C Hsz Hfull. pose proof (cached_is _ _ _ _ Hd C) as Ed. pose proof (md_files _ _ _ _ Hm) as HF. pose proof (fi_slots _ _ _ _ HF) as Hs. pose proof (so_fb _ _ _ Hs) as Hfb.
  destruct (slots_same f (blocks k) fb D i d Hs) as [Esl _]; [intros b Hb; apply home_is; rewrite nmeta_eq in Hb; lia|done|]. pose proof (lookup_lt_Some _ _ _ Hd) as Hl. rewrite inode_count in Hl.
  destruct (fi_holds _ _ _ _ HF i d c Hd Hc) as [H1 H2 H3]. assert (Es : ∀ j, slot (blocks k) ino j = dslot f d j) by (intros j; rewrite slot_dslot, Ed; apply Esl).
  assert (Ei : i_size ino = d_isize d) by by rewrite <- Ed. split; rewrite ?mounted_sb, ?Ei; try done.
  - apply C.
  - rewrite (ca_inum _ _ _ _ C). cbn. unfold NINODES. lia.
  - change (length (d_addrs (dinode_of ino)) = 13%nat). rewrite Ed. by eapply so_addrs.
  - intros j Hj. rewrite Es. intros Hnz. pose proof (so_range _ _ _ Hs i d j Hd Hj Hnz) as Hr. rewrite nmeta_eq in *. change (data_start mkfs_sb) with 59. change (sb_size mkfs_sb) with FSSIZE.
    split; [lia|]. rewrite mounted_used by lia. apply Z.ltb_lt. lia.
  - intros j j' Hj Hj'. rewrite !Es. intros Hnz E. by apply (so_inj _ _ _ Hs i d j i d j').
  - intros j Hj Hlt. rewrite Es. change (MAXFILE * BSIZE) with 71680 in *. assert (j < MAXFILE) by (change MAXFILE with 140; change BSIZE with 512 in *; lia). apply H3; [unfold slot_index; lia|].
    rewrite (proj2 (Z.eqb_neq j MAXFILE)) by lia. by apply Hfull.
Qed.

(** Its contents, with zeros up to its size. *)
Lemma cached_content ip ino i d c : D !! i = Some d → (root_data fs :: (snd <$> fs)) !! i = Some c → cached k ip ino (Z.of_nat i + 1) →
  Z.of_nat (length c) ≤ d_isize d ≤ MAXFILE * BSIZE → content (blocks k) ino = c ++ replicate (Z.to_nat (d_isize d) - length c) 0.
Proof.
  intros Hd Hc C Hsz. pose proof (cached_is _ _ _ _ Hd C) as Ed. pose proof (md_files _ _ _ _ Hm) as HF. pose proof (fi_slots _ _ _ _ HF) as Hs.
  destruct (slots_same f (blocks k) fb D i d Hs) as [_ Eb]; [intros b Hb; apply home_is; rewrite nmeta_eq in Hb; lia|done|].
  destruct (fi_holds _ _ _ _ HF i d c Hd Hc) as [H1 H2 H3]. assert (Ei : i_size ino = d_isize d) by by rewrite <- Ed.
  apply list_eq. intros o. destruct (decide (Z.of_nat o < d_isize d)) as [Ho|Ho].
  - rewrite content_lookup by by rewrite Ei. rewrite fbyte_dbyte, Ed, Eb, H2, Nat2Z.id by lia. destruct (decide (o < length c)%nat) as [Hoc|Hoc].
    + rewrite lookup_app_l by done. by destruct (lookup_lt_is_Some_2 c o Hoc) as [x ->].
    + rewrite lookup_app_r, (lookup_ge_None_2 c) by lia. by rewrite lookup_replicate_2 by lia.
  - rewrite lookup_ge_None_2 by (rewrite content_len, Ei; lia). symmetry. apply lookup_ge_None_2. rewrite length_app, length_replicate. lia.
Qed.
End image.
End kernel.

(** * The theorem *)

(** Block [j] of the directory is missing though its size has it. *)
Definition root_hole {B : Type} {BO : BlockOps B} {BL : BlockLaws B} (k : fss B) (ino : inode) (j : Z) : Prop := slot (blocks k) ino j = 0 ∧ j * BSIZE < i_size ino.

(** What the kernel finds on an image with the files [fs], of which [fb] blocks are in
    use. *)
Record found {B : Type} {BO : BlockOps B} {BL : BlockLaws B} {DS : DevSw B} (k : fss B) (fb : Z) (fs : list (list Z * list Z)) : Prop := {
  fd_base : fs_base k;
  fd_used : ∀ b, 0 ≤ b < FSSIZE → used k b = (b <? fb);
  fd_file : ∀ i name data ip ino, fs !! i = Some (name, data) → cached k ip ino (Z.of_nat i + 2) →
    i_type ino = T_FILE ∧ i_nlink ino = 1 ∧
    runs (readi ip 0 (Z.of_nat (length data))) k (λ rl k', rl = (Z.of_nat (length data), data) ∧ same_view k k');
  fd_root : ∀ ip ino, cached k ip ino ROOTINO → i_type ino = T_DIR ∧ i_nlink ino = 1 ∧
    (∀ n, 0 ∉ n → dir_get n (dir_entries k ino) = name_get n (root_dir fs)) ∧
    ((length fs + 2) mod 32 ≠ 0 → dir_ok ip k ino)%nat ∧
    ((length fs + 2) mod 32 = 0 → root_hole k ino (Z.of_nat ((length fs + 2) / 32)))%nat;
  fd_free : ∀ i ip ino, Z.of_nat (length fs) + 1 < i < NINODES → cached k ip ino i → i_type ino = 0 }.

Section found.
  Context {B : Type} {BO : BlockOps B} {BL : BlockLaws B} {DS : DevSw B}.
  Context (f : Z → list Z) (fb : Z) (D : list dinode) (fs : list (list Z * list Z)) (k : fss B).
  Context (Hm : made f fb D fs) (Hk : mounted f k) (Hf : Forall file_fits fs) (Hn : (length fs ≤ 198)%nat).

Lemma cached_head ip ino i d : D !! i = Some d → cached k ip ino (Z.of_nat i + 1) → i_type ino = (if (i =? 0)%nat then T_DIR else T_FILE) ∧ i_nlink ino = 1.
Proof.
  intros Hd C. pose proof (md_typed _ _ _ _ Hm i d Hd) as Ht. rewrite <- (cached_is f fb D fs k Hm Hk Hn ip ino i d Hd C) in Ht. unfold head_of, set_dsize, set_addrs in Ht. cbn in Ht. by injection Ht as ? _ _ ?.
Qed.

Lemma cached_rstate ip ino i : cached k ip ino i → file_ok k ino → rstate ip k ino.
Proof. intros C F. split; [by eapply mounted_base|apply C|done|apply Hk|apply Hk]. Qed.

Lemma file_found i name data ip ino : fs !! i = Some (name, data) → cached k ip ino (Z.of_nat i + 2) →
  i_type ino = T_FILE ∧ i_nlink ino = 1 ∧ runs (readi ip 0 (Z.of_nat (length data))) k (λ rl k', rl = (Z.of_nat (length data), data) ∧ same_view k k').
Proof.
  intros Hi C. replace (Z.of_nat i + 2) with (Z.of_nat (S i) + 1) in C by lia. pose proof (lookup_lt_Some _ _ _ Hi) as Hl.
  destruct (lookup_lt_is_Some_2 D (S i)) as [d Hd]; [rewrite (inode_count f fb D fs Hm); lia|]. destruct (cached_head _ _ _ _ Hd C) as [Et En]. split; [done|]. split; [done|].
  pose proof (md_size _ _ _ _ Hm i d _ Hd Hi) as Ez. cbn [snd] in Ez. pose proof (ff_len _ (Forall_lookup_1 _ _ _ _ Hf Hi)) as Hsz. cbn [snd] in Hsz.
  assert (Hc : (root_data fs :: (snd <$> fs)) !! S i = Some data) by (change ((snd <$> fs) !! i = Some data); by rewrite list_lookup_fmap, Hi).
  pose proof (cached_content f fb D fs k Hm Hk Hn ip ino (S i) d data Hd Hc C ltac:(lia)) as Ec. rewrite Ez, Nat2Z.id, Nat.sub_diag, app_nil_r in Ec.
  assert (R : rstate ip k ino) by (eapply cached_rstate; [done|]; apply (cached_file f fb D fs k Hm Hk Hn ip ino (S i) d data Hd Hc C); [lia|by rewrite Ez]).
  assert (Es : i_size ino = Z.of_nat (length data)) by (rewrite <- Ez, <- (cached_is f fb D fs k Hm Hk Hn ip ino (S i) d Hd C); done).
  change (MAXFILE * BSIZE) with 71680 in Hsz. eapply runs_mono; [apply (readi_run ip k ino 0); [done|by rewrite Et|lia|lia|lia]|]. intros rl k' [-> V]. split; [|done].
  rewrite Ec, drop_0, Nat2Z.id, take_ge by lia. done.
Qed.

Lemma root_range : Z.of_nat (length (root_data fs)) ≤ root_size (length fs) ≤ MAXFILE * BSIZE ∧ root_size (length fs) mod 512 = 0 ∧ Z.of_nat (length (root_data fs)) = 32 + 16 * Z.of_nat (length fs).
Proof.
  rewrite length_root by done. unfold root_size. change (MAXFILE * BSIZE) with 71680. change BSIZE with 512. split; [|split; [apply Z.mod_mul; lia|lia]].
  Z.to_euclidean_division_equations. lia.
Qed.

Lemma root_found ip ino : cached k ip ino ROOTINO → i_type ino = T_DIR ∧ i_nlink ino = 1 ∧
  (∀ n, 0 ∉ n → dir_get n (dir_entries k ino) = name_get n (root_dir fs)) ∧ ((length fs + 2) mod 32 ≠ 0 → dir_ok ip k ino)%nat ∧
  ((length fs + 2) mod 32 = 0 → root_hole k ino (Z.of_nat ((length fs + 2) / 32)))%nat.
Proof.
  intros C. change ROOTINO with (Z.of_nat 0 + 1) in C. destruct (lookup_lt_is_Some_2 D 0) as [d Hd]; [rewrite (inode_count f fb D fs Hm); lia|].
  destruct (cached_head _ _ _ _ Hd C) as [Et En]. split; [done|]. split; [done|]. pose proof (md_root _ _ _ _ Hm d Hd) as Ez. destruct root_range as (Hr & Hr' & Hl). split.
  - intros n H0. unfold dir_entries. rewrite (cached_content f fb D fs k Hm Hk Hn ip ino 0 d (root_data fs) Hd eq_refl C) by by rewrite Ez.
    rewrite root_bytes. by apply dir_get_listing; [apply root_dir_ok|].
  - assert (Es : i_size ino = root_size (length fs)) by (rewrite <- Ez, <- (cached_is f fb D fs k Hm Hk Hn ip ino 0 d Hd C); done). split.
    + intros Hx. assert (Hx' : (32 + 16 * Z.of_nat (length fs)) mod 512 ≠ 0).
      { intros E. apply Hx. apply Nat2Z.inj. rewrite Nat2Z.inj_mod. Z.to_euclidean_division_equations. lia. }
      split; [|done|rewrite Es; unfold sizeof_dirent; Z.to_euclidean_division_equations; lia]. eapply cached_rstate; [done|].
      apply (cached_file f fb D fs k Hm Hk Hn ip ino 0 d (root_data fs) Hd eq_refl C); [lia|]. rewrite Ez, Hl. unfold root_size. change BSIZE with 512. intros j Hj. Z.to_euclidean_division_equations. lia.
    + intros Hx. assert (Hj : Z.of_nat ((length fs + 2) / 32) * 512 = 32 + 16 * Z.of_nat (length fs)) by (pose proof (Nat.div_mod_eq (length fs + 2) 32); lia). set (j := Z.of_nat ((length fs + 2) / 32)%nat) in *.
      split; [|rewrite Es; unfold root_size; change BSIZE with 512; Z.to_euclidean_division_equations; lia]. rewrite slot_dslot, (cached_is f fb D fs k Hm Hk Hn ip ino 0 d Hd C).
      pose proof (md_files _ _ _ _ Hm) as HF. destruct (slots_same f (blocks k) fb D 0 d (fi_slots _ _ _ _ HF)) as [-> _]; [intros b Hb; apply (home_is f k Hk); rewrite nmeta_eq in Hb; lia|done|].
      destruct (Z.eq_dec (dslot f d j) 0) as [|Hnz]; [done|]. exfalso. apply (hd_exact _ _ _ (fi_holds _ _ _ _ HF 0%nat d _ Hd eq_refl) j) in Hnz; [|unfold slot_index; change MAXFILE with 140; lia].
      rewrite (proj2 (Z.eqb_neq j MAXFILE)) in Hnz by (change MAXFILE with 140; lia). change BSIZE with 512 in Hnz. lia.
Qed.

Lemma image_found : found k fb fs.
Proof.
  split.
  - by eapply mounted_base.
  - intros b Hb. by eapply mounted_used.
  - intros i name data ip ino. apply file_found.
  - intros ip ino. apply root_found.
  - intros i ip ino Hi C. pose proof (inode_count f fb D fs Hm) as Hc. change (d_type (dinode_of ino) = 0). rewrite (ca_disk _ _ _ _ C), (mounted_sb f fb D fs k Hm Hk). unfold NINODES in *.
    destruct (mk_iblock_range i ltac:(lia)) as [Hr _]. rewrite (home_is f k Hk) by (right; unfold FSSIZE; lia). apply (md_unused _ _ _ _ Hm). unfold NINODES. lia.
Qed.
End found.

(** C29. mkfs makes a file system that the kernel reads as intended. Given at most 198
    files whose blocks fit on the disk, mkfs ends without an error and every block of the
    image is a block of bytes, the second one the super block. Any kernel that mounts the image is in a consistent state:
    the super block and the layout agree, and exactly the blocks that mkfs gave out are
    marked in the free map. Each file is the inode after those of the files before it, an
    ordinary file with one link, and readi returns exactly its bytes. The root directory
    maps ".", ".." and the names, without their leading underscore and up to fourteen
    characters, to these inodes, and nothing else. The kernel can read it if its entries do
    not fill whole blocks; if they do, the size has a block too many, which is missing. The
    other inodes are free. *)
Theorem mkfs_image (fs : list (list Z * list Z)) (s : image)
  (Hi : freeinode s = 1) (Hf : Forall file_fits fs) (Hn : (length fs ≤ 198)%nat)
  (Hroom : nmeta + total_need (root_data fs :: (snd <$> fs)) ≤ FSSIZE) :
  ∃ s', mkfs fs s = Ok (tt, s') ∧ freeblock s' = nmeta + total_need (root_data fs :: (snd <$> fs)) ∧ (∀ b, 0 ≤ b < FSSIZE → block_ok (disk s' b)) ∧ sb_of (disk s' 1) = mkfs_sb ∧
    ∀ (B : Type) (BO : BlockOps B) (BL : BlockLaws B) (DS : DevSw B) (k : fss B), mounted (disk s') k → found k (freeblock s') fs.
Proof.
  destruct (mkfs_run fs s Hi Hf Hn Hroom) as (s' & D & E & Hb & M). exists s'. split; [done|]. split; [done|]. split; [apply M|]. split; [apply M|].
  intros B BO BL DS k Hk. by apply (image_found (disk s') _ D).
Qed.

(** ** An image with one file *)

Definition blank : image := mk_image (λ _, []) 1 0.
Definition cat_files : list (list Z * list Z) := [(chars "_cat", chars "meow")].

(** The kernel on a disk, its log empty, with inode 2 in the cache. *)
Definition mount_disk (f : Z → list Z) := mk_disk (λ b, if (0 <=? b) && (b <? FSSIZE) then f b else zeroes) [] FSSIZE.
Definition mount_inode (f : Z → list Z) : inode := with_dinode (inode_of f 2) (mk_inode 1 2 1 (mk_sleep 1 1) 1 0 0 0 0 0 []).
Definition mount (f : Z → list Z) : fss lst := mk_fss (boot_lst (mount_disk f) 0) (sb_of (f 1)) [mount_inode f] 1.

Lemma mount_disk_len f m : (∀ b, 0 ≤ b < FSSIZE → block_ok (f b)) → length (d_block (mount_disk f) m) = Z.to_nat BSIZE.
Proof. intros H. unfold d_block. cbn. destruct (Z.leb_spec 0 m); [|done]. destruct (Z.ltb_spec m FSSIZE); [|done]. apply H. lia. Qed.

Lemma mount_mounted f : (∀ b, 0 ≤ b < FSSIZE → block_ok (f b)) → mounted f (mount f).
Proof.
  intros H. pose proof (mount_disk_len f) as Hl. assert (Hh : v_held (fv (mount f)) = ∅) by (apply (boot_held (mount_disk f) 0); intros m; by apply Hl). split; try done.
  - apply boot_ok; [intros m; by apply Hl|done|done].
  - intros b Hb. unfold blocks, fv. cbn [bk_abs v_blocks mount blk]. change (v_geo (log_abs (boot_lst (mount_disk f) 0))) with (mk_geo FSSIZE 2) in *.
    transitivity (view (lb (boot_lst (mount_disk f) 0)) b); [by apply decide_True|]. rewrite view_disk by apply boot_clean.
    destruct Hb as [[Hb Hb'] _]. cbn [g_size] in Hb'. unfold d_block. cbn. rewrite (proj2 (Z.leb_le 0 b)), (proj2 (Z.ltb_lt b FSSIZE)) by lia. done.
  - unfold v_room. rewrite Hh. vm_compute. lia.
Qed.

Lemma mkfs_image_witness :
  ∃ s', mkfs cat_files blank = Ok (tt, s') ∧ freeblock s' = 61 ∧
    runs (readi (DS := {| dev_read _ := None; dev_write _ := None |}) 0 0 4) (mount (disk s')) (λ rl _, rl = (4, chars "meow")) ∧ name_get (chars "cat") (root_dir cat_files) = Some 2.
Proof.
  destruct (mkfs_image cat_files blank) as (s' & E & Hb & Hok & Hsb & HK).
  - reflexivity.
  - repeat constructor; cbn; try lia; vm_compute; set_solver.
  - cbn. lia.
  - vm_compute. discriminate.
  - exists s'. split; [exact E|]. split; [exact Hb|]. split; [|vm_compute; reflexivity].
    destruct (fd_file _ _ _ (HK _ _ _ {| dev_read _ := None; dev_write _ := None |} _ (mount_mounted _ Hok)) 0%nat (chars "_cat") (chars "meow") 0%nat (mount_inode (disk s')) eq_refl) as (_ & _ & Hr).
    + split; [reflexivity|reflexivity|reflexivity|]. change (fsb (mount (disk s'))) with (sb_of (disk s' 1)). rewrite Hsb, (mo_blocks _ _ (mount_mounted _ Hok)); [reflexivity|]. vm_compute. intuition discriminate.
    + eapply runs_mono; [exact Hr|]. intros rl k' [-> _]. reflexivity.
Defined.
