(* ===== verification/Ports.v ===== *)
(** Devices behind I/O ports: what the port instructions of x86.h do to them. A device is
    a parameter of the programs that drive it; the programs thread its state. *)
From Stdlib Require Import ZArith Lia Bool.
From stdpp Require Import base tactics list.
From S2P Require Import Prelude Machine.

(** inb, outb and insl on the state of the devices. The data of insl are the bytes it
    stores. *)
Class PortIO (D : Type) := {
  dev_inb : Z → D → Z * D;
  dev_outb : Z → Z → D → D;
  dev_insl : Z → Z → D → list Z * D }.

Section ports.
  Context {D : Type} {P : PortIO D}.

Definition inb (port : Z) : M D Z := λ d, Ok (dev_inb port d).
(** The data is an unsigned char. *)
Definition outb (port data : Z) : M D unit := λ d, Ok (tt, dev_outb port (data mod 256) d).
Definition insl (port cnt : Z) : M D (list Z) := λ d, Ok (dev_insl port cnt d).
End ports.
