(* ===== verification/Boot.v ===== *)
(** The boot loader (bootmain.c): it reads the kernel, an ELF file that starts at sector 1
    of the disk, into physical memory. The disk is a parameter with what the loader relies
    on of an ATA disk as its laws. *)
From Stdlib Require Import ZArith Lia Bool.
From stdpp Require Import base tactics list list_numbers.
From S2P Require Import Prelude Machine CString Exec Ports.

Definition SECTSIZE : Z := 512.

(** Storing bytes in memory. *)
Definition store_bytes (m : memory) (a : Z) (l : list Z) : memory := λ b, if in_range b a (Z.of_nat (length l)) then default 0 (l !! Z.to_nat (b - a)) mod 256 else m b.
Definition ld16 (m : memory) (a : Z) : Z := ld8 m a + 2 ^ 8 * ld8 m (a + 1).

Section loader.
  Context {D : Type} {P : PortIO D}.

Record boot := mk_boot { bmem : memory; bdev : D }.
Definition on_dev {A} (m : M D A) : M boot A := zoom bdev (λ d s, mk_boot (bmem s) d) m.
Definition mod_mem (f : memory → memory) : M boot unit := modify (λ s, mk_boot (f (bmem s)) (bdev s)).

(** * The program *)

Fixpoint waitdisk (fuel : nat) : M D unit :=
  match fuel with
  | O => nofuel
  | S fuel => st ← inb 0x1F7; if negb (Z.land st 0xC0 =? 0x40) then waitdisk fuel else mret tt
  end.

Definition readsect (fuel : nat) (dst offset : Z) : M boot unit :=
  on_dev (waitdisk fuel);;
  on_dev (outb 0x1F2 1);;
  on_dev (outb 0x1F3 offset);;
  on_dev (outb 0x1F4 (Z.shiftr offset 8));;
  on_dev (outb 0x1F5 (Z.shiftr offset 16));;
  on_dev (outb 0x1F6 (Z.lor (Z.shiftr offset 24) 0xE0));;
  on_dev (outb 0x1F7 0x20);;
  on_dev (waitdisk fuel);;
  l ← on_dev (insl 0x1F0 (SECTSIZE / 4));
  mod_mem (λ m, store_bytes m dst l).

(** The loop of readseg; [n] bounds its rounds. *)
Fixpoint readseg_loop (n fuel : nat) (pa epa offset : Z) : M boot unit :=
  if pa <? epa then
    match n with
    | O => nofuel
    | S n => readsect fuel pa offset;; readseg_loop n fuel (u32 (pa + SECTSIZE)) epa (u32 (offset + 1))
    end
  else mret tt.

Definition readseg (fuel : nat) (pa count offset : Z) : M boot unit :=
  let epa := u32 (pa + count) in
  let pa := u32 (pa - offset mod SECTSIZE) in
  let offset := u32 (offset / SECTSIZE + 1) in
  readseg_loop (Z.to_nat (count / SECTSIZE + 2)) fuel pa epa offset.

(** The loop over the program headers, in memory from [ph] on; [n] bounds its rounds. *)
Fixpoint load_headers (n fuel : nat) (ph eph : Z) : M boot unit :=
  if ph <? eph then
    match n with
    | O => nofuel
    | S n =>
        m ← gets bmem;
        let pa := ld32 m (ph + 12) in
        readseg fuel pa (ld32 m (ph + 16)) (ld32 m (ph + 4));;
        m ← gets bmem;
        let filesz := ld32 m (ph + 16) in
        let memsz := ld32 m (ph + 20) in
        when (filesz <? memsz) (mod_mem (λ m, stosb m (u32 (pa + filesz)) 0 (memsz - filesz)));;
        load_headers n fuel (u32 (ph + 32)) eph
    end
  else mret tt.

(** The entry point to jump to, or none when the loader gives up. *)
Definition bootmain (fuel : nat) : M boot (option Z) :=
  let elf := 0x10000 in
  readseg fuel elf 4096 0;;
  m ← gets bmem;
  if negb (ld32 m elf =? ELF_MAGIC) then mret None else
  let ph := u32 (elf + ld32 m (elf + 28)) in
  let phnum := ld16 m (elf + 44) in
  load_headers (Z.to_nat phnum) fuel ph (u32 (ph + 32 * phnum));;
  m ← gets bmem;
  mret (Some (ld32 m (elf + 24))).
End loader.
Arguments boot : clear implicits.

(** * The disk

    What the ATA specification says of a disk that is read with PIO, as far as the loader
    uses it. [ata_ready] and [ata_cmd] are what the status register showed and the sector
    of the read command that was accepted; [ata_polls] is how often the status register
    has still to be read until the disk is ready, and [ata_patience] a bound on that. *)
Class Ata (D : Type) {P : PortIO D} := {
  ata_sector : Z → list Z;
  ata_ok : D → Prop;
  ata_ready : D → Prop;
  ata_cmd : D → option Z;
  ata_polls : D → nat;
  ata_patience : nat;
  ata_bytes n : length (ata_sector n) = 512%nat ∧ Forall (λ c, 0 ≤ c < 256) (ata_sector n);
  ata_bound d : (ata_polls d < ata_patience)%nat;
  ata_poll d : ata_ok d → let '(st, d') := dev_inb 0x1F7 d in
    ata_ok d' ∧ ata_cmd d' = ata_cmd d ∧
    if Z.land st 0xC0 =? 0x40 then ata_ready d' else (ata_polls d' < ata_polls d)%nat;
  ata_read d n : ata_ok d → ata_ready d → 0 ≤ n < 2 ^ 28 →
    let d' := dev_outb 0x1F7 0x20 (dev_outb 0x1F6 (0xE0 + n / 2 ^ 24) (dev_outb 0x1F5 (n / 2 ^ 16 mod 256)
      (dev_outb 0x1F4 (n / 2 ^ 8 mod 256) (dev_outb 0x1F3 (n mod 256) (dev_outb 0x1F2 1 d))))) in
    ata_ok d' ∧ ata_cmd d' = Some n;
  ata_data d n : ata_ok d → ata_ready d → ata_cmd d = Some n →
    let '(l, d') := dev_insl 0x1F0 128 d in l = ata_sector n ∧ ata_ok d' }.

Section runs.
  Context {D : Type} {P : PortIO D} {A : Ata D}.

(** The byte at offset [x] of the kernel's file, which starts at sector 1. *)
Definition kbyte (x : Z) : Z := default 0 (ata_sector (x / 512 + 1) !! Z.to_nat (x mod 512)).

Lemma kbyte_range x : 0 ≤ kbyte x < 256.
Proof. unfold kbyte. destruct (_ !! _) as [c|] eqn:E; [|done]. exact (Forall_lookup_1 _ _ _ _ (proj2 (ata_bytes _)) E). Qed.

Lemma waitdisk_run fuel d : (ata_polls d < fuel)%nat → ata_ok d → ∃ d', waitdisk fuel d = Ok (tt, d') ∧ ata_ok d' ∧ ata_ready d' ∧ ata_cmd d' = ata_cmd d.
Proof.
  revert d. induction fuel as [|fuel IH]; intros d Hf Hd; [lia|]. cbn [waitdisk]. pose proof (ata_poll d Hd) as H. unfold mbind, M_bind, inb.
  destruct (dev_inb 0x1F7 d) as [st d1]. destruct H as (H1 & H2 & H3). destruct (Z.land st 0xC0 =? 0x40); cbn [negb].
  - exists d1. done.
  - destruct (IH d1 ltac:(lia) H1) as (d2 & E & ? & ? & E2). exists d2. by rewrite E2.
Qed.

(** The registers of the command, for a sector number of 28 bits. *)
Lemma lba_top n : 0 ≤ n < 2 ^ 28 → Z.lor (Z.shiftr n 24) 0xE0 mod 256 = 0xE0 + n / 2 ^ 24.
Proof.
  intros H. rewrite Z.shiftr_div_pow2 by lia. assert (Hq : 0 ≤ n / 2 ^ 24 < 16) by (Z.to_euclidean_division_equations; lia). rewrite Z.lor_comm. change 0xE0 with (Z.shiftl 14 4).
  rewrite lor_shiftl_add by lia. rewrite Z.mod_small by lia. done.
Qed.

Lemma readsect_run fuel m d dst n : (ata_patience ≤ fuel)%nat → ata_ok d → 0 ≤ n < 2 ^ 28 →
  ∃ d', readsect fuel dst n (mk_boot m d) = Ok (tt, mk_boot (store_bytes m dst (ata_sector n)) d') ∧ ata_ok d'.
Proof.
  intros Hf Hd Hn. unfold readsect, on_dev. pose proof (ata_bound d) as Hb. destruct (waitdisk_run fuel d ltac:(lia) Hd) as (d1 & E1 & O1 & R1 & _).
  rewrite (bind_eq _ _ _ _ _ (zoom_eq bdev (λ d s, mk_boot (bmem s) d) _ (mk_boot m d) _ _ E1)). cbn [bmem]. do 6 rewrite (bind_eq _ _ _ _ _ eq_refl). cbn [bdev bmem].
  rewrite lba_top, !Z.shiftr_div_pow2 by lia. destruct (ata_read d1 n O1 R1 Hn) as [O2 C2]. change (1 mod 256) with 1. change (0x20 mod 256) with 0x20. set (d2 := dev_outb 0x1F7 _ _) in *.
  pose proof (ata_bound d2) as Hb2. destruct (waitdisk_run fuel d2 ltac:(lia) O2) as (d3 & E3 & O3 & R3 & C3). rewrite (bind_eq _ _ _ _ _ (zoom_eq bdev (λ d s, mk_boot (bmem s) d) _ (mk_boot m d2) _ _ E3)). cbn [bmem].
  pose proof (ata_data d3 n O3 R3 ltac:(congruence)) as H. unfold insl, zoom, mbind, M_bind. cbn [bdev bmem]. change (SECTSIZE / 4) with 128. destruct (dev_insl 0x1F0 128 d3) as [l d4]. destruct H as [-> O4]. by exists d4.
Qed.

(** ** Segments *)

Lemma store_sector m a n b : store_bytes m a (ata_sector n) b = if in_range b a 512 then kbyte (512 * (n - 1) + (b - a)) else m b.
Proof.
  unfold store_bytes, in_range. rewrite (proj1 (ata_bytes n)). change (Z.of_nat 512) with 512. destruct (Z.leb_spec a b), (Z.ltb_spec b (a + 512)); cbn [andb]; try done. unfold kbyte.
  replace ((512 * (n - 1) + (b - a)) / 512 + 1) with n by (Z.to_euclidean_division_equations; lia). replace ((512 * (n - 1) + (b - a)) mod 512) with (b - a) by (Z.to_euclidean_division_equations; lia).
  destruct (_ !! _) as [c|] eqn:E; [|done]. apply Z.mod_small. exact (Forall_lookup_1 _ _ _ _ (proj2 (ata_bytes n)) E).
Qed.

Lemma readseg_loop_run fuel epa k : ∀ n m d pa offset, (ata_patience ≤ fuel)%nat → ata_ok d → (k ≤ n)%nat → 0 ≤ pa → pa + 512 * Z.of_nat k < 2 ^ 32 → 1 ≤ offset → offset + Z.of_nat k ≤ 2 ^ 28 →
  512 * Z.of_nat k - 512 < epa - pa ≤ 512 * Z.of_nat k → 
  ∃ m' d', readseg_loop n fuel pa epa offset (mk_boot m d) = Ok (tt, mk_boot m' d') ∧ ata_ok d' ∧
    ∀ b, m' b = if in_range b pa (512 * Z.of_nat k) then kbyte (512 * (offset - 1) + (b - pa)) else m b.
Proof.
  induction k as [|k IH]; intros n m d pa offset Hf Hd Hn Hpa Hend Ho Hmax He.
  - exists m, d. split; [|split; [done|]].
    + destruct n; cbn [readseg_loop]; by rewrite (proj2 (Z.ltb_ge pa epa)) by lia.
    + intros b. unfold in_range. destruct (Z.leb_spec pa b), (Z.ltb_spec b (pa + 512 * Z.of_nat 0)); (done || lia).
  - destruct n as [|n]; [lia|]. cbn [readseg_loop]. rewrite (proj2 (Z.ltb_lt pa epa)) by lia. destruct (readsect_run fuel m d pa offset Hf Hd ltac:(lia)) as (d1 & E1 & O1). rewrite (bind_eq _ _ _ _ _ E1).
    change SECTSIZE with 512. rewrite !u32_small by lia. destruct (IH n (store_bytes m pa (ata_sector offset)) d1 (pa + 512) (offset + 1)) as (m' & d' & E2 & O2 & Hm); [done|done|lia|lia|lia|lia|lia|lia|].
    exists m', d'. split; [done|]. split; [done|]. intros b. rewrite Hm, store_sector by done. unfold in_range.
    destruct (Z.leb_spec (pa + 512) b), (Z.ltb_spec b (pa + 512 + 512 * Z.of_nat k)), (Z.leb_spec pa b), (Z.ltb_spec b (pa + 512)), (Z.ltb_spec b (pa + 512 * Z.of_nat (S k))); cbn [andb]; try lia; try done.
    f_equal. lia.
Qed.

(** A program header: where the segment is in the file and in memory. *)
Record seg := mk_seg { sg_off : Z; sg_paddr : Z; sg_filesz : Z; sg_memsz : Z }.

(** The sectors that are read for it, the first byte they go to, and the bytes the loader
    stores to. *)
Definition sg_sectors (g : seg) : Z := (sg_off g mod 512 + sg_filesz g + 511) / 512.
Definition sg_low (g : seg) : Z := sg_paddr g - sg_off g mod 512.
Definition touches (g : seg) (b : Z) : bool := in_range b (sg_low g) (512 * sg_sectors g) || in_range b (sg_paddr g + sg_filesz g) (sg_memsz g - sg_filesz g).
Definition seg_val (g : seg) (b v : Z) : Z :=
  if in_range b (sg_paddr g + sg_filesz g) (sg_memsz g - sg_filesz g) then 0
  else if in_range b (sg_low g) (512 * sg_sectors g) then kbyte (sg_off g + (b - sg_paddr g)) else v.

Record seg_fits (g : seg) : Prop := {
  sf_off : 0 ≤ sg_off g ∧ sg_off g + sg_filesz g < 2 ^ 36;
  sf_sizes : 0 ≤ sg_filesz g ∧ 0 ≤ sg_memsz g;
  sf_low : sg_off g mod 512 ≤ sg_paddr g;
  sf_high : sg_paddr g + sg_filesz g + 512 ≤ 2 ^ 32 ∧ sg_paddr g + sg_memsz g ≤ 2 ^ 32;
  sf_header : ∀ b, 0x10000 ≤ b < 0x11000 → touches g b = false }.

Lemma readseg_run fuel m d pa count offset : (ata_patience ≤ fuel)%nat → ata_ok d → 0 ≤ count → 0 ≤ offset → offset mod 512 ≤ pa → pa + count + 512 ≤ 2 ^ 32 → offset + count < 2 ^ 36 →
  ∃ m' d', readseg fuel pa count offset (mk_boot m d) = Ok (tt, mk_boot m' d') ∧ ata_ok d' ∧
    ∀ b, m' b = if in_range b (pa - offset mod 512) (512 * ((offset mod 512 + count + 511) / 512)) then kbyte (offset + (b - pa)) else m b.
Proof.
  intros Hf Hd Hc Ho Hlow Hhigh Hmax. unfold readseg. cbv zeta. change SECTSIZE with 512. pose proof (Z.mod_pos_bound offset 512 ltac:(lia)) as Hm. set (r := offset mod 512) in *.
  assert (Hq : offset = 512 * (offset / 512) + r) by (apply Z.div_mod; lia). set (q := offset / 512) in *. rewrite !u32_small by lia. set (k := (r + count + 511) / 512).
  assert (Hk : 512 * k - 512 < r + count ≤ 512 * k ∧ 0 ≤ k ≤ count / 512 + 2) by (unfold k; Z.to_euclidean_division_equations; lia).
  destruct (readseg_loop_run fuel (pa + count) (Z.to_nat k) (Z.to_nat (count / 512 + 2)) m d (pa - r) (q + 1)) as (m' & d' & E & O & Hv); rewrite ?Z2Nat.id by lia; [done|done|lia..|].
  exists m', d'. split; [done|]. split; [done|]. intros b. rewrite Hv, Z2Nat.id by lia. destruct (in_range b (pa - r) (512 * k)); [|done]. f_equal. lia.
Qed.

(** ** The headers *)

Definition khalf (x : Z) : Z := kbyte x + 2 ^ 8 * kbyte (x + 1).
Definition kword (x : Z) : Z := kbyte x + 2 ^ 8 * kbyte (x + 1) + 2 ^ 16 * kbyte (x + 2) + 2 ^ 24 * kbyte (x + 3).

(** The program header at offset [x] of the file, and those the file header announces. *)
Definition seg_at (x : Z) : seg := mk_seg (kword (x + 4)) (kword (x + 12)) (kword (x + 16)) (kword (x + 20)).
Definition ksegs : list seg := (λ i, seg_at (kword 28 + 32 * Z.of_nat i)) <$> seq 0 (Z.to_nat (khalf 44)).

(** The first page of the file is in memory at 0x10000. *)
Definition header_in (m : memory) : Prop := ∀ x, 0 ≤ x < 4096 → m (0x10000 + x) = kbyte x.

Lemma header_ld8 m x : header_in m → 0 ≤ x < 4096 → ld8 m (0x10000 + x) = kbyte x.
Proof. intros H Hx. unfold ld8. rewrite H by done. apply Z.mod_small, kbyte_range. Qed.

Lemma header_ld32 m x : header_in m → 0 ≤ x ≤ 4092 → ld32 m (0x10000 + x) = kword x.
Proof. intros H Hx. unfold ld32, kword. rewrite <- !Z.add_assoc, !header_ld8 by (done || lia). done. Qed.

Lemma header_ld16 m x : header_in m → 0 ≤ x ≤ 4094 → ld16 m (0x10000 + x) = khalf x.
Proof. intros H Hx. unfold ld16, khalf. rewrite <- !Z.add_assoc, !header_ld8 by (done || lia). done. Qed.

Lemma kword_range x : 0 ≤ kword x < 2 ^ 32.
Proof. unfold kword. pose proof (kbyte_range x). pose proof (kbyte_range (x + 1)). pose proof (kbyte_range (x + 2)). pose proof (kbyte_range (x + 3)). lia. Qed.

Lemma khalf_range x : 0 ≤ khalf x < 2 ^ 16.
Proof. unfold khalf. pose proof (kbyte_range x). pose proof (kbyte_range (x + 1)). lia. Qed.

(** Loading one segment. *)
Lemma load_seg fuel m d x : (ata_patience ≤ fuel)%nat → ata_ok d → header_in m → 0 ≤ x → x + 32 ≤ 4096 → seg_fits (seg_at x) →
  ∃ m1 m2 d', readseg fuel (kword (x + 12)) (kword (x + 16)) (kword (x + 4)) (mk_boot m d) = Ok (tt, mk_boot m1 d') ∧ ata_ok d' ∧ header_in m1 ∧
    when (kword (x + 16) <? kword (x + 20)) (mod_mem (λ m, stosb m (u32 (kword (x + 12) + kword (x + 16))) 0 (kword (x + 20) - kword (x + 16)))) (mk_boot m1 d') = Ok (tt, mk_boot m2 d') ∧
    ∀ b, m2 b = seg_val (seg_at x) b (m b).
Proof.
  intros Hf Hd Hh H0 Hx [F1 F2 F3 F4 F5]. destruct (readseg_run fuel m d (kword (x + 12)) (kword (x + 16)) (kword (x + 4)) Hf Hd) as (m1 & d' & E & O & Hm); [apply F2|apply F1|exact F3|apply F4|apply F1|].
  exists m1. set (g := seg_at x) in *. change (kword (x + 12)) with (sg_paddr g) in *. change (kword (x + 16)) with (sg_filesz g) in *. change (kword (x + 20)) with (sg_memsz g) in *. change (kword (x + 4)) with (sg_off g) in *.
  fold (sg_sectors g) (sg_low g) in Hm. set (m2 := λ b, seg_val g b (m b)).
  assert (Hh1 : header_in m1).
  { intros y Hy. rewrite Hm. pose proof (F5 (0x10000 + y) ltac:(lia)) as Ht. unfold touches in Ht. apply orb_false_iff in Ht as [-> _]. by apply Hh. }
  pose proof (Z.mod_pos_bound (sg_off g) 512 ltac:(lia)). unfold when. destruct (Z.ltb_spec (sg_filesz g) (sg_memsz g)) as [Hlt|Hge].
  - eexists _, d'. split; [exact E|]. split; [done|]. split; [done|]. split; [done|]. intros b. cbn [bmem]. unfold stosb. rewrite u32_small by lia. change (0 mod 256) with 0. rewrite Hm. done.
  - exists m1, d'. split; [exact E|]. split; [done|]. split; [done|]. split; [done|]. intros b. rewrite Hm. unfold seg_val. unfold in_range at 2.
    destruct (Z.leb_spec (sg_paddr g + sg_filesz g) b), (Z.ltb_spec b (sg_paddr g + sg_filesz g + (sg_memsz g - sg_filesz g))); (done || lia).
Qed.

Lemma seg_val_untouched g b v : touches g b = false → seg_val g b v = v.
Proof. intros [H1 H2]%orb_false_iff. unfold seg_val. by rewrite H1, H2. Qed.

Lemma load_headers_run fuel n : ∀ m d x, (ata_patience ≤ fuel)%nat → ata_ok d → header_in m → 0 ≤ x → x + 32 * Z.of_nat n ≤ 4096 →
  Forall seg_fits ((λ i, seg_at (x + 32 * Z.of_nat i)) <$> seq 0 n) →
  ∃ m' d', load_headers n fuel (0x10000 + x) (0x10000 + x + 32 * Z.of_nat n) (mk_boot m d) = Ok (tt, mk_boot m' d') ∧ header_in m' ∧
    ∀ b, m' b = foldl (λ v g, seg_val g b v) (m b) ((λ i, seg_at (x + 32 * Z.of_nat i)) <$> seq 0 n).
Proof.
  induction n as [|n IH]; intros m d x Hf Hd Hh H0 Hx Hs.
  { exists m, d. cbn [load_headers]. rewrite (proj2 (Z.ltb_ge _ _)) by lia. done. }
  assert (Es : (λ i, seg_at (x + 32 * Z.of_nat i)) <$> seq 0 (S n) = seg_at x :: ((λ i, seg_at (x + 32 + 32 * Z.of_nat i)) <$> seq 0 n)).
  { cbn [seq fmap list_fmap]. f_equal; [f_equal; lia|]. rewrite <- seq_shift, <- list_fmap_compose. apply list_fmap_ext. intros i j _. cbn. f_equal. lia. }
  rewrite Es in Hs |- *. apply Forall_cons in Hs as [Hs Hss]. cbn [load_headers]. rewrite (proj2 (Z.ltb_lt _ _)) by lia. destruct (load_seg fuel m d x Hf Hd Hh H0 ltac:(lia) Hs) as (m1 & m2 & d1 & E1 & O1 & Hh1 & E2 & Hm).
  rewrite (bind_eq _ _ _ _ _ eq_refl). cbn [bmem]. cbv zeta. rewrite <- !Z.add_assoc, !header_ld32 by (done || lia). rewrite (bind_eq _ _ _ _ _ E1), (bind_eq _ _ _ _ _ eq_refl). cbn [bmem]. rewrite !header_ld32 by (done || lia).
  rewrite (bind_eq _ _ _ _ _ E2). rewrite u32_small by lia. assert (Hh2 : header_in m2) by (intros y Hy; rewrite Hm, seg_val_untouched by (apply Hs; lia); by apply Hh).
  destruct (IH m2 d1 (x + 32) Hf O1 Hh2 ltac:(lia) ltac:(lia) Hss) as (m' & d' & E3 & Hh3 & Hv). exists m', d'. split; [|split; [done|]].
  - rewrite <- E3. f_equal; lia.
  - intros b. rewrite Hv, Hm. done.
Qed.

(** ** The kernel in memory *)

(** The bytes of the segment. *)
Definition covers (g : seg) (b : Z) : Prop := sg_paddr g ≤ b < sg_paddr g + Z.max (sg_filesz g) (sg_memsz g).

(** No segment is stored over one that was loaded before. *)
Definition in_order (l : list seg) : Prop := ∀ i j g h b, (i < j)%nat → l !! i = Some g → l !! j = Some h → covers g b → touches h b = false.

Lemma fold_untouched l b v : Forall (λ g, touches g b = false) l → foldl (λ v g, seg_val g b v) v l = v.
Proof. intros H. revert v. induction H as [|g l Hg Hl IH]; intros v; [done|]. cbn. by rewrite seg_val_untouched. Qed.

Lemma fold_covers l i g b v : in_order l → l !! i = Some g → seg_fits g → covers g b →
  foldl (λ v g, seg_val g b v) v l = if b - sg_paddr g <? sg_filesz g then kbyte (sg_off g + (b - sg_paddr g)) else 0.
Proof.
  intros Ho Hi Hg Hb. rewrite <- (take_drop_middle l i g Hi), foldl_app. cbn [foldl]. rewrite fold_untouched.
  - unfold seg_val, covers, in_range, sg_low, sg_sectors in *. destruct Hg as [_ [F1 F2] _ _ _]. pose proof (Z.mod_pos_bound (sg_off g) 512 ltac:(lia)) as Hr.
    destruct (Z.leb_spec (sg_paddr g + sg_filesz g) b), (Z.ltb_spec b (sg_paddr g + sg_filesz g + (sg_memsz g - sg_filesz g))), (Z.ltb_spec (b - sg_paddr g) (sg_filesz g)); cbn [andb]; try lia; try done.
    all: rewrite (proj2 (Z.leb_le _ _)), (proj2 (Z.ltb_lt _ _)) by (Z.to_euclidean_division_equations; lia); done.
  - apply Forall_lookup. intros j h Hj. rewrite lookup_drop in Hj. exact (Ho i (S i + j)%nat g h b ltac:(lia) Hi Hj Hb).
Qed.

(** C36. The boot loader puts the kernel where its ELF headers say. If the file on the disk
    starts with the ELF magic and its program headers are in the first page, then bootmain
    reads it whatever was in memory, waiting for the disk no longer than the disk needs,
    and jumps to the entry point of the header. Each segment is in memory at its physical
    address, with the bytes of the file up to its file size and zeros up to its memory
    size, although whole sectors are read: the segments only have to come in an order in
    which no sector is stored over an earlier segment or over the headers. The rest of the
    memory is as it was. *)
Theorem boot_loads_kernel (fuel : nat) (s : boot D)
  (Hfuel : (ata_patience ≤ fuel)%nat) (Hdev : ata_ok (bdev s)) (Hmagic : kword 0 = ELF_MAGIC) (Hph : kword 28 + 32 * khalf 44 ≤ 4096)
  (Hfit : Forall seg_fits ksegs) (Hord : in_order ksegs) :
  runs (bootmain fuel) s (λ r s', r = Some (kword 24) ∧
    (∀ g b, g ∈ ksegs → covers g b → ld8 (bmem s') b = if b - sg_paddr g <? sg_filesz g then kbyte (sg_off g + (b - sg_paddr g)) else 0) ∧
    ∀ b, ¬ 0x10000 ≤ b < 0x11000 → Forall (λ g, touches g b = false) ksegs → bmem s' b = bmem s b).
Proof.
  destruct s as [m d]. cbn [bdev] in Hdev. unfold bootmain. cbv zeta. destruct (readseg_run fuel m d 0x10000 4096 0 Hfuel Hdev) as (m1 & d1 & E1 & O1 & Hm1); [lia|lia|done|lia|lia|].
  change (0x10000 - 0 mod 512) with 0x10000 in Hm1. change (512 * ((0 mod 512 + 4096 + 511) / 512)) with 4096 in Hm1.
  assert (Hh : header_in m1) by (intros x Hx; rewrite Hm1; unfold in_range; rewrite (proj2 (Z.leb_le _ _)), (proj2 (Z.ltb_lt _ _)) by lia; cbn [andb]; f_equal; lia).
  mstep. eexists _, _. split; [exact E1|]. mstep. mstep. cbn [bmem]. replace (ld32 m1 0x10000) with (kword 0) by (symmetry; exact (header_ld32 m1 0 Hh ltac:(lia))). rewrite Hmagic, Z.eqb_refl. cbn [negb].
  rewrite header_ld32, header_ld16 by (done || lia). pose proof (kword_range 28) as Hw. pose proof (khalf_range 44) as Hn. rewrite !u32_small by lia.
  destruct (load_headers_run fuel (Z.to_nat (khalf 44)) m1 d1 (kword 28) Hfuel O1 Hh) as (m2 & d2 & E2 & Hh2 & Hm2); [lia|lia|exact Hfit|]. rewrite Z2Nat.id in E2 by lia.
  mstep. eexists _, _. split; [exact E2|]. msteps. cbn [bmem] in *. rewrite header_ld32 by (done || lia). split; [done|]. fold ksegs in Hm2. split.
  - intros g b Hg Hb. apply list_elem_of_lookup in Hg as [i Hi]. unfold ld8. rewrite Hm2, (fold_covers _ i g) by (done || exact (Forall_lookup_1 _ _ _ _ Hfit Hi)).
    apply Z.mod_small. case_match; [apply kbyte_range|lia].
  - intros b Hb Ht. rewrite Hm2, fold_untouched, Hm1 by done. unfold in_range. destruct (Z.leb_spec 0x10000 b), (Z.ltb_spec b (0x10000 + 4096)); (done || lia).
Qed.
End runs.

(** * A disk with a small kernel *)

(** One segment of five bytes from the second sector, eight bytes in memory. *)
Definition tiny_header : list Z :=
  word ELF_MAGIC ++ replicate 20 0 ++ word 0x100004 ++ word 52 ++ replicate 12 0 ++ half 1 ++ replicate 6 0 ++
  word 1 ++ word 515 ++ word 0x80100000 ++ word 0x100000 ++ word 5 ++ word 8 ++ word 0 ++ word 0 ++ replicate 428 0.
Definition tiny_sector (n : Z) : list Z := if n =? 1 then tiny_header else if n =? 2 then replicate 3 9 ++ [104; 101; 108; 108; 111] ++ replicate 504 7 else replicate 512 0.

(** A disk that shows twice that it is busy after a command. *)
Record slow := mk_slow { sl_regs : Z → Z; sl_busy : nat; sl_cmd : option Z }.
#[global] Instance slow_io : PortIO slow := {
  dev_inb port d := match sl_busy d with O => (0x40, d) | S k => (0x80, mk_slow (sl_regs d) k (sl_cmd d)) end;
  dev_outb port v d :=
    if port =? 0x1F7 then
      mk_slow (sl_regs d) 2 (Some (sl_regs d 0x1F3 + 2 ^ 8 * sl_regs d 0x1F4 + 2 ^ 16 * sl_regs d 0x1F5 + 2 ^ 24 * (sl_regs d 0x1F6 - 0xE0)))
    else mk_slow (λ p, if p =? port then v else sl_regs d p) (sl_busy d) (sl_cmd d);
  dev_insl port cnt d := (match sl_cmd d with Some n => tiny_sector n | None => replicate 512 0 end, mk_slow (sl_regs d) (sl_busy d) None) }.

Lemma tiny_bytes n : length (tiny_sector n) = 512%nat ∧ Forall (λ c, 0 ≤ c < 256) (tiny_sector n).
Proof.
  unfold tiny_sector. destruct (n =? 1), (n =? 2); (split; [done|]); try (apply Forall_replicate; lia).
  all: apply (bool_decide_unpack _); vm_compute; done.
Qed.

#[global] Instance slow_ata : Ata slow.
Proof.
  refine {| ata_sector := tiny_sector; ata_ok d := (sl_busy d ≤ 2)%nat; ata_ready d := sl_busy d = 0%nat; ata_cmd := sl_cmd;
            ata_polls d := Nat.min (sl_busy d) 2; ata_patience := 3; ata_bytes := tiny_bytes |}.
  - intros d. lia.
  - intros d Hd. unfold dev_inb, slow_io. destruct (sl_busy d) as [|k] eqn:E; [rewrite E; split; [lia|done]|]. cbn [sl_busy sl_cmd]. split; [lia|]. split; [done|]. change (Z.land 0x80 0xC0 =? 0x40) with false. cbv iota. lia.
  - intros d n Hd Hr Hn. cbn. split; [done|]. f_equal. Z.to_euclidean_division_equations. lia.
  - intros d n Hd Hr Hc. cbn in *. rewrite Hc. done.
Defined.

Lemma tiny_fits : Forall seg_fits ksegs.
Proof.
  assert (Hg : ksegs = [mk_seg 515 0x100000 5 8]) by (vm_compute; reflexivity). rewrite Hg. constructor; [|constructor]. split; cbn; try lia.
  - vm_compute. discriminate.
  - intros b Hb. unfold touches. change (sg_low (mk_seg 515 0x100000 5 8)) with 0xFFFFD. change (sg_sectors (mk_seg 515 0x100000 5 8)) with 1. unfold in_range. cbn.
    rewrite (proj2 (Z.leb_gt 0xFFFFD b)), (proj2 (Z.leb_gt (0x100000 + 5) b)) by lia. reflexivity.
Qed.

Lemma boot_loads_kernel_witness :
  runs (bootmain 3) (mk_boot (λ _, 77) (mk_slow (λ _, 0) 1 None)) (λ r s', r = Some 0x100004 ∧ ld8 (bmem s') 0x100001 = 101 ∧ ld8 (bmem s') 0x100007 = 0 ∧ ld8 (bmem s') 0x200000 = 77).
Proof.
  eapply runs_mono.
  - apply (boot_loads_kernel 3).
    + reflexivity.
    + cbn. lia.
    + vm_compute. reflexivity.
    + vm_compute. discriminate.
    + exact tiny_fits.
    + intros [|i] [|j] g h b Hij Hi Hj; try lia; vm_compute in Hj; discriminate.
  - intros r s' (-> & Hc & Ho). split; [vm_compute; reflexivity|].
    assert (Hg : ksegs = [mk_seg 515 0x100000 5 8]) by (vm_compute; reflexivity). rewrite Hg in *. split; [|split].
    + rewrite (Hc _ 0x100001 (list_elem_of_here _ _)); [vm_compute; reflexivity|unfold covers; cbn; lia].
    + rewrite (Hc _ 0x100007 (list_elem_of_here _ _)); [vm_compute; reflexivity|unfold covers; cbn; lia].
    + unfold ld8. rewrite Ho; [reflexivity|lia|]. repeat constructor.
Defined.
