(* ===== verification/Mp.v ===== *)
(** The search for the processors of the machine (mp.c): the tables that the BIOS left in
    memory name the CPUs and the interrupt controllers. It is proved what mpinit takes from
    a table, and that an entry of unknown type makes it loop for ever. *)
From Stdlib Require Import ZArith Lia Bool Ascii.
From stdpp Require Import base tactics list list_numbers strings.
From S2P Require Import Prelude Machine CString Ports.

(** * mp.h *)

Definition NCPU : Z := 8.
Definition MPPROC : Z := 0x00.
Definition MPBUS : Z := 0x01.
Definition MPIOAPIC : Z := 0x02.
Definition MPIOINTR : Z := 0x03.
Definition MPLINTR : Z := 0x04.
Definition sizeof_mp : Z := 16.
Definition sizeof_mpconf : Z := 44.
Definition sizeof_mpproc : Z := 20.
Definition sizeof_mpioapic : Z := 8.

(** The fields of [struct mp] and [struct mpconf] at their offsets. *)
Definition mp_physaddr (m : memory) (mp : Z) : Z := ld32 m (mp + 4).
Definition mp_imcrp (m : memory) (mp : Z) : Z := ld8 m (mp + 12).
Definition conf_length (m : memory) (c : Z) : Z := ld8 m (c + 4) + 2 ^ 8 * ld8 m (c + 5).
Definition conf_version (m : memory) (c : Z) : Z := ld8 m (c + 6).
Definition conf_lapicaddr (m : memory) (c : Z) : Z := ld32 m (c + 36).

(** * mp.c *)

(** The loop of sum, which adds in an int, and sum, which returns a byte. *)
Fixpoint sum_loop (m : memory) (addr : Z) (len : nat) (acc : Z) : Z :=
  match len with
  | O => acc
  | S len => sum_loop m (addr + 1) len (acc + ld8 m addr)
  end.
Definition sum (m : memory) (addr len : Z) : Z := sum_loop m addr (Z.to_nat len) 0 mod 256.

(** memcmp with a string of the program is 0. *)
Fixpoint same_bytes (m : memory) (p : Z) (l : list Z) : bool :=
  match l with
  | [] => true
  | c :: l => (ld8 m p =? c) && same_bytes m (p + 1) l
  end.

(** The loop of mpsearch1 for [n] more places from [p] on; 0 is the null pointer. *)
Fixpoint mp_search_loop (n : nat) (m : memory) (p : Z) : Z :=
  match n with
  | O => 0
  | S n => if same_bytes m p (chars "_MP_") && (sum m p sizeof_mp =? 0) then p else mp_search_loop n m (p + sizeof_mp)
  end.
Definition mpsearch1 (m : memory) (a len : Z) : Z := mp_search_loop (Z.to_nat (len / sizeof_mp)) m (P2V a).

Definition mpsearch (m : memory) : Z :=
  let bda := P2V 0x400 in
  let p := Z.shiftl (Z.lor (Z.shiftl (ld8 m (bda + 0x0F)) 8) (ld8 m (bda + 0x0E))) 4 in
  let mp := if negb (p =? 0) then mpsearch1 m p 1024
            else let p := Z.lor (Z.shiftl (ld8 m (bda + 0x14)) 8) (ld8 m (bda + 0x13)) * 1024 in mpsearch1 m (u32 (p - 1024)) 1024 in
  if negb (mp =? 0) then mp else mpsearch1 m 0xF0000 0x10000.

(** The floating pointer and the configuration table, if there are any. *)
Definition mpconfig (m : memory) : option (Z * Z) :=
  let mp := mpsearch m in
  if (mp =? 0) || (mp_physaddr m mp =? 0) then None else
  let conf := P2V (mp_physaddr m mp) in
  if negb (same_bytes m conf (chars "PCMP")) then None else
  if negb (conf_version m conf =? 1) && negb (conf_version m conf =? 4) then None else
  if negb (sum m conf (conf_length m conf) =? 0) then None else
  Some (mp, conf).

Section mpinit.
  Context {D : Type} {P : PortIO D}.

(** The memory, the variables of mp.c with the APIC numbers of [cpus], [lapic] of lapic.c,
    and the devices. *)
Record mpst := mk_mpst { mp_mem : memory; ncpu : Z; cpu_apicid : list Z; ioapicid : Z; lapic : Z; mp_dev : D }.

Definition add_cpu (id : Z) : M mpst unit :=
  modify (λ s, mk_mpst (mp_mem s) (ncpu s + 1) (<[Z.to_nat (ncpu s) := id]> (cpu_apicid s)) (ioapicid s) (lapic s) (mp_dev s)).
Definition set_ioapicid (id : Z) : M mpst unit := modify (λ s, mk_mpst (mp_mem s) (ncpu s) (cpu_apicid s) id (lapic s) (mp_dev s)).
Definition set_lapic (a : Z) : M mpst unit := modify (λ s, mk_mpst (mp_mem s) (ncpu s) (cpu_apicid s) (ioapicid s) a (mp_dev s)).
Definition mp_io {A} (m : M D A) : M mpst A := zoom mp_dev (λ d s, mk_mpst (mp_mem s) (ncpu s) (cpu_apicid s) (ioapicid s) (lapic s) d) m.

(** The loop over the entries of the table. The break of the default case leaves the
    switch, not the loop, which goes on with the same entry. *)
Fixpoint mp_entries (fuel : nat) (p e : Z) (ismp : bool) : M mpst bool :=
  if p <? e then
    match fuel with
    | O => nofuel
    | S fuel =>
        s ← get;
        let t := ld8 (mp_mem s) p in
        if t =? MPPROC then
          when (ncpu s <? NCPU) (add_cpu (ld8 (mp_mem s) (p + 1)));;
          mp_entries fuel (u32 (p + sizeof_mpproc)) e ismp
        else if t =? MPIOAPIC then
          set_ioapicid (ld8 (mp_mem s) (p + 1));;
          mp_entries fuel (u32 (p + sizeof_mpioapic)) e ismp
        else if (t =? MPBUS) || (t =? MPIOINTR) || (t =? MPLINTR) then
          mp_entries fuel (u32 (p + 8)) e ismp
        else mp_entries fuel p e false
    end
  else mret ismp.

Definition mpinit (fuel : nat) : M mpst unit :=
  s ← get;
  match mpconfig (mp_mem s) with
  | None => panic "Expect to run on an SMP"
  | Some (mp, conf) =>
      set_lapic (conf_lapicaddr (mp_mem s) conf);;
      ismp ← mp_entries fuel (u32 (conf + sizeof_mpconf)) (u32 (conf + conf_length (mp_mem s) conf)) true;
      if negb ismp then panic "Didn't find a suitable machine" else
      when (negb (mp_imcrp (mp_mem s) mp =? 0))
        (mp_io (outb 0x22 0x70);; v ← mp_io (inb 0x23); mp_io (outb 0x23 (Z.lor v 1)))
  end.
End mpinit.
Arguments mpst : clear implicits.

(** * What is in memory *)

(** The bytes [l] are at address [a]. *)
Definition mem_has (m : memory) (a : Z) (l : list Z) : Prop := ∀ i c, l !! i = Some c → ld8 m (a + Z.of_nat i) = c.

Lemma mem_has_app m a l l' : mem_has m a (l ++ l') ↔ mem_has m a l ∧ mem_has m (a + Z.of_nat (length l)) l'.
Proof.
  split.
  - intros H. split; intros i c Hi; [apply H; by apply lookup_app_l_Some|]. rewrite <- Z.add_assoc, <- Nat2Z.inj_add. apply H. rewrite lookup_app_r by lia. by rewrite Nat.add_comm, Nat.add_sub.
  - intros [H1 H2] i c [Hi|[Hl Hi]]%lookup_app_Some; [by apply H1|]. rewrite <- (H2 _ _ Hi). f_equal. lia.
Qed.

Lemma mem_has_cons m a c l : mem_has m a (c :: l) ↔ ld8 m a = c ∧ mem_has m (a + 1) l.
Proof.
  change (c :: l) with ([c] ++ l). rewrite mem_has_app. cbn [length]. change (Z.of_nat 1) with 1. split; intros [H1 H2]; (split; [|done]).
  - rewrite <- (H1 0%nat c eq_refl). f_equal. lia.
  - intros [|i] x Hx; [injection Hx as <-; rewrite <- H1; f_equal; lia|done].
Qed.

Lemma same_bytes_has m p l : same_bytes m p l = true ↔ mem_has m p l.
Proof.
  revert p. induction l as [|c l IH]; intros p; cbn [same_bytes]; [split; [intros _ i x Hx; done|done]|]. by rewrite mem_has_cons, andb_true_iff, IH, Z.eqb_eq.
Qed.

Definition total (l : list Z) : Z := foldr Z.add 0 l.

Lemma sum_has m a l : mem_has m a l → sum m a (Z.of_nat (length l)) = total l mod 256.
Proof.
  intros H. unfold sum. rewrite Nat2Z.id. f_equal. rewrite <- (Z.add_0_l (total l)). revert a H. generalize 0 as acc. induction l as [|c l IH]; intros acc a H; cbn [length sum_loop total foldr]; [lia|].
  apply mem_has_cons in H as [H1 H2]. rewrite (IH _ _ H2), H1. unfold total. lia.
Qed.

Lemma ld32_has m a v : mem_has m a (word v) → ld32 m a = u32 v.
Proof.
  intros H. rewrite <- byte_sum. unfold ld32. pose proof (H 0%nat _ eq_refl) as H0. rewrite Z.add_0_r in H0. pose proof (H 1%nat _ eq_refl) as H1. pose proof (H 2%nat _ eq_refl) as H2. pose proof (H 3%nat _ eq_refl) as H3.
  change (Z.of_nat 1) with 1 in H1. change (Z.of_nat 2) with 2 in H2. change (Z.of_nat 3) with 3 in H3. by rewrite H0, H1, H2, H3.
Qed.

(** * The floating pointer *)

Definition is_mp (m : memory) (p : Z) : bool := same_bytes m p (chars "_MP_") && (sum m p 16 =? 0).

(** The places that are searched, in their order: the first kilobyte of the extended BIOS
    data area or, if there is none, the last one of the base memory, and the BIOS ROM. *)
Definition places (a : Z) (n : nat) : list Z := (λ i, P2V a + 16 * Z.of_nat i) <$> seq 0 n.
Definition half_at (m : memory) (a : Z) : Z := ld8 m (P2V 0x400 + a) + 2 ^ 8 * ld8 m (P2V 0x400 + a + 1).
Definition candidates (m : memory) : list Z :=
  places (if half_at m 0x0E =? 0 then half_at m 0x13 * 1024 - 1024 else half_at m 0x0E * 16) 64 ++ places 0xF0000 4096.

Lemma search_first m a n : mp_search_loop n m a = default 0 (List.find (is_mp m) ((λ i, a + 16 * Z.of_nat i) <$> seq 0 n)).
Proof.
  revert a. induction n as [|n IH]; intros a; [done|]. cbn [mp_search_loop seq fmap list_fmap List.find]. rewrite Z.mul_0_r, Z.add_0_r. change sizeof_mp with 16. fold (is_mp m a).
  destruct (is_mp m a); [done|]. rewrite IH. f_equal. f_equal. rewrite <- seq_shift, <- list_fmap_compose. apply list_fmap_ext. intros i j _. cbn. lia.
Qed.

Lemma find_app' {A} (f : A → bool) l l' : List.find f (l ++ l') = match List.find f l with Some x => Some x | None => List.find f l' end.
Proof. induction l as [|x l IH]; [done|]. cbn. by destruct (f x). Qed.

Lemma search_nonzero m a n : 0 < a → mp_search_loop n m a ≠ 0 ↔ List.find (is_mp m) ((λ i, a + 16 * Z.of_nat i) <$> seq 0 n) ≠ None.
Proof.
  intros Ha. rewrite search_first. destruct (List.find _ _) as [x|] eqn:E; [|done]. apply find_some in E as [Hx _]. apply list_elem_of_In, list_elem_of_fmap in Hx as (i & -> & _). cbn. split; [done|lia].
Qed.

Lemma half_lor m a : Z.lor (Z.shiftl (ld8 m (P2V 0x400 + (a + 1))) 8) (ld8 m (P2V 0x400 + a)) = half_at m a.
Proof. unfold half_at. pose proof (ld8_range m (P2V 0x400 + a)). rewrite lor_shiftl_add by lia. rewrite Z.add_assoc. lia. Qed.

#[local] Opaque seq mp_search_loop.

Lemma P2V_u32 a : P2V (u32 a) = P2V a.
Proof. unfold P2V, u32. by rewrite Zplus_mod_idemp_l. Qed.

(** mpsearch takes the first floating pointer among the candidates. *)
Lemma mpsearch_first m : mpsearch m = default 0 (List.find (is_mp m) (candidates m)).
Proof.
  unfold mpsearch. cbv zeta. change 0x0F with (0x0E + 1). change 0x14 with (0x13 + 1). rewrite !half_lor. unfold candidates. rewrite find_app'.
  assert (H0E : 0 ≤ half_at m 0x0E < 2 ^ 16) by (unfold half_at; pose proof (ld8_range m (P2V 0x400 + 0x0E)); pose proof (ld8_range m (P2V 0x400 + 0x0E + 1)); lia).
  assert (H13 : 0 ≤ half_at m 0x13 < 2 ^ 16) by (unfold half_at; pose proof (ld8_range m (P2V 0x400 + 0x13)); pose proof (ld8_range m (P2V 0x400 + 0x13 + 1)); lia).
  rewrite Z.shiftl_mul_pow2 by lia. change (2 ^ 4) with 16. set (a := if half_at m 0x0E =? 0 then half_at m 0x13 * 1024 - 1024 else half_at m 0x0E * 16).
  assert (E : (if negb (half_at m 0x0E * 16 =? 0) then mpsearch1 m (half_at m 0x0E * 16) 1024 else mpsearch1 m (u32 (half_at m 0x13 * 1024 - 1024)) 1024) = mp_search_loop 64 m (P2V a)).
  { unfold a, mpsearch1. change (Z.to_nat (1024 / sizeof_mp)) with 64%nat. destruct (Z.eqb_spec (half_at m 0x0E) 0) as [->|]; [cbn [Z.mul Z.eqb negb]|rewrite (proj2 (Z.eqb_neq (half_at m 0x0E * 16) 0)) by lia; reflexivity].
    rewrite P2V_u32. reflexivity. }
  rewrite E. assert (Ha : 0 < P2V a) by (unfold P2V, u32, KERNBASE, a; destruct (half_at m 0x0E =? 0); Z.to_euclidean_division_equations; lia).
  pose proof (search_nonzero m (P2V a) 64 Ha) as Hnz. fold (places a 64) in Hnz. rewrite search_first in Hnz |- *. fold (places a 64) in Hnz |- *. destruct (List.find (is_mp m) (places a 64)) as [x|]; cbn [default] in *.
  - unfold id in *. rewrite (proj2 (Z.eqb_neq x 0)); [done|]. by apply Hnz.
  - change (negb (0 =? 0)) with false. cbv iota. unfold mpsearch1. change (Z.to_nat (0x10000 / sizeof_mp)) with 4096%nat. rewrite search_first. done.
Qed.

(** * The configuration table *)

Inductive mpentry :=
  | EProc (apicid : Z) (rest : list Z)
  | EIoapic (apicno : Z) (rest : list Z)
  | EOther (type : Z) (rest : list Z).

Definition entry_bytes (e : mpentry) : list Z :=
  match e with
  | EProc id rest => MPPROC :: id :: rest
  | EIoapic id rest => MPIOAPIC :: id :: rest
  | EOther t rest => t :: rest
  end.
Definition entry_ok (e : mpentry) : Prop :=
  match e with
  | EProc _ rest => length rest = 18%nat
  | EIoapic _ rest => length rest = 6%nat
  | EOther t rest => (t = MPBUS ∨ t = MPIOINTR ∨ t = MPLINTR) ∧ length rest = 7%nat
  end.

Definition proc_of (e : mpentry) : list Z := match e with EProc id _ => [id] | _ => [] end.
Definition procs (es : list mpentry) : list Z := concat (proc_of <$> es).
Definition last_ioapic (d : Z) (es : list mpentry) : Z := foldl (λ d e, match e with EIoapic id _ => id | _ => d end) d es.

(** The fields of the header that the kernel does not look at are bytes, and [t_more] is
    what follows the entries of known types. *)
Record mptable := mk_mptable { t_version : Z; t_check : Z; t_product : list Z; t_lapicaddr : Z; t_tail : list Z; t_entries : list mpentry; t_more : list Z }.

Definition entries_bytes (es : list mpentry) : list Z := concat (entry_bytes <$> es).
Definition table_length (t : mptable) : Z := 44 + Z.of_nat (length (entries_bytes (t_entries t))) + Z.of_nat (length (t_more t)).
Definition table_bytes (t : mptable) : list Z :=
  chars "PCMP" ++ half (table_length t) ++ [t_version t; t_check t] ++ t_product t ++ word (t_lapicaddr t) ++ t_tail t ++ entries_bytes (t_entries t) ++ t_more t.

Record table_ok (t : mptable) : Prop := {
  tk_version : t_version t = 1 ∨ t_version t = 4;
  tk_fields : length (t_product t) = 28%nat ∧ length (t_tail t) = 4%nat;
  tk_length : table_length t < 2 ^ 16;
  tk_lapic : 0 ≤ t_lapicaddr t < 2 ^ 32;
  tk_entries : Forall entry_ok (t_entries t);
  tk_sum : total (table_bytes t) mod 256 = 0 }.

(** ** What mpinit notes *)

Definition note_cpu (x : Z * list Z) (id : Z) : Z * list Z := if x.1 <? NCPU then (x.1 + 1, <[Z.to_nat x.1 := id]> x.2) else x.

Lemma note_cpus n L ids : (n ≤ 8)%nat → length L = 8%nat →
  foldl note_cpu (Z.of_nat n, L) ids = (Z.of_nat (Nat.min 8 (n + length ids)), take n L ++ take (8 - n) ids ++ drop (n + length ids) L).
Proof.
  revert n L. induction ids as [|id ids IH]; intros n L Hn HL; cbn [foldl length].
  - rewrite take_nil, Nat.add_0_r, Nat.min_r by lia. cbn. by rewrite take_drop.
  - unfold note_cpu at 2. cbn [fst snd]. change NCPU with 8. destruct (Z.ltb_spec (Z.of_nat n) 8) as [Hlt|Hge].
    + rewrite Nat2Z.id. replace (Z.of_nat n + 1) with (Z.of_nat (S n)) by lia. rewrite IH by (rewrite ?length_insert; lia). f_equal; [f_equal; lia|].
      rewrite (take_S_r _ n id) by (apply list_lookup_insert_eq; lia). rewrite take_insert_ge, <- app_assoc by lia. f_equal. rewrite drop_insert_lt by lia.
      replace (8 - n)%nat with (S (8 - S n)) by lia. cbn [take app]. do 3 f_equal. lia.
    + rewrite IH by lia. replace n with 8%nat by lia. rewrite !Nat.sub_diag, !take_0, !drop_ge by lia. done.
Qed.

Section entries.
  Context {D : Type} {P : PortIO D}.

(** The loop takes the entries one after the other. *)
Lemma mp_entries_run es fuel rest : ∀ (s : mpst D) p e, mem_has (mp_mem s) p (entries_bytes es) → Forall entry_ok es → 0 ≤ p → p + Z.of_nat (length (entries_bytes es)) < 2 ^ 32 → p + Z.of_nat (length (entries_bytes es)) ≤ e →
  0 ≤ ncpu s →
  mp_entries (length es + fuel) p e rest s =
    mp_entries fuel (p + Z.of_nat (length (entries_bytes es))) e rest
      (let '(n, L) := foldl note_cpu (ncpu s, cpu_apicid s) (procs es) in mk_mpst (mp_mem s) n L (last_ioapic (ioapicid s) es) (lapic s) (mp_dev s)).
Proof.
  induction es as [|en es IH]; intros s p e Hm Ho Hp Hw He Hc.
  { cbn [length app foldl procs last_ioapic entries_bytes fmap list_fmap concat]. rewrite Z.add_0_r. by destruct s. }
  apply Forall_cons in Ho as [Hen Ho]. change (entries_bytes (en :: es)) with (entry_bytes en ++ entries_bytes es) in *. rewrite length_app in *. apply mem_has_app in Hm as [Hm1 Hm2].
  assert (Hl : (1 ≤ length (entry_bytes en))%nat) by (destruct en; cbn; lia).
  assert (Es : ∀ s', mp_mem s' = mp_mem s → ncpu s' = (foldl note_cpu (ncpu s, cpu_apicid s) (proc_of en)).1 → 0 ≤ ncpu s' →
    cpu_apicid s' = (foldl note_cpu (ncpu s, cpu_apicid s) (proc_of en)).2 → ioapicid s' = last_ioapic (ioapicid s) [en] → lapic s' = lapic s → mp_dev s' = mp_dev s →
    mp_entries (length es + fuel) (u32 (p + Z.of_nat (length (entry_bytes en)))) e rest s' =
    mp_entries fuel (p + Z.of_nat (length (entry_bytes en) + length (entries_bytes es))) e rest
      (let '(n, L) := foldl note_cpu (ncpu s, cpu_apicid s) (procs (en :: es)) in mk_mpst (mp_mem s) n L (last_ioapic (ioapicid s) (en :: es)) (lapic s) (mp_dev s))).
  { intros s' E1 E2 E2' E3 E4 E5 E6. rewrite u32_small by lia. rewrite IH by (rewrite ?E1; done || lia). rewrite E1, E2, E3, E4, E5, E6.
    change (procs (en :: es)) with (proc_of en ++ procs es). rewrite foldl_app, <- surjective_pairing. f_equal. lia. }
  cbn [length Nat.add mp_entries]. rewrite (proj2 (Z.ltb_lt p e)) by lia. rewrite (bind_eq _ _ _ _ _ (eq_refl : get s = Ok (s, s))). cbv zeta.
  destruct en as [id r|id r|t r]; cbn [entry_bytes entry_ok] in *; rewrite !mem_has_cons in Hm1.
  - destruct Hm1 as (-> & -> & _). cbn [length] in Es |- *. rewrite Hen in Es |- *. change (MPPROC =? MPPROC) with true. cbv iota. change (Z.of_nat 20) with sizeof_mpproc in Es.
    cbn [proc_of foldl fst snd] in Es. unfold note_cpu in Es. cbn [fst snd] in Es. destruct (Z.ltb_spec (ncpu s) NCPU); cbn [when]; (rewrite (bind_eq _ _ _ _ _ eq_refl); apply Es; cbn; try done; lia).
  - destruct Hm1 as (-> & -> & _). cbn [length] in Es |- *. rewrite Hen in Es |- *. change (MPIOAPIC =? MPPROC) with false. change (MPIOAPIC =? MPIOAPIC) with true. cbv iota. rewrite (bind_eq _ _ _ _ _ eq_refl). by apply Es.
  - destruct Hm1 as (-> & _). destruct Hen as [Ht Hr]. cbn [length] in Es |- *. rewrite Hr in Es |- *. change (Z.of_nat 8) with 8 in Es. destruct Ht as [->|[->| ->]]; by apply Es.
Qed.
End entries.

(** * mpinit *)

Lemma candidate_pos m x : x ∈ candidates m → 0 < x.
Proof.
  unfold candidates. rewrite elem_of_app. intros Hx.
  assert (H0E : 0 ≤ half_at m 0x0E < 2 ^ 16) by (unfold half_at; pose proof (ld8_range m (P2V 0x400 + 0x0E)); pose proof (ld8_range m (P2V 0x400 + 0x0E + 1)); lia).
  assert (H13 : 0 ≤ half_at m 0x13 < 2 ^ 16) by (unfold half_at; pose proof (ld8_range m (P2V 0x400 + 0x13)); pose proof (ld8_range m (P2V 0x400 + 0x13 + 1)); lia).
  destruct Hx as [Hx|Hx]; apply list_elem_of_fmap in Hx as (i & -> & _).
  - assert (Ha : 0 < P2V (if half_at m 0x0E =? 0 then half_at m 0x13 * 1024 - 1024 else half_at m 0x0E * 16)) by (unfold P2V, u32, KERNBASE; destruct (half_at m 0x0E =? 0); Z.to_euclidean_division_equations; lia). lia.
  - change (P2V 0xF0000) with 0x800F0000. lia.
Qed.

(** The machine has a floating pointer, and the table [t] where it points to. *)
Record table_at (m : memory) (mp : Z) (t : mptable) : Prop := {
  ta_first : List.find (is_mp m) (candidates m) = Some mp;
  ta_phys : mp_physaddr m mp ≠ 0;
  ta_ok : table_ok t;
  ta_bytes : mem_has m (P2V (mp_physaddr m mp)) (table_bytes t);
  ta_fits : P2V (mp_physaddr m mp) + table_length t < 2 ^ 32 }.

Section table.
  Context (m : memory) (mp : Z) (t : mptable) (T : table_at m mp t).
Let conf : Z := P2V (mp_physaddr m mp).

Lemma table_total : Z.of_nat (length (table_bytes t)) = table_length t.
Proof using T.
  destruct (tk_fields _ (ta_ok _ _ _ T)) as [H1 H2]. unfold table_bytes, table_length. rewrite !length_app, H1, H2. cbn [length chars half word]. change (length (chars "PCMP")) with 4%nat. lia.
Qed.

Lemma table_fields : mem_has m conf (chars "PCMP") ∧ conf_length m conf = table_length t ∧ conf_version m conf = t_version t ∧ conf_lapicaddr m conf = t_lapicaddr t ∧
  mem_has m (conf + 44) (entries_bytes (t_entries t)) ∧ mem_has m (conf + 44 + Z.of_nat (length (entries_bytes (t_entries t)))) (t_more t).
Proof using T.
  pose proof (ta_bytes _ _ _ T) as H. fold conf in H. destruct (ta_ok _ _ _ T) as [K1 [K2 K2'] K3 K4 _ _]. unfold table_bytes in H. rewrite !mem_has_app, K2, K2' in H.
  destruct H as (H1 & H2 & H3 & _ & H5 & _ & H7 & H8). change (length (chars "PCMP")) with 4%nat in *. cbn [length half word] in *.
  assert (Hmv : ∀ a b l, a = b → mem_has m a l → mem_has m b l) by by intros a b l ->. apply (Hmv _ (conf + 4)) in H2; [|lia]. apply (Hmv _ (conf + 6)) in H3; [|lia]. apply (Hmv _ (conf + 36)) in H5; [|lia].
  split; [done|]. split; [|split; [|split; [|split]]].
  - unfold half in H2. rewrite !mem_has_cons, <- Z.add_assoc in H2. destruct H2 as (E1 & E2 & _). unfold conf_length. change (4 + 1) with 5 in E2. rewrite E1, E2.
    assert (0 ≤ table_length t) by (unfold table_length; lia). Z.to_euclidean_division_equations. lia.
  - rewrite mem_has_cons in H3. apply H3.
  - unfold conf_lapicaddr. rewrite (ld32_has _ _ _ H5). by apply u32_small.
  - eapply Hmv; [|exact H7]. lia.
  - eapply Hmv; [|exact H8]. lia.
Qed.

Lemma mpconfig_table : mpconfig m = Some (mp, conf).
Proof using T.
  destruct table_fields as (H1 & H2 & H3 & _). pose proof (candidate_pos m mp) as Hp. pose proof (find_some _ _ (ta_first _ _ _ T)) as [Hin _]. apply list_elem_of_In, Hp in Hin.
  unfold mpconfig. rewrite mpsearch_first, (ta_first _ _ _ T). change (default 0 (Some mp)) with mp. cbv zeta. rewrite (proj2 (Z.eqb_neq mp 0)), (proj2 (Z.eqb_neq (mp_physaddr m mp) 0)) by (lia || apply T). cbn [orb]. fold conf.
  rewrite (proj2 (same_bytes_has _ _ _) H1), H2, H3, <- table_total. cbn [negb]. rewrite (sum_has m conf _ (ta_bytes _ _ _ T)), (tk_sum _ (ta_ok _ _ _ T)). destruct (tk_version _ (ta_ok _ _ _ T)) as [-> | ->]; done.
Qed.
End table.

Section theorems.
  Context {D : Type} {P : PortIO D}.

(** C37. mpinit takes the processors from the table. If the first floating pointer in the
    places that the BIOS may use leads to a valid table all of whose entries have known
    types, then mpinit ends after as many rounds as there are entries. The CPUs are the
    first eight processor entries in their order, with their APIC numbers; the I/O APIC is
    the last one of the table; the address of the local APIC is that of the header; and
    the interrupt mode is switched exactly if the floating pointer asks for it. *)
Theorem mpinit_reads_table (s : mpst D) (mp : Z) (t : mptable) (fuel : nat)
  (Ht : table_at (mp_mem s) mp t) (Hmore : t_more t = []) (Hcpu : ncpu s = 0) (Hlen : length (cpu_apicid s) = 8%nat) (Hfuel : (length (t_entries t) ≤ fuel)%nat) :
  let ids := procs (t_entries t) in
  mpinit fuel s = Ok (tt, mk_mpst (mp_mem s) (Z.min 8 (Z.of_nat (length ids))) (take 8 ids ++ drop (length ids) (cpu_apicid s))
    (last_ioapic (ioapicid s) (t_entries t)) (t_lapicaddr t)
    (if mp_imcrp (mp_mem s) mp =? 0 then mp_dev s
     else let '(v, d) := dev_inb 0x23 (dev_outb 0x22 0x70 (mp_dev s)) in dev_outb 0x23 (Z.lor v 1 mod 256) d)).
Proof.
  cbv zeta. destruct (table_fields _ _ _ Ht) as (_ & H2 & _ & H4 & H5 & _). pose proof (mpconfig_table _ _ _ Ht) as Hc. pose proof (ta_fits _ _ _ Ht) as Hw. set (conf := P2V (mp_physaddr (mp_mem s) mp)) in *.
  assert (Hc0 : 0 ≤ conf) by apply u32_range. unfold table_length in *. rewrite Hmore in *. cbn [length] in *. unfold mpinit. rewrite (bind_eq _ _ _ _ _ (eq_refl : get s = Ok (s, s))), Hc, (bind_eq _ _ _ _ _ eq_refl), H2, H4.
  change sizeof_mpconf with 44. rewrite !u32_small by lia. replace fuel with (length (t_entries t) + (fuel - length (t_entries t)))%nat by lia. set (s1 := mk_mpst _ _ _ _ (t_lapicaddr t) _). set (k := (fuel - _)%nat).
  pose proof (mp_entries_run (t_entries t) k true s1 (conf + 44) (conf + (44 + Z.of_nat (length (entries_bytes (t_entries t))) + Z.of_nat 0)) H5 (tk_entries _ (ta_ok _ _ _ Ht)) ltac:(lia) ltac:(lia) ltac:(lia)) as E.
  cbn [ncpu cpu_apicid s1 mp_mem ioapicid lapic mp_dev] in E. rewrite Hcpu in E. pose proof (note_cpus 0 (cpu_apicid s) (procs (t_entries t)) ltac:(lia) Hlen) as En. cbn [Nat.add take app] in En. change (Z.of_nat 0) with 0 in *. rewrite En in E.
  assert (Eend : ∀ p e (x : mpst D), p = e → mp_entries k p e true x = Ok (true, x)) by (intros p e x ->; destruct k; cbn [mp_entries]; by rewrite Z.ltb_irrefl).
  rewrite Eend in E by lia. rewrite (bind_eq _ _ _ _ _ (E ltac:(lia))). cbn [negb]. rewrite Nat2Z.inj_min, Nat.sub_0_r. change (Z.of_nat 8) with 8.
  destruct (Z.eqb_spec (mp_imcrp (mp_mem s) mp) 0); cbn [negb when]; [done|]. unfold mp_io, outb, inb, zoom, mbind, M_bind. cbn [mp_dev]. change (0x70 mod 256) with 0x70. by destruct (dev_inb 0x23 _) as [v d].
Qed.

(** With less fuel the loop runs out of it as well. *)
Lemma nofuel_mono j : ∀ k p e b (x : mpst D), mp_entries (j + k) p e b x = NoFuel → mp_entries k p e b x = NoFuel.
Proof.
  intros k. induction k as [|k IH]; intros p e b x.
  - destruct (Z.ltb_spec p e) as [Hp|Hp]; cbn [mp_entries]; [by rewrite (proj2 (Z.ltb_lt p e)) by done|]. destruct (j + 0)%nat; cbn [mp_entries]; by rewrite (proj2 (Z.ltb_ge p e)) by done.
  - rewrite Nat.add_succ_r. cbn [mp_entries]. destruct (p <? e); [|done]. unfold mbind, M_bind, get. destruct (ld8 (mp_mem x) p =? MPPROC).
    + destruct (when _ _ x) as [[u y]| | | |]; try done. apply IH.
    + destruct (ld8 (mp_mem x) p =? MPIOAPIC); [apply IH|]. case_match; apply IH.
Qed.

(** An entry of unknown type hangs the kernel: if the table goes on after some entries
    with one whose type is none of the five known ones, mpinit never returns, nor does it
    panic, however long it runs. *)
Theorem unknown_entry_hangs (s : mpst D) (mp : Z) (t : mptable) (type : Z) (rest : list Z) (fuel : nat)
  (Ht : table_at (mp_mem s) mp t) (Hmore : t_more t = type :: rest) (Hcpu : 0 ≤ ncpu s) (Htype : 4 < type) :
  mpinit fuel s = NoFuel.
Proof.
  destruct (table_fields _ _ _ Ht) as (_ & H2 & _ & H4 & H5 & H6). pose proof (mpconfig_table _ _ _ Ht) as Hc. pose proof (ta_fits _ _ _ Ht) as Hw. set (conf := P2V (mp_physaddr (mp_mem s) mp)) in *.
  assert (Hc0 : 0 ≤ conf) by apply u32_range. unfold table_length in *. rewrite Hmore in *. cbn [length] in *. unfold mpinit. rewrite (bind_eq _ _ _ _ _ (eq_refl : get s = Ok (s, s))), Hc, (bind_eq _ _ _ _ _ eq_refl), H2.
  change sizeof_mpconf with 44. rewrite !u32_small by lia. set (s1 := mk_mpst _ _ _ _ _ _). set (es := t_entries t) in *. set (e := conf + (44 + Z.of_nat (length (entries_bytes es)) + Z.of_nat (S (length rest)))). apply mem_has_cons in H6 as [H6 _].
  assert (Hspin : ∀ k (x : mpst D) b, mp_mem x = mp_mem s → mp_entries k (conf + 44 + Z.of_nat (length (entries_bytes es))) e b x = NoFuel).
  { intros k. induction k as [|k IH]; intros x b Hx; cbn [mp_entries]; rewrite (proj2 (Z.ltb_lt (conf + 44 + Z.of_nat (length (entries_bytes es))) e)) by (unfold e; lia); [done|]. rewrite (bind_eq _ _ _ _ _ (eq_refl : get x = Ok (x, x))), Hx, H6. cbv zeta.
    unfold MPPROC, MPIOAPIC, MPBUS, MPIOINTR, MPLINTR. rewrite !(proj2 (Z.eqb_neq type _)) by lia. by apply IH. }
  assert (E : mp_entries fuel (conf + 44) e true s1 = NoFuel).
  { destruct (decide (length es ≤ fuel)%nat) as [Hle|Hgt].
    - replace fuel with (length es + (fuel - length es))%nat by lia. rewrite (mp_entries_run es _ true s1 (conf + 44) e H5 (tk_entries _ (ta_ok _ _ _ Ht))) by (done || (unfold e; lia)). destruct (foldl _ _ _) as [n L]. by apply Hspin.
    - apply (nofuel_mono (length es - fuel)). replace (length es - fuel + fuel)%nat with (length es + 0)%nat by lia. rewrite (mp_entries_run es _ true s1 (conf + 44) e H5 (tk_entries _ (ta_ok _ _ _ Ht))) by (done || (unfold e; lia)). destruct (foldl _ _ _) as [n L]. by apply Hspin. }
  unfold mbind, M_bind. by rewrite E.
Qed.
End theorems.

(** * A machine with two processors *)

Definition pc_table (check : Z) (more : list Z) : mptable :=
  mk_mptable 4 check (replicate 28 32) 0xFEE00000 (replicate 4 0)
    [EProc 0 (replicate 18 1); EProc 1 (replicate 18 1); EOther MPBUS (replicate 7 0); EIoapic 2 (replicate 6 0)] more.
Definition balanced (more : list Z) : mptable := pc_table (- total (table_bytes (pc_table 0 more)) mod 256) more.
Definition pc_pointer : list Z := let l := chars "_MP_" ++ word 0xF1000 ++ [1; 4] in l ++ [- total l mod 256] ++ replicate 5 0.

(** The floating pointer at 0xF0020 and the table at 0xF1000. *)
Definition pc_memory (t : mptable) : memory := λ b,
  if (0x800F0020 <=? b) && (b <? 0x800F0030) then default 0 (pc_pointer !! Z.to_nat (b - 0x800F0020))
  else if (0x800F1000 <=? b) && (b <? 0x800F1000 + table_length t) then default 0 (table_bytes t !! Z.to_nat (b - 0x800F1000)) else 0.
Definition pc_state (t : mptable) : mpst unit := mk_mpst (pc_memory t) 0 (replicate 8 99) 0 0 tt.
#[local] Instance no_ports : PortIO unit := { dev_inb _ d := (0, d); dev_outb _ _ d := d; dev_insl _ _ d := ([], d) }.

Lemma pc_table_at more : more = [] ∨ more = [9; 0] → table_at (pc_memory (balanced more)) 0x800F0020 (balanced more).
Proof.
  intros Hm. split.
  - destruct Hm as [-> | ->]; vm_compute; reflexivity.
  - destruct Hm as [-> | ->]; vm_compute; discriminate.
  - split.
    + by right.
    + done.
    + destruct Hm as [-> | ->]; vm_compute; reflexivity.
    + cbn. lia.
    + repeat constructor.
    + destruct Hm as [-> | ->]; vm_compute; reflexivity.
  - apply same_bytes_has. destruct Hm as [-> | ->]; vm_compute; reflexivity.
  - destruct Hm as [-> | ->]; vm_compute; reflexivity.
Qed.

Lemma mpinit_reads_table_witness :
  mpinit 4 (pc_state (balanced [])) = Ok (tt, mk_mpst (pc_memory (balanced [])) 2 ([0; 1] ++ replicate 6 99) 2 0xFEE00000 tt).
Proof.
  rewrite (mpinit_reads_table (pc_state (balanced [])) 0x800F0020 (balanced []) 4).
  - reflexivity.
  - apply pc_table_at. left. reflexivity.
  - reflexivity.
  - reflexivity.
  - reflexivity.
  - cbn. lia.
Defined.

Lemma unknown_entry_hangs_witness : mpinit 1000 (pc_state (balanced [9; 0])) = NoFuel.
Proof.
  apply (unknown_entry_hangs (pc_state (balanced [9; 0])) 0x800F0020 (balanced [9; 0]) 9 [0] 1000).
  - apply pc_table_at. right. reflexivity.
  - reflexivity.
  - cbn. lia.
  - lia.
Defined.
