(* ===== verification/Asm.v ===== *)
(** The assembly code between the machine and the C code of the kernel: entry and exit of
    traps (vectors.S, trapasm.S), the switch between contexts (swtch.S) and the system-call
    stubs of user programs (usys.S). The instructions they use are given a semantics on the
    registers and the memory of Machine.v; the C function trap is a parameter, of which only
    the calling convention is known. *)
From Stdlib Require Import ZArith Lia Bool.
From stdpp Require Import base tactics list list_numbers.
From S2P Require Import Prelude Machine State Proc Syscall Trap.

(** * The machine *)

Inductive reg := EAX | ECX | EDX | EBX | ESP | EBP | ESI | EDI.
Inductive sreg := DS | ES | FS | GS.

Record gregs := mk_gregs { g_eax : Z; g_ecx : Z; g_edx : Z; g_ebx : Z; g_esp : Z; g_ebp : Z; g_esi : Z; g_edi : Z }.
Record segregs := mk_segregs { g_ds : Z; g_es : Z; g_fs : Z; g_gs : Z }.

(** The registers, and the stack of the task-state segment for entries from user mode. *)
Record x86 := mk_x86 {
  gr : gregs; sr : segregs;
  eip : Z; cs : Z; ss : Z; eflags : Z;
  tss_esp0 : Z; tss_ss0 : Z;
  cmem : memory }.

Definition regs (s : x86) (r : reg) : Z :=
  match r with
  | EAX => g_eax (gr s) | ECX => g_ecx (gr s) | EDX => g_edx (gr s) | EBX => g_ebx (gr s)
  | ESP => g_esp (gr s) | EBP => g_ebp (gr s) | ESI => g_esi (gr s) | EDI => g_edi (gr s)
  end.
Definition sregs (s : x86) (r : sreg) : Z := match r with DS => g_ds (sr s) | ES => g_es (sr s) | FS => g_fs (sr s) | GS => g_gs (sr s) end.

Definition set_gr (g : gregs) (s : x86) : x86 := mk_x86 g (sr s) (eip s) (cs s) (ss s) (eflags s) (tss_esp0 s) (tss_ss0 s) (cmem s).
Definition set_sr (g : segregs) (s : x86) : x86 := mk_x86 (gr s) g (eip s) (cs s) (ss s) (eflags s) (tss_esp0 s) (tss_ss0 s) (cmem s).
Definition set_reg (r : reg) (v : Z) (s : x86) : x86 :=
  let '(mk_gregs a c d b sp bp si di) := gr s in
  set_gr match r with
    | EAX => mk_gregs v c d b sp bp si di | ECX => mk_gregs a v d b sp bp si di | EDX => mk_gregs a c v b sp bp si di | EBX => mk_gregs a c d v sp bp si di
    | ESP => mk_gregs a c d b v bp si di | EBP => mk_gregs a c d b sp v si di | ESI => mk_gregs a c d b sp bp v di | EDI => mk_gregs a c d b sp bp si v
    end s.
Definition set_sreg (r : sreg) (v : Z) (s : x86) : x86 :=
  let '(mk_segregs d e f g) := sr s in
  set_sr match r with DS => mk_segregs v e f g | ES => mk_segregs d v f g | FS => mk_segregs d e v g | GS => mk_segregs d e f v end s.
Definition set_cmem (m : memory) (s : x86) : x86 := mk_x86 (gr s) (sr s) (eip s) (cs s) (ss s) (eflags s) (tss_esp0 s) (tss_ss0 s) m.
Definition set_eip (v : Z) (s : x86) : x86 := mk_x86 (gr s) (sr s) v (cs s) (ss s) (eflags s) (tss_esp0 s) (tss_ss0 s) (cmem s).
Definition set_flow (ip c fl : Z) (s : x86) : x86 := mk_x86 (gr s) (sr s) ip c (ss s) fl (tss_esp0 s) (tss_ss0 s) (cmem s).
Definition set_ss (v : Z) (s : x86) : x86 := mk_x86 (gr s) (sr s) (eip s) (cs s) v (eflags s) (tss_esp0 s) (tss_ss0 s) (cmem s).

Definition push (v : Z) (s : x86) : x86 :=
  let sp := u32 (regs s ESP - 4) in set_cmem (st32 (cmem s) sp v) (set_reg ESP sp s).
Definition top (s : x86) : Z := ld32 (cmem s) (regs s ESP).
Definition drop_words (n : Z) (s : x86) : x86 := set_reg ESP (u32 (regs s ESP + 4 * n)) s.

(** ** Instructions *)

Inductive instr :=
  | PUSHI (v : Z) | PUSHR (r : reg) | PUSHS (r : sreg) | PUSHAL
  | POPR (r : reg) | POPS (r : sreg) | POPAL
  | MOVI (r : reg) (v : Z)              (* movl $v, %r *)
  | MOVW_AX (v : Z)                     (* movw $v, %ax *)
  | MOVS (r : sreg)                     (* movw %ax, %r *)
  | LOAD (r : reg) (d : Z)              (* movl d(%esp), %r *)
  | STORE_ESP (r : reg)                 (* movl %esp, (%r) *)
  | MOVE (r d : reg)                    (* movl %r, %d *)
  | ADD_ESP (n : Z)
  | RET | IRET.

(** iret pops the stack pointer as well if it returns to user mode. *)
Definition iret (s : x86) : x86 :=
  let ip := top s in
  let s := drop_words 1 s in
  let c := top s mod 2 ^ 16 in
  let s := drop_words 1 s in
  let fl := top s in
  let s := drop_words 1 s in
  let user := Z.land (cs s) 3 <? Z.land c 3 in
  let s := set_flow ip c fl s in
  if user then
    let sp := top s in
    let s := drop_words 1 s in
    set_ss (top s mod 2 ^ 16) (set_reg ESP sp s)
  else s.

Definition exec1 (i : instr) (s : x86) : x86 :=
  match i with
  | PUSHI v => push v s
  | PUSHR r => push (regs s r) s
  | PUSHS r => push (sregs s r) s
  | PUSHAL => foldl (λ t r, push (regs s r) t) s [EAX; ECX; EDX; EBX; ESP; EBP; ESI; EDI]
  | POPR r => set_reg r (top s) (drop_words 1 s)
  | POPS r => set_sreg r (top s mod 2 ^ 16) (drop_words 1 s)
  | POPAL =>
      let s := foldl (λ t r, set_reg r (top t) (drop_words 1 t)) s [EDI; ESI; EBP] in
      foldl (λ t r, set_reg r (top t) (drop_words 1 t)) (drop_words 1 s) [EBX; EDX; ECX; EAX]
  | MOVI r v => set_reg r v s
  | MOVW_AX v => set_reg EAX (regs s EAX / 2 ^ 16 * 2 ^ 16 + v) s
  | MOVS r => set_sreg r (regs s EAX mod 2 ^ 16) s
  | LOAD r d => set_reg r (ld32 (cmem s) (u32 (regs s ESP + d))) s
  | STORE_ESP r => set_cmem (st32 (cmem s) (regs s r) (regs s ESP)) s
  | MOVE r d => set_reg d (regs s r) s
  | ADD_ESP n => set_reg ESP (u32 (regs s ESP + n)) s
  | RET => set_eip (top s) (drop_words 1 s)
  | IRET => iret s
  end.
Definition exec_code (l : list instr) (s : x86) : x86 := foldl (λ s i, exec1 i s) s l.

(** An exception or interrupt: the processor switches to the kernel's stack if it was in
    user mode, and pushes where it was. [err] is the error code, for those exceptions that
    have one; [clear] says that the gate turns interrupts off. *)
Definition interrupt (err : option Z) (clear : bool) (s : x86) : x86 :=
  let user := Z.land (cs s) 3 =? 3 in
  let t := if user then push (regs s ESP) (push (ss s) (set_ss (tss_ss0 s) (set_reg ESP (tss_esp0 s) s))) else s in
  let t := push (eip s) (push (cs s) (push (eflags s) t)) in
  let t := set_flow (eip t) (Z.shiftl SEG_KCODE 3) (if clear then clr (eflags t) FL_IF else eflags t) t in
  match err with Some e => push e t | None => t end.

(** * The code *)

(** The exceptions for which the processor pushes an error code. *)
Definition has_err (n : Z) : bool := (n =? 8) || ((10 <=? n) && (n <=? 14)) || (n =? 17).
Definition vector (n : Z) : list instr := (if has_err n then [] else [PUSHI 0]) ++ [PUSHI n].

Definition SEG_KDATA : Z := 2.
(** alltraps up to the call, with the argument of trap on the stack. *)
Definition alltraps : list instr :=
  [PUSHS DS; PUSHS ES; PUSHS FS; PUSHS GS; PUSHAL; MOVW_AX (Z.shiftl SEG_KDATA 3); MOVS DS; MOVS ES; PUSHR ESP].
Definition trapret : list instr := [POPAL; POPS GS; POPS FS; POPS ES; POPS DS; ADD_ESP 8; IRET].

Definition swtch : list instr :=
  [LOAD EAX 4; LOAD EDX 8; PUSHR EBP; PUSHR EBX; PUSHR ESI; PUSHR EDI; STORE_ESP EAX; MOVE EDX ESP; POPR EDI; POPR ESI; POPR EBX; POPR EBP; RET].

(** A C function called with [call]: it gets the memory with the return address pushed and
    returns another one. The registers that the calling convention does not keep hold
    anything afterwards. *)
Record cfun := mk_cfun { cf_mem : Z → memory → memory; cf_eax : Z; cf_ecx : Z; cf_edx : Z }.
Definition call (ra : Z) (f : cfun) (s : x86) : x86 :=
  let s := push ra s in
  let arg := ld32 (cmem s) (u32 (regs s ESP + 4)) in
  let s := set_cmem (cf_mem f arg (cmem s)) s in
  set_reg EDX (cf_edx f) (set_reg ECX (cf_ecx f) (set_reg EAX (cf_eax f) (drop_words 1 s))).

(** The handler of trap [n], from the entry point in the table to iret. *)
Definition handle (n ra : Z) (trap : cfun) (s : x86) : x86 :=
  let s := exec_code (vector n ++ alltraps) s in
  let s := call ra trap s in
  exec_code (ADD_ESP 4 :: trapret) s.

(** A stub of usys.S, with the interrupt in the middle handled by the kernel. *)
Definition stub (number ra : Z) (trap : cfun) (s : x86) : x86 :=
  let s := exec_code [MOVI EAX number] s in
  let s := handle T_SYSCALL ra trap (interrupt None false s) in
  exec_code [RET] s.

(** * The stack *)

(** Words written downwards from [sp]. *)
Fixpoint stack_words (m : memory) (sp : Z) (vs : list Z) : memory :=
  match vs with
  | [] => m
  | v :: vs => stack_words (st32 m (sp - 4) v) (sp - 4) vs
  end.

Lemma stack_words_app m sp vs ws : stack_words m sp (vs ++ ws) = stack_words (stack_words m sp vs) (sp - 4 * Z.of_nat (length vs)) ws.
Proof. revert m sp. induction vs as [|v vs IH]; intros m sp; cbn [app stack_words length]; [by rewrite Z.sub_0_r|]. rewrite IH. f_equal. lia. Qed.

Lemma stack_words_out m sp vs b : b < sp - 4 * Z.of_nat (length vs) ∨ sp ≤ b → ld8 (stack_words m sp vs) b = ld8 m b.
Proof. revert m sp. induction vs as [|v vs IH]; intros m sp Hb; cbn [stack_words length] in *; [done|]. rewrite IH by lia. apply ld8_st32_ne. lia. Qed.

Lemma stack_words_at m sp vs i v : vs !! i = Some v → ld32 (stack_words m sp vs) (sp - 4 * Z.of_nat (S i)) = u32 v.
Proof.
  revert m sp i. induction vs as [|w vs IH]; intros m sp i; [done|]. destruct i as [|i]; cbn [stack_words].
  - intros [= ->]. rewrite <- (ld32_st32_eq m (sp - 4) v). apply ld32_ext. intros j Hj. rewrite stack_words_out by lia. f_equal.
  - intros Hi. rewrite <- (IH (st32 m (sp - 4) w) (sp - 4) i Hi). f_equal. lia.
Qed.

(** [t] is [s] with the words [vs] pushed. *)
Record pushed (s : x86) (vs : list Z) (t : x86) : Prop := {
  pu_esp : regs t ESP = regs s ESP - 4 * Z.of_nat (length vs);
  pu_mem : cmem t = stack_words (cmem s) (regs s ESP) vs;
  pu_regs : ∀ r, r ≠ ESP → regs t r = regs s r;
  pu_sregs : ∀ r, sregs t r = sregs s r;
  pu_flow : eip t = eip s ∧ cs t = cs s ∧ ss t = ss s ∧ eflags t = eflags s;
  pu_tss : tss_esp0 t = tss_esp0 s ∧ tss_ss0 t = tss_ss0 s }.

Lemma pushed_nil s : pushed s [] s.
Proof. split; try done. cbn. lia. Qed.

Lemma pushed_push s vs t v : pushed s vs t → 4 * (Z.of_nat (length vs) + 1) ≤ regs s ESP < 2 ^ 32 → pushed s (vs ++ [v]) (push v t).
Proof.
  intros [E M R S F T] H. assert (Es : u32 (regs t ESP - 4) = regs s ESP - 4 * Z.of_nat (length vs) - 4) by (rewrite E; apply u32_small; lia). unfold push. rewrite Es.
  destruct t as [[a c d b sp bp si di] sg ip c0 ss0 fl e0 s0 m]. split; try done.
  - cbn [set_reg gr set_gr set_cmem regs g_esp]. rewrite length_app. cbn [length]. lia.
  - cbn [set_reg gr set_gr set_cmem cmem] in *. rewrite stack_words_app, <- M. done.
  - intros r Hr. rewrite <- (R r Hr). by destruct r.
Qed.

Lemma pushed_trans s vs t ws u : pushed s vs t → pushed t ws u → pushed s (vs ++ ws) u.
Proof.
  intros [E M R S (F1 & F2 & F3 & F4) [T1 T2]] [E' M' R' S' (F1' & F2' & F3' & F4') [T1' T2']]. split.
  - rewrite E', E, length_app. lia.
  - by rewrite M', E, M, stack_words_app.
  - intros r Hr. by rewrite R', R.
  - intros r. by rewrite S', S.
  - split_and!; congruence.
  - split; congruence.
Qed.

(** * The trap frame *)

Definition ld16 (m : memory) (a : Z) : Z := ld32 m a mod 2 ^ 16.

(** [struct trapframe] (x86.h) at an address. *)
Definition tf_at (m : memory) (a : Z) : trapframe :=
  mk_tf (ld32 m a) (ld32 m (a + 4)) (ld32 m (a + 8)) (ld32 m (a + 16)) (ld32 m (a + 20)) (ld32 m (a + 24)) (ld32 m (a + 28))
    (ld16 m (a + 32)) (ld16 m (a + 36)) (ld16 m (a + 40)) (ld16 m (a + 44)) (ld32 m (a + 48)) (ld32 m (a + 52))
    (ld32 m (a + 56)) (ld16 m (a + 60)) (ld32 m (a + 64)) (ld32 m (a + 68)) (ld16 m (a + 72)).

(** What the trap frame of a program says. *)
Definition frame_of (s : x86) (n err : Z) : trapframe :=
  mk_tf (regs s EDI) (regs s ESI) (regs s EBP) (regs s EBX) (regs s EDX) (regs s ECX) (regs s EAX)
    (sregs s GS) (sregs s FS) (sregs s ES) (sregs s DS) n err (eip s) (cs s) (eflags s) (regs s ESP) (ss s).

(** The registers have their width. *)
Record x86_ok (s : x86) : Prop := {
  xo_regs : ∀ r, 0 ≤ regs s r < 2 ^ 32;
  xo_sregs : ∀ r, 0 ≤ sregs s r < 2 ^ 16;
  xo_flow : 0 ≤ eip s < 2 ^ 32 ∧ 0 ≤ eflags s < 2 ^ 32;
  xo_segs : 0 ≤ cs s < 2 ^ 16 ∧ 0 ≤ ss s < 2 ^ 16 }.

Lemma u32_plus a b : u32 (u32 a + b) = u32 (a + b).
Proof. unfold u32. apply Zplus_mod_idemp_l. Qed.

(** Addresses as a base and one offset. *)
Ltac addr_norm :=
  repeat (progress rewrite ?u32_plus, <- ?Z.add_assoc);
  repeat match goal with |- context [Z.add (Zpos ?p) (Zpos ?q)] => let r := eval vm_compute in (Zpos p + Zpos q) in change (Zpos p + Zpos q) with r end.

(** ** Exit *)

(** The state that trapret leaves, given the frame at the top of the stack. *)
Record resumed (tf : trapframe) (s : x86) : Prop := {
  rs_edi : regs s EDI = tf_edi tf; rs_esi : regs s ESI = tf_esi tf; rs_ebp : regs s EBP = tf_ebp tf; rs_ebx : regs s EBX = tf_ebx tf;
  rs_edx : regs s EDX = tf_edx tf; rs_ecx : regs s ECX = tf_ecx tf; rs_eax : regs s EAX = tf_eax tf;
  rs_gs : sregs s GS = tf_gs tf; rs_fs : sregs s FS = tf_fs tf; rs_es : sregs s ES = tf_es tf; rs_ds : sregs s DS = tf_ds tf;
  rs_eip : eip s = tf_eip tf; rs_cs : cs s = tf_cs tf; rs_eflags : eflags s = tf_eflags tf }.

Lemma trapret_run t a : regs t ESP = a → 0 ≤ a → a + 76 < 2 ^ 32 → Z.land (cs t) 3 = 0 →
  let tf := tf_at (cmem t) a in let s' := exec_code trapret t in
  resumed tf s' ∧ cmem s' = cmem t ∧ (from_user tf = true → regs s' ESP = tf_esp tf ∧ ss s' = tf_ss tf) ∧ (Z.land (tf_cs tf) 3 = 0 → regs s' ESP = a + 68 ∧ ss s' = ss t).
Proof.
  intros Ea Ha Hw Hcs. cbv zeta. destruct t as [[x1 x2 x3 x4 sp x6 x7 x8] [y1 y2 y3 y4] ip c sg fl e0 s0 m]. cbn [regs gr g_esp cmem cs ss] in *. subst sp. unfold from_user, tf_at. cbn [tf_cs].
  set (s' := exec_code trapret _). assert (Hs : ∀ k, 0 ≤ k ≤ 76 → u32 (a + k) = a + k) by (intros k Hk; apply u32_small; lia).
  lazy -[u32 ld32 Z.add Z.sub Z.land Z.modulo Z.pow Z.ltb Z.eqb] in s'. unfold s'. clear s'. rewrite Hcs. addr_norm. rewrite !Hs by lia.
  fold (ld16 m (a + 60)) (ld16 m (a + 44)) (ld16 m (a + 40)) (ld16 m (a + 36)) (ld16 m (a + 32)) (ld16 m (a + 72)). change DPL_USER with 3.
  pose proof (Z.land_ones (ld16 m (a + 60)) 2 ltac:(lia)) as Hl. change (Z.ones 2) with 3 in Hl. rewrite Hl. pose proof (Z.mod_pos_bound (ld16 m (a + 60)) (2 ^ 2) ltac:(lia)) as Hb.
  destruct (Z.ltb_spec 0 (ld16 m (a + 60) mod 2 ^ 2)) as [Hu|Hu]; (split; [split; done|]); (split; [done|]); (split; [intros Eu%Z.eqb_eq|intros Eu]); try lia; done.
Qed.

(** ** Entry *)

(** [t] is in kernel mode with the words [vs] on the stack from [sp] on, and otherwise has
    the registers of [s]. *)
Record entered (s : x86) (sp : Z) (vs : list Z) (t : x86) : Prop := {
  en_esp : regs t ESP = sp - 4 * Z.of_nat (length vs);
  en_mem : cmem t = stack_words (cmem s) sp vs;
  en_regs : ∀ r, r ≠ ESP → regs t r = regs s r;
  en_sregs : ∀ r, sregs t r = sregs s r;
  en_cs : Z.land (cs t) 3 = 0 }.

Lemma entered_pushed s sp vs t ws u : entered s sp vs t → pushed t ws u → entered s sp (vs ++ ws) u.
Proof.
  intros [E M R S C] [E' M' R' S' (_ & F2 & _) _]. split.
  - rewrite E', E, length_app. lia.
  - by rewrite M', E, M, stack_words_app.
  - intros r Hr. by rewrite R', R.
  - intros r. by rewrite S', S.
  - by rewrite F2.
Qed.

Definition from_user_mode (s : x86) : bool := Z.land (cs s) 3 =? 3.

(** Where the processor pushes, and what. *)
Definition hw_stack (s : x86) : Z := if from_user_mode s then tss_esp0 s else regs s ESP.
Definition hw_words (s : x86) (err : option Z) : list Z :=
  (if from_user_mode s then [ss s; regs s ESP] else []) ++ [eflags s; cs s; eip s] ++ option_list err.

Lemma pushed_list s vs : 4 * Z.of_nat (length vs) ≤ regs s ESP < 2 ^ 32 → pushed s vs (foldl (λ t v, push v t) s vs).
Proof.
  induction vs as [|v vs IH] using rev_ind; intros H; [apply pushed_nil|]. rewrite length_app in H. cbn [length] in H. rewrite foldl_app. cbn [foldl]. apply pushed_push; [apply IH; lia|lia].
Qed.

Lemma interrupt_run s err clear : 24 ≤ hw_stack s < 2 ^ 32 → entered s (hw_stack s) (hw_words s err) (interrupt err clear s).
Proof.
  intros H. unfold interrupt, hw_words, hw_stack in *. fold (from_user_mode s).
  set (t0 := if from_user_mode s then set_ss (tss_ss0 s) (set_reg ESP (tss_esp0 s) s) else s). set (ws := (if from_user_mode s then [ss s; regs s ESP] else []) ++ [eflags s; cs s; eip s]).
  assert (E0 : regs t0 ESP = (if from_user_mode s then tss_esp0 s else regs s ESP) ∧ cmem t0 = cmem s ∧ (∀ r, r ≠ ESP → regs t0 r = regs s r) ∧ (∀ r, sregs t0 r = sregs s r)).
  { unfold t0. destruct s as [[a c d b sp bp si di] sg ip c0 ss0 fl e0 s0 m]. destruct (from_user_mode _); split_and!; try done. intros r Hr. by destruct r. }
  destruct E0 as (E1 & E2 & E3 & E4). assert (Hl : (length ws ≤ 5)%nat) by (unfold ws; destruct (from_user_mode s); cbn; lia). pose proof (pushed_list t0 ws ltac:(rewrite E1; lia)) as P0.
  set (t1 := foldl (λ t v, push v t) t0 ws) in *. assert (Et : push (eip s) (push (cs s) (push (eflags s) (if from_user_mode s then push (regs s ESP) (push (ss s) (set_ss (tss_ss0 s) (set_reg ESP (tss_esp0 s) s))) else s))) = t1).
  { unfold t1, ws, t0. by destruct (from_user_mode s). }
  rewrite Et. set (t2 := set_flow _ _ _ t1). assert (P2 : entered s (regs t0 ESP) ws t2).
  { destruct P0 as [A B C F _ _]. split; try done; [by rewrite <- E2|intros r Hr; by rewrite <- E3, <- C|intros r; by rewrite <- E4, <- F]. }
  rewrite app_assoc. fold ws. rewrite <- E1. destruct err as [e|]; cbn [option_list].
  - eapply entered_pushed; [exact P2|]. apply (pushed_push t2 [] t2 e); [apply pushed_nil|]. destruct P2 as [A _ _ _ _]. rewrite A. cbn [length]. lia.
  - by rewrite app_nil_r.
Qed.

(** What vectors.S and alltraps push. *)
Definition sw_words (n : Z) (t : x86) (sp : Z) : list Z :=
  (if has_err n then [] else [0]) ++
  [n; sregs t DS; sregs t ES; sregs t FS; sregs t GS; regs t EAX; regs t ECX; regs t EDX; regs t EBX; sp; regs t EBP; regs t ESI; regs t EDI].

Lemma sw_length n t sp : (length (sw_words n t sp) = if has_err n then 13 else 14)%nat.
Proof. unfold sw_words. by destruct (has_err n). Qed.

Lemma push_sregs v s r : sregs (push v s) r = sregs s r.
Proof. by destruct s as [[a c d b sp bp si di] sg ip c0 ss0 fl e0 s0 m], r. Qed.

(** The code up to the set-up of the data segments pushes these words. *)
Lemma save_regs_run n t : 56 ≤ regs t ESP < 2 ^ 32 →
  pushed t (sw_words n t (regs t ESP - (if has_err n then 20 else 24))) (exec_code (vector n ++ [PUSHS DS; PUSHS ES; PUSHS FS; PUSHS GS; PUSHAL]) t).
Proof.
  intros H. set (ws := (if has_err n then [] else [0]) ++ [n; sregs t DS; sregs t ES; sregs t FS; sregs t GS]). assert (Hl : (length ws = if has_err n then 5 else 6)%nat) by (unfold ws; by destruct (has_err n)).
  pose proof (pushed_list t ws ltac:(rewrite Hl; destruct (has_err n); lia)) as P1. set (u := foldl (λ t v, push v t) t ws) in *.
  assert (Eu : exec_code (vector n ++ [PUSHS DS; PUSHS ES; PUSHS FS; PUSHS GS; PUSHAL]) t = foldl (λ x r, push (regs u r) x) u [EAX; ECX; EDX; EBX; ESP; EBP; ESI; EDI]).
  { unfold u, ws, exec_code, vector. destruct (has_err n); cbn [app foldl exec1]; rewrite !push_sregs; reflexivity. }
  rewrite Eu. set (vs := regs u <$> [EAX; ECX; EDX; EBX; ESP; EBP; ESI; EDI]). pose proof (pushed_list u vs) as P2. pose proof (pu_esp _ _ _ P1) as Ee. rewrite Hl in Ee.
  assert (Ew : sw_words n t (regs t ESP - (if has_err n then 20 else 24)) = ws ++ vs).
  { unfold sw_words, ws, vs. cbn [fmap list_fmap]. rewrite Ee, !(pu_regs _ _ _ P1) by done. destruct (has_err n); reflexivity. }
  rewrite Ew. eapply pushed_trans; [exact P1|]. apply P2. rewrite Ee. change (length vs) with 8%nat. destruct (has_err n); lia.
Qed.

(** Up to the call of trap: its argument is the address of the last word. *)
Lemma entry_run s sp vs t n : entered s sp vs t → 60 + 4 * Z.of_nat (length vs) ≤ sp < 2 ^ 32 →
  let ws := sw_words n s (regs t ESP - (if has_err n then 20 else 24)) in let a := sp - 4 * Z.of_nat (length (vs ++ ws)) in
  let u := exec_code (vector n ++ alltraps) t in
  regs u ESP = a - 4 ∧ cmem u = stack_words (cmem s) sp (vs ++ ws ++ [a]) ∧ Z.land (cs u) 3 = 0.
Proof.
  intros N H. cbv zeta. pose proof (en_esp _ _ _ _ N) as Ee. pose proof (save_regs_run n t ltac:(rewrite Ee; lia)) as P1.
  assert (Ew : sw_words n t (regs t ESP - (if has_err n then 20 else 24)) = sw_words n s (regs t ESP - (if has_err n then 20 else 24))).
  { generalize (regs t ESP - (if has_err n then 20 else 24)). intros z. unfold sw_words. rewrite !(en_regs _ _ _ _ N), !(en_sregs _ _ _ _ N) by done. done. }
  rewrite Ew in P1. set (ws := sw_words n s _) in *. pose proof (entered_pushed _ _ _ _ _ _ N P1) as N1. set (u := exec_code _ t) in N1.
  assert (Eu : exec_code (vector n ++ alltraps) t = exec_code [MOVW_AX (Z.shiftl SEG_KDATA 3); MOVS DS; MOVS ES; PUSHR ESP] u).
  { unfold u, exec_code. rewrite <- foldl_app, <- app_assoc. reflexivity. }
  rewrite Eu. pose proof (sw_length n s (regs t ESP - (if has_err n then 20 else 24))) as Hl. fold ws in Hl. destruct N1 as [A B _ _ C]. rewrite app_assoc, stack_words_app, <- B, <- A.
  assert (Hr : u32 (regs u ESP - 4) = regs u ESP - 4) by (apply u32_small; rewrite A, length_app, Hl; destruct (has_err n); lia). clear -Hr C.
  destruct u as [[a c d b sp bp si di] [sd se sf sgs] ip c0 ss0 fl e0 s0 m]. cbn [regs gr g_esp cs cmem] in *. unfold exec_code. cbn [foldl exec1 regs gr g_esp]. unfold push.
  cbn [set_reg set_sreg set_gr set_sr set_cmem gr sr regs g_esp g_eax cmem cs eip ss eflags tss_esp0 tss_ss0]. rewrite Hr. done.
Qed.

Lemma exec_cons i l s : exec_code (i :: l) s = exec_code l (exec1 i s).
Proof. done. Qed.

(** ** A trap from beginning to end *)

(** The words that are on the stack when trap runs, and the address of its frame. *)
Definition frame_size (s : x86) : Z := if from_user_mode s then 76 else 68.
Definition trap_words (s : x86) (n ra : Z) (err : option Z) : list Z :=
  let a := hw_stack s - frame_size s in
  hw_words s err ++ sw_words n s (a + 32) ++ [a; ra].
Definition trap_memory (s : x86) (n ra : Z) (err : option Z) : memory := stack_words (cmem s) (hw_stack s) (trap_words s n ra err).

Section handler.
  Context (s : x86) (n ra : Z) (err : option Z).
  Context (Herr : has_err n = bool_decide (is_Some err)) (Hstack : 84 ≤ hw_stack s < 2 ^ 32).
Let a : Z := hw_stack s - frame_size s.

Lemma words_length : length (hw_words s err ++ sw_words n s (a + 32)) = if from_user_mode s then 19%nat else 17%nat.
Proof using Herr.
  rewrite length_app, sw_length, Herr. unfold hw_words. destruct (from_user_mode s), err; done.
Qed.

(** The handler is the call of trap on this memory, followed by trapret on the frame. *)
Lemma handle_run clear (trap : cfun) : ∃ t, handle n ra trap (interrupt err clear s) = exec_code trapret t ∧
  regs t ESP = a ∧ cmem t = cf_mem trap a (trap_memory s n ra err) ∧ Z.land (cs t) 3 = 0.
Proof using Herr Hstack.
  pose proof (interrupt_run s err clear ltac:(lia)) as N. set (t0 := interrupt err clear s) in *. pose proof words_length as Hl. rewrite length_app in Hl.
  assert (Hh : (length (hw_words s err) ≤ 6)%nat) by (unfold hw_words; destruct (from_user_mode s), err; cbn; lia). pose proof (en_esp _ _ _ _ N) as E0.
  assert (Esp : regs t0 ESP - (if has_err n then 20 else 24) = a + 32).
  { rewrite E0. unfold a, frame_size, hw_words. rewrite Herr. destruct (from_user_mode s), err; cbn; lia. }
  destruct (entry_run s _ _ t0 n N ltac:(lia)) as (E1 & E2 & E3). rewrite Esp, length_app in E1, E2.
  replace (hw_stack s - 4 * Z.of_nat (length (hw_words s err) + length (sw_words n s (a + 32)))) with a in E1, E2 by (rewrite Hl; unfold a, frame_size; destruct (from_user_mode s); lia).
  unfold handle. set (u := exec_code (vector n ++ alltraps) t0) in *. assert (Hra : 8 ≤ a < 2 ^ 32) by (unfold a, frame_size; destruct (from_user_mode s); lia).
  pose proof (pushed_push u [] u ra (pushed_nil u) ltac:(rewrite E1; cbn [length]; lia)) as [P1 P2 _ _ (_ & Pc & _) _]. cbn [app length] in P1, P2.
  rewrite exec_cons. exists (exec1 (ADD_ESP 4) (call ra trap u)). split; [exact eq_refl|]. unfold call. cbv zeta. set (v := push ra u) in *.
  assert (Em : cmem v = trap_memory s n ra err).
  { rewrite P2, E2, E1. unfold trap_memory, trap_words. fold a. change [a; ra] with ([a] ++ [ra]). rewrite !app_assoc, (stack_words_app _ _ _ [ra]). f_equal. rewrite length_app, length_app, Hl. unfold a, frame_size. destruct (from_user_mode s); cbn [length]; lia. }
  assert (Ev : regs v ESP = a - 8) by (rewrite P1, E1; cbn; lia).
  assert (Earg : ld32 (cmem v) (u32 (regs v ESP + 4)) = a).
  { rewrite Ev, u32_small by lia. rewrite <- (u32_small a) at 2 by lia. rewrite Em. unfold trap_memory, trap_words. fold a. rewrite app_assoc.
    rewrite <- (stack_words_at (cmem s) (hw_stack s) ((hw_words s err ++ sw_words n s (a + 32)) ++ [a; ra]) (if from_user_mode s then 19 else 17) a).
    - f_equal. unfold a, frame_size. destruct (from_user_mode s); lia.
    - rewrite lookup_app_r by (rewrite words_length; destruct (from_user_mode s); lia). rewrite words_length. by destruct (from_user_mode s). }
  rewrite Earg, Em. rewrite <- Pc in E3. clear -Ev E3 Hra. destruct v as [[x1 x2 x3 x4 sp x6 x7 x8] sg ip c sg2 fl e0 s0 m].
  cbn [regs gr g_esp cs] in *. subst sp. unfold drop_words. cbn [exec1 set_reg set_gr set_cmem gr regs g_esp sr eip cs ss eflags tss_esp0 tss_ss0 cmem]. split; [|done].
  rewrite (u32_small (a - 8 + 4 * 1)), u32_small by lia. lia.
Qed.
End handler.

(** The fields that a trap from kernel mode does not have are left out. *)
Definition visible (user : bool) (tf : trapframe) : trapframe :=
  if user then tf else
  mk_tf (tf_edi tf) (tf_esi tf) (tf_ebp tf) (tf_ebx tf) (tf_edx tf) (tf_ecx tf) (tf_eax tf) (tf_gs tf) (tf_fs tf) (tf_es tf) (tf_ds tf)
    (tf_trapno tf) (tf_err tf) (tf_eip tf) (tf_cs tf) (tf_eflags tf) 0 0.

Lemma ld16_at m b v : ld32 m b = u32 v → 0 ≤ v < 2 ^ 16 → ld16 m b = v.
Proof. intros E Hv. unfold ld16. rewrite E, u32_small by lia. apply Z.mod_small. lia. Qed.

(** The words from the flags on are the same for both modes. *)
Definition frame_words (s : x86) (n err a ra : Z) : list Z :=
  [eflags s; cs s; eip s; err; n; sregs s DS; sregs s ES; sregs s FS; sregs s GS; regs s EAX; regs s ECX; regs s EDX; regs s EBX; a + 32; regs s EBP; regs s ESI; regs s EDI; a; ra].

Lemma trap_words_eq s n ra err : has_err n = bool_decide (is_Some err) →
  trap_words s n ra err = (if from_user_mode s then [ss s; regs s ESP] else []) ++ frame_words s n (default 0 err) (hw_stack s - frame_size s) ra.
Proof. intros H. unfold trap_words, hw_words, sw_words, frame_words. rewrite H. by destruct err, (from_user_mode s). Qed.

Lemma frame_word s n ra err i v : has_err n = bool_decide (is_Some err) → frame_words s n (default 0 err) (hw_stack s - frame_size s) ra !! i = Some v →
  ld32 (trap_memory s n ra err) (hw_stack s - frame_size s + 4 * (16 - Z.of_nat i)) = u32 v.
Proof.
  intros Herr Hi. unfold trap_memory. rewrite <- (stack_words_at (cmem s) (hw_stack s) (trap_words s n ra err) (if from_user_mode s then 2 + i else i)).
  - f_equal. unfold frame_size. destruct (from_user_mode s); lia.
  - rewrite trap_words_eq by done. by destruct (from_user_mode s).
Qed.

Lemma frame_saved s n ra err : has_err n = bool_decide (is_Some err) → x86_ok s → 0 ≤ n < 256 → 0 ≤ default 0 err < 2 ^ 32 →
  visible (from_user_mode s) (tf_at (trap_memory s n ra err) (hw_stack s - frame_size s)) = visible (from_user_mode s) (frame_of s n (default 0 err)).
Proof.
  intros Herr [R W [F1 F2] [G1 G2]] Hn He. pose proof (λ i v, frame_word s n ra err i v Herr) as H. set (a := hw_stack s - frame_size s) in *. set (m := trap_memory s n ra err) in *.
  assert (Hw : ∀ i v k, frame_words s n (default 0 err) a ra !! i = Some v → k = 4 * (16 - Z.of_nat i) → ld32 m (a + k) = u32 v) by (intros i v k Hi ->; by apply H).
  assert (H0 : ld32 m a = u32 (regs s EDI)) by (rewrite <- (Hw 16%nat (regs s EDI) 0 eq_refl eq_refl); f_equal; lia).
  assert (Ht : from_user_mode s = true → ld32 m (a + 68) = u32 (regs s ESP) ∧ ld32 m (a + 72) = u32 (ss s)).
  { intros Hu. unfold m, trap_memory. rewrite trap_words_eq, Hu by done. unfold a, frame_size. rewrite Hu. split.
    - rewrite <- (stack_words_at (cmem s) (hw_stack s) _ 1 _ (eq_refl : ([ss s; regs s ESP] ++ frame_words s n (default 0 err) (hw_stack s - 76) ra) !! 1%nat = Some (regs s ESP))). f_equal. lia.
    - rewrite <- (stack_words_at (cmem s) (hw_stack s) _ 0 _ (eq_refl : ([ss s; regs s ESP] ++ frame_words s n (default 0 err) (hw_stack s - 76) ra) !! 0%nat = Some (ss s))). f_equal. lia. }
  assert (Ef : tf_at m a = (let t := frame_of s n (default 0 err) in mk_tf (tf_edi t) (tf_esi t) (tf_ebp t) (tf_ebx t) (tf_edx t) (tf_ecx t) (tf_eax t) (tf_gs t) (tf_fs t) (tf_es t) (tf_ds t)
    (tf_trapno t) (tf_err t) (tf_eip t) (tf_cs t) (tf_eflags t) (ld32 m (a + 68)) (ld16 m (a + 72)))).
  { unfold tf_at, frame_of. cbn [tf_edi tf_esi tf_ebp tf_ebx tf_edx tf_ecx tf_eax tf_gs tf_fs tf_es tf_ds tf_trapno tf_err tf_eip tf_cs tf_eflags].
    rewrite H0, (Hw 15%nat _ 4 eq_refl eq_refl), (Hw 14%nat _ 8 eq_refl eq_refl), (Hw 12%nat _ 16 eq_refl eq_refl), (Hw 11%nat _ 20 eq_refl eq_refl), (Hw 10%nat _ 24 eq_refl eq_refl), (Hw 9%nat _ 28 eq_refl eq_refl),
      (ld16_at _ _ _ (Hw 8%nat _ 32 eq_refl eq_refl) (W GS)), (ld16_at _ _ _ (Hw 7%nat _ 36 eq_refl eq_refl) (W FS)), (ld16_at _ _ _ (Hw 6%nat _ 40 eq_refl eq_refl) (W ES)), (ld16_at _ _ _ (Hw 5%nat _ 44 eq_refl eq_refl) (W DS)),
      (Hw 4%nat _ 48 eq_refl eq_refl), (Hw 3%nat _ 52 eq_refl eq_refl), (Hw 2%nat _ 56 eq_refl eq_refl), (ld16_at _ _ _ (Hw 1%nat _ 60 eq_refl eq_refl) G1), (Hw 0%nat _ 64 eq_refl eq_refl).
    rewrite !u32_small by (done || lia). done. }
  rewrite Ef. destruct (from_user_mode s) eqn:Hu; [|done]. destruct (Ht eq_refl) as [T1 T2]. unfold visible. rewrite T1, (ld16_at _ _ _ T2 G2), (u32_small (regs s ESP)) by done. done.
Qed.

(** The program goes on in the same state. *)
Record same_program (s s' : x86) : Prop := {
  sp_regs : ∀ r, regs s' r = regs s r;
  sp_sregs : ∀ r, sregs s' r = sregs s r;
  sp_flow : eip s' = eip s ∧ cs s' = cs s ∧ eflags s' = eflags s }.

Lemma resumed_same s n err s' tf u : visible u tf = visible u (frame_of s n err) → resumed tf s' → regs s' ESP = regs s ESP → same_program s s'.
Proof.
  intros E R Hsp. assert (Ef : visible false tf = visible false (frame_of s n err)) by (destruct u; [unfold visible in E at 1 2; by rewrite E|done]). unfold visible, frame_of in Ef. cbn [tf_edi tf_esi tf_ebp tf_ebx tf_edx tf_ecx tf_eax tf_gs tf_fs tf_es tf_ds tf_trapno tf_err tf_eip tf_cs tf_eflags] in Ef. injection Ef as ? ? ? ? ? ? ? ? ? ? ? ? ? ? ? ?.
  destruct R. split; [intros []; cbn in *; congruence|intros []; cbn in *; congruence|split_and!; congruence].
Qed.

(** C14. The assembly code of traps builds the frame that trap expects and undoes it. Take
    any of the 256 traps, from user mode, when the processor switches to the kernel stack,
    or from kernel mode, with the error code exactly for the exceptions that have one. Then
    trap is called with the address of a frame right below the stack's top that shows the
    registers of the interrupted program, the number of the trap and the error code (0 if
    there is none); the memory is as before but for the frame and the two words of the
    call. Whatever trap makes of the memory, the code then returns with the registers
    that the frame holds; and to the interrupted program in its old state if trap leaves
    the frame as it is. *)
Theorem trap_frame_roundtrip (s : x86) (n ra : Z) (err : option Z) (clear : bool) (trap : cfun)
  (Hs : x86_ok s) (Hmode : Z.land (cs s) 3 = 3 ∨ Z.land (cs s) 3 = 0) (Hn : 0 ≤ n < 256)
  (Herr : has_err n = bool_decide (is_Some err)) (Herr32 : 0 ≤ default 0 err < 2 ^ 32) (Hstack : 84 ≤ hw_stack s < 2 ^ 32 - 8) :
  let user := from_user_mode s in let a := hw_stack s - frame_size s in let m1 := trap_memory s n ra err in
  let m2 := cf_mem trap a m1 in let tf := tf_at m2 a in let s' := handle n ra trap (interrupt err clear s) in
  visible user (tf_at m1 a) = visible user (frame_of s n (default 0 err)) ∧
  (∀ b, b < a - 8 ∨ hw_stack s ≤ b → ld8 m1 b = ld8 (cmem s) b) ∧
  resumed tf s' ∧ cmem s' = m2 ∧ (from_user tf = true → regs s' ESP = tf_esp tf ∧ ss s' = tf_ss tf) ∧
  (visible user tf = visible user (frame_of s n (default 0 err)) → same_program s s').
Proof.
  cbv zeta. split; [by apply frame_saved|]. split.
  { intros b Hb. apply stack_words_out. rewrite trap_words_eq, length_app by done. unfold frame_size in Hb. change (length (frame_words _ _ _ _ _)) with 19%nat. destruct (from_user_mode s); cbn [length]; lia. }
  destruct (handle_run s n ra err Herr ltac:(lia) clear trap) as (t & E & E1 & E2 & E3). rewrite E. set (a := hw_stack s - frame_size s) in *.
  assert (Ha : 0 ≤ a ∧ a + 76 < 2 ^ 32) by (unfold a, frame_size; destruct (from_user_mode s); lia). destruct (trapret_run t a E1 (proj1 Ha) (proj2 Ha) E3) as (R & M & U & K). rewrite E2 in *.
  split; [done|]. split; [done|]. split; [done|]. intros Hv. eapply resumed_same; [exact Hv|exact R|]. set (tf := tf_at (cf_mem trap a (trap_memory s n ra err)) a) in *.
  assert (Hc : tf_cs tf = cs s) by (unfold visible, frame_of in Hv; destruct (from_user_mode s); [by rewrite Hv|by injection Hv]). unfold from_user in U. rewrite Hc in U, K. unfold from_user_mode in *. destruct Hmode as [Hm|Hm]; rewrite Hm in *; cbn [Z.eqb Pos.eqb] in *.
  - destruct (U eq_refl) as [-> _]. unfold visible in Hv. by rewrite Hv.
  - destruct (K eq_refl) as [-> _]. unfold a, hw_stack, frame_size, from_user_mode. rewrite Hm. cbn. lia.
Qed.

(** * Switching contexts *)

(** [struct context] at an address. *)
Definition context_at (m : memory) (a : Z) : context := mk_context (ld32 m a) (ld32 m (a + 4)) (ld32 m (a + 8)) (ld32 m (a + 12)) (ld32 m (a + 16)).

(** The registers that swtch saves and where the caller goes on. *)
Definition context_of (s : x86) : context := mk_context (regs s EDI) (regs s ESI) (regs s EBX) (regs s EBP) (top s).

(** The arguments of swtch(old, new), and the memory after the old context was saved. *)
Definition sw_old (s : x86) : Z := ld32 (cmem s) (regs s ESP + 4).
Definition sw_new (s : x86) : Z := ld32 (cmem s) (regs s ESP + 8).
Definition sw_memory (s : x86) : memory :=
  st32 (stack_words (cmem s) (regs s ESP) [regs s EBP; regs s EBX; regs s ESI; regs s EDI]) (sw_old s) (regs s ESP - 16).

Lemma swtch_run s : 16 ≤ regs s ESP → regs s ESP + 12 < 2 ^ 32 → 0 ≤ sw_new s → sw_new s + 20 < 2 ^ 32 →
  let s' := exec_code swtch s in let c := context_at (sw_memory s) (sw_new s) in
  cmem s' = sw_memory s ∧ regs s' ESP = sw_new s + 20 ∧
  regs s' EDI = cx_edi c ∧ regs s' ESI = cx_esi c ∧ regs s' EBX = cx_ebx c ∧ regs s' EBP = cx_ebp c ∧ eip s' = cx_eip c.
Proof.
  intros H1 H2 H3 H4. cbv zeta. unfold sw_memory, sw_old, sw_new, context_at in *. destruct s as [[x1 x2 x3 x4 sp x6 x7 x8] sg ip c sg2 fl e0 s0 m]. cbn [regs gr g_esp g_ebp g_ebx g_esi g_edi cmem cx_edi cx_esi cx_ebx cx_ebp cx_eip stack_words] in *.
  set (w := ld32 m (sp + 8)) in *. set (s' := exec_code swtch _). assert (Hs : ∀ k, 0 ≤ k ≤ 20 → u32 (w + k) = w + k) by (intros k Hk; apply u32_small; lia).
  lazy -[u32 ld32 st32 Z.add Z.sub] in s'. unfold s'. clear s'. cbn [cmem regs gr g_esp g_edi g_esi g_ebx g_ebp eip].
  rewrite (u32_small (sp + 4)), (u32_small (sp + 8)), (u32_small (sp - 4)), (u32_small (sp - 4 - 4)), (u32_small (sp - 4 - 4 - 4)), (u32_small (sp - 4 - 4 - 4 - 4)) by lia. fold w.
  addr_norm. rewrite !Hs by lia. replace (sp - 4 - 4 - 4 - 4) with (sp - 16) by lia. done.
Qed.

(** The words from [a] to [a + n] do not meet those from [b] to [b + k]. *)
Definition apart (a n b k : Z) : Prop := a + n ≤ b ∨ b + k ≤ a.

(** What a call of swtch needs: the stack and both contexts are in the address space, and
    the place for the pointer to the old context is not in its saved registers. *)
Record can_swtch (s : x86) : Prop := {
  cw_regs : x86_ok s;
  cw_stack : 16 ≤ regs s ESP ∧ regs s ESP + 12 < 2 ^ 32;
  cw_new : sw_new s + 20 < 2 ^ 32;
  cw_old : apart (sw_old s) 4 (regs s ESP - 16) 20 }.

Lemma context_saved s : can_swtch s → ld32 (sw_memory s) (sw_old s) = regs s ESP - 16 ∧ context_at (sw_memory s) (regs s ESP - 16) = context_of s.
Proof.
  intros [[R _ _ _] H1 H2 H3]. unfold apart in H3. set (sp := regs s ESP) in *. unfold sw_memory. fold sp. set (vs := [regs s EBP; regs s EBX; regs s ESI; regs s EDI]). split; [rewrite ld32_st32_eq; apply u32_small; lia|].
  assert (Hw : ∀ i v k, vs !! i = Some v → k = 4 * (3 - Z.of_nat i) → ld32 (st32 (stack_words (cmem s) sp vs) (sw_old s) (sp - 16)) (sp - 16 + k) = u32 v).
  { intros i v k Hi ->. assert (i < 4)%nat by by apply lookup_lt_Some in Hi. rewrite ld32_st32_ne by lia. rewrite <- (stack_words_at (cmem s) sp vs i v Hi). f_equal. lia. }
  assert (H0 : ld32 (st32 (stack_words (cmem s) sp vs) (sw_old s) (sp - 16)) (sp - 16) = u32 (regs s EDI)) by (rewrite <- (Hw 3%nat _ 0 eq_refl eq_refl); f_equal; lia).
  unfold context_at, context_of. rewrite H0, (Hw 2%nat _ 4 eq_refl eq_refl), (Hw 1%nat _ 8 eq_refl eq_refl), (Hw 0%nat _ 12 eq_refl eq_refl), !u32_small by apply R. f_equal.
  replace (sp - 16 + 16) with sp by lia. rewrite ld32_st32_ne by lia. unfold top. fold sp. apply ld32_ext. intros i Hi. apply stack_words_out. lia.
Qed.

(** The memory that a call of swtch does not touch. *)
Lemma swtch_keeps s a : apart a 20 (regs s ESP - 16) 16 → apart a 20 (sw_old s) 4 → context_at (sw_memory s) a = context_at (cmem s) a.
Proof.
  intros H1 H2. unfold apart in *. assert (Hk : ∀ k, 0 ≤ k ≤ 16 → ld32 (sw_memory s) (a + k) = ld32 (cmem s) (a + k)).
  { intros k Hk. unfold sw_memory. rewrite ld32_st32_ne by lia. apply ld32_ext. intros i Hi. apply stack_words_out. cbn [length]. lia. }
  pose proof (Hk 0 ltac:(lia)) as H0. rewrite Z.add_0_r in H0. unfold context_at. by rewrite H0, !Hk by lia.
Qed.

(** C15. swtch suspends a kernel thread and resumes another. When thread [s] calls swtch(old,
    new), the pointer to its context is stored in *old, the context holds its registers
    and return address, and the processor goes on with the registers and the return address
    of the context [new] on that thread's stack. When later another thread [t] calls swtch
    with that context, which has not been changed meanwhile, the first call returns to its
    caller with the callee-saved registers and the stack pointer of an ordinary return. *)
Theorem swtch_roundtrip (s t : x86) (Hs : can_swtch s) (Ht : can_swtch t)
  (Hback : sw_new t = ld32 (sw_memory s) (sw_old s)) (Hkept : context_at (cmem t) (sw_new t) = context_at (sw_memory s) (sw_new t))
  (Hstack : apart (sw_new t) 20 (regs t ESP - 16) 16) (Hold : apart (sw_new t) 20 (sw_old t) 4) :
  let s1 := exec_code swtch s in let t1 := exec_code swtch t in let c := context_at (cmem s1) (sw_new s) in
  (cmem s1 = sw_memory s ∧ context_at (cmem s1) (ld32 (cmem s1) (sw_old s)) = context_of s) ∧
  (regs s1 ESP = sw_new s + 20 ∧ regs s1 EDI = cx_edi c ∧ regs s1 ESI = cx_esi c ∧ regs s1 EBX = cx_ebx c ∧ regs s1 EBP = cx_ebp c ∧ eip s1 = cx_eip c) ∧
  (regs t1 ESP = regs s ESP + 4 ∧ regs t1 EDI = regs s EDI ∧ regs t1 ESI = regs s ESI ∧ regs t1 EBX = regs s EBX ∧ regs t1 EBP = regs s EBP ∧ eip t1 = top s).
Proof.
  cbv zeta. destruct (context_saved s Hs) as [P C]. destruct Hs as [_ [S1 S2] S3 _], Ht as [_ [T1 T2] T3 _]. pose proof (ld32_range (cmem s) (regs s ESP + 8)) as B1. pose proof (ld32_range (cmem t) (regs t ESP + 8)) as B2.
  destruct (swtch_run s S1 S2 (proj1 B1) S3) as (M & A1 & A2 & A3 & A4 & A5 & A6). destruct (swtch_run t T1 T2 (proj1 B2) T3) as (N & D1 & D2 & D3 & D4 & D5 & D6).
  set (s1 := exec_code swtch s) in *. set (t1 := exec_code swtch t) in *. clearbody s1 t1. rewrite M, P, C.
  assert (Ec : context_at (sw_memory t) (sw_new t) = context_of s) by (rewrite (swtch_keeps t (sw_new t) Hstack Hold), Hkept, Hback, P; exact C). rewrite Ec in D2, D3, D4, D5, D6. rewrite Hback, P in D1.
  split; [by split|]. split; [split_and!; assumption|]. split; [rewrite D1; lia|]. split_and!; assumption.
Qed.

(** * System calls *)

(** The calls that have a stub in usys.S, in its order. *)
Definition usys : list Z :=
  [SYS_fork; SYS_exit; SYS_wait; SYS_pipe; SYS_read; SYS_write; SYS_close; SYS_kill; SYS_exec; SYS_open; SYS_mknod; SYS_sbrk; SYS_sleep;
   SYS_unlink; SYS_fstat; SYS_link; SYS_mkdir; SYS_chdir; SYS_dup; SYS_getpid; SYS_update_protected_pages; SYS_turn_flag; SYS_is_flag_on].

(** The first instructions of the first process (initcode.S), up to the interrupt. *)
Definition initcode_start (argv init : Z) : list instr := [PUSHI argv; PUSHI init; PUSHI 0; MOVI EAX SYS_exec].

(** The first process makes the call exec(init, argv): its number is in eax, and above the
    place of a return address are the two arguments. *)
Lemma initcode_calls_exec (s : x86) argv init : 12 ≤ regs s ESP < 2 ^ 32 →
  let t := exec_code (initcode_start argv init) s in
  regs t EAX = SYS_exec ∧ ld32 (cmem t) (regs t ESP + 4) = u32 init ∧ ld32 (cmem t) (regs t ESP + 8) = u32 argv.
Proof.
  intros H. pose proof (pushed_list s [argv; init; 0] ltac:(cbn [length]; lia)) as [E M _ _ _ _]. cbv zeta. set (u := foldl (λ t v, push v t) s [argv; init; 0]) in *.
  change (exec_code (initcode_start argv init) s) with (set_reg EAX SYS_exec u). assert (Eu : regs (set_reg EAX SYS_exec u) EAX = SYS_exec ∧ regs (set_reg EAX SYS_exec u) ESP = regs u ESP ∧ cmem (set_reg EAX SYS_exec u) = cmem u).
  { clearbody u. by destruct u as [[x1 x2 x3 x4 x5 x6 x7 x8] sg ip c sg2 fl e0 s0 m]. }
  destruct Eu as (-> & -> & ->). rewrite E, M. split; [done|]. split.
  - rewrite <- (stack_words_at (cmem s) (regs s ESP) [argv; init; 0] 1 init eq_refl). f_equal. cbn. lia.
  - rewrite <- (stack_words_at (cmem s) (regs s ESP) [argv; init; 0] 0 argv eq_refl). f_equal. cbn. lia.
Qed.

(** [trap] handles a system call of program [s]: it stores the result in the frame and does
    not change the return address of the stub on the program's stack. *)
Record answers (s : x86) (ra : Z) (trap : cfun) (number result : Z) : Prop := {
  an_frame : let a := tss_esp0 s - 76 in let m := trap_memory (set_reg EAX number s) T_SYSCALL ra None in
    tf_at (cf_mem trap a m) a = set_tf_eax result (tf_at m a);
  an_stack : let a := tss_esp0 s - 76 in let m := trap_memory (set_reg EAX number s) T_SYSCALL ra None in
    ld32 (cf_mem trap a m) (regs s ESP) = ld32 m (regs s ESP) }.

Lemma ret_regs v ip sp : u32 (regs v ESP + 4 * 1) = sp → let w := set_eip ip (drop_words 1 v) in
  (∀ r, r ≠ ESP → regs w r = regs v r) ∧ regs w ESP = sp ∧ eip w = ip ∧ (∀ r, sregs w r = sregs v r) ∧ cs w = cs v ∧ eflags w = eflags v.
Proof. intros H. unfold drop_words. rewrite H. destruct v as [[x1 x2 x3 x4 x5 x6 x7 x8] sg ip0 c sg2 fl e0 s0 m]. split_and!; try done. by intros []. Qed.

(** C16. A stub of usys.S is a call of the kernel. The kernel sees trap 64 with the number of
    the call in eax, and the arguments of the C caller in the words above the program's
    stack pointer in the frame, where argint looks for them. When the kernel has stored a
    result in the frame, the stub returns it in eax to its caller, with every other
    register and the flags unchanged. *)
Theorem syscall_stub_returns (s : x86) (number ra result : Z) (trap : cfun)
  (Hs : x86_ok s) (Huser : Z.land (cs s) 3 = 3) (Hnum : 0 ≤ number < 2 ^ 32) (Hk : 84 ≤ tss_esp0 s < 2 ^ 32 - 8) (Hsp : regs s ESP + 4 < 2 ^ 32)
  (Hapart : apart (regs s ESP) 4 (tss_esp0 s - 84) 84) (Htrap : answers s ra trap number result) :
  let m := trap_memory (set_reg EAX number s) T_SYSCALL ra None in let tf := tf_at m (tss_esp0 s - 76) in let s' := stub number ra trap s in
  (tf_trapno tf = T_SYSCALL ∧ tf_eax tf = number ∧ tf_esp tf = regs s ESP ∧
   ∀ k, apart (tf_esp tf + 4 + 4 * k) 4 (tss_esp0 s - 84) 84 → ld32 m (tf_esp tf + 4 + 4 * k) = ld32 (cmem s) (regs s ESP + 4 + 4 * k)) ∧
  (regs s' EAX = result ∧ eip s' = top s ∧ regs s' ESP = regs s ESP + 4 ∧ ∀ r, r ≠ EAX → r ≠ ESP → regs s' r = regs s r) ∧
  (∀ r, sregs s' r = sregs s r) ∧ cs s' = cs s ∧ eflags s' = eflags s.
Proof.
  cbv zeta. set (t := set_reg EAX number s). assert (Et : (∀ r, r ≠ EAX → regs t r = regs s r) ∧ regs t EAX = number ∧ (∀ r, sregs t r = sregs s r) ∧ eip t = eip s ∧ cs t = cs s ∧ ss t = ss s ∧ eflags t = eflags s ∧ tss_esp0 t = tss_esp0 s ∧ cmem t = cmem s).
  { unfold t. destruct s as [[x1 x2 x3 x4 sp x6 x7 x8] sg ip c sg2 fl e0 s0 m]. split_and!; try done. by intros []. }
  destruct Et as (T1 & T2 & T3 & T4 & T5 & T6 & T7 & T8 & T9). assert (Ht : x86_ok t).
  { destruct Hs as [R W F G]. split; rewrite ?T4, ?T5, ?T6, ?T7; try done; [|intros r; by rewrite T3]. intros r. destruct r; try (rewrite T1 by done; apply R). by rewrite T2. }
  assert (Hu : from_user_mode t = true) by (unfold from_user_mode; by rewrite T5, Huser). assert (Hh : hw_stack t = tss_esp0 s) by (unfold hw_stack; by rewrite Hu, T8). assert (Hfs : frame_size t = 76) by (unfold frame_size; by rewrite Hu).
  pose proof (frame_saved t T_SYSCALL ra None eq_refl Ht ltac:(done) ltac:(done)) as Hf. rewrite Hu, Hh, Hfs in Hf. cbn [default] in Hf. change (visible true ?x) with x in Hf.
  pose proof (handle_run t T_SYSCALL ra None eq_refl ltac:(rewrite Hh; lia) false trap) as (u & E & E1 & E2 & E3). rewrite Hh, Hfs in E1, E2. destruct Htrap as [A1 A2]. cbv zeta in A1, A2. fold t in A1, A2.
  assert (Hout : ∀ b, b + 4 ≤ tss_esp0 s - 84 ∨ tss_esp0 s ≤ b → ld32 (trap_memory t T_SYSCALL ra None) b = ld32 (cmem s) b).
  { intros b Hb. rewrite <- T9. apply ld32_ext. intros i Hi. apply stack_words_out. rewrite trap_words_eq, Hu, Hh by done. change (length _) with 21%nat. lia. }
  set (m := trap_memory t T_SYSCALL ra None) in *. set (a := tss_esp0 s - 76) in *.
  destruct (trapret_run u a E1 ltac:(unfold a; lia) ltac:(unfold a; lia) E3) as (R & M & U & _). rewrite E2, A1, Hf in R, U. rewrite E2 in M.
  assert (Hfu : from_user (set_tf_eax result (frame_of t T_SYSCALL (id 0))) = true) by (unfold from_user; cbn [set_tf_eax frame_of tf_cs]; by rewrite T5, Huser). destruct (U Hfu) as [U1 _].
  unfold apart in *. rewrite Hf. split; [|].
  - cbn [frame_of tf_trapno tf_eax tf_esp]. rewrite (T1 ESP) by done. split_and!; [done|exact T2|done|]. intros k Hap. apply Hout. lia.
  - unfold stub. change (exec_code [MOVI EAX number] s) with t. rewrite E. set (v := exec_code trapret u) in *. clearbody v.
    assert (Esp : regs v ESP = regs s ESP) by (rewrite U1; exact (T1 ESP ltac:(done))). assert (Etop : top v = top s) by (unfold top; rewrite M, Esp, A2; apply Hout; lia).
    change (exec_code [RET] v) with (set_eip (top v) (drop_words 1 v)). rewrite Etop. clear -R Esp T1 T3 T5 T7 Hs Hsp. assert (Ew : u32 (regs v ESP + 4 * 1) = regs s ESP + 4) by (rewrite Esp; apply u32_small; pose proof (xo_regs _ Hs ESP); lia).
    pose proof (ret_regs v (top s) (regs s ESP + 4) Ew) as (Q1 & Q2 & Q3 & Q4 & Q5 & Q6). rewrite Q2, Q3, Q5, Q6. destruct R as [r1 r2 r3 r4 r5 r6 r7 r8 r9 r10 r11 r12 r13 r14]. cbn [set_tf_eax frame_of tf_edi tf_esi tf_ebp tf_ebx tf_edx tf_ecx tf_eax tf_gs tf_fs tf_es tf_ds tf_eip tf_cs tf_eflags] in *.
    split; [split_and!; [rewrite Q1 by done; exact r7|done|done|]|split; [|by rewrite r13, r14]].
    + intros r Ha Hb. rewrite Q1 by done. rewrite <- (T1 r Ha). destruct r; done.
    + intros r. rewrite Q4, <- T3. destruct r; done.
Qed.

(** * Instances *)

Definition prog : x86 := mk_x86 (mk_gregs 1 2 3 4 0x3000 6 7 8) (mk_segregs 0x23 0x23 0 0) 0x104 0x1b 0x23 0x202 0x8000 0x10 (λ a, a mod 256).

Lemma prog_ok : x86_ok prog.
Proof. split; [intros []; cbn; lia|intros []; cbn; lia|cbn; lia|cbn; lia]. Qed.

(** A page fault, with its error code, of which the kernel makes nothing. *)
Lemma trap_frame_roundtrip_witness : same_program prog (handle 14 0x80105000 (mk_cfun (λ _ m, m) 0 0 0) (interrupt (Some 6) true prog)).
Proof.
  apply (trap_frame_roundtrip prog 14 0x80105000 (Some 6) true (mk_cfun (λ _ m, m) 0 0 0)).
  - exact prog_ok.
  - left. reflexivity.
  - lia.
  - reflexivity.
  - cbn. lia.
  - vm_compute. split; [discriminate|reflexivity].
  - vm_compute. reflexivity.
Defined.

(** The system call getpid, answered with 5. *)
Definition answer5 : cfun := mk_cfun (λ a m, st32 m (a + 28) 5) 0 0 0.

Lemma syscall_stub_returns_witness : regs (stub SYS_getpid 0x80105000 answer5 prog) EAX = 5 ∧ eip (stub SYS_getpid 0x80105000 answer5 prog) = top prog.
Proof.
  destruct (syscall_stub_returns prog SYS_getpid 0x80105000 5 answer5) as (_ & (H1 & H2 & _) & _).
  - exact prog_ok.
  - reflexivity.
  - unfold SYS_getpid. lia.
  - cbn. lia.
  - cbn. lia.
  - left. cbn. lia.
  - split; vm_compute; reflexivity.
  - split; [exact H1|exact H2].
Defined.

(** Thread [thread_s] leaves with swtch(0x5000, 0x2000), and comes back when [thread_t]
    calls swtch(0x5004, 0x1000 - 16). *)
Definition thread_s : x86 :=
  mk_x86 (mk_gregs 1 2 3 40 0x1000 60 70 80) (mk_segregs 0x10 0x10 0 0) 0x100 8 0x10 0x2 0x8000 0x10 (st32 (st32 (st32 (λ _, 0) 0x1000 0x80106000) 0x1004 0x5000) 0x1008 0x2000).
Definition thread_t : x86 :=
  mk_x86 (mk_gregs 9 9 9 9 0x3000 9 9 9) (mk_segregs 0x10 0x10 0 0) 0x100 8 0x10 0x2 0x8000 0x10 (st32 (st32 (sw_memory thread_s) 0x3004 0x5004) 0x3008 (0x1000 - 16)).

Lemma swtch_roundtrip_witness : regs (exec_code swtch thread_t) EBX = 40 ∧ eip (exec_code swtch thread_t) = 0x80106000.
Proof.
  destruct (swtch_roundtrip thread_s thread_t) as (_ & _ & (_ & _ & _ & H1 & _ & H2)).
  - split; [split; [intros []; cbn; lia|intros []; cbn; lia|cbn; lia|cbn; lia]|cbn; lia|vm_compute; reflexivity|right; vm_compute; discriminate].
  - split; [split; [intros []; cbn; lia|intros []; cbn; lia|cbn; lia|cbn; lia]|cbn; lia|vm_compute; reflexivity|right; vm_compute; discriminate].
  - vm_compute. reflexivity.
  - vm_compute. reflexivity.
  - left. vm_compute. discriminate.
  - left. vm_compute. discriminate.
  - split; [exact H1|rewrite H2; vm_compute; reflexivity].
Defined.
