(* ===== verification/Devices.v ===== *)
(** The interrupt controllers and the clock (ioapic.c, lapic.c, picirq.c), and the set-up of
    the serial port and of the disk (uart.c, ide.c). The devices are parameters; the
    programs thread their state. It is proved which interrupts the I/O APIC lets through
    and where it sends them, and that the clock's date is decoded. *)
From Stdlib Require Import ZArith Lia Bool Ascii.
From stdpp Require Import base tactics list list_numbers strings.
From S2P Require Import Prelude Machine Trap Ports.

(** Registers in memory: 32-bit words at addresses that devices answer. *)
Class Mmio (D : Type) := { dev_ld : Z → D → Z * D; dev_st : Z → Z → D → D }.

Section devices.
  Context {D : Type} {P : PortIO D} {MM : Mmio D}.

Definition mmio_ld (a : Z) : M D Z := λ d, Ok (dev_ld a d).
Definition mmio_st (a v : Z) : M D unit := λ d, Ok (tt, dev_st a (u32 v) d).

(** * ioapic.c *)

Definition IOAPIC : Z := 0xFEC00000.
Definition REG_ID : Z := 0x00.
Definition REG_VER : Z := 0x01.
Definition REG_TABLE : Z := 0x10.
Definition INT_DISABLED : Z := 0x00010000.

Definition ioapicread (reg : Z) : M D Z := mmio_st IOAPIC reg;; mmio_ld (IOAPIC + 16).
Definition ioapicwrite (reg data : Z) : M D unit := mmio_st IOAPIC reg;; mmio_st (IOAPIC + 16) data.

(** The loop of ioapicinit, for [n] more interrupts from [i] on. *)
Fixpoint ioapic_mask (n : nat) (i : Z) : M D unit :=
  match n with
  | O => mret tt
  | S n =>
      ioapicwrite (REG_TABLE + 2 * i) (Z.lor INT_DISABLED (T_IRQ0 + i));;
      ioapicwrite (REG_TABLE + 2 * i + 1) 0;;
      ioapic_mask n (i + 1)
  end.

(** The result says whether the warning is printed. *)
Definition ioapicinit (ioapicid : Z) : M D bool :=
  v ← ioapicread REG_VER;
  let maxintr := Z.land (Z.shiftr v 16) 0xFF in
  r ← ioapicread REG_ID;
  let id := Z.shiftr r 24 in
  ioapic_mask (Z.to_nat (maxintr + 1)) 0;;
  mret (negb (id =? ioapicid)).

Definition ioapicenable (irq cpunum : Z) : M D unit :=
  ioapicwrite (REG_TABLE + 2 * irq) (T_IRQ0 + irq);;
  ioapicwrite (REG_TABLE + 2 * irq + 1) (Z.shiftl cpunum 24).

(** * picirq.c *)

Definition IO_PIC1 : Z := 0x20.
Definition IO_PIC2 : Z := 0xA0.
Definition picinit : M D unit := outb (IO_PIC1 + 1) 0xFF;; outb (IO_PIC2 + 1) 0xFF.

(** * lapic.c *)

(** The registers, as indices of words. *)
Definition L_ID : Z := 0x0020 / 4.
Definition L_VER : Z := 0x0030 / 4.
Definition L_TPR : Z := 0x0080 / 4.
Definition L_EOI : Z := 0x00B0 / 4.
Definition L_SVR : Z := 0x00F0 / 4.
Definition L_ESR : Z := 0x0280 / 4.
Definition L_ICRLO : Z := 0x0300 / 4.
Definition L_ICRHI : Z := 0x0310 / 4.
Definition L_TIMER : Z := 0x0320 / 4.
Definition L_PCINT : Z := 0x0340 / 4.
Definition L_LINT0 : Z := 0x0350 / 4.
Definition L_LINT1 : Z := 0x0360 / 4.
Definition L_ERROR : Z := 0x0370 / 4.
Definition L_TICR : Z := 0x0380 / 4.
Definition L_TDCR : Z := 0x03E0 / 4.
Definition L_ENABLE : Z := 0x00000100.
Definition L_INIT : Z := 0x00000500.
Definition L_STARTUP : Z := 0x00000600.
Definition L_DELIVS : Z := 0x00001000.
Definition L_ASSERT : Z := 0x00004000.
Definition L_LEVEL : Z := 0x00008000.
Definition L_BCAST : Z := 0x00080000.
Definition L_X1 : Z := 0x0000000B.
Definition L_PERIODIC : Z := 0x00020000.
Definition L_MASKED : Z := 0x00010000.
Definition IRQ_ERROR : Z := 19.

(** The functions take the pointer [lapic] of lapic.c, which mpinit sets. *)
Definition lapicw (lapic index value : Z) : M D unit :=
  mmio_st (lapic + 4 * index) value;; mmio_ld (lapic + 4 * L_ID);; mret tt.

(** The loop that waits until the interrupt command is delivered. *)
Fixpoint lapic_wait (fuel : nat) (lapic : Z) : M D unit :=
  match fuel with
  | O => nofuel
  | S fuel => v ← mmio_ld (lapic + 4 * L_ICRLO); if tst v L_DELIVS then lapic_wait fuel lapic else mret tt
  end.

Definition lapicinit (fuel : nat) (lapic : Z) : M D unit :=
  if lapic =? 0 then mret tt else
  lapicw lapic L_SVR (Z.lor L_ENABLE (T_IRQ0 + IRQ_SPURIOUS));;
  lapicw lapic L_TDCR L_X1;;
  lapicw lapic L_TIMER (Z.lor L_PERIODIC (T_IRQ0 + IRQ_TIMER));;
  lapicw lapic L_TICR 10000000;;
  lapicw lapic L_LINT0 L_MASKED;;
  lapicw lapic L_LINT1 L_MASKED;;
  v ← mmio_ld (lapic + 4 * L_VER);
  when (4 <=? Z.land (Z.shiftr v 16) 0xFF) (lapicw lapic L_PCINT L_MASKED);;
  lapicw lapic L_ERROR (T_IRQ0 + IRQ_ERROR);;
  lapicw lapic L_ESR 0;;
  lapicw lapic L_ESR 0;;
  lapicw lapic L_EOI 0;;
  lapicw lapic L_ICRHI 0;;
  lapicw lapic L_ICRLO (Z.lor (Z.lor L_BCAST L_INIT) L_LEVEL);;
  lapic_wait fuel lapic;;
  lapicw lapic L_TPR 0.

Definition lapicid (lapic : Z) : M D Z :=
  if lapic =? 0 then mret 0 else v ← mmio_ld (lapic + 4 * L_ID); mret (Z.shiftr v 24).

Definition lapiceoi (lapic : Z) : M D unit := if lapic =? 0 then mret tt else lapicw lapic L_EOI 0.

Definition CMOS_PORT : Z := 0x70.
Definition CMOS_RETURN : Z := 0x71.

(** The warm reset vector is in memory: the result is the memory with it. *)
Definition lapicstartap (m : memory) (lapic apicid addr : Z) : M D memory :=
  outb CMOS_PORT 0xF;;
  outb (CMOS_PORT + 1) 0x0A;;
  let wrv := P2V (Z.lor (Z.shiftl 0x40 4) 0x67) in
  let m := st8 (st8 m wrv 0) (wrv + 1) 0 in
  let m := st8 (st8 m (wrv + 2) (Z.shiftr addr 4)) (wrv + 3) (Z.shiftr addr 12) in
  lapicw lapic L_ICRHI (Z.shiftl apicid 24);;
  lapicw lapic L_ICRLO (Z.lor (Z.lor L_INIT L_LEVEL) L_ASSERT);;
  lapicw lapic L_ICRLO (Z.lor L_INIT L_LEVEL);;
  lapicw lapic L_ICRHI (Z.shiftl apicid 24);;
  lapicw lapic L_ICRLO (Z.lor L_STARTUP (Z.shiftr addr 12));;
  lapicw lapic L_ICRHI (Z.shiftl apicid 24);;
  lapicw lapic L_ICRLO (Z.lor L_STARTUP (Z.shiftr addr 12));;
  mret m.

(** ** The clock *)

Definition CMOS_STATA : Z := 0x0a.
Definition CMOS_STATB : Z := 0x0b.
Definition CMOS_UIP : Z := Z.shiftl 1 7.

Record rtcdate := mk_rtcdate { second : Z; minute : Z; hour : Z; day : Z; month : Z; year : Z }.
#[global] Instance rtcdate_eq_dec : EqDecision rtcdate.
Proof. solve_decision. Defined.

Definition cmos_read (reg : Z) : M D Z := outb CMOS_PORT reg;; inb CMOS_RETURN.

Definition fill_rtcdate : M D rtcdate :=
  s ← cmos_read 0x00; m ← cmos_read 0x02; h ← cmos_read 0x04; d ← cmos_read 0x07; mo ← cmos_read 0x08; y ← cmos_read 0x09;
  mret (mk_rtcdate s m h d mo y).

(** The loop that reads the clock until it shows the same twice. *)
Fixpoint cmos_loop (fuel : nat) : M D rtcdate :=
  match fuel with
  | O => nofuel
  | S fuel =>
      t1 ← fill_rtcdate;
      a ← cmos_read CMOS_STATA;
      if tst a CMOS_UIP then cmos_loop fuel else
      t2 ← fill_rtcdate;
      if decide (t1 = t2) then mret t1 else cmos_loop fuel
  end.

Definition conv (x : Z) : Z := Z.shiftr x 4 * 10 + Z.land x 0xf.
Definition conv_date (t : rtcdate) : rtcdate := mk_rtcdate (conv (second t)) (conv (minute t)) (conv (hour t)) (conv (day t)) (conv (month t)) (conv (year t)).

Definition cmostime (fuel : nat) : M D rtcdate :=
  sb ← cmos_read CMOS_STATB;
  let bcd := Z.land sb (Z.shiftl 1 2) =? 0 in
  t1 ← cmos_loop fuel;
  let t1 := if (bcd : bool) then conv_date t1 else t1 in
  mret (mk_rtcdate (second t1) (minute t1) (hour t1) (day t1) (month t1) (year t1 + 2000)).

(** * uart.c *)

Definition COM1 : Z := 0x3f8.

(** The wait of uartputc, at most [n] more times, and uartputc when there is a port. *)
Fixpoint uart_wait (n : nat) : M D unit :=
  match n with
  | O => mret tt
  | S n => v ← inb (COM1 + 5); if negb (tst v 0x20) then uart_wait n else mret tt
  end.
Definition uart_send (c : Z) : M D unit := uart_wait 128;; outb (COM1 + 0) c.

(** The result is the variable [uart]: is there a port? *)
Definition uartinit : M D bool :=
  outb (COM1 + 2) 0;;
  outb (COM1 + 3) 0x80;;
  outb (COM1 + 0) (115200 / 9600);;
  outb (COM1 + 1) 0;;
  outb (COM1 + 3) 0x03;;
  outb (COM1 + 4) 0;;
  outb (COM1 + 1) 0x01;;
  st ← inb (COM1 + 5);
  if st =? 0xFF then mret false else
  inb (COM1 + 2);;
  inb (COM1 + 0);;
  ioapicenable IRQ_COM1 0;;
  foldr (λ c k, uart_send c;; k) (mret true) (chars "xv6..." ++ [10]).

(** * ide.c *)

Definition IDE_BSY : Z := 0x80.
Definition IDE_DRDY : Z := 0x40.
Definition IDE_DF : Z := 0x20.
Definition IDE_ERR : Z := 0x01.

Fixpoint idewait (fuel : nat) (checkerr : bool) : M D Z :=
  match fuel with
  | O => nofuel
  | S fuel =>
      r ← inb 0x1f7;
      if negb (Z.land r (Z.lor IDE_BSY IDE_DRDY) =? IDE_DRDY) then idewait fuel checkerr
      else if checkerr && tst r (Z.lor IDE_DF IDE_ERR) then mret (-1) else mret 0
  end.

(** Looks for disk 1, at most [n] more times. *)
Fixpoint probe_disk1 (n : nat) : M D bool :=
  match n with
  | O => mret false
  | S n => v ← inb 0x1f7; if negb (v =? 0) then mret true else probe_disk1 n
  end.

(** The result is the variable [havedisk1]. *)
Definition ideinit (fuel : nat) (ncpu : Z) : M D bool :=
  ioapicenable IRQ_IDE (ncpu - 1);;
  idewait fuel false;;
  outb 0x1f6 (Z.lor 0xe0 (Z.shiftl 1 4));;
  havedisk1 ← probe_disk1 1000;
  outb 0x1f6 (Z.lor 0xe0 (Z.shiftl 0 4));;
  mret havedisk1.
End devices.

(** * The I/O APIC

    What its manual says: a register is selected by writing its number to the first word,
    and read or written through the fifth. *)
Class Ioapic (D : Type) {MM : Mmio D} := {
  iox_sel : D → Z;
  iox_reg : D → Z → Z;
  iox_select d r : iox_sel (dev_st IOAPIC r d) = r ∧ ∀ x, iox_reg (dev_st IOAPIC r d) x = iox_reg d x;
  iox_write d v : REG_TABLE ≤ iox_sel d → ∀ x, iox_reg (dev_st (IOAPIC + 16) v d) x = if x =? iox_sel d then v else iox_reg d x;
  iox_read d : let '(v, d') := dev_ld (IOAPIC + 16) d in v = iox_reg d (iox_sel d) ∧ ∀ x, iox_reg d' x = iox_reg d x }.

(** The interrupt that entry [i] of the table delivers, if it is not masked, and the CPU. *)
Definition entry_route (f : Z → Z) (i : Z) : option (Z * Z) :=
  let low := f (REG_TABLE + 2 * i) in
  if tst low INT_DISABLED then None else Some (Z.land low 0xFF, Z.shiftr (f (REG_TABLE + 2 * i + 1)) 24).

Section ioapic.
  Context {D : Type} {MM : Mmio D} {IO : Ioapic D}.

(** ioapicenable for each of a list of interrupts and CPUs. *)
Fixpoint enable_all (l : list (Z * Z)) : M D unit := match l with [] => mret tt | (irq, c) :: l => ioapicenable irq c;; enable_all l end.

(** The CPU of the last request for an interrupt. *)
Definition routed (i : Z) (l : list (Z * Z)) : option Z := foldl (λ o e, if i =? e.1 then Some e.2 else o) None l.

Lemma ioapicread_run d r : 0 ≤ r < 2 ^ 32 → ∃ d', ioapicread r d = Ok (iox_reg d r, d') ∧ ∀ x, iox_reg d' x = iox_reg d x.
Proof.
  intros Hr. unfold ioapicread, mmio_st, mmio_ld, mbind, M_bind. rewrite u32_small by done. destruct (iox_select d r) as [E1 E2]. pose proof (iox_read (dev_st IOAPIC r d)) as H. destruct (dev_ld (IOAPIC + 16) (dev_st IOAPIC r d)) as [v d'].
  destruct H as [-> H]. exists d'. rewrite E1, E2. split; [done|]. intros x. by rewrite H, E2.
Qed.

Lemma ioapicwrite_run d r v : REG_TABLE ≤ r < 2 ^ 32 → ∃ d', ioapicwrite r v d = Ok (tt, d') ∧ ∀ x, iox_reg d' x = if x =? r then u32 v else iox_reg d x.
Proof.
  intros Hr. unfold REG_TABLE in Hr. unfold ioapicwrite, mmio_st, mbind, M_bind. rewrite (u32_small r) by lia. destruct (iox_select d r) as [E1 E2]. eexists. split; [done|]. intros x. rewrite iox_write by (rewrite E1; unfold REG_TABLE; lia). by rewrite E1, E2.
Qed.

(** Writing both registers of entry [i]. *)
Lemma redirect_run d i low high : 0 ≤ i < 2 ^ 16 → ∃ d', (ioapicwrite (REG_TABLE + 2 * i) low;; ioapicwrite (REG_TABLE + 2 * i + 1) high) d = Ok (tt, d') ∧
  ∀ x, iox_reg d' x = if x =? REG_TABLE + 2 * i + 1 then u32 high else if x =? REG_TABLE + 2 * i then u32 low else iox_reg d x.
Proof.
  intros Hi. destruct (ioapicwrite_run d (REG_TABLE + 2 * i) low ltac:(unfold REG_TABLE; lia)) as (d1 & E1 & H1). destruct (ioapicwrite_run d1 (REG_TABLE + 2 * i + 1) high ltac:(unfold REG_TABLE; lia)) as (d2 & E2 & H2).
  exists d2. split; [by rewrite (bind_eq _ _ _ _ _ E1)|]. intros x. by rewrite H2, H1.
Qed.

Lemma ioapic_mask_run n : ∀ d i, 0 ≤ i → i + Z.of_nat n < 2 ^ 16 → ∃ d', ioapic_mask n i d = Ok (tt, d') ∧
  (∀ j, i ≤ j < i + Z.of_nat n → iox_reg d' (REG_TABLE + 2 * j) = u32 (Z.lor INT_DISABLED (T_IRQ0 + j)) ∧ iox_reg d' (REG_TABLE + 2 * j + 1) = 0) ∧
  ∀ j, j < i → iox_reg d' (REG_TABLE + 2 * j) = iox_reg d (REG_TABLE + 2 * j) ∧ iox_reg d' (REG_TABLE + 2 * j + 1) = iox_reg d (REG_TABLE + 2 * j + 1).
Proof.
  induction n as [|n IH]; intros d i Hi Hn; cbn [ioapic_mask].
  { exists d. split; [done|]. split; [intros j Hj; lia|done]. }
  destruct (redirect_run d i (Z.lor INT_DISABLED (T_IRQ0 + i)) 0 ltac:(lia)) as (d1 & E1 & H1). apply bind_Ok in E1 as ([] & d0 & E0 & E1). rewrite (bind_eq _ _ _ _ _ E0), (bind_eq _ _ _ _ _ E1).
  destruct (IH d1 (i + 1) ltac:(lia) ltac:(lia)) as (d2 & E2 & H2 & H3). exists d2. split; [done|]. split.
  - intros j Hj. destruct (decide (j = i)) as [->|Hne]; [|apply H2; lia]. destruct (H3 i ltac:(lia)) as [-> ->]. rewrite !H1, !Z.eqb_refl. by rewrite (proj2 (Z.eqb_neq (REG_TABLE + 2 * i) (REG_TABLE + 2 * i + 1))) by lia.
  - intros j Hj. destruct (H3 j ltac:(lia)) as [-> ->]. rewrite !H1. by rewrite !(proj2 (Z.eqb_neq _ _)) by lia.
Qed.

(** The two registers of entry [i]: masked, or routed to a CPU. *)
Definition entry_is (f : Z → Z) (i : Z) (o : option Z) : Prop :=
  match o with
  | None => f (REG_TABLE + 2 * i) = u32 (Z.lor INT_DISABLED (T_IRQ0 + i)) ∧ f (REG_TABLE + 2 * i + 1) = 0
  | Some c => f (REG_TABLE + 2 * i) = u32 (T_IRQ0 + i) ∧ f (REG_TABLE + 2 * i + 1) = u32 (Z.shiftl c 24)
  end.

Lemma enable_all_run l : ∀ d, Forall (λ e, 0 ≤ e.1 < 2 ^ 16) l →
  ∃ d', enable_all l d = Ok (tt, d') ∧ ∀ i o, entry_is (iox_reg d) i o → entry_is (iox_reg d') i (foldl (λ o e, if i =? e.1 then Some e.2 else o) o l).
Proof.
  induction l as [|[irq c] l IH]; intros d Hl; cbn [enable_all foldl]; [by exists d|]. apply Forall_cons in Hl as [Hi Hl]. cbn [fst snd] in *. unfold ioapicenable.
  destruct (redirect_run d irq (T_IRQ0 + irq) (Z.shiftl c 24) Hi) as (d1 & E1 & H1). rewrite (bind_eq _ _ _ _ _ E1). destruct (IH d1 Hl) as (d2 & E2 & H2). exists d2. split; [done|].
  intros i o Ho. apply H2. destruct (Z.eqb_spec i irq) as [->|Hne].
  - split; rewrite H1, ?Z.eqb_refl; [|done]. by rewrite (proj2 (Z.eqb_neq (REG_TABLE + 2 * irq) _)) by lia.
  - unfold entry_is in *. rewrite !H1. rewrite !(proj2 (Z.eqb_neq _ _)) by lia. done.
Qed.

Lemma land_disabled x : 0 ≤ x < 256 → tst (u32 (Z.lor INT_DISABLED x)) INT_DISABLED = true ∧ tst (u32 x) INT_DISABLED = false ∧ Z.land (u32 x) 0xFF = x.
Proof.
  intros Hx. unfold tst, INT_DISABLED. change 0x00010000 with (Z.shiftl 1 16). rewrite lor_shiftl_add by lia. rewrite !u32_small by lia. change (Z.shiftl 1 16) with (2 ^ 16). change 0xFF with (Z.ones 8).
  rewrite (Z.land_ones x 8), (Z.mod_small x) by lia. split; [|split; [|done]].
  - apply negb_true_iff, Z.eqb_neq. intros E. apply (f_equal (λ z, Z.testbit z 16)) in E. rewrite Z.land_spec, Z.pow2_bits_true, Z.bits_0, andb_true_r in E by lia.
    replace (1 * 2 ^ 16 + x) with (x + 1 * 2 ^ 16) in E by lia. rewrite Z.testbit_true in E || rewrite Z.testbit_false in E by lia. rewrite Z.div_add, (Z.div_small x) in E by lia. done.
  - apply negb_false_iff, Z.eqb_eq. apply Z.bits_inj'. intros k Hk. rewrite Z.land_spec, Z.bits_0. destruct (decide (k = 16)) as [->|Hne]; [|rewrite Z.pow2_bits_false by lia; apply andb_false_r].
    rewrite <- (Z.mod_small x (2 ^ 8)) by lia. by rewrite Z.mod_pow2_bits_high by lia.
Qed.

(** The I/O APIC delivers exactly the interrupts that were asked for. After ioapicinit
    and any calls of ioapicenable, interrupt [i] is masked if no call named it, and
    otherwise is delivered as trap T_IRQ0 + [i] to the CPU of the last call that did. *)
Theorem ioapic_routes (d : D) (ioapicid : Z) (l : list (Z * Z))
  (Hmax : Z.land (Z.shiftr (iox_reg d REG_VER) 16) 0xFF < 224) (Hl : Forall (λ e, 0 ≤ e.1 < 2 ^ 16 ∧ 0 ≤ e.2 < 2 ^ 8) l) :
  runs (ioapicinit ioapicid;; enable_all l) d (λ _ d', ∀ i, 0 ≤ i ≤ Z.land (Z.shiftr (iox_reg d REG_VER) 16) 0xFF →
    entry_route (iox_reg d') i = (λ c, (T_IRQ0 + i, c)) <$> routed i l).
Proof.
  unfold ioapicinit. destruct (ioapicread_run d REG_VER ltac:(done)) as (d1 & E1 & H1). set (mx := Z.land _ 0xFF) in *. destruct (ioapicread_run d1 REG_ID ltac:(done)) as (d2 & E2 & H2).
  assert (Hm0 : 0 ≤ mx) by (unfold mx; apply Z.land_nonneg; right; lia). destruct (ioapic_mask_run (Z.to_nat (mx + 1)) d2 0 ltac:(lia) ltac:(lia)) as (d3 & E3 & H3 & _).
  destruct (enable_all_run l d3) as (d4 & E4 & H4); [eapply Forall_impl; [exact Hl|]; intros e He; apply He|].
  mstep. mstep. eexists _, _. split; [exact E1|]. mstep. eexists _, _. split; [exact E2|]. mstep. eexists _, _. split; [exact E3|]. mstep. eexists _, _. split; [exact E4|].
  intros i Hi. specialize (H3 i ltac:(lia)). pose proof (H4 i None H3) as H. fold (routed i l) in H. destruct (land_disabled (T_IRQ0 + i)) as (L1 & L2 & L3); [unfold T_IRQ0; lia|]. unfold entry_route.
  destruct (routed i l) as [c|] eqn:Er; destruct H as [-> ->]; rewrite ?L1, ?L2; [|done]. cbn. rewrite L3. do 2 f_equal.
  assert (Hc : 0 ≤ c < 2 ^ 8).
  { clear -Hl Er. unfold routed in Er. assert (Hg : ∀ o, (∀ x, o = Some x → 0 ≤ x < 2 ^ 8) → foldl (λ o e, if i =? e.1 then Some e.2 else o) o l = Some c → 0 ≤ c < 2 ^ 8); [|by apply (Hg None)].
    clear Er. induction Hl as [|e l He Hl IH]; intros o Ho; cbn; [apply Ho|]. apply IH. intros x. destruct (i =? e.1); [intros [= <-]; apply He|apply Ho]. }
  rewrite Z.shiftl_mul_pow2, u32_small, Z.shiftr_div_pow2 by lia. apply Z.div_mul. lia.
Qed.
End ioapic.

(** * The clock *)

(** The registers of a clock that does not change while it is read: a register is selected
    through one port and read through the next. *)
Class Rtc (D : Type) {P : PortIO D} := {
  rtc_sel : D → Z;
  rtc_val : D → Z → Z;
  rtc_select d r : rtc_sel (dev_outb 0x70 r d) = r ∧ ∀ x, rtc_val (dev_outb 0x70 r d) x = rtc_val d x;
  rtc_read d : let '(v, d') := dev_inb 0x71 d in v = rtc_val d (rtc_sel d) ∧ ∀ x, rtc_val d' x = rtc_val d x }.

(** Binary-coded decimals. *)
Definition bcd (x : Z) : Z := x / 10 * 16 + x mod 10.

Lemma conv_bcd x : 0 ≤ x < 100 → conv (bcd x) = x.
Proof.
  intros H. unfold conv, bcd. change 0xf with (Z.ones 4). rewrite Z.land_ones, Z.shiftr_div_pow2 by lia. change (2 ^ 4) with 16. Z.to_euclidean_division_equations. lia.
Qed.

Section clock.
  Context {D : Type} {P : PortIO D} {R : Rtc D}.

Lemma cmos_read_run d r : 0 ≤ r < 256 → ∃ d', cmos_read r d = Ok (rtc_val d r, d') ∧ ∀ x, rtc_val d' x = rtc_val d x.
Proof.
  intros Hr. unfold cmos_read, outb, inb, mbind, M_bind, CMOS_PORT, CMOS_RETURN. rewrite Z.mod_small by done. destruct (rtc_select d r) as [E1 E2]. pose proof (rtc_read (dev_outb 0x70 r d)) as H.
  destruct (dev_inb 0x71 (dev_outb 0x70 r d)) as [v d']. destruct H as [-> H]. exists d'. rewrite E1, E2. split; [done|]. intros x. by rewrite H, E2.
Qed.

(** What the registers of the clock show. *)
Definition shown (f : Z → Z) : rtcdate := mk_rtcdate (f 0x00) (f 0x02) (f 0x04) (f 0x07) (f 0x08) (f 0x09).

Lemma fill_run d : ∃ d', fill_rtcdate d = Ok (shown (rtc_val d), d') ∧ ∀ x, rtc_val d' x = rtc_val d x.
Proof.
  unfold fill_rtcdate. destruct (cmos_read_run d 0x00 ltac:(lia)) as (d1 & E1 & H1). destruct (cmos_read_run d1 0x02 ltac:(lia)) as (d2 & E2 & H2). destruct (cmos_read_run d2 0x04 ltac:(lia)) as (d3 & E3 & H3).
  destruct (cmos_read_run d3 0x07 ltac:(lia)) as (d4 & E4 & H4). destruct (cmos_read_run d4 0x08 ltac:(lia)) as (d5 & E5 & H5). destruct (cmos_read_run d5 0x09 ltac:(lia)) as (d6 & E6 & H6).
  rewrite (bind_eq _ _ _ _ _ E1), (bind_eq _ _ _ _ _ E2), (bind_eq _ _ _ _ _ E3), (bind_eq _ _ _ _ _ E4), (bind_eq _ _ _ _ _ E5), (bind_eq _ _ _ _ _ E6). exists d6. split; [|intros x; by rewrite H6, H5, H4, H3, H2, H1].
  unfold shown. by rewrite H5, H4, H3, H2, H1, !H4, !H3, !H2, !H1.
Qed.

(** cmostime returns the date of the clock, whichever way the clock encodes it. *)
Theorem cmostime_date (d : D) (fuel : nat) (t : rtcdate) (Hf : (0 < fuel)%nat) (Huip : tst (rtc_val d CMOS_STATA) CMOS_UIP = false)
  (Ht : Forall (λ x, 0 ≤ x < 100) [second t; minute t; hour t; day t; month t; year t])
  (Hs : shown (rtc_val d) = if Z.land (rtc_val d CMOS_STATB) 4 =? 0 then mk_rtcdate (bcd (second t)) (bcd (minute t)) (bcd (hour t)) (bcd (day t)) (bcd (month t)) (bcd (year t)) else t) :
  runs (cmostime fuel) d (λ r _, r = mk_rtcdate (second t) (minute t) (hour t) (day t) (month t) (year t + 2000)).
Proof.
  destruct fuel as [|fuel]; [lia|]. unfold cmostime. destruct (cmos_read_run d CMOS_STATB ltac:(unfold CMOS_STATB; lia)) as (d1 & E1 & H1). destruct (fill_run d1) as (d2 & E2 & H2).
  destruct (cmos_read_run d2 CMOS_STATA ltac:(unfold CMOS_STATA; lia)) as (d3 & E3 & H3). destruct (fill_run d3) as (d4 & E4 & H4).
  assert (S1 : shown (rtc_val d1) = shown (rtc_val d)) by (unfold shown; by rewrite !H1). assert (S3 : shown (rtc_val d3) = shown (rtc_val d)) by (unfold shown; by rewrite !H3, !H2, !H1). rewrite S1 in E2. rewrite S3 in E4. rewrite H2, H1 in E3.
  mstep. eexists _, _. split; [exact E1|]. mstep. cbn [cmos_loop]. mstep. eexists _, _. split; [exact E2|]. mstep. eexists _, _. split; [exact E3|]. rewrite Huip. mstep. eexists _, _. split; [exact E4|]. rewrite decide_True by done. mstep. mstep.
  change (Z.shiftl 1 2) with 4. rewrite Hs. repeat (apply Forall_cons in Ht as [? Ht]). destruct (Z.land _ 4 =? 0); [|done]. unfold conv_date. cbn [second minute hour day month year]. by rewrite !conv_bcd.
Qed.
End clock.

(** * A board *)

(** An I/O APIC with 24 interrupts. *)
Record chip := mk_chip { ch_sel : Z; ch_reg : Z → Z }.
#[global] Instance chip_mmio : Mmio chip := {
  dev_ld a d := (ch_reg d (ch_sel d), d);
  dev_st a v d := if a =? IOAPIC then mk_chip v (ch_reg d) else mk_chip (ch_sel d) (λ x, if x =? ch_sel d then v else ch_reg d x) }.
#[global] Instance chip_ioapic : Ioapic chip.
Proof. refine {| iox_sel := ch_sel; iox_reg := ch_reg |}; done. Defined.

Lemma ioapic_routes_witness :
  runs (ioapicinit 0;; enable_all [(1, 0); (4, 0); (14, 1); (1, 3)]) (mk_chip 0 (λ r, if r =? 1 then 0x170011 else 0)) (λ _ d', entry_route (ch_reg d') 14 = Some (46, 1) ∧ entry_route (ch_reg d') 1 = Some (33, 3) ∧ entry_route (ch_reg d') 12 = None).
Proof.
  eapply runs_mono.
  - apply (ioapic_routes (mk_chip 0 (λ r, if r =? 1 then 0x170011 else 0)) 0 [(1, 0); (4, 0); (14, 1); (1, 3)]).
    + vm_compute. reflexivity.
    + repeat (apply Forall_cons_2; [cbn; lia|]). apply Forall_nil_2.
  - intros [] d' H. change (Z.land (Z.shiftr (iox_reg (mk_chip 0 (λ r, if r =? 1 then 0x170011 else 0)) REG_VER) 16) 0xFF) with 23 in H.
    split; [apply (H 14); lia|]. split; [apply (H 1); lia|apply (H 12); lia].
Defined.
