(* ===== verification/Entry.v ===== *)
(** The way into the kernel: the segment descriptors (mmu.h, asm.h, seginit of vm.c and the
    boot loader's table), the first page table (entrypgdir of main.c), the start-up code of
    the processors (bootasm.S, entry.S, entryother.S) one instruction at a time, and
    startothers (main.c), which hands the other processors their stacks. It is proved that
    the descriptors mean what the macros say and that a processor that startothers starts
    arrives in mpenter on its own stack, with flat segments and paging on. *)
From Stdlib Require Import ZArith Lia Bool.
From stdpp Require Import base tactics list list_numbers sets.
From S2P Require Import Prelude Machine CString Format Kalloc State PageFault Proc Ports Trap Devices Asm.

(** * Segment descriptors *)

Definition STA_X : Z := 0x8.
Definition STA_W : Z := 0x2.
Definition STA_R : Z := 0x2.
Definition STS_T32A : Z := 0x9.
Definition SEG_UCODE : Z := 3.
Definition SEG_TSS : Z := 5.
Definition NSEGS : nat := 6.

Record segdesc := mk_segdesc {
  lim_15_0 : Z; base_15_0 : Z; base_23_16 : Z; sd_type : Z; sd_s : Z; sd_dpl : Z; sd_p : Z;
  lim_19_16 : Z; sd_avl : Z; sd_rsv1 : Z; sd_db : Z; sd_g : Z; base_31_24 : Z }.

Definition SEG (type base lim dpl : Z) : segdesc :=
  mk_segdesc (Z.land (Z.shiftr lim 12) 0xffff) (Z.land base 0xffff) (Z.land (Z.shiftr base 16) 0xff) type 1 dpl 1
    (Z.shiftr lim 28) 0 0 1 1 (Z.shiftr base 24).
Definition SEG16 (type base lim dpl : Z) : segdesc :=
  mk_segdesc (Z.land lim 0xffff) (Z.land base 0xffff) (Z.land (Z.shiftr base 16) 0xff) type 1 dpl 1
    (Z.shiftr lim 16) 0 0 1 0 (Z.shiftr base 24).

(** The bit fields of the structure, from the low bits on. *)
Definition segdesc_bytes (d : segdesc) : list Z :=
  [lim_15_0 d mod 256; lim_15_0 d / 256; base_15_0 d mod 256; base_15_0 d / 256; base_23_16 d;
   sd_type d + 16 * sd_s d + 32 * sd_dpl d + 128 * sd_p d;
   lim_19_16 d + 16 * sd_avl d + 32 * sd_rsv1 d + 64 * sd_db d + 128 * sd_g d; base_31_24 d].

(** The table of a CPU after seginit, as lgdt loads it. *)
Definition seginit (gdt : list segdesc) : list segdesc :=
  let gdt := <[Z.to_nat SEG_KCODE := SEG (Z.lor STA_X STA_R) 0 0xffffffff 0]> gdt in
  let gdt := <[Z.to_nat SEG_KDATA := SEG STA_W 0 0xffffffff 0]> gdt in
  let gdt := <[Z.to_nat SEG_UCODE := SEG (Z.lor STA_X STA_R) 0 0xffffffff DPL_USER]> gdt in
  <[Z.to_nat SEG_UDATA := SEG STA_W 0 0xffffffff DPL_USER]> gdt.

(** The descriptor of the task state in switchuvm: a system segment. *)
Definition clear_s (d : segdesc) : segdesc :=
  mk_segdesc (lim_15_0 d) (base_15_0 d) (base_23_16 d) (sd_type d) 0 (sd_dpl d) (sd_p d) (lim_19_16 d) (sd_avl d) (sd_rsv1 d) (sd_db d) (sd_g d) (base_31_24 d).
Definition tss_desc (ts sizeof_ts : Z) : segdesc := clear_s (SEG16 STS_T32A ts (sizeof_ts - 1) 0).

(** asm.h *)
Definition SEG_NULLASM : list Z := replicate 8 0.
Definition SEG_ASM (type base lim : Z) : list Z :=
  let w0 := Z.land (Z.shiftr lim 12) 0xffff in
  let w1 := Z.land base 0xffff in
  [w0 mod 256; w0 / 256; w1 mod 256; w1 / 256; Z.land (Z.shiftr base 16) 0xff; Z.lor 0x90 type;
   Z.lor 0xC0 (Z.land (Z.shiftr lim 28) 0xf); Z.land (Z.shiftr base 24) 0xff].

(** The table of bootasm.S and of entryother.S. *)
Definition boot_gdt : list Z := SEG_NULLASM ++ SEG_ASM (Z.lor STA_X STA_R) 0 0xffffffff ++ SEG_ASM STA_W 0 0xffffffff.

(** * entrypgdir *)

Definition PTE_PS : Z := 0x080.
Definition entrypgdir (i : Z) : Z :=
  if (i =? 0) || (i =? Z.shiftr KERNBASE PDXSHIFT) then Z.lor (Z.lor (Z.lor 0 PTE_P) PTE_W) PTE_PS else 0.

(** * A processor at start-up *)

Inductive creg := CR0 | CR3 | CR4 | RAX | RSP | RIP.
Inductive segr := SCS | SDS | SES | SSS | SFS | SGS.
#[export] Instance creg_eq_dec : EqDecision creg. Proof. solve_decision. Defined.
#[export] Instance segr_eq_dec : EqDecision segr. Proof. solve_decision. Defined.

(** The registers, the selectors, what the processor keeps of their descriptors (base and
    limit), the descriptor table, physical memory and the interrupt flag. *)
Record mach := mk_mach { rg : creg → Z; sel : segr → Z; cache : segr → Z * Z; gdt_bytes : list Z; pm : memory; ints : bool }.

Definition set_rg (r : creg) (v : Z) (s : mach) : mach := mk_mach (λ r', if decide (r' = r) then v else rg s r') (sel s) (cache s) (gdt_bytes s) (pm s) (ints s).
Definition set_seg (r : segr) (v : Z) (c : Z * Z) (s : mach) : mach :=
  mk_mach (rg s) (λ r', if decide (r' = r) then v else sel s r') (λ r', if decide (r' = r) then c else cache s r') (gdt_bytes s) (pm s) (ints s).
Definition set_gdt (g : list Z) (s : mach) : mach := mk_mach (rg s) (sel s) (cache s) g (pm s) (ints s).
Definition set_pm (m : memory) (s : mach) : mach := mk_mach (rg s) (sel s) (cache s) (gdt_bytes s) m (ints s).
Definition set_ints (b : bool) (s : mach) : mach := mk_mach (rg s) (sel s) (cache s) (gdt_bytes s) (pm s) b.

Definition CR0_PE : Z := 0x00000001.
Definition CR0_WP : Z := 0x00010000.
Definition CR0_PG : Z := 0x80000000.
Definition CR4_PSE : Z := 0x00000010.

(** How the processor reads a descriptor. *)
Definition byte_of (d : list Z) (i : nat) : Z := default 0 (d !! i).
Definition desc_base (d : list Z) : Z := byte_of d 2 + 2 ^ 8 * byte_of d 3 + 2 ^ 16 * byte_of d 4 + 2 ^ 24 * byte_of d 7.
Definition desc_limit (d : list Z) : Z :=
  let l := byte_of d 0 + 2 ^ 8 * byte_of d 1 + 2 ^ 16 * (byte_of d 6 mod 16) in
  if Z.testbit (byte_of d 6) 7 then l * 4096 + 4095 else l.
Definition desc_type (d : list Z) : Z := byte_of d 5 mod 16.
Definition desc_app (d : list Z) : bool := Z.testbit (byte_of d 5) 4.
Definition desc_dpl (d : list Z) : Z := byte_of d 5 / 32 mod 4.
Definition desc_present (d : list Z) : bool := Z.testbit (byte_of d 5) 7.

(** What a segment register accepts: code in cs, writable data in ss, and anything that can
    be read in the others. *)
Definition accepts (r : segr) (d : list Z) : bool :=
  let x := Z.testbit (desc_type d) 3 in
  let w := Z.testbit (desc_type d) 1 in
  (length d =? 8)%nat && desc_present d && desc_app d &&
  match r with SCS => x | SSS => negb x && w | _ => negb x || w end.

(** Loading a segment register. In real mode the base is the selector times 16; in
    protected mode the descriptor counts, and the null selector is only for data. *)
Definition load_seg (r : segr) (v : Z) : M mach unit :=
  s ← get;
  if negb (Z.testbit (rg s CR0) 0) then modify (set_seg r v (16 * v, 0xffff)) else
  if v =? 0 then match r with SCS | SSS => fault | _ => modify (set_seg r 0 (0, -1)) end else
  let d := take 8 (drop (Z.to_nat v) (gdt_bytes s)) in
  if accepts r d then modify (set_seg r v (desc_base d, desc_limit d)) else fault.

(** The physical address of a linear one. *)
Definition page_addr (s : mach) (write : bool) (la : Z) : option Z :=
  if negb (Z.testbit (rg s CR0) 31) then Some la else
  let ok e := Z.testbit e 0 && (negb write || negb (Z.testbit (rg s CR0) 16) || Z.testbit e 1) in
  let e := ld32 (pm s) (rg s CR3 + 4 * (la / 2 ^ 22)) in
  if negb (ok e) then None else
  if Z.testbit e 7 && Z.testbit (rg s CR4) 4 then Some (e / 2 ^ 22 * 2 ^ 22 + la mod 2 ^ 22) else
  let e2 := ld32 (pm s) (PTE_ADDR e + 4 * (la / 2 ^ 12 mod 2 ^ 10)) in
  if negb (ok e2) then None else Some (PTE_ADDR e2 + la mod 2 ^ 12).

(** The physical address of a word in a segment. *)
Definition word_addr (s : mach) (write : bool) (r : segr) (off : Z) : option Z :=
  let '(b, lim) := cache s r in
  if (0 <=? off) && (off + 3 <=? lim) then page_addr s write (u32 (b + off)) else None.

Definition load_word (r : segr) (off : Z) : M mach Z :=
  s ← get; a ← oget (word_addr s false r off); mret (ld32 (pm s) a).
Definition store_word (r : segr) (off v : Z) : M mach unit :=
  s ← get; a ← oget (word_addr s true r off); modify (set_pm (st32 (pm s) a v)).

(** ** Instructions *)

Definition cli : M mach unit := modify (set_ints false).
Definition movi (r : creg) (v : Z) : M mach unit := modify (set_rg r v).
(** movw $v, %ax, and xorw %ax, %ax *)
Definition movw_ax (v : Z) : M mach unit := modify (λ s, set_rg RAX (rg s RAX / 2 ^ 16 * 2 ^ 16 + v) s).
Definition movw_seg (r : segr) : M mach unit := s ← get; load_seg r (rg s RAX mod 2 ^ 16).
Definition lgdt (g : list Z) : M mach unit := modify (set_gdt g).
Definition mov_from_cr (c : creg) : M mach unit := modify (λ s, set_rg RAX (rg s c) s).
Definition orl_eax (v : Z) : M mach unit := modify (λ s, set_rg RAX (Z.lor (rg s RAX) v) s).
(** Paging needs protected mode. *)
Definition mov_to_cr (c : creg) : M mach unit :=
  s ← get;
  if bool_decide (c = CR0) && Z.testbit (rg s RAX) 31 && negb (Z.testbit (rg s RAX) 0) then fault
  else modify (set_rg c (rg s RAX)).
Definition ljmp (v : Z) : M mach unit := load_seg SCS v.
Definition movl_from (r : creg) (off : Z) : M mach unit := v ← load_word SDS off; modify (set_rg r v).
Definition pushl (v : Z) : M mach unit :=
  s ← get;
  let sp := u32 (rg s RSP - 4) in
  store_word SSS sp v;;
  modify (set_rg RSP sp).
Definition callm (ret off : Z) : M mach unit := v ← load_word SDS off; pushl ret;; modify (set_rg RIP v).
Definition calll (ret target : Z) : M mach unit := pushl ret;; modify (set_rg RIP target).
Definition jmp_eax : M mach unit := modify (λ s, set_rg RIP (rg s RAX) s).

(** ** The code *)

(** The switch to protected mode, which bootasm.S and entryother.S share. *)
Definition protect : M mach unit :=
  lgdt boot_gdt;;
  mov_from_cr CR0;;
  orl_eax CR0_PE;;
  mov_to_cr CR0;;
  ljmp (Z.shiftl SEG_KCODE 3);;
  movw_ax (Z.shiftl SEG_KDATA 3);;
  movw_seg SDS;;
  movw_seg SES;;
  movw_seg SSS;;
  movw_ax 0;;
  movw_seg SFS;;
  movw_seg SGS.

Definition zero_segs : M mach unit := cli;; movw_ax 0;; movw_seg SDS;; movw_seg SES;; movw_seg SSS.

(** entry.S; [dir], [stack] and [main] are the addresses of the symbols. *)
Definition entry (dir stack main : Z) : M mach unit :=
  mov_from_cr CR4;;
  orl_eax CR4_PSE;;
  mov_to_cr CR4;;
  movi RAX (V2P dir);;
  mov_to_cr CR3;;
  mov_from_cr CR0;;
  orl_eax (Z.lor CR0_PG CR0_WP);;
  mov_to_cr CR0;;
  movi RSP (u32 (stack + KSTACKSIZE));;
  movi RAX main;;
  jmp_eax.

(** entryother.S, linked and loaded at [start]; [ret] is the address after the call. *)
Definition start_ap : Z := 0x7000.
Definition entryother (ret : Z) : M mach unit :=
  zero_segs;;
  protect;;
  mov_from_cr CR4;;
  orl_eax CR4_PSE;;
  mov_to_cr CR4;;
  movl_from RAX (start_ap - 12);;
  mov_to_cr CR3;;
  mov_from_cr CR0;;
  orl_eax (Z.lor (Z.lor CR0_PE CR0_PG) CR0_WP);;
  mov_to_cr CR0;;
  movl_from RSP (start_ap - 4);;
  callm ret (start_ap - 8).

(** bootasm.S, at 0x7c00: the wait for the keyboard controller is on its ports. *)
Definition start_boot : Z := 0x7c00.

Section boot.
  Context {D : Type} {P : PortIO D}.

Fixpoint seta20_wait (fuel : nat) : M D unit :=
  match fuel with
  | O => nofuel
  | S fuel => al ← inb 0x64; if negb (Z.land al 0x2 =? 0) then seta20_wait fuel else mret tt
  end.
Definition seta20 (fuel : nat) : M D unit := seta20_wait fuel;; outb 0x64 0xd1;; seta20_wait fuel;; outb 0x60 0xdf.

Definition bootasm (fuel : nat) (ret bootmain : Z) : M (mach * D) unit :=
  zoom fst (λ m s, (m, snd s)) zero_segs;;
  zoom snd (λ d s, (fst s, d)) (seta20 fuel);;
  zoom fst (λ m s, (m, snd s)) (protect;; movi RSP start_boot;; calll ret bootmain).

(** ** startothers *)

Context {MM : Mmio D}.

(** The memory of the kernel with its allocator, the devices, and the words [started] of
    the CPUs. *)
Record sost := mk_sost { so_km : kmst; so_dev : D; so_started : list Z }.
Definition on_km {A} : M kmst A → M sost A := zoom so_km (λ k s, mk_sost k (so_dev s) (so_started s)).
Definition on_so_dev {A} : M D A → M sost A := zoom so_dev (λ d s, mk_sost (so_km s) d (so_started s)).

(** The words below the code of entryother.S. *)
Definition hand_over (code stack mpenter dir : Z) (m : memory) : memory :=
  st32 (st32 (st32 m (code - 4) (u32 (stack + KSTACKSIZE))) (code - 8) mpenter) (code - 12) (V2P dir).

(** [others i] is what the other processors do between two looks at [started] of CPU [i]. *)
Fixpoint wait_started (fuel : nat) (others : nat → sost → sost) (i : nat) : M sost unit :=
  match fuel with
  | O => nofuel
  | S fuel =>
      modify (others i);;
      v ← gets (λ s, default 0 (so_started s !! i));
      if v =? 0 then wait_started fuel others i else mret tt
  end.

Fixpoint start_loop (fuel : nat) (others : nat → sost → sost) (code lapic mpenter dir : Z) (boot i : nat) (apicids : list Z) : M sost unit :=
  match apicids with
  | [] => mret tt
  | id :: apicids =>
      (if (i =? boot)%nat then mret tt else
       stack ← on_km kalloc;
       on_km (modify (λ k, set_mem (hand_over code stack mpenter dir (mem k)) k));;
       m ← gets (λ s, mem (so_km s));
       m ← on_so_dev (lapicstartap m lapic id (V2P code));
       on_km (modify (set_mem m));;
       wait_started fuel others i);;
      start_loop fuel others code lapic mpenter dir boot (S i) apicids
  end.

Definition startothers (fuel : nat) (others : nat → sost → sost) (entryother : list Z) (lapic mpenter dir : Z) (boot : nat) (apicids : list Z) : M sost unit :=
  let code := P2V start_ap in
  on_km (modify (λ k, set_mem (st_bytes (mem k) code entryother) k));;
  start_loop fuel others code lapic mpenter dir boot 0 apicids.
End boot.

(** * Descriptors mean what the macros say *)

Lemma land_mod a n : 0 ≤ n → Z.land a (2 ^ n - 1) = a mod 2 ^ n.
Proof. intros H. by rewrite <- Z.land_ones, Z.ones_equiv, Z.sub_1_r by done. Qed.

(** A small number below a constant whose low bits are zero: or is plus. *)
Lemma lor_small c x : 0 ≤ x < 16 → c = 0x90 ∨ c = 0xC0 → Z.lor c x = c + x.
Proof.
  intros Hx Hc. assert (Hall : forallb (λ n, (Z.lor 0x90 n =? 0x90 + n) && (Z.lor 0xC0 n =? 0xC0 + n)) (seqZ 0 16) = true) by reflexivity.
  rewrite forallb_forall in Hall. specialize (Hall x). rewrite <- list_elem_of_In, elem_of_seqZ in Hall. specialize (Hall ltac:(lia)).
  apply andb_true_iff in Hall as [H1%Z.eqb_eq H2%Z.eqb_eq]. by destruct Hc as [-> | ->].
Qed.

Theorem seg_codec type base lim dpl : 0 ≤ type < 16 → 0 ≤ base < 2 ^ 32 → 0 ≤ lim < 2 ^ 32 → 0 ≤ dpl < 4 →
  let d := segdesc_bytes (SEG type base lim dpl) in
  desc_base d = base ∧ desc_limit d = lim / 4096 * 4096 + 4095 ∧ desc_type d = type ∧ desc_dpl d = dpl ∧ desc_present d = true ∧ desc_app d = true ∧
  (dpl = 0 → SEG_ASM type base lim = d).
Proof.
  intros Ht Hb Hl Hd d.
  assert (Ed : d = [lim / 4096 mod 65536 mod 256; lim / 4096 mod 65536 / 256; base mod 65536 mod 256; base mod 65536 / 256; base / 65536 mod 256;
    type + 16 + 32 * dpl + 128; lim / 2 ^ 28 + 192; base / 2 ^ 24]).
  { unfold d, segdesc_bytes, SEG. cbn [lim_15_0 base_15_0 base_23_16 sd_type sd_s sd_dpl sd_p lim_19_16 sd_avl sd_rsv1 sd_db sd_g base_31_24].
    rewrite !Z.shiftr_div_pow2 by lia. change 0xffff with (2 ^ 16 - 1). change 0xff with (2 ^ 8 - 1). rewrite !land_mod by lia.
    repeat (apply (f_equal2 (@cons Z)); [first [reflexivity|lia]|]). done. }
  assert (H5 : ∀ n, Z.testbit n 7 = Z.odd (n / 128)) by (intros n; rewrite Z.testbit_odd, Z.shiftr_div_pow2 by lia; done).
  assert (H4 : ∀ n, Z.testbit n 4 = Z.odd (n / 16)) by (intros n; rewrite Z.testbit_odd, Z.shiftr_div_pow2 by lia; done).
  unfold desc_base, desc_limit, desc_type, desc_dpl, desc_present, desc_app, byte_of. rewrite !Ed. cbn [lookup list_lookup default from_option id]. rewrite !H5, !H4.
  assert (E1 : (lim / 2 ^ 28 + 192) / 128 = 1) by (Z.to_euclidean_division_equations; lia). rewrite E1. cbn [Z.odd].
  assert (E2 : (type + 16 + 32 * dpl + 128) / 128 = 1) by (Z.to_euclidean_division_equations; lia). rewrite E2.
  assert (E3 : (type + 16 + 32 * dpl + 128) / 16 = 1 + 2 * (dpl + 4)) by (Z.to_euclidean_division_equations; lia). rewrite E3, Z.odd_add_mul_2.
  split_and!; [Z.to_euclidean_division_equations; lia..|done|done|].
  intros ->. unfold SEG_ASM. rewrite !Z.shiftr_div_pow2 by lia. change 0xffff with (2 ^ 16 - 1). change 0xff with (2 ^ 8 - 1). change 0xf with (2 ^ 4 - 1). rewrite !land_mod by lia.
  rewrite lor_small by auto. rewrite lor_small by (auto; apply Z.mod_pos_bound; lia). 
  repeat (apply (f_equal2 (@cons Z)); [first [reflexivity|Z.to_euclidean_division_equations; lia]|]). done.
Qed.

(** The table of seginit: code and data for the kernel and for programs, all of them the
    whole 4 GB. *)
Theorem seginit_flat (gdt : list segdesc) (i type dpl : Z) : length gdt = NSEGS →
  (i, type, dpl) ∈ [(SEG_KCODE, Z.lor STA_X STA_R, 0); (SEG_KDATA, STA_W, 0); (SEG_UCODE, Z.lor STA_X STA_R, DPL_USER); (SEG_UDATA, STA_W, DPL_USER)] →
  ∃ d, seginit gdt !! Z.to_nat i = Some d ∧
    desc_base (segdesc_bytes d) = 0 ∧ desc_limit (segdesc_bytes d) = 2 ^ 32 - 1 ∧ desc_type (segdesc_bytes d) = type ∧ desc_dpl (segdesc_bytes d) = dpl.
Proof.
  intros Hl Hi. destruct gdt as [|d0 [|d1 [|d2 [|d3 [|d4 [|d5 [|]]]]]]]; try done. exists (SEG type 0 0xffffffff dpl).
  repeat (apply elem_of_cons in Hi as [[= -> -> ->]|Hi]; [split; [reflexivity|]; split_and!; reflexivity|]). by apply not_elem_of_nil in Hi.
Qed.

(** * Entering the kernel *)

Definition flat_seg : Z * Z := (0, 2 ^ 32 - 1).

Lemma load_seg_real s r v : Z.testbit (rg s CR0) 0 = false → load_seg r v s = Ok (tt, set_seg r v (16 * v, 0xffff) s).
Proof. intros H. unfold load_seg. munfold. by rewrite H. Qed.

Lemma load_seg_flat s r v : Z.testbit (rg s CR0) 0 = true → gdt_bytes s = boot_gdt → (r, v) ∈ [(SCS, 8); (SDS, 16); (SES, 16); (SSS, 16)] →
  load_seg r v s = Ok (tt, set_seg r v flat_seg s).
Proof.
  intros H Hg Hr. unfold load_seg. munfold. rewrite H, Hg. cbn [negb].
  repeat (apply elem_of_cons in Hr as [[= -> ->]|Hr]; [reflexivity|]). by apply not_elem_of_nil in Hr.
Qed.

Lemma load_seg_null s r : Z.testbit (rg s CR0) 0 = true → r ∈ [SFS; SGS] → load_seg r 0 s = Ok (tt, set_seg r 0 (0, -1) s).
Proof.
  intros H Hr. unfold load_seg. munfold. rewrite H. cbn [negb]. repeat (apply elem_of_cons in Hr as [->|Hr]; [reflexivity|]). by apply not_elem_of_nil in Hr.
Qed.

Lemma ax_mod x v : 0 ≤ v < 2 ^ 16 → (x / 2 ^ 16 * 2 ^ 16 + v) mod 2 ^ 16 = v.
Proof. intros H. rewrite Z.add_comm, Z.mod_add by lia. by apply Z.mod_small. Qed.

(** What the start-up code has changed and what it has left alone. *)
Record started (s s' : mach) : Prop := {
  sd_pm : pm s' = pm s;
  sd_cr3 : rg s' CR3 = rg s CR3;
  sd_cr4 : rg s' CR4 = rg s CR4;
  sd_ints : ints s' = false }.

Lemma zero_segs_run s : Z.testbit (rg s CR0) 0 = false → ∃ s', zero_segs s = Ok (tt, s') ∧ started s s' ∧ rg s' CR0 = rg s CR0.
Proof.
  intros H. unfold zero_segs, cli, movw_ax, movw_seg. munfold. cbn [rg set_rg set_ints]. rewrite !load_seg_real by done. eexists. split; [reflexivity|]. done.
Qed.

(** Protected mode with flat segments. *)
Record flat (s : mach) : Prop := {
  fl_pe : Z.testbit (rg s CR0) 0 = true;
  fl_cs : cache s SCS = flat_seg;
  fl_ds : cache s SDS = flat_seg;
  fl_es : cache s SES = flat_seg;
  fl_ss : cache s SSS = flat_seg }.

Lemma movw_seg_flat s r : Z.testbit (rg s CR0) 0 = true → gdt_bytes s = boot_gdt → rg s RAX mod 2 ^ 16 = 16 → r ∈ [SDS; SES; SSS] →
  movw_seg r s = Ok (tt, set_seg r 16 flat_seg s).
Proof.
  intros H Hg Ha Hr. unfold movw_seg. munfold. rewrite Ha. apply load_seg_flat; [done|done|]. apply elem_of_cons. right. set_solver.
Qed.

Lemma movw_seg_null s r : Z.testbit (rg s CR0) 0 = true → rg s RAX mod 2 ^ 16 = 0 → r ∈ [SFS; SGS] → movw_seg r s = Ok (tt, set_seg r 0 (0, -1) s).
Proof. intros H Ha Hr. unfold movw_seg. munfold. rewrite Ha. by apply load_seg_null. Qed.

Lemma movw_ax_bind {A} v (k : unit → M mach A) s : (movw_ax v ≫= k) s = k tt (set_rg RAX (rg s RAX / 2 ^ 16 * 2 ^ 16 + v) s).
Proof. done. Qed.

Lemma mov_to_cr0 s : Z.testbit (rg s RAX) 0 = true → mov_to_cr CR0 s = Ok (tt, set_rg CR0 (rg s RAX) s).
Proof. intros H. unfold mov_to_cr. munfold. by rewrite H, andb_false_r. Qed.

Lemma protect_run s : Z.testbit (rg s CR0) 31 = false → ints s = false →
  ∃ s', protect s = Ok (tt, s') ∧ started s s' ∧ flat s' ∧ rg s' CR0 = Z.lor (rg s CR0) CR0_PE.
Proof.
  intros H Hi. assert (Hb : Z.testbit (Z.lor (rg s CR0) CR0_PE) 0 = true) by by rewrite Z.lor_spec, orb_true_r.
  unfold protect. unfold lgdt at 1. rewrite modify_bind. unfold mov_from_cr at 1. rewrite modify_bind. unfold orl_eax at 1. rewrite modify_bind.
  set (s1 := set_rg RAX _ (set_rg RAX _ _)). assert (E1 : mov_to_cr CR0 s1 = Ok (tt, set_rg CR0 (Z.lor (rg s CR0) CR0_PE) s1)).
  { by apply mov_to_cr0. }
  mrun E1. set (s2 := set_rg CR0 _ s1). assert (B2 : Z.testbit (rg s2 CR0) 0 = true) by exact Hb.
  mrun (load_seg_flat s2 SCS 8 B2 eq_refl ltac:(set_solver)). set (s3 := set_seg SCS 8 _ s2). rewrite movw_ax_bind. set (s4 := set_rg RAX _ s3).
  assert (A4 : rg s4 RAX mod 2 ^ 16 = 16) by (apply (ax_mod (rg s3 RAX) 16); lia).
  mrun (movw_seg_flat s4 SDS B2 eq_refl A4 ltac:(set_solver)). mrun (movw_seg_flat (set_seg SDS 16 flat_seg s4) SES B2 eq_refl A4 ltac:(set_solver)).
  mrun (movw_seg_flat (set_seg SES 16 flat_seg (set_seg SDS 16 flat_seg s4)) SSS B2 eq_refl A4 ltac:(set_solver)). set (s5 := set_seg SSS 16 _ _).
  rewrite movw_ax_bind. set (s6 := set_rg RAX _ s5). assert (A6 : rg s6 RAX mod 2 ^ 16 = 0) by (apply (ax_mod (rg s5 RAX) 0); lia).
  mrun (movw_seg_null s6 SFS B2 A6 ltac:(set_solver)). rewrite (movw_seg_null (set_seg SFS 0 (0, -1) s6) SGS B2 A6 ltac:(set_solver)).
  eexists. split; [reflexivity|]. split; [by split|]. split; [by split|done].
Qed.

(** Paging with the table entrypgdir. *)
Record entry_paging (s : mach) : Prop := {
  ep_pg : Z.testbit (rg s CR0) 31 = true;
  ep_pse : Z.testbit (rg s CR4) 4 = true;
  ep_dir : ∀ i, 0 ≤ i < NPDENTRIES → ld32 (pm s) (rg s CR3 + 4 * i) = entrypgdir i }.

(** The first 4 MB of physical memory appear at 0 and at KERNBASE, for reading and
    writing, and nothing else does. *)
Lemma entry_map s write la : entry_paging s → 0 ≤ la < 2 ^ 32 → page_addr s write la =
  if la <? 2 ^ 22 then Some la else if in_range la KERNBASE (2 ^ 22) then Some (la - KERNBASE) else None.
Proof.
  intros [Hpg Hpse Hdir] Hla. unfold page_addr. rewrite Hpg, Hpse, Hdir by (unfold NPDENTRIES; Z.to_euclidean_division_equations; lia). cbn [negb]. unfold entrypgdir, in_range.
  change (Z.shiftr KERNBASE PDXSHIFT) with 512. unfold KERNBASE.
  destruct (Z.eqb_spec (la / 2 ^ 22) 0) as [E|E]; [|destruct (Z.eqb_spec (la / 2 ^ 22) 512) as [E'|E']]; cbn [orb].
  - rewrite (proj2 (Z.ltb_lt la (2 ^ 22))) by (Z.to_euclidean_division_equations; lia). cbn. rewrite !orb_true_r. cbn. f_equal. apply Z.mod_small. Z.to_euclidean_division_equations; lia.
  - rewrite (proj2 (Z.ltb_ge la (2 ^ 22))) by (Z.to_euclidean_division_equations; lia).
    rewrite (proj2 (Z.leb_le _ la)), (proj2 (Z.ltb_lt la _)) by (Z.to_euclidean_division_equations; lia). cbn. rewrite !orb_true_r. cbn. f_equal.
    change (Z.lor (Z.lor (Z.lor 0 PTE_P) PTE_W) PTE_PS / 2 ^ 22) with 0. Z.to_euclidean_division_equations; lia.
  - rewrite (proj2 (Z.ltb_ge la (2 ^ 22))) by (Z.to_euclidean_division_equations; lia). cbn.
    destruct (Z.leb_spec (2 ^ 31) la); [|by rewrite (proj2 (Z.leb_gt _ la)) by lia]. rewrite (proj2 (Z.ltb_ge la _)) by (Z.to_euclidean_division_equations; lia). by rewrite andb_false_r.
Qed.

Lemma word_addr_flat s write r off : cache s r = flat_seg → 0 ≤ off → off + 3 < 2 ^ 32 → word_addr s write r off = page_addr s write off.
Proof.
  intros Hc H0 H1. unfold word_addr. rewrite Hc. cbn [flat_seg]. unfold flat_seg. rewrite (proj2 (Z.leb_le 0 off)), (proj2 (Z.leb_le (off + 3) _)) by lia. cbn [andb].
  unfold u32. by rewrite Z.add_0_l, Z.mod_small by lia.
Qed.

Lemma load_word_flat s r off a : cache s r = flat_seg → 0 ≤ off → off + 3 < 2 ^ 32 → page_addr s false off = Some a → load_word r off s = Ok (ld32 (pm s) a, s).
Proof. intros Hc H0 H1 Ha. unfold load_word. munfold. by rewrite word_addr_flat, Ha. Qed.

Lemma store_word_flat s r off v a : cache s r = flat_seg → 0 ≤ off → off + 3 < 2 ^ 32 → page_addr s true off = Some a → store_word r off v s = Ok (tt, set_pm (st32 (pm s) a v) s).
Proof. intros Hc H0 H1 Ha. unfold store_word. munfold. by rewrite word_addr_flat, Ha. Qed.

(** Physical memory, which the kernel sees from KERNBASE on. *)
Definition phys (m : memory) : memory := λ a, m (P2V a).

Lemma phys_ld32 m a : 0 ≤ a → a + 4 ≤ 2 ^ 31 → ld32 (phys m) a = ld32 m (a + KERNBASE).
Proof.
  intros H0 H1. assert (E : ∀ j, 0 ≤ j < 4 → phys m (a + j) = m (a + KERNBASE + j)).
  { intros j Hj. unfold phys, P2V, u32. rewrite Z.mod_small by (unfold KERNBASE; lia). f_equal. lia. }
  unfold ld32, ld8. rewrite !E by lia. specialize (E 0 ltac:(lia)). rewrite !Z.add_0_r in E. by rewrite E.
Qed.

(** The words that startothers leaves for the new processor, in physical memory. *)
Record handed (m : memory) (stack mpenter dir : Z) : Prop := {
  hd_stack : ld32 m (start_ap - 4) = stack + KSTACKSIZE;
  hd_enter : ld32 m (start_ap - 8) = mpenter;
  hd_dir : ld32 m (start_ap - 12) = dir - KERNBASE;
  hd_table : ∀ i, 0 ≤ i < NPDENTRIES → ld32 m (dir - KERNBASE + 4 * i) = entrypgdir i }.

Section ap.
  Context (stack mpenter dir : Z).
  Context (Hdir : P2V EXTMEM ≤ dir) (Hsep : dir + PGSIZE ≤ stack) (Hstack : stack + PGSIZE ≤ P2V (4 * 1024 * 1024)) (Hmp : 0 ≤ mpenter < 2 ^ 32).

(** Turning paging on. *)
Lemma cr0_on x : Z.testbit x 0 = true → Z.testbit (Z.lor x (Z.lor (Z.lor CR0_PE CR0_PG) CR0_WP)) 31 = true ∧
  Z.testbit (Z.lor x (Z.lor (Z.lor CR0_PE CR0_PG) CR0_WP)) 0 = true ∧ Z.testbit (Z.lor x (Z.lor (Z.lor CR0_PE CR0_PG) CR0_WP)) 16 = true.
Proof. intros H. rewrite !(Z.lor_spec x). split_and!; apply orb_true_r. Qed.

Lemma mov_cr4 s : ∃ s', (mov_from_cr CR4;; orl_eax CR4_PSE;; mov_to_cr CR4) s = Ok (tt, s') ∧ rg s' CR4 = Z.lor (rg s CR4) CR4_PSE ∧ rg s' CR0 = rg s CR0 ∧ cache s' = cache s ∧ pm s' = pm s ∧ ints s' = ints s.
Proof. eexists. split; [reflexivity|]. done. Qed.

Lemma mov_cr3 s v : load_word SDS (start_ap - 12) s = Ok (v, s) →
  ∃ s', (movl_from RAX (start_ap - 12);; mov_to_cr CR3) s = Ok (tt, s') ∧ rg s' CR3 = v ∧ rg s' CR4 = rg s CR4 ∧ rg s' CR0 = rg s CR0 ∧ cache s' = cache s ∧ pm s' = pm s ∧ ints s' = ints s.
Proof. intros H. unfold movl_from. munfold. rewrite H. eexists. split; [reflexivity|]. done. Qed.

Lemma mov_cr0 s : Z.testbit (rg s CR0) 0 = true →
  ∃ s', (mov_from_cr CR0;; orl_eax (Z.lor (Z.lor CR0_PE CR0_PG) CR0_WP);; mov_to_cr CR0) s = Ok (tt, s') ∧
    rg s' CR0 = Z.lor (rg s CR0) (Z.lor (Z.lor CR0_PE CR0_PG) CR0_WP) ∧ rg s' CR3 = rg s CR3 ∧ rg s' CR4 = rg s CR4 ∧ cache s' = cache s ∧ pm s' = pm s ∧ ints s' = ints s.
Proof.
  intros H. destruct (cr0_on _ H) as (_ & H0 & _). unfold mov_from_cr, orl_eax. rewrite !modify_bind. rewrite mov_to_cr0 by exact H0. eexists. split; [reflexivity|]. done.
Qed.
Lemma pushl_run s v sp s1 : u32 (rg s RSP - 4) = sp → store_word SSS sp v s = Ok (tt, s1) → pushl v s = Ok (tt, set_rg RSP sp s1).
Proof. intros <- H. unfold pushl. munfold. by rewrite H. Qed.

(** The call of mpenter. *)
Lemma call_run s ret v : flat s → entry_paging s → rg s RSP = stack + KSTACKSIZE → rg s CR3 = dir - KERNBASE →
  load_word SDS (start_ap - 8) s = Ok (v, s) → ∃ s', callm ret (start_ap - 8) s = Ok (tt, s') ∧
    rg s' RIP = v ∧ rg s' RSP = stack + KSTACKSIZE - 4 ∧ flat s' ∧ entry_paging s' ∧ rg s' CR3 = rg s CR3 ∧ rg s' CR0 = rg s CR0 ∧ ints s' = ints s ∧
    ld32 (pm s') (V2P (stack + KSTACKSIZE - 4)) = u32 ret.
Proof.
  intros Hf Hp Hsp Hcr Hv. change (P2V EXTMEM) with 0x80100000 in *. change (P2V (4 * 1024 * 1024)) with 0x80400000 in *. unfold PGSIZE, KSTACKSIZE, KERNBASE in *.
  set (sp := stack + 4096 - 4) in *. assert (Esp : u32 (rg s RSP - 4) = sp) by (rewrite Hsp; apply u32_small; lia).
  assert (Ep : page_addr s true sp = Some (sp - 0x80000000)).
  { rewrite entry_map by (done || lia). unfold in_range, KERNBASE. rewrite (proj2 (Z.ltb_ge sp _)), (proj2 (Z.leb_le _ sp)), (proj2 (Z.ltb_lt sp _)) by lia. done. }
  pose proof (store_word_flat s SSS sp ret _ (fl_ss _ Hf) ltac:(lia) ltac:(lia) Ep) as Es. pose proof (pushl_run s ret sp _ Esp Es) as Ec.
  unfold callm. mrun Hv. mrun Ec. eexists. split; [reflexivity|]. split; [done|]. split; [done|]. split; [by destruct Hf; split|]. split; [|split_and!; [done..|]].
  - destruct Hp as [H1 H2 H3]. split; [done|done|]. intros i Hi. rewrite <- H3 by done. cbn [pm set_rg set_pm rg]. cbn. rewrite Hcr. unfold NPDENTRIES in Hi. apply ld32_st32_ne. lia.
  - cbn. unfold V2P, KERNBASE. rewrite u32_small by lia. apply ld32_st32_eq.
Qed.
(** A processor that finds the words in memory arrives in mpenter. *)
Record in_mpenter (ret : Z) (s : mach) : Prop := {
  im_rip : rg s RIP = mpenter;
  im_rsp : rg s RSP = stack + KSTACKSIZE - 4;
  im_ret : ld32 (pm s) (V2P (stack + KSTACKSIZE - 4)) = u32 ret;
  im_flat : flat s;
  im_paging : entry_paging s;
  im_cr3 : rg s CR3 = V2P dir;
  im_wp : Z.testbit (rg s CR0) 16 = true;
  im_ints : ints s = false }.

Lemma entryother_run s ret : Z.testbit (rg s CR0) 0 = false → Z.testbit (rg s CR0) 31 = false → handed (pm s) stack mpenter dir →
  ∃ s', entryother ret s = Ok (tt, s') ∧ in_mpenter ret s'.
Proof.
  intros H0 H31 [Hs He Hd Ht]. unfold entryother. destruct (zero_segs_run s H0) as (s1 & E1 & S1 & C1). mrun E1. rewrite <- C1 in H31.
  destruct (protect_run s1 H31 (sd_ints _ _ S1)) as (s2 & E2 & S2 & F2 & C2). mrun E2.
  destruct (mov_cr4 s2) as (s3 & E3 & A3 & B3 & K3 & P3 & I3). rewrite (then3 _ _ _ _ _ _ E3).
  assert (Hpm : pm s3 = pm s) by by rewrite P3, (sd_pm _ _ S2), (sd_pm _ _ S1).
  assert (Hno : Z.testbit (rg s3 CR0) 31 = false) by by rewrite B3, C2, Z.lor_spec, H31.
  assert (L3 : load_word SDS (start_ap - 12) s3 = Ok (dir - KERNBASE, s3)).
  { rewrite (load_word_flat s3 SDS _ (start_ap - 12)); [by rewrite Hpm, Hd|by rewrite K3; apply F2|done|done|]. unfold page_addr. by rewrite Hno. }
  destruct (mov_cr3 s3 _ L3) as (s4 & E4 & A4 & B4 & C4 & K4 & P4 & I4). rewrite (then2 _ _ _ _ _ E4).
  assert (Hpe : Z.testbit (rg s4 CR0) 0 = true) by (rewrite C4, B3; apply F2).
  destruct (mov_cr0 s4 Hpe) as (s5 & E5 & A5 & B5 & C5 & K5 & P5 & I5). rewrite (then3 _ _ _ _ _ _ E5). destruct (cr0_on _ Hpe) as (G31 & G0 & G16).
  assert (Hk : cache s5 = cache s2) by by rewrite K5, K4, K3. assert (Hpm5 : pm s5 = pm s) by by rewrite P5, P4.
  assert (F5 : flat s5) by (destruct F2; split; [by rewrite A5|by rewrite Hk..]).
  assert (Hp5 : entry_paging s5).
  { split; [by rewrite A5|rewrite C5, B4, A3, Z.lor_spec; apply orb_true_r|]. intros i Hi. rewrite Hpm5, B5, A4. by apply Ht. }
  assert (Hlow : ∀ x, 0 ≤ x < 2 ^ 22 → page_addr s5 false x = Some x) by (intros x Hx; rewrite entry_map, (proj2 (Z.ltb_lt x _)) by (done || lia); done).
  pose proof (load_word_flat s5 SDS (start_ap - 4) _ (fl_ds _ F5) ltac:(done) ltac:(done) (Hlow (start_ap - 4) ltac:(done))) as L5. rewrite Hpm5, Hs in L5.
  assert (E6 : movl_from RSP (start_ap - 4) s5 = Ok (tt, set_rg RSP (stack + KSTACKSIZE) s5)) by (unfold movl_from; by mrun L5). mrun E6. set (s6 := set_rg RSP _ s5).
  assert (F6 : flat s6) by (destruct F5; by split). assert (Hp6 : entry_paging s6) by (destruct Hp5; by split).
  pose proof (load_word_flat s6 SDS (start_ap - 8) _ (fl_ds _ F6) ltac:(done) ltac:(done) (Hlow (start_ap - 8) ltac:(done))) as L6. change (pm s6) with (pm s5) in L6. rewrite Hpm5, He in L6.
  assert (Hcr : rg s6 CR3 = dir - KERNBASE) by (change (rg s6 CR3) with (rg s5 CR3); by rewrite B5).
  destruct (call_run s6 ret _ F6 Hp6 eq_refl Hcr L6) as (s7 & E7 & R1 & R2 & R3 & R4 & R5 & R6 & R7 & R8). exists s7. split; [exact E7|].
  split; [done..| | |].
  - rewrite R5, Hcr. unfold V2P. symmetry. apply u32_small. change (P2V EXTMEM) with 0x80100000 in *. change (P2V (4 * 1024 * 1024)) with 0x80400000 in *. unfold PGSIZE, KERNBASE in *. lia.
  - rewrite R6. change (rg s6 CR0) with (rg s5 CR0). by rewrite A5.
  - rewrite R7. change (ints s6) with (ints s5). by rewrite I5, I4, I3, (sd_ints _ _ S2).
Qed.

(** What startothers has stored is what entryother.S loads; lapicstartap stores below. *)
Lemma handed_over m m' : (∀ i, 0 ≤ i < NPDENTRIES → ld32 m (dir + 4 * i) = entrypgdir i) →
  (∀ b, P2V 0x1000 ≤ b → m' b = hand_over (P2V start_ap) stack mpenter dir m b) → handed (phys m') stack mpenter dir.
Proof.
  intros Ht Hm'. change (P2V EXTMEM) with 0x80100000 in *. change (P2V (4 * 1024 * 1024)) with 0x80400000 in *. change (P2V 0x1000) with 0x80001000 in *. unfold PGSIZE, KSTACKSIZE in *.
  assert (E : ∀ a, 0x80001000 ≤ a → ld32 m' a = ld32 (hand_over (P2V start_ap) stack mpenter dir m) a) by (intros a Ha; unfold ld32, ld8; by rewrite !Hm' by lia).
  unfold hand_over, KSTACKSIZE in E. change (P2V start_ap) with 0x80007000 in E.
  split; unfold start_ap, NPDENTRIES in *.
  - rewrite phys_ld32, E by (unfold KERNBASE; lia). unfold KERNBASE. rewrite !ld32_st32_ne by lia. rewrite ld32_st32_eq. rewrite !u32_small by (rewrite ?u32_small; lia). done.
  - rewrite phys_ld32, E by (unfold KERNBASE; lia). unfold KERNBASE. rewrite ld32_st32_ne by lia. rewrite ld32_st32_eq. by apply u32_small.
  - rewrite phys_ld32, E by (unfold KERNBASE; lia). unfold KERNBASE. rewrite ld32_st32_eq. unfold V2P, KERNBASE. rewrite !u32_small by (rewrite ?u32_small; lia). done.
  - intros i Hi. rewrite phys_ld32, E by (unfold KERNBASE; lia). unfold KERNBASE. rewrite !ld32_st32_ne by lia. rewrite <- Ht by done. f_equal. lia.
Qed.
End ap.

Lemma lapicstartap_run {D} {P : PortIO D} {MM : Mmio D} (d : D) m lapic id addr :
  ∃ m' d', lapicstartap m lapic id addr d = Ok (m', d') ∧ ∀ b, P2V 0x1000 ≤ b → m' b = m b.
Proof.
  unfold lapicstartap, lapicw, mmio_st, mmio_ld, outb. munfold. repeat (destruct (dev_ld _ _) as [? ?]; cbn beta iota). do 2 eexists. split; [reflexivity|]. intros b Hb. change (P2V 0x1000) with 0x80001000 in Hb.
  change (P2V (Z.lor (Z.shiftl 0x40 4) 0x67)) with 0x80000467. unfold st8. by rewrite !(proj2 (Z.eqb_neq b _)) by lia.
Qed.

(** C38. A processor that startothers starts arrives in mpenter. Take any memory of the
    kernel with the table entrypgdir, and the page that kalloc gave for the stack. After
    startothers has stored the three words below the code at 0x7000 and lapicstartap has
    run, a processor that starts in real mode at 0x7000 executes entryother.S without a
    fault and calls mpenter: its stack pointer is at the end of its own stack, below the
    return address, its segments are flat, interrupts are off, and paging is on, with write
    protection, through entrypgdir. *)
Theorem ap_starts {D} {P : PortIO D} {MM : Mmio D} (d : D) (m : memory) (s : mach) (stack mpenter dir lapic id ret : Z)
  (Hreal : Z.testbit (rg s CR0) 0 = false) (Hpaging : Z.testbit (rg s CR0) 31 = false)
  (Htable : ∀ i, 0 ≤ i < NPDENTRIES → ld32 m (dir + 4 * i) = entrypgdir i)
  (Hdir : P2V EXTMEM ≤ dir) (Hsep : dir + PGSIZE ≤ stack) (Hstack : stack + PGSIZE ≤ P2V (4 * 1024 * 1024)) (Hmp : 0 ≤ mpenter < 2 ^ 32) :
  runs (lapicstartap (hand_over (P2V start_ap) stack mpenter dir m) lapic id (V2P (P2V start_ap))) d (λ m' _,
    ∃ s', entryother ret (set_pm (phys m') s) = Ok (tt, s') ∧ in_mpenter stack mpenter dir ret s').
Proof.
  destruct (lapicstartap_run d (hand_over (P2V start_ap) stack mpenter dir m) lapic id (V2P (P2V start_ap))) as (m' & d' & E & Hm').
  exists m', d'. split; [done|]. apply entryother_run; [done..|]. by apply (handed_over stack mpenter dir Hdir Hsep Hstack Hmp m).
Qed.

(** ** startothers *)

Section startothers.
  Context {KI : KernelImage} {D : Type} {P : PortIO D} {MM : Mmio D}.
  Context (others : nat → @sost D → @sost D) (patience : @sost D → nat) (mpenter dir : Z).

(** While startothers waits for a processor, that one finds its words in memory, and the
    free pages are [l]. *)
Record waiting (stack : Z) (l : list Z) (s : @sost D) : Prop := {
  wt_handed : handed (phys (mem (so_km s))) stack mpenter dir;
  wt_free : wf_kmem (so_km s) l;
  wt_table : ∀ i, 0 ≤ i < NPDENTRIES → ld32 (mem (so_km s)) (dir + 4 * i) = entrypgdir i }.

(** What is relied on of a processor that has been handed a stack: it leaves the words, the
    table and the free pages alone, and sets [started] before the patience is over. *)
Context (Hcomes : ∀ i s stack l, waiting stack l s → waiting stack l (others i s) ∧
  (default 0 (so_started (others i s) !! i) = 0 → (patience (others i s) < patience s)%nat)).
Context (fuel : nat) (Hfuel : ∀ s, (patience s < fuel)%nat).
Context (Hdir : P2V EXTMEM ≤ dir) (Hend : dir + PGSIZE ≤ kend) (Hmp : 0 ≤ mpenter < 2 ^ 32).

Lemma wait_started_run i stack l n : ∀ s, (patience s < n)%nat → waiting stack l s → runs (wait_started n others i) s (λ _ s', waiting stack l s').
Proof.
  induction n as [|n IH]; intros s Hn Hw; [lia|]. cbn [wait_started]. destruct (Hcomes i s stack l Hw) as [Hw' Hp]. apply runs_bind, runs_modify, runs_bind, runs_gets.
  destruct (Z.eqb_spec (default 0 (so_started (others i s) !! i)) 0) as [E|E]; [|by apply runs_ret]. apply IH; [|done]. specialize (Hp E). lia.
Qed.

(** Memory that differs only below the kernel has the same table and free pages. *)
Lemma low_change k l m' : wf_kmem k l → (∀ b, KERNLINK ≤ b → m' b = mem k b) → wf_kmem (set_mem m' k) l ∧ ∀ a, KERNLINK ≤ a → ld32 m' a = ld32 (mem k) a.
Proof.
  intros [Hc Hn Hg Hu] Hm. assert (E : ∀ a, KERNLINK ≤ a → ld32 m' a = ld32 (mem k) a) by (intros a Ha; unfold ld32, ld8; by rewrite !Hm by lia). split; [|done].
  split; cbn; [|done..]. eapply chain_frame; [|done]. intros q Hq. apply E. rewrite Forall_forall in Hg. destruct (good_page_range q (Hg q Hq)). done.
Qed.

(** Starting one processor: a page is taken for its stack. *)
Lemma start_one_run s stack l lapic id i : wf_kmem (so_km s) (stack :: l) → (∀ j, 0 ≤ j < NPDENTRIES → ld32 (mem (so_km s)) (dir + 4 * j) = entrypgdir j) →
  stack + PGSIZE ≤ P2V (4 * 1024 * 1024) →
  runs (stack ← on_km kalloc;
        on_km (modify (λ k, set_mem (hand_over (P2V start_ap) stack mpenter dir (mem k)) k));;
        m ← gets (λ s, mem (so_km s));
        m ← on_so_dev (lapicstartap m lapic id (V2P (P2V start_ap)));
        on_km (modify (set_mem m));;
        wait_started fuel others i) s (λ _ s', waiting stack l s').
Proof.
  intros Hw Ht Hs. pose proof (wf_good _ _ Hw) as Hg. apply Forall_cons in Hg as [Hg _]. pose proof (good_page_range stack Hg) as Hr.
  apply runs_bind, runs_zoom. eapply runs_mono; [apply (kalloc_spec _ _ Hw)|]. intros r k (Em & _ & Hw1 & ->). cbn [tail] in Hw1.
  apply runs_bind, runs_zoom, runs_modify, runs_bind, runs_gets, runs_bind, runs_zoom. cbn [so_km so_dev so_started mem set_mem].
  destruct (lapicstartap_run (so_dev s) (hand_over (P2V start_ap) stack mpenter dir (mem k)) lapic id (V2P (P2V start_ap))) as (m' & d' & E & Hm'). exists m', d'. split; [done|].
  apply runs_bind, runs_zoom, runs_modify. cbn [so_km so_dev so_started].
  assert (Hlow : ∀ b, KERNLINK ≤ b → m' b = mem k b).
  { intros b Hb. change KERNLINK with 0x80100000 in Hb. rewrite Hm' by (change (P2V 0x1000) with 0x80001000; lia). unfold hand_over, st32, st8. change (P2V start_ap) with 0x80007000.
    by rewrite !(proj2 (Z.eqb_neq b _)) by lia. }
  destruct (low_change k l m' Hw1 Hlow) as [Hw2 Hld]. apply wait_started_run; [apply Hfuel|]. rewrite Em in *.
  assert (Hsep : dir + PGSIZE ≤ stack) by (destruct Hg as (_ & ? & _); lia). split; cbn [so_km mem set_mem].
  - by apply (handed_over stack mpenter dir Hdir Hsep Hs Hmp (mem (so_km s))).
  - exact Hw2.
  - intros j Hj. rewrite Hld; [by apply Ht|]. change (P2V EXTMEM) with 0x80100000 in Hdir. change KERNLINK with 0x80100000. lia.
Qed.

(** The processors other than the boot processor. *)
Definition aps (boot i n : nat) : nat := length (filter (λ j, j ≠ boot) (seq i n)).

Lemma start_loop_run lapic boot ids : ∀ i stacks l s, wf_kmem (so_km s) (stacks ++ l) → (∀ j, 0 ≤ j < NPDENTRIES → ld32 (mem (so_km s)) (dir + 4 * j) = entrypgdir j) →
  length stacks = aps boot i (length ids) → Forall (λ p, p + PGSIZE ≤ P2V (4 * 1024 * 1024)) stacks →
  runs (start_loop fuel others (P2V start_ap) lapic mpenter dir boot i ids) s (λ _ s', wf_kmem (so_km s') l).
Proof.
  induction ids as [|id ids IH]; intros i stacks l s Hw Ht Hn Hs; cbn [start_loop]; [apply runs_ret; by destruct stacks|].
  unfold aps in Hn. cbn [length seq] in Hn. rewrite filter_cons in Hn. apply runs_bind. destruct (Nat.eqb_spec i boot) as [E|E].
  - rewrite decide_False in Hn by (intros H; by apply H). apply runs_ret. by apply (IH (S i) stacks l).
  - rewrite decide_True in Hn by done. destruct stacks as [|stack stacks]; [done|]. apply Forall_cons in Hs as [Hs1 Hs2].
    eapply runs_mono; [by apply (start_one_run s stack (stacks ++ l))|]. intros _ s' [_ W2 W3]. apply (IH (S i) stacks l); [done|done| |done]. cbn in Hn. by injection Hn.
Qed.

(** startothers starts every processor but the one it runs on: each finds its words, with
    a page of its own as its stack, and startothers returns with exactly these pages taken
    from the allocator. *)
Theorem startothers_starts (code : list Z) lapic boot ids stacks l s : Z.of_nat (length code) ≤ PGSIZE →
  wf_kmem (so_km s) (stacks ++ l) → (∀ j, 0 ≤ j < NPDENTRIES → ld32 (mem (so_km s)) (dir + 4 * j) = entrypgdir j) →
  length stacks = aps boot 0 (length ids) → Forall (λ p, p + PGSIZE ≤ P2V (4 * 1024 * 1024)) stacks →
  runs (startothers fuel others code lapic mpenter dir boot ids) s (λ _ s', wf_kmem (so_km s') l).
Proof.
  intros Hc Hw Ht Hn Hs. unfold startothers. apply runs_bind, runs_zoom, runs_modify.
  assert (E : ∀ a, KERNLINK ≤ a → ld32 (st_bytes (mem (so_km s)) (P2V start_ap) code) a = ld32 (mem (so_km s)) a).
  { intros a Ha. change KERNLINK with 0x80100000 in Ha. change (P2V start_ap) with 0x80007000. unfold PGSIZE in Hc. unfold ld32. by rewrite !st_bytes_out by lia. }
  apply (start_loop_run lapic boot ids 0 stacks l); cbn [so_km mem set_mem]; [| |done|done].
  - destruct Hw as [W1 W2 W3 W4]. split; cbn; [|done..]. eapply chain_frame; [|done]. intros q Hq. apply E. rewrite Forall_forall in W3. by destruct (good_page_range q (W3 q Hq)).
  - intros j Hj. rewrite E; [by apply Ht|]. change (P2V EXTMEM) with 0x80100000 in Hdir. change KERNLINK with 0x80100000. lia.
Qed.
End startothers.

(** entry.S: the boot processor arrives in main on the static stack, with the same paging. *)
Theorem entry_reaches_main (s : mach) (dir stack main : Z) : flat s → P2V EXTMEM ≤ dir < P2V (4 * 1024 * 1024) → 0 ≤ stack < 2 ^ 32 - KSTACKSIZE →
  (∀ i, 0 ≤ i < NPDENTRIES → ld32 (pm s) (dir - KERNBASE + 4 * i) = entrypgdir i) →
  ∃ s', entry dir stack main s = Ok (tt, s') ∧ rg s' RIP = main ∧ rg s' RSP = stack + KSTACKSIZE ∧ flat s' ∧ entry_paging s' ∧ pm s' = pm s.
Proof.
  intros Hf Hd Hs Ht. change (P2V EXTMEM) with 0x80100000 in *. change (P2V (4 * 1024 * 1024)) with 0x80400000 in *. unfold KSTACKSIZE in *. unfold entry.
  destruct (mov_cr4 s) as (s3 & E3 & A3 & B3 & K3 & P3 & I3). rewrite (then3 _ _ _ _ _ _ E3). unfold movi, mov_from_cr, orl_eax. rewrite modify_bind.
  assert (E4 : mov_to_cr CR3 (set_rg RAX (V2P dir) s3) = Ok (tt, set_rg CR3 (V2P dir) (set_rg RAX (V2P dir) s3))) by done. mrun E4. rewrite !modify_bind.
  set (s5 := set_rg RAX (Z.lor _ (Z.lor CR0_PG CR0_WP)) _).
  assert (Hv : Z.testbit (rg s5 RAX) 0 = true) by (change (Z.testbit (Z.lor (rg s3 CR0) (Z.lor CR0_PG CR0_WP)) 0 = true); by rewrite Z.lor_spec, B3, (fl_pe _ Hf)).
  mrun (mov_to_cr0 s5 Hv). rewrite !modify_bind. eexists. split; [reflexivity|].
  split; [done|]. split; [cbn; apply u32_small; lia|]. destruct Hf as [F1 F2 F3 F4 F5]. split; [split; [exact Hv|cbn; by rewrite K3..]|]. split; [|by cbn].
  split; [change (Z.testbit (Z.lor (rg s3 CR0) (Z.lor CR0_PG CR0_WP)) 31 = true); rewrite Z.lor_spec; apply orb_true_r|change (Z.testbit (rg s3 CR4) 4 = true); rewrite A3, Z.lor_spec; apply orb_true_r|]. 
  intros i Hi. assert (EV : V2P dir = dir - KERNBASE) by (apply u32_small; unfold KERNBASE; lia). rewrite <- Ht, <- EV by done. cbn. by rewrite P3.
Qed.

(** bootasm.S: once the keyboard controller has answered, bootmain is called in protected
    mode on the stack below the boot loader. *)
Theorem bootasm_calls_bootmain {D} {P : PortIO D} (s : mach) (d d' : D) fuel ret bootmain :
  Z.testbit (rg s CR0) 0 = false → Z.testbit (rg s CR0) 31 = false → seta20 fuel d = Ok (tt, d') →
  ∃ s', bootasm fuel ret bootmain (s, d) = Ok (tt, (s', d')) ∧ rg s' RIP = bootmain ∧ rg s' RSP = start_boot - 4 ∧ flat s' ∧ ints s' = false ∧
    pm s' = st32 (pm s) (start_boot - 4) ret.
Proof.
  intros H0 H31 Hd. destruct (zero_segs_run s H0) as (s1 & E1 & S1 & C1). rewrite <- C1 in H31. destruct (protect_run s1 H31 (sd_ints _ _ S1)) as (s2 & E2 & S2 & F2 & C2).
  unfold bootasm. rewrite (bind_eq _ _ _ _ _ (zoom_eq fst _ _ (s, d) _ _ E1)). cbn beta iota. cbn [snd]. rewrite (bind_eq _ _ _ _ _ (zoom_eq snd _ _ (s1, d) _ _ Hd)). cbn beta iota. cbn [fst].
  set (s3 := set_rg RSP start_boot s2). assert (F3 : flat s3) by (destruct F2; by split).
  assert (Ep : page_addr s3 true (start_boot - 4) = Some (start_boot - 4)).
  { unfold page_addr. change (rg s3 CR0) with (rg s2 CR0). by rewrite C2, Z.lor_spec, H31. }
  pose proof (store_word_flat s3 SSS (start_boot - 4) ret _ (fl_ss _ F3) ltac:(done) ltac:(done) Ep) as Es. pose proof (pushl_run s3 ret (start_boot - 4) _ eq_refl Es) as Ec.
  assert (Et : (protect;; movi RSP start_boot;; calll ret bootmain) s1 = Ok (tt, set_rg RIP bootmain (set_rg RSP (start_boot - 4) (set_pm (st32 (pm s3) (start_boot - 4) ret) s3)))).
  { mrun E2. unfold movi. rewrite modify_bind. fold s3. unfold calll. by mrun Ec. }
  rewrite (zoom_eq fst _ _ (s1, d') _ _ Et). eexists. split; [reflexivity|]. split; [done|]. split; [done|]. split; [destruct F3; by split|]. split; [apply S2|].
  cbn. by rewrite (sd_pm _ _ S2), (sd_pm _ _ S1).
Qed.

(** * Example *)

Definition quiet_ports : PortIO unit := {| dev_inb := λ _ d, (0, d); dev_outb := λ _ _ d, d; dev_insl := λ _ _ d, ([], d) |}.
Definition quiet_regs : Mmio unit := {| dev_ld := λ _ d, (0, d); dev_st := λ _ _ d, d |}.

(** A kernel whose entrypgdir is at 0x80101000. *)
Definition ap_dir : Z := 0x80101000.
Definition ap_mem : memory := λ b, if (b =? ap_dir) || (b =? ap_dir + 2048) then 0x83 else 0.
Definition reset : mach := mk_mach (λ _, 0) (λ _, 0) (λ _, (0, 0xffff)) [] ap_mem true.

Lemma ap_table i : 0 ≤ i < NPDENTRIES → ld32 ap_mem (ap_dir + 4 * i) = entrypgdir i.
Proof.
  intros Hi. assert (Hall : forallb (λ i, ld32 ap_mem (ap_dir + 4 * i) =? entrypgdir i) (seqZ 0 1024) = true) by (vm_compute; reflexivity).
  rewrite forallb_forall in Hall. apply Z.eqb_eq, Hall, list_elem_of_In, elem_of_seqZ. unfold NPDENTRIES in Hi. lia.
Qed.

Lemma ap_starts_witness :
  runs (@lapicstartap unit quiet_ports quiet_regs (hand_over (P2V start_ap) 0x80300000 0x80103000 ap_dir ap_mem) 0xFEE00000 1 (V2P (P2V start_ap))) tt (λ m' _,
    ∃ s', entryother 0x7070 (set_pm (phys m') reset) = Ok (tt, s') ∧ in_mpenter 0x80300000 0x80103000 ap_dir 0x7070 s').
Proof.
  apply (@ap_starts unit quiet_ports quiet_regs tt ap_mem reset 0x80300000 0x80103000 ap_dir 0xFEE00000 1 0x7070); [reflexivity|reflexivity|exact ap_table|vm_compute; congruence..|].
  split; [vm_compute; congruence|reflexivity].
Defined.
