(* ===== verification/UserProgs.v ===== *)
(** The user programs echo, cat, wc, grep, ls, ln, mkdir, rm, kill, zombie and init (the
    main functions of their files, fmtname and ls of ls.c, and stat of ulib.c) as
    interaction trees over the system calls they make. Strings are lists of bytes without
    the NUL, and argv is the list of the arguments. The section on the kernel says what
    the calls on files promise; the programs are proved against it. *)
From ITree Require Import ITree.
From Stdlib Require Import ZArith Lia Bool Ascii String.
From stdpp Require Import base tactics list option gmap sets fin_sets.
From S2P Require Import Prelude Machine CString Format Fs FsDir Grep.
#[local] Set Warnings "-notation-overridden".

(** * System calls *)

(** The calls that return. A read answers the bytes it got, or [None] for -1; fstat
    answers what it stored, or [None]. *)
Variant callE : Type → Type :=
| Open (path : list Z) (mode : Z) : callE Z
| Close (fd : Z) : callE Z
| Read (fd n : Z) : callE (option (list Z))
| Write (fd : Z) (bytes : list Z) : callE Z
| Fstat (fd : Z) : callE (option stat)
| Mknod (path : list Z) (major minor : Z) : callE Z
| Link (old new : list Z) : callE Z
| Unlink (path : list Z) : callE Z
| Mkdir (path : list Z) : callE Z
| Dup (fd : Z) : callE Z
| Kill (pid : Z) : callE Z
| Sleep (n : Z) : callE Z
| Fork : callE Z
| Wait : callE Z
| Exec (path : list Z) (argv : list (list Z)) : callE Z.

(** The call that does not. *)
Variant exitE : Type → Type := Exit : exitE void.

Notation sysE := (callE +' exitE).
Notation prog := (itree sysE).

#[export] Instance prog_ret : MRet prog := λ A x, Ret x.
#[export] Instance prog_bind : MBind prog := λ A B f t, ITree.bind t f.

Definition call {X} (e : callE X) : prog X := Vis (inl1 e) (λ x, Ret x).
Definition exit {X} : prog X := Vis (inr1 Exit) (λ v : void, match v with end).

(** [while]: the body says whether to go on ([inl]) or to leave the loop ([inr]). *)
Definition loop {A B} (body : A → prog (A + B)) (a : A) : prog B := ITree.iter body a.

(** printf writes its text one byte at a time. *)
Fixpoint print (fd : Z) (text : list Z) : prog unit :=
  match text with
  | [] => mret tt
  | c :: text => call (Write fd [c]);; print fd text
  end.

(** The text of the directive [%d]. *)
Definition dec (n : Z) : list Z := user_printint (s32 n) 10 true.
Definition nl : list Z := [10].

(** * ulib.c: stat *)

Definition stat_path (n : list Z) : prog (option stat) :=
  fd ← call (Open n O_RDONLY);
  if fd <? 0 then mret None else
  r ← call (Fstat fd);
  call (Close fd);;
  mret r.

(** * echo *)

Fixpoint echo_loop (args : list (list Z)) : prog unit :=
  match args with
  | [] => mret tt
  | a :: args => print 1 (a ++ (match args with [] => nl | _ => chars " " end));; echo_loop args
  end.

Definition echo_main (argv : list (list Z)) : prog unit := echo_loop (tail argv);; exit.

(** * cat *)

Definition cat_fd (fd : Z) : prog unit :=
  loop (λ _, r ← call (Read fd 512);
    match r with
    | None => print 1 (chars "cat: read error" ++ nl);; exit
    | Some [] => mret (inr tt)
    | Some l =>
        n ← call (Write 1 l);
        if n =? Z.of_nat (length l) then mret (inl tt)
        else print 1 (chars "cat: write error" ++ nl);; exit
    end) tt.

Fixpoint cat_files (args : list (list Z)) : prog unit :=
  match args with
  | [] => mret tt
  | a :: args =>
      fd ← call (Open a 0);
      if fd <? 0 then print 1 (chars "cat: cannot open " ++ a ++ nl);; exit else
      cat_fd fd;;
      call (Close fd);;
      cat_files args
  end.

Definition cat_main (argv : list (list Z)) : prog unit :=
  match tail argv with
  | [] => cat_fd 0;; exit
  | args => cat_files args;; exit
  end.

(** * wc *)

Definition wc_fd (fd : Z) (name : list Z) : prog unit :=
  s ← loop (λ s, r ← call (Read fd 512);
    match r with
    | None => print 1 (chars "wc: read error" ++ nl);; exit
    | Some [] => mret (inr s)
    | Some l => mret (inl (foldl wc_char s l))
    end) (mk_wc 0 0 0 false);
  print 1 (dec (w_l s) ++ chars " " ++ dec (w_w s) ++ chars " " ++ dec (w_c s) ++ chars " " ++ name ++ nl).

Fixpoint wc_files (args : list (list Z)) : prog unit :=
  match args with
  | [] => mret tt
  | a :: args =>
      fd ← call (Open a 0);
      if fd <? 0 then print 1 (chars "wc: cannot open " ++ a ++ nl);; exit else
      wc_fd fd a;;
      call (Close fd);;
      wc_files args
  end.

Definition wc_main (argv : list (list Z)) : prog unit :=
  match tail argv with
  | [] => wc_fd 0 [];; exit
  | args => wc_files args;; exit
  end.

(** * grep *)

(** The lines of the buffer: each that matches is written, newline included. *)
Fixpoint grep_write (fuel : nat) (pattern p : list Z) : prog (list Z) :=
  match fuel with
  | O => mret p
  | S fuel =>
      match find_nl p with
      | None => mret p
      | Some (l, r) => (if re_match pattern l then call (Write 1 (l ++ nl));; mret tt else mret tt);; grep_write fuel pattern r
      end
  end.

(** [buf] is the first [m] bytes of the buffer. *)
Definition grep_fd (pattern : list Z) (fd : Z) : prog unit :=
  loop (λ buf, r ← call (Read fd (1024 - Z.of_nat (length buf) - 1));
    match r with
    | None | Some [] => mret (inr tt)
    | Some l =>
        let buf := buf ++ l in
        p ← grep_write (length buf) pattern buf;
        mret (inl (if (length p =? length buf)%nat then [] else p))
    end) [].

Fixpoint grep_files (pattern : list Z) (args : list (list Z)) : prog unit :=
  match args with
  | [] => mret tt
  | a :: args =>
      fd ← call (Open a 0);
      if fd <? 0 then print 1 (chars "grep: cannot open " ++ a ++ nl);; exit else
      grep_fd pattern fd;;
      call (Close fd);;
      grep_files pattern args
  end.

Definition grep_main (argv : list (list Z)) : prog unit :=
  match tail argv with
  | [] => print 2 (chars "usage: grep pattern [file ...]" ++ nl);; exit
  | [pattern] => grep_fd pattern 0;; exit
  | pattern :: args => grep_files pattern args;; exit
  end.

(** * ls *)

(** The characters after the last slash: [r] is what is left of [p], backwards. *)
Fixpoint scan_back (r acc : list Z) : list Z :=
  match r with
  | [] => acc
  | c :: r => if c =? ch "/" then acc else scan_back r (c :: acc)
  end.

Definition fmtname (path : list Z) : list Z :=
  let p := scan_back (reverse path) [] in
  if (DIRSIZ <=? length p)%nat then p else p ++ replicate (DIRSIZ - length p) (ch " ").

Definition ls_line (path : list Z) (st : stat) : list Z :=
  fmtname path ++ chars " " ++ dec (st_type st) ++ chars " " ++ dec (st_ino st) ++ chars " " ++ dec (st_size st) ++ nl.

(** The bytes up to a NUL. *)
Fixpoint upto_nul (l : list Z) : list Z :=
  match l with
  | [] => []
  | c :: l => if c =? 0 then [] else c :: upto_nul l
  end.

(** The loop on the entries; [buf] is the path with its slash. *)
Definition ls_entries (fd : Z) (buf : list Z) : prog unit :=
  loop (λ _, r ← call (Read fd sizeof_dirent);
    match r with
    | None => mret (inr tt)
    | Some l =>
        if negb (Z.of_nat (length l) =? sizeof_dirent) then mret (inr tt) else
        let de := dirent_of l in
        if de_inum de =? 0 then mret (inl tt) else
        let buf := buf ++ upto_nul (de_name de) in
        r ← stat_path buf;
        match r with
        | None => print 1 (chars "ls: cannot stat " ++ buf ++ nl);; mret (inl tt)
        | Some st => print 1 (ls_line buf st);; mret (inl tt)
        end
    end) tt.

Definition ls (path : list Z) : prog unit :=
  fd ← call (Open path 0);
  if fd <? 0 then print 2 (chars "ls: cannot open " ++ path ++ nl) else
  r ← call (Fstat fd);
  match r with
  | None => print 2 (chars "ls: cannot stat " ++ path ++ nl);; call (Close fd);; mret tt
  | Some st =>
      (if st_type st =? T_FILE then print 1 (ls_line path st)
       else if st_type st =? T_DIR then
         if (512 <? length path + 1 + DIRSIZ + 1)%nat then print 1 (chars "ls: path too long" ++ nl)
         else ls_entries fd (path ++ chars "/")
       else mret tt);;
      call (Close fd);;
      mret tt
  end.

Fixpoint ls_all (args : list (list Z)) : prog unit :=
  match args with
  | [] => mret tt
  | a :: args => ls a;; ls_all args
  end.

Definition ls_main (argv : list (list Z)) : prog unit :=
  match tail argv with
  | [] => ls (chars ".");; exit
  | args => ls_all args;; exit
  end.

(** * ln, mkdir, rm, kill and zombie *)

Definition ln_main (argv : list (list Z)) : prog unit :=
  match argv with
  | [_; old; new] =>
      r ← call (Link old new);
      (if r <? 0 then print 2 (chars "link " ++ old ++ chars " " ++ new ++ chars ": failed" ++ nl) else mret tt);;
      exit
  | _ => print 2 (chars "Usage: ln old new" ++ nl);; exit
  end.

Fixpoint mkdir_loop (args : list (list Z)) : prog unit :=
  match args with
  | [] => mret tt
  | a :: args =>
      r ← call (Mkdir a);
      if r <? 0 then print 2 (chars "mkdir: " ++ a ++ chars " failed to create" ++ nl) else mkdir_loop args
  end.

Definition mkdir_main (argv : list (list Z)) : prog unit :=
  match tail argv with
  | [] => print 2 (chars "Usage: mkdir files..." ++ nl);; exit
  | args => mkdir_loop args;; exit
  end.

Fixpoint rm_loop (args : list (list Z)) : prog unit :=
  match args with
  | [] => mret tt
  | a :: args =>
      r ← call (Unlink a);
      if r <? 0 then print 2 (chars "rm: " ++ a ++ chars " failed to delete" ++ nl) else rm_loop args
  end.

Definition rm_main (argv : list (list Z)) : prog unit :=
  match tail argv with
  | [] => print 2 (chars "Usage: rm files..." ++ nl);; exit
  | args => rm_loop args;; exit
  end.

(** atoi on the bytes of an argument. *)
Definition atoi_text (s : list Z) : Z := default 0 (atoi (S (length s)) (λ a, default 0 (s !! Z.to_nat a)) 0).

Fixpoint kill_loop (args : list (list Z)) : prog unit :=
  match args with
  | [] => mret tt
  | a :: args => call (Kill (atoi_text a));; kill_loop args
  end.

Definition kill_main (argv : list (list Z)) : prog unit :=
  match tail argv with
  | [] => print 2 (chars "usage: kill pid..." ++ nl);; exit
  | args => kill_loop args;; exit
  end.

Definition zombie_main : prog unit :=
  pid ← call Fork;
  (if 0 <? pid then call (Sleep 5);; mret tt else mret tt);;
  exit.

(** * init *)

(** while((wpid=wait()) >= 0 && wpid != pid) *)
Definition init_reap (pid : Z) : prog unit :=
  loop (λ _, wpid ← call Wait;
    if (0 <=? wpid) && negb (wpid =? pid) then print 1 (chars "zombie!" ++ nl);; mret (inl tt) else mret (inr tt)) tt.

Definition init_round : prog unit :=
  print 1 (chars "init: starting sh" ++ nl);;
  pid ← call Fork;
  if pid <? 0 then print 1 (chars "init: fork failed" ++ nl);; exit else
  if pid =? 0 then call (Exec (chars "sh") [chars "sh"]);; print 1 (chars "init: exec sh failed" ++ nl);; exit else
  init_reap pid.

Definition init_main : prog unit :=
  fd ← call (Open (chars "console") O_RDWR);
  (if fd <? 0 then call (Mknod (chars "console") 1 1);; call (Open (chars "console") O_RDWR);; mret tt else mret tt);;
  call (Dup 0);;
  call (Dup 0);;
  loop (λ _, init_round;; mret (inl tt)) tt.

(** * The kernel that answers the calls *)

(** What a path names: the answer of fstat and the bytes. *)
Record node := mk_node { n_stat : stat; n_bytes : list Z }.

(** What a program sees of the kernel: the paths that can be opened, the descriptors it
    has opened with their offsets, and what was written to the standard output and error. *)
Record view := mk_view { v_node : list Z → option node; v_open : gmap Z (node * nat); v_out : list Z; v_err : list Z }.

Definition set_open (o : gmap Z (node * nat)) (v : view) : view := mk_view (v_node v) o (v_out v) (v_err v).
Definition say (out err : list Z) (v : view) : view := mk_view (v_node v) (v_open v) (v_out v ++ out) (v_err v ++ err).

(** What the system calls on files do to a process that reads files and writes to its
    standard output and error; [spare] is the number of descriptors it may have open
    beside the standard ones. *)
Class Kernel (W : Type) := {
  sys : ∀ X, callE X → W → X * W;
  view_of : W → view;
  spare : nat;
  sys_open_none w p : v_node (view_of w) p = None → (sys Z (Open p O_RDONLY) w).1 = -1 ∧ view_of (sys Z (Open p O_RDONLY) w).2 = view_of w;
  sys_open w p nd : v_node (view_of w) p = Some nd → (size (v_open (view_of w)) < spare)%nat →
    let '(fd, w') := sys Z (Open p O_RDONLY) w in
    0 ≤ fd ∧ v_open (view_of w) !! fd = None ∧ view_of w' = set_open (<[fd := (nd, 0%nat)]> (v_open (view_of w))) (view_of w);
  sys_fstat w fd nd o : v_open (view_of w) !! fd = Some (nd, o) →
    (sys _ (Fstat fd) w).1 = Some (n_stat nd) ∧ view_of (sys _ (Fstat fd) w).2 = view_of w;
  sys_read w fd n nd o : v_open (view_of w) !! fd = Some (nd, o) → 0 ≤ n →
    let l := take (Z.to_nat n) (drop o (n_bytes nd)) in
    (sys _ (Read fd n) w).1 = Some l ∧
    view_of (sys _ (Read fd n) w).2 = set_open (<[fd := (nd, (o + length l)%nat)]> (v_open (view_of w))) (view_of w);
  sys_close w fd nd o : v_open (view_of w) !! fd = Some (nd, o) →
    view_of (sys _ (Close fd) w).2 = set_open (delete fd (v_open (view_of w))) (view_of w);
  sys_stdout w l : (sys _ (Write 1 l) w).1 = Z.of_nat (length l) ∧ view_of (sys _ (Write 1 l) w).2 = say l [] (view_of w);
  sys_stderr w l : (sys _ (Write 2 l) w).1 = Z.of_nat (length l) ∧ view_of (sys _ (Write 2 l) w).2 = say [] l (view_of w) }.

(** * Running a program *)

Lemma observe_bind {E A B} (t : itree E A) (k : A → itree E B) : observe (ITree.bind t k) =
  match observe t with RetF r => observe (k r) | TauF t => TauF (ITree.bind t k) | VisF e h => VisF e (λ x, ITree.bind (h x) k) end.
Proof. unfold observe at 1. cbn. destruct (observe t); done. Qed.

Lemma observe_loop {A B} (body : A → prog (A + B)) a : observe (loop body a) =
  observe (ITree.bind (body a) (λ r, match r with inl a => Tau (loop body a) | inr b => Ret b end)).
Proof. done. Qed.

Section run.
  Context {W : Type} {K : Kernel W}.

(** A program ends with a result, or by the call of exit ([None]). *)
Inductive run {R} : itree' sysE R → W → option R → W → Prop :=
| run_ret r w : run (RetF r) w (Some r) w
| run_exit k w : run (VisF (inr1 Exit) k) w None w
| run_tau t w o w' : run (observe t) w o w' → run (TauF t) w o w'
| run_call X (e : callE X) k w o w' : run (observe (k (sys X e w).1)) (sys X e w).2 o w' → run (VisF (inl1 e) k) w o w'.

Lemma run_bind {A B} (t : prog A) (k : A → prog B) w r w1 o w2 :
  run (observe t) w (Some r) w1 → run (observe (k r)) w1 o w2 → run (observe (t ≫= k)) w o w2.
Proof.
  intros H Hk. unfold mbind, prog_bind. rewrite observe_bind. remember (observe t) as u eqn:E. remember (Some r) as o1 eqn:Er. revert t E.
  induction H; intros t0 E; simplify_eq; [done|..]; constructor; rewrite observe_bind; eauto.
Qed.

Lemma run_bind_exit {A B} (t : prog A) (k : A → prog B) w w1 : run (observe t) w None w1 → run (observe (t ≫= k)) w None w1.
Proof.
  intros H. unfold mbind, prog_bind. rewrite observe_bind. remember (observe t) as u eqn:E. remember None as o1 eqn:Er. revert t E.
  induction H; intros t0 E; simplify_eq; constructor; rewrite observe_bind; eauto.
Qed.

Lemma run_bind_call {X B} (e : callE X) (k : X → prog B) w o w' :
  run (observe (k (sys X e w).1)) (sys X e w).2 o w' → run (observe (call e ≫= k)) w o w'.
Proof. intros H. eapply run_bind; [|done]. constructor. constructor. Qed.

(** One more round of a loop, and its end. *)
Lemma run_again {A B} (body : A → prog (A + B)) a a' w w1 o w2 :
  run (observe (body a)) w (Some (inl a')) w1 → run (observe (loop body a')) w1 o w2 → run (observe (loop body a)) w o w2.
Proof. intros H1 H2. rewrite observe_loop. eapply (run_bind (body a)); [done|]. by constructor. Qed.

Lemma run_leave {A B} (body : A → prog (A + B)) a b w w1 :
  run (observe (body a)) w (Some (inr b)) w1 → run (observe (loop body a)) w (Some b) w1.
Proof. intros H1. rewrite observe_loop. eapply (run_bind (body a)); [done|]. constructor. Qed.

(** The program ends in [o] with the view [v]. *)
Definition gives {R} (t : prog R) (w : W) (o : option R) (v : view) : Prop := ∃ w', run (observe t) w o w' ∧ view_of w' = v.

Lemma gives_ret {R} (r : R) w : gives (mret r) w (Some r) (view_of w).
Proof. exists w. split; [constructor|done]. Qed.

Lemma gives_exit {R} w : gives (R := R) exit w None (view_of w).
Proof. exists w. split; [constructor|done]. Qed.

Lemma gives_bind {A B} (t : prog A) (k : A → prog B) w r v1 o v2 :
  gives t w (Some r) v1 → (∀ w1, view_of w1 = v1 → gives (k r) w1 o v2) → gives (t ≫= k) w o v2.
Proof. intros (w1 & H1 & E1) H2. destruct (H2 w1 E1) as (w2 & H3 & E2). exists w2. split; [|done]. by eapply run_bind. Qed.

Lemma gives_bind_exit {A B} (t : prog A) (k : A → prog B) w v : gives t w None v → gives (t ≫= k) w None v.
Proof. intros (w1 & H1 & E1). exists w1. split; [|done]. by apply run_bind_exit. Qed.

Lemma gives_call {X B} (e : callE X) (k : X → prog B) w o v :
  gives (k (sys X e w).1) (sys X e w).2 o v → gives (call e ≫= k) w o v.
Proof. intros (w' & H & E). exists w'. split; [|done]. by apply run_bind_call. Qed.

Lemma gives_again {A B} (body : A → prog (A + B)) a a' w v1 o v2 :
  gives (body a) w (Some (inl a')) v1 → (∀ w1, view_of w1 = v1 → gives (loop body a') w1 o v2) → gives (loop body a) w o v2.
Proof. intros (w1 & H1 & E1) H2. destruct (H2 w1 E1) as (w2 & H3 & E2). exists w2. split; [|done]. by eapply run_again. Qed.

Lemma gives_leave {A B} (body : A → prog (A + B)) a b w v : gives (body a) w (Some (inr b)) v → gives (loop body a) w (Some b) v.
Proof. intros (w1 & H1 & E1). exists w1. split; [|done]. by eapply run_leave. Qed.

Lemma say_say a b c d v : say c d (say a b v) = say (a ++ c) (b ++ d) v.
Proof. unfold say. cbn. by rewrite !(assoc_L (++)). Qed.

Lemma say_nil v : say [] [] v = v.
Proof. destruct v. unfold say. cbn. by rewrite !app_nil_r. Qed.

Lemma print_out text w : gives (print 1 text) w (Some tt) (say text [] (view_of w)).
Proof.
  revert w. induction text as [|c text IH]; intros w; cbn [print]; [rewrite say_nil; apply gives_ret|].
  apply gives_call. destruct (sys_stdout w [c]) as [_ E]. replace (say (c :: text) [] (view_of w)) with (say text [] (say [c] [] (view_of w))) by by rewrite say_say.
  rewrite <- E. apply IH.
Qed.

Lemma print_err text w : gives (print 2 text) w (Some tt) (say [] text (view_of w)).
Proof.
  revert w. induction text as [|c text IH]; intros w; cbn [print]; [rewrite say_nil; apply gives_ret|].
  apply gives_call. destruct (sys_stderr w [c]) as [_ E]. replace (say [] (c :: text) (view_of w)) with (say [] text (say [] [c] (view_of w))) by by rewrite say_say.
  rewrite <- E. apply IH.
Qed.

(** * What the programs print *)

Lemma open_gives {B} p nd (k : Z → prog B) w o v : v_node (view_of w) p = Some nd → (size (v_open (view_of w)) < spare)%nat →
  (∀ fd w', 0 ≤ fd → v_open (view_of w) !! fd = None → view_of w' = set_open (<[fd := (nd, 0%nat)]> (v_open (view_of w))) (view_of w) → gives (k fd) w' o v) →
  gives (call (Open p O_RDONLY) ≫= k) w o v.
Proof. intros Hn Hs H. apply gives_call. pose proof (sys_open w p nd Hn Hs) as Ho. destruct (sys Z (Open p O_RDONLY) w) as [fd w']. destruct Ho as (H0 & Hf & E). cbn. by apply H. Qed.

Lemma close_set_open fd x v w : view_of w = set_open (<[fd := x]> (v_open v)) v → v_open v !! fd = None → view_of (sys Z (Close fd) w).2 = v.
Proof.
  intros E Hf. destruct x as [nd o]. rewrite (sys_close w fd nd o) by (rewrite E; apply lookup_insert_eq). rewrite E. unfold set_open. cbn. rewrite delete_insert_eq, delete_id by done. by destruct v.
Qed.

Lemma stat_path_gives p w : (size (v_open (view_of w)) < spare)%nat → gives (stat_path p) w (Some (n_stat <$> v_node (view_of w) p)) (view_of w).
Proof.
  intros Hs. unfold stat_path. destruct (v_node (view_of w) p) as [nd|] eqn:Hn; cbn [fmap option_fmap option_map].
  - eapply open_gives; [done|done|]. intros fd w' H0 Hf E. rewrite (proj2 (Z.ltb_ge fd 0)) by done. apply gives_call.
    destruct (sys_fstat w' fd nd 0) as [-> E2]; [rewrite E; apply lookup_insert_eq|]. apply gives_call.
    rewrite <- (close_set_open fd (nd, 0%nat) (view_of w) _ (eq_trans E2 E) Hf) at 1. apply gives_ret.
  - apply gives_call. destruct (sys_open_none w p Hn) as [-> E]. rewrite <- E. apply gives_ret.
Qed.

(** A name padded to the width of a directory entry, and the line of ls for it. *)
Definition pad (name : list Z) : list Z := name ++ replicate (DIRSIZ - length name) (ch " ").
Definition row (name : list Z) (st : stat) : list Z :=
  pad name ++ chars " " ++ dec (st_type st) ++ chars " " ++ dec (st_ino st) ++ chars " " ++ dec (st_size st) ++ nl.

Lemma scan_back_app r acc s : (∀ c, c ∈ r → c ≠ ch "/") → scan_back (r ++ s) acc = scan_back s (reverse r ++ acc).
Proof.
  revert acc. induction r as [|c r IH]; intros acc H; [done|]. cbn [scan_back app]. rewrite (proj2 (Z.eqb_neq c (ch "/"))) by (apply H, elem_of_cons; by left).
  rewrite IH by (intros d Hd; apply H, elem_of_cons; by right). by rewrite reverse_cons, <- (assoc_L (++)).
Qed.

(** fmtname is the last component of a path, padded. *)
Lemma fmtname_last path name : ch "/" ∉ name → fmtname (path ++ chars "/" ++ name) = pad name.
Proof.
  intros H. unfold fmtname. rewrite !reverse_app, <- (assoc_L (++)). rewrite scan_back_app by (intros c Hc ->; apply H; by apply elem_of_reverse).
  change (reverse (chars "/") ++ reverse path) with (ch "/" :: reverse path). cbn [scan_back]. rewrite Z.eqb_refl, reverse_involutive, app_nil_r.
  unfold pad. destruct (Nat.leb_spec DIRSIZ (length name)); [|done]. replace (DIRSIZ - length name)%nat with O by lia. cbn. by rewrite app_nil_r.
Qed.

Definition entry_name (e : dirent) : list Z := upto_nul (de_name e).

(** The line for an entry of the directory [path]. *)
Definition entry_text (v : view) (path : list Z) (e : dirent) : list Z :=
  if de_inum e =? 0 then [] else
  let p := path ++ chars "/" ++ entry_name e in
  match v_node v p with
  | None => chars "ls: cannot stat " ++ p ++ nl
  | Some nd => row (entry_name e) (n_stat nd)
  end.
Definition dir_text (v : view) (path : list Z) (es : list dirent) : list Z := es ≫= entry_text v path.

Lemma dir_text_cons v path e es : dir_text v path (e :: es) = entry_text v path e ++ dir_text v path es.
Proof. done. Qed.

(** One round of the loop on the entries, after the entry was read. *)
Lemma ls_entry_gives path e w : ch "/" ∉ entry_name e → (size (v_open (view_of w)) < spare)%nat →
  gives (if de_inum e =? 0 then mret (inl tt) else
    let buf := (path ++ chars "/") ++ upto_nul (de_name e) in
    r ← stat_path buf;
    match r with
    | None => print 1 (chars "ls: cannot stat " ++ buf ++ nl);; mret (inl tt)
    | Some st => print 1 (ls_line buf st);; mret (inl tt)
    end) w (Some (inl tt : unit + unit)) (say (entry_text (view_of w) path e) [] (view_of w)).
Proof.
  intros Hsl Hs. unfold entry_text. destruct (de_inum e =? 0); [rewrite say_nil; apply gives_ret|]. cbv zeta. rewrite <- (assoc_L (++)). fold (entry_name e).
  eapply gives_bind; [by apply stat_path_gives|]. intros w1 E1. rewrite <- E1. destruct (v_node (view_of w1) _) as [nd|]; cbn [fmap option_fmap option_map];
    (eapply gives_bind; [apply print_out|]); intros w2 E2; [unfold ls_line in E2; rewrite fmtname_last in E2 by done; fold (row (entry_name e) (n_stat nd)) in E2|]; rewrite <- E2; apply gives_ret.
Qed.

Lemma ls_entries_gives fd path nd c m : n_bytes nd = c → (∀ e, e ∈ entries c → ch "/" ∉ entry_name e) → (m ≤ length c / 16)%nat → ∀ w,
  v_open (view_of w) !! fd = Some (nd, 16 * (length c / 16 - m))%nat → (size (v_open (view_of w)) < spare)%nat →
  gives (ls_entries fd (path ++ chars "/")) w (Some tt)
    (say (dir_text (view_of w) path (entry c <$> seq (length c / 16 - m) m)) [] (set_open (<[fd := (nd, length c)]> (v_open (view_of w))) (view_of w))).
Proof.
  intros Hc Hsl. pose proof (Nat.div_mod_eq (length c) 16) as Hdm. pose proof (Nat.mod_upper_bound (length c) 16 ltac:(lia)) as Hub.
  induction m as [|m IH]; intros Hm w Hfd Hs; unfold ls_entries.
  - rewrite Nat.sub_0_r in *. apply gives_leave, gives_call. destruct (sys_read w fd sizeof_dirent nd _ Hfd ltac:(done)) as [-> E].
    rewrite Hc in *. change (Z.to_nat sizeof_dirent) with 16%nat in *. set (l := take 16 _) in *.
    assert (Hl : length l = (length c mod 16)%nat) by (unfold l; rewrite length_take, length_drop; lia).
    rewrite (proj2 (Z.eqb_neq _ _)) by (unfold sizeof_dirent; lia). cbn [negb].
    replace (16 * (length c / 16) + length l)%nat with (length c) in E by lia. cbn [seq fmap list_fmap]. change (dir_text _ path []) with (@nil Z). rewrite say_nil, <- E. apply gives_ret.
  - set (k := (length c / 16 - S m)%nat) in *. replace (length c / 16 - m)%nat with (S k) in IH by lia. cbn [seq fmap list_fmap].
    pose (v1 := say (entry_text (view_of w) path (entry c k)) [] (set_open (<[fd := (nd, 16 * S k)%nat]> (v_open (view_of w))) (view_of w))).
    apply (gives_again _ tt tt w v1).
    + apply gives_call. destruct (sys_read w fd sizeof_dirent nd _ Hfd ltac:(done)) as [-> E]. set (w1 := (sys _ _ w).2) in *. clearbody w1.
      rewrite Hc in *. change (Z.to_nat sizeof_dirent) with 16%nat in *. fold (entry c k).
      assert (Hl : length (take 16 (drop (16 * k) c)) = 16%nat) by (rewrite length_take, length_drop; lia). rewrite Hl in *.
      change (Z.of_nat 16 =? sizeof_dirent) with true. cbn [negb]. replace (16 * k + 16)%nat with (16 * S k)%nat in E by lia.
      unfold v1. rewrite <- E. replace (entry_text (view_of w)) with (entry_text (view_of w1)) by by rewrite E.
      apply ls_entry_gives; [apply Hsl, list_elem_of_lookup_2 with k, entries_lookup; lia|]. rewrite E. cbn. rewrite map_size_insert, Hfd. done.
    + intros w1 E1. unfold ls_entries in IH. assert (Ef : v_open (view_of w1) = <[fd := (nd, 16 * S k)%nat]> (v_open (view_of w))) by by rewrite E1.
      rewrite dir_text_cons, <- (app_nil_r (@nil Z)), <- say_say. specialize (IH ltac:(lia) w1). rewrite Ef in IH. rewrite lookup_insert_eq, insert_insert_eq, map_size_insert, Hfd in IH.
      specialize (IH eq_refl Hs). rewrite E1 in IH. exact IH.
Qed.

(** What ls prints for a path, on the standard output and error. *)
Definition shows (v : view) (path : list Z) : list Z * list Z :=
  match v_node v path with
  | None => ([], chars "ls: cannot open " ++ path ++ nl)
  | Some nd =>
      (if st_type (n_stat nd) =? T_FILE then ls_line path (n_stat nd)
       else if st_type (n_stat nd) =? T_DIR then
         if (512 <? length path + 16)%nat then chars "ls: path too long" ++ nl else dir_text v path (entries (n_bytes nd))
       else [], [])
  end.

(** The names in directories have no slash. *)
Definition names_ok (v : view) : Prop :=
  ∀ path nd e, v_node v path = Some nd → st_type (n_stat nd) = T_DIR → e ∈ entries (n_bytes nd) → ch "/" ∉ entry_name e.

(** Closing the last descriptor opened. *)
Lemma close_gives fd x v w text : view_of w = say text [] (set_open (<[fd := x]> (v_open v)) v) → v_open v !! fd = None →
  gives (call (Close fd);; mret tt) w (Some tt) (say text [] v).
Proof. intros E Hf. apply gives_call. rewrite <- (close_set_open fd x (say text [] v) w E Hf) at 1. apply gives_ret. Qed.

Lemma ls_gives path w : names_ok (view_of w) → (S (size (v_open (view_of w))) < spare)%nat →
  gives (ls path) w (Some tt) (say (shows (view_of w) path).1 (shows (view_of w) path).2 (view_of w)).
Proof.
  intros Hok Hs. unfold ls, shows. change (Open path 0) with (Open path O_RDONLY). destruct (v_node (view_of w) path) as [nd|] eqn:Hn.
  2:{ apply gives_call. destruct (sys_open_none w path Hn) as [-> E]. cbn [Z.ltb Z.compare fst snd]. rewrite <- E. apply print_err. }
  cbn [fst snd]. eapply open_gives; [done|lia|]. intros fd w1 H0 Hf E. rewrite (proj2 (Z.ltb_ge fd 0)) by done. apply gives_call.
  destruct (sys_fstat w1 fd nd 0) as [-> E2]; [rewrite E; apply lookup_insert_eq|]. set (w2 := (sys _ _ w1).2) in *. clearbody w2. rewrite E in E2. clear w1 E.
  assert (Hend : ∀ text (t : prog unit) x, gives t w2 (Some tt) (say text [] (set_open (<[fd := x]> (v_open (view_of w))) (view_of w))) →
    gives (t;; call (Close fd);; mret tt) w2 (Some tt) (say text [] (view_of w))).
  { intros text t x H. eapply gives_bind; [done|]. intros w3 E3. by apply (close_gives fd x). }
  change (length path + 1 + DIRSIZ + 1)%nat with (length path + 1 + 14 + 1)%nat. replace (length path + 1 + 14 + 1)%nat with (length path + 16)%nat by lia.
  destruct (st_type (n_stat nd) =? T_FILE); [|destruct (Z.eqb_spec (st_type (n_stat nd)) T_DIR) as [Ht|Ht]; [destruct (Nat.ltb_spec 512 (length path + 16))|]].
  - apply (Hend _ _ (nd, 0%nat)). rewrite <- E2. apply print_out.
  - apply (Hend _ _ (nd, 0%nat)). rewrite <- E2. apply print_out.
  - apply (Hend _ _ (nd, length (n_bytes nd))). pose proof (ls_entries_gives fd path nd (n_bytes nd) (length (n_bytes nd) / 16) eq_refl (λ e, Hok path nd e Hn Ht) (Nat.le_refl _) w2) as HG.
    rewrite Nat.sub_diag, Nat.mul_0_r, E2 in HG. cbn [set_open v_open] in HG. rewrite lookup_insert_eq, map_size_insert, Hf in HG. specialize (HG eq_refl Hs). rewrite insert_insert_eq in HG. exact HG.
  - apply (Hend _ _ (nd, 0%nat)). rewrite say_nil, <- E2. apply gives_ret.
Qed.

Lemma shows_say v a b path : shows (say a b v) path = shows v path.
Proof. done. Qed.

Lemma ls_all_gives paths w : names_ok (view_of w) → (S (size (v_open (view_of w))) < spare)%nat →
  gives (ls_all paths) w (Some tt) (say (paths ≫= λ p, (shows (view_of w) p).1) (paths ≫= λ p, (shows (view_of w) p).2) (view_of w)).
Proof.
  revert w. induction paths as [|p paths IH]; intros w Hok Hs; cbn [ls_all]; [rewrite say_nil; apply gives_ret|].
  eapply gives_bind; [by apply ls_gives|]. intros w1 E1. specialize (IH w1). rewrite E1 in IH. rewrite say_say in IH. by apply IH.
Qed.

(** C39. ls prints what it should, and only that. For every path given (the current
    directory if there is none), in order: for a file the line with its padded name, type,
    inode number and size; for a directory such a line for every entry in use, in the order
    of the entries, with what stat says about the path of the entry, or a complaint if it
    cannot be opened; for a path that cannot be opened a complaint on the standard error;
    and nothing for a device. Then it exits, with every descriptor it opened closed and the
    files as they were. *)
Theorem ls_lists (w : W) (argv : list (list Z)) (Hnames : names_ok (view_of w)) (Hroom : (S (size (v_open (view_of w))) < spare)%nat) :
  let paths := match tail argv with [] => [chars "."] | args => args end in
  gives (ls_main argv) w None (say (paths ≫= λ p, (shows (view_of w) p).1) (paths ≫= λ p, (shows (view_of w) p).2) (view_of w)).
Proof.
  intros paths. unfold ls_main, paths. destruct (tail argv) as [|a args].
  - cbn [mbind list_bind]. rewrite !app_nil_r. eapply gives_bind; [by apply ls_gives|]. intros w1 <-. apply gives_exit.
  - eapply gives_bind; [by apply ls_all_gives|]. intros w1 <-. apply gives_exit.
Qed.

(** What echo prints: its arguments with a space between each two, on a line; nothing at
    all without arguments. *)
Definition echo_text (args : list (list Z)) : list Z :=
  match args with
  | [] => []
  | a :: args => a ++ (args ≫= λ b, chars " " ++ b) ++ nl
  end.

Lemma echo_loop_gives args w : gives (echo_loop args) w (Some tt) (say (echo_text args) [] (view_of w)).
Proof.
  revert w. induction args as [|a args IH]; intros w; cbn [echo_loop]; [rewrite say_nil; apply gives_ret|].
  eapply gives_bind; [apply print_out|]. intros w1 E1. specialize (IH w1). rewrite E1, say_say in IH. destruct args as [|b args]; cbn [echo_text mbind list_bind] in *.
  - by rewrite !app_nil_r in IH.
  - by rewrite <- !(assoc_L (++)) in IH |- *.
Qed.

Theorem echo_prints (w : W) (argv : list (list Z)) : gives (echo_main argv) w None (say (echo_text (tail argv)) [] (view_of w)).
Proof. eapply gives_bind; [apply echo_loop_gives|]. intros w1 <-. apply gives_exit. Qed.

(** Reading a file from an offset on in pieces of 512 bytes. *)
Lemma next_piece fd nd o w : v_open (view_of w) !! fd = Some (nd, o) →
  ∃ l w', sys _ (Read fd 512) w = (Some l, w') ∧ drop o (n_bytes nd) = l ++ drop (o + length l) (n_bytes nd) ∧ (l = [] → drop o (n_bytes nd) = []) ∧
    view_of w' = set_open (<[fd := (nd, o + length l)%nat]> (v_open (view_of w))) (view_of w).
Proof.
  intros Hfd. destruct (sys_read w fd 512 nd o Hfd ltac:(done)) as [E1 E2]. change (Z.to_nat 512) with 512%nat in *. set (l := take 512 _) in *.
  exists l, (sys _ (Read fd 512) w).2. split_and!; [by rewrite <- E1, <- surjective_pairing|..|done].
  - rewrite <- drop_drop. unfold l. rewrite length_take. destruct (Nat.le_gt_cases 512 (length (drop o (n_bytes nd)))).
    + rewrite Nat.min_l by done. by rewrite take_drop.
    + rewrite Nat.min_r, drop_all, app_nil_r, take_ge by lia. done.
  - unfold l. by destruct (drop o (n_bytes nd)).
Qed.

(** cat copies what is left of a file to the standard output. *)
Lemma cat_fd_gives fd nd n : ∀ o w, (length (drop o (n_bytes nd)) < n)%nat → v_open (view_of w) !! fd = Some (nd, o) →
  gives (cat_fd fd) w (Some tt) (say (drop o (n_bytes nd)) [] (set_open (<[fd := (nd, Nat.max o (length (n_bytes nd)))]> (v_open (view_of w))) (view_of w))).
Proof.
  induction n as [|n IH]; intros o w Hn Hfd; [lia|]. destruct (next_piece fd nd o w Hfd) as (l & w1 & E & Hl & Hnil & E1). destruct l as [|c l].
  - specialize (Hnil eq_refl). rewrite Hnil in *. cbn [length] in *. rewrite Nat.add_0_r in *. apply (f_equal length) in Hnil. rewrite length_drop in Hnil. cbn in Hnil.
    rewrite Nat.max_l by lia. apply gives_leave, gives_call. rewrite E, say_nil. cbn [fst snd]. rewrite <- E1. apply gives_ret.
  - set (o1 := (o + length (c :: l))%nat) in *. destruct (sys_stdout w1 (c :: l)) as [W1 W2]. set (w2 := (sys _ (Write 1 (c :: l)) w1).2) in *.
    apply (gives_again _ tt tt w (view_of w2)); [apply gives_call; rewrite E; cbn [fst snd]; apply gives_call; rewrite W1, Z.eqb_refl; apply gives_ret|].
    intros w3 E3. pose proof (f_equal length Hl) as Hlen. rewrite length_app in Hlen. cbn [length] in Hlen.
    assert (Hmax : Nat.max o1 (length (n_bytes nd)) = Nat.max o (length (n_bytes nd))) by (rewrite !length_drop in Hlen; unfold o1; cbn [length]; lia).
    specialize (IH o1 w3 ltac:(lia)). rewrite E3, W2, E1 in IH. cbn [say set_open v_open] in IH. rewrite lookup_insert_eq, insert_insert_eq in IH. specialize (IH eq_refl).
    rewrite Hl, <- (app_nil_r (@nil Z)), <- Hmax, <- say_say. exact IH.
Qed.

(** What cat prints: the files one after the other, up to the first that cannot be opened. *)
Fixpoint cat_text (v : view) (paths : list (list Z)) : list Z :=
  match paths with
  | [] => []
  | p :: paths => match v_node v p with Some nd => n_bytes nd ++ cat_text v paths | None => chars "cat: cannot open " ++ p ++ nl end
  end.

Lemma cat_text_say v a b paths : cat_text (say a b v) paths = cat_text v paths.
Proof. induction paths as [|p paths IH]; cbn; [done|]. by rewrite IH. Qed.

Lemma cat_files_gives paths w : (size (v_open (view_of w)) < spare)%nat →
  gives (cat_files paths) w (if forallb (λ p, bool_decide (is_Some (v_node (view_of w) p))) paths then Some tt else None) (say (cat_text (view_of w) paths) [] (view_of w)).
Proof.
  revert w. induction paths as [|p paths IH]; intros w Hs; cbn [cat_files cat_text forallb]; [rewrite say_nil; apply gives_ret|].
  change (Open p 0) with (Open p O_RDONLY). destruct (v_node (view_of w) p) as [nd|] eqn:Hn.
  - rewrite bool_decide_true by eauto. cbn [andb]. eapply open_gives; [done|done|]. intros fd w1 H0 Hf E1. rewrite (proj2 (Z.ltb_ge fd 0)) by done.
    eapply gives_bind; [eapply (cat_fd_gives fd nd); [apply Nat.lt_succ_diag_r|rewrite E1; apply lookup_insert_eq]|]. intros w2 E2. rewrite E1 in E2. cbn [set_open v_open] in E2.
    rewrite insert_insert_eq in E2. apply gives_call. pose proof (close_set_open fd _ (say (n_bytes nd) [] (view_of w)) w2 E2 Hf) as E3.
    specialize (IH (sys Z (Close fd) w2).2). rewrite E3, cat_text_say, say_say in IH. apply IH. exact Hs.
  - rewrite bool_decide_false by (intros [??]; done). cbn [andb]. apply gives_call. destruct (sys_open_none w p Hn) as [-> E]. cbn [Z.ltb Z.compare].
    rewrite <- E. eapply gives_bind; [apply print_out|]. intros w1 <-. apply gives_exit.
Qed.

(** cat with arguments prints the files, one after the other. *)
Theorem cat_concatenates (w : W) name p paths : (size (v_open (view_of w)) < spare)%nat →
  gives (cat_main (name :: p :: paths)) w None (say (cat_text (view_of w) (p :: paths)) [] (view_of w)).
Proof.
  intros Hs. cbn [cat_main tail]. pose proof (cat_files_gives (p :: paths) w Hs) as H. destruct (forallb _ _); [|by apply gives_bind_exit].
  eapply gives_bind; [exact H|]. intros w1 <-. apply gives_exit.
Qed.

End run.

(** * Traces: init *)

(** A call with its answer. *)
Inductive ev : Type :=
| Ev {X}  (e : callE X) (x : X).

(** After [n] steps with the calls and answers [l] the program [t] has become [u]; the
    answers are any. *)
Fixpoint steps {R} (n : nat) (t : itree' sysE R) (l : list ev) (u : itree' sysE R) : Prop :=
  match n with
  | O => l = [] ∧ u = t
  | S n =>
      match t with
      | RetF _ => False
      | TauF t => steps n (observe t) l u
      | VisF e k =>
          match e with
          | inl1 e => ∃ x l', l = Ev e x :: l' ∧ steps n (observe (k x)) l' u
          | inr1 _ => False
          end
      end
  end.

(** The program has returned or called exit. *)
Definition ended {R} (u : itree' sysE R) : bool :=
  match u with
  | RetF _ => true
  | TauF _ => false
  | VisF e _ => match e with inl1 _ => false | inr1 _ => true end
  end.

Lemma steps_bind {A B} (k : A → prog B) n : ∀ (t : prog A) l u, steps n (observe (t ≫= k)) l u →
  (∃ t', steps n (observe t) l (observe t') ∧ u = observe (t' ≫= k) ∧ ∀ r, observe t' ≠ RetF r) ∨
  (∃ n1 n2 l1 l2 r, n = (n1 + n2)%nat ∧ l = l1 ++ l2 ∧ steps n1 (observe t) l1 (RetF r) ∧ steps n2 (observe (k r)) l2 u).
Proof.
  induction n as [|n IH]; intros t l u H; unfold mbind, prog_bind in *; rewrite observe_bind in H; destruct (observe t) as [r|t1|X [e|e] h] eqn:E.
  1,5: right; eexists O, _, [], l, r; done.
  1-3: destruct H as [-> ->]; left; exists t; cbn; rewrite E; split; [done|]; split; [by rewrite observe_bind, E|done].
  - cbn [steps] in H. destruct (IH t1 l u H) as [(t' & H1 & H2)|(n1 & n2 & l1 & l2 & r & -> & -> & H1 & H2)]; [left; exists t'; done|].
    right. by exists (S n1), n2, l1, l2, r.
  - cbn [steps] in H. destruct H as (x & l' & -> & H). destruct (IH (h x) l' u H) as [(t' & H1 & H2)|(n1 & n2 & l1 & l2 & r & -> & -> & H1 & H2)]; [left; exists t'; cbn; eauto|].
    right. exists (S n1), n2, (Ev e x :: l1), l2, r. cbn. eauto 10.
  - done.
Qed.

(** The answer of a fork, and of a wait. *)
Definition forked (v : ev) : option Z := match v with Ev Fork x => Some x | _ => None end.
Definition waited (v : ev) : option Z := match v with Ev Wait x => Some x | _ => None end.

(** One shell at a time: after a fork that answered [p] the next one may come only when [p]
    is a process and a wait has answered [p] or failed. *)
Inductive phase := Idle | Shell (p : Z) | Wrong.

Definition watch (ph : phase) (v : ev) : phase :=
  match forked v with
  | Some p => match ph with Idle => Shell p | _ => Wrong end
  | None =>
      match waited v, ph with
      | Some w, Shell p => if (0 <? p) && ((w =? p) || (w <? 0)) then Idle else ph
      | _, _ => ph
      end
  end.

Lemma watch_wrong l : foldl watch Wrong l = Wrong.
Proof. induction l as [|v l IH]; [done|]. cbn [foldl]. replace (watch Wrong v) with Wrong; [done|]. unfold watch. by destruct (forked v), (waited v). Qed.

Lemma watch_shell p l : foldl watch (Shell p) l = Wrong ∨ foldl watch (Shell p) l = Shell p ∨ 0 < p ∧ ∃ v w, v ∈ l ∧ waited v = Some w ∧ (w = p ∨ w < 0).
Proof.
  induction l as [|v l IH]; [by right; left|]. cbn [foldl]. destruct (watch (Shell p) v) as [|p'|] eqn:E; [|assert (p' = p) as ->|left; apply watch_wrong].
  - right. right. unfold watch in E. destruct (forked v); [done|]. destruct (waited v) as [w|] eqn:Ew; [|done].
    destruct (Z.ltb_spec 0 p), (Z.eqb_spec w p), (Z.ltb_spec w 0); cbn in E; try done; (split; [done|]; exists v, w; split; [apply elem_of_cons; by left|auto]).
  - unfold watch in E. destruct (forked v); [done|]. destruct (waited v); [destruct (_ && _); [done|]|]; by injection E.
  - destruct IH as [?|[?|(H0 & v' & w & Hv & Hw)]]; [by left|by right; left|]. right. right. split; [done|]. exists v', w. split; [apply elem_of_cons; by right|done].
Qed.

Lemma watch_forked l p : foldl watch Idle l = Shell p → ∃ v, v ∈ l ∧ forked v = Some p.
Proof.
  induction l as [|v l IH] using rev_ind; [done|]. rewrite foldl_app. cbn [foldl]. intros E.
  destruct (foldl watch Idle l) as [|q|] eqn:Eq; unfold watch in E; destruct (forked v) as [x|] eqn:Ef; try done.
  - injection E as <-. exists v. split; [set_solver|done].
  - by destruct (waited v).
  - assert (q = p) as -> by (destruct (waited v); [destruct (_ && _); [done|]|]; by injection E). destruct (IH eq_refl) as (v' & Hv & Hf). exists v'. split; [set_solver|done].
  - by destruct (waited v).
Qed.

(** The program started in phase [ph] forks only when it may, exits only after a fork that
    failed or in a child, and returns in a phase with [Q]. *)
Definition obeys {R} (ph : phase) (t : prog R) (Q : R → phase → Prop) : Prop := ∀ n l u, steps n (observe t) l u →
  foldl watch ph l ≠ Wrong ∧
  match u with
  | RetF r => Q r (foldl watch ph l)
  | _ => ended u = true → ∃ p, p ≤ 0 ∧ foldl watch ph l = Shell p
  end.

Lemma obeys_ret {R} ph (r : R) (Q : R → phase → Prop) : ph ≠ Wrong → Q r ph → obeys ph (mret r) Q.
Proof. intros H HQ [|n] l u; cbn; [|done]. by intros [-> ->]. Qed.

Lemma obeys_exit {R} p (Q : R → phase → Prop) : p ≤ 0 → obeys (Shell p) exit Q.
Proof. intros H [|n] l u; cbn; [|done]. intros [-> ->]. split; [done|]. intros _. by exists p. Qed.

Lemma obeys_bind {A B} ph (t : prog A) (k : A → prog B) Q1 Q : obeys ph t Q1 → (∀ r ph', ph' ≠ Wrong → Q1 r ph' → obeys ph' (k r) Q) → obeys ph (t ≫= k) Q.
Proof.
  intros Ht Hk n l u Hu. destruct (steps_bind k n t l u Hu) as [(t' & H1 & -> & E)|(n1 & n2 & l1 & l2 & r & -> & -> & H1 & H2)].
  - destruct (Ht _ _ _ H1) as [Hw Hr]. split; [done|]. unfold mbind, prog_bind. rewrite observe_bind. destruct (observe t') as [r|t1|X [e|e] h]; [by destruct (E r)|done|done|done].
  - destruct (Ht _ _ _ H1) as [Hw Hr]. rewrite foldl_app. by apply (Hk r _ Hw Hr n2).
Qed.

Lemma obeys_call {X B} ph (e : callE X) (k : X → prog B) Q : ph ≠ Wrong → (∀ x, obeys (watch ph (Ev e x)) (k x) Q) → obeys ph (call e ≫= k) Q.
Proof.
  intros Hw Hk [|n] l u; unfold mbind, prog_bind; rewrite observe_bind; cbn; [by intros [-> ->]|]. intros (x & l' & -> & H).
  rewrite observe_bind in H. by apply (Hk x n l').
Qed.

Lemma obeys_loop {A B} (Inv : A → phase → Prop) (body : A → prog (A + B)) Q :
  (∀ a ph, Inv a ph → obeys ph (body a) (λ r ph', match r with inl a' => Inv a' ph' | inr b => Q b ph' end)) →
  ∀ a ph, ph ≠ Wrong → Inv a ph → obeys ph (loop body a) Q.
Proof.
  intros Hb a ph Hw Ha n. revert a ph Hw Ha. induction (lt_wf n) as [n _ IH]. intros a ph Hw Ha l u Hu. rewrite observe_loop in Hu.
  destruct (steps_bind _ n (body a) l u Hu) as [(t' & H1 & -> & E)|(n1 & n2 & l1 & l2 & r & -> & -> & H1 & H2)].
  - destruct (Hb a ph Ha _ _ _ H1) as [Hw' Hr]. split; [done|]. unfold mbind, prog_bind. rewrite observe_bind. destruct (observe t') as [r|t1|X [e|e] h]; [by destruct (E r)|done|done|done].
  - destruct (Hb a ph Ha _ _ _ H1) as [Hw' Hr]. rewrite foldl_app. destruct r as [a'|b]; destruct n2 as [|n2]; cbn in H2; try done; [by destruct H2 as [-> ->]| |by destruct H2 as [-> ->]].
    apply (IH n2 ltac:(lia) a' _ Hw' Hr _ _ H2).
Qed.

(** Printing says nothing about processes. *)
Lemma obeys_print ph fd text : ph ≠ Wrong → obeys ph (print fd text) (λ _ ph', ph' = ph).
Proof. intros Hw. induction text as [|c text IH]; cbn [print]; [by apply obeys_ret|]. by apply obeys_call. Qed.

Lemma obeys_init_reap p : 0 < p → obeys (Shell p) (init_reap p) (λ _ ph, ph = Idle).
Proof.
  intros Hp. apply (obeys_loop (λ _ ph, ph = Shell p)); [|done|done]. intros _ ph ->. apply obeys_call; [done|]. intros w. cbn [watch forked waited]. rewrite (proj2 (Z.ltb_lt 0 p) Hp). cbn [andb].
  destruct (Z.leb_spec 0 w), (Z.eqb_spec w p), (Z.ltb_spec w 0); try lia; cbn [andb negb orb]; try by apply obeys_ret.
  eapply obeys_bind; [by apply obeys_print|]. intros _ ph' Hw ->. by apply obeys_ret.
Qed.

Lemma obeys_round : obeys Idle init_round (λ _ ph, ph = Idle).
Proof.
  unfold init_round. eapply obeys_bind; [by apply obeys_print|]. intros _ ph _ ->. apply obeys_call; [done|]. intros p. cbn [watch forked].
  destruct (Z.ltb_spec p 0); [|destruct (Z.eqb_spec p 0)].
  - eapply obeys_bind; [by apply obeys_print|]. intros _ ph _ ->. apply obeys_exit. lia.
  - apply obeys_call; [done|]. intros x. eapply obeys_bind; [by apply obeys_print|]. intros _ ph _ ->. apply obeys_exit. lia.
  - apply obeys_init_reap. lia.
Qed.

Lemma obeys_init : obeys Idle init_main (λ _ _, False).
Proof.
  unfold init_main. apply obeys_call; [done|]. intros fd. eapply (obeys_bind _ _ _ (λ _ ph, ph = Idle)).
  { destruct (fd <? 0); [|by apply obeys_ret]. apply obeys_call; [done|]. intros x. apply obeys_call; [done|]. intros y. by apply obeys_ret. }
  intros _ ph _ ->. apply obeys_call; [done|]. intros x. apply obeys_call; [done|]. intros y.
  apply (obeys_loop (λ _ ph, ph = Idle)); [|done|done]. intros _ ph ->. eapply obeys_bind; [apply obeys_round|]. intros _ ph _ ->. by apply obeys_ret.
Qed.


(** * Examples *)

(** A kernel that is only its view, with the descriptors 3 to 15. *)
Definition sim_open (p : list Z) (v : view) : Z * view :=
  match v_node v p with
  | None => (-1, v)
  | Some nd =>
      match list_find (λ fd, v_open v !! fd = None) (seqZ 3 13) with
      | None => (-1, v)
      | Some (_, fd) => (fd, set_open (<[fd := (nd, 0%nat)]> (v_open v)) v)
      end
  end.

Definition sim_read (fd n : Z) (v : view) : option (list Z) * view :=
  match v_open v !! fd with
  | None => (None, v)
  | Some (nd, o) => let l := take (Z.to_nat n) (drop o (n_bytes nd)) in (Some l, set_open (<[fd := (nd, (o + length l)%nat)]> (v_open v)) v)
  end.

Definition sim X (e : callE X) : view → X * view :=
  match e with
  | Open p _ => sim_open p
  | Fstat fd => λ v, ((λ x, n_stat x.1) <$> v_open v !! fd, v)
  | Read fd n => sim_read fd n
  | Close fd => λ v, (0, set_open (delete fd (v_open v)) v)
  | Write fd l => λ v, (Z.of_nat (length l), if fd =? 1 then say l [] v else if fd =? 2 then say [] l v else v)
  | Mknod _ _ _ | Link _ _ | Unlink _ | Mkdir _ | Dup _ | Kill _ | Sleep _ | Fork | Wait | Exec _ _ => λ v, (-1, v)
  end.

Lemma sim_room (o : gmap Z (node * nat)) : (size o < 13)%nat → ∃ i fd, list_find (λ fd, o !! fd = None) (seqZ 3 13) = Some (i, fd) ∧ 3 ≤ fd ∧ o !! fd = None.
Proof.
  intros Hs. destruct (list_find _ _) as [[i fd]|] eqn:E.
  - apply list_find_Some in E as (Hi & Hf & _). exists i, fd. split; [done|]. apply lookup_seqZ in Hi as [-> ?]. split; [lia|done].
  - exfalso. apply list_find_None in E. assert (Hsub : list_to_set (C := gset Z) (seqZ 3 13) ⊆ dom o).
    { intros x Hx%elem_of_list_to_set. apply elem_of_dom. destruct (o !! x) eqn:Ex; [done|]. by destruct (Forall_forall (λ fd, o !! fd ≠ None) (seqZ 3 13)) as [H _]; destruct (H E x Hx). }
    apply subseteq_size in Hsub. rewrite size_dom, size_list_to_set in Hsub by apply NoDup_seqZ. rewrite length_seqZ in Hsub. lia.
Qed.

#[export] Instance sim_kernel : Kernel view.
Proof.
  refine {| sys := sim; view_of := id; spare := 13 |}; cbn [sim id].
  - intros w p H. unfold sim_open. by rewrite H.
  - intros w p nd H Hs. unfold sim_open. rewrite H. destruct (sim_room (v_open w) Hs) as (i & fd & -> & H3 & Hf). split; [lia|done].
  - intros w fd nd o H. by rewrite H.
  - intros w fd n nd o H Hn. unfold sim_read. by rewrite H.
  - done.
  - done.
  - done.
Defined.

(** A directory with itself, a vacant entry and a file of five bytes. *)
Definition dir_node : node := mk_node (mk_stat T_DIR 1 1 1 48)
  (dirent_bytes (mk_dirent 1 (strncpy_l (chars ".") DIRSIZ)) ++ dirent_bytes (mk_dirent 0 (strncpy_l (chars "gone") DIRSIZ)) ++ dirent_bytes (mk_dirent 7 (strncpy_l (chars "README") DIRSIZ))).
Definition example_view : view := mk_view
  (λ p, if decide (p = chars ".") then Some dir_node else if decide (p = chars "./.") then Some dir_node
        else if decide (p = chars "./README") then Some (mk_node (mk_stat T_FILE 1 7 1 5) (chars "hello")) else None)
  ∅ [] [].

Lemma example_names : names_ok example_view.
Proof.
  intros path nd e Hn Ht He. assert (nd = dir_node) as ->.
  { cbn in Hn. repeat case_decide; simplify_eq; done. }
  assert (Hf : Forall (λ e, forallb (λ c, negb (c =? ch "/")) (entry_name e) = true) (entries (n_bytes dir_node))) by (vm_compute; repeat constructor).
  rewrite Forall_forall in Hf. specialize (Hf e He). intros Hin. rewrite forallb_forall in Hf. specialize (Hf _ (proj1 (list_elem_of_In _ _) Hin)). by rewrite Z.eqb_refl in Hf.
Qed.

Lemma ls_lists_witness :
  gives (ls_main [chars "ls"]) example_view None
    (say (chars ".              1 1 48" ++ nl ++ chars "README         2 7 5" ++ nl) [] example_view).
Proof.
  assert (H : (S (size (v_open (view_of example_view))) < spare)%nat) by (apply Nat.ltb_lt; reflexivity).
  pose proof (ls_lists example_view [chars "ls"] example_names H) as G. cbv zeta in G. cbn [tail] in G. change (view_of example_view) with example_view in G.
  assert (E1 : ([chars "."] ≫= λ p, (shows example_view p).1) = chars ".              1 1 48" ++ nl ++ chars "README         2 7 5" ++ nl) by (vm_compute; reflexivity).
  assert (E2 : ([chars "."] ≫= λ p, (shows example_view p).2) = []) by (vm_compute; reflexivity).
  rewrite E1, E2 in G. exact G.
Defined.

(** A kernel that answers forks and waits from a list, and drives a program. *)
Definition answer X (e : callE X) : list Z → X * list Z :=
  match e in callE X return list Z → X * list Z with
  | Fork | Wait => λ s, (default (-1) (head s), tail s)
  | Read _ _ => λ s, (None, s)
  | Fstat _ => λ s, (None, s)
  | Open _ _ | Close _ | Write _ _ | Mknod _ _ _ | Link _ _ | Unlink _ | Mkdir _ | Dup _ | Kill _ | Sleep _ | Exec _ _ => λ s, (0, s)
  end.

Fixpoint drive {R} (n : nat) (t : itree' sysE R) (s : list Z) : list ev * itree' sysE R :=
  match n with
  | O => ([], t)
  | S n =>
      match t with
      | RetF _ => ([], t)
      | TauF t => drive n (observe t) s
      | VisF e k =>
          match e with
          | inl1 e => let '(x, s) := answer _ e s in let '(l, u) := drive n (observe (k x)) s in (Ev e x :: l, u)
          | inr1 _ => ([], t)
          end
      end
  end.

Lemma drive_steps {R} n (t : itree' sysE R) s : ∃ m, steps m t (drive n t s).1 (drive n t s).2.
Proof.
  revert t s. induction n as [|n IH]; intros t s; [by exists O|]. cbn [drive]. destruct t as [r|t|X [e|e] k]; [by exists O| | |by exists O].
  - destruct (IH (observe t) s) as [m H]. by exists (S m).
  - destruct (answer X e s) as [x s1]. destruct (IH (observe (k x)) s1) as [m H]. destruct (drive n (observe (k x)) s1) as [l u]. exists (S m). cbn. eauto.
Qed.

