(* ===== verification/SwapExamples.v ===== *)
(** An instance of the theorem on swap files: an empty swap file on the disk of
    FsExamples.v. *)
From Stdlib Require Import ZArith Lia Bool.
From stdpp Require Import base tactics list list_numbers strings sets gmap fin_sets.
From S2P Require Import Prelude Machine State Bio Log Blocks LogBlocks Fs FsAlloc FsInode FsWrite FsFile Pipe File OpenFile SwapDisk FsExamples.

#[local] Instance no_devs : DevSw lst := { dev_read _ := None; dev_write _ := None }.

Definition swap_inode : inode := mk_inode 1 2 1 initsleeplock 1 T_FILE 0 0 1 0 (replicate 13 0).
Definition swap_state : ffs lst :=
  mk_ffs (mk_fss (idle_lst 0) fs_sb [swap_inode] 1) [mk_file FD_INODE 1 O_WRONLY O_RDWR 0 0 0] ∅ false.

Lemma swap_base : fs_base (fsx swap_state).
Proof. exact (base_icache _ [swap_inode] (fs_base_ok 0 ltac:(done))). Qed.

Lemma swap_slots : ∀ k, slot (blocks (fsx swap_state)) swap_inode k = 0.
Proof.
  intros k. unfold slot. change (addr swap_inode 12) with 0. cbn [Z.eqb]. repeat case_match; try done.
  unfold addr. cbn [swap_inode i_addrs]. destruct (_ !! _) as [a|] eqn:E; [|done].
  apply lookup_replicate in E as [-> _]. done.
Qed.

Lemma swap_idle : idle 0 (fsx swap_state) swap_inode.
Proof.
  split; try done.
  - apply swap_base.
  - split; try done.
    + intros k _. by rewrite swap_slots.
    + intros k k' _ _. by rewrite swap_slots.
    + intros k Hk H. change (k * 512 < 0) in H. lia.
  - vm_compute. lia.
Qed.

Lemma swap_file_ok : swap_file swap_state 1.
Proof. exists 0%nat, (mk_file FD_INODE 1 O_WRONLY O_RDWR 0 0 0), swap_inode, 0%nat. split_and!; [done| |done]. split; try done. apply swap_idle. Qed.

Definition page7 : list Z := replicate 4096 7.

Lemma swap_page_roundtrip_witness :
  runs (r ← (fs_set_off 1 0;; fs_filewrite 1 page7); x ← (fs_set_off 1 0;; fs_fileread 1 4096); mret (r, x)) swap_state
    (λ '(r, x) s', r = 4096 ∧ x = (4096, page7) ∧ swap_file s' 1).
Proof.
  eapply runs_mono; [apply (swap_page_roundtrip swap_state 1 0 page7 swap_file_ok); [apply Nat.le_0_l|apply Nat.ltb_lt; reflexivity|reflexivity]|].
  intros [r x] s' (-> & -> & H & _). done.
Defined.
