(* ===== verification/Examples.v ===== *)
(** Concrete machines on which the theorems about memory and paging apply. *)
From Stdlib Require Import ZArith Lia Bool.
From stdpp Require Import base tactics list gmap strings sets.
From S2P Require Import Prelude Machine CString Format Kalloc PageTable Locks State Vm Uvm Paging Swap PageFault.

(** * A kernel and its memory *)

#[global, refine] Instance example_kernel : KernelImage := {| kend := 0x80115000; kdata := 0x80108000 |}.
Proof. all: first [reflexivity | split; vm_compute; discriminate]. Defined.

Definition zeroes : memory := λ _, 0.

(** Page [k] of the machine. *)
Definition pg (k : Z) : Z := 0x80200000 + 4096 * k.

(** A page is not on a list of other pages. *)
Ltac notin := repeat (apply not_elem_of_cons; split; [unfold pg; lia|]); apply not_elem_of_nil.

Definition store_words (l : list (Z * Z)) (m : memory) : memory := foldr (λ w m, st32 m w.1 w.2) m l.

(** Pages 1, 2 and 3 are free. Page 10 is a page directory and page 11 its table
    for the first 4MB: page 1 there is paged out, pages 2 and 3 are in frames 12
    and 13, and page 3 has been accessed. *)
Definition example_words : list (Z * Z) :=
  [ (pg 1, pg 2); (pg 2, pg 3); (pg 3, 0);
    (pg 10, V2P (pg 11) + 7);
    (pg 11 + 4, 0x206); (pg 11 + 8, V2P (pg 12) + 7); (pg 11 + 12, V2P (pg 13) + 0x27) ].

Definition example_mem : memory := store_words example_words zeroes.
Definition example_km : kmst := mk_kmst example_mem (pg 1) true false.

Lemma good_pg k : 0 ≤ k < 4096 → good_page (pg k).
Proof.
  intros Hk. unfold good_page, pg, PGSIZE, KERNBASE, PHYSTOP. cbn [kend example_kernel].
  split; [Z.to_euclidean_division_equations; lia|lia].
Qed.

Lemma example_kmem : wf_kmem example_km [pg 1; pg 2; pg 3].
Proof.
  split; [repeat split; vm_compute; reflexivity| | |reflexivity].
  - repeat (apply NoDup_cons; split; [notin|]). apply NoDup_nil; done.
  - repeat constructor; apply good_pg; lia.
Qed.

Lemma ld32_zeroes a : ld32 zeroes a = 0.
Proof. reflexivity. Qed.

(** Only the first entry of the directory is present. *)
Lemma example_pde d : 0 ≤ d < 1024 → pde_at example_mem (pg 10) d = if d =? 0 then V2P (pg 11) + 7 else 0.
Proof.
  intros Hd. destruct (Z.eqb_spec d 0) as [->|Hne]; [reflexivity|].
  unfold pde_at, example_mem, example_words, store_words, pg. cbn [foldr fst snd].
  rewrite !ld32_st32_ne by lia. apply ld32_zeroes.
Qed.

Lemma example_present d : 0 ≤ d < 1024 → pde_present example_mem (pg 10) d = true → d = 0.
Proof.
  intros Hd. unfold pde_present. rewrite example_pde by done.
  destruct (Z.eqb_spec d 0); [done|]. discriminate.
Qed.

Lemma example_pgdir : wf_pgdir example_mem (pg 10) [pg 1; pg 2; pg 3].
Proof.
  split.
  - apply good_pg. lia.
  - notin.
  - intros d Hd Hp. rewrite (example_present d Hd Hp).
    replace (pde_table example_mem (pg 10) 0) with (pg 11) by reflexivity.
    split; [apply good_pg; lia|]. split; [unfold pg; lia|notin].
  - intros d d' Hd Hd' Hp Hp' _. by rewrite (example_present d Hd Hp), (example_present d' Hd' Hp').
Qed.

(** * Strings and numbers *)

Lemma safestrcpy_correct_witness :
  let m := st_bytes zeroes 100 [104; 101; 108; 108; 111] in
  cstr m 100 [104; 101; 108; 108; 111] ∧
  cstr (safestrcpy m 200 100 4) 200 [104; 101; 108] ∧
  ∀ b, ¬ 200 ≤ b < 200 + 4 → ld8 (safestrcpy m 200 100 4) b = ld8 m b.
Proof.
  intros m. assert (H : cstr m 100 [104; 101; 108; 108; 111]) by (repeat split; (reflexivity || lia)).
  split; [exact H|]. apply (safestrcpy_correct m 200 100 4 [104; 101; 108; 108; 111]); [lia|exact H|cbn; lia].
Defined.

Lemma itoa_atoi_witness :
  ∃ m', itoa zeroes 4096 500 = Some m' ∧ atoi 12 m' 500 = Some 4096 ∧ cstr m' 500 (decimal 4096) ∧
    (∀ a, ¬ 500 ≤ a ≤ 500 + Z.of_nat (length (decimal 4096)) → ld8 m' a = ld8 zeroes a).
Proof. apply (itoa_atoi zeroes 4096 500). lia. Defined.

Lemma swap_path_bounds_witness :
  ∃ m', swap_path zeroes 500 10000000 = Some m' ∧ cstr m' (500 + 6) (decimal 10000000) ∧
    (500 + 6 + Z.of_nat (length (decimal 10000000)) < 500 + DIGITS ↔ 10000000 < 10 ^ 7).
Proof. apply (swap_path_bounds zeroes 500 10000000). lia. Defined.

Lemma printint_correct_witness :
  read_signed (printint (-2147483648) 10 true) = -2147483648 ∧
  read_signed (user_printint (-2147483648) 10 true) = -2147483648 ∧
  (length (printint_buf lower_digits (-2147483648) 10 true) ≤ 16)%nat ∧
  (length (printint_buf lower_digits (-2147483648) 16 false) ≤ 16)%nat.
Proof. apply (printint_correct (-2147483648)). lia. Defined.

(** The text of the format is "%d: %s%%"; the string is "hi". *)
Lemma printf_cprintf_witness :
  let m := st_bytes zeroes 100 [104; 105] in
  printf 9 m 0 [37; 100; 58; 32; 37; 115; 37; 37] [-7; 100] = Some [45; 55; 58; 32; 104; 105; 37] ∧
  printf 9 m 0 [37; 100; 58; 32; 37; 115; 37; 37] [-7; 100] = cprintf 9 m [37; 100; 58; 32; 37; 115; 37; 37] [-7; 100].
Proof.
  intros m. split; [vm_compute; reflexivity|].
  apply (printf_cprintf 9 m [37; 100; 58; 32; 37; 115; 37; 37] [-7; 100]). reflexivity.
Defined.

(** * The allocator *)

Lemma kalloc_refines_stack_witness :
  let ops := [KAlloc; KAlloc; KFree (pg 1); KAlloc; KAlloc; KAlloc] in
  runs (run_ops ops) example_km (λ rs s', rs = [pg 1; pg 2; pg 1; pg 3; 0] ∧ wf_kmem s' []).
Proof.
  intros ops. apply (kalloc_refines_stack ops example_km [pg 1; pg 2; pg 3]); [apply example_kmem|].
  cbn. rewrite decide_True; [reflexivity|]. split; [apply good_pg; lia|notin].
Defined.

Lemma kinit_frees_all_witness :
  let s := mk_kmst zeroes 0 false false in
  let p := PGROUNDUP kend in
  let n := Z.to_nat ((KERNBASE + PHYSTOP - p) / PGSIZE) in
  runs (kinit1 kend (P2V 0x400000);; kinit2 (P2V 0x400000) (P2V PHYSTOP)) s (λ _ s',
    use_lock s' = true ∧ wf_kmem s' (reverse (page_run p n)) ∧
    free_pages_in_system n s' = Ok ((KERNBASE + PHYSTOP - p) / PGSIZE, s')).
Proof. intros s. apply (kinit_frees_all s); [reflexivity | vm_compute; discriminate]. Defined.

Lemma double_free_cycle_witness :
  runs (kfree (pg 20);; kfree (pg 20)) example_km (λ _ s',
    (∀ fuel, free_pages_in_system fuel s' = NoFuel) ∧
    runs (r1 ← kalloc; r2 ← kalloc; mret (r1, r2)) s' (λ r _, r = (pg 20, pg 20))).
Proof.
  apply (double_free_cycle (pg 20) example_km [pg 1; pg 2; pg 3]);
    [apply example_kmem | apply good_pg; lia | notin].
Defined.

(** * The page table *)

(** The walk for an address without a page table takes page 1. *)
Lemma walkpgdir_preserves_space_witness :
  runs (walkpgdir (pg 10) 0x40000000 true) example_km (λ r s', ∃ l',
    mapped example_km s' (pg 10) [pg 1; pg 2; pg 3] l' (aspace (mem example_km) (pg 10)) ∧
    (r = 0 ∧ l' = [] ∨ r ≠ 0 ∧ ld32 (mem s') r = aspace (mem s') (pg 10) 0x40000000)).
Proof.
  apply (walkpgdir_preserves_space (pg 10) 0x40000000 example_km [pg 1; pg 2; pg 3]);
    [apply example_kmem | apply example_pgdir].
Defined.

(** The second 4MB of the address space has no table yet. *)
Lemma mappages_correct_witness :
  runs (mappages (pg 10) 0x400800 6000 0x300000 PTE_W) example_km (λ r s', ∃ l' k,
    mapped example_km s' (pg 10) [pg 1; pg 2; pg 3] l'
      (map_run (aspace (mem example_km) (pg 10)) (PGROUNDDOWN 0x400800) 0x300000 PTE_W k) ∧
    (r = 0 ∧ k = 2%nat ∨ r = -1 ∧ (k ≤ 1)%nat ∧ l' = [])).
Proof.
  apply (mappages_correct (pg 10) 0x400800 6000 0x300000 PTE_W example_km [pg 1; pg 2; pg 3]);
    [apply example_kmem | apply example_pgdir | lia | lia | lia | lia | ].
  intros a Ha. change (0x400000 ≤ a < 0x402000) in Ha. unfold aspace.
  assert (E : PDX a = 1) by (rewrite PDX_div by lia; Z.to_euclidean_division_equations; lia).
  rewrite E. reflexivity.
Defined.

(** * A file system with one file, of whole pages *)

Record pagefile := mk_pf { pf_pages : list (list Z); pf_off : Z }.

#[global] Instance pagefile_ops : FsOps pagefile := {|
  fs_begin_op := mret tt; fs_end_op := mret tt;
  fs_filedup := λ _, mret tt; fs_fileclose := λ _, mret tt;
  fs_idup := λ _, mret tt; fs_iput := λ _, mret tt;
  fs_namei := λ _ _, mret 0; fs_ilock := λ _, mret tt; fs_iunlockput := λ _, mret tt;
  fs_readi := λ _ _ _, mret (-1, []);
  fs_set_off := λ _ o, modify (λ s, mk_pf (pf_pages s) o);
  fs_filewrite := λ _ d, s ← get;
    let i := Z.to_nat (pf_off s / PGSIZE) in
    if decide (i ≤ length (pf_pages s))%nat then
      modify (λ s, mk_pf (take i (pf_pages s) ++ d :: drop (S i) (pf_pages s)) (pf_off s + PGSIZE));;
      mret PGSIZE
    else mret (-1);
  fs_fileread := λ _ n, s ← get;
    match pf_pages s !! Z.to_nat (pf_off s / PGSIZE) with
    | Some d => modify (λ s, mk_pf (pf_pages s) (pf_off s + PGSIZE));; mret (n, d)
    | None => mret (0, [])
    end;
  fs_createSwapFile := λ _, mret 1; fs_removeSwapFile := λ _ _, mret 0 |}.

Lemma page_index i : Z.to_nat (PGSIZE * Z.of_nat i / PGSIZE) = i.
Proof. rewrite Z.mul_comm, Z.div_mul by done. apply Nat2Z.id. Qed.

#[global, refine] Instance pagefile_laws : SwapLaws pagefile :=
  {| sw_ok := λ _ _, True; sw_pages := λ s _, pf_pages s |}.
Proof.
  - intros fs f i d _ Hi _ Hd _. cbn -[Z.div PGSIZE]. apply runs_bind, runs_modify, runs_bind, runs_get.
    cbn [pf_off pf_pages]. rewrite page_index, decide_True by done.
    apply runs_bind, runs_modify, runs_ret. done.
  - intros fs f i d _ Hd _. cbn -[Z.div PGSIZE]. apply runs_bind, runs_modify, runs_bind, runs_get.
    cbn [pf_off pf_pages]. rewrite page_index, Hd. apply runs_bind, runs_modify, runs_ret. done.
Defined.

(** * A process with two pages in memory *)

#[local] Instance example_config : Config := {| selection := SCFIFO |}.

(** Entry 0 is the page at 0x2000, entry 1 the page at 0x3000, which came first. *)
Definition example_ram : list p_monitor :=
  mk_pm 1 (pg 10) 0x2000 2 :: mk_pm 1 (pg 10) 0x3000 1 :: replicate 14 pm_zero.

(** The page at 0x1000 is in slot 0 of the swap file. *)
Definition example_swap : list p_monitor := mk_pm 1 (pg 10) 0x1000 0 :: replicate 15 pm_zero.

Definition example_page : list Z := replicate (Z.to_nat PGSIZE) 42.

Definition example_proc : proc :=
  mk_proc 0x4000 (pg 10) 0 RUNNING 3 (Some 0%nat) tf_zero context_zero CNone 0 (replicate 16 0) 0
    (replicate 16 0) 1 example_ram example_swap 0 2 0 0.

Definition example_state : kst pagefile :=
  mk_kst example_km (V2P (pg 10)) [example_proc] (Some 0%nat) 4 None initlock (mk_cpu 0 false true) 0 0 []
    [] 0 initlock (mk_pf [example_page] 0).

Lemma example_lookup (i : nat) e :
  example_ram !! i = Some e → pm_used e = 1 →
  i = 0%nat ∧ e = mk_pm 1 (pg 10) 0x2000 2 ∨ i = 1%nat ∧ e = mk_pm 1 (pg 10) 0x3000 1.
Proof.
  destruct i as [|[|i]]; cbn; [naive_solver..|]. intros Hi%list_elem_of_lookup_2.
  change (e ∈ replicate 14 pm_zero) in Hi. apply elem_of_replicate_inv in Hi. by subst.
Qed.

Lemma example_ram_ok : ram_ok [pg 1; pg 2; pg 3] example_km example_proc.
Proof.
  split; [apply example_kmem|apply example_pgdir| |].
  - intros i e Hi Hu. destruct (example_lookup i e Hi Hu) as [[_ ->]|[_ ->]];
      (split; [done|]; split; [unfold KERNBASE; cbn; lia|]; split; reflexivity).
  - intros i j e e' Hi Hj Hu Hu' Hv.
    destruct (example_lookup i e Hi Hu) as [[-> ->]|[-> ->]],
      (example_lookup j e' Hj Hu') as [[-> ->]|[-> ->]]; done.
Qed.

Lemma example_queue : is_queue example_ram 2 [1%nat; 0%nat].
Proof.
  split.
  - repeat constructor; set_solver.
  - intros i. split.
    + intros Hi. assert (i = 1%nat ∨ i = 0%nat) as [-> | ->] by set_solver; cbn; eauto.
    + intros (e & Hi & Hu). destruct (example_lookup i e Hi Hu) as [[-> _]|[-> _]]; set_solver.
  - repeat constructor.
  - intros i Hi. assert (i = 1%nat ∨ i = 0%nat) as [-> | ->] by set_solver; cbn; lia.
Qed.

(** The older page has its accessed bit on and gets its second chance. *)
Lemma select_SCFIFO_second_chance_witness :
  second_chance (accessed example_mem example_proc) [1; 0]%nat [] = Some (0, [0; 1], [1])%nat ∧
  runs select_SCFIFO example_state (λ ret s', ∃ v q' cleared pr',
    second_chance (accessed example_mem example_proc) [1; 0]%nat [] = Some (v, q', cleared) ∧ ret = Z.of_nat v ∧
    touched 0 example_state s' example_proc pr' ∧ is_queue (p_ram_monitor pr') (p_last_in_queue pr') q' ∧
    ∀ i, i ∈ [1; 0]%nat → accessed (mem (km s')) pr' i = accessed example_mem example_proc i && bool_decide (i ∉ cleared)).
Proof.
  split; [vm_compute; reflexivity|].
  apply (select_SCFIFO_second_chance 0 [pg 1; pg 2; pg 3] example_state example_proc [1; 0]%nat);
    [reflexivity | reflexivity | apply example_ram_ok | apply example_queue | discriminate | cbn; lia | cbn; lia].
Defined.

Lemma select_LIFO_youngest_witness : select_LIFO example_state = Ok (0, example_state).
Proof.
  apply (select_LIFO_youngest 0 example_state example_proc [1%nat] 0);
    [reflexivity | reflexivity | apply example_queue].
Defined.

Lemma page_out_page_in_witness :
  runs (page_out 0x2000 (pg 10)) example_state (λ _ s1,
    let e1 := aspace (mem (km s1)) (pg 10) 0x2000 in
    tst e1 PTE_P = false ∧ tst e1 PTE_PG = true ∧ PTE_ADDR e1 = 0 ∧
    runs (page_in 0x2000 (V2P (pg 5)) (pg 10)) s1 (λ _ s2,
      procs s2 = procs example_state ∧ cr3 s2 = V2P (pg 10) ∧ wf_pgdir (mem (km s2)) (pg 10) [pg 1; pg 2; pg 3] ∧
      ∀ va', 0 ≤ va' < 2 ^ 32 → aspace (mem (km s2)) (pg 10) va' =
        if va' / 4096 =? 0x2000 / 4096 then V2P (pg 5) + clr (Z.lor (PTE_FLAGS (V2P (pg 12) + 7)) 7) PTE_PG
        else aspace example_mem (pg 10) va')).
Proof.
  apply (page_out_page_in example_kernel pagefile 0 [pg 1; pg 2; pg 3] example_state example_proc 0x2000 (pg 5));
    [reflexivity | reflexivity | apply example_pgdir | cbn; lia | lia | reflexivity | apply good_pg; lia].
Defined.

Lemma example_slots : slots_rel example_swap [example_page] {[ 0x1000 := example_page ]}.
Proof.
  assert (Hl : ∀ i e, example_swap !! i = Some e → i = 0%nat ∧ e = mk_pm 1 (pg 10) 0x1000 0 ∨ e = pm_zero).
  { intros [|i] e; cbn; [naive_solver|]. intros Hi%list_elem_of_lookup_2. right.
    change (e ∈ replicate 15 pm_zero) in Hi. by apply elem_of_replicate_inv in Hi. }
  split.
  - reflexivity.
  - intros i e [[_ ->]| ->]%Hl; cbn; auto.
  - intros i e [[-> ->]| ->]%Hl Hu; [|done]. exists example_page. split; [reflexivity|]. apply lookup_singleton_eq.
  - intros va d [<- _]%lookup_singleton_Some. by exists 0%nat, (mk_pm 1 (pg 10) 0x1000 0).
  - intros i j e e' [[-> ->]| ->]%Hl [[-> ->]| ->]%Hl Hu Hv; done || lia.
Qed.

Lemma example_swap_rel : swap_rel 0 example_state example_proc {[ 0x1000 := example_page ]}.
Proof. split; try reflexivity; [discriminate|apply example_slots]. Qed.

(** The page at 0x2000 is in frame 12, which holds zeroes. *)
Lemma example_frame : frame_at example_mem (pg 10) 0x2000 (pg 12).
Proof.
  split; try reflexivity; [unfold KERNBASE; lia|]. intros b Hb. unfold PGSIZE in Hb. split.
  - unfold pg, PGSIZE in *. lia.
  - intros d Hd Hp. rewrite (example_present d Hd Hp).
    replace (pde_table example_mem (pg 10) 0) with (pg 11) by reflexivity. unfold pg, PGSIZE in *. lia.
Qed.

Lemma example_uread : uread example_mem (pg 10) 0x2000 (Z.to_nat PGSIZE) = Some (replicate (Z.to_nat PGSIZE) 0).
Proof.
  change 0x2000 with (0x2000 + 0). apply (uread_frame _ _ _ _ (pg 12)); [apply example_frame|lia|unfold PGSIZE; lia| |].
  - apply length_replicate.
  - intros i c [-> Hi]%lookup_replicate. unfold PGSIZE in Hi. unfold example_mem, example_words, store_words, pg.
    cbn [foldr fst snd]. rewrite !ld8_st32_ne by lia. reflexivity.
Qed.

(** The page at 0x2000 goes out, memory is wiped, and both pages come back. *)
Lemma swap_file_refines_map_witness :
  let ops := [SWrite 0x2000 (pg 10); SMem zeroes 0; SRead 0 0x2000; SRead 3 0x1000] in
  runs (run_sops 0 ops) example_state (λ r s',
    r = [replicate (Z.to_nat PGSIZE) 0; example_page] ∧ ∃ pr', swap_rel 0 s' pr' ∅).
Proof.
  intros ops.
  apply (swap_file_refines_map 0 ops example_state example_proc {[ 0x1000 := example_page ]});
    [apply example_swap_rel | intros va x [_ <-]%lookup_singleton_Some; reflexivity |].
  unfold ops. cbn [map_sops]. rewrite lookup_singleton_ne by done.
  change (uread (mem (km example_state)) (P2V (cr3 example_state)) 0x2000 (Z.to_nat PGSIZE)) with
    (uread example_mem (pg 10) 0x2000 (Z.to_nat PGSIZE)). rewrite example_uread.
  rewrite decide_True by (rewrite map_size_singleton; lia). rewrite lookup_insert_eq. cbn [mbind option_bind].
  rewrite delete_insert_id by (by apply lookup_singleton_ne). rewrite lookup_singleton_eq. cbn [mbind option_bind].
  by rewrite delete_singleton_eq.
Defined.

