(* ===== verification/SchedExamples.v ===== *)
(** A process table on which the theorems about scheduling apply. *)
From Stdlib Require Import ZArith Lia Bool.
From stdpp Require Import base tactics list gmap strings sets relations.
From S2P Require Import Prelude Machine CString Format Kalloc PageTable Locks State Vm Uvm Paging Swap PageFault Proc Keeps Sched Examples.

#[local] Instance one_config : Config := {| selection := LIFO |}.
#[global] Instance one_cpu : Cpus := {| lapicid := 0; apicids := [0] |}.
#[global] Instance one_text : KernelText := {| addr_forkret := 0x80103000; addr_trapret := 0x80105000 |}.

(** init, in slot 0, and its child, in slot 1. *)
Definition init_proc : proc :=
  mk_proc 0x1000 (pg 10) (pg 20) RUNNING 1 None tf_zero context_zero CNone 0 (replicate 16 0) 0
    (replicate 16 0) 0 (replicate 16 pm_zero) (replicate 16 pm_zero) 0 0 0 0.
Definition child_proc : proc :=
  mk_proc 0x1000 (pg 11) (pg 21) RUNNABLE 2 (Some 0%nat) tf_zero context_zero CNone 0 (replicate 16 0) 0
    (replicate 16 0) 0 (replicate 16 pm_zero) (replicate 16 pm_zero) 0 0 0 0.

Definition two_procs : kst pagefile :=
  mk_kst example_km (V2P (pg 10)) (init_proc :: child_proc :: replicate 62 proc_zero) (Some 0%nat) 3 (Some 0%nat)
    initlock (mk_cpu 0 false true) 0 (pg 9) [] [] 0 initlock (mk_pf [] 0).

Lemma two_view (i : nat) e :
  view two_procs !! i = Some e →
  i = 0%nat ∧ e = psig init_proc ∨ i = 1%nat ∧ e = psig child_proc ∨ (2 ≤ i)%nat ∧ e = psig proc_zero.
Proof.
  unfold view. rewrite list_lookup_fmap. intros H.
  destruct (procs two_procs !! i) as [p|] eqn:E; [|done]. injection H as <-.
  destruct i as [|[|i]]; [by injection E as <-; left|by injection E as <-; right; left|].
  change (replicate 62 proc_zero !! i = Some p) in E. apply lookup_replicate in E as [-> _].
  right. right. split; [lia|done].
Qed.

Lemma two_procs_good : good two_procs.
Proof.
  split; [|intros i e [[-> ->]|[[-> ->]|[Hi ->]]]%two_view; cbn; split; naive_solver lia|reflexivity|cbn; lia].
  split.
  - intros i e [[-> ->]|[[-> ->]|[Hi ->]]]%two_view; cbn; [lia|lia|done].
  - intros i j e f [[-> ->]|[[-> ->]|[Hi ->]]]%two_view [[-> ->]|[[-> ->]|[Hj ->]]]%two_view; cbn; done.
  - intros i e [[-> ->]|[[-> ->]|[Hi ->]]]%two_view; done.
  - intros i e [[-> ->]|[[-> ->]|[Hi ->]]]%two_view; done.
  - intros i [= <-]. by exists (psig init_proc).
  - intros i e j [[-> ->]|[[-> ->]|[Hi ->]]]%two_view; done.
  - intros i j e f [[-> ->]|[[-> ->]|[Hi ->]]]%two_view; done.
Qed.

Definition two_sys : sys (F:=pagefile) := mk_sys two_procs (λ _, KForkret).

Lemma two_sys_inv : sys_inv 0 two_sys.
Proof. split; [apply two_procs_good|done]. Qed.

(** The states after init waits, and after the scheduler then runs the child. *)
Definition waiting : kst pagefile :=
  match wait_enter two_procs with Ok (_, s) => s | _ => two_procs end.
Definition waiting_sys : sys := mk_sys waiting (after (WSleep true) 0 (λ _, KForkret)).

Lemma waiting_reached : rtc kstep two_sys waiting_sys.
Proof.
  apply rtc_once. apply (k_wait two_procs (λ _, KForkret) 0 (WSleep true)); [reflexivity|].
  vm_compute. reflexivity.
Qed.

Definition child_chosen : kst pagefile :=
  match scheduler_from 0 waiting with Ok (_, s) => s | _ => waiting end.
Definition child_runs : kst pagefile :=
  match forkret child_chosen with Ok (_, s) => s | _ => child_chosen end.
Definition child_sys : sys := mk_sys child_runs (konts waiting_sys).

Lemma child_reached : rtc kstep two_sys child_sys.
Proof.
  eapply rtc_r; [apply waiting_reached|].
  apply (k_run waiting (konts waiting_sys) 0 1 child_chosen (WReturn 0)); vm_compute; reflexivity.
Qed.


Lemma wait_never_misses_exit_witness :
  ∃ p q, procs waiting !! 0%nat = Some p ∧ p_state p = SLEEPING ∧ p_chan p = CProc 0 ∧
    procs waiting !! 1%nat = Some q ∧ p_parent q = Some 0%nat ∧ p_state q ≠ ZOMBIE.
Proof.
  exists (set_p_state SLEEPING (set_p_chan (CProc 0) init_proc)), child_proc.
  assert (H0 : procs waiting !! 0%nat = Some (set_p_state SLEEPING (set_p_chan (CProc 0) init_proc))) by (vm_compute; reflexivity).
  assert (H1 : procs waiting !! 1%nat = Some child_proc) by (vm_compute; reflexivity).
  do 5 (split; [assumption || reflexivity|]).
  apply (wait_never_misses_exit (CP:=one_cpu) 0 eq_refl two_sys waiting_sys two_sys_inv waiting_reached 0 1 _ _ H0 eq_refl eq_refl H1 eq_refl).
Defined.
