(* ===== verification/TrapExamples.v ===== *)
(** Concrete system calls and traps on which the theorems about them apply. *)
From Stdlib Require Import ZArith Lia Bool.
From stdpp Require Import base tactics list strings.
From S2P Require Import Prelude Machine CString Format Kalloc PageTable Locks State Vm Uvm Paging Proc Keeps Syscall Exec Trap Examples SchedExamples.

#[local] Instance lifo_config : Config := {| selection := LIFO |}.
#[local] Instance example_vars : KernelVars := {| addr_ticks := 0x80115000 |}.

(** The example machine with the first kernel page mapped through the table in
    page 14, and three argument words at the user address 0x2004. *)
Definition call_words : list (Z * Z) :=
  [ (pg 10 + 2048, V2P (pg 14) + 3); (pg 14, 3);
    (pg 12 + 4, KERNBASE); (pg 12 + 8, PTE_U); (pg 12 + 12, 1) ].
Definition call_mem : memory := store_words call_words example_mem.

Lemma call_pde d : 0 ≤ d < 1024 →
  pde_at call_mem (pg 10) d = if d =? 512 then V2P (pg 14) + 3 else pde_at example_mem (pg 10) d.
Proof.
  intros Hd. destruct (Z.eqb_spec d 512) as [->|Hne]; [reflexivity|].
  unfold pde_at, call_mem, call_words, store_words, pg. cbn [foldr fst snd].
  rewrite !ld32_st32_ne by lia. done.
Qed.

Lemma call_present d : 0 ≤ d < 1024 → pde_present call_mem (pg 10) d = true →
  d = 0 ∧ pde_table call_mem (pg 10) d = pg 11 ∨ d = 512 ∧ pde_table call_mem (pg 10) d = pg 14.
Proof.
  intros Hd. unfold pde_present. rewrite call_pde by done.
  destruct (Z.eqb_spec d 512) as [->|]; [by right|]. rewrite example_pde by done.
  destruct (Z.eqb_spec d 0) as [->|]; [by left|]. discriminate.
Qed.

Lemma call_pgdir : wf_pgdir call_mem (pg 10) [pg 1; pg 2; pg 3].
Proof.
  split; [apply good_pg; lia|notin| |].
  - intros d Hd Hp. destruct (call_present d Hd Hp) as [[_ ->]|[_ ->]];
      (split; [apply good_pg; lia|]; split; [unfold pg; lia|notin]).
  - intros d d' Hd Hd' Hp Hp'.
    destruct (call_present d Hd Hp) as [[-> ->]|[-> ->]], (call_present d' Hd' Hp') as [[-> ->]|[-> ->]]; done.
Qed.

Definition call_km : kmst := mk_kmst call_mem (pg 1) true false.
Definition call_proc : proc := set_p_tf (set_tf_esp 0x2000 tf_zero) example_proc.
Definition call_state : kst pagefile := set_procs [call_proc] (set_km call_km example_state).

Lemma argptr_inside_witness :
  argptr 1 4 call_state = Ok (Some PTE_U, call_state) ∧
  ∃ r, argptr 1 4 call_state = Ok (r, call_state) ∧
    ∀ b, r = Some b ↔ b = 4 ∧ 0 ≤ 4 ∧ 4 < 0x4000 ∧ 4 + 4 ≤ 0x4000.
Proof.
  split; [vm_compute; reflexivity|].
  apply (argptr_inside call_state 0 call_proc 1 4 [4; 0; 0; 0]);
    [reflexivity|reflexivity|unfold KERNBASE; cbn; lia|lia|vm_compute; discriminate|vm_compute; reflexivity].
Defined.

Lemma fetchstr_terminated_witness :
  ∃ r, fetchstr 0x2008 call_state = Ok (r, call_state) ∧
    let l := [4; 0; 0; 0; 1; 0; 0; 0] ++ replicate 8176 0 in
    (r = -1 ∧ 0 ∉ l ∨ 0 ≤ r ∧ 0x2008 + r < 0x4000 ∧ l !! Z.to_nat r = Some 0 ∧ 0 ∉ take (Z.to_nat r) l).
Proof.
  apply (fetchstr_terminated call_state 0 call_proc 0x2008);
    [reflexivity|reflexivity|cbn; lia|vm_compute; reflexivity].
Defined.

Lemma sys_turn_flag_unchecked_witness :
  runs sys_turn_flag call_state (λ r s',
    let sp := aspace (mem (km call_state)) (pg 10) in
    let sp' := aspace (mem (km s')) (pg 10) in
    r = SRet 1 ∧ sp' KERNBASE = Z.lor (sp KERNBASE) PTE_U ∧
    (∀ a, 0 ≤ a < 2 ^ 32 → a / PGSIZE ≠ KERNBASE / PGSIZE → sp' a = sp a) ∧
    (KERNBASE ≤ KERNBASE → PTE_U = PTE_U → 1 ≠ 0 → tst (sp' KERNBASE) PTE_U = true)).
Proof.
  apply (sys_turn_flag_unchecked call_state 0 call_proc [pg 1; pg 2; pg 3] KERNBASE PTE_U 1);
    [reflexivity|reflexivity|unfold KERNBASE; cbn; lia| | | |exact call_pgdir|reflexivity];
    (split; [vm_compute; discriminate|]; eexists; split; vm_compute; reflexivity).
Defined.

(** * exec *)

(** A file system that finds every file and in which every file is empty. *)
#[local] Instance empty_files : FsOps pagefile := {|
  fs_begin_op := mret tt; fs_end_op := mret tt;
  fs_filedup := λ _, mret tt; fs_fileclose := λ _, mret tt;
  fs_idup := λ _, mret tt; fs_iput := λ _, mret tt;
  fs_namei := λ _ _, mret 1; fs_ilock := λ _, mret tt; fs_iunlockput := λ _, mret tt;
  fs_readi := λ _ _ _, mret (0, []);
  fs_set_off := λ _ _, mret tt; fs_filewrite := λ _ _, mret 0; fs_fileread := λ _ _, mret (0, []);
  fs_createSwapFile := λ _, mret 1; fs_removeSwapFile := λ _ _, mret 0 |}.


(** * Traps *)

#[local] Instance no_calls : FileCalls pagefile := {|
  sys_pipe := mret (-1); sys_read := mret (-1); sys_exec := mret (-1); sys_fstat := mret (-1);
  sys_chdir := mret (-1); sys_dup := mret (-1); sys_open := mret (-1); sys_write := mret (-1);
  sys_mknod := mret (-1); sys_unlink := mret (-1); sys_link := mret (-1); sys_mkdir := mret (-1);
  sys_close := mret (-1) |}.
#[local] Instance no_devices : Devices pagefile := {|
  ideintr := mret tt; kbdintr := mret tt; uartintr := mret tt; lapiceoi := mret tt |}.

(** A call of getpid from user code. *)
Definition getpid_frame : trapframe :=
  set_tf_trapno T_SYSCALL (set_tf_cs 27 (set_tf_eax SYS_getpid (set_tf_esp 0x2000 tf_zero))).
Definition after_getpid : kst pagefile :=
  set_procs [set_p_tf (set_tf_eax 3 getpid_frame) call_proc] call_state.

Lemma killed_never_returns_witness :
  trap getpid_frame 0 call_state = Ok (TReturn, after_getpid) ∧ alive after_getpid.
Proof.
  split; [vm_compute; reflexivity|].
  apply (killed_never_returns getpid_frame 0 call_state after_getpid); [reflexivity|].
  left. vm_compute. reflexivity.
Defined.

(** A fault of the kernel on the page at 0x1000, which is paged out. *)
Definition kernel_fault_frame : trapframe := set_tf_trapno T_PGFLT (set_tf_cs 8 tf_zero).
Definition paged_state : kst pagefile :=
  set_procs [set_p_tf (set_tf_esp 0x1000 tf_zero) example_proc] example_state.

Lemma kernel_page_fault_fatal_witness :
  (∀ t s', trap kernel_fault_frame 0x1004 paged_state ≠ Ok (t, s')) ∧
  (0x1004 + 4 ≤ 0x4000 → tst (aspace example_mem (pg 10) 0x1004) PTE_P = false → argint 0 paged_state = Fault).
Proof.
  apply (kernel_page_fault_fatal kernel_fault_frame 0x1004 paged_state 0
    (set_p_tf (set_tf_esp 0x1000 tf_zero) example_proc) 0);
    [reflexivity|reflexivity|reflexivity|reflexivity|unfold KERNBASE; cbn; lia].
Defined.
